(* ===== verification/_CoqProject ===== *)
-Q . S2P
Prelude.v
Bytes.v
HevList.v
HevRBTree.v
RBRep.v
RBInsert.v
RBErase.v
RBTree.v
MappedDNS.v
LRU.v
DNSCache.v
DNSHandle.v
RingBuffer.v
Auth.v
AuthMap.v
TaskIO.v
TaskIOSpec.v
Socks5.v
Socks5Spec.v
LwipAddr.v
SocketSpec.v
Splice.v
SpliceSpec.v
VectorSpec.v
UDP.v
UDPSpec.v
Client.v
UDPRelay.v
ClientSpec.v
Handshake.v
TunnelSync.v
Service.v
ServiceSafe.v
ServiceStop.v
SessionSet.v
SessionTCP.v
SessionTCPSpec.v
Session.v
SessionUDP.v
SessionUDPSpec.v
CLib.v
Config.v
ConfigSpec.v
Flows.v
FlowsOwn.v
FlowsSpec.v
FlowsReach.v
TunIO.v
TunIOSpec.v
Device.v
Setup.v
SetupSpec.v
SetupRun.v
SetupOk.v
Server.v
ServerSpec.v
Interop.v
