(* ===== verification/Prelude.v ===== *)
(** * The SOCKS5 tunnel engine of KiloProxy: a verified model

    The Android application sends the traffic of the device through a SOCKS5
    server. Its native engine is the C program under app/src/main/jni/hev: it
    takes the packets from a TUN device, answers DNS requests with made-up
    addresses, and carries every connection of a local TCP/IP stack to the
    server. This development models the engine: its data structures, the DNS cache,
    the SOCKS5 protocol on both sides, the relays for streams and datagrams, the
    sessions, the settings, and how it is started, stopped and taken down. Paths
    below are relative to app/src/main/jni/hev; "core" is src/core/src and "io" is
    third-part/hev-task-system/src/lib/io.

    ** The parts, and how they interact

    - Intrusive containers: [HevList] (src/misc/hev-list.c) and [HevRBTree]
      (core/hev-rbtree.c), at the level of addresses, fields and, for the tree,
      of the word that packs the parent's address and the colour. [RBRep],
      [RBInsert], [RBErase] and [RBTree] prove the tree correct; [RBTree] is the
      interface that its clients use.
    - Mapped DNS (src/hev-mapped-dns.c): [MappedDNS] keeps every name on a list
      and in a tree; [LRU] proves that the cache is a least-recently-used map,
      [DNSCache] what follows for the operations, [DNSHandle] what a request
      is answered with.
    - The ring buffer of a TCP session (src/misc/hev-ring-buffer.c):
      [RingBuffer], with its refinement to two queues.
    - Users and authenticators (core/hev-socks5-user.c,
      core/hev-socks5-authenticator.c, and the counted references of
      hev-object-atomic.c): [Auth], on the tree; [AuthMap] refines them to a
      finite map.
    - Calls that wait: [TaskIO] (io/socket/hev-task-io-socket.c) holds the world
      that all the code below runs in, and the retry loops; [TaskIOSpec] and
      [VectorSpec] specify them.
    - The base of the protocol (core/hev-socks5.c, core/hev-socks5-misc.c,
      core/hev-socks5-proto.h): [Socks5], with [Socks5Spec] and, for the books of
      descriptors, [SocketSpec].
    - The relay for streams (io/basic/hev-task-io.c, core/hev-socks5-tcp.c):
      [Splice] and [SpliceSpec]. The relay for datagrams
      (core/hev-socks5-udp.c): [UDP], [UDPSpec] and [UDPRelay].
    - The client (core/hev-socks5-client*.c): [Client], [ClientSpec],
      [Handshake]. The server (core/hev-socks5-server.c): [Server],
      [ServerSpec]. [Interop] puts the two together.

    - The sessions between the local TCP/IP stack and the client
      (src/hev-socks5-session*.c): [SessionTCP], with [SessionTCPSpec], relays a
      connection on the ring buffer; [SessionUDP], with [SessionUDPSpec], keeps a
      queue of datagrams and moves them with [UDP]'s functions; [Session] is what
      both do first: connect to the configured server and shake hands. What lwIP
      and its callbacks do is data of the environment.
    - The tunnel (src/hev-socks5-tunnel.c): [SessionSet] is its list of sessions;
      [Flows] is what it does for new connections and datagrams and at the end of
      sessions, with the owners of everything that is allocated, in [FlowsOwn],
      [FlowsSpec] and [FlowsReach]; [TunnelSync] is the protocol that starts and
      stops the engine from several threads, as a step relation on interleavings.
    - The engine from its start to its end (src/hev-main.c, the initialisation and
      tear-down in src/hev-socks5-tunnel.c, src/misc/hev-logger.c,
      src/misc/hev-exec.c): [Setup], on the TUN device of Linux in [Device]
      (src/hev-tunnel-linux.c), with every call able to fail and with what happens
      while the tasks run as data; [SetupSpec] says what each step owns, [SetupRun]
      what a run leaves whatever fails, [SetupOk] what it does when nothing does.
    - The tasks that read the device and call lwIP's timers, and the callback that
      writes packets (src/hev-tunnel.h, src/hev-socks5-tunnel.c): [TunIO], with
      [TunIOSpec].
    - The service of the app (src/hev-jni.c): [Service], the calls of the app's
      threads and the worker thread, interleaved with [TunnelSync]'s steps;
      [ServiceSafe] has its invariant, [ServiceStop] what a stop achieves.
    - The settings (src/hev-config.c): [Config] and [ConfigSpec], with the string
      functions of the C library in [CLib].
    - [LwipAddr] (src/misc/hev-utils.c) follows a made-up address from the DNS
      server to the client's request.

    A C object that starts with another one is an instance of a class that gives
    access to it ([IsSocks5], [IsClient]); the methods of a C class are the fields
    of a type class ([ClientClass], [UDPClass], [ServerClass]); what the callers
    rely on is a class of laws ([ClientLaws], [ServerLaws]) against which their
    theorems are proved, and which the implementations are shown to satisfy.

    ** How the code is modelled

    Code that has effects is a function from a state to an outcome ([M], below):
    a value and a new state, [Blocked] when the task waits for something that
    never comes, and [Stuck] where C has no defined behaviour: a null or dangling
    pointer, an access out of bounds, a use of an object after its release.
    Theorems that give a [Val], or that hold for [wp] with a predicate on all
    outcomes, therefore include memory safety; where the code does reach something
    undefined the theorems say exactly when ([wp_or] is [wp] for such code). Integers
    are [Z] with their wrap-around written out ([u8], [u16], [u32], [u64], [i32]); a
    pointer, a [size_t] and a [long] have 64 bits.

    The environment is data. The allocator's answers, the results of system
    calls, the outcomes of the next reads and writes of every descriptor, and
    when a waiting task is woken are lists in the state; theorems quantify over
    them. Two kinds of environments occur: any at all (safety), and one that
    keeps delivering, cut into segments and with pauses in any way (functional
    correctness and termination: [ready], [smooth], [tcp_view]). The resolver of
    names is the class [Resolver].

    Loops that C leaves to the data run with fuel: tree walks with the number of
    nodes; [connect_loop] with the number of answers to come; reads and writes
    with the number of outcomes and wakes of their descriptor, each retry uses
    one up; the stream relay with twice the number of bytes to come (each is
    moved into a pipe and out of it) and the wakes. The theorems show that the
    fuel is never used up, since running out is [Stuck]. A session's relay has a
    round for every byte to come and every wake; the search of lwIP for the control
    block of a datagram has a round for every allocation that will fail, and two
    more. The scheduler of [Setup] consumes the list of what happens, and waits for
    ever ([Blocked]) when a task is left at its end. The exceptions are the loops of hev_socks5_udp_splicer and of a UDP
    session, which are executable, but for which only the two forwarders that they
    call have theorems.

    ** What is proved

    - The tree: insertion, removal and replacement keep it a red-black tree with
      exactly the expected nodes; traversal visits all in order; its height is
      logarithmic. (insert_correct, erase_correct, traversal_in_order,
      replace_correct, height_bound)
    - The DNS cache refines a least-recently-used map; an answered address leads
      back to its name until as many other names were resolved as the cache
      holds; every reachable state is well formed; destruction frees every node
      once; the handler is memory safe on every request, and its answers are the
      expected bytes. One exception runs through all theorems about it: when strdup
      fails for the node of a new name the code calls free on memory of the engine's
      own allocator; [find_undefined] says exactly when, and [strdup_ok], a condition on
      the allocator's answers, excludes it. Addresses outside of the mapped network are taken for
      mapped ones (lookup_foreign_address). (find_refines_lru, lookup_refines_lru,
      answered_address_stable, reachable_safe, destruct_frees_all, handle_safe,
      handle_answers)
    - The ring buffer is a pair of bounded queues, and writing spares what is in
      use. (ring_refines_fifo, write_keeps_used)
    - The authenticator is a finite map with reference counts, from every
      reachable state. (authenticator_refines_map)
    - A name survives the way through the DNS server and the application's
      connection into the client's request. (mapped_name_requested)
    - Addresses survive their conversions; a terminated session never waits; a
      read that is retried returns what was asked for; a vector is written like
      one buffer. (sockaddr6_roundtrip, name_roundtrip, terminated_never_waits,
      recv_waitall_exact, sendmsg_is_send)
    - The client's handshake is sound in every environment and complete in one
      that delivers; connecting keeps the books of descriptors.
      (handshake_sound, handshake_complete, connect_descriptors)
    - The stream relay sends a prefix of what came, in order, always, and all of
      it when both sides end. (relay_prefix, relay_complete)
    - The server serves only clients with valid credentials, and leaves no
      descriptor and no reference behind. (server_admission, server_no_leak) Client and server
      complete each other's handshake. (client_server_agree)
    - Datagrams cross the session whole, and the forwarders pass on exactly what
      came; a frame that ends early has no defined meaning, and the frame of a name of
      249 bytes or more is sent with a wrong length and rejected. (udp_tcp_roundtrip, fwd_f_forwards, fwd_b_frames,
      truncated_frame_undefined, long_name_rejected)
    - The list of sessions is a queue by activity, and exactly the oldest are evicted.
      (session_set_refines)
    - A TCP session is memory safe whatever the stack and the network do, and forwards
      exactly what it received in both directions, unless the stack refuses a write:
      when it refuses the first of two segments and takes the second, a hole is left.
      (session_relay_safe, refused_write_leaves_hole) A UDP session sends
      exactly the datagrams that wait, and shows the application a run of those that
      come back; of a fragmented one it sends the first part only.
      (udp_session_sends, udp_session_shows, fragments_cut)
    - In every reachable state of the tunnel all that is allocated has one owner, and
      nothing is used after its release; stopping ends all sessions and leaves nothing;
      DNS requests are answered on the spot. Without memory for a task the tunnel hangs,
      without memory for a session it spins, and a request whose name cannot be copied
      is the exception above. (flows_safe, shutdown_releases,
      dns_request_answered, no_task_waits_forever, refused_datagram_offered_again)
    - The settings are exactly what the document says; loading is safe on every input
      but one with an excessive number of UDP buffers, and leaves a task a stack that is
      larger than its buffers by a fixed amount. (config_reads, parsed_config_ok)
    - In every interleaving stopping the tunnel is safe, and an accepted stop wakes
      it; a stop that is not interrupted ends it; one that starts too early can get
      lost. (tunnel_stop_safe, tunnel_stop_ends_run, tunnel_stop_lost)
    - Whatever fails in a run of the engine, and whatever happens while its tasks run,
      it goes on because a task of its own has not ended, or ends with the descriptors
      and tasks it found, and can be started again; of lwIP's control blocks one is lost
      when tcp_listen fails, which the code does not look at. When nothing fails it sets
      up exactly the configured device, and fails only if the DNS cache does not fit its
      network. (engine_balanced, engine_runs)
    - Every packet of the device reaches lwIP once and in order, and is counted; a
      device that fails for good keeps the engine busy for ever. (device_task_exact)
    - Starting and stopping by the app's threads is safe in every interleaving, with
      one engine at a time; a stop of an engine that waits ends it; two races make a
      stop hang or the next start fail. (service_safe, service_stop_ends,
      service_stop_races)

    ** What is not modelled, and why

    lwIP and the YAML library are third-party; what the engine relies on is data of the
    state (lwIP, with the few of its functions that call back in [Flows]) or a
    parameter (the document that the YAML library makes of a text). Log lines, the
    printing of addresses, and the command line of the stand-alone program are
    output and glue; class tables and casts are replaced by type classes. Of the
    task system only what the engine's correctness rests on is modelled: retrying
    calls, splicing, mutexes and references; its scheduler is the environment, which
    wakes tasks in any order. The devices of other operating systems do not run in
    the app. badvpn, pdnsd and libancillary are vendored programs of their own. The
    app itself is Kotlin.

    Bounds of the models: other tasks do not change the DNS cache in the middle of a
    call of a UDP session; a session is not terminated while one of its socket calls
    waits, except as [hev_socks5_task_io_yielder] sees it when it is woken; the
    listeners of lwIP match every address, as they are bound. Threads occur only in
    [TunnelSync] and [Service]: elsewhere tasks switch only where they wait, and a
    task's objects are its own, except that the authenticator's counts are atomic.
    [Setup] abstracts from what [Flows], [TunIO] and [TunnelSync] model: the run is
    the tasks that begin and end, in any order that the flag [run] and the joins allow,
    with their references; a negative cache-size, for which the code writes beyond a
    block, is excluded by a hypothesis. [TunIO] has the environment as
    functions of the number of the request, and its theorem holds after any number of
    steps; the lock around a call of lwIP, which is free when these tasks run, is in
    [Flows].

    ** This file

    The conversions between C integers, the monad [M] with its notations and the
    reasoning principle [wp], and generic lemmas and tactics. *)
From Stdlib Require Export ZArith Lia.
From stdpp Require Export base numbers gmap fin_maps list.
#[export] Set Default Proof Using "Type".
Open Scope Z_scope.

(** ** C integers *)

(** Reduction to a [w]-bit unsigned integer ([size_t] has 64 bits), and to a 32-bit
    signed [int]. *)
Definition u8 (z : Z) : Z := z mod 256.
Definition u16 (z : Z) : Z := z mod 65536.
Definition u32 (z : Z) : Z := z mod 4294967296.
Definition u64 (z : Z) : Z := z mod 18446744073709551616.
Definition i32 (z : Z) : Z := (z + 2147483648) mod 4294967296 - 2147483648.

(** The truth value of a C integer. *)
Definition truthy (z : Z) : bool := negb (z =? 0).

(** ** Bytes *)

Abbreviation bytes := (list Z).

Definition is_byte (b : Z) : Prop := 0 <= b < 256.

(** Sizes as C integers. *)
Definition zlen {A} (l : list A) : Z := Z.of_nat (length l).

(** ** The monad of the C code

    A statement of the code maps the state it runs in to an [outcome]:
    [Val a s] when it completes with the value [a], [Blocked s] when it waits
    for an event that the environment never delivers, and [Stuck] when it has
    no defined behaviour (a NULL or dangling pointer is dereferenced, an array
    is accessed out of its bounds) or a loop exceeds the fuel it was given. *)
Inductive outcome (S A : Type) : Type :=
| Val (a : A) (s : S)
| Blocked (s : S)
| Stuck.
Arguments Val {S A} a s.
Arguments Blocked {S A} s.
Arguments Stuck {S A}.

Definition M (S A : Type) : Type := S → outcome S A.

#[export] Instance M_ret S : MRet (M S) := λ A a s, Val a s.
#[export] Instance M_bind S : MBind (M S) := λ A B f m s,
  match m s with
  | Val a s' => f a s'
  | Blocked s' => Blocked s'
  | Stuck => Stuck
  end.

Definition stuck {S A} : M S A := λ _, Stuck.
Definition blocked {S A} : M S A := λ s, Blocked s.
Definition gets {S A} (f : S → A) : M S A := λ s, Val (f s) s.
Definition modify {S} (f : S → S) : M S unit := λ s, Val tt (f s).
Definition when {S} (b : bool) (m : M S unit) : M S unit := if b then m else mret tt.

(** An access that may be undefined. *)
Definition of_option {S A} (o : option A) : M S A :=
  match o with Some a => mret a | None => stuck end.

(** Running code of a component on the part of a larger state it owns. *)
Definition zoom {S T A} (get : S → T) (set : T → S → S) (m : M T A) : M S A := λ s,
  match m (get s) with
  | Val a t => Val a (set t s)
  | Blocked t => Blocked (set t s)
  | Stuck => Stuck
  end.

Lemma bind_val {S A B} (m : M S A) (f : A → M S B) s a s' :
  m s = Val a s' → (m ≫= f) s = f a s'.
Proof. intros H. unfold mbind, M_bind. by rewrite H. Qed.

Lemma bind_assoc {S A B C} (m : M S A) (f : A → M S B) (g : B → M S C) s :
  ((m ≫= f) ≫= g) s = (m ≫= (λ x, f x ≫= g)) s.
Proof. unfold mbind, M_bind. by destruct (m s). Qed.

Lemma bind_ret {S A B} (a : A) (f : A → M S B) s : (mret a ≫= f) s = f a s.
Proof. done. Qed.

(** ** Tactics

    [mstep] evaluates the monadic code of a goal [m s = ...] up to the next
    test or memory access; [mlookup] evaluates accesses to updated maps. *)
#[global] Arguments mbind {_ _ _ _} _ _ / : simpl nomatch.

Ltac mstep :=
  cbv [mbind M_bind mret M_ret gets modify when stuck blocked zoom] in *; cbn beta iota in *.

Ltac mlookup :=
  repeat first
    [ rewrite lookup_insert_eq
    | rewrite lookup_insert_ne by (first [done | lia | congruence | set_solver]) ].

(** Disjoint lists. [nodup_sat] splits the duplicate-freeness and disjointness
    hypotheses on concatenations down to disequalities, non-memberships and
    disjointness of list variables; [ne] closes the disequalities and
    non-memberships that follow, and [nodup] the duplicate-freeness goals. *)
Definition disj {A} (l k : list A) : Prop := ∀ x, x ∈ l → x ∈ k → False.

Section Disjoint.
Context {A : Type}.
Implicit Types l k : list A.

Lemma NoDup_app_disj l k : NoDup (l ++ k) ↔ NoDup l ∧ disj l k ∧ NoDup k.
Proof. rewrite NoDup_app. unfold disj. set_solver. Qed.
Lemma disj_app_l l1 l2 k : disj (l1 ++ l2) k ↔ disj l1 k ∧ disj l2 k.
Proof. unfold disj. set_solver. Qed.
Lemma disj_app_r l k1 k2 : disj l (k1 ++ k2) ↔ disj l k1 ∧ disj l k2.
Proof. unfold disj. set_solver. Qed.
Lemma disj_cons_l x l k : disj (x :: l) k ↔ x ∉ k ∧ disj l k.
Proof. unfold disj. set_solver. Qed.
Lemma disj_cons_r x l k : disj l (x :: k) ↔ x ∉ l ∧ disj l k.
Proof. unfold disj. set_solver. Qed.
Lemma disj_nil_l k : disj [] k.
Proof. unfold disj. set_solver. Qed.
Lemma disj_nil_r l : disj l [].
Proof. unfold disj. set_solver. Qed.
Lemma disj_sym l k : disj l k → disj k l.
Proof. unfold disj. eauto. Qed.
End Disjoint.

Ltac nodup_sat :=
  repeat match goal with
  | H : NoDup (_ ++ _) |- _ => apply NoDup_app_disj in H; destruct H as (? & ? & ?)
  | H : NoDup (_ :: _) |- _ => apply NoDup_cons in H; destruct H as (? & ?)
  | H : NoDup [] |- _ => clear H
  | H : disj (_ ++ _) _ |- _ => apply disj_app_l in H; destruct H as (? & ?)
  | H : disj _ (_ ++ _) |- _ => apply disj_app_r in H; destruct H as (? & ?)
  | H : disj (_ :: _) _ |- _ => apply disj_cons_l in H; destruct H as (? & ?)
  | H : disj _ (_ :: _) |- _ => apply disj_cons_r in H; destruct H as (? & ?)
  | H : disj [] _ |- _ => clear H
  | H : disj _ [] |- _ => clear H
  | H : _ ∉ _ ++ _ |- _ => apply not_elem_of_app in H; destruct H as (? & ?)
  | H : _ ∉ _ :: _ |- _ => apply not_elem_of_cons in H; destruct H as (? & ?)
  | H : _ ∉ [] |- _ => clear H
  end.

Ltac ne_core :=
  first
    [ assumption | congruence
    | let e := fresh in intros e; subst;
      first [ congruence | contradiction
            | match goal with
              | H : disj ?l ?k, H1 : ?x ∈ ?l, H2 : ?x ∈ ?k |- _ => exact (H x H1 H2)
              end ] ].
Ltac ne :=
  repeat match goal with
  | |- _ ∉ _ ++ _ => apply not_elem_of_app; split
  | |- _ ∉ _ :: _ => apply not_elem_of_cons; split
  | |- _ ∉ [] => apply not_elem_of_nil
  end; ne_core.

Ltac nodup :=
  nodup_sat;
  repeat match goal with
  | |- NoDup (_ ++ _) => apply NoDup_app_disj; split_and!
  | |- NoDup (_ :: _) => apply NoDup_cons; split
  | |- NoDup [] => constructor
  | |- disj (_ ++ _) _ => apply disj_app_l; split
  | |- disj _ (_ ++ _) => apply disj_app_r; split
  | |- disj (_ :: _) _ => apply disj_cons_l; split
  | |- disj _ (_ :: _) => apply disj_cons_r; split
  | |- disj [] _ => apply disj_nil_l
  | |- disj _ [] => apply disj_nil_r
  end; try solve [assumption | ne | by apply disj_sym]; try set_solver.

Lemma truthy_ne x : x ≠ 0 → truthy x = true.
Proof. unfold truthy. intros. destruct (Z.eqb_spec x 0); done. Qed.

(** ** Weakest preconditions

    [wp m Q B s]: run from [s], [m] completes in a state that satisfies [Q], or
    waits forever in a state that satisfies [B]; it is never stuck. *)
Definition wp {S A} (m : M S A) (Q : A → S → Prop) (B : S → Prop) (s : S) : Prop :=
  match m s with
  | Val a s' => Q a s'
  | Blocked s' => B s'
  | Stuck => False
  end.

(** Code that never waits. *)
Definition never {S} : S → Prop := λ _, False.

Section Wp.
Context {S A B : Type}.

Lemma wp_bind (m : M S A) (f : A → M S B) Q Bl s :
  wp m (λ a s', wp (f a) Q Bl s') Bl s → wp (m ≫= f) Q Bl s.
Proof. unfold wp, mbind, M_bind. by destruct (m s). Qed.

Lemma wp_bind_val (m : M S A) (f : A → M S B) Q Bl s a s' :
  m s = Val a s' → wp (f a) Q Bl s' → wp (m ≫= f) Q Bl s.
Proof. intros H. unfold wp. by rewrite (bind_val _ _ _ _ _ H). Qed.

Lemma wp_ret (a : A) Q (Bl : S → Prop) s : Q a s → wp (mret a) Q Bl s.
Proof. done. Qed.

Lemma wp_mono (m : M S A) (Q Q' : A → S → Prop) (Bl Bl' : S → Prop) s :
  wp m Q Bl s → (∀ a s', Q a s' → Q' a s') → (∀ s', Bl s' → Bl' s') → wp m Q' Bl' s.
Proof. unfold wp. destruct (m s); auto. Qed.

Lemma wp_val (m : M S A) (Q : A → S → Prop) Bl s a s' : m s = Val a s' → Q a s' → wp m Q Bl s.
Proof. unfold wp. by intros ->. Qed.

Lemma wp_never_val (m : M S A) Q s : wp m Q never s → ∃ a s', m s = Val a s' ∧ Q a s'.
Proof. unfold wp. destruct (m s); [eauto|done|done]. Qed.

Lemma wp_gets (f : S → A) Q Bl s : Q (f s) s → wp (gets f) Q Bl s.
Proof. done. Qed.

Lemma wp_modify (f : S → S) Q Bl s : Q tt (f s) → wp (modify f) Q Bl s.
Proof. done. Qed.

Lemma wp_if (b : bool) (m1 m2 : M S A) Q Bl s :
  (b = true → wp m1 Q Bl s) → (b = false → wp m2 Q Bl s) → wp (if b then m1 else m2) Q Bl s.
Proof. destruct b; auto. Qed.
End Wp.

(** [wp_or U m Q B s]: the same of code that may also have no defined behaviour, but
    only when [U] holds. *)
Definition wp_or (U : Prop) {S A} (m : M S A) (Q : A → S → Prop) (B : S → Prop) (s : S) : Prop :=
  match m s with
  | Val a s' => Q a s'
  | Blocked s' => B s'
  | Stuck => U
  end.

Section WpOr.
Context (U : Prop) {S A B : Type}.

Lemma wp_or_bind (m : M S A) (f : A → M S B) Q Bl s :
  wp_or U m (λ a s', wp_or U (f a) Q Bl s') Bl s → wp_or U (m ≫= f) Q Bl s.
Proof. unfold wp_or, mbind, M_bind. by destruct (m s). Qed.

Lemma wp_or_ret (a : A) Q (Bl : S → Prop) s : Q a s → wp_or U (mret a) Q Bl s.
Proof. done. Qed.

Lemma wp_or_val (m : M S A) (Q : A → S → Prop) Bl s a s' : m s = Val a s' → Q a s' → wp_or U m Q Bl s.
Proof. unfold wp_or. by intros ->. Qed.

Lemma wp_or_gets (f : S → A) Q Bl s : Q (f s) s → wp_or U (gets f) Q Bl s.
Proof. done. Qed.

Lemma wp_or_if (b : bool) (m1 m2 : M S A) Q Bl s :
  (b = true → wp_or U m1 Q Bl s) → (b = false → wp_or U m2 Q Bl s) → wp_or U (if b then m1 else m2) Q Bl s.
Proof. destruct b; auto. Qed.

Lemma wp_or_never_val (m : M S A) Q s :
  wp_or U m Q never s → (∃ a s', m s = Val a s' ∧ Q a s') ∨ m s = Stuck ∧ U.
Proof. unfold wp_or. destruct (m s); [eauto|done|auto]. Qed.
End WpOr.

Lemma wp_or_zoom {S T A} (U : Prop) (get : S → T) (set : T → S → S) (m : M T A) Q Bl s :
  wp_or U m (λ a t, Q a (set t s)) (λ t, Bl (set t s)) (get s) → wp_or U (zoom get set m) Q Bl s.
Proof. unfold wp_or, zoom. by destruct (m (get s)). Qed.

Lemma wp_zoom {S T A} (get : S → T) (set : T → S → S) (m : M T A) Q Bl s :
  wp m (λ a t, Q a (set t s)) (λ t, Bl (set t s)) (get s) → wp (zoom get set m) Q Bl s.
Proof. unfold wp, zoom. by destruct (m (get s)). Qed.
