(* ===== verification/Bytes.v ===== *)
(** * Bytes: arrays of bytes, C strings and multi-byte integers

    A C array is a list; an access outside of it has no defined behaviour and
    is [None]. Hosts are little-endian, as all targets of the app are. *)
From S2P Require Import Prelude.

(** ** Arrays *)

Definition zget {A} (l : list A) (i : Z) : option A :=
  if 0 <=? i then l !! Z.to_nat i else None.

Definition zset {A} (l : list A) (i : Z) (x : A) : option (list A) :=
  if (0 <=? i) && (i <? zlen l) then Some (<[Z.to_nat i := x]> l) else None.

(** [n] elements from [off] on. *)
Definition slice {A} (l : list A) (off n : Z) : list A :=
  take (Z.to_nat n) (drop (Z.to_nat off) l).

Lemma zlen_nonneg {A} (l : list A) : 0 <= zlen l.
Proof. unfold zlen. lia. Qed.

Lemma zlen_app {A} (l k : list A) : zlen (l ++ k) = zlen l + zlen k.
Proof. unfold zlen. rewrite length_app. lia. Qed.

Lemma zlen_cons {A} (x : A) l : zlen (x :: l) = 1 + zlen l.
Proof. unfold zlen. cbn [length]. lia. Qed.

Lemma zget_is_Some {A} (l : list A) i : 0 <= i < zlen l → is_Some (zget l i).
Proof.
  intros Hi. unfold zget, zlen in *. destruct (Z.leb_spec 0 i); [|lia].
  apply lookup_lt_is_Some. lia.
Qed.

Lemma zget_Some_bound {A} (l : list A) i x : zget l i = Some x → 0 <= i < zlen l.
Proof.
  unfold zget, zlen. destruct (Z.leb_spec 0 i); [|done]. intros Hl%lookup_lt_Some. lia.
Qed.

Lemma zget_elem {A} (l : list A) i x : zget l i = Some x → x ∈ l.
Proof. unfold zget. destruct (0 <=? i); [apply list_elem_of_lookup_2|done]. Qed.

Lemma zset_Some {A} (l : list A) i x :
  0 <= i < zlen l → zset l i x = Some (<[Z.to_nat i := x]> l).
Proof.
  intros Hi. unfold zset. destruct (Z.leb_spec 0 i), (Z.ltb_spec i (zlen l)); try lia. done.
Qed.

Lemma zset_inv {A} (l l' : list A) i x :
  zset l i x = Some l' → 0 <= i < zlen l ∧ l' = <[Z.to_nat i := x]> l.
Proof.
  unfold zset. destruct (Z.leb_spec 0 i), (Z.ltb_spec i (zlen l)); intros [= <-]. done.
Qed.

Lemma zset_length {A} (l l' : list A) i x : zset l i x = Some l' → zlen l' = zlen l.
Proof. intros [_ ->]%zset_inv. unfold zlen. by rewrite length_insert. Qed.

Lemma zget_insert_eq {A} (l : list A) i x :
  0 <= i < zlen l → zget (<[Z.to_nat i := x]> l) i = Some x.
Proof.
  intros Hi. unfold zget, zlen in *. destruct (Z.leb_spec 0 i); [|lia].
  apply list_lookup_insert_eq. lia.
Qed.

Lemma zget_insert_ne {A} (l : list A) i j x :
  0 <= i → i ≠ j → zget (<[Z.to_nat i := x]> l) j = zget l j.
Proof.
  intros Hi Hj. unfold zget. destruct (Z.leb_spec 0 j); [|done]. apply list_lookup_insert_ne. lia.
Qed.

Lemma zlen_take {A} (l : list A) n : 0 <= n <= zlen l → zlen (take (Z.to_nat n) l) = n.
Proof. unfold zlen. intros. rewrite length_take. lia. Qed.

Lemma zlen_drop {A} (l : list A) n : 0 <= n <= zlen l → zlen (drop (Z.to_nat n) l) = zlen l - n.
Proof. unfold zlen. intros. rewrite length_drop. lia. Qed.

Lemma zlen_slice {A} (l : list A) off n : 0 <= off → 0 <= n → off + n <= zlen l → zlen (slice l off n) = n.
Proof. unfold slice, zlen. intros. rewrite length_take, length_drop. lia. Qed.

Lemma zget_ext {A} (l k : list A) :
  zlen l = zlen k → (∀ i, 0 <= i < zlen l → zget l i = zget k i) → l = k.
Proof.
  unfold zlen, zget. intros Hl H. apply list_eq_same_length with (n := length k); [done|lia|].
  intros i x y Hi Hx Hy. specialize (H (Z.of_nat i)). destruct (Z.leb_spec 0 (Z.of_nat i)); [|lia].
  rewrite Nat2Z.id in H. rewrite H in Hx by lia. congruence.
Qed.

Lemma zget_app {A} (l k : list A) i :
  zget (l ++ k) i = if i <? zlen l then zget l i else zget k (i - zlen l).
Proof.
  unfold zget, zlen. destruct (Z.ltb_spec i (Z.of_nat (length l))), (Z.leb_spec 0 i); try done.
  - by rewrite lookup_app_l by lia.
  - destruct (Z.leb_spec 0 (i - Z.of_nat (length l))); [|lia]. rewrite lookup_app_r by lia. f_equal. lia.
  - lia.
Qed.

Lemma zget_take {A} (l : list A) n i : zget (take (Z.to_nat n) l) i = if i <? n then zget l i else None.
Proof.
  unfold zget. destruct (Z.leb_spec 0 i), (Z.ltb_spec i n); try done.
  - by rewrite lookup_take_lt by lia.
  - by rewrite lookup_take_ge by lia.
Qed.

Lemma zget_drop {A} (l : list A) n i : 0 <= n → 0 <= i → zget (drop (Z.to_nat n) l) i = zget l (n + i).
Proof.
  unfold zget. intros. destruct (Z.leb_spec 0 i), (Z.leb_spec 0 (n + i)); try lia.
  rewrite lookup_drop. f_equal. lia.
Qed.

Lemma zget_slice {A} (l : list A) off n i :
  0 <= off → 0 <= i → zget (slice l off n) i = if i <? n then zget l (off + i) else None.
Proof. intros. unfold slice. rewrite zget_take. by rewrite zget_drop. Qed.

Lemma take_app_slice {A} (l : list A) n m :
  0 <= n → 0 <= m → take (Z.to_nat n) l ++ take (Z.to_nat m) (drop (Z.to_nat n) l) = take (Z.to_nat (n + m)) l.
Proof. intros. rewrite take_take_drop. f_equal. lia. Qed.

(** Storing [bs] from offset [off] on. *)
Definition overwrite {A} (l : list A) (off : Z) (bs : list A) : list A :=
  take (Z.to_nat off) l ++ bs ++ drop (Z.to_nat off + length bs) l.

Lemma zlen_overwrite {A} (l : list A) off bs :
  0 <= off → off + zlen bs <= zlen l → zlen (overwrite l off bs) = zlen l.
Proof. unfold overwrite, zlen. intros. rewrite !length_app, length_take, length_drop. lia. Qed.

Lemma zget_overwrite {A} (l : list A) off bs i :
  0 <= off → off + zlen bs <= zlen l →
  zget (overwrite l off bs) i =
    if (off <=? i) && (i <? off + zlen bs) then zget bs (i - off) else zget l i.
Proof.
  intros Ho Hl. unfold overwrite. pose proof (zlen_nonneg bs).
  rewrite !zget_app, zlen_take, zget_take by lia.
  destruct (Z.ltb_spec i off), (Z.leb_spec off i); try lia; cbn [andb]; [done|].
  destruct (Z.ltb_spec (i - off) (zlen bs)), (Z.ltb_spec i (off + zlen bs)); try lia; [done|].
  replace (Z.to_nat off + length bs)%nat with (Z.to_nat (off + zlen bs)) by (unfold zlen; lia).
  rewrite zget_drop by lia. f_equal. lia.
Qed.

Lemma overwrite_nil {A} (l : list A) off : overwrite l off [] = l.
Proof. unfold overwrite. cbn. rewrite Nat.add_0_r. apply take_drop. Qed.

(** ** C strings *)

(** The string that starts at [p]: the bytes before the first NUL. *)
Fixpoint cstr (p : bytes) : option bytes :=
  match p with
  | [] => None
  | b :: p => if b =? 0 then Some [] else (b ::.) <$> cstr p
  end.

Fixpoint strcmp (s t : bytes) : Z :=
  match s, t with
  | [], [] => 0
  | [], y :: _ => - y
  | x :: _, [] => x
  | x :: s, y :: t => if x =? y then strcmp s t else x - y
  end.

(** [memcmp] on the first [n] bytes of two arrays. *)
Definition memcmp (p q : bytes) (n : Z) : option Z :=
  if (n <=? zlen p) && (n <=? zlen q)
  then Some (strcmp (take (Z.to_nat n) p) (take (Z.to_nat n) q)) else None.

(** A string holds no NUL. *)
Definition is_str (s : bytes) : Prop := Forall (λ b, 0 < b < 256) s.

Lemma cstr_str p s : cstr p = Some s → Forall is_byte p → is_str s.
Proof.
  revert s. induction p as [|b p IH]; intros s; cbn; [done|]. intros Hs Hb.
  apply Forall_cons in Hb as [Hb Hp]. destruct (Z.eqb_spec b 0); [simplify_eq; constructor|].
  destruct (cstr p) as [s'|] eqn:He; cbn in Hs; [|done]. simplify_eq.
  constructor; [unfold is_byte in Hb; lia|by apply IH].
Qed.

Lemma cstr_app s p : is_str s → cstr (s ++ 0 :: p) = Some s.
Proof.
  induction 1 as [|b s Hb Hs IH]; cbn; [done|]. destruct (Z.eqb_spec b 0); [lia|]. by rewrite IH.
Qed.

Lemma cstr_is_Some p : 0 ∈ p → is_Some (cstr p).
Proof.
  induction p as [|b p IH]; cbn; [set_solver|]. destruct (Z.eqb_spec b 0) as [|Hb]; [by eexists|].
  intros [|Hp]%elem_of_cons; [congruence|]. destruct (IH Hp) as [s ->]. by eexists.
Qed.

Lemma strcmp_refl s : strcmp s s = 0.
Proof. induction s as [|x s IH]; cbn; [done|]. by rewrite Z.eqb_refl. Qed.

Lemma strcmp_eq s t : is_str s → is_str t → strcmp s t = 0 → s = t.
Proof.
  intros Hs. revert t. induction Hs as [|x s Hx Hs IH]; intros t Ht; inversion Ht as [|y t' Hy Ht']; subst; cbn;
    [done|lia|lia|]. destruct (Z.eqb_spec x y) as [->|]; [|lia]. intros Hc. by rewrite (IH t').
Qed.

Lemma strcmp_antisym s t : strcmp t s = - strcmp s t.
Proof.
  revert t. induction s as [|x s IH]; intros [|y t]; cbn; try lia.
  rewrite (Z.eqb_sym y x). destruct (Z.eqb_spec x y); [apply IH|lia].
Qed.

Lemma strcmp_trans s t u :
  is_str s → is_str t → is_str u → strcmp s t < 0 → strcmp t u < 0 → strcmp s u < 0.
Proof.
  intros Hs. revert t u. induction Hs as [|x s Hx Hs IH]; intros t u Ht Hu;
    inversion Ht as [|y t' Hy Ht']; subst; inversion Hu as [|z u' Hz Hu']; subst; cbn; try lia.
  destruct (Z.eqb_spec x y), (Z.eqb_spec y z), (Z.eqb_spec x z); try lia. subst. by apply IH.
Qed.

(** On strings of the same length the bytes need not be characters. *)
Lemma strcmp_eq_length s t : length s = length t → strcmp s t = 0 → s = t.
Proof.
  revert t. induction s as [|x s IH]; intros [|y t] Hl; cbn in *; try done.
  destruct (Z.eqb_spec x y) as [->|]; [|lia]. intros Hc. by rewrite (IH t) by (done || lia).
Qed.

Lemma strcmp_trans_length s t u :
  length s = length t → length t = length u → strcmp s t < 0 → strcmp t u < 0 → strcmp s u < 0.
Proof.
  revert t u. induction s as [|x s IH]; intros [|y t] [|z u] Hl Hl'; cbn in *; try lia.
  destruct (Z.eqb_spec x y), (Z.eqb_spec y z), (Z.eqb_spec x z); try lia. apply IH; lia.
Qed.

(** ** Integers in memory *)

(** The two bytes of a 16-bit integer at an address, in host order, and the
    conversions between host and network order. *)
Definition bswap16 (v : Z) : Z := Z.lor (Z.shiftl (Z.land v 255) 8) (Z.shiftr (Z.land v 65535) 8).
Definition ntohs (v : Z) : Z := bswap16 v.
Definition htons (v : Z) : Z := bswap16 v.

Lemma bswap16_bits v i :
  0 <= i → Z.testbit (bswap16 v) i = if i <? 8 then Z.testbit v (i + 8) else (i <? 16) && Z.testbit v (i - 8).
Proof.
  intros Hi. unfold bswap16. change 255 with (Z.ones 8). change 65535 with (Z.ones 16).
  rewrite Z.lor_spec, Z.shiftl_spec, Z.shiftr_spec, !Z.land_spec by lia.
  destruct (Z.ltb_spec i 8).
  - rewrite (Z.testbit_neg_r v (i - 8)) by lia. cbn [andb orb]. rewrite Z.ones_spec_low by lia. by rewrite andb_true_r.
  - destruct (Z.ltb_spec i 16); cbn [andb].
    + rewrite (Z.ones_spec_low 8), (Z.ones_spec_high 16) by lia. by rewrite andb_true_r, andb_false_r, orb_false_r.
    + rewrite (Z.ones_spec_high 8), (Z.ones_spec_high 16) by lia. by rewrite !andb_false_r.
Qed.

Lemma bswap16_range v : 0 <= bswap16 v < 65536.
Proof.
  assert (bswap16 v = bswap16 v mod 2 ^ 16) as ->; [|apply Z.mod_pos_bound; lia].
  apply Z.bits_inj'. intros i Hi. rewrite <- Z.land_ones, Z.land_spec by lia.
  rewrite bswap16_bits by done. destruct (Z.ltb_spec i 8).
  - rewrite Z.ones_spec_low by lia. by rewrite andb_true_r.
  - destruct (Z.ltb_spec i 16); cbn [andb]; [rewrite Z.ones_spec_low by lia; by rewrite andb_true_r|done].
Qed.

Lemma ntohs_htons v : 0 <= v < 65536 → ntohs (htons v) = v.
Proof.
  intros Hv. unfold ntohs, htons. apply Z.bits_inj'. intros i Hi. rewrite bswap16_bits by done.
  destruct (Z.ltb_spec i 8).
  - rewrite bswap16_bits by lia. destruct (Z.ltb_spec (i + 8) 8), (Z.ltb_spec (i + 8) 16); try lia. cbn [andb]. f_equal. lia.
  - destruct (Z.ltb_spec i 16); cbn [andb].
    + rewrite bswap16_bits by lia. destruct (Z.ltb_spec (i - 8) 8); [f_equal; lia|lia].
    + symmetry. destruct (Z.eq_dec v 0) as [->|]; [by rewrite Z.testbit_0_l|].
      apply Z.bits_above_log2; [lia|]. apply Z.log2_lt_pow2; [lia|].
      apply Z.lt_le_trans with (2 ^ 16); [lia|]. apply Z.pow_le_mono_r; lia.
Qed.

Definition be16 (v : Z) : bytes := [u8 (Z.shiftr v 8); u8 v].
Definition be32 (v : Z) : bytes := [u8 (Z.shiftr v 24); u8 (Z.shiftr v 16); u8 (Z.shiftr v 8); u8 v].

Lemma zlen_be16 v : zlen (be16 v) = 2.
Proof. done. Qed.
Lemma zlen_be32 v : zlen (be32 v) = 4.
Proof. done. Qed.

Lemma zlen_snoc {A} (l : list A) x : zlen (l ++ [x]) = zlen l + 1.
Proof. rewrite zlen_app, zlen_cons. change (zlen []) with 0. lia. Qed.
