(* ===== verification/HevList.v ===== *)
(** * HevList: the intrusive doubly-linked list of src/misc/hev-list.c

    A node is identified by its address; the memory holds the [next] and
    [prev] fields of every allocated node, and the list head and tail. The
    container of a node ([container_of]) has the same address as the node. *)
From S2P Require Import Prelude.

Record HevListNode := LNode { next : Z; prev : Z }.

Record listmem := ListMem { head : Z; tail : Z; lnodes : gmap Z HevListNode }.

#[export] Instance HevListNode_eq_dec : EqDecision HevListNode.
Proof. solve_decision. Defined.

(** ** Field accesses *)

Definition get_lnode (p : Z) : M listmem HevListNode := λ s,
  match lnodes s !! p with Some n => Val n s | None => Stuck end.

Definition put_lnode (p : Z) (n : HevListNode) : M listmem unit :=
  modify (λ s, ListMem (head s) (tail s) (<[p := n]> (lnodes s))).

Definition set_next (p v : Z) : M listmem unit :=
  n ← get_lnode p; put_lnode p (LNode v (prev n)).

Definition set_prev (p v : Z) : M listmem unit :=
  n ← get_lnode p; put_lnode p (LNode (next n) v).

Definition set_head (v : Z) : M listmem unit :=
  modify (λ s, ListMem v (tail s) (lnodes s)).

Definition set_tail (v : Z) : M listmem unit :=
  modify (λ s, ListMem (head s) v (lnodes s)).

(** ** Operations *)

Definition hev_list_node_prev (node : Z) : M listmem Z :=
  n ← get_lnode node; mret (prev n).

Definition hev_list_node_next (node : Z) : M listmem Z :=
  n ← get_lnode node; mret (next n).

Definition hev_list_first : M listmem Z := gets head.

Definition hev_list_last : M listmem Z := gets tail.

Definition hev_list_add_tail (new_ : Z) : M listmem unit :=
  t ← gets tail;
  set_prev new_ t;;
  set_next new_ 0;;
  (if truthy t then set_next t new_ else set_head new_);;
  set_tail new_.

Definition hev_list_del (node : Z) : M listmem unit :=
  n ← get_lnode node;
  (if truthy (prev n) then set_next (prev n) (next n) else set_head (next n));;
  n ← get_lnode node;
  (if truthy (next n) then set_prev (next n) (prev n) else set_tail (prev n)).

(** ** Representation

    [lseg m p xs q]: the nodes [xs] are linked in this order; the first one's
    [prev] is [p] and the last one's [next] is [q]. *)
Fixpoint lseg (m : gmap Z HevListNode) (p : Z) (xs : list Z) (q : Z) : Prop :=
  match xs with
  | [] => True
  | x :: xs' => m !! x = Some (LNode (List.hd q xs') p) ∧ lseg m x xs' q
  end.

Definition list_rep (s : listmem) (xs : list Z) : Prop :=
  head s = List.hd 0 xs ∧ tail s = List.last xs 0 ∧
  lseg (lnodes s) 0 xs 0 ∧ NoDup xs ∧ Forall (λ x, x ≠ 0) xs.

Lemma lseg_app m p xs ys q :
  lseg m p (xs ++ ys) q ↔
  lseg m p xs (List.hd q ys) ∧ lseg m (List.last xs p) ys q.
Proof.
  revert p. induction xs as [|x xs IH]; intros p; [simpl; tauto|].
  cbn [app lseg]. rewrite IH.
  assert (List.last (x :: xs) p = List.last xs x) as ->.
  { destruct xs as [|y xs']; [done|]. clear.
    change (List.last (y :: xs') p = List.last (y :: xs') x).
    revert y. induction xs' as [|z zs IHz]; intros y; [done|]. apply IHz. }
  destruct xs as [|y xs']; simpl; tauto.
Qed.

Lemma lseg_frame m m' p xs q :
  (∀ x, x ∈ xs → m' !! x = m !! x) → lseg m p xs q → lseg m' p xs q.
Proof.
  revert p. induction xs as [|x xs IH]; intros p Hm; [done|].
  cbn [lseg]. intros [Hx Hs]. split.
  - rewrite Hm; [done|left].
  - apply IH; [|done]. intros y Hy. apply Hm. by right.
Qed.

Lemma lseg_insert m p xs q a n :
  a ∉ xs → lseg m p xs q → lseg (<[a := n]> m) p xs q.
Proof. intros Ha. apply lseg_frame. intros x Hx. apply lookup_insert_ne. set_solver. Qed.

Lemma last_app_cons {A} (xs ys : list A) y d :
  List.last (xs ++ y :: ys) d = List.last (y :: ys) d.
Proof.
  induction xs as [|x xs IH]; [done|]. simpl app.
  destruct xs; simpl in *; [done|]. exact IH.
Qed.

(** ** Correctness of the operations *)

Ltac lunfold :=
  unfold hev_list_add_tail, hev_list_del, set_prev, set_next, set_head, set_tail, put_lnode, get_lnode,
    gets, modify, mbind, M_bind, mret, M_ret; cbn [lnodes head tail next prev].
Ltac lgo :=
  repeat (cbn [lnodes head tail next prev];
    first [ rewrite lookup_insert_eq
          | rewrite lookup_insert_ne by (first [done | congruence | set_solver])
          | match goal with H : ?m !! _ = Some _ |- context [?m !! _] => rewrite H end ]).

Lemma hev_list_add_tail_spec s xs a n0 :
  list_rep s xs → lnodes s !! a = Some n0 → a ≠ 0 → a ∉ xs →
  ∃ s', hev_list_add_tail a s = Val tt s' ∧ list_rep s' (xs ++ [a]) ∧
        dom (lnodes s') = dom (lnodes s).
Proof.
  intros (Hh & Ht & Hseg & Hnd & Hnz) Ha Ha0 Hax.
  destruct s as [h t m]. cbn [lnodes head tail] in *.
  assert (NoDup (xs ++ [a]) ∧ Forall (λ x, x ≠ 0) (xs ++ [a])) as [Hnd' Hnz'].
  { split; [nodup|apply Forall_app; eauto]. }
  destruct xs as [|z ys _] using rev_ind.
  - simpl in *. subst h t. lunfold. lgo. cbn.
    eexists; split; [done|]. split; [|apply elem_of_dom_2 in Ha; cbn; set_solver].
    split; [done|]. split; [done|]. split; [|done]. split; [|done]. cbn. by lgo.
  - rewrite last_last in Ht. subst t.
    apply lseg_app in Hseg as [Hs1 [Hz _]]. cbn in Hs1, Hz.
    assert (z ≠ 0 ∧ z ≠ a) as [Hz0 Hza].
    { split; [|set_solver]. apply Forall_app in Hnz as [_ Hnz]. by inversion Hnz. }
    lunfold. lgo. rewrite truthy_ne by done. lgo.
    eexists; split; [done|]. split.
    + split; [cbn; rewrite Hh; by destruct ys|]. split; [cbn; by rewrite last_last|].
      split; [|done]. cbn [lnodes].
      rewrite <- app_assoc. apply lseg_app. cbn [lseg hd last]. split.
      * apply NoDup_app in Hnd as (_ & Hys & _).
        repeat apply lseg_insert; first [set_solver|done].
      * cbn [app lseg List.hd prev]. by lgo.
    + cbn [lnodes]. apply elem_of_dom_2 in Ha, Hz. rewrite !dom_insert_L. set_solver.
Qed.

Lemma hev_list_del_spec s xs a ys :
  list_rep s (xs ++ a :: ys) →
  ∃ s', hev_list_del a s = Val tt s' ∧ list_rep s' (xs ++ ys) ∧
        dom (lnodes s') = dom (lnodes s).
Proof.
  intros (Hh & Ht & Hseg & Hnd & Hnz).
  destruct s as [h t m]. cbn [lnodes head tail] in *.
  assert (NoDup (xs ++ ys) ∧ Forall (λ x, x ≠ 0) (xs ++ ys)) as [Hnd' Hnz'].
  { split; [nodup|]. apply Forall_app in Hnz as [? ?%Forall_cons]. apply Forall_app. naive_solver. }
  apply lseg_app in Hseg as [Hs1 [Ha Hs2]]. cbn [List.hd] in *.
  assert (∀ x, x ∈ xs ++ a :: ys → x ≠ 0) as Hnz2 by (by apply Forall_forall).
  destruct xs as [|z xs' _] using rev_ind; destruct ys as [|y ys']; cbn [List.hd] in *.
  - lunfold. lgo. cbn. lgo. cbn. eexists; split; [done|]. done.
  - destruct Hs2 as [Hy Hs2]. assert (y ≠ 0) as Hy0 by (apply Hnz2; set_solver).
    lunfold. lgo. cbn. lgo. cbn. rewrite truthy_ne by done. lgo.
    eexists; split; [done|]. split; [|cbn; apply elem_of_dom_2 in Hy; set_solver].
    split; [done|]. split; [by rewrite Ht|]. split; [|done].
    split; [cbn [lnodes]; by lgo|]. cbn [lnodes].
    apply lseg_insert; [nodup|done].
  - apply lseg_app in Hs1 as [Hs1 [Hz _]]. cbn [List.hd] in *. rewrite last_last in Ha.
    assert (z ≠ 0 ∧ z ≠ a) as [Hz0 Hza] by (split; [apply Hnz2|]; nodup).
    lunfold. lgo. rewrite truthy_ne by done. lgo. cbn.
    eexists; split; [done|]. split; [|cbn; apply elem_of_dom_2 in Hz; set_solver].
    rewrite app_nil_r. split; [cbn; rewrite Hh; by destruct xs'|].
    split; [cbn; by rewrite last_last|]. split; [|by rewrite app_nil_r in *].
    cbn [lnodes]. apply lseg_app. split; [apply lseg_insert; [nodup|done]|]. cbn. by lgo.
  - apply lseg_app in Hs1 as [Hs1 [Hz _]]. cbn [List.hd] in *. rewrite last_last in Ha.
    destruct Hs2 as [Hy Hs2].
    assert (z ≠ 0 ∧ y ≠ 0) as [Hz0 Hy0] by (split; apply Hnz2; set_solver).
    assert (z ≠ a ∧ y ≠ a ∧ z ≠ y) as (Hza & Hya & Hzy) by nodup.
    lunfold. lgo. rewrite truthy_ne by done. lgo. cbn. lgo.
    rewrite truthy_ne by done. lgo.
    eexists; split; [done|].
    split; [|cbn; apply elem_of_dom_2 in Hz, Hy; rewrite !dom_insert_L; set_solver].
    split; [cbn; rewrite Hh; by destruct xs'|].
    split; [cbn; by rewrite Ht, !last_app_cons|]. split; [|done].
    cbn [lnodes]. rewrite <- app_assoc. apply lseg_app. cbn [app lseg List.hd prev next].
    split; [repeat apply lseg_insert; [nodup|nodup|done]|]. lgo.
    split; [done|]. split; [done|]. repeat apply lseg_insert; [nodup|nodup|done].
Qed.

Lemma list_rep_frame s s' xs :
  head s' = head s → tail s' = tail s → (∀ x, x ∈ xs → lnodes s' !! x = lnodes s !! x) →
  list_rep s xs → list_rep s' xs.
Proof.
  intros Hh Ht Hm (? & ? & Hseg & ?). split; [congruence|]. split; [congruence|]. split; [|done].
  by eapply lseg_frame.
Qed.

Lemma list_rep_nil m : list_rep (ListMem 0 0 m) [].
Proof. split_and!; try done; constructor. Qed.

(** A node becomes the last one. *)
Lemma list_touch_spec s xs a ys :
  list_rep s (xs ++ a :: ys) →
  ∃ s1 s2, hev_list_del a s = Val tt s1 ∧ hev_list_add_tail a s1 = Val tt s2 ∧
    list_rep s2 (xs ++ ys ++ [a]) ∧ dom (lnodes s2) = dom (lnodes s).
Proof.
  intros Hr. pose proof Hr as (_ & _ & Hseg & Hnd & Hnz).
  destruct (hev_list_del_spec _ _ _ _ Hr) as (s1 & He1 & Hr1 & Hd1).
  apply lseg_app in Hseg as [_ [Ha _]].
  assert (a ∈ dom (lnodes s1)) as [n0 Hn0]%elem_of_dom by (rewrite Hd1; by eapply elem_of_dom_2).
  destruct (hev_list_add_tail_spec s1 (xs ++ ys) a n0) as (s2 & He2 & Hr2 & Hd2); try done.
  { rewrite Forall_forall in Hnz. apply Hnz. set_solver. }
  { nodup_sat. ne. }
  exists s1, s2. split_and!; try done; [by rewrite app_assoc|congruence].
Qed.
