(* ===== verification/HevRBTree.v ===== *)
(** * HevRBTree: the intrusive red-black tree of src/core/src/hev-rbtree.c

    The definitions follow the C code statement by statement. A node is
    identified by its address; a tree memory holds the root pointer and the
    three fields of every allocated node. The [__parent_color] field is the
    machine word of the code: the parent's address with the colour in bit 0. *)
From S2P Require Import Prelude.

Record HevRBTreeNode := RBNode { parent_color : Z; right : Z; left : Z }.

Record rbmem := RBMem { root : Z; nodes : gmap Z HevRBTreeNode }.

#[export] Instance HevRBTreeNode_eq_dec : EqDecision HevRBTreeNode.
Proof. solve_decision. Defined.

Definition HEV_RBTREE_RED : Z := 0.
Definition HEV_RBTREE_BLACK : Z := 1.

(** ** Field accesses *)

Definition get_node (p : Z) : M rbmem HevRBTreeNode := λ s,
  match nodes s !! p with Some n => Val n s | None => Stuck end.

Definition put_node (p : Z) (n : HevRBTreeNode) : M rbmem unit :=
  modify (λ s, RBMem (root s) (<[p := n]> (nodes s))).

Definition get_pc (p : Z) : M rbmem Z := n ← get_node p; mret (parent_color n).
Definition get_left (p : Z) : M rbmem Z := n ← get_node p; mret (left n).
Definition get_right (p : Z) : M rbmem Z := n ← get_node p; mret (right n).

Definition set_pc (p v : Z) : M rbmem unit :=
  n ← get_node p; put_node p (RBNode v (right n) (left n)).
Definition set_left (p v : Z) : M rbmem unit :=
  n ← get_node p; put_node p (RBNode (parent_color n) (right n) v).
Definition set_right (p v : Z) : M rbmem unit :=
  n ← get_node p; put_node p (RBNode (parent_color n) v (left n)).
Definition set_root (v : Z) : M rbmem unit := modify (λ s, RBMem v (nodes s)).

(** ** Parent and colour *)

Definition _hev_rbtree_node_parent (pc : Z) : Z := Z.land pc (Z.lnot 3).
Definition _hev_rbtree_node_is_black (pc : Z) : bool := truthy (Z.land pc HEV_RBTREE_BLACK).

Definition hev_rbtree_node_color (node : Z) : M rbmem Z :=
  pc ← get_pc node; mret (Z.land pc 1).

Definition hev_rbtree_node_is_red (node : Z) : M rbmem bool :=
  c ← hev_rbtree_node_color node; mret (negb (truthy (Z.land c HEV_RBTREE_BLACK))).

Definition hev_rbtree_node_is_black (node : Z) : M rbmem bool :=
  c ← hev_rbtree_node_color node; mret (truthy (Z.land c HEV_RBTREE_BLACK)).

Definition hev_rbtree_node_red_parent (node : Z) : M rbmem Z := get_pc node.

Definition hev_rbtree_node_parent (node : Z) : M rbmem Z :=
  pc ← get_pc node; mret (Z.land pc (Z.lnot 3)).

Definition hev_rbtree_node_empty (node : Z) : M rbmem bool :=
  pc ← get_pc node; mret (pc =? node).

Definition hev_rbtree_node_set_black (node : Z) : M rbmem unit :=
  pc ← get_pc node; set_pc node (Z.lor pc HEV_RBTREE_BLACK).

Definition hev_rbtree_node_set_parent (node parent : Z) : M rbmem unit :=
  c ← hev_rbtree_node_color node; set_pc node (Z.lor c parent).

Definition hev_rbtree_node_set_parent_color (node parent color : Z) : M rbmem unit :=
  set_pc node (Z.lor parent color).

(** A [HevRBTreeNode **]: the address of the root pointer or of a child field. *)
Inductive link := LinkRoot | LinkLeft (p : Z) | LinkRight (p : Z).

Definition deref (l : link) : M rbmem Z :=
  match l with
  | LinkRoot => gets root
  | LinkLeft p => get_left p
  | LinkRight p => get_right p
  end.

Definition assign (l : link) (v : Z) : M rbmem unit :=
  match l with
  | LinkRoot => set_root v
  | LinkLeft p => set_left p v
  | LinkRight p => set_right p v
  end.

Definition hev_rbtree_node_link (node parent : Z) (l : link) : M rbmem unit :=
  set_pc node parent;;
  set_right node 0;;
  set_left node 0;;
  assign l node.

Definition hev_rbtree_change_child (old new parent : Z) : M rbmem unit :=
  if truthy parent then
    l ← get_left parent;
    if l =? old then set_left parent new else set_right parent new
  else set_root new.

Definition hev_rbtree_rotate_set_parents (old new color : Z) : M rbmem unit :=
  parent ← hev_rbtree_node_parent old;
  pc ← get_pc old;
  set_pc new pc;;
  hev_rbtree_node_set_parent_color old new color;;
  hev_rbtree_change_child old new parent.

(** [p && is_red (p)] and [!p || is_black (p)]. *)
Definition and_is_red (p : Z) : M rbmem bool :=
  if truthy p then hev_rbtree_node_is_red p else mret false.
Definition null_or_is_black (p : Z) : M rbmem bool :=
  if truthy p then hev_rbtree_node_is_black p else mret true.

(** ** Traversal. The fuel of a loop is the number of allocated nodes. *)

Fixpoint rightmost (fuel : nat) (node : Z) : M rbmem Z :=
  match fuel with
  | O => stuck
  | S fuel =>
      r ← get_right node;
      if truthy r then rightmost fuel r else mret node
  end.

Fixpoint leftmost (fuel : nat) (node : Z) : M rbmem Z :=
  match fuel with
  | O => stuck
  | S fuel =>
      l ← get_left node;
      if truthy l then leftmost fuel l else mret node
  end.

Fixpoint climb_left (fuel : nat) (node : Z) : M rbmem Z :=
  match fuel with
  | O => stuck
  | S fuel =>
      parent ← hev_rbtree_node_parent node;
      if truthy parent then
        l ← get_left parent;
        if node =? l then climb_left fuel parent else mret parent
      else mret parent
  end.

Fixpoint climb_right (fuel : nat) (node : Z) : M rbmem Z :=
  match fuel with
  | O => stuck
  | S fuel =>
      parent ← hev_rbtree_node_parent node;
      if truthy parent then
        r ← get_right parent;
        if node =? r then climb_right fuel parent else mret parent
      else mret parent
  end.

Definition fuel_of : M rbmem nat := gets (λ s, size (nodes s)).

Definition hev_rbtree_node_prev (node : Z) : M rbmem Z :=
  e ← hev_rbtree_node_empty node;
  if (e : bool) then mret 0 else
  fuel ← fuel_of;
  l ← get_left node;
  if truthy l then rightmost fuel l else climb_left fuel node.

Definition hev_rbtree_node_next (node : Z) : M rbmem Z :=
  e ← hev_rbtree_node_empty node;
  if (e : bool) then mret 0 else
  fuel ← fuel_of;
  r ← get_right node;
  if truthy r then leftmost fuel r else climb_right fuel node.

Definition hev_rbtree_first : M rbmem Z :=
  n ← gets root;
  if truthy n then fuel ← fuel_of; leftmost fuel n else mret 0.

Definition hev_rbtree_last : M rbmem Z :=
  n ← gets root;
  if truthy n then fuel ← fuel_of; rightmost fuel n else mret 0.

(** ** Insertion *)

(** Lines 225-293: [parent] is the left child of [gparent]. *)
Definition insert_color_left (again : Z → Z → M rbmem unit)
    (node parent gparent tmp : Z) : M rbmem unit :=
  red ← and_is_red tmp;
  if (red : bool) then
    (* Case 1: colour flips, recurse at gparent *)
    hev_rbtree_node_set_parent_color tmp gparent HEV_RBTREE_BLACK;;
    hev_rbtree_node_set_parent_color parent gparent HEV_RBTREE_BLACK;;
    parent' ← hev_rbtree_node_parent gparent;
    hev_rbtree_node_set_parent_color gparent parent' HEV_RBTREE_RED;;
    again gparent parent'
  else
    tmp ← get_right parent;
    '(parent, tmp) ←
      (if node =? tmp then
         (* Case 2: left rotate at parent *)
         tmp ← get_left node;
         set_right parent tmp;;
         set_left node parent;;
         when (truthy tmp) (hev_rbtree_node_set_parent_color tmp parent HEV_RBTREE_BLACK);;
         hev_rbtree_node_set_parent_color parent node HEV_RBTREE_RED;;
         tmp ← get_right node;
         mret (node, tmp)
       else mret (parent, tmp));
    (* Case 3: right rotate at gparent *)
    set_left gparent tmp;;
    set_right parent gparent;;
    when (truthy tmp) (hev_rbtree_node_set_parent_color tmp gparent HEV_RBTREE_BLACK);;
    hev_rbtree_rotate_set_parents gparent parent HEV_RBTREE_RED.

(** Lines 295-330: [parent] is the right child of [gparent]. *)
Definition insert_color_right (again : Z → Z → M rbmem unit)
    (node parent gparent : Z) : M rbmem unit :=
  tmp ← get_left gparent;
  red ← and_is_red tmp;
  if (red : bool) then
    (* Case 1: colour flips *)
    hev_rbtree_node_set_parent_color tmp gparent HEV_RBTREE_BLACK;;
    hev_rbtree_node_set_parent_color parent gparent HEV_RBTREE_BLACK;;
    parent' ← hev_rbtree_node_parent gparent;
    hev_rbtree_node_set_parent_color gparent parent' HEV_RBTREE_RED;;
    again gparent parent'
  else
    tmp ← get_left parent;
    '(parent, tmp) ←
      (if node =? tmp then
         (* Case 2: right rotate at parent *)
         tmp ← get_right node;
         set_left parent tmp;;
         set_right node parent;;
         when (truthy tmp) (hev_rbtree_node_set_parent_color tmp parent HEV_RBTREE_BLACK);;
         hev_rbtree_node_set_parent_color parent node HEV_RBTREE_RED;;
         tmp ← get_left node;
         mret (node, tmp)
       else mret (parent, tmp));
    (* Case 3: left rotate at gparent *)
    set_right gparent tmp;;
    set_left parent gparent;;
    when (truthy tmp) (hev_rbtree_node_set_parent_color tmp gparent HEV_RBTREE_BLACK);;
    hev_rbtree_rotate_set_parents gparent parent HEV_RBTREE_RED.

(** The loop of lines 199-332. *)
Fixpoint insert_color_loop (fuel : nat) (node parent : Z) : M rbmem unit :=
  match fuel with
  | O => stuck
  | S fuel =>
      if negb (truthy parent) then
        hev_rbtree_node_set_parent_color node 0 HEV_RBTREE_BLACK
      else
        black ← hev_rbtree_node_is_black parent;
        if (black : bool) then mret tt else
        gparent ← hev_rbtree_node_red_parent parent;
        tmp ← get_right gparent;
        if negb (parent =? tmp) then
          insert_color_left (insert_color_loop fuel) node parent gparent tmp
        else
          insert_color_right (insert_color_loop fuel) node parent gparent
  end.

Definition hev_rbtree_insert_color (node : Z) : M rbmem unit :=
  parent ← hev_rbtree_node_red_parent node;
  fuel ← fuel_of;
  insert_color_loop fuel node parent.

(** ** Replacement *)

Definition hev_rbtree_replace (victim new : Z) : M rbmem unit :=
  parent ← hev_rbtree_node_parent victim;
  v ← get_node victim;
  _ ← get_node new;
  put_node new v;;
  l ← get_left victim;
  when (truthy l) (hev_rbtree_node_set_parent l new);;
  r ← get_right victim;
  when (truthy r) (hev_rbtree_node_set_parent r new);;
  hev_rbtree_change_child victim new parent.

(** ** Removal *)

(** The do-while loop of lines 414-418; it returns [parent] and [successor]. *)
Fixpoint erase_descend (fuel : nat) (successor tmp : Z) : M rbmem (Z * Z) :=
  match fuel with
  | O => stuck
  | S fuel =>
      let parent := successor in
      let successor := tmp in
      tmp ← get_left tmp;
      if truthy tmp then erase_descend fuel successor tmp else mret (parent, successor)
  end.

(** The successor of the node whose right child is [child] is unlinked: its
    parent, the successor itself and its right child. *)
Definition erase_successor (child : Z) : M rbmem (Z * Z * Z) :=
  tmp ← get_left child;
  if negb (truthy tmp) then
    (* Case 2: node's successor is its right child *)
    child2 ← get_right child;
    mret (child, child, child2)
  else
    (* Case 3: node's successor is leftmost under node's right child subtree *)
    fuel ← fuel_of;
    '(parent, successor) ← erase_descend fuel child tmp;
    child2 ← get_right successor;
    set_left parent child2;;
    set_right successor child;;
    hev_rbtree_node_set_parent child successor;;
    mret (parent, successor, child2).

(** Cases 2 and 3, lines 384-441. *)
Definition erase_two_children (node child : Z) : M rbmem Z :=
  '(parent, successor, child2) ← erase_successor child;
  tmp ← get_left node;
  set_left successor tmp;;
  hev_rbtree_node_set_parent tmp successor;;
  pc ← get_pc node;
  hev_rbtree_change_child node successor (_hev_rbtree_node_parent pc);;
  rebalance ←
    (if truthy child2 then
       hev_rbtree_node_set_parent_color child2 parent HEV_RBTREE_BLACK;;
       mret 0
     else
       black ← hev_rbtree_node_is_black successor;
       mret (if (black : bool) then parent else 0));
  set_pc successor pc;;
  mret rebalance.

Definition _hev_rbtree_erase (node : Z) : M rbmem Z :=
  child ← get_right node;
  tmp ← get_left node;
  if negb (truthy tmp) then
    (* Case 1: no more than one child *)
    pc ← get_pc node;
    let parent := _hev_rbtree_node_parent pc in
    hev_rbtree_change_child node child parent;;
    if truthy child then
      set_pc child pc;; mret 0
    else
      mret (if _hev_rbtree_node_is_black pc then parent else 0)
  else if negb (truthy child) then
    (* Still case 1, but this time the child is node->left *)
    pc ← get_pc node;
    set_pc tmp pc;;
    hev_rbtree_change_child node tmp (_hev_rbtree_node_parent pc);;
    mret 0
  else erase_two_children node child.

(** Case 4: left rotate at [parent] and colour flips. *)
Definition erase_color_left_case4 (parent sibling tmp1 : Z) : M rbmem unit :=
  tmp2 ← get_left sibling;
  set_right parent tmp2;;
  set_left sibling parent;;
  hev_rbtree_node_set_parent_color tmp1 sibling HEV_RBTREE_BLACK;;
  when (truthy tmp2) (hev_rbtree_node_set_parent tmp2 parent);;
  hev_rbtree_rotate_set_parents parent sibling HEV_RBTREE_BLACK.

(** Cases 2 to 4, where [sibling] is black. *)
Definition erase_color_left_black (again : Z → Z → M rbmem unit)
    (parent sibling : Z) : M rbmem unit :=
  tmp1 ← get_right sibling;
  black1 ← null_or_is_black tmp1;
  next ←
    (if (black1 : bool) then
       tmp2 ← get_left sibling;
       black2 ← null_or_is_black tmp2;
       if (black2 : bool) then
         (* Case 2: sibling colour flip *)
         hev_rbtree_node_set_parent_color sibling parent HEV_RBTREE_RED;;
         pred ← hev_rbtree_node_is_red parent;
         (if (pred : bool) then hev_rbtree_node_set_black parent
          else
            parent' ← hev_rbtree_node_parent parent;
            if truthy parent' then again parent parent' else mret tt);;
         mret None
       else
         (* Case 3: right rotate at sibling *)
         tmp1 ← get_right tmp2;
         set_left sibling tmp1;;
         set_right tmp2 sibling;;
         set_right parent tmp2;;
         when (truthy tmp1) (hev_rbtree_node_set_parent_color tmp1 sibling HEV_RBTREE_BLACK);;
         mret (Some (tmp2, sibling))
     else mret (Some (sibling, tmp1)));
  match next with
  | None => mret tt
  | Some (sibling, tmp1) => erase_color_left_case4 parent sibling tmp1
  end.

(** Lines 465-572: [node] is the left child of [parent]. *)
Definition erase_color_left (again : Z → Z → M rbmem unit)
    (parent sibling : Z) : M rbmem unit :=
  red ← hev_rbtree_node_is_red sibling;
  sibling ←
    (if (red : bool) then
       (* Case 1: left rotate at parent *)
       tmp1 ← get_left sibling;
       set_right parent tmp1;;
       set_left sibling parent;;
       hev_rbtree_node_set_parent_color tmp1 parent HEV_RBTREE_BLACK;;
       hev_rbtree_rotate_set_parents parent sibling HEV_RBTREE_RED;;
       mret tmp1
     else mret sibling);
  erase_color_left_black again parent sibling.

(** Case 4: right rotate at [parent] and colour flips. *)
Definition erase_color_right_case4 (parent sibling tmp1 : Z) : M rbmem unit :=
  tmp2 ← get_right sibling;
  set_left parent tmp2;;
  set_right sibling parent;;
  hev_rbtree_node_set_parent_color tmp1 sibling HEV_RBTREE_BLACK;;
  when (truthy tmp2) (hev_rbtree_node_set_parent tmp2 parent);;
  hev_rbtree_rotate_set_parents parent sibling HEV_RBTREE_BLACK.

(** Cases 2 to 4, where [sibling] is black. *)
Definition erase_color_right_black (again : Z → Z → M rbmem unit)
    (parent sibling : Z) : M rbmem unit :=
  tmp1 ← get_left sibling;
  black1 ← null_or_is_black tmp1;
  next ←
    (if (black1 : bool) then
       tmp2 ← get_right sibling;
       black2 ← null_or_is_black tmp2;
       if (black2 : bool) then
         (* Case 2: sibling colour flip *)
         hev_rbtree_node_set_parent_color sibling parent HEV_RBTREE_RED;;
         pred ← hev_rbtree_node_is_red parent;
         (if (pred : bool) then hev_rbtree_node_set_black parent
          else
            parent' ← hev_rbtree_node_parent parent;
            if truthy parent' then again parent parent' else mret tt);;
         mret None
       else
         (* Case 3: left rotate at sibling *)
         tmp1 ← get_left tmp2;
         set_right sibling tmp1;;
         set_left tmp2 sibling;;
         set_left parent tmp2;;
         when (truthy tmp1) (hev_rbtree_node_set_parent_color tmp1 sibling HEV_RBTREE_BLACK);;
         mret (Some (tmp2, sibling))
     else mret (Some (sibling, tmp1)));
  match next with
  | None => mret tt
  | Some (sibling, tmp1) => erase_color_right_case4 parent sibling tmp1
  end.

(** Lines 574-623: [node] is the right child of [parent]. *)
Definition erase_color_right (again : Z → Z → M rbmem unit)
    (parent : Z) : M rbmem unit :=
  sibling ← get_left parent;
  red ← hev_rbtree_node_is_red sibling;
  sibling ←
    (if (red : bool) then
       (* Case 1: right rotate at parent *)
       tmp1 ← get_right sibling;
       set_left parent tmp1;;
       set_right sibling parent;;
       hev_rbtree_node_set_parent_color tmp1 parent HEV_RBTREE_BLACK;;
       hev_rbtree_rotate_set_parents parent sibling HEV_RBTREE_RED;;
       mret tmp1
     else mret sibling);
  erase_color_right_black again parent sibling.

(** The loop of lines 455-625. *)
Fixpoint erase_color_loop (fuel : nat) (node parent : Z) : M rbmem unit :=
  match fuel with
  | O => stuck
  | S fuel =>
      sibling ← get_right parent;
      if negb (node =? sibling) then
        erase_color_left (erase_color_loop fuel) parent sibling
      else
        erase_color_right (erase_color_loop fuel) parent
  end.

Definition _hev_rbtree_erase_color (parent : Z) : M rbmem unit :=
  fuel ← fuel_of;
  erase_color_loop fuel 0 parent.

Definition hev_rbtree_erase (node : Z) : M rbmem unit :=
  rebalance ← _hev_rbtree_erase node;
  when (truthy rebalance) (_hev_rbtree_erase_color rebalance).
