(* ===== verification/RBRep.v ===== *)
(** * RBRep: red-black trees in memory

    Functional trees labelled with node addresses, their red-black invariant,
    and the memories that represent them; zippers, which describe a tree seen
    from one of its nodes; and the effect of the primitive accesses of
    HevRBTree on a memory in which every field is known. *)
From S2P Require Import Prelude HevRBTree.

(** ** Trees *)

Inductive color := Red | Black.
Inductive tree := E | T (c : color) (l : tree) (a : Z) (r : tree).
Inductive dir := L | R.

#[export] Instance color_eq_dec : EqDecision color.
Proof. solve_decision. Defined.
#[export] Instance tree_eq_dec : EqDecision tree.
Proof. solve_decision. Defined.

Definition addr (t : tree) : Z := match t with E => 0 | T _ _ a _ => a end.
Definition tcol (t : tree) : color := match t with E => Black | T c _ _ _ => c end.

Definition blacken (t : tree) : tree :=
  match t with E => E | T _ l a r => T Black l a r end.

Fixpoint inorder (t : tree) : list Z :=
  match t with E => [] | T _ l a r => inorder l ++ a :: inorder r end.

(** The red-black invariant: every path has [n] black nodes and no red node
    has a red child. *)
Inductive rb : nat → tree → Prop :=
| rb_E : rb O E
| rb_R n l a r : rb n l → rb n r → tcol l = Black → tcol r = Black → rb n (T Red l a r)
| rb_B n l a r : rb n l → rb n r → rb (S n) (T Black l a r).
#[export] Hint Constructors rb : core.

(** A zipper: the frames from a subtree up to the root. [Frame d c a s] is a
    node whose child on side [d] is the hole and whose other child is [s]. *)
Inductive frame := Frame (d : dir) (c : color) (a : Z) (s : tree).
Abbreviation ctx := (list frame).

Definition node_on (d : dir) (c : color) (t : tree) (a : Z) (s : tree) : tree :=
  match d with L => T c t a s | R => T c s a t end.

Fixpoint plug (k : ctx) (t : tree) : tree :=
  match k with [] => t | Frame d c a s :: k' => plug k' (node_on d c t a s) end.

Definition top (k : ctx) : Z := match k with [] => 0 | Frame _ _ a _ :: _ => a end.

(** The root must be black: an empty context does not accept a red tree. *)
Definition kcol (k : ctx) : color := match k with [] => Red | Frame _ c _ _ :: _ => c end.

Fixpoint kaddrs (k : ctx) : list Z :=
  match k with [] => [] | Frame _ _ a s :: k' => a :: inorder s ++ kaddrs k' end.

(** A context that completes a subtree of black height [n]. *)
Inductive rbk : nat → ctx → Prop :=
| rbk_nil n : rbk n []
| rbk_B n d a s k : rb n s → rbk (S n) k → rbk n (Frame d Black a s :: k)
| rbk_R n d a s k : rb n s → tcol s = Black → kcol k = Black → rbk n k →
    rbk n (Frame d Red a s :: k).
#[export] Hint Constructors rbk : core.

Definition left_of (k : ctx) : list Z :=
  foldr (λ f acc, match f with
    | Frame L _ _ _ => acc
    | Frame R _ a s => acc ++ inorder s ++ [a] end) [] k.
Definition right_of (k : ctx) : list Z :=
  foldr (λ f acc, match f with
    | Frame L _ a s => a :: inorder s ++ acc
    | Frame R _ _ _ => acc end) [] k.

Lemma inorder_plug k t : inorder (plug k t) = left_of k ++ inorder t ++ right_of k.
Proof.
  revert t. induction k as [|[[] c a s] k IH]; intros t; simpl.
  - by rewrite app_nil_r.
  - rewrite IH. simpl. by rewrite <- !app_assoc.
  - rewrite IH. simpl. by rewrite <- !app_assoc.
Qed.

Lemma kaddrs_perm k t : inorder (plug k t) ≡ₚ inorder t ++ kaddrs k.
Proof.
  revert t. induction k as [|[[] c a s] k IH]; intros t; simpl.
  - by rewrite app_nil_r.
  - rewrite IH. simpl. by rewrite <- app_assoc.
  - rewrite IH. simpl. rewrite <- app_assoc. simpl.
    rewrite <- !Permutation_middle. constructor. rewrite !app_assoc. f_equiv.
    apply Permutation_app_comm.
Qed.

Lemma plug_rb k t n :
  rb n t → rbk n k → (tcol t = Red → kcol k = Black) →
  ∃ n', rb n' (plug k t) ∧ tcol (plug k t) = Black.
Proof.
  revert t n. induction k as [|[d c a s] k IH]; intros t n Ht Hk Hc; simpl.
  - exists n. split; [done|]. destruct (tcol t); [by destruct (Hc eq_refl)|done].
  - inversion Hk; subst.
    + apply (IH _ (S n)); [destruct d; by constructor|done|by destruct d].
    + assert (tcol t = Black) by (destruct (tcol t); [by specialize (Hc eq_refl)|done]).
      apply (IH _ n); [destruct d; by constructor|done|done].
Qed.

Lemma unplug_rb k t n :
  rb n (plug k t) → tcol (plug k t) = Black →
  ∃ n', rb n' t ∧ rbk n' k ∧ (tcol t = Red → kcol k = Black).
Proof.
  revert t n. induction k as [|[d c a s] k IH]; intros t n Hp Hc; simpl in *.
  - exists n. split; [done|]. split; [constructor|]. congruence.
  - destruct (IH _ _ Hp Hc) as (n' & Hn & Hk & Hr).
    assert (c = Red → tcol t = Black ∧ tcol s = Black) as Hts.
    { intros ->. destruct d; inversion Hn; subst; done. }
    destruct c.
    + exists n'. assert (kcol k = Black) by (apply Hr; by destruct d).
      destruct (Hts eq_refl). split; [by destruct d; inversion Hn|].
      split; [|congruence]. constructor; try done. by destruct d; inversion Hn.
    + destruct n' as [|n']; [by destruct d; inversion Hn|].
      exists n'. split; [by destruct d; inversion Hn|]. split; [|done].
      constructor; [by destruct d; inversion Hn|done].
Qed.

(** ** The parent-and-colour word *)

Definition colZ (c : color) : Z := match c with Red => 0 | Black => 1 end.
Definition aligned (p : Z) : Prop := Z.land p 3 = 0.

(** A node with a decoded parent and colour. *)
Definition N (par : Z) (c : color) (r l : Z) : HevRBTreeNode :=
  RBNode (Z.lor par (colZ c)) r l.

Lemma aligned_0 : aligned 0.
Proof. done. Qed.

Lemma aligned_bit0 p : aligned p → Z.land p 1 = 0.
Proof.
  unfold aligned. intros H. replace 1 with (Z.land 3 1) by done.
  by rewrite Z.land_assoc, H.
Qed.

Lemma pc_color p c : aligned p → Z.land (Z.lor p (colZ c)) 1 = colZ c.
Proof.
  intros H%aligned_bit0. rewrite Z.land_lor_distr_l, H. by destruct c.
Qed.

Lemma pc_parent p c : aligned p → Z.land (Z.lor p (colZ c)) (Z.lnot 3) = p.
Proof.
  unfold aligned. intros H. rewrite Z.land_lor_distr_l.
  assert (Z.land (colZ c) (Z.lnot 3) = 0) as -> by (by destruct c).
  rewrite Z.lor_0_r. apply Z.bits_inj'. intros i Hi0.
  rewrite Z.land_spec, Z.lnot_spec by done.
  assert (Z.testbit (Z.land p 3) i = false) as Hi by (by rewrite H, Z.bits_0).
  rewrite Z.land_spec in Hi. destruct (Z.testbit p i), (Z.testbit 3 i); done.
Qed.

Lemma pc_set_black p c : Z.lor (Z.lor p (colZ c)) 1 = Z.lor p (colZ Black).
Proof. rewrite <- Z.lor_assoc. by destruct c. Qed.

(** ** Representation *)

Fixpoint rep (m : gmap Z HevRBTreeNode) (par : Z) (t : tree) : Prop :=
  match t with
  | E => True
  | T c l a r => m !! a = Some (N par c (addr r) (addr l)) ∧ rep m a l ∧ rep m a r
  end.

(** The node of a frame, with the hole pointing to [h]. *)
Definition frame_node (d : dir) (par : Z) (c : color) (h s : Z) : HevRBTreeNode :=
  match d with L => N par c s h | R => N par c h s end.

Fixpoint repk (rt : Z) (m : gmap Z HevRBTreeNode) (k : ctx) (h : Z) : Prop :=
  match k with
  | [] => rt = h
  | Frame d c a s :: k' =>
      m !! a = Some (frame_node d (top k') c h (addr s)) ∧ rep m a s ∧ repk rt m k' a
  end.

Definition good_addrs (xs : list Z) : Prop :=
  NoDup xs ∧ Forall (λ a, a ≠ 0 ∧ aligned a) xs.

(** A memory that holds the tree [t], or the tree [plug k t] seen from [t]. *)
Definition tree_rep (rt : Z) (m : gmap Z HevRBTreeNode) (t : tree) : Prop :=
  rt = addr t ∧ rep m 0 t ∧ good_addrs (inorder t).

Definition zrep (rt : Z) (m : gmap Z HevRBTreeNode) (k : ctx) (t : tree) : Prop :=
  repk rt m k (addr t) ∧ rep m (top k) t ∧ good_addrs (inorder t ++ kaddrs k).

Lemma good_perm xs ys : xs ≡ₚ ys → good_addrs xs → good_addrs ys.
Proof. unfold good_addrs. by intros ->. Qed.

Lemma zrep_plug rt m k t : zrep rt m k t ↔ tree_rep rt m (plug k t).
Proof.
  unfold zrep, tree_rep.
  assert (repk rt m k (addr t) ∧ rep m (top k) t ↔
          rt = addr (plug k t) ∧ rep m 0 (plug k t)) as Hr.
  { revert t. induction k as [|[d c a s] k IH]; intros t; simpl; [tauto|].
    rewrite <- IH. destruct d; simpl; tauto. }
  split; intros (H1 & H2 & H3).
  - apply and_assoc. split; [by apply Hr|]. eapply good_perm, H3. symmetry. apply kaddrs_perm.
  - apply and_assoc. split; [by apply Hr|]. eapply good_perm, H3. apply kaddrs_perm.
Qed.

Lemma rep_frame m m' par t :
  (∀ x, x ∈ inorder t → m' !! x = m !! x) → rep m par t → rep m' par t.
Proof.
  revert par. induction t as [|c l IHl a r IHr]; intros par Hm; [done|].
  simpl in *. intros (Ha & Hl & Hr). split_and!.
  - rewrite Hm; [done|set_solver].
  - apply IHl; [|done]. intros x Hx. apply Hm. set_solver.
  - apply IHr; [|done]. intros x Hx. apply Hm. set_solver.
Qed.

Lemma repk_frame rt m m' k h :
  (∀ x, x ∈ kaddrs k → m' !! x = m !! x) → repk rt m k h → repk rt m' k h.
Proof.
  revert h. induction k as [|[d c a s] k IH]; intros h Hm; [done|].
  simpl in *. intros (Ha & Hs & Hk). split_and!.
  - rewrite Hm; [done|set_solver].
  - eapply rep_frame, Hs. intros x Hx. apply Hm. set_solver.
  - apply IH; [|done]. intros x Hx. apply Hm. set_solver.
Qed.

Lemma addr_in t : addr t = 0 ∨ addr t ∈ inorder t.
Proof. destruct t; simpl; [by left|right; set_solver]. Qed.

Lemma top_in k : top k = 0 ∨ top k ∈ kaddrs k.
Proof. destruct k as [|[]]; simpl; [by left|right; set_solver]. Qed.

Lemma good_nz xs a : good_addrs xs → a ∈ xs → a ≠ 0 ∧ aligned a.
Proof. intros [_ H] Ha. by eapply Forall_forall in H. Qed.

Lemma good_top xs k : good_addrs xs → (∀ x, x ∈ kaddrs k → x ∈ xs) → aligned (top k).
Proof.
  intros Hg Hk. destruct (top_in k) as [->|Ht]; [apply aligned_0|].
  eapply good_nz; eauto.
Qed.

(** ** Evaluation of the primitive accesses *)

Section Eval.
Context (rt : Z) (m : gmap Z HevRBTreeNode).
Implicit Types (p par r l v : Z) (c : color).
Local Notation St := (RBMem rt m).

Ltac ev := intros Hl;
  unfold hev_rbtree_node_is_red, hev_rbtree_node_is_black, hev_rbtree_node_parent,
    hev_rbtree_node_red_parent, hev_rbtree_node_set_parent_color, hev_rbtree_node_set_parent,
    hev_rbtree_node_set_black, hev_rbtree_node_color, hev_rbtree_node_empty, get_pc, get_left,
    get_right, set_pc, set_left, set_right, get_node, put_node, modify, mbind, M_bind, mret, M_ret;
  cbn [nodes]; rewrite Hl; cbn.

Lemma ev_left p n : m !! p = Some n → get_left p St = Val (left n) St.
Proof. by ev. Qed.
Lemma ev_right p n : m !! p = Some n → get_right p St = Val (right n) St.
Proof. by ev. Qed.
Lemma ev_pc p n : m !! p = Some n → get_pc p St = Val (parent_color n) St.
Proof. by ev. Qed.
Lemma ev_set_left p v par c r l : m !! p = Some (N par c r l) →
  set_left p v St = Val tt (RBMem rt (<[p := N par c r v]> m)).
Proof. by ev. Qed.
Lemma ev_set_right p v par c r l : m !! p = Some (N par c r l) →
  set_right p v St = Val tt (RBMem rt (<[p := N par c v l]> m)).
Proof. by ev. Qed.
Lemma ev_set_pc p par c par' c' r l : m !! p = Some (N par' c' r l) →
  set_pc p (Z.lor par (colZ c)) St = Val tt (RBMem rt (<[p := N par c r l]> m)).
Proof. by ev. Qed.
Lemma ev_set_pcol p par c par' c' r l : m !! p = Some (N par' c' r l) →
  hev_rbtree_node_set_parent_color p par (colZ c) St =
    Val tt (RBMem rt (<[p := N par c r l]> m)).
Proof. by ev. Qed.
Lemma ev_set_parent p par par' c' r l : m !! p = Some (N par' c' r l) → aligned par' →
  hev_rbtree_node_set_parent p par St = Val tt (RBMem rt (<[p := N par c' r l]> m)).
Proof. intros Hl Ha. revert Hl. ev. rewrite Hl, pc_color by done. by rewrite Z.lor_comm. Qed.
Lemma ev_is_red p par c r l : m !! p = Some (N par c r l) → aligned par →
  hev_rbtree_node_is_red p St = Val (bool_decide (c = Red)) St.
Proof. intros Hl Ha. revert Hl. ev. rewrite pc_color by done. by destruct c. Qed.
Lemma ev_is_black p par c r l : m !! p = Some (N par c r l) → aligned par →
  hev_rbtree_node_is_black p St = Val (bool_decide (c = Black)) St.
Proof. intros Hl Ha. revert Hl. ev. rewrite pc_color by done. by destruct c. Qed.
Lemma ev_parent p par c r l : m !! p = Some (N par c r l) → aligned par →
  hev_rbtree_node_parent p St = Val par St.
Proof. intros Hl Ha. revert Hl. ev. by rewrite pc_parent. Qed.
Lemma ev_red_parent p par r l : m !! p = Some (N par Red r l) →
  hev_rbtree_node_red_parent p St = Val par St.
Proof. ev. by rewrite Z.lor_0_r. Qed.
Lemma ev_set_black p par c r l : m !! p = Some (N par c r l) →
  hev_rbtree_node_set_black p St = Val tt (RBMem rt (<[p := N par Black r l]> m)).
Proof. ev. rewrite Hl. unfold HEV_RBTREE_BLACK. by rewrite pc_set_black. Qed.

(** The root of a represented subtree. *)
Lemma ev_and_is_red par t : rep m par t → aligned par → (t ≠ E → addr t ≠ 0) →
  and_is_red (addr t) St = Val (bool_decide (tcol t = Red)) St.
Proof.
  intros Hr Ha Hz. unfold and_is_red. destruct t as [|c l a r]; [done|].
  rewrite truthy_ne by (by apply Hz). simpl in *. by eapply ev_is_red; [apply Hr|].
Qed.
Lemma ev_null_or_black par t : rep m par t → aligned par → (t ≠ E → addr t ≠ 0) →
  null_or_is_black (addr t) St = Val (bool_decide (tcol t = Black)) St.
Proof.
  intros Hr Ha Hz. unfold null_or_is_black. destruct t as [|c l a r]; [done|].
  rewrite truthy_ne by (by apply Hz). simpl in *. by eapply ev_is_black; [apply Hr|].
Qed.
End Eval.

(** ** Replacing a child *)

Lemma ev_change_child rt m k old new :
  repk rt m k old → old ≠ 0 → old ∉ kaddrs k → good_addrs (kaddrs k) →
  ∃ rt' m', hev_rbtree_change_child old new (top k) (RBMem rt m) = Val tt (RBMem rt' m') ∧
    repk rt' m' k new ∧ (∀ x, x ∉ kaddrs k → m' !! x = m !! x) ∧ dom m' = dom m.
Proof.
  intros Hk Ho Hok Hg. unfold hev_rbtree_change_child.
  destruct k as [|[d c a s] k]; simpl top.
  - cbn. by eexists _, _.
  - destruct Hg as [Hnd Hnz]. simpl in Hnd, Hnz, Hok, Hk. apply Forall_cons in Hnz as [[Ha _] _].
    destruct Hk as (Hla & Hs & Hk). nodup_sat.
    rewrite truthy_ne by done. erewrite bind_val; [|by eapply ev_left].
    assert (left (frame_node d (top k) c old (addr s)) =? old = match d with L => true | R => false end) as ->.
    { destruct d; simpl; [apply Z.eqb_refl|]. apply Z.eqb_neq.
      destruct (addr_in s) as [->|]; [done|ne]. }
    set (m' := <[a := frame_node d (top k) c new (addr s)]> m).
    exists rt, m'. split.
    { unfold frame_node in *. destruct d; cbn; [erewrite ev_set_left|erewrite ev_set_right];
        done || by eauto. }
    split; [|split].
    + simpl. split; [apply lookup_insert_eq|]. split.
      * eapply rep_frame, Hs. intros x Hx. apply lookup_insert_ne. ne.
      * eapply repk_frame, Hk. intros x Hx. apply lookup_insert_ne. ne.
    + intros x Hx. simpl in Hx. nodup_sat. apply lookup_insert_ne. ne.
    + apply elem_of_dom_2 in Hla. unfold m'. set_solver.
Qed.

(** The lookup of an address in a memory updated at known addresses. *)
Ltac lkp :=
  solve [repeat first
    [ rewrite lookup_insert_eq; reflexivity | eassumption | rewrite lookup_insert_ne by ne ]].
Lemma ev_rotate_set_parents rt m k old new color c r l par' c' r' l' :
  m !! old = Some (N (top k) c r l) → m !! new = Some (N par' c' r' l') →
  old ≠ new → old ∉ kaddrs k → new ∉ kaddrs k → old ≠ 0 →
  repk rt m k old → good_addrs (kaddrs k) →
  ∃ rt' m', hev_rbtree_rotate_set_parents old new (colZ color) (RBMem rt m) = Val tt (RBMem rt' m') ∧
    repk rt' m' k new ∧
    (∀ x, x ∉ kaddrs k →
       m' !! x = (<[old := N new color r l]> (<[new := N (top k) c r' l']> m)) !! x) ∧
    dom m' = dom m.
Proof.
  intros Ho Hn Hne Hok Hnk Hnz Hk Hg.
  assert (aligned (top k)) as Hal by (eapply good_top; eauto).
  unfold hev_rbtree_rotate_set_parents.
  erewrite bind_val; [|by eapply ev_parent].
  erewrite bind_val; [|by eapply ev_pc]. cbn [parent_color N].
  erewrite bind_val; [|eapply ev_set_pc; lkp].
  erewrite bind_val; [|eapply ev_set_pcol; lkp].
  set (m1 := <[old := _]> _).
  destruct (ev_change_child rt m1 k old new) as (rt' & m' & -> & Hk' & Hfr & Hd); try done.
  { eapply repk_frame, Hk. intros x Hx. unfold m1. rewrite !lookup_insert_ne by ne. done. }
  exists rt', m'. split_and!; try done.
  rewrite Hd. unfold m1. apply elem_of_dom_2 in Ho, Hn. set_solver.
Qed.

(** ** Proof automation for rebalancing *)

Lemma zrep_intro rt m k t xs :
  repk rt m k (addr t) → rep m (top k) t → inorder (plug k t) = xs → good_addrs xs → zrep rt m k t.
Proof.
  intros Hk Hr <- Hg. split_and!; try done. eapply good_perm, Hg. apply kaddrs_perm.
Qed.

Lemma zrep_good rt m k t : zrep rt m k t → good_addrs (inorder (plug k t)).
Proof. intros (_ & _ & Hg). eapply good_perm, Hg. symmetry. apply kaddrs_perm. Qed.

Ltac eb lem := erewrite bind_val; [|eapply lem; first [lkp | eassumption | idtac]; eauto].
Ltac inord :=
  cbn [plug node_on fst snd]; rewrite !inorder_plug; cbn [inorder];
  repeat (rewrite <- ?app_assoc; cbn [app]); reflexivity.

(** [rsolve] proves a representation in a memory updated at known addresses;
    [frm] removes the updates when no frame equation is in the context. *)
Ltac chase :=
  repeat first
    [ reflexivity
    | rewrite lookup_insert_eq
    | rewrite lookup_insert_ne by ne
    | match goal with H : ∀ x, x ∉ _ → ?m' !! x = _ |- context [?m' !! _] => rewrite H by ne end
    | eassumption ].
Ltac lkp ::= solve [chase].
Ltac frm := let x := fresh in let Hx := fresh in intros x Hx; solve [chase].
Ltac outside :=
  let x := fresh in let Hx := fresh in
  intros x Hx; rewrite ?kaddrs_perm in Hx; cbn in Hx; nodup_sat; solve [chase].
Ltac rsolve :=
  first
    [ solve [eapply repk_frame; [|eassumption]; frm]
    | cbn [repk rep addr top frame_node plug node_on]; split_and?; try done;
      first
        [ lkp
        | eapply rep_frame; [|eassumption]; frm
        | eapply repk_frame; [|eassumption]; frm
        | idtac ] ].

Lemma good_incl xs ys : good_addrs ys → NoDup xs → (∀ x, x ∈ xs → x ∈ ys) → good_addrs xs.
Proof.
  intros [_ Hg] Hn Hi. split; [done|]. apply Forall_forall. intros x Hx.
  eapply Forall_forall in Hg; eauto.
Qed.

Lemma addr_nz xs t : good_addrs xs → (∀ x, x ∈ inorder t → x ∈ xs) → t ≠ E → addr t ≠ 0.
Proof.
  intros Hg Hi Ht. destruct t as [|c l a r]; [done|]. cbn.
  eapply good_nz; [exact Hg|]. apply Hi. cbn. set_solver.
Qed.

(** Recolouring the root of a possibly empty subtree. *)
Lemma ev_when_blacken rt m par par' t :
  rep m par t → good_addrs (inorder t) →
  ∃ m', when (truthy (addr t)) (hev_rbtree_node_set_parent_color (addr t) par' (colZ Black))
      (RBMem rt m) = Val tt (RBMem rt m') ∧
    rep m' par' (blacken t) ∧ (∀ x, x ∉ inorder t → m' !! x = m !! x) ∧ dom m' = dom m.
Proof.
  intros Hr Hg. destruct t as [|c l a r]; [by exists m|].
  destruct (good_nz _ a Hg) as [Ha _]; [set_solver|].
  pose proof (proj1 Hg) as Hnd. cbn in Hnd. nodup_sat. destruct Hr as (Hla & Hl & Hr).
  cbn [addr]. rewrite truthy_ne by done. eexists. split; [by eapply ev_set_pcol|].
  split_and!.
  - cbn [blacken]. rsolve.
  - intros x Hx. cbn in Hx. nodup_sat. chase.
  - apply elem_of_dom_2 in Hla. set_solver.
Qed.

Lemma blacken_black t : tcol t = Black → blacken t = t.
Proof. by destruct t as [|[]]. Qed.

Lemma ev_when_pcol rt m par par' t :
  rep m par t → good_addrs (inorder t) → tcol t = Black →
  ∃ m', when (truthy (addr t)) (hev_rbtree_node_set_parent_color (addr t) par' (colZ Black))
      (RBMem rt m) = Val tt (RBMem rt m') ∧
    rep m' par' t ∧ (∀ x, x ∉ inorder t → m' !! x = m !! x) ∧ dom m' = dom m.
Proof.
  intros Hr Hg Hc. destruct (ev_when_blacken rt m par par' t Hr Hg) as (m' & H).
  rewrite blacken_black in H by done. by exists m'.
Qed.

(** What rebalancing establishes from a tree whose in-order list is [xs]. *)
Definition rebalanced (m : gmap Z HevRBTreeNode) (xs : list Z) (o : outcome rbmem unit) : Prop :=
  ∃ rt' m' t' n, o = Val tt (RBMem rt' m') ∧ tree_rep rt' m' t' ∧ rb n t' ∧
    tcol t' = Black ∧ inorder t' = xs ∧ (∀ x, x ∉ xs → m' !! x = m !! x) ∧ dom m' = dom m.

(** Continue with the memory of the current goal. *)
Ltac with_mem tac :=
  lazymatch goal with |- rebalanced _ _ (_ (RBMem ?rt ?m)) => tac rt m end.

Lemma rebalanced_zrep m xs rt' m' k t n :
  zrep rt' m' k t → rb n t → rbk n k → (tcol t = Red → kcol k = Black) →
  inorder (plug k t) = xs → (∀ x, x ∉ inorder t ++ kaddrs k → m' !! x = m !! x) →
  dom m' = dom m → rebalanced m xs (Val tt (RBMem rt' m')).
Proof.
  intros Hz Hb Hk Hc Hi Hf Hd. destruct (plug_rb k t n) as (n' & ? & ?); try done.
  exists rt', m', (plug k t), n'. split_and!; try done; [by apply zrep_plug|].
  intros x Hx. apply Hf. rewrite <- Hi in Hx. by rewrite kaddrs_perm in Hx.
Qed.

Lemma rebalanced_mono m m1 xs xs' o :
  rebalanced m1 xs o → (∀ x, x ∉ xs → m1 !! x = m !! x) → dom m1 = dom m → xs = xs' →
  rebalanced m xs' o.
Proof.
  intros (rt' & m' & t' & n & -> & Ht & Hb & Hc & Hi & Hf & Hd) Hf1 Hd1 <-.
  exists rt', m', t', n. split_and!; try done; [|congruence].
  intros x Hx. rewrite Hf by done. by apply Hf1.
Qed.

Lemma dom_insert_same (m : gmap Z HevRBTreeNode) a n n' :
  m !! a = Some n → dom (<[a := n']> m) = dom m.
Proof. intros Ha%elem_of_dom_2. set_solver. Qed.

Lemma good_eq xs ys : good_addrs xs → xs = ys → good_addrs ys.
Proof. by intros ? <-. Qed.

Ltac domt :=
  solve [repeat first
    [ reflexivity
    | match goal with H : dom ?m' = _ |- dom ?m' = _ => rewrite H end
    | erewrite dom_insert_same by lkp ]].
Ltac ebr H := erewrite bind_val; [|exact H].

Lemma kaddrs_length k : (length k ≤ length (kaddrs k))%nat.
Proof. induction k as [|[] k IH]; cbn; rewrite ?length_app; lia. Qed.

Lemma zrep_kaddrs_dom rt m k t x :
  zrep rt m k t → x ∈ inorder t ++ kaddrs k → x ∈ dom m.
Proof.
  assert (∀ par t, rep m par t → ∀ x, x ∈ inorder t → x ∈ dom m) as Hrep.
  { intros par t'. revert par. induction t' as [|c l IHl a r IHr]; intros par; [set_solver|].
    intros (Ha & Hl & Hr) y Hy. cbn in Hy. apply elem_of_dom_2 in Ha. set_solver. }
  intros (Hk & Ht & _) [Hx|Hx]%elem_of_app; [by eapply Hrep|]. clear Ht.
  revert Hk Hx. generalize (addr t). induction k as [|[d c a s] k IH]; intros h; cbn; [set_solver|].
  intros (Ha & Hs & Hk). apply elem_of_dom_2 in Ha. specialize (IH _ Hk). set_solver.
Qed.

Lemma nodup_dom_size (m : gmap Z HevRBTreeNode) xs :
  NoDup xs → (∀ x, x ∈ xs → x ∈ dom m) → (length xs ≤ size m)%nat.
Proof.
  intros Hn Hi. rewrite <- size_dom.
  assert (length xs = size (list_to_set xs : gset Z)) as -> by (by rewrite size_list_to_set).
  apply subseteq_size. set_solver.
Qed.

