(* ===== verification/RBInsert.v ===== *)
(** * RBInsert: correctness of insertion into the red-black tree *)
From S2P Require Import Prelude HevRBTree RBRep.

(** The colour flip of case 1: the violation moves up to [g]. *)
Lemma insert_flip d d2 again k l a r p s g ul ua ur rt m n xs :
  let k2 := Frame d Red p s :: Frame d2 Black g (T Red ul ua ur) :: k in
  zrep rt m k2 (T Red l a r) → rb n (T Red l a r) → rbk n k2 →
  xs = inorder (plug k2 (T Red l a r)) →
  (∀ rt' m' t, zrep rt' m' k (T Red (fst t) g (snd t)) → rb (S n) (T Red (fst t) g (snd t)) →
     rbk (S n) k → rebalanced m' (inorder (plug k (T Red (fst t) g (snd t))))
       (again g (top k) (RBMem rt' m'))) →
  rebalanced m xs
   (match d2 with
    | L => insert_color_left again a p g ua (RBMem rt m)
    | R => insert_color_right again a p g (RBMem rt m)
    end).
Proof.
  intros k2 Hz Hb Hk -> IH.
  pose proof (zrep_good _ _ _ _ Hz) as Hgood.
  destruct Hz as ((Hp & Hs & Hlg & Hu & Hkr) & (Ha & Hl & Hr) & Hg).
  assert (aligned (top k)) as Htk by (eapply good_top; [exact Hg|]; set_solver).
  assert (g ≠ 0 ∧ aligned g) as [Hg0 Hgal] by (eapply good_nz; [exact Hg|]; clear; set_solver).
  assert (ua ≠ 0 ∧ aligned ua) as [Hu0 Hual] by (eapply good_nz; [exact Hg|]; clear; set_solver).
  pose proof (proj1 Hg) as Hnd. cbn in Hnd. nodup_sat.
  cbn in Hu. destruct Hu as (Hua & Hul & Hur). cbn [addr top frame_node] in *.
  inversion Hk as [| |? ? ? ? ? Hbs Hts Hkc Hbk]; subst.
  inversion Hbk as [|? ? ? ? ? Hbu Hbk'|]; subst. inversion Hbu; subst.
  set (t' := match d2 with
    | L => (node_on d Black (T Red l a r) p s, T Black ul ua ur)
    | R => (T Black ul ua ur, node_on d Black (T Red l a r) p s) end).
  unfold insert_color_left, insert_color_right, and_is_red, HEV_RBTREE_BLACK, HEV_RBTREE_RED.
  change 1 with (colZ Black). change 0 with (colZ Red).
  destruct d, d2; cbn [frame_node] in *; try eb ev_left; cbn [left N];
    (rewrite truthy_ne by done; eb ev_is_red; case_bool_decide; [|done];
     eb ev_set_pcol; eb ev_set_pcol; eb ev_parent; eb ev_set_pcol;
     eapply rebalanced_mono; [apply (IH _ _ t')|outside|domt|unfold t', k2; inord]).
  all: unfold t'; cbn [fst snd node_on].
  all: try solve [repeat first [assumption | reflexivity | constructor]].
  all: try done.
  all: eapply zrep_intro; [rsolve|rsolve|reflexivity|].
  all: eapply good_eq; [exact Hgood|unfold k2; inord].
Qed.


(** Case 3: the rotation at [g], whose child [p] has the outer child [t]. *)
Lemma insert_case3 d k t p s g u x pp rt m n xs :
  m !! p = Some (frame_node d pp Red (addr t) (addr s)) → rep m p t → rep m p s →
  m !! g = Some (frame_node d (top k) Black x (addr u)) → rep m g u → repk rt m k g →
  xs = inorder (plug k (node_on d Black (node_on d Red t p s) g u)) → good_addrs xs →
  rb n t → rb n s → tcol s = Black → rb n u → tcol u = Black → rbk (S n) k →
  rebalanced m xs
    (match d with
     | L => set_left g (addr s);; set_right p g;;
            when (truthy (addr s)) (hev_rbtree_node_set_parent_color (addr s) g (colZ Black));;
            hev_rbtree_rotate_set_parents g p (colZ Red)
     | R => set_right g (addr s);; set_left p g;;
            when (truthy (addr s)) (hev_rbtree_node_set_parent_color (addr s) g (colZ Black));;
            hev_rbtree_rotate_set_parents g p (colZ Red)
     end (RBMem rt m)).
Proof.
  intros Hp Ht Hs Hg Hu Hk -> Hgood Hbt Hbs Hcs Hbu Hcu Hbk.
  assert (good_addrs (inorder t ++ p :: inorder s ++ g :: inorder u ++ kaddrs k)) as Hgd.
  { eapply good_perm, Hgood. rewrite kaddrs_perm. destruct d; cbn; rewrite <- ?app_assoc; cbn; solve_Permutation. }
  assert (aligned (top k)) as Htk by (eapply good_top; [exact Hgd|]; set_solver).
  assert (g ≠ 0 ∧ aligned g) as [Hg0 Hgal] by (eapply good_nz; [exact Hgd|]; set_solver).
  pose proof (proj1 Hgd) as Hnd. nodup_sat.
  assert (good_addrs (inorder s)) as Hgs by (eapply good_incl; [exact Hgd|done|clear; set_solver]).
  assert (good_addrs (kaddrs k)) as Hgk by (eapply good_incl; [exact Hgd|done|clear; set_solver]).
  destruct d; cbn [frame_node] in *;
    (first [eb ev_set_left; eb ev_set_right | eb ev_set_right; eb ev_set_left];
     with_mem ltac:(fun rt m => edestruct (ev_when_pcol rt m p g s) as (m1 & He & Hs1 & Hf1 & Hd1));
       [rsolve|done|done|ebr He];
     edestruct (ev_rotate_set_parents rt m1 k g p Red) as (rt2 & m2 & -> & Hk2 & Hf2 & Hd2);
       [lkp|lkp|ne|ne|ne|done|rsolve|done|]).
  - apply (rebalanced_zrep _ _ _ _ k (T Black t p (T Red s g u)) (S n)); try done; [| |inord| |].
    + eapply zrep_intro; [rsolve|rsolve|reflexivity|eapply good_eq; [exact Hgood|inord]].
    + eauto.
    + outside.
    + domt.
  - apply (rebalanced_zrep _ _ _ _ k (T Black (T Red u g s) p t) (S n)); try done; [| |inord| |].
    + eapply zrep_intro; [rsolve|rsolve|reflexivity|eapply good_eq; [exact Hgood|inord]].
    + eauto.
    + outside.
    + domt.
Qed.

Lemma insert_rotate d d2 again k l a r p s g u rt m n xs :
  let k2 := Frame d Red p s :: Frame d2 Black g u :: k in
  zrep rt m k2 (T Red l a r) → rb n (T Red l a r) → rbk n k2 → tcol u = Black →
  xs = inorder (plug k2 (T Red l a r)) →
  rebalanced m xs
   (match d2 with
    | L => insert_color_left again a p g (addr u) (RBMem rt m)
    | R => insert_color_right again a p g (RBMem rt m)
    end).
Proof.
  intros k2 Hz Hb Hk Hcu Hxs.
  pose proof (zrep_good _ _ _ _ Hz) as Hgood. rewrite <- Hxs in Hgood.
  destruct Hz as ((Hp & Hs & Hlg & Hu & Hkr) & (Ha & Hl & Hr) & Hg).
  assert (g ≠ 0 ∧ aligned g) as [Hg0 Hgal] by (eapply good_nz; [exact Hg|]; clear; set_solver).
  assert (a ≠ 0) as Ha0 by (eapply good_nz; [exact Hg|]; clear; set_solver).
  assert (u ≠ E → addr u ≠ 0) as Hu0 by (apply (addr_nz _ _ Hg); clear; set_solver).
  cbn [addr top frame_node] in *.
  inversion Hb as [|? ? ? ? Hbl Hbr Hcl Hcr|]; subst n0 l0 a0 r0.
  inversion Hk as [| |? ? ? ? ? Hbs Hts Hkc Hbk]; subst.
  inversion Hbk as [|? ? ? ? ? Hbu Hbk'|]; subst.
  pose proof (proj1 Hg) as Hnd. cbn in Hnd. nodup_sat.
  assert (a =? addr s = false) as Has.
  { apply Z.eqb_neq. destruct (addr_in s) as [->|]; [done|ne]. }
  unfold insert_color_left, insert_color_right, HEV_RBTREE_BLACK, HEV_RBTREE_RED.
  change 1 with (colZ Black). change 0 with (colZ Red).
  destruct d, d2; cbn [frame_node] in *; try eb ev_left; cbn [left N];
    (erewrite bind_val; [|eapply ev_and_is_red; [eassumption|done|done]]);
    rewrite Hcu, bool_decide_eq_false_2 by done; cbv beta iota;
    first [eb ev_right | eb ev_left]; cbn [left right N];
    rewrite ?Z.eqb_refl, ?Has, ?bind_ret, ?bind_assoc.
  - eapply (insert_case3 L k (T Red l a r) p s g u); try done; eauto.
  - eb ev_right. cbn [right N]. rewrite !bind_assoc. eb ev_set_left. rewrite bind_assoc. eb ev_set_right.
    rewrite bind_assoc.
    with_mem ltac:(fun rt m => edestruct (ev_when_pcol rt m a p r) as (m1 & He & Hr1 & Hf1 & Hd1));
       [rsolve|eapply good_incl; [exact Hg|done|clear; set_solver]|done|ebr He].
    rewrite bind_assoc. eb ev_set_pcol. rewrite bind_assoc. eb ev_left. cbn [left N]. rewrite bind_ret.
    eapply rebalanced_mono; [eapply (insert_case3 R k (T Red r p s) a l g u); try done|..].
    all: first [lkp|rsolve; fail|outside|domt|subst k2; inord|eauto; fail|idtac].
    eapply good_eq; [exact Hgood|subst k2; inord].
  - eb ev_left. cbn [left N]. rewrite !bind_assoc. eb ev_set_right. rewrite bind_assoc. eb ev_set_left.
    rewrite bind_assoc.
    with_mem ltac:(fun rt m => edestruct (ev_when_pcol rt m a p l) as (m1 & He & Hr1 & Hf1 & Hd1));
       [rsolve|eapply good_incl; [exact Hg|done|clear; set_solver]|done|ebr He].
    rewrite bind_assoc. eb ev_set_pcol. rewrite bind_assoc. eb ev_right. cbn [right N]. rewrite bind_ret.
    eapply rebalanced_mono; [eapply (insert_case3 L k (T Red s p l) a r g u); try done|..].
    all: first [lkp|rsolve; fail|outside|domt|subst k2; inord|eauto; fail|idtac].
    eapply good_eq; [exact Hgood|subst k2; inord].
  - eapply (insert_case3 R k (T Red l a r) p s g u); try done; eauto.
Qed.

Lemma insert_color_loop_spec fuel k l a r rt m n :
  zrep rt m k (T Red l a r) → rb n (T Red l a r) → rbk n k → (length k < 2 * fuel)%nat →
  rebalanced m (inorder (plug k (T Red l a r))) (insert_color_loop fuel a (top k) (RBMem rt m)).
Proof.
  revert k l a r rt m n. induction fuel as [|fuel IH]; intros k l a r rt m n Hz Hb Hk Hf; [lia|].
  pose proof (zrep_good _ _ _ _ Hz) as Hgood. pose proof Hz as (Hrk & (Ha & Hl & Hr) & Hg).
  unfold insert_color_loop; fold insert_color_loop.
  unfold HEV_RBTREE_BLACK. change 1 with (colZ Black).
  destruct k as [|[d c p s] k]; cbn [top].
  - cbn [truthy negb Z.eqb]. change (truthy 0) with false. cbn [negb].
    pose proof (proj1 Hg) as Hnd. cbn in Hnd. nodup_sat. cbn [repk addr] in Hrk.
    erewrite ev_set_pcol by lkp. inversion Hb; subst.
    apply (rebalanced_zrep _ _ _ _ [] (T Black l a r) (S n)); try done; [|eauto|outside|domt].
    eapply zrep_intro; [rsolve|rsolve|reflexivity|exact Hgood].
  - assert (p ≠ 0 ∧ aligned p) as [Hp0 Hpal] by (eapply good_nz; [exact Hg|]; clear; set_solver).
    rewrite truthy_ne by done. cbn [negb]. destruct Hrk as (Hp & Hs & Hrk).
    assert (aligned (top k)) as Htk by (eapply good_top; [exact Hg|]; set_solver).
    assert (hev_rbtree_node_is_black p (RBMem rt m) = Val (bool_decide (c = Black)) (RBMem rt m)) as Hib.
    { destruct d; by eapply ev_is_black. }
    ebr Hib. destruct c; cycle 1.
    { eapply rebalanced_zrep; eauto. }
    rewrite bool_decide_eq_false_2 by done.
    inversion Hk as [| |? ? ? ? ? Hbs Hts Hkc Hbk]; subst.
    destruct k as [|[d2 c2 g u] k]; [done|]. cbn in Hkc. subst c2.
    destruct Hrk as (Hlg & Hu & Hrk). cbn [top] in *.
    assert (hev_rbtree_node_red_parent p (RBMem rt m) = Val g (RBMem rt m)) as Hrp.
    { destruct d; by eapply ev_red_parent. }
    ebr Hrp. erewrite bind_val; [|eapply ev_right; exact Hlg].
    assert (p =? right (frame_node d2 (top k) Black p (addr u)) = match d2 with L => false | R => true end) as ->.
    { destruct d2; cbn; [|apply Z.eqb_refl]. apply Z.eqb_neq.
      pose proof (proj1 Hg) as Hnd. cbn in Hnd. nodup_sat.
      destruct (addr_in u) as [->|]; [done|ne]. }
    destruct (tcol u) eqn:Hcu.
    + destruct u as [|cu ul ua ur]; [done|]. cbn in Hcu. subst cu.
      pose proof (insert_flip d d2 (insert_color_loop fuel) k l a r p s g ul ua ur rt m n _ Hz Hb Hk eq_refl) as Hfl.
      destruct d2; cbn [negb right frame_node addr N] in *; apply Hfl; intros; (eapply IH; [done|done|done|cbn in Hf; lia]).
    + pose proof (insert_rotate d d2 (insert_color_loop fuel) k l a r p s g u rt m n _ Hz Hb Hk Hcu eq_refl) as Hfl.
      destruct d2; exact Hfl.
Qed.

(** ** Linking a node and restoring the invariant *)

(** The pointer a search for a place has followed: the hole of the context. *)
Definition hole (k : ctx) : link :=
  match k with
  | [] => LinkRoot
  | Frame L _ p _ :: _ => LinkLeft p
  | Frame R _ p _ :: _ => LinkRight p
  end.

Lemma ev_link rt m k a :
  zrep rt m k E → is_Some (m !! a) → a ∉ kaddrs k → a ≠ 0 → aligned a →
  ∃ rt' m', hev_rbtree_node_link a (top k) (hole k) (RBMem rt m) = Val tt (RBMem rt' m') ∧
    zrep rt' m' k (T Red E a E) ∧ (∀ x, x ∉ a :: kaddrs k → m' !! x = m !! x) ∧ dom m' = dom m.
Proof.
  intros Hz [[pc r l] Ha] Hak Ha0 Hal. destruct Hz as (Hk & _ & Hg). cbn in Hg.
  assert (good_addrs (inorder (T Red E a E) ++ kaddrs k)) as Hg'.
  { destruct Hg. split; cbn; [by apply NoDup_cons|by apply Forall_cons]. }
  unfold hev_rbtree_node_link.
  assert (set_pc a (top k) (RBMem rt m) = Val tt (RBMem rt (<[a := N (top k) Red r l]> m))) as He.
  { unfold set_pc. erewrite bind_val by (unfold get_node; cbn [nodes]; by rewrite Ha).
    unfold N. cbn [colZ]. by rewrite Z.lor_0_r. }
  ebr He. eb ev_set_right. eb ev_set_left.
  destruct k as [|[d c p s] k]; cbn [hole assign].
  - eexists _, _. split; [reflexivity|]. cbn [nodes].
    split; [|split; [outside|domt]].
    split_and!; [rsolve|rsolve|done].
  - cbn in Hak. destruct Hk as (Hp & Hs & Hk). pose proof (proj1 Hg') as Hnd. cbn in Hnd. nodup_sat.
    destruct d; cbn [frame_node hole assign] in *; [erewrite ev_set_left by lkp|erewrite ev_set_right by lkp];
      (eexists _, _; split; [reflexivity|]; cbn [nodes]; split; [|split; [outside|domt]];
       split_and!; [rsolve|rsolve|done]).
Qed.

(** [hev_rbtree_node_link] at the hole of a red-black tree followed by
    [hev_rbtree_insert_color] is an insertion at that place. *)
Lemma link_insert_spec rt m k a n :
  zrep rt m k E → rb n (plug k E) → tcol (plug k E) = Black →
  is_Some (m !! a) → a ∉ kaddrs k → a ≠ 0 → aligned a →
  rebalanced m (left_of k ++ a :: right_of k)
    ((hev_rbtree_node_link a (top k) (hole k);; hev_rbtree_insert_color a) (RBMem rt m)).
Proof.
  intros Hz Hb Hc Hm Hak Ha0 Hal.
  destruct (unplug_rb k E n Hb Hc) as (n' & Hn' & Hbk & _). inversion Hn'; subst n'.
  destruct (ev_link rt m k a) as (rt2 & m2 & He & Hz2 & Hf2 & Hd2); try done.
  ebr He. unfold hev_rbtree_insert_color.
  pose proof Hz2 as (_ & (Hla & _) & Hg).
  erewrite bind_val; [|by eapply ev_red_parent]. unfold fuel_of. cbn [gets nodes].
  erewrite bind_val; [|reflexivity].
  eapply rebalanced_mono; [eapply (insert_color_loop_spec _ k E a E); eauto| |done|].
  - cbn [nodes]. assert (length (a :: kaddrs k) ≤ size m2)%nat.
    { apply nodup_dom_size; [apply Hg|]. intros x Hx. eapply zrep_kaddrs_dom; [exact Hz2|]. exact Hx. }
    pose proof (kaddrs_length k). cbn in *. lia.
  - intros x Hx. rewrite kaddrs_perm in Hx. by apply Hf2.
  - by rewrite inorder_plug.
Qed.
