(* ===== verification/RBErase.v ===== *)
(** * RBErase: correctness of removal from the red-black tree *)
From S2P Require Import Prelude HevRBTree RBRep.

Lemma ev_when_parent rt m par par' t :
  rep m par t → aligned par → good_addrs (inorder t) →
  ∃ m', when (truthy (addr t)) (hev_rbtree_node_set_parent (addr t) par')
      (RBMem rt m) = Val tt (RBMem rt m') ∧
    rep m' par' t ∧ (∀ x, x ∉ inorder t → m' !! x = m !! x) ∧ dom m' = dom m.
Proof.
  intros Hr Hal Hg. destruct t as [|c l a r]; [by exists m|].
  destruct (good_nz _ a Hg) as [Ha _]; [set_solver|].
  pose proof (proj1 Hg) as Hnd. cbn in Hnd. nodup_sat. destruct Hr as (Hla & Hl & Hr).
  cbn [addr]. rewrite truthy_ne by done. eexists. split; [by eapply ev_set_parent|].
  split_and!.
  - rsolve.
  - intros x Hx. cbn in Hx. nodup_sat. chase.
  - apply elem_of_dom_2 in Hla. set_solver.
Qed.

Lemma bind_ret_r {S} (m : M S unit) s : (m ≫= λ _, mret tt) s = m s.
Proof. unfold mbind, M_bind. by destruct (m s) as [[]| |]. Qed.

(** The frame of the deleted black node can hold any black subtrees one level
    higher. *)
Lemma rbk_parent n d c p s k l a r :
  rbk n (Frame d c p s :: k) → rb n l → rb n r → tcol l = Black → tcol r = Black →
  ∃ n', rb n' (T c l a r) ∧ rbk n' k ∧ (c = Red → kcol k = Black).
Proof.
  intros Hk Hl Hr Hcl Hcr. inversion Hk; subst.
  - exists (S n). split_and!; [by constructor|done|done].
  - exists n. split_and!; [by constructor|done|done].
Qed.

(** Case 4: the rotation at [p], whose sibling [b] has the outer child [x]. *)
Lemma erase_case4 d k c t p s b cx y x z s0 rt m n xs pp px cb h h' :
  m !! p = Some (frame_node d (top k) c h' h) → rep m p t → h' = addr t →
  m !! b = Some (frame_node d pp cb (addr s) x) → rep m b s → aligned b →
  m !! x = Some (N px cx (addr z) (addr y)) → rep m x y → rep m x z → repk rt m k p →
  xs = inorder (plug k (node_on d c t p (node_on d Black s b (T Black y x z)))) → good_addrs xs →
  rbk (S n) (Frame d c p s0 :: k) →
  rb n t → rb n s → rb n y → rb n z →
  rebalanced m xs
    (match d with
     | L => erase_color_left_case4 p b x
     | R => erase_color_right_case4 p b x
     end (RBMem rt m)).
Proof.
  intros Hp Ht -> Hb Hs Hba Hx Hy Hz Hk -> Hgood Hbk Hbt Hbs Hby Hbz.
  assert (good_addrs (inorder t ++ p :: inorder s ++ b :: inorder y ++ x :: inorder z ++ kaddrs k)) as Hgd.
  { eapply good_perm, Hgood. rewrite kaddrs_perm. destruct d; cbn; rewrite <- ?app_assoc; cbn; solve_Permutation. }
  assert (aligned (top k)) as Htk by (eapply good_top; [exact Hgd|]; set_solver).
  assert (p ≠ 0 ∧ aligned p) as [Hp0 Hpal] by (eapply good_nz; [exact Hgd|]; set_solver).
  pose proof (proj1 Hgd) as Hnd. nodup_sat.
  assert (good_addrs (inorder s)) as Hgs by (eapply good_incl; [exact Hgd|done|clear; set_solver]).
  assert (good_addrs (kaddrs k)) as Hgk by (eapply good_incl; [exact Hgd|done|clear; set_solver]).
  unfold erase_color_left_case4, erase_color_right_case4, HEV_RBTREE_BLACK. change 1 with (colZ Black).
  destruct d; cbn [frame_node] in *;
    (first [eb ev_left; cbn [left N]; eb ev_set_right; eb ev_set_left
           | eb ev_right; cbn [right N]; eb ev_set_left; eb ev_set_right];
     eb ev_set_pcol;
     with_mem ltac:(fun rt m => edestruct (ev_when_parent rt m b p s) as (m1 & He & Hs1 & Hf1 & Hd1));
       [rsolve|done|done|ebr He];
     edestruct (ev_rotate_set_parents rt m1 k p b Black) as (rt2 & m2 & -> & Hk2 & Hf2 & Hd2);
       [lkp|lkp|ne|ne|ne|done|rsolve|done|]).
  - destruct (rbk_parent _ _ _ _ _ _ (T Black t p s) b (T Black y x z) Hbk) as (n' & ? & ? & ?); eauto.
    apply (rebalanced_zrep _ _ _ _ k (T c (T Black t p s) b (T Black y x z)) n'); try done; [|inord|outside|domt].
    eapply zrep_intro; [rsolve|rsolve|reflexivity|eapply good_eq; [exact Hgood|inord]].
  - destruct (rbk_parent _ _ _ _ _ _ (T Black y x z) b (T Black s p t) Hbk) as (n' & ? & ? & ?); eauto.
    apply (rebalanced_zrep _ _ _ _ k (T c (T Black y x z) b (T Black s p t)) n'); try done; [|inord|outside|domt].
    eapply zrep_intro; [rsolve|rsolve|reflexivity|eapply good_eq; [exact Hgood|inord]].
Qed.

Lemma erase_black_spec d c p si sa so k t again rt m n :
  let k1 := Frame d c p (node_on d Black si sa so) :: k in
  zrep rt m k1 t → rb n t → tcol t = Black → rbk (S n) k1 →
  (c = Black → k ≠ [] → ∀ rt' m' t', zrep rt' m' k t' → rb (S n) t' → tcol t' = Black →
     addr t' = p → rebalanced m' (inorder (plug k t')) (again p (top k) (RBMem rt' m'))) →
  rebalanced m (inorder (plug k1 t))
    (match d with
     | L => erase_color_left_black again p sa
     | R => erase_color_right_black again p sa
     end (RBMem rt m)).
Proof.
  intros k1 Hz Hb Hc Hbk Hag.
  pose proof (zrep_good _ _ _ _ Hz) as Hgood.
  destruct Hz as ((Hp & Hsib & Hk) & Ht & Hg).
  assert (rb n si ∧ rb n so) as [Hbi Hbo].
  { inversion Hbk as [|? ? ? ? ? Hs|? ? ? ? ? Hs]; subst; destruct d; inversion Hs; done. }
  assert (p ≠ 0 ∧ aligned p) as [Hp0 Hpal] by (eapply good_nz; [exact Hg|]; destruct d; set_solver).
  assert (sa ≠ 0 ∧ aligned sa) as [Hsa0 Hsal] by (eapply good_nz; [exact Hg|]; destruct d; set_solver).
  assert (aligned (top k)) as Htk by (eapply good_top; [exact Hg|]; destruct d; set_solver).
  assert (so ≠ E → addr so ≠ 0) as Ho0 by (apply (addr_nz _ _ Hg); destruct d; set_solver).
  assert (si ≠ E → addr si ≠ 0) as Hi0 by (apply (addr_nz _ _ Hg); destruct d; set_solver).
  assert (good_addrs (inorder t ++ p :: inorder si ++ sa :: inorder so ++ kaddrs k)) as Hgd.
  { eapply good_perm, Hg. destruct d; cbn; rewrite <- ?app_assoc; cbn; solve_Permutation. }
  assert (m !! sa = Some (frame_node d p Black (addr si) (addr so)) ∧ rep m sa si ∧ rep m sa so)
    as (Hsa & Hi & Ho) by (by destruct d; destruct Hsib as (? & ? & ?)).
  clear Hsib. pose proof (proj1 Hgd) as Hnd. nodup_sat.
  unfold erase_color_left_black, erase_color_right_black, HEV_RBTREE_BLACK, HEV_RBTREE_RED.
  change 1 with (colZ Black). change 0 with (colZ Red).
  assert (null_or_is_black (addr so) (RBMem rt m) = Val (bool_decide (tcol so = Black)) (RBMem rt m)) as He
    by (by eapply ev_null_or_black).
  destruct (tcol so) eqn:Hcso.
  - (* Case 4 *)
    destruct so as [|cs y x z]; [done|]. cbn in Hcso. subst cs. cbn [addr] in *.
    cbn in Ho. destruct Ho as (Hx & Hy & Hz').
    assert (good_addrs (inorder (plug k (node_on d c t p (node_on d Black si sa (T Black y x z)))))) as Hgood'.
    { eapply good_eq; [exact Hgood|]. destruct d; unfold k1; inord. }
    inversion Hbo; subst.
    destruct d; cbn [frame_node] in *; first [eb ev_right | eb ev_left]; cbn [left right N]; ebr He;
      rewrite bool_decide_eq_false_2 by done; rewrite bind_ret; cbn beta iota.
    + eapply (erase_case4 L k c t p si sa Red y x z); try done; unfold k1; inord.
    + eapply (erase_case4 R k c t p si sa Red y x z); try done; unfold k1; inord.
  - destruct (tcol si) eqn:Hcsi.
    + (* Cases 3 and 4 *)
      destruct si as [|cs u b v]; [done|]. cbn in Hcsi. subst cs. cbn [addr] in *.
      assert (aligned b) as Hba by (eapply good_nz; [exact Hgd|clear; set_solver]).
      cbn in Hi. destruct Hi as (Hb' & Hu & Hv). cbn [inorder] in *; nodup_sat. inversion Hbi; subst.
      assert (null_or_is_black b (RBMem rt m) = Val (bool_decide (Red = Black)) (RBMem rt m)) as He2
        by (by eapply (ev_null_or_black _ _ sa (T Red u b v))).
      destruct d; cbn [frame_node] in *;
        first [eb ev_right | eb ev_left]; cbn [left right N]; ebr He;
        rewrite bool_decide_eq_true_2 by done; cbv iota; rewrite bind_assoc;
        first [eb ev_left | eb ev_right]; cbn [left right N];
        rewrite bind_assoc; ebr He2; rewrite bool_decide_eq_false_2 by done; cbv iota; rewrite bind_assoc.
      * eb ev_right. cbn [right N]. rewrite bind_assoc. eb ev_set_left. rewrite bind_assoc. eb ev_set_right.
        rewrite bind_assoc. eb ev_set_right. rewrite bind_assoc.
        with_mem ltac:(fun rt m => edestruct (ev_when_pcol rt m b sa v) as (m1 & He' & Hv1 & Hf1 & Hd1));
          [rsolve|eapply good_incl; [exact Hgd|done|clear; set_solver]|done|ebr He'].
        rewrite bind_ret.
        eapply rebalanced_mono; [eapply (erase_case4 L k c t p u b Black v sa so); try done|..].
        all: first [lkp|rsolve; fail|outside|domt|subst k1; inord|eauto; fail|idtac].
        all: eapply good_eq; [exact Hgood|subst k1; inord].
      * eb ev_left. cbn [left N]. rewrite bind_assoc. eb ev_set_right. rewrite bind_assoc. eb ev_set_left.
        rewrite bind_assoc. eb ev_set_left. rewrite bind_assoc.
        with_mem ltac:(fun rt m => edestruct (ev_when_pcol rt m b sa u) as (m1 & He' & Hv1 & Hf1 & Hd1));
          [rsolve|eapply good_incl; [exact Hgd|done|clear; set_solver]|done|ebr He'].
        rewrite bind_ret.
        eapply rebalanced_mono; [eapply (erase_case4 R k c t p v b Black so sa u); try done|..].
        all: first [lkp|rsolve; fail|outside|domt|subst k1; inord|eauto; fail|idtac].
        all: eapply good_eq; [exact Hgood|subst k1; inord].
    + (* Case 2 *)
      assert (null_or_is_black (addr si) (RBMem rt m) = Val true (RBMem rt m)) as He2.
      { erewrite ev_null_or_black by done. by rewrite Hcsi. }
      set (t' := node_on d Black t p (node_on d Red si sa so)).
      assert (rb (S n) t' ∧ tcol t' = Black) as [Hb' Hct'] by (unfold t'; destruct d; cbn; eauto).
      assert (inorder (plug k t') = inorder (plug k1 t)) as Hin by (unfold t', k1; destruct d; inord).
      assert (k ≠ [] → top k ≠ 0) as Htk0.
      { destruct k as [|[]]; [done|]. intros _. cbn. eapply good_nz; [exact Hg|]. clear; destruct d; set_solver. }
      destruct d; cbn [frame_node] in *;
        first [eb ev_right | eb ev_left]; cbn [left right N]; ebr He;
        rewrite bool_decide_eq_true_2 by done; cbv iota; rewrite bind_assoc;
        first [eb ev_left | eb ev_right]; cbn [left right N];
        rewrite bind_assoc; ebr He2; cbv iota; rewrite !bind_assoc; eb ev_set_pcol; rewrite bind_assoc; eb ev_is_red;
        rewrite bind_assoc;
        match goal with |- rebalanced _ _ ((?X ≫= _) ?s) =>
          change (rebalanced m (inorder (plug k1 t)) ((X ≫= λ _, mret tt) s)) end;
        rewrite bind_ret_r;
        (destruct c; [rewrite bool_decide_eq_true_2 by done|rewrite bool_decide_eq_false_2 by done]); cbv iota.
      1,3: erewrite ev_set_black by lkp; inversion Hbk; subst;
        apply (rebalanced_zrep _ _ _ _ k t' (S n)); [|done|done|by rewrite Hct'|done|outside|domt];
        (eapply zrep_intro; [unfold t'; rsolve|unfold t'; rsolve|exact Hin|exact Hgood]).
      all: eb ev_parent; inversion Hbk; subst; destruct k as [|f k];
        [ apply (rebalanced_zrep _ _ _ _ [] t' (S n)); [|done|done|by rewrite Hct'|done|outside|domt]
        | rewrite truthy_ne by (by apply Htk0);
          eapply rebalanced_mono; [apply (Hag eq_refl) with (t' := t')|outside|domt|done]; try done ];
        (eapply zrep_intro; [unfold t'; rsolve|unfold t'; rsolve|exact Hin|exact Hgood]).
Qed.

Ltac rotate H rt2 m2 k p sa c :=
  lazymatch goal with |- context [(_ ≫= _) (RBMem ?rt ?m)] =>
    let Hk := fresh "Hk" in let Hf := fresh "Hf" in let Hd := fresh "Hd" in
    edestruct (ev_rotate_set_parents rt m k p sa c) as (rt2 & m2 & H & Hk & Hf & Hd);
    [lkp|lkp|ne|ne|ne|done|rsolve|done|]
  end.

(** Case 1: a red sibling [sa] becomes the parent of [p]. *)
Lemma erase_case1 d p ii ia io sa so k t again rt m n :
  let k1 := Frame d Black p (node_on d Red (node_on d Black ii ia io) sa so) :: k in
  zrep rt m k1 t → rb n t → tcol t = Black → rbk (S n) k1 →
  rebalanced m (inorder (plug k1 t))
    (match d with
     | L => erase_color_left again p sa
     | R => erase_color_right again p
     end (RBMem rt m)).
Proof.
  intros k1 Hz Hb Hc Hbk.
  pose proof (zrep_good _ _ _ _ Hz) as Hgood.
  destruct Hz as ((Hp & Hsib & Hk) & Ht & Hg).
  assert (p ≠ 0 ∧ aligned p) as [Hp0 Hpal] by (eapply good_nz; [exact Hg|]; clear; destruct d; set_solver).
  assert (aligned (top k)) as Htk by (eapply good_top; [exact Hg|]; clear; destruct d; set_solver).
  assert (good_addrs (inorder t ++ p :: (inorder ii ++ ia :: inorder io) ++ sa :: inorder so ++ kaddrs k)) as Hgd.
  { eapply good_perm, Hg. destruct d; cbn; rewrite <- ?app_assoc; cbn; solve_Permutation. }
  assert (m !! sa = Some (frame_node d p Red ia (addr so)) ∧ rep m sa so ∧
      m !! ia = Some (frame_node d sa Black (addr ii) (addr io)) ∧ rep m ia ii ∧ rep m ia io)
    as (Hsa & Ho & Hia & Hii & Hio)
    by (destruct d; destruct Hsib as (? & ? & ?); cbn in *; naive_solver).
  clear Hsib. pose proof (proj1 Hgd) as Hnd. nodup_sat.
  assert (good_addrs (kaddrs k)) as Hgk by (eapply good_incl; [exact Hgd|done|clear; set_solver]).
  set (k2 := Frame d Red p (node_on d Black ii ia io) :: Frame d Black sa so :: k).
  assert (rbk (S n) k2) as Hbk2.
  { inversion Hbk as [|? ? ? ? ? Hs Hk'|]; subst.
    assert (rb (S n) (node_on d Black ii ia io) ∧ rb (S n) so) as [? ?]
      by (destruct d; cbn in Hs; inversion Hs; done).
    constructor; [done|by destruct d|done|by constructor]. }
  assert (inorder (plug k2 t) = inorder (plug k1 t)) as Hin by (unfold k1, k2; destruct d; inord).
  assert (∃ rt' m', zrep rt' m' k2 t ∧ (∀ x, x ∉ inorder (plug k2 t) → m' !! x = m !! x) ∧
    dom m' = dom m ∧
    match d with
    | L => erase_color_left again p sa
    | R => erase_color_right again p
    end (RBMem rt m) =
    match d with
    | L => erase_color_left_black again p ia
    | R => erase_color_right_black again p ia
    end (RBMem rt' m')) as (rt' & m' & Hz2 & Hf & Hd & He).
  { unfold erase_color_left, erase_color_right, HEV_RBTREE_BLACK, HEV_RBTREE_RED.
    change 1 with (colZ Black). change 0 with (colZ Red).
    destruct d; cbn [frame_node] in *; [idtac|eb ev_left; cbn [left N node_on addr]];
      (erewrite bind_val; [|eapply ev_is_red; lkp || done]);
      rewrite bool_decide_eq_true_2 by done; cbv iota; rewrite bind_assoc.
    - eb ev_left; cbn [left N]; rewrite bind_assoc; eb ev_set_right; rewrite bind_assoc; eb ev_set_left.
      rewrite bind_assoc. eb ev_set_pcol. rewrite bind_assoc. rotate He rt2 m2 k p sa Red.
      ebr He. rewrite bind_ret. exists rt2, m2; split; [|split; [outside|split; [domt|reflexivity]]].
      eapply zrep_intro; [unfold k2; rsolve|rsolve|exact Hin|exact Hgood].
    - eb ev_right; cbn [right N]; rewrite bind_assoc; eb ev_set_left; rewrite bind_assoc; eb ev_set_right.
      rewrite bind_assoc. eb ev_set_pcol. rewrite bind_assoc. rotate He rt2 m2 k p sa Red.
      ebr He. rewrite bind_ret. exists rt2, m2; split; [|split; [outside|split; [domt|reflexivity]]].
      eapply zrep_intro; [unfold k2; rsolve|rsolve|exact Hin|exact Hgood]. }
  rewrite He. eapply rebalanced_mono; [|exact Hf|exact Hd|exact Hin].
  apply (erase_black_spec d Red p ii ia io _ t again rt' m' n); done.
Qed.

Lemma erase_color_loop_spec fuel k t rt m n :
  zrep rt m k t → rb n t → tcol t = Black → rbk (S n) k → k ≠ [] → (length k ≤ fuel)%nat →
  rebalanced m (inorder (plug k t)) (erase_color_loop fuel (addr t) (top k) (RBMem rt m)).
Proof.
  revert k t rt m n. induction fuel as [|fuel IH]; intros k t rt m n Hz Hb Hc Hbk Hne Hf.
  { destruct k; cbn in Hf; [done|lia]. }
  destruct k as [|[d c p s] k]; [done|]. cbn [top]. unfold erase_color_loop; fold erase_color_loop.
  pose proof Hz as ((Hp & Hs & Hk) & Ht & Hg).
  assert (∃ cs si sa so, s = node_on d cs si sa so) as (cs & si & sa & so & ->).
  { inversion Hbk as [|? ? ? ? ? Hbs|? ? ? ? ? Hbs]; subst; inversion Hbs; subst;
      destruct d; cbn; eauto. }
  assert (addr (node_on d cs si sa so) = sa) as Has by (by destruct d).
  assert (addr t ≠ sa) as Hts.
  { assert (sa ∈ kaddrs (Frame d c p (node_on d cs si sa so) :: k)) as Hin
      by (clear; destruct d; set_solver).
    destruct (addr_in t) as [->|Hti].
    - intros <-. eapply good_nz in Hg as [? _]; [done|]. set_solver.
    - intros Heq. rewrite Heq in Hti. destruct Hg as [Hnd _].
      apply NoDup_app_disj in Hnd as (_ & Hd & _). by eapply Hd. }
  erewrite bind_val by (by eapply ev_right).
  assert (rebalanced m (inorder (plug (Frame d c p (node_on d cs si sa so) :: k) t))
    (match d with
     | L => erase_color_left (erase_color_loop fuel) p sa
     | R => erase_color_right (erase_color_loop fuel) p
     end (RBMem rt m))) as Hgoal.
  2: { destruct d; cbn [frame_node right N addr node_on].
       - by rewrite (proj2 (Z.eqb_neq _ _) Hts).
       - by rewrite Z.eqb_refl. }
  destruct cs.
  - assert (c = Black ∧ ∃ ii ia io, si = node_on d Black ii ia io) as (-> & ii & ia & io & ->).
    { inversion Hbk as [|? ? ? ? ? Hbs|? ? ? ? ? Hbs]; subst; [|by destruct d].
      split; [done|]. destruct d; inversion Hbs as [|? ? ? ? Hl Hr Hcl Hcr|]; subst;
        [inversion Hl|inversion Hr]; subst; cbn in Hcl, Hcr; first [congruence | by eexists _, _, _]. }
    by apply (erase_case1 d p ii ia io sa so k t _ rt m n).
  - assert (p ≠ 0 ∧ aligned p) as [_ Hpal] by (eapply good_nz; [exact Hg|]; clear; destruct d; set_solver).
    pose proof (erase_black_spec d c p si sa so k t (erase_color_loop fuel) rt m n Hz Hb Hc Hbk) as Hrest.
    assert (hev_rbtree_node_is_red sa (RBMem rt m) = Val false (RBMem rt m)) as Her.
    { destruct d; destruct Hs as (? & _); by eapply (ev_is_red _ _ _ _ Black). }
    assert (get_left p (RBMem rt m) = Val (match d with L => addr t | R => sa end) (RBMem rt m)) as Hl.
    { erewrite ev_left by done. by destruct d. }
    destruct d; unfold erase_color_left, erase_color_right; [|ebr Hl]; ebr Her; cbv iota; rewrite bind_ret;
      (apply Hrest; intros ? ? rt' m' t' ? ? ? <-; eapply (IH k t' rt' m' (S n)); try done;
       [inversion Hbk; subst; done|cbn in Hf; lia]).
Qed.

(** ** Removing a node *)

Lemma ev_set_pc_N rt m p par c par' c' r l : m !! p = Some (N par' c' r l) →
  set_pc p (parent_color (N par c r l)) (RBMem rt m) = Val tt (RBMem rt (<[p := N par c r l]> m)).
Proof. apply ev_set_pc. Qed.

Lemma pc_is_black p c :
  aligned p → _hev_rbtree_node_is_black (Z.lor p (colZ c)) = bool_decide (c = Black).
Proof.
  intros H. unfold _hev_rbtree_node_is_black, HEV_RBTREE_BLACK. rewrite pc_color by done. by destruct c.
Qed.

(** The rebalancing after the removal of a black leaf. *)
Lemma erase_finish rt m k :
  zrep rt m k E → rbk 1 k →
  rebalanced m (inorder (plug k E))
    (when (truthy (top k)) (_hev_rbtree_erase_color (top k)) (RBMem rt m)).
Proof.
  intros Hz Hbk. destruct (decide (k = [])) as [->|Hne].
  - eapply (rebalanced_zrep _ _ _ _ [] E 0); eauto.
  - pose proof Hz as (_ & _ & Hg). assert (top k ≠ 0) as Hk0.
    { destruct k as [|[]]; [done|]. cbn. eapply good_nz; [exact Hg|]. clear; set_solver. }
    rewrite truthy_ne by done. cbn [when]. unfold _hev_rbtree_erase_color, fuel_of.
    erewrite bind_val by reflexivity. cbn [nodes].
    eapply (erase_color_loop_spec _ k E rt m 0); try done.
    etransitivity; [apply kaddrs_length|]. apply nodup_dom_size; [apply Hg|].
    intros x Hx. eapply zrep_kaddrs_dom; [exact Hz|]. exact Hx.
Qed.

(** A node without children is replaced by nothing: the place of a removed
    black leaf needs rebalancing, that of a red one does not. *)
Lemma erase_leaf rt m k c :
  zrep rt m k E → rbk (match c with Red => 0 | Black => 1 end) k →
  rebalanced m (inorder (plug k E))
    (when (truthy (if bool_decide (c = Black) then top k else 0))
       (_hev_rbtree_erase_color (if bool_decide (c = Black) then top k else 0)) (RBMem rt m)).
Proof.
  intros Hz Hbk. destruct c; cbn.
  - eapply (rebalanced_zrep _ _ _ _ k E 0); eauto; done.
  - by apply erase_finish.
Qed.

Lemma rb0_inv t : rb 0 t → t = E ∨ ∃ x, t = T Red E x E.
Proof.
  intros Hb. destruct t as [|[] l a r]; [by left|right|by inversion Hb].
  inversion Hb as [|? ? ? ? Hl Hr Hcl Hcr|]; subst. exists a. f_equal.
  - destruct l as [|[]]; [done|done|by inversion Hl].
  - destruct r as [|[]]; [done|done|by inversion Hr].
Qed.

(** A node with one child is black and its child is a red leaf. *)
Lemma only_left n c l a : rb n (T c l a E) → l ≠ E → c = Black ∧ n = 1%nat ∧ ∃ x, l = T Red E x E.
Proof.
  intros Hb Hl. inversion Hb as [|? ? ? ? Hbl Hbr Hcl|? ? ? ? Hbl Hbr]; subst; inversion Hbr; subst;
    (destruct (rb0_inv _ Hbl) as [->|[x ->]]; [done|]); [done|]. split_and!; eauto.
Qed.
Lemma only_right n c a r : rb n (T c E a r) → r ≠ E → c = Black ∧ n = 1%nat ∧ ∃ x, r = T Red E x E.
Proof.
  intros Hb Hr. inversion Hb as [|? ? ? ? Hbl Hbr Hcl Hcr|? ? ? ? Hbl Hbr]; subst; inversion Hbl; subst;
    (destruct (rb0_inv _ Hbr) as [->|[x ->]]; [done|]); [done|]. split_and!; eauto.
Qed.

(** Case 1, with no child on the left or none on the right. *)
Lemma erase_case_one rt m k c l a r n :
  zrep rt m k (T c l a r) → rb n (T c l a r) → rbk n k → (c = Red → kcol k = Black) → l = E ∨ r = E →
  rebalanced m (inorder (plug k (if decide (l = E) then r else l))) (hev_rbtree_erase a (RBMem rt m)).
Proof.
  intros Hz Hb Hbk Hck Hlr.
  pose proof (zrep_good _ _ _ _ Hz) as Hgood.
  destruct Hz as (Hk & (Ha & Hl & Hr) & Hg). cbn [addr] in *.
  assert (a ≠ 0) as Ha0 by (eapply good_nz; [exact Hg|]; clear; set_solver).
  assert (aligned (top k)) as Htk by (eapply good_top; [exact Hg|]; set_solver).
  assert (l ≠ E → addr l ≠ 0) as Hl0 by (apply (addr_nz _ _ Hg); clear; set_solver).
  assert (r ≠ E → addr r ≠ 0) as Hr0 by (apply (addr_nz _ _ Hg); clear; set_solver).
  pose proof (proj1 Hg) as Hnd. cbn [inorder] in Hnd. nodup_sat.
  assert (good_addrs (kaddrs k)) as Hgk by (eapply good_incl; [exact Hg|done|clear; set_solver]).
  unfold hev_rbtree_erase, _hev_rbtree_erase. rewrite bind_assoc.
  eb ev_right. rewrite bind_assoc. eb ev_left. cbn [left right N].
  case_decide as Hle; [subst l|].
  - cbn [addr]. change (truthy 0) with false. cbn [negb]. rewrite bind_assoc. eb ev_pc. cbn [parent_color N].
    unfold _hev_rbtree_node_parent. rewrite pc_parent by done. rewrite bind_assoc.
    destruct (ev_change_child rt m k a (addr r)) as (rt1 & m1 & He & Hk1 & Hf1 & Hd1); try done. ebr He.
    destruct r as [|cr rl ra rr].
    + cbn [addr]. change (truthy 0) with false. cbv iota. rewrite bind_ret.
      rewrite pc_is_black by done.
      eapply rebalanced_mono; [apply erase_leaf|outside|done|done].
      * split_and!; [done|done|]. eapply good_incl; [exact Hg|done|clear; set_solver].
      * inversion Hb as [|? ? ? ? Hbl|? ? ? ? Hbl]; inversion Hbl; subst; done.
    + destruct (only_right _ _ _ _ Hb) as (-> & -> & x & [= -> -> -> ->]); [done|].
      rewrite truthy_ne by (by apply Hr0). cbn in Hr. destruct Hr as (Hx & _). cbn [inorder app] in *. nodup_sat.
      rewrite bind_assoc. cbn [addr]. erewrite bind_val by (eapply ev_set_pc; lkp). rewrite bind_ret.
      change (truthy 0) with false. cbn [when].
      apply (rebalanced_zrep _ _ _ _ k (T Black E x E) 1); [|eauto|done|done|inord|outside|domt].
      eapply zrep_intro; [rsolve|rsolve|reflexivity|]. eapply good_perm; [symmetry; apply kaddrs_perm|].
      eapply good_incl; [exact Hg|cbn; nodup|cbn; set_solver].
  - destruct Hlr as [?| ->]; [done|].
    rewrite truthy_ne by (by apply Hl0). cbn [negb addr]. change (truthy 0) with false. cbn [negb].
    rewrite bind_assoc. eb ev_pc. cbn [parent_color N].
    unfold _hev_rbtree_node_parent. rewrite pc_parent by done. rewrite bind_assoc.
    destruct (only_left _ _ _ _ Hb) as (-> & -> & x & ->); [done|]. cbn [addr].
    cbn in Hl. destruct Hl as (Hx & _). cbn [inorder app] in *. nodup_sat.
    erewrite bind_val by (eapply ev_set_pc; lkp). rewrite bind_assoc.
    match goal with |- context [(_ ≫= _) (RBMem _ ?m0)] =>
      destruct (ev_change_child rt m0 k a x) as (rt1 & m1 & He & Hk1 & Hf1 & Hd1); [rsolve|done|done|done|] end.
    ebr He. rewrite bind_ret. change (truthy 0) with false. cbn [when].
    apply (rebalanced_zrep _ _ _ _ k (T Black E x E) 1); [|eauto|done|done|inord|outside|domt].
    eapply zrep_intro; [rsolve|rsolve|reflexivity|]. eapply good_perm; [symmetry; apply kaddrs_perm|].
    eapply good_incl; [exact Hg|cbn; nodup|cbn; set_solver].
Qed.

(** ** Removing a node with two children *)

(** A segment of a context: its frames are linked to each other, the outermost
    one has the parent [par] and is pointed to as [sroot ks h]. *)
Definition stop (par : Z) (ks : ctx) : Z := match ks with [] => par | Frame _ _ a _ :: _ => a end.
Fixpoint sroot (ks : ctx) (h : Z) : Z := match ks with [] => h | Frame _ _ a _ :: k => sroot k a end.
Fixpoint seg (m : gmap Z HevRBTreeNode) (par : Z) (ks : ctx) (h : Z) : Prop :=
  match ks with
  | [] => True
  | Frame d c a s :: k =>
      m !! a = Some (frame_node d (stop par k) c h (addr s)) ∧ rep m a s ∧ seg m par k a
  end.

Lemma seg_frame m m' par k h :
  (∀ x, x ∈ kaddrs k → m' !! x = m !! x) → seg m par k h → seg m' par k h.
Proof.
  revert h. induction k as [|[d c a s] k IH]; intros h Hm; [done|].
  simpl in *. intros (Ha & Hs & Hk). split_and!.
  - rewrite Hm; [done|set_solver].
  - eapply rep_frame, Hs. intros x Hx. apply Hm. set_solver.
  - apply IH; [|done]. intros x Hx. apply Hm. set_solver.
Qed.

Lemma top_app ks k : top (ks ++ k) = stop (top k) ks.
Proof. by destruct ks as [|[]]. Qed.

Lemma repk_app rt m ks k h :
  repk rt m (ks ++ k) h ↔ seg m (top k) ks h ∧ repk rt m k (sroot ks h).
Proof.
  revert h. induction ks as [|[d c a s] ks IH]; intros h; cbn; [tauto|].
  rewrite top_app, IH. tauto.
Qed.

Lemma kaddrs_app ks k : kaddrs (ks ++ k) = kaddrs ks ++ kaddrs k.
Proof. induction ks as [|[] ks IH]; cbn; [done|]. by rewrite IH, <- app_assoc. Qed.

Lemma plug_app ks k t : plug (ks ++ k) t = plug k (plug ks t).
Proof. revert t. induction ks as [|[] ks IH]; intros t; cbn; auto. Qed.

Lemma addr_plug ks t : addr (plug ks t) = sroot ks (addr t).
Proof. revert t. induction ks as [|[[]] ks IH]; intros t; cbn; [done|by rewrite IH..]. Qed.

Lemma rep_dom m par t x : rep m par t → x ∈ inorder t → x ∈ dom m.
Proof.
  revert par. induction t as [|c l IHl a r IHr]; intros par; [set_solver|].
  intros (Ha & Hl & Hr) Hx. cbn in Hx. apply elem_of_dom_2 in Ha. set_solver.
Qed.

(** The walk to the leftmost node of a subtree. *)
Lemma erase_descend_spec rt m t par y fuel :
  rep m par t → t ≠ E → (length (inorder t) ≤ fuel)%nat → (∀ x, x ∈ inorder t → x ≠ 0) →
  ∃ ks cs su sr, t = plug ks (T cs E su sr) ∧ left_of ks = [] ∧
    erase_descend fuel y (addr t) (RBMem rt m) = Val (stop y ks, su) (RBMem rt m).
Proof.
  revert par y fuel. induction t as [|c l IHl a r _]; intros par y fuel Hr Hne Hf Hnz; [done|].
  destruct Hr as (Ha & Hl & Hr). cbn in Hf. rewrite length_app in Hf. cbn in Hf.
  destruct fuel as [|fuel]; [lia|]. cbn [erase_descend addr].
  erewrite bind_val by (by eapply ev_left). cbn [left N].
  destruct (decide (l = E)) as [->|Hle].
  - exists [], c, a, r. done.
  - rewrite truthy_ne.
    2: { destruct (addr_in l) as [Hz|]; [|apply Hnz; cbn; set_solver].
         destruct l; [done|]. exfalso. eapply (Hnz (addr (T c0 l1 a0 l2))); [cbn; set_solver|done]. }
    destruct (IHl a a fuel Hl Hle) as (ks & cs & su & sr & -> & Hlk & He); [lia|set_solver|].
    exists (ks ++ [Frame L c a r]), cs, su, sr. split_and!.
    + by rewrite plug_app.
    + unfold left_of. rewrite foldr_app. exact Hlk.
    + rewrite He. by destruct ks as [|[]].
Qed.

Lemma rep_plug m par ks t :
  rep m par (plug ks t) ↔ rep m (stop par ks) t ∧ seg m par ks (addr t).
Proof.
  revert t. induction ks as [|[[] c a s] ks IH]; intros t; cbn; [tauto|..];
    rewrite IH; cbn; tauto.
Qed.

Lemma stop_app par ks ks' : stop par (ks ++ ks') = stop (stop par ks') ks.
Proof. by destruct ks as [|[]]. Qed.
Lemma sroot_app ks ks' h : sroot (ks ++ ks') h = sroot ks' (sroot ks h).
Proof. revert h. induction ks as [|[] ks IH]; intros h; cbn; auto. Qed.

Lemma seg_snoc m par ks d c a s h :
  seg m par (ks ++ [Frame d c a s]) h ↔
    seg m a ks h ∧ m !! a = Some (frame_node d par c (sroot ks h) (addr s)) ∧ rep m a s.
Proof.
  revert h. induction ks as [|[d' c' a' s'] ks IH]; intros h; cbn; [tauto|].
  rewrite stop_app, IH. cbn. tauto.
Qed.

(** Changing the hole of a segment that was followed to the left. *)
Lemma seg_set_hole rt m par c p s ks h h' :
  let K := Frame L c p s :: ks in
  seg m par K h → NoDup (kaddrs K) →
  set_left p h' (RBMem rt m) = Val tt (RBMem rt (<[p := N (stop par ks) c (addr s) h']> m)) ∧
  seg (<[p := N (stop par ks) c (addr s) h']> m) par K h'.
Proof.
  cbn. intros (Hp & Hs & Hk) Hnd. nodup_sat. split; [by eapply ev_set_left|].
  split_and!; [rsolve|rsolve|]. eapply seg_frame, Hk. frm.
Qed.

Lemma left_of_cons d c p s k : left_of (Frame d c p s :: k) = [] → d = L ∧ left_of k = [].
Proof. destruct d; cbn; [done|]. intros H. by apply app_eq_nil in H as [_ [??]%app_eq_nil]. Qed.

(** Unlinking the successor of a node with the right subtree [t]. *)
Lemma erase_successor_spec rt m a t :
  rep m a t → t ≠ E → good_addrs (inorder t) → aligned a →
  ∃ m' K cs su sr par, t = plug K (T cs E su sr) ∧ left_of K = [] ∧
    erase_successor (addr t) (RBMem rt m) = Val (stop su K, su, addr sr) (RBMem rt m') ∧
    seg m' su K (addr sr) ∧ rep m' su sr ∧ aligned par ∧
    m' !! su = Some (N par cs (sroot K (addr sr)) 0) ∧
    (∀ x, x ∉ inorder t → m' !! x = m !! x) ∧ dom m' = dom m.
Proof.
  intros Ht Hne Hg Hal. destruct t as [|c l b r]; [done|]. cbn [addr].
  pose proof Ht as (Hb & Hl & Hr). unfold erase_successor. eb ev_left. cbn [left N].
  destruct (decide (l = E)) as [->|Hle].
  - change (truthy (addr E)) with false. cbn [negb]. eb ev_right. cbn [right N].
    exists m, [], c, b, r, a. split_and!; done.
  - rewrite truthy_ne by (by eapply (addr_nz _ _ Hg); [set_solver|]). cbn [negb].
    unfold fuel_of. erewrite bind_val by reflexivity. cbn [nodes].
    destruct (erase_descend_spec rt m l b b (size m) Hl Hle) as (ks & cs & su & sr & -> & Hlk & He).
    { apply nodup_dom_size; [|intros x; by eapply rep_dom].
      eapply (good_incl _ _ Hg); [|cbn; set_solver]. apply (NoDup_app_disj _ (b :: inorder r)), Hg. }
    { intros x Hx. eapply good_nz; [exact Hg|]. set_solver. }
    ebr He. cbn beta iota.
    set (K := ks ++ [Frame L c b r]).
    assert (good_addrs (su :: inorder sr ++ kaddrs K)) as HgK.
    { eapply good_perm, Hg. unfold K. rewrite kaddrs_app. cbn [inorder kaddrs].
      rewrite kaddrs_perm. cbn [inorder app]. by rewrite app_nil_r, <- !app_assoc. }
    apply rep_plug in Hl as [(Hsu & _ & Hsr) Hseg]. cbn in Hseg, Hsu.
    eb ev_right. cbn [right N].
    assert (seg m a K su) as HK by (unfold K; apply seg_snoc; rewrite addr_plug in Hb; done).
    assert (stop b ks = stop su K) as Hst by (unfold K; rewrite stop_app; by destruct ks as [|[]]).
    assert (left_of K = []) as HlK by (unfold K, left_of; rewrite foldr_app; exact Hlk).
    assert (b ∈ kaddrs K) as HbK by (unfold K; rewrite kaddrs_app; set_solver).
    rewrite Hst. destruct K as [|[d c1 p s] K'] eqn:HKe; [by destruct ks|].
    apply left_of_cons in HlK as HlK'; destruct HlK' as [-> _]. cbn [stop].
    pose proof (proj1 HgK) as Hnd. apply NoDup_cons in Hnd as [Hsu1 Hnd].
    apply NoDup_app_disj in Hnd as (Hnd1 & Hdj & Hnd2).
    destruct (seg_set_hole rt m a c1 p s K' su (addr sr) HK Hnd2) as [He1 HK1]. ebr He1. clear He1.
    set (m1 := <[p := _]> m) in *.
    assert (dom m1 = dom m) as Hd1 by (destruct HK as (Hp & _); unfold m1; domt).
    assert (∀ x, x ∉ kaddrs (Frame L c1 p s :: K') → m1 !! x = m !! x) as Hf1.
    { intros x Hx. unfold m1. apply lookup_insert_ne. set_solver. }
    erewrite bind_val; [|eapply ev_set_right; rewrite Hf1; [exact Hsu|set_solver]].
    unfold K in HKe. rewrite <- HKe in *. apply seg_snoc in HK1 as (Hseg1 & Hb1 & Hr1).
    rewrite kaddrs_app in *. cbn [kaddrs] in *. rewrite app_nil_r in *.
    assert (aligned (stop b ks)) as Hpal.
    { eapply good_nz; [exact HgK|]. destruct ks as [|[]]; cbn; set_solver. }
    nodup_sat. erewrite bind_val; [|eapply ev_set_parent; [lkp|done]].
    eexists _, (ks ++ [Frame L c b r]), cs, su, sr, (stop b ks).
    split; [by rewrite plug_app|]. split; [done|]. split; [rewrite HKe; reflexivity|]. split_and!.
    + apply seg_snoc. split_and!; [|lkp|rsolve]. eapply seg_frame, Hseg1. frm.
    + eapply rep_frame, Hsr. intros x Hx. rewrite !lookup_insert_ne by ne. apply Hf1. set_solver.
    + done.
    + rewrite sroot_app. cbn. chase.
    + intros x Hx. cbn in Hx. rewrite kaddrs_perm in Hx. cbn in Hx. nodup_sat.
      rewrite !lookup_insert_ne by ne. apply Hf1. ne.
    + rewrite <- Hd1 in *. clear - Hsu Hb1 Hd1. apply elem_of_dom_2 in Hsu, Hb1. set_solver.
Qed.

Lemma rbk_relabel n d c a b l K k :
  rbk n (K ++ Frame d c a l :: k) → rbk n (K ++ Frame d c b l :: k).
Proof.
  revert n. induction K as [|[d' c' a' s'] K IH]; intros n H; cbn in *;
    inversion H as [|? ? ? ? ? Hs Hk|? ? ? ? ? Hs Hcs Hc Hk]; subst; constructor; auto.
  by destruct K as [|[]].
Qed.

Lemma kcol_relabel d c a b l K k : kcol (K ++ Frame d c a l :: k) = kcol (K ++ Frame d c b l :: k).
Proof. by destruct K as [|[]]. Qed.

Lemma erase_case_two rt m k c l a r n :
  zrep rt m k (T c l a r) → rb n (T c l a r) → rbk n k → (c = Red → kcol k = Black) → l ≠ E → r ≠ E →
  rebalanced m (left_of k ++ inorder l ++ inorder r ++ right_of k) (hev_rbtree_erase a (RBMem rt m)).
Proof.
  intros Hz Hb Hbk Hck Hle Hre.
  destruct (plug_rb k _ n Hb Hbk Hck) as (n0 & Hpb & Hpc).
  destruct Hz as (Hk & (Ha & Hl & Hr) & Hg). cbn [addr] in *.
  assert (a ≠ 0 ∧ aligned a) as [Ha0 Hal] by (eapply good_nz; [exact Hg|]; clear; set_solver).
  assert (aligned (top k)) as Htk by (eapply good_top; [exact Hg|]; set_solver).
  assert (addr l ≠ 0) as Hl0 by (apply (addr_nz _ _ Hg); [set_solver|done]).
  assert (addr r ≠ 0) as Hr0 by (apply (addr_nz _ _ Hg); [set_solver|done]).
  assert (good_addrs (inorder r)) as Hgr.
  { pose proof (proj1 Hg) as Hnd. cbn in Hnd. nodup_sat. eapply good_incl; [exact Hg|done|clear; set_solver]. }
  destruct (erase_successor_spec rt m a r Hr Hre Hgr Hal)
    as (m1 & K & cs & su & sr & par & -> & HlK & He & Hseg & Hsr & Hpal & Hsu & Hf1 & Hd1).
  set (K' := K ++ Frame R c su l :: k).
  assert (∃ n', rb n' (T cs E su sr) ∧ rbk n' K' ∧ (cs = Red → kcol K' = Black)) as (n' & Hbs & HbK & HcK).
  { change (T c l a (plug K (T cs E su sr))) with (plug [Frame R c a l] (plug K (T cs E su sr))) in Hpb, Hpc.
    rewrite <- !plug_app, <- ?app_assoc in Hpb, Hpc. cbn [app] in Hpb, Hpc. destruct (unplug_rb _ _ _ Hpb Hpc) as (n' & ? & ? & ?).
    exists n'. unfold K'. rewrite (kcol_relabel _ _ su a). split_and!; [done|by eapply rbk_relabel|done]. }
  assert (good_addrs (a :: su :: inorder sr ++ kaddrs K ++ inorder l ++ kaddrs k)) as Hgd.
  { eapply good_perm, Hg. cbn [inorder]. rewrite kaddrs_perm. cbn [inorder app]. solve_Permutation. }
  assert (left_of k ++ inorder l ++ inorder (plug K (T cs E su sr)) ++ right_of k = inorder (plug K' sr)) as Hin.
  { unfold K'. rewrite plug_app. cbn [plug node_on]. rewrite !inorder_plug. cbn [inorder].
    rewrite ?inorder_plug, ?HlK. cbn [inorder app].
    repeat (rewrite <- ?app_assoc; cbn [app]). reflexivity. }
  rewrite Hin. pose proof (proj1 Hgd) as Hnd. nodup_sat.
  assert (good_addrs (inorder sr ++ kaddrs K')) as HgK'.
  { unfold K'. rewrite kaddrs_app. cbn [kaddrs]. eapply good_incl; [exact Hgd|nodup|set_solver]. }
  assert (∀ x, x ∉ su :: inorder sr ++ kaddrs K → m1 !! x = m !! x) as Hf1'.
  { intros x Hx. apply Hf1. rewrite kaddrs_perm. cbn [inorder app]. done. }
  clear Hf1.
  assert (good_addrs (inorder l)) as Hgl by (eapply good_incl; [exact Hgd|done|clear; set_solver]).
  assert (good_addrs (kaddrs k)) as Hgk by (eapply good_incl; [exact Hgd|done|clear; set_solver]).
  unfold hev_rbtree_erase, _hev_rbtree_erase. rewrite !bind_assoc.
  erewrite bind_val by (by eapply ev_right). rewrite bind_assoc.
  erewrite bind_val by (by eapply ev_left). cbn [left right N].
  rewrite !truthy_ne by done. cbn [negb]. unfold erase_two_children. rewrite bind_assoc. ebr He.
  cbn beta iota. rewrite bind_assoc. eb ev_left. cbn [left N].
  rewrite bind_assoc. eb ev_set_left. rewrite bind_assoc.
  match goal with |- context [RBMem rt ?m0] =>
    edestruct (ev_when_parent rt m0 a su l) as (m2 & He2 & Hl2 & Hf2 & Hd2) end; [rsolve|done|done|].
  rewrite truthy_ne in He2 by done. cbn [when] in He2. ebr He2. rewrite bind_assoc.
  eb ev_pc. cbn [parent_color N]. unfold _hev_rbtree_node_parent. rewrite pc_parent by done.
  rewrite bind_assoc.
  destruct (ev_change_child rt m2 k a su) as (rt3 & m3 & He3 & Hk3 & Hf3 & Hd3); [rsolve|done|done|done|].
  ebr He3. rewrite bind_assoc.
  assert (m3 !! su = Some (N par cs (sroot K (addr sr)) (addr l))) as Hsu3 by lkp.
  assert (seg m3 su K (addr sr)) as Hseg3 by (eapply seg_frame, Hseg; frm).
  assert (rep m3 su l) as Hl3 by (eapply rep_frame, Hl2; frm).
  assert (top K' = stop su K) as Hst by (unfold K'; by rewrite top_app).
  assert (dom m3 = dom m) as Hdm.
  { rewrite Hd3, Hd2, <- Hd1. domt. }
  assert (∀ x, x ∉ su :: inorder sr ++ kaddrs K ++ inorder l ++ kaddrs k → m3 !! x = m !! x) as Hfm
    by (intros x Hx; nodup_sat; chase).
  assert (repk rt3 (<[su := N (top k) c (sroot K (addr sr)) (addr l)]> m3) K' (addr sr)) as HrK.
  { apply repk_app. split; [eapply seg_frame, Hseg3; frm|]. cbn [repk].
    split_and!; [chase|rsolve|rsolve]. }
  destruct (decide (sr = E)) as [->|Hsre].
  - cbn [addr]. change (truthy 0) with false. cbv iota. rewrite bind_assoc.
    erewrite bind_val by (by eapply ev_is_black). rewrite bind_ret, bind_assoc.
    erewrite bind_val by (by eapply ev_set_pc). rewrite bind_ret, <- Hst.
    eapply rebalanced_mono; [eapply (erase_leaf _ _ K' cs)|..]; [..|reflexivity].
    + split_and!; [done|done|exact HgK'].
    + inversion Hbs as [|? ? ? ? Hbl|? ? ? ? Hbl]; subst; inversion Hbl; subst; done.
    + intros x Hx. rewrite kaddrs_perm in Hx. cbn in Hx. unfold K' in Hx. rewrite kaddrs_app in Hx.
      cbn in Hx. nodup_sat.
      rewrite lookup_insert_ne by ne. apply Hfm. cbn [inorder app]. ne.
    + rewrite <- Hdm. apply elem_of_dom_2 in Hsu3. clear -Hsu3. set_solver.
  - destruct (only_right _ _ _ _ Hbs) as (-> & -> & x & ->); [done|]. cbn [addr].
    destruct Hsr as (Hx & _). cbn [inorder app addr sroot] in *. nodup_sat.
    rewrite truthy_ne by (by eapply good_nz; [exact HgK'|set_solver]). cbv iota. rewrite bind_assoc.
    change HEV_RBTREE_BLACK with (colZ Black). eb ev_set_pcol.
    rewrite bind_ret, bind_assoc. erewrite bind_val by (eapply ev_set_pc; lkp).
    rewrite bind_ret. change (truthy 0) with false. cbn [when].
    apply (rebalanced_zrep _ _ _ _ K' (T Black E x E) 1); try done; [|eauto|inord| |].
    + split_and!; [|rewrite Hst; cbn; split_and!; solve [done|chase]|exact HgK'].
      eapply repk_frame, HrK. intros y Hy. rewrite insert_insert_ne by ne. apply lookup_insert_ne.
      intros <-. destruct HgK' as [Hnd' _]. by apply NoDup_cons in Hnd' as [? _].
    + intros y Hy. unfold K' in Hy. rewrite kaddrs_app in Hy. cbn in Hy. nodup_sat.
      rewrite !lookup_insert_ne by ne. apply Hfm. ne.
    + rewrite <- Hdm. domt.
Qed.
