(* ===== verification/RBTree.v ===== *)
(** * RBTree: the contract of the intrusive red-black tree

    [rbtree s xs] says that the memory [s] holds a well-formed red-black tree
    whose nodes, from left to right, are [xs]. Clients search for a place with
    [at_tree] and use the specifications of insertion, removal, traversal and
    replacement below without looking at the balancing. *)
From S2P Require Import Prelude HevRBTree RBRep RBInsert RBErase.

Definition rbtree (s : rbmem) (xs : list Z) : Prop :=
  ∃ t n, tree_rep (root s) (nodes s) t ∧ rb n t ∧ tcol t = Black ∧ inorder t = xs.

(** The search has reached the link [l] below the parent [p]: the subtree there
    is [t], the nodes before it are [xs] and those after it are [ys]. *)
Definition at_tree (s : rbmem) (xs : list Z) (t : tree) (ys : list Z) (p : Z) (l : link) : Prop :=
  ∃ k n, zrep (root s) (nodes s) k t ∧ rb n (plug k t) ∧ tcol (plug k t) = Black ∧
    left_of k = xs ∧ right_of k = ys ∧ top k = p ∧ hole k = l.

Lemma rebalanced_rbtree m xs o :
  rebalanced m xs o ↔
  ∃ s', o = Val tt s' ∧ rbtree s' xs ∧ (∀ x, x ∉ xs → nodes s' !! x = m !! x) ∧ dom (nodes s') = dom m.
Proof.
  split.
  - intros (rt' & m' & t' & n & -> & ? & ? & ? & ? & ? & ?). exists (RBMem rt' m').
    split_and!; try done. by exists t', n.
  - intros ([rt' m'] & -> & (t' & n & ? & ? & ? & ?) & ? & ?). by exists rt', m', t', n.
Qed.

Lemma rbtree_empty m : rbtree (RBMem 0 m) [].
Proof. exists E, O. split_and!; try done. split_and!; try done. split; constructor. Qed.

Lemma rbtree_nodup s xs : rbtree s xs → NoDup xs.
Proof. intros (t & n & (_ & _ & Hg & _) & _ & _ & <-). done. Qed.

Lemma rbtree_node s xs x : rbtree s xs → x ∈ xs → x ≠ 0 ∧ aligned x ∧ x ∈ dom (nodes s).
Proof.
  intros (t & n & (_ & Hr & Hg) & _ & _ & <-) Hx. destruct (good_nz _ _ Hg Hx).
  split_and!; try done. by eapply rep_dom.
Qed.

Lemma rbtree_size s xs : rbtree s xs → (length xs ≤ size (nodes s))%nat.
Proof.
  intros Ht. apply nodup_dom_size; [by eapply rbtree_nodup|]. intros x Hx. by eapply rbtree_node.
Qed.

(** Memory that is not part of the tree may change. *)
Lemma rbtree_frame s s' xs :
  root s' = root s → (∀ x, x ∈ xs → nodes s' !! x = nodes s !! x) → rbtree s xs → rbtree s' xs.
Proof.
  intros Hr Hm (t & n & (Hrt & Hrep & Hg) & ? & ? & <-). exists t, n. split_and!; try done.
  split_and!; [congruence|by eapply rep_frame|done].
Qed.

(** ** Searching *)

Lemma at_tree_root s xs : rbtree s xs → ∃ t, inorder t = xs ∧ at_tree s [] t [] 0 LinkRoot.
Proof.
  intros (t & n & Ht & ? & ? & <-). exists t. split; [done|]. exists [], n.
  split_and!; try done. by apply zrep_plug.
Qed.

Lemma at_tree_rbtree s xs t ys p l : at_tree s xs t ys p l → rbtree s (xs ++ inorder t ++ ys).
Proof.
  intros (k & n & Hz & ? & ? & <- & <- & _ & _). exists (plug k t), n.
  split_and!; try done; [by apply zrep_plug|apply inorder_plug].
Qed.

Lemma at_tree_deref s xs t ys p l : at_tree s xs t ys p l → deref l s = Val (addr t) s.
Proof.
  intros (k & n & (Hk & _ & _) & _ & _ & _ & _ & _ & <-). destruct s as [rt m].
  destruct k as [|[[] c a x] k]; cbn in *; [by subst|..]; destruct Hk as (Ha & _);
    [by erewrite ev_left by done|by erewrite ev_right by done].
Qed.

Lemma at_tree_left s xs c tl a tr ys p l :
  at_tree s xs (T c tl a tr) ys p l → at_tree s xs tl (a :: inorder tr ++ ys) a (LinkLeft a).
Proof.
  intros (k & n & Hz & ? & ? & <- & <- & <- & _). exists (Frame L c a tr :: k), n.
  split_and!; try done. by apply zrep_plug, (zrep_plug _ _ k).
Qed.

Lemma at_tree_right s xs c tl a tr ys p l :
  at_tree s xs (T c tl a tr) ys p l → at_tree s (xs ++ inorder tl ++ [a]) tr ys a (LinkRight a).
Proof.
  intros (k & n & Hz & ? & ? & <- & <- & <- & _). exists (Frame R c a tl :: k), n.
  split_and!; try done. by apply zrep_plug, (zrep_plug _ _ k).
Qed.

Lemma at_tree_frame s s' xs t ys p l :
  root s' = root s → (∀ x, x ∈ xs ++ inorder t ++ ys → nodes s' !! x = nodes s !! x) →
  at_tree s xs t ys p l → at_tree s' xs t ys p l.
Proof.
  intros Hr Hm (k & n & (Hk & Ht & Hg) & ? & ? & <- & <- & ? & ?). exists k, n. split_and!; try done.
  assert (∀ x, x ∈ inorder t ++ kaddrs k → nodes s' !! x = nodes s !! x) as Hm'.
  { intros x Hx. apply Hm. rewrite <- inorder_plug, kaddrs_perm. done. }
  split_and!; [|eapply rep_frame, Ht; intros x Hx; apply Hm'; set_solver|done].
  rewrite Hr. eapply repk_frame, Hk. intros x Hx. apply Hm'. set_solver.
Qed.

(** ** Insertion and removal *)

Lemma insert_spec s xs ys p l a :
  at_tree s xs E ys p l → a ∈ dom (nodes s) → a ∉ xs ++ ys → a ≠ 0 → aligned a →
  ∃ s', (hev_rbtree_node_link a p l;; hev_rbtree_insert_color a) s = Val tt s' ∧
    rbtree s' (xs ++ a :: ys) ∧
    (∀ x, x ∉ xs ++ a :: ys → nodes s' !! x = nodes s !! x) ∧ dom (nodes s') = dom (nodes s).
Proof.
  intros (k & n & Hz & Hb & Hc & <- & <- & <- & <-) [nd Hd]%elem_of_dom Ha Ha0 Hal.
  destruct s as [rt m]. cbn [root nodes] in *. apply rebalanced_rbtree.
  eapply link_insert_spec; eauto. intros Hin. apply Ha. apply elem_of_app.
  assert (a ∈ inorder (plug k E)) as Hin' by (rewrite kaddrs_perm; done).
  rewrite inorder_plug in Hin'. cbn in Hin'. by apply elem_of_app.
Qed.

Lemma in_tree_plug t a : a ∈ inorder t → ∃ k c l r, t = plug k (T c l a r).
Proof.
  induction t as [|c l IHl b r IHr]; [set_solver|]. cbn. intros Ha.
  apply elem_of_app in Ha as [Ha|[->|Ha]%elem_of_cons].
  - destruct (IHl Ha) as (k & c' & l' & r' & ->). exists (k ++ [Frame L c b r]), c', l', r'.
    by rewrite plug_app.
  - by exists [], c, l, r.
  - destruct (IHr Ha) as (k & c' & l' & r' & ->). exists (k ++ [Frame R c b l]), c', l', r'.
    by rewrite plug_app.
Qed.

(** The zipper of a node of a tree. *)
Lemma rbtree_focus s xs a ys :
  rbtree s (xs ++ a :: ys) →
  ∃ k c l r n, zrep (root s) (nodes s) k (T c l a r) ∧ rb n (T c l a r) ∧ rbk n k ∧
    (c = Red → kcol k = Black) ∧ left_of k ++ inorder l = xs ∧ inorder r ++ right_of k = ys.
Proof.
  intros (t & n & Ht & Hb & Hc & Hi).
  destruct (in_tree_plug t a) as (k & c & l & r & ->); [rewrite Hi; set_solver|].
  destruct (unplug_rb _ _ _ Hb Hc) as (n' & ? & ? & ?).
  assert (NoDup (xs ++ a :: ys)) as Hnd by (rewrite <- Hi; apply Ht).
  exists k, c, l, r, n'. rewrite inorder_plug in Hi. cbn in Hi.
  assert (left_of k ++ inorder l = xs ∧ inorder r ++ right_of k = ys) as [? ?].
  { repeat (rewrite <- ?app_assoc in Hi; cbn [app] in Hi). rewrite app_assoc in Hi.
    revert Hnd. rewrite <- Hi. clear -Hi. revert Hi.
    generalize (left_of k ++ inorder l), (inorder r ++ right_of k). intros us vs Hi Hnd.
    revert xs Hi. induction us as [|u us IH]; intros [|x xs] Hi; cbn in *; simplify_eq; auto.
    - rewrite NoDup_cons in Hnd. set_solver.
    - apply NoDup_cons in Hnd as [Hn _]. set_solver.
    - apply NoDup_cons in Hnd as [_ Hnd]. destruct (IH Hnd xs) as [-> ->]; auto. }
  split_and!; try done. by apply zrep_plug.
Qed.

Lemma erase_spec s xs a ys :
  rbtree s (xs ++ a :: ys) →
  ∃ s', hev_rbtree_erase a s = Val tt s' ∧ rbtree s' (xs ++ ys) ∧
    (∀ x, x ∉ xs ++ ys → nodes s' !! x = nodes s !! x) ∧ dom (nodes s') = dom (nodes s).
Proof.
  intros Ht. destruct (rbtree_focus _ _ _ _ Ht) as (k & c & l & r & n & Hz & Hb & Hk & Hc & <- & <-).
  destruct s as [rt m]. cbn [root nodes] in *. apply rebalanced_rbtree.
  destruct (decide (l = E ∨ r = E)) as [Hlr|Hlr].
  - replace ((left_of k ++ inorder l) ++ inorder r ++ right_of k)
      with (inorder (plug k (if decide (l = E) then r else l))); [by eapply erase_case_one|].
    rewrite inorder_plug, <- app_assoc. case_decide as Hl; subst; [done|].
    by destruct Hlr as [?| ->].
  - rewrite <- app_assoc. eapply erase_case_two; eauto.
Qed.

(** ** Traversal *)

(** The pointer to the first or the last node of a list, NULL when there is none. *)
Definition ptr (o : option Z) : Z := default 0 o.

Lemma inorder_nil t : inorder t = [] → t = E.
Proof. destruct t; [done|]. cbn. by intros [_ ?]%app_eq_nil. Qed.

Lemma good_nz_all t : good_addrs (inorder t) → t ≠ E → addr t ≠ 0.
Proof. intros Hg. apply (addr_nz _ _ Hg). done. Qed.

Lemma leftmost_spec rt m par t fuel :
  rep m par t → t ≠ E → good_addrs (inorder t) → (length (inorder t) ≤ fuel)%nat →
  leftmost fuel (addr t) (RBMem rt m) = Val (ptr (head (inorder t))) (RBMem rt m).
Proof.
  revert par fuel. induction t as [|c l IHl a r _]; intros par fuel Hr Hne Hg Hf; [done|].
  destruct Hr as (Ha & Hl & _). cbn in Hf. rewrite length_app in Hf. cbn in Hf.
  destruct fuel as [|fuel]; [lia|]. cbn [leftmost addr inorder].
  erewrite bind_val by (by eapply ev_left). cbn [left N].
  assert (good_addrs (inorder l)) as Hgl.
  { eapply good_incl; [exact Hg| |cbn; set_solver]. apply (NoDup_app_disj _ (a :: inorder r)), Hg. }
  destruct (decide (l = E)) as [->|Hle]; [done|].
  rewrite truthy_ne by (by apply good_nz_all). rewrite (IHl a) by (done || lia).
  rewrite head_app. destruct (head (inorder l)) eqn:Hh; [done|].
  by apply head_None, inorder_nil in Hh.
Qed.

Lemma rightmost_spec rt m par t fuel :
  rep m par t → t ≠ E → good_addrs (inorder t) → (length (inorder t) ≤ fuel)%nat →
  rightmost fuel (addr t) (RBMem rt m) = Val (ptr (last (inorder t))) (RBMem rt m).
Proof.
  revert par fuel. induction t as [|c l _ a r IHr]; intros par fuel Hr Hne Hg Hf; [done|].
  destruct Hr as (Ha & _ & Hr). cbn in Hf. rewrite length_app in Hf. cbn in Hf.
  destruct fuel as [|fuel]; [lia|]. cbn [rightmost addr inorder].
  erewrite bind_val by (by eapply ev_right). cbn [right N].
  assert (good_addrs (inorder r)) as Hgr.
  { eapply good_incl; [exact Hg| |cbn; set_solver].
    destruct Hg as [Hnd _]. cbn in Hnd. by nodup_sat. }
  rewrite last_app_cons, last_cons.
  destruct (decide (r = E)) as [->|Hre]; [done|].
  rewrite truthy_ne by (by apply good_nz_all). rewrite (IHr a) by (done || lia).
  destruct (last (inorder r)) eqn:Hh; [done|]. by apply last_None, inorder_nil in Hh.
Qed.

Lemma zrep_parent rt m k c l a r :
  zrep rt m k (T c l a r) → hev_rbtree_node_parent a (RBMem rt m) = Val (top k) (RBMem rt m).
Proof.
  intros (_ & (Ha & _) & Hg). eapply ev_parent; [exact Ha|]. eapply good_top; [exact Hg|]. set_solver.
Qed.

Lemma zrep_up rt m d c a s k t :
  zrep rt m (Frame d c a s :: k) t ↔ zrep rt m k (node_on d c t a s).
Proof. by rewrite !zrep_plug. Qed.

(** A node is not its own sibling, nor is its sibling when that is empty. *)
Lemma sibling_ne rt m d c p s k c' l a r :
  zrep rt m (Frame d c p s :: k) (T c' l a r) → p ≠ 0 ∧ a ≠ addr s.
Proof.
  intros (_ & _ & Hg). split; [eapply good_nz; [exact Hg|set_solver]|]. intros Heq.
  destruct (addr_in s) as [Hs|Hs].
  - rewrite Hs in Heq. eapply (good_nz _ 0) in Hg; [naive_solver|]. rewrite <- Heq. set_solver.
  - rewrite <- Heq in Hs. destruct Hg as [Hnd _]. cbn in Hnd. nodup_sat. done.
Qed.

Lemma climb_right_spec rt m k c l a r fuel :
  zrep rt m k (T c l a r) → (length k < fuel)%nat →
  climb_right fuel a (RBMem rt m) = Val (ptr (head (right_of k))) (RBMem rt m).
Proof.
  revert k c l a r. induction fuel as [|fuel IH]; intros k c l a r Hz Hf; [lia|].
  cbn [climb_right]. erewrite bind_val by (by eapply zrep_parent).
  destruct k as [|[d c' p s] k]; [done|]. cbn [top].
  destruct (sibling_ne _ _ _ _ _ _ _ _ _ _ _ Hz) as [Hp Hne]. rewrite truthy_ne by done.
  pose proof Hz as ((Hlp & _) & _). erewrite bind_val by (by eapply ev_right).
  destruct d; cbn [frame_node right N].
  - rewrite (proj2 (Z.eqb_neq _ _) Hne). done.
  - cbn [addr]. rewrite Z.eqb_refl. apply zrep_up in Hz. cbn in Hf.
    rewrite (IH k c' s p (T c l a r)) by (done || lia). done.
Qed.

Lemma climb_left_spec rt m k c l a r fuel :
  zrep rt m k (T c l a r) → (length k < fuel)%nat →
  climb_left fuel a (RBMem rt m) = Val (ptr (last (left_of k))) (RBMem rt m).
Proof.
  revert k c l a r. induction fuel as [|fuel IH]; intros k c l a r Hz Hf; [lia|].
  cbn [climb_left]. erewrite bind_val by (by eapply zrep_parent).
  destruct k as [|[d c' p s] k]; [done|]. cbn [top].
  destruct (sibling_ne _ _ _ _ _ _ _ _ _ _ _ Hz) as [Hp Hne]. rewrite truthy_ne by done.
  pose proof Hz as ((Hlp & _) & _). erewrite bind_val by (by eapply ev_left).
  destruct d; cbn [frame_node left N].
  - cbn [addr]. rewrite Z.eqb_refl. apply zrep_up in Hz. cbn in Hf.
    rewrite (IH k c' (T c l a r) p s) by (done || lia). done.
  - rewrite (proj2 (Z.eqb_neq _ _) Hne). cbn. rewrite app_assoc, last_snoc. done.
Qed.

Lemma aligned_lor_black p a : aligned p → aligned a → Z.lor p 1 ≠ a.
Proof.
  intros Hp Ha <-. apply aligned_bit0 in Ha. rewrite Z.land_lor_distr_l in Ha.
  rewrite (aligned_bit0 _ Hp) in Ha. done.
Qed.

(** A node in a tree is not marked as unlinked. *)
Lemma zrep_not_empty rt m k c l a r :
  zrep rt m k (T c l a r) → hev_rbtree_node_empty a (RBMem rt m) = Val false (RBMem rt m).
Proof.
  intros (_ & (Ha & _) & Hg). unfold hev_rbtree_node_empty.
  erewrite bind_val by (by eapply ev_pc). cbn [parent_color N]. unfold mret, M_ret. f_equal.
  apply Z.eqb_neq. assert (aligned (top k)) by (eapply good_top; [exact Hg|]; set_solver).
  assert (aligned a) by (eapply good_nz; [exact Hg|set_solver]).
  destruct c; [|by apply aligned_lor_black]. cbn. rewrite Z.lor_0_r. intros Heq.
  assert (a ≠ 0) by (eapply good_nz; [exact Hg|set_solver]).
  destruct (top_in k) as [Ht|Ht]; [congruence|]. rewrite Heq in Ht.
  destruct Hg as [Hnd _]. cbn in Hnd. nodup_sat. done.
Qed.

Lemma zrep_fuel rt m k t :
  zrep rt m k t → (length (inorder t) + length k ≤ size m)%nat.
Proof.
  intros Hz. pose proof Hz as (_ & _ & Hg).
  assert (length (inorder t ++ kaddrs k) ≤ size m)%nat as Hl.
  { apply nodup_dom_size; [apply Hg|]. intros x. by eapply zrep_kaddrs_dom. }
  rewrite length_app in Hl. pose proof (kaddrs_length k). lia.
Qed.

Lemma next_spec s xs a ys :
  rbtree s (xs ++ a :: ys) → hev_rbtree_node_next a s = Val (ptr (head ys)) s.
Proof.
  intros Ht. destruct (rbtree_focus _ _ _ _ Ht) as (k & c & l & r & n & Hz & _ & _ & _ & <- & <-).
  destruct s as [rt m]. cbn [root nodes] in *. unfold hev_rbtree_node_next.
  erewrite bind_val by (by eapply zrep_not_empty). cbv iota.
  unfold fuel_of. erewrite bind_val by reflexivity. cbn [nodes].
  pose proof (zrep_fuel _ _ _ _ Hz) as Hf. cbn in Hf. rewrite length_app in Hf. cbn in Hf.
  pose proof Hz as (_ & (Ha & _ & Hr) & Hg). erewrite bind_val by (by eapply ev_right).
  cbn [right N]. rewrite head_app. destruct (decide (r = E)) as [->|Hre].
  - change (truthy (addr E)) with false. cbv iota. eapply climb_right_spec; [exact Hz|lia].
  - assert (good_addrs (inorder r)) as Hgr.
    { pose proof (proj1 Hg) as Hnd. cbn in Hnd. nodup_sat. eapply good_incl; [exact Hg|done|clear; set_solver]. }
    rewrite truthy_ne by (by apply good_nz_all). erewrite leftmost_spec by (done || lia).
    destruct (head (inorder r)) eqn:Hh; [done|]. by apply head_None, inorder_nil in Hh.
Qed.

Lemma prev_spec s xs a ys :
  rbtree s (xs ++ a :: ys) → hev_rbtree_node_prev a s = Val (ptr (last xs)) s.
Proof.
  intros Ht. destruct (rbtree_focus _ _ _ _ Ht) as (k & c & l & r & n & Hz & _ & _ & _ & <- & <-).
  destruct s as [rt m]. cbn [root nodes] in *. unfold hev_rbtree_node_prev.
  erewrite bind_val by (by eapply zrep_not_empty). cbv iota.
  unfold fuel_of. erewrite bind_val by reflexivity. cbn [nodes].
  pose proof (zrep_fuel _ _ _ _ Hz) as Hf. cbn in Hf. rewrite length_app in Hf. cbn in Hf.
  pose proof Hz as (_ & (Ha & Hl & _) & Hg). erewrite bind_val by (by eapply ev_left).
  cbn [left N]. rewrite last_app. destruct (decide (l = E)) as [->|Hle].
  - change (truthy (addr E)) with false. cbv iota. cbn [inorder last]. eapply climb_left_spec; [exact Hz|lia].
  - assert (good_addrs (inorder l)) as Hgl.
    { pose proof (proj1 Hg) as Hnd. cbn in Hnd. nodup_sat. eapply good_incl; [exact Hg|done|clear; set_solver]. }
    rewrite truthy_ne by (by apply good_nz_all). erewrite rightmost_spec by (done || lia).
    destruct (last (inorder l)) eqn:Hh; [done|]. by apply last_None, inorder_nil in Hh.
Qed.

Lemma first_spec s xs : rbtree s xs → hev_rbtree_first s = Val (ptr (head xs)) s.
Proof.
  intros Ht. pose proof (rbtree_size _ _ Ht) as Hf. destruct Ht as (t & n & (Hrt & Hr & Hg) & _ & _ & <-).
  destruct s as [rt m]. cbn [root nodes] in *. unfold hev_rbtree_first.
  erewrite bind_val by reflexivity. cbn [root]. subst rt.
  destruct (decide (t = E)) as [->|Hte]; [done|]. rewrite truthy_ne by (by apply good_nz_all).
  unfold fuel_of. erewrite bind_val by reflexivity. cbn [nodes]. by eapply leftmost_spec.
Qed.

Lemma last_spec s xs : rbtree s xs → hev_rbtree_last s = Val (ptr (last xs)) s.
Proof.
  intros Ht. pose proof (rbtree_size _ _ Ht) as Hf. destruct Ht as (t & n & (Hrt & Hr & Hg) & _ & _ & <-).
  destruct s as [rt m]. cbn [root nodes] in *. unfold hev_rbtree_last.
  erewrite bind_val by reflexivity. cbn [root]. subst rt.
  destruct (decide (t = E)) as [->|Hte]; [done|]. rewrite truthy_ne by (by apply good_nz_all).
  unfold fuel_of. erewrite bind_val by reflexivity. cbn [nodes]. by eapply rightmost_spec.
Qed.

(** The loop [for (p = hev_rbtree_first (t); p; p = hev_rbtree_node_next (p))]. *)
Fixpoint iterate (fuel : nat) (p : Z) : M rbmem (list Z) :=
  match fuel with
  | O => stuck
  | S fuel =>
      if truthy p then
        q ← hev_rbtree_node_next p; ps ← iterate fuel q; mret (p :: ps)
      else mret []
  end.

Lemma iterate_spec s xs ys fuel :
  rbtree s (xs ++ ys) → (length ys < fuel)%nat → iterate fuel (ptr (head ys)) s = Val ys s.
Proof.
  revert xs fuel. induction ys as [|y ys IH]; intros xs fuel Ht Hf; (destruct fuel as [|fuel]; [lia|]); [done|].
  cbn [iterate head ptr from_option default]. cbn in Hf.
  destruct (rbtree_node s _ y Ht) as (Hy & _ & _); [set_solver|]. unfold ptr; cbn [hd_error default from_option id].
  rewrite truthy_ne by done. erewrite bind_val by (by eapply next_spec).
  erewrite bind_val; [done|]. apply (IH (xs ++ [y])); [by rewrite <- app_assoc|lia].
Qed.

(** ** Height: a search visits at most [2 * log2 (n + 1)] nodes. *)
Fixpoint height (t : tree) : nat :=
  match t with E => O | T _ l _ r => S (Nat.max (height l) (height r)) end.

Lemma rb_height n t : rb n t → (height t ≤ 2 * n + match tcol t with Red => 1 | Black => 0 end)%nat.
Proof.
  induction 1 as [|n l a r Hl IHl Hr IHr Hcl Hcr|n l a r Hl IHl Hr IHr]; cbn; [lia|..].
  - rewrite Hcl in IHl. rewrite Hcr in IHr. lia.
  - destruct (tcol l), (tcol r); lia.
Qed.

Lemma rb_size n t : rb n t → (2 ^ n ≤ length (inorder t) + 1)%nat.
Proof.
  induction 1; cbn [inorder Nat.pow]; rewrite ?length_app; cbn [length]; lia.
Qed.

Lemma replace_spec s xs a b ys :
  rbtree s (xs ++ a :: ys) → b ∈ dom (nodes s) → b ∉ xs ++ a :: ys → b ≠ 0 → aligned b →
  ∃ s', hev_rbtree_replace a b s = Val tt s' ∧ rbtree s' (xs ++ b :: ys) ∧
    (∀ x, x ∉ xs ++ b :: ys → nodes s' !! x = nodes s !! x) ∧ dom (nodes s') = dom (nodes s).
Proof.
  intros Ht Hbd Hbn Hb0 Hba.
  destruct (rbtree_focus _ _ _ _ Ht) as (k & c & l & r & n & Hz & Hb & Hbk & Hc & <- & <-).
  destruct s as [rt m]. cbn [root nodes] in *. apply rebalanced_rbtree.
  apply elem_of_dom in Hbd as [[pb rb' lb] Hlb].
  assert (b ∉ inorder (T c l a r) ++ kaddrs k) as Hbk'.
  { intros Hin. apply Hbn. rewrite <- kaddrs_perm, inorder_plug in Hin. cbn in Hin. set_solver. }
  pose proof (zrep_parent _ _ _ _ _ _ _ Hz) as Hpar.
  destruct Hz as (Hk & (Ha & Hl & Hr) & Hg). cbn [addr] in *.
  assert (a ≠ 0 ∧ aligned a) as [Ha0 Hal] by (eapply good_nz; [exact Hg|]; clear; set_solver).
  pose proof (proj1 Hg) as Hnd. cbn [inorder] in *. nodup_sat.
  assert (good_addrs (inorder l)) as Hgl by (eapply good_incl; [exact Hg|done|clear; set_solver]).
  assert (good_addrs (inorder r)) as Hgr by (eapply good_incl; [exact Hg|done|clear; set_solver]).
  assert (good_addrs (kaddrs k)) as Hgk by (eapply good_incl; [exact Hg|done|clear; set_solver]).
  unfold hev_rbtree_replace. ebr Hpar.
  assert (∀ p n s, nodes s !! p = Some n → get_node p s = Val n s) as Hget.
  { intros p nd s Hp. unfold get_node. by rewrite Hp. }
  erewrite bind_val by (apply Hget; exact Ha). erewrite bind_val by (apply Hget; exact Hlb).
  unfold put_node, modify. erewrite bind_val by reflexivity. cbn [root nodes].
  set (m1 := <[b := _]> m).
  assert (∀ x, x ∉ [b] → m1 !! x = m !! x) as Hf1 by (intros x Hx; unfold m1; apply lookup_insert_ne; set_solver).
  assert (m1 !! b = Some (N (top k) c (addr r) (addr l))) as Hb1 by (unfold m1; lkp).
  assert (dom m1 = dom m) as Hd1 by (unfold m1; domt).
  clearbody m1. erewrite bind_val by (eapply ev_left; lkp). cbn [left N].
  edestruct (ev_when_parent rt m1 a b l) as (m2 & He2 & Hl2 & Hf2 & Hd2); [rsolve|done|done|ebr He2].
  erewrite bind_val by (eapply ev_right; lkp). cbn [right N].
  edestruct (ev_when_parent rt m2 a b r) as (m3 & He3 & Hr3 & Hf3 & Hd3); [rsolve|done|done|ebr He3].
  destruct (ev_change_child rt m3 k a b) as (rt4 & m4 & -> & Hk4 & Hf4 & Hd4); [rsolve|done|done|done|].
  apply (rebalanced_zrep _ _ _ _ k (T c l b r) n); try done.
  - split_and!; [done|cbn; split_and!; [lkp|rsolve|rsolve]|].
    destruct Hg as [Hnd Hall]. split; [cbn; nodup|]. cbn [inorder] in *.
    rewrite !Forall_app, !Forall_cons in *. naive_solver.
  - inversion Hb; subst; by constructor.
  - rewrite inorder_plug. cbn. by rewrite <- !app_assoc.
  - intros x Hx. cbn in Hx. nodup_sat. rewrite Hf4, Hf3, Hf2, Hf1 by ne. done.
  - congruence.
Qed.

(** ** Properties

    Throughout, [s3] is a memory with a tree of three nodes and a free node. *)

Definition s3 : rbmem :=
  RBMem 8 (<[4 := RBNode 8 0 0]> (<[8 := RBNode 1 12 4]> (<[12 := RBNode 8 0 0]> (<[16 := RBNode 0 0 0]> ∅)))).

Lemma s3_rbtree : rbtree s3 [4; 8; 12].
Proof.
  exists (T Black (T Red E 4 E) 8 (T Red E 12 E)), 1%nat. split_and!; try done; [|eauto].
  split_and!; try done. split; [apply (bool_decide_unpack _); by vm_compute|].
  repeat constructor; done.
Qed.

Lemma s3_hole : at_tree s3 [4; 8; 12] E [] 12 (LinkRight 12).
Proof.
  exists [Frame R Red 12 E; Frame R Black 8 (T Red E 4 E)], 1%nat.
  split_and!; try done; [|cbn; eauto].
  apply zrep_plug. split_and!; try done. split; [apply (bool_decide_unpack _); by vm_compute|].
  repeat constructor; done.
Qed.

(** C1: linking a fresh node at the NULL link where a search has ended and
    calling [hev_rbtree_insert_color] never fails, inserts the node at exactly
    that place of the order, restores the red-black invariant (black root, no
    red node with a red child, equal black heights, parent pointers) and
    touches no memory outside the tree. *)
Theorem insert_correct s xs ys p l a :
  at_tree s xs E ys p l → a ∈ dom (nodes s) → a ∉ xs ++ ys → a ≠ 0 → aligned a →
  ∃ s', (hev_rbtree_node_link a p l;; hev_rbtree_insert_color a) s = Val tt s' ∧
    rbtree s' (xs ++ a :: ys) ∧
    (∀ x, x ∉ xs ++ a :: ys → nodes s' !! x = nodes s !! x) ∧ dom (nodes s') = dom (nodes s).
Proof. apply insert_spec. Qed.

Lemma insert_correct_witness :
  ∃ s', (hev_rbtree_node_link 16 12 (LinkRight 12);; hev_rbtree_insert_color 16) s3 = Val tt s' ∧
    rbtree s' [4; 8; 12; 16].
Proof.
  destruct (insert_correct s3 [4; 8; 12] [] 12 (LinkRight 12) 16) as (s' & ? & ? & _).
  - apply s3_hole.
  - apply elem_of_dom. by eexists.
  - apply (bool_decide_unpack _). by vm_compute.
  - done.
  - done.
  - by exists s'.
Defined.

(** C2: [hev_rbtree_erase] of any node of a well-formed tree never fails,
    removes exactly that node from the order, restores the red-black invariant
    and touches no memory outside the tree. *)
Theorem erase_correct s xs a ys :
  rbtree s (xs ++ a :: ys) →
  ∃ s', hev_rbtree_erase a s = Val tt s' ∧ rbtree s' (xs ++ ys) ∧
    (∀ x, x ∉ xs ++ ys → nodes s' !! x = nodes s !! x) ∧ dom (nodes s') = dom (nodes s).
Proof. apply erase_spec. Qed.

Lemma erase_correct_witness :
  ∃ s', hev_rbtree_erase 8 s3 = Val tt s' ∧ rbtree s' [4; 12].
Proof.
  destruct (erase_correct s3 [4] 8 [12] s3_rbtree) as (s' & ? & ? & _). by exists s'.
Defined.

(** C3: the loop from [hev_rbtree_first] along [hev_rbtree_node_next]
    terminates and visits every node of the tree once, in order; and
    [hev_rbtree_last] and [hev_rbtree_node_prev] go the other way: the last node
    is the last one visited, and the node before any node is its predecessor. *)
Theorem traversal_in_order s xs :
  rbtree s xs →
  (p ← hev_rbtree_first; iterate (S (length xs)) p) s = Val xs s ∧
  hev_rbtree_last s = Val (ptr (last xs)) s ∧
  (∀ us a vs, xs = us ++ a :: vs → hev_rbtree_node_prev a s = Val (ptr (last us)) s).
Proof.
  intros Ht. split_and!.
  - erewrite bind_val by (by apply first_spec). apply (iterate_spec s []); [done|lia].
  - by apply last_spec.
  - intros us a vs ->. by eapply prev_spec.
Qed.

Lemma traversal_in_order_witness :
  (p ← hev_rbtree_first; iterate 4 p) s3 = Val [4; 8; 12] s3.
Proof. apply (traversal_in_order s3 [4; 8; 12] s3_rbtree). Defined.

(** [hev_rbtree_replace] puts a fresh node in the place of another one:
    the order is otherwise unchanged and the tree stays well formed. *)
Theorem replace_correct s xs a b ys :
  rbtree s (xs ++ a :: ys) → b ∈ dom (nodes s) → b ∉ xs ++ a :: ys → b ≠ 0 → aligned b →
  ∃ s', hev_rbtree_replace a b s = Val tt s' ∧ rbtree s' (xs ++ b :: ys) ∧
    (∀ x, x ∉ xs ++ b :: ys → nodes s' !! x = nodes s !! x) ∧ dom (nodes s') = dom (nodes s).
Proof. apply replace_spec. Qed.

Lemma replace_correct_witness :
  ∃ s', hev_rbtree_replace 8 16 s3 = Val tt s' ∧ rbtree s' [4; 16; 12].
Proof.
  destruct (replace_correct s3 [4] 8 16 [12] s3_rbtree) as (s' & ? & ? & _).
  - apply elem_of_dom. by eexists.
  - apply (bool_decide_unpack _). by vm_compute.
  - done.
  - done.
  - by exists s'.
Defined.

(** A well-formed tree of [n] nodes is at most [2 * log2 (n + 1)] deep,
    which bounds the iterations of every search and of every climb. *)
Theorem height_bound s xs :
  rbtree s xs → ∃ t, tree_rep (root s) (nodes s) t ∧ inorder t = xs ∧
    (height t ≤ 2 * Nat.log2 (length xs + 1))%nat.
Proof.
  intros (t & n & Ht & Hb & Hc & <-). exists t. split_and!; try done.
  pose proof (rb_height _ _ Hb) as Hh. rewrite Hc in Hh. pose proof (rb_size _ _ Hb) as Hs.
  apply Nat.log2_le_mono in Hs. rewrite Nat.log2_pow2 in Hs by lia. lia.
Qed.

Lemma height_bound_witness :
  ∃ t, tree_rep (root s3) (nodes s3) t ∧ inorder t = [4; 8; 12] ∧ (height t ≤ 4)%nat.
Proof. apply (height_bound s3 [4; 8; 12] s3_rbtree). Defined.
