(* ===== verification/MappedDNS.v ===== *)
(** * MappedDNS: the fake-address DNS server of src/hev-mapped-dns.c

    A cache maps the names asked for to small indices and answers every A
    question with the address [net | idx]. A node of the cache is on an
    intrusive list (least recently used first) and in an intrusive tree ordered
    by name; both views of a node have the node's address here ([container_of]
    subtracts a constant). [heap] lists what the next calls of the allocator
    answer: an address for the node, or 0, and whether [strdup] succeeds. When it does
    not the code passes the node to [free] of the C library, which is not where it came
    from. *)
From S2P Require Import Prelude Bytes HevList HevRBTree RBRep RBTree.

Record nodedata := NodeData { nname : bytes; nidx : Z }.

Record dns := DNS {
  use : Z; max : Z; net : Z; mask : Z;
  dlist : listmem;
  dtree : rbmem;
  records : list Z;
  ddata : gmap Z nodedata;
  heap : list (Z * bool)
}.

Definition set_use (v : Z) (s : dns) : dns :=
  DNS v (max s) (net s) (mask s) (dlist s) (dtree s) (records s) (ddata s) (heap s).
Definition set_dlist (v : listmem) (s : dns) : dns :=
  DNS (use s) (max s) (net s) (mask s) v (dtree s) (records s) (ddata s) (heap s).
Definition set_dtree (v : rbmem) (s : dns) : dns :=
  DNS (use s) (max s) (net s) (mask s) (dlist s) v (records s) (ddata s) (heap s).
Definition set_records (v : list Z) (s : dns) : dns :=
  DNS (use s) (max s) (net s) (mask s) (dlist s) (dtree s) v (ddata s) (heap s).
Definition set_ddata (v : gmap Z nodedata) (s : dns) : dns :=
  DNS (use s) (max s) (net s) (mask s) (dlist s) (dtree s) (records s) v (heap s).
Definition set_heap (v : list (Z * bool)) (s : dns) : dns :=
  DNS (use s) (max s) (net s) (mask s) (dlist s) (dtree s) (records s) (ddata s) v.

Definition on_list {A} (m : M listmem A) : M dns A := zoom dlist set_dlist m.
Definition on_tree {A} (m : M rbmem A) : M dns A := zoom dtree set_dtree m.

Definition get_data (p : Z) : M dns nodedata := λ s,
  match ddata s !! p with Some d => Val d s | None => Stuck end.

Definition get_record (idx : Z) : M dns Z := λ s,
  match zget (records s) idx with Some p => Val p s | None => Stuck end.
Definition set_record (idx p : Z) : M dns unit := λ s,
  match zset (records s) idx p with Some l => Val tt (set_records l s) | None => Stuck end.

(** ** Construction *)

Definition hev_mapped_dns_construct (self : dns) (net mask max : Z) : Z * dns :=
  if Z.lnot mask <? max then (-1, self)
  else (0, DNS (use self) max net mask (dlist self) (dtree self) (records self) (ddata self) (heap self)).

(** The object is zeroed when it is allocated, with [max] records at its end. *)
Definition hev_mapped_dns_new (net mask max : Z) (ok : bool) (heap : list (Z * bool)) : option dns :=
  if negb ok then None else
  let self := DNS 0 0 0 0 (ListMem 0 0 ∅) (RBMem 0 ∅) (replicate (Z.to_nat max) 0) ∅ heap in
  let '(res, self) := hev_mapped_dns_construct self net mask max in
  if res <? 0 then None else Some self.

(** ** Nodes *)

(** [hev_malloc0] answers with a fresh block of zeroed memory or with NULL. *)
Definition hev_malloc0 : M dns (Z * bool) := λ s,
  match heap s with
  | [] => Val (0, false) s
  | (p, dup) :: h =>
      let s := set_heap h s in
      if bool_decide (p ≠ 0 ∧ aligned p ∧ ddata s !! p = None) then
        Val (p, dup)
          (set_ddata (<[p := NodeData [] 0]> (ddata s))
          (set_dlist (ListMem (head (dlist s)) (tail (dlist s)) (<[p := LNode 0 0]> (lnodes (dlist s))))
          (set_dtree (RBMem (root (dtree s)) (<[p := RBNode 0 0 0]> (nodes (dtree s)))) s)))
      else Val (0, false) s
  end.

Definition hev_free (p : Z) : M dns unit := λ s,
  match ddata s !! p with
  | None => Stuck
  | Some _ =>
      Val tt
        (set_ddata (delete p (ddata s))
        (set_dlist (ListMem (head (dlist s)) (tail (dlist s)) (delete p (lnodes (dlist s))))
        (set_dtree (RBMem (root (dtree s)) (delete p (nodes (dtree s)))) s)))
  end.

(** The C library's [free]. No node came from its [malloc]: the allocator of the task
    system returns the inside of a slice, behind the slice's header
    (hev-memory-allocator-slice.c), so that a node given to [free] is undefined
    behaviour. *)
Definition free (p : Z) : M dns unit := if truthy p then stuck else mret tt.

Definition set_data (p : Z) (d : nodedata) : M dns unit :=
  modify (λ s, set_ddata (<[p := d]> (ddata s)) s).

Definition hev_mapped_dns_node_alloc (name : bytes) : M dns Z :=
  '(node, dup) ← hev_malloc0;
  if negb (truthy node) then mret 0 else
  if (dup : bool) then
    d ← get_data node; set_data node (NodeData name (nidx d));; mret node
  else free node;; mret 0.

Definition hev_mapped_dns_node_free (node : Z) : M dns unit := hev_free node.

(** ** Lookup by name *)

Inductive place := Hit (node : Z) | Miss (parent : Z) (new : link).

Fixpoint find_loop (fuel : nat) (name : bytes) (parent : Z) (new : link) : M dns place :=
  match fuel with
  | O => stuck
  | S fuel =>
      cur ← on_tree (deref new);
      if negb (truthy cur) then mret (Miss parent new) else
      d ← get_data cur;
      let res := strcmp (nname d) name in
      if res <? 0 then find_loop fuel name cur (LinkLeft cur)
      else if 0 <? res then find_loop fuel name cur (LinkRight cur)
      else mret (Hit cur)
  end.

Definition hev_mapped_dns_find (name : bytes) : M dns Z :=
  idx ← gets use;
  fuel ← gets (λ s, S (size (nodes (dtree s))));
  r ← find_loop fuel name 0 LinkRoot;
  match r with
  | Hit node =>
      on_list (hev_list_del node);;
      on_list (hev_list_add_tail node);;
      d ← get_data node;
      mret (nidx d)
  | Miss parent new =>
      node ← hev_mapped_dns_node_alloc name;
      if negb (truthy node) then mret (-1) else
      on_tree (hev_rbtree_node_link node parent new);;
      on_tree (hev_rbtree_insert_color node);;
      on_list (hev_list_add_tail node);;
      u ← gets use;
      mx ← gets max;
      idx ←
        (if u <? mx then modify (set_use (u + 1));; mret idx
         else
           nf ← on_list hev_list_first;
           d ← get_data nf;
           on_tree (hev_rbtree_erase nf);;
           on_list (hev_list_del nf);;
           hev_mapped_dns_node_free nf;;
           mret (nidx d));
      set_record idx node;;
      d ← get_data node;
      set_data node (NodeData (nname d) idx);;
      mret idx
  end.

(** ** Lookup by address *)

(** [None] is NULL. *)
Definition hev_mapped_dns_lookup (ip : Z) : M dns (option bytes) :=
  msk ← gets mask;
  let idx := Z.land ip (Z.lnot msk) in
  mx ← gets max;
  if mx <=? idx then mret None else
  node ← get_record idx;
  if negb (truthy node) then mret None else
  on_list (hev_list_del node);;
  on_list (hev_list_add_tail node);;
  d ← get_data node;
  mret (Some (nname d)).

(** ** Destruction: every node on the list is freed. *)

Fixpoint destruct_loop (fuel : nat) (n : Z) : M dns unit :=
  match fuel with
  | O => stuck
  | S fuel =>
      if truthy n then
        n' ← on_list (hev_list_node_next n);
        hev_mapped_dns_node_free n;;
        destruct_loop fuel n'
      else mret tt
  end.

Definition hev_mapped_dns_destruct : M dns unit :=
  n ← on_list hev_list_first;
  fuel ← gets (λ s, S (size (ddata s)));
  destruct_loop fuel n.

(** ** Requests

    The state of [hev_mapped_dns_handle]: the server, the request and the
    response buffers. The header fields are read and written in host order
    (little-endian), the rest of a message byte by byte. *)

Record exchange := Exchange { server : dns; rb : bytes; sb : bytes }.

Definition on_server {A} (m : M dns A) : M exchange A :=
  zoom server (λ d s, Exchange d (rb s) (sb s)) m.

Definition rd_q (i : Z) : M exchange Z := λ s,
  match zget (rb s) i with Some b => Val b s | None => Stuck end.
Definition rd_s (i : Z) : M exchange Z := λ s,
  match zget (sb s) i with Some b => Val b s | None => Stuck end.
Definition wr_q (i v : Z) : M exchange unit := λ s,
  match zset (rb s) i v with Some l => Val tt (Exchange (server s) l (sb s)) | None => Stuck end.
Definition wr_s (i v : Z) : M exchange unit := λ s,
  match zset (sb s) i v with Some l => Val tt (Exchange (server s) (rb s) l) | None => Stuck end.

(** The 16-bit fields of [DNSHdr], which begin at the offsets 0, 2, ..., 10. *)
Definition ld_q (off : Z) : M exchange Z :=
  a ← rd_q off; b ← rd_q (off + 1); mret (Z.lor a (Z.shiftl b 8)).
Definition ld_s (off : Z) : M exchange Z :=
  a ← rd_s off; b ← rd_s (off + 1); mret (Z.lor a (Z.shiftl b 8)).
Definition st_q (off v : Z) : M exchange unit :=
  wr_q off (u8 v);; wr_q (off + 1) (u8 (Z.shiftr v 8)).
Definition st_s (off v : Z) : M exchange unit :=
  wr_s off (u8 v);; wr_s (off + 1) (u8 (Z.shiftr v 8)).

Definition off_fl : Z := 2.
Definition off_qd : Z := 4.
Definition off_an : Z := 6.
Definition off_ns : Z := 8.
Definition off_ar : Z := 10.
Definition sizeof_DNSHdr : Z := 12.

Definition read_u16 (p : Z) : M exchange Z :=
  a ← rd_q p; b ← rd_q (p + 1); mret (Z.lor (u16 (Z.shiftl a 8)) b).
Definition write_u16 (p v : Z) : M exchange unit :=
  let v := u16 v in
  wr_s p (u8 (Z.shiftr v 8));; wr_s (p + 1) (u8 v).
Definition write_u32 (p v : Z) : M exchange unit :=
  let v := u32 v in
  wr_s p (u8 (Z.shiftr v 24));; wr_s (p + 1) (u8 (Z.shiftr v 16));;
  wr_s (p + 2) (u8 (Z.shiftr v 8));; wr_s (p + 3) (u8 v).

(** [memcpy (res, req, n)] with the length as a [size_t]. *)
Definition copy_request (n : Z) : M exchange unit := λ s,
  let n := n mod 18446744073709551616 in
  if (n <=? zlen (rb s)) && (n <=? zlen (sb s)) then
    Val tt (Exchange (server s) (rb s) (take (Z.to_nat n) (rb s) ++ drop (Z.to_nat n) (sb s)))
  else Stuck.

(** The NUL-terminated string at [p]. *)
Definition string_at (p : Z) : M exchange bytes := λ s,
  match cstr (drop (Z.to_nat p) (rb s)) with Some n => Val n s | None => Stuck end.

(** [None] is [return -1]. The labels of a name are walked and every length
    byte becomes a dot. *)
Fixpoint walk_labels (fuel : nat) (qlen off : Z) : M exchange (option Z) :=
  match fuel with
  | O => stuck
  | S fuel =>
      n ← rd_q off;
      if negb (truthy n) then mret (Some off) else
      let poff := off in
      let off := off + (1 + n) in
      if qlen <=? off then mret None else
      wr_q poff 46;;
      walk_labels fuel qlen off
  end.

(** The loop over the questions. [acc] holds [ipo] and [ips], arrays of 32. *)
Fixpoint questions (n : nat) (qlen off : Z) (acc : list (Z * Z)) : M exchange (option (Z * list (Z * Z))) :=
  match n with
  | O => mret (Some (off, acc))
  | S n =>
      if 32 <=? zlen acc then stuck else
      let ipo := off in
      if qlen <=? off then mret None else
      r ← walk_labels (S (Z.to_nat qlen)) qlen off;
      match r with
      | None => mret None
      | Some off =>
          let off := off + 1 in
          if qlen <=? off + 3 then mret None else
          t ← read_u16 (off + 0);
          c ← (if t =? 1 then read_u16 (off + 2) else mret 0);
          acc ←
            (if (t =? 1) && (c =? 1) then
               name ← string_at (ipo + 1);
               idx ← on_server (hev_mapped_dns_find name);
               nt ← gets (λ s, net (server s));
               mret (if 0 <=? idx then acc ++ [(ipo, Z.lor nt idx)] else acc)
             else mret acc);
          questions n qlen (off + 4) acc
      end
  end.

Fixpoint answers (slen off : Z) (acc : list (Z * Z)) : M exchange (option Z) :=
  match acc with
  | [] => mret (Some off)
  | (ipo, ip) :: acc =>
      if slen <=? off + 15 then mret None else
      write_u16 (off + 0) (Z.lor 0xc000 ipo);;
      write_u16 (off + 2) 1;;
      write_u16 (off + 4) 1;;
      write_u32 (off + 6) 1;;
      write_u16 (off + 10) 4;;
      write_u32 (off + 12) ip;;
      answers slen (off + 16) acc
  end.

Definition hev_mapped_dns_handle (qlen slen : Z) : M exchange Z :=
  if slen <? qlen then mret (-1) else
  if qlen mod 18446744073709551616 <? sizeof_DNSHdr then mret (-1) else
  copy_request qlen;;
  qd ← ld_q off_qd; st_q off_qd (ntohs qd);;
  fl ← ld_s off_fl; st_s off_fl (ntohs fl);;
  st_s off_ns 0;;
  st_s off_an 0;;
  st_s off_ar 0;;
  qd ← ld_q off_qd;
  if 32 <? qd then mret (-1) else
  q ← questions (Z.to_nat qd) qlen sizeof_DNSHdr [];
  match q with
  | None => mret (-1)
  | Some (off, acc) =>
      a ← answers slen off acc;
      match a with
      | None => mret (-1)
      | Some off =>
          fl ← ld_s off_fl;
          st_s off_fl (htons (Z.lor (Z.lor fl 0x8000) (Z.shiftr (Z.land fl 0x100) 1)));;
          st_s off_an (htons (zlen acc));;
          mret off
      end
  end.
