(* ===== verification/LRU.v ===== *)
(** * LRU: the name cache of MappedDNS is a least-recently-used map

    The abstract state is the list of the pairs (name, index) of the cache,
    least recently used first. [dns_rep] relates it to the intrusive list, the
    intrusive tree, the record array and the nodes; finding a name and looking
    up an index refine the operations on the abstract list. *)
From stdpp Require Import sorting.
From S2P Require Import Prelude Bytes HevList HevRBTree RBRep RBTree MappedDNS.

Abbreviation lru := (list (bytes * Z)).

(** ** The abstract cache *)

Definition spec_get (name : bytes) (l : lru) : option Z :=
  snd <$> List.find (λ p, bool_decide (p.1 = name)) l.

(** The entry that satisfies [P] becomes the most recently used one. *)
Definition touch (P : bytes * Z → bool) (l : lru) : lru :=
  filter (λ p, P p = false) l ++ filter (λ p, P p = true) l.

Definition has_name (name : bytes) (p : bytes * Z) : bool := bool_decide (p.1 = name).
Definition has_idx (idx : Z) (p : bytes * Z) : bool := bool_decide (p.2 = idx).

(** [ok] is whether memory for a new node is available. *)
Definition spec_find (max : Z) (ok : bool) (name : bytes) (l : lru) : Z * lru :=
  match spec_get name l with
  | Some idx => (idx, touch (has_name name) l)
  | None =>
      if negb ok then (-1, l) else
      if zlen l <? max then (zlen l, l ++ [(name, zlen l)])
      else match l with
           | (_, idx) :: l' => (idx, l' ++ [(name, idx)])
           | [] => (-1, l)
           end
  end.

Definition spec_lookup (idx : Z) (l : lru) : option bytes * lru :=
  (fst <$> List.find (has_idx idx) l, touch (has_idx idx) l).

(** ** Representation *)

Definition name_of (m : gmap Z nodedata) (a : Z) : bytes := default [] (nname <$> m !! a).

Definition before (m : gmap Z nodedata) (a b : Z) : Prop := 0 < strcmp (name_of m a) (name_of m b).

Record dns_rep (s : dns) (l : lru) (xs ts : list Z) : Prop := {
  r_max : max s = zlen (records s);
  r_use : use s = zlen l;
  r_le : zlen l ≤ max s;
  r_data : Forall2 (λ a p, ddata s !! a = Some (NodeData p.1 p.2)) xs l;
  r_list : list_rep (dlist s) xs;
  r_tree : rbtree (dtree s) ts;
  r_perm : ts ≡ₚ xs;
  r_sorted : StronglySorted (before (ddata s)) ts;
  r_names : Forall (λ p, is_str p.1) l;
  r_domd : dom (ddata s) = list_to_set xs;
  r_domt : dom (nodes (dtree s)) = list_to_set xs;
  r_doml : dom (lnodes (dlist s)) = list_to_set xs;
  r_idx : l.*2 ≡ₚ seqZ 0 (zlen l);
  r_rec : ∀ a p, ddata s !! a = Some p → zget (records s) (nidx p) = Some a;
  r_back : ∀ i a, zget (records s) i = Some a → a ≠ 0 → ∃ n, ddata s !! a = Some (NodeData n i)
}.

Definition dns_inv (s : dns) (l : lru) : Prop := ∃ xs ts, dns_rep s l xs ts.

(** ** The search *)

Lemma zoom_val {S T A} (get : S → T) (set : T → S → S) (m : M T A) s a t :
  m (get s) = Val a t → zoom get set m s = Val a (set t s).
Proof. intros H. unfold zoom. by rewrite H. Qed.

Lemma set_dtree_id s : set_dtree (dtree s) s = s.
Proof. by destruct s. Qed.
Lemma set_dlist_id s : set_dlist (dlist s) s = s.
Proof. by destruct s. Qed.

Definition named (s : dns) (xs : list Z) : Prop :=
  ∀ a, a ∈ xs → ∃ d, ddata s !! a = Some d ∧ is_str (nname d).

Definition greater (s : dns) (name : bytes) (xs : list Z) : Prop :=
  ∀ a, a ∈ xs → 0 < strcmp (name_of (ddata s) a) name.
Definition smaller (s : dns) (name : bytes) (xs : list Z) : Prop :=
  ∀ a, a ∈ xs → strcmp (name_of (ddata s) a) name < 0.

Lemma name_of_Some m a d : m !! a = Some d → name_of m a = nname d.
Proof. unfold name_of. by intros ->. Qed.

Lemma find_loop_spec s name t us vs p l fuel :
  is_str name → at_tree (dtree s) us t vs p l → (length (inorder t) < fuel)%nat →
  StronglySorted (before (ddata s)) (us ++ inorder t ++ vs) →
  named s (inorder t) → greater s name us → smaller s name vs →
  (∃ a, a ∈ inorder t ∧ name_of (ddata s) a = name ∧ find_loop fuel name p l s = Val (Hit a) s) ∨
  (∃ us' vs' p' l', find_loop fuel name p l s = Val (Miss p' l') s ∧
     at_tree (dtree s) us' E vs' p' l' ∧ us ++ inorder t ++ vs = us' ++ vs' ∧
     greater s name us' ∧ smaller s name vs').
Proof.
  intros Hname. revert us vs p l fuel.
  induction t as [|c tl IHl a tr IHr]; intros us vs p l fuel Hat Hf Hs Hn Hgr Hsm;
    (destruct fuel as [|fuel]; [lia|]); cbn [find_loop].
  - right. exists us, vs, p, l. split_and!; try done.
    erewrite bind_val; [|eapply zoom_val, at_tree_deref; exact Hat]. by rewrite set_dtree_id.
  - erewrite bind_val; [|eapply zoom_val, at_tree_deref; exact Hat]. rewrite set_dtree_id.
    assert (a ≠ 0) as Ha0.
    { eapply rbtree_node; [by eapply at_tree_rbtree|]. set_solver. }
    cbn [addr]. rewrite truthy_ne by done. cbn [negb].
    destruct (Hn a) as (d & Hd & Hstr); [set_solver|].
    erewrite bind_val by (unfold get_data; by rewrite Hd). cbv zeta.
    cbn [inorder] in *. rewrite length_app in Hf. cbn in Hf.
    pose proof (name_of_Some _ _ _ Hd) as Hna.
    assert (∀ b, b ∈ inorder tl → before (ddata s) b a) as Hbl.
    { apply StronglySorted_app_1_r, StronglySorted_app_1_l in Hs. intros b Hb.
      eapply StronglySorted_app_1_elem_of; [exact Hs|done|set_solver]. }
    assert (∀ b, b ∈ inorder tr → before (ddata s) a b) as Hbr.
    { apply StronglySorted_app_1_r, StronglySorted_app_1_l, StronglySorted_app_1_r in Hs.
      intros b Hb. apply StronglySorted_cons in Hs as [Hs _]. by eapply Forall_forall in Hs. }
    assert (∀ b, b ∈ inorder tl ++ inorder tr → is_str (name_of (ddata s) b)) as Hst.
    { intros b Hb. destruct (Hn b) as (d' & Hd' & ?); [set_solver|]. by rewrite (name_of_Some _ _ _ Hd'). }
    unfold before in *. rewrite Hna in *.
    destruct (Z.ltb_spec (strcmp (nname d) name) 0) as [Hlt|Hge]; [|destruct (Z.ltb_spec 0 (strcmp (nname d) name))].
    + destruct (IHl us (a :: inorder tr ++ vs) a (LinkLeft a) fuel) as [(b & Hb & Hbn & He)|H].
      * by eapply at_tree_left.
      * lia.
      * by rewrite <- app_assoc in Hs.
      * intros b Hb. apply Hn. set_solver.
      * done.
      * intros b [->|[Hb|Hb]%elem_of_app]%elem_of_cons; [by rewrite Hna| |by apply Hsm].
        eapply (strcmp_trans _ (nname d)); [apply Hst; set_solver|done|done| |done].
        specialize (Hbr _ Hb). rewrite strcmp_antisym. lia.
      * left. exists b. split_and!; try done. set_solver.
      * right. rewrite <- app_assoc. exact H.
    + destruct (IHr (us ++ inorder tl ++ [a]) vs a (LinkRight a) fuel) as [(b & Hb & Hbn & He)|H'].
      * by eapply at_tree_right.
      * lia.
      * by rewrite <- !app_assoc in *.
      * intros b Hb. apply Hn. set_solver.
      * intros b Hb. apply elem_of_app in Hb as [Hb|[Hb| ->%list_elem_of_singleton]%elem_of_app];
          [by apply Hgr| |by rewrite Hna].
        specialize (Hbl _ Hb). rewrite strcmp_antisym.
        enough (strcmp name (name_of (ddata s) b) < 0) by lia.
        eapply (strcmp_trans _ (nname d)); [done|done|apply Hst; set_solver| |];
          rewrite strcmp_antisym; lia.
      * done.
      * left. exists b. split_and!; try done. set_solver.
      * right. destruct H' as (us' & vs' & p' & l' & ? & ? & Heq & ? & ?). exists us', vs', p', l'.
        split_and!; try done. rewrite <- Heq. cbn [inorder]. by repeat (rewrite <- ?app_assoc; cbn [app]).
    + left. exists a. split_and!; [set_solver| |done]. apply strcmp_eq; [by rewrite Hna|done|rewrite Hna; lia].
Qed.
(** ** Lemmas on the representation *)

Lemma Forall2_frame (m m' : gmap Z nodedata) xs (l : lru) :
  Forall2 (λ a p, m !! a = Some (NodeData p.1 p.2)) xs l →
  (∀ x, x ∈ xs → m' !! x = m !! x) →
  Forall2 (λ a p, m' !! a = Some (NodeData p.1 p.2)) xs l.
Proof.
  induction 1 as [|a p xs l Ha _ IH]; intros Hm; constructor.
  - rewrite Hm by set_solver. done.
  - apply IH. set_solver.
Qed.

Lemma sorted_frame (m m' : gmap Z nodedata) ts :
  StronglySorted (before m) ts → (∀ x, x ∈ ts → name_of m' x = name_of m x) →
  StronglySorted (before m') ts.
Proof.
  induction 1 as [|t ts Hs IH Ht]; intros Hm; constructor.
  - apply IH. set_solver.
  - rewrite Forall_forall in *. intros x Hx. unfold before. rewrite !Hm by set_solver. by apply Ht.
Qed.

Lemma touch_split (P : bytes * Z → bool) l p k :
  P p = true → (∀ q, q ∈ l ++ k → P q = false) → touch P (l ++ p :: k) = l ++ k ++ [p].
Proof.
  intros Hp Hq. unfold touch.
  assert (∀ b, (∀ q, q ∈ b → P q = false) →
    filter (λ p, P p = false) b = b ∧ filter (λ p, P p = true) b = []) as Hf.
  { clear. intros b. induction b as [|q b IH]; intros H; [done|].
    rewrite !filter_cons. assert (P q = false) as -> by (apply H; set_solver).
    destruct IH as [-> ->]; [set_solver|]. done. }
  rewrite !filter_app, !filter_cons, Hp. cbn.
  destruct (Hf l) as [-> ->]; [set_solver|]. destruct (Hf k) as [-> ->]; [set_solver|].
  by rewrite <- app_assoc.
Qed.

Lemma Forall2_focus {A B} (R : A → B → Prop) xs a ys l :
  Forall2 R (xs ++ a :: ys) l →
  ∃ l1 p l2, l = l1 ++ p :: l2 ∧ Forall2 R xs l1 ∧ R a p ∧ Forall2 R ys l2.
Proof.
  intros H. apply Forall2_app_inv_l in H as (l1 & l2' & H1 & H2 & ->).
  inversion H2; subst. eauto 10.
Qed.

Lemma sorted_distinct m ts a b :
  StronglySorted (before m) ts → a ∈ ts → b ∈ ts → a ≠ b → name_of m a ≠ name_of m b.
Proof.
  intros Hs Ha Hb Hne Heq.
  assert (∀ x y, before m x y → name_of m x = name_of m y → False) as Hirr.
  { intros x y Hxy Hn. unfold before in Hxy. rewrite Hn, strcmp_refl in Hxy. lia. }
  induction Hs as [|t ts Hs IH Ht]; [set_solver|]. rewrite Forall_forall in Ht.
  apply elem_of_cons in Ha as [->|Ha], Hb as [->|Hb]; eauto.
Qed.

Lemma seqZ_NoDup m n : NoDup (seqZ m n).
Proof. apply NoDup_seqZ. Qed.

(** The entry of a node: its places on the list and in the abstract cache. *)
Lemma rep_entry s l xs ts a d :
  dns_rep s l xs ts → ddata s !! a = Some d →
  ∃ us vs lu lv, xs = us ++ a :: vs ∧ l = lu ++ (nname d, nidx d) :: lv ∧
    Forall2 (λ a p, ddata s !! a = Some (NodeData p.1 p.2)) us lu ∧
    Forall2 (λ a p, ddata s !! a = Some (NodeData p.1 p.2)) vs lv ∧
    (∀ q, q ∈ lu ++ lv → q.1 ≠ nname d ∧ q.2 ≠ nidx d).
Proof.
  intros Hr Ha.
  assert (a ∈ xs) as Hx.
  { apply elem_of_dom_2 in Ha. rewrite (r_domd _ _ _ _ Hr) in Ha. set_solver. }
  apply list_elem_of_split in Hx as (us & vs & ->).
  pose proof (r_data _ _ _ _ Hr) as Hf. pose proof Hf as Hf'.
  apply Forall2_focus in Hf as (lu & p & lv & -> & Hu & Hp & Hv).
  assert (p = (nname d, nidx d)) as ->.
  { rewrite Hp in Ha. simplify_eq. by destruct p. }
  exists us, vs, lu, lv. split_and!; try done. intros q Hq. split.
  - assert (∃ b, b ∈ us ++ vs ∧ ddata s !! b = Some (NodeData q.1 q.2)) as (b & Hb & Hbd).
    { assert (Forall2 (λ a p, ddata s !! a = Some (NodeData p.1 p.2)) (us ++ vs) (lu ++ lv)) as HF
        by (by apply Forall2_app).
      apply list_elem_of_lookup in Hq as [i Hi].
      destruct (Forall2_lookup_r _ _ _ _ _ HF Hi) as (b & Hb & ?).
      exists b. split; [by eapply list_elem_of_lookup_2|done]. }
    destruct (r_list _ _ _ _ Hr) as (_ & _ & _ & Hnd & _).
    assert (b ≠ a) as Hba by (nodup_sat; set_solver).
    apply (sorted_distinct (ddata s) ts b a) in Hba.
    + by rewrite (name_of_Some _ _ _ Hbd), (name_of_Some _ _ _ Ha) in Hba.
    + apply (r_sorted _ _ _ _ Hr).
    + rewrite (r_perm _ _ _ _ Hr). set_solver.
    + rewrite (r_perm _ _ _ _ Hr). set_solver.
  - assert (NoDup ((lu ++ (nname d, nidx d) :: lv).*2)) as Hnd.
    { rewrite (r_idx _ _ _ _ Hr). apply NoDup_seqZ. }
    rewrite fmap_app, fmap_cons in Hnd. cbn in Hnd. apply elem_of_app in Hq as [Hq|Hq];
      apply (list_elem_of_fmap_2 snd) in Hq; nodup_sat; intros He; rewrite He in Hq; done.
Qed.

Lemma rep_named s l xs ts : dns_rep s l xs ts → named s ts.
Proof.
  intros Hr a Ha. rewrite (r_perm _ _ _ _ Hr) in Ha.
  assert (a ∈ dom (ddata s)) as [d Hd]%elem_of_dom by (rewrite (r_domd _ _ _ _ Hr); set_solver).
  exists d. split; [done|]. destruct (rep_entry _ _ _ _ _ _ Hr Hd) as (us & vs & lu & lv & _ & -> & _).
  pose proof (r_names _ _ _ _ Hr) as Hn. rewrite Forall_forall in Hn.
  apply (Hn (nname d, nidx d)). set_solver.
Qed.

(** Using a node moves it to the end of the list and of the abstract cache. *)
Lemma rep_touch s l xs ts a d (P : bytes * Z → bool) :
  dns_rep s l xs ts → ddata s !! a = Some d →
  P (nname d, nidx d) = true →
  (∀ q, q.1 ≠ nname d → q.2 ≠ nidx d → P q = false) →
  ∃ s1 s2, on_list (hev_list_del a) s = Val tt s1 ∧ on_list (hev_list_add_tail a) s1 = Val tt s2 ∧
    ddata s2 = ddata s ∧ dns_inv s2 (touch P l).
Proof.
  intros Hr Ha HP Hq.
  destruct (rep_entry _ _ _ _ _ _ Hr Ha) as (us & vs & lu & lv & -> & -> & Hu & Hv & Hne).
  destruct (list_touch_spec (dlist s) us a vs) as (m1 & m2 & He1 & He2 & Hl & Hd); [apply Hr|].
  exists (set_dlist m1 s), (set_dlist m2 s). split_and!.
  - by apply zoom_val.
  - unfold on_list, zoom. cbn [dlist set_dlist]. by rewrite He2.
  - done.
  - exists (us ++ vs ++ [a]), ts. rewrite touch_split; [|done|intros q Hq'; by apply Hq; apply Hne].
    assert (zlen (lu ++ lv ++ [(nname d, nidx d)]) = zlen (lu ++ (nname d, nidx d) :: lv)) as Hlen.
    { rewrite !zlen_app, !zlen_cons. change (zlen []) with 0. lia. }
    assert (us ++ vs ++ [a] ≡ₚ us ++ a :: vs) as Hp by solve_Permutation.
    assert (lu ++ lv ++ [(nname d, nidx d)] ≡ₚ lu ++ (nname d, nidx d) :: lv) as Hpl by solve_Permutation.
    destruct Hr as [Hmax Huse Hle Hdat Hli Htr Hpm Hso Hnm Hdd Hdt Hdl Hix Hrc Hbk].
    constructor; cbn; try done.
    + congruence.
    + by rewrite Hlen.
    + apply Forall2_app; [done|]. apply Forall2_app; [done|]. constructor; [|done]. cbn. rewrite Ha.
      by destruct d.
    + by rewrite Hp.
    + by rewrite Hpl.
    + rewrite Hdd. apply leibniz_equiv. set_solver.
    + rewrite Hdt. apply leibniz_equiv. set_solver.
    + rewrite Hd, Hdl. apply leibniz_equiv. set_solver.
    + rewrite Hlen, <- Hix. by apply fmap_Permutation.
Qed.
Lemma find_split {A} (P : A → bool) l p k :
  P p = true → (∀ q, q ∈ l → P q = false) → List.find P (l ++ p :: k) = Some p.
Proof.
  intros Hp Hl. induction l as [|q l IH]; cbn; [by rewrite Hp|].
  rewrite Hl by set_solver. apply IH. set_solver.
Qed.

Lemma find_none_iff {A} (P : A → bool) l : (∀ q, q ∈ l → P q = false) → List.find P l = None.
Proof.
  intros Hl. induction l as [|q l IH]; cbn; [done|]. rewrite Hl by set_solver. apply IH. set_solver.
Qed.

Lemma has_name_true p name : p.1 = name → has_name name p = true.
Proof. intros. by apply bool_decide_eq_true. Qed.
Lemma has_name_false p name : p.1 ≠ name → has_name name p = false.
Proof. intros. by apply bool_decide_eq_false. Qed.
Lemma has_idx_true p idx : p.2 = idx → has_idx idx p = true.
Proof. intros. by apply bool_decide_eq_true. Qed.
Lemma has_idx_false p idx : p.2 ≠ idx → has_idx idx p = false.
Proof. intros. by apply bool_decide_eq_false. Qed.

Lemma rep_spec_get s l xs ts a d :
  dns_rep s l xs ts → ddata s !! a = Some d → spec_get (nname d) l = Some (nidx d).
Proof.
  intros Hr Ha. destruct (rep_entry _ _ _ _ _ _ Hr Ha) as (us & vs & lu & lv & _ & -> & _ & _ & Hne).
  unfold spec_get. rewrite (find_split _ _ (nname d, nidx d)); [done|by apply bool_decide_eq_true|].
  intros q Hq. apply bool_decide_eq_false. apply Hne. set_solver.
Qed.

(** Every entry of the abstract cache has a node. *)
Lemma rep_node s l xs ts p :
  dns_rep s l xs ts → p ∈ l → ∃ a, a ∈ ts ∧ ddata s !! a = Some (NodeData p.1 p.2).
Proof.
  intros Hr Hp. apply list_elem_of_lookup in Hp as [i Hi].
  destruct (Forall2_lookup_r _ _ _ _ _ (r_data _ _ _ _ Hr) Hi) as (a & Ha & Had).
  exists a. split; [|done]. rewrite (r_perm _ _ _ _ Hr). by eapply list_elem_of_lookup_2.
Qed.

(** The search of a name in the cache. *)
Lemma rep_search s l xs ts name :
  dns_rep s l xs ts → is_str name →
  (∃ a d, ddata s !! a = Some d ∧ nname d = name ∧
     find_loop (S (size (nodes (dtree s)))) name 0 LinkRoot s = Val (Hit a) s) ∨
  (spec_get name l = None ∧ ∃ us vs p lk,
     find_loop (S (size (nodes (dtree s)))) name 0 LinkRoot s = Val (Miss p lk) s ∧
     at_tree (dtree s) us E vs p lk ∧ ts = us ++ vs ∧ greater s name us ∧ smaller s name vs).
Proof.
  intros Hr Hname. pose proof (r_tree _ _ _ _ Hr) as Ht. pose proof (rbtree_size _ _ Ht) as Hsz.
  pose proof (rep_named _ _ _ _ Hr) as Hnm. pose proof (r_sorted _ _ _ _ Hr) as Hso.
  destruct (at_tree_root _ _ Ht) as (t & <- & Hat).
  destruct (find_loop_spec s name t [] [] 0 LinkRoot (S (size (nodes (dtree s)))))
    as [(a & Ha & Hn & He)|(us & vs & p & lk & He & Hat' & Heq & Hgr & Hsm)]; try done.
  - lia.
  - cbn. by rewrite app_nil_r.
  - intros ? Hx. by apply elem_of_nil in Hx.
  - intros ? Hx. by apply elem_of_nil in Hx.
  - left. destruct (Hnm a Ha) as (d & Hd & _). exists a, d. split_and!; try done.
    by rewrite <- (name_of_Some _ _ _ Hd).
  - right. cbn in Heq. rewrite app_nil_r in Heq. split; [|by exists us, vs, p, lk].
    unfold spec_get. rewrite find_none_iff; [done|]. intros q Hq. apply bool_decide_eq_false. intros <-.
    destruct (rep_node _ _ _ _ _ Hr Hq) as (a & Ha & Had). rewrite Heq in Ha.
    apply elem_of_app in Ha as [Ha|Ha]; [specialize (Hgr _ Ha)|specialize (Hsm _ Ha)];
      rewrite (name_of_Some _ _ _ Had) in *; cbn in *; rewrite strcmp_refl in *; lia.
Qed.

(** ** Allocation *)

Definition with_node (a : Z) (d : nodedata) (h : list (Z * bool)) (s : dns) : dns :=
  set_heap h
    (set_ddata (<[a := d]> (ddata s))
    (set_dlist (ListMem (head (dlist s)) (tail (dlist s)) (<[a := LNode 0 0]> (lnodes (dlist s))))
    (set_dtree (RBMem (root (dtree s)) (<[a := RBNode 0 0 0]> (nodes (dtree s)))) s))).

(** The next call of the allocator will provide a node with a name. *)
Definition can_alloc (s : dns) : bool :=
  match heap s with
  | (p, dup) :: _ => dup && bool_decide (p ≠ 0 ∧ aligned p ∧ ddata s !! p = None)
  | [] => false
  end.

(** It will provide a node, but [strdup] no name for it. *)
Definition strdup_fails (s : dns) : bool :=
  match heap s with
  | (p, dup) :: _ => negb dup && bool_decide (p ≠ 0 ∧ aligned p ∧ ddata s !! p = None)
  | [] => false
  end.

(** No [strdup] to come fails. *)
Definition strdup_ok (h : list (Z * bool)) : Prop := Forall (λ e, e.2 = true) h.

#[export] Instance strdup_ok_dec h : Decision (strdup_ok h).
Proof. unfold strdup_ok. apply _. Defined.

Definition next_heap (s : dns) : list (Z * bool) := List.tl (heap s).

(** Evaluation of nested updates of the state. *)
Ltac dns_norm :=
  cbv [with_node set_use set_dlist set_dtree set_records set_ddata set_heap
       use max net mask dlist dtree records ddata heap nname nidx].

Lemma rep_dom_eq s l xs ts a :
  dns_rep s l xs ts → ddata s !! a = None → nodes (dtree s) !! a = None ∧ lnodes (dlist s) !! a = None.
Proof.
  intros Hr Ha. apply not_elem_of_dom in Ha. rewrite <- !not_elem_of_dom.
  by rewrite (r_domt _ _ _ _ Hr), (r_doml _ _ _ _ Hr), <- (r_domd _ _ _ _ Hr).
Qed.

Lemma node_alloc_spec s l xs ts name :
  dns_rep s l xs ts →
  if can_alloc s then
    ∃ a, hev_mapped_dns_node_alloc name s = Val a (with_node a (NodeData name 0) (next_heap s) s) ∧
      a ≠ 0 ∧ aligned a ∧ ddata s !! a = None
  else if strdup_fails s then hev_mapped_dns_node_alloc name s = Stuck
  else hev_mapped_dns_node_alloc name s = Val 0 (set_heap (next_heap s) s).
Proof.
  intros Hr. unfold can_alloc, strdup_fails, next_heap, hev_mapped_dns_node_alloc, hev_malloc0.
  destruct (heap s) as [|[p dup] h] eqn:Hh; cbn [List.tl].
  { mstep. rewrite Hh. cbn. f_equal. destruct s; cbn in *; by subst. }
  case_bool_decide as Hp; destruct dup; cbn [andb negb].
  - destruct Hp as (Hp0 & Hal & Hf). exists p. split_and!; try done.
    mstep. rewrite Hh. rewrite bool_decide_eq_true_2 by done. cbn beta iota.
    rewrite truthy_ne by done. cbn [negb]. unfold get_data. cbn [ddata set_ddata].
    rewrite lookup_insert_eq. unfold set_data, modify. destruct s as [u mx nt mk li tr rc dd hp]. dns_norm. cbn. by rewrite insert_insert_eq.
  - destruct Hp as (Hp0 & Hal & Hf).
    mstep. rewrite Hh. rewrite bool_decide_eq_true_2 by done. cbn beta iota.
    unfold free. by rewrite truthy_ne by done.
  - mstep. rewrite Hh, bool_decide_eq_false_2 by done. done.
  - mstep. rewrite Hh, bool_decide_eq_false_2 by done. done.
Qed.
Lemma bind_inv_val {S A B} (m : M S A) (f : A → M S B) s b s' :
  (m ≫= f) s = Val b s' → ∃ a s1, m s = Val a s1 ∧ f a s1 = Val b s'.
Proof. unfold mbind, M_bind. destruct (m s); eauto; done. Qed.

Lemma dom_insert_snoc {A} (m : gmap Z A) a x (xs : list Z) :
  dom m = list_to_set xs → dom (<[a := x]> m) = (list_to_set (xs ++ [a]) : gset Z).
Proof. intros H. rewrite dom_insert_L, H. apply leibniz_equiv. set_solver. Qed.

(** The new node is linked into the tree and becomes the last one of the list. *)
Lemma miss_link s l xs ts a d h us vs p lk :
  dns_rep s l xs ts → at_tree (dtree s) us E vs p lk → ts = us ++ vs →
  a ≠ 0 → aligned a → ddata s !! a = None →
  let s1 := with_node a d h s in
  ∃ tr1 tr2 li,
    on_tree (hev_rbtree_node_link a p lk) s1 = Val tt (set_dtree tr1 s1) ∧
    on_tree (hev_rbtree_insert_color a) (set_dtree tr1 s1) = Val tt (set_dtree tr2 s1) ∧
    on_list (hev_list_add_tail a) (set_dtree tr2 s1) = Val tt (set_dlist li (set_dtree tr2 s1)) ∧
    rbtree tr2 (us ++ a :: vs) ∧ list_rep li (xs ++ [a]) ∧
    dom (nodes tr2) = list_to_set (xs ++ [a]) ∧ dom (lnodes li) = list_to_set (xs ++ [a]).
Proof.
  intros Hr Hat Hts Ha0 Hal Ha s1.
  assert (a ∉ xs) as Hax.
  { intros Hin. apply not_elem_of_dom in Ha. rewrite (r_domd _ _ _ _ Hr) in Ha. set_solver. }
  assert (a ∉ us ++ vs) as Hat'.
  { rewrite <- Hts, (r_perm _ _ _ _ Hr). done. }
  destruct (insert_spec (dtree s1) us vs p lk a) as (tr2 & He & Ht2 & _ & Hd2); [| |done|done|done|].
  { apply (at_tree_frame (dtree s)); [done| |exact Hat]. intros x Hx. cbn. apply lookup_insert_ne. set_solver. }
  { cbn. apply elem_of_dom. rewrite lookup_insert_eq. by eexists. }
  apply bind_inv_val in He as ([] & tr1 & He1 & He2).
  destruct (hev_list_add_tail_spec (dlist s1) xs a (LNode 0 0)) as (li & He3 & Hl3 & Hd3); [| |done|done|].
  { apply (list_rep_frame (dlist s)); [done|done| |apply (r_list _ _ _ _ Hr)]. intros x Hx. cbn.
    apply lookup_insert_ne. set_solver. }
  { cbn. apply lookup_insert_eq. }
  exists tr1, tr2, li. split_and!; try done.
  - by apply zoom_val.
  - unfold on_tree, zoom. cbn [dtree set_dtree]. by rewrite He2.
  - unfold on_list, zoom. change (dlist (set_dtree tr2 s1)) with (dlist s1). by rewrite He3.
  - rewrite Hd2. cbn. apply dom_insert_snoc, Hr.
  - rewrite Hd3. cbn. apply dom_insert_snoc, Hr.
Qed.

Lemma name_of_insert_eq m a d : name_of (<[a := d]> m) a = nname d.
Proof. unfold name_of. by rewrite lookup_insert_eq. Qed.
Lemma name_of_insert_ne m a b d : a ≠ b → name_of (<[a := d]> m) b = name_of m b.
Proof. intros. unfold name_of. by rewrite lookup_insert_ne. Qed.

(** The order of the tree after the insertion of a name at the place found. *)
Lemma sorted_insert (m : gmap Z nodedata) us vs a d :
  StronglySorted (before m) (us ++ vs) → a ∉ us ++ vs →
  (∀ b, b ∈ us → 0 < strcmp (name_of m b) (nname d)) →
  (∀ b, b ∈ vs → strcmp (name_of m b) (nname d) < 0) →
  StronglySorted (before (<[a := d]> m)) (us ++ a :: vs).
Proof.
  intros Hs Ha Hu Hv. nodup_sat.
  assert (∀ x, x ∈ us ++ vs → name_of (<[a := d]> m) x = name_of m x) as Hn.
  { intros x Hx. apply name_of_insert_ne. set_solver. }
  apply (sorted_frame m (<[a := d]> m)) in Hs; [|done].
  apply StronglySorted_app in Hs as (Huv & Hsu & Hsv).
  apply StronglySorted_app. split_and!; [|done|].
  - intros x y Hx [->|Hy]%elem_of_cons; [|by apply Huv].
    unfold before. rewrite name_of_insert_eq, Hn by set_solver. by apply Hu.
  - apply StronglySorted_cons. split; [|done]. apply Forall_forall. intros x Hx.
    unfold before. rewrite name_of_insert_eq, Hn by set_solver. rewrite strcmp_antisym.
    specialize (Hv _ Hx). lia.
Qed.

(** The cache grows: the new node gets the next index. *)
Lemma rep_grow s l xs us vs a name h tr li :
  dns_rep s l xs (us ++ vs) → is_str name → greater s name us → smaller s name vs →
  a ≠ 0 → ddata s !! a = None → zlen l < max s →
  rbtree tr (us ++ a :: vs) → list_rep li (xs ++ [a]) →
  dom (nodes tr) = list_to_set (xs ++ [a]) → dom (lnodes li) = list_to_set (xs ++ [a]) →
  dns_rep (DNS (zlen l + 1) (max s) (net s) (mask s) li tr (<[Z.to_nat (zlen l) := a]> (records s))
             (<[a := NodeData name (zlen l)]> (ddata s)) h)
    (l ++ [(name, zlen l)]) (xs ++ [a]) (us ++ a :: vs).
Proof.
  intros [Hmax Huse Hle Hdat Hli Htr Hpm Hso Hnm Hdd Hdt Hdl Hix Hrc Hbk] Hname Hgr Hsm Ha0 Ha Hlt
    Ht' Hl' Hdt' Hdl'.
  pose proof (zlen_nonneg l) as Hl0.
  assert (a ∉ xs) as Hax.
  { intros Hin. apply not_elem_of_dom in Ha. rewrite Hdd in Ha. set_solver. }
  constructor; cbn; try done.
  - rewrite Hmax. unfold zlen. by rewrite length_insert.
  - by rewrite zlen_snoc.
  - rewrite zlen_snoc. lia.
  - apply Forall2_app.
    + eapply Forall2_frame; [exact Hdat|]. intros x Hx. apply lookup_insert_ne. set_solver.
    + constructor; [|done]. cbn. apply lookup_insert_eq.
  - rewrite <- Permutation_middle, Hpm. solve_Permutation.
  - apply sorted_insert; try done. by rewrite Hpm.
  - apply Forall_app. split; [done|]. by constructor.
  - by apply dom_insert_snoc.
  - rewrite zlen_snoc, fmap_app. cbn. rewrite Hix.
    rewrite (seqZ_app 0 (zlen l) 1) by lia. done.
  - intros b q Hb. destruct (decide (a = b)) as [<-|Hne].
    + rewrite lookup_insert_eq in Hb. simplify_eq. cbn. apply zget_insert_eq. lia.
    + rewrite lookup_insert_ne in Hb by done. rewrite zget_insert_ne; [by apply Hrc|lia|].
      intros Heq. assert (nidx q ∈ l.*2) as Hin.
      { assert (b ∈ xs) as Hbx by (apply elem_of_dom_2 in Hb; rewrite Hdd in Hb; set_solver).
        apply list_elem_of_lookup in Hbx as [i Hi].
        destruct (Forall2_lookup_l _ _ _ _ _ Hdat Hi) as (r & Hr & Hbr).
        rewrite Hb in Hbr. simplify_eq. cbn. apply list_elem_of_fmap_2. by eapply list_elem_of_lookup_2. }
      rewrite Hix, elem_of_seqZ in Hin. lia.
  - intros i b Hi Hb. destruct (decide (i = zlen l)) as [->|Hne].
    + rewrite zget_insert_eq in Hi by lia. simplify_eq. exists name. apply lookup_insert_eq.
    + rewrite zget_insert_ne in Hi by lia. destruct (Hbk _ _ Hi Hb) as [n Hn].
      exists n. rewrite lookup_insert_ne; [done|]. congruence.
Qed.

Lemma sorted_remove m A x B : StronglySorted (before m) (A ++ x :: B) → StronglySorted (before m) (A ++ B).
Proof.
  rewrite !StronglySorted_app, StronglySorted_cons. intros (H1 & H2 & _ & H3). split_and!; try done.
  intros y z Hy Hz. apply H1; [done|]. by right.
Qed.

Lemma dom_delete_cons {A} (m : gmap Z A) a (xs : list Z) :
  a ∉ xs → dom m = list_to_set (a :: xs) → dom (delete a m) = (list_to_set xs : gset Z).
Proof. intros Ha H. rewrite dom_delete_L, H. apply leibniz_equiv. set_solver. Qed.

(** The cache is full: the new node gets the index of the least recently used
    one, which is removed. *)
Lemma rep_evict s n0 i0 l x0 xs us vs a name h A B tr li :
  dns_rep s ((n0, i0) :: l) (x0 :: xs) (us ++ vs) →
  is_str name → greater s name us → smaller s name vs →
  a ≠ 0 → ddata s !! a = None →
  us ++ a :: vs = A ++ x0 :: B → rbtree tr (A ++ B) → list_rep li (xs ++ [a]) →
  dom (nodes tr) = list_to_set (xs ++ [a]) → dom (lnodes li) = list_to_set (xs ++ [a]) →
  dns_rep (DNS (use s) (max s) (net s) (mask s) li tr (<[Z.to_nat i0 := a]> (records s))
             (<[a := NodeData name i0]> (delete x0 (ddata s))) h)
    (l ++ [(name, i0)]) (xs ++ [a]) (A ++ B).
Proof.
  intros [Hmax Huse Hle Hdat Hli Htr Hpm Hso Hnm Hdd Hdt Hdl Hix Hrc Hbk] Hname Hgr Hsm Ha0 Ha Heq
    Ht' Hl' Hdt' Hdl'.
  assert (a ∉ x0 :: xs) as Hax.
  { intros Hin. apply not_elem_of_dom in Ha. rewrite Hdd in Ha. set_solver. }
  assert (zlen (l ++ [(name, i0)]) = zlen ((n0, i0) :: l)) as Hlen by (rewrite zlen_snoc, zlen_cons; lia).
  inversion Hdat as [|? ? ? ? Hx0 Hdat']; subst. cbn in Hx0.
  assert (NoDup (x0 :: xs)) as Hnd by apply Hli.
  assert (x0 ≠ a ∧ a ∉ xs ∧ x0 ∉ xs) as (Hxa & Hax' & Hx0') by (apply NoDup_cons in Hnd; set_solver).
  assert (A ++ B ≡ₚ xs ++ [a]) as HAB.
  { apply (Permutation_cons_inv (a := x0)). rewrite Permutation_middle, <- Heq, <- Permutation_middle, Hpm.
    solve_Permutation. }
  pose proof (Hrc _ _ Hx0) as Hr0. cbn in Hr0. pose proof (zget_Some_bound _ _ _ Hr0) as Hb0.
  assert (∀ b q, ddata s !! b = Some q → b ≠ x0 → nidx q ≠ i0) as Hinj.
  { intros b q Hb Hne Hi. apply Hrc in Hb. rewrite Hi, Hr0 in Hb. congruence. }
  constructor; cbn; try done.
  - rewrite Hmax. unfold zlen. by rewrite length_insert.
  - by rewrite Hlen.
  - by rewrite Hlen.
  - apply Forall2_app.
    + eapply Forall2_frame; [exact Hdat'|]. intros x Hx.
      rewrite lookup_insert_ne, lookup_delete_ne by set_solver. done.
    + constructor; [|done]. cbn. apply lookup_insert_eq.
  - apply (sorted_frame (<[a := NodeData name i0]> (ddata s))).
    + apply (sorted_remove _ A x0 B). rewrite <- Heq. apply sorted_insert; try done. by rewrite Hpm.
    + intros x Hx. rewrite HAB in Hx. unfold name_of. destruct (decide (x = a)) as [->|Hne].
      * by rewrite !lookup_insert_eq.
      * rewrite !lookup_insert_ne by done. rewrite lookup_delete_ne; [done|]. set_solver.
  - apply Forall_app. apply Forall_cons in Hnm as [_ Hnm]. split; [done|]. by constructor.
  - apply dom_insert_snoc. by apply dom_delete_cons.
  - rewrite Hlen, <- Hix, fmap_app, fmap_cons. cbn. solve_Permutation.
  - intros b q Hb. destruct (decide (a = b)) as [<-|Hne].
    + rewrite lookup_insert_eq in Hb. simplify_eq. cbn. by apply zget_insert_eq.
    + rewrite lookup_insert_ne in Hb by done. apply lookup_delete_Some in Hb as [Hbx Hb].
      rewrite zget_insert_ne; [by apply Hrc|lia|]. intros Hi. eapply Hinj; eauto.
  - intros i b Hi Hb. destruct (decide (i = i0)) as [->|Hne].
    + rewrite zget_insert_eq in Hi by done. simplify_eq. exists name. apply lookup_insert_eq.
    + rewrite zget_insert_ne in Hi by lia. destruct (Hbk _ _ Hi Hb) as [n Hn].
      exists n. rewrite lookup_insert_ne by congruence. rewrite lookup_delete_ne; [done|].
      intros <-. rewrite Hx0 in Hn. congruence.
Qed.
(** ** Refinement of the two lookups *)

Lemma find_hit s l name a d :
  dns_inv s l → ddata s !! a = Some d → nname d = name →
  ∃ s1 s2, on_list (hev_list_del a) s = Val tt s1 ∧ on_list (hev_list_add_tail a) s1 = Val tt s2 ∧
    ddata s2 = ddata s ∧ dns_inv s2 (touch (has_name name) l).
Proof.
  intros (xs & ts & Hr) Ha <-. eapply rep_touch; [done|done|by apply has_name_true|].
  intros q Hq _. by apply has_name_false.
Qed.

Definition same_config (s s' : dns) : Prop := max s' = max s ∧ net s' = net s ∧ mask s' = mask s.

Lemma on_list_config {A} (m : M listmem A) s a s' :
  on_list m s = Val a s' → same_config s s' ∧ heap s' = heap s.
Proof. unfold on_list, zoom. destruct (m (dlist s)); intros [= <- <-]. done. Qed.

(** The steps that evict the least recently used node. *)
Lemma evict_steps s1 tr2 li x0 d xs A B :
  let s2 := set_dlist li (set_dtree tr2 s1) in
  list_rep li (x0 :: xs) → ddata s1 !! x0 = Some d →
  rbtree tr2 (A ++ x0 :: B) → dom (nodes tr2) = list_to_set (x0 :: xs) → dom (lnodes li) = list_to_set (x0 :: xs) →
  ∃ tr li', rbtree tr (A ++ B) ∧ list_rep li' xs ∧
    dom (nodes tr) = list_to_set xs ∧ dom (lnodes li') = list_to_set xs ∧
    (nf ← on_list hev_list_first; d ← get_data nf; on_tree (hev_rbtree_erase nf);;
     on_list (hev_list_del nf);; hev_mapped_dns_node_free nf;; mret (nidx d)) s2 =
    Val (nidx d) (set_ddata (delete x0 (ddata s1)) (set_dlist li' (set_dtree tr s1))).
Proof.
  intros s2 Hl Hd Ht Hdt Hdl. pose proof Hl as (Hh & _ & _ & Hnd & _). cbn in Hh.
  apply NoDup_cons in Hnd as [Hx0 Hnd].
  destruct (erase_spec tr2 A x0 B Ht) as (tr & He & Htr & Hft & Hdt').
  destruct (hev_list_del_spec li [] x0 xs Hl) as (li' & He' & Hli' & Hdl').
  exists (RBMem (root tr) (delete x0 (nodes tr))), (ListMem (head li') (tail li') (delete x0 (lnodes li'))).
  split_and!.
  - apply (rbtree_frame tr); [done| |exact Htr]. intros x Hx. cbn. apply lookup_delete_ne.
    intros <-. pose proof (rbtree_nodup _ _ Ht) as Hnd'. nodup_sat. set_solver.
  - apply (list_rep_frame li'); [done|done| |exact Hli']. intros x Hx. cbn. apply lookup_delete_ne. set_solver.
  - cbn. apply dom_delete_cons; [done|]. by rewrite Hdt'.
  - cbn. apply dom_delete_cons; [done|]. by rewrite Hdl'.
  - erewrite bind_val; [|eapply (zoom_val _ _ _ _ x0); cbn; by rewrite <- Hh].
    erewrite bind_val; [|unfold get_data; cbn; by rewrite Hd].
    erewrite bind_val; [|eapply zoom_val; exact He].
    erewrite bind_val; [|eapply zoom_val; exact He'].
    erewrite bind_val; [|unfold hev_mapped_dns_node_free, hev_free; cbn; by rewrite Hd].
    done.
Qed.

Lemma get_data_val s a d : ddata s !! a = Some d → get_data a s = Val d s.
Proof. unfold get_data. by intros ->. Qed.

(** Recording the node under its index. *)
Lemma record_steps s a idx d :
  ddata s !! a = Some d → 0 <= idx < zlen (records s) →
  (set_record idx a;; d ← get_data a; set_data a (NodeData (nname d) idx);; mret idx) s =
    Val idx (set_ddata (<[a := NodeData (nname d) idx]> (ddata s))
      (set_records (<[Z.to_nat idx := a]> (records s)) s)).
Proof.
  intros Ha Hi. unfold set_record. erewrite bind_val by (by rewrite zset_Some).
  by erewrite bind_val by (apply get_data_val; exact Ha).
Qed.

(** The search ends, unless it is for a new name whose [strdup] fails: then it is
    undefined. *)
Definition find_undefined (s : dns) (l : lru) (name : bytes) : bool :=
  bool_decide (spec_get name l = None) && strdup_fails s.

Lemma find_outcome s l name :
  dns_inv s l → is_str name → 0 < max s →
  let r := spec_find (max s) (can_alloc s) name l in
  if find_undefined s l name then hev_mapped_dns_find name s = Stuck else
  ∃ s', hev_mapped_dns_find name s = Val r.1 s' ∧ dns_inv s' r.2 ∧ same_config s s' ∧
    heap s' = match spec_get name l with Some _ => heap s | None => next_heap s end.
Proof.
  intros (xs & ts & Hr) Hname Hmax r. unfold find_undefined, hev_mapped_dns_find.
  erewrite bind_val by reflexivity. erewrite bind_val by reflexivity.
  destruct (rep_search _ _ _ _ name Hr Hname) as
    [(a & d & Ha & Hn & He)|(Hg & us & vs & p & lk & He & Hat & -> & Hgr & Hsm)].
  { (* hit *)
    erewrite bind_val by exact He. cbv iota.
    destruct (find_hit s l name a d) as (s1 & s2 & He1 & He2 & Hd2 & Hi2); [by exists xs, ts|done|done|].
    erewrite bind_val by exact He1. erewrite bind_val by exact He2.
    erewrite bind_val by (apply get_data_val; rewrite Hd2; exact Ha).
    pose proof (rep_spec_get _ _ _ _ _ _ Hr Ha) as Hs. rewrite Hn in Hs.
    unfold r, spec_find. rewrite Hs, bool_decide_eq_false_2 by done. cbn [fst snd andb]. exists s2.
    apply on_list_config in He1 as [(? & ? & ?) ?], He2 as [(? & ? & ?) ?].
    split_and!; [done|done| |congruence]. unfold same_config. split_and!; congruence. }
  (* miss *)
  erewrite bind_val by exact He. cbv iota.
  pose proof (node_alloc_spec s l xs _ name Hr) as Hal. unfold r, spec_find. rewrite Hg, bool_decide_eq_true_2 by done.
  assert (can_alloc s = true → strdup_fails s = false) as Hex.
  { unfold can_alloc, strdup_fails. destruct (heap s) as [|[? []] ?]; done. }
  destruct (can_alloc s); [rewrite Hex by done|destruct (strdup_fails s); [unfold mbind, M_bind; by rewrite Hal|]]; cbn [negb andb].
  2: { erewrite bind_val by exact Hal. cbn. eexists. split; [done|]. split; [|done].
       exists xs, (us ++ vs). destruct Hr. by constructor. }
  destruct Hal as (a & Hal & Ha0 & Haa & Haf). erewrite bind_val by exact Hal.
  rewrite truthy_ne by done. cbn [negb].
  destruct (miss_link s l xs _ a (NodeData name 0) (next_heap s) us vs p lk Hr Hat eq_refl Ha0 Haa Haf)
    as (tr1 & tr2 & li & He1 & He2 & He3 & Ht & Hl & Hdt & Hdl).
  erewrite bind_val by exact He1. erewrite bind_val by exact He2. erewrite bind_val by exact He3.
  erewrite bind_val by reflexivity. erewrite bind_val by reflexivity.
  cbn [use max with_node set_dlist set_dtree set_ddata set_heap].
  rewrite (r_use _ _ _ _ Hr). destruct (Z.ltb_spec (zlen l) (max s)) as [Hlt|Hge].
  - erewrite bind_val by reflexivity. erewrite record_steps.
    2: { cbn. apply lookup_insert_eq. }
    2: { cbn. rewrite <- (r_max _ _ _ _ Hr). split; [apply zlen_nonneg|done]. }
    eexists. split; [done|]. cbn [snd]. split; [|done]. exists (xs ++ [a]), (us ++ a :: vs).
    dns_norm. rewrite insert_insert_eq. by apply rep_grow.
  - destruct xs as [|x0 xs]; [|destruct l as [|[n0 i0] l]].
    { pose proof (r_data _ _ _ _ Hr) as Hf. inversion Hf; subst. change (zlen []) with 0 in Hge. lia. }
    { pose proof (r_data _ _ _ _ Hr) as Hf. inversion Hf. }
    assert (∃ A B, us ++ a :: vs = A ++ x0 :: B) as (A & B & HAB).
    { apply list_elem_of_split. rewrite <- Permutation_middle, (r_perm _ _ _ _ Hr). set_solver. }
    assert (Hx0 : ddata s !! x0 = Some (NodeData n0 i0)) by (pose proof (r_data _ _ _ _ Hr) as Hf; by inversion Hf).
    assert (x0 ≠ a) as Hxa by congruence.
    rewrite HAB in Ht.
    match goal with |- context [(_ ≫= _) (set_dlist li (set_dtree tr2 ?s1))] =>
      destruct (evict_steps s1 tr2 li x0 (NodeData n0 i0) (xs ++ [a]) A B) as
        (tr & li' & Htr & Hli & Hdt' & Hdl' & He4) end; try done.
    { cbn. by rewrite lookup_insert_ne. }
    pose proof (r_rec _ _ _ _ Hr _ _ Hx0) as Hi0. apply zget_Some_bound in Hi0. cbn [nidx] in Hi0.
    erewrite bind_val by exact He4. cbn [nidx]. erewrite record_steps.
    2: { cbn. rewrite lookup_delete_ne by done. apply lookup_insert_eq. }
    2: { exact Hi0. }
    eexists. split; [done|]. cbn [snd]. split; [|done]. exists (xs ++ [a]), (A ++ B).
    dns_norm. rewrite delete_insert_ne, insert_insert_eq by done.
    by apply (rep_evict s n0 i0 l x0 xs us vs a name).
Qed.


Lemma can_alloc_defined s l name : can_alloc s = true → find_undefined s l name = false.
Proof.
  unfold can_alloc, find_undefined, strdup_fails. destruct (heap s) as [|[p []] h]; try done. by rewrite andb_false_r.
Qed.

Lemma strdup_ok_next s : strdup_ok (heap s) → strdup_ok (next_heap s).
Proof. unfold next_heap. intros Hk. destruct (heap s); [done|]. by apply Forall_cons in Hk as [_ ?]. Qed.

Lemma strdup_ok_defined s l name : strdup_ok (heap s) → find_undefined s l name = false.
Proof.
  unfold strdup_ok, find_undefined, strdup_fails. destruct (heap s) as [|[p dup] h]; [by rewrite andb_false_r|].
  intros [H _]%Forall_cons. cbn in H. subst dup. by rewrite andb_false_r.
Qed.

(** A search that returned an index, or that is safe from a failing [strdup]. *)
Lemma find_refines s l name :
  dns_inv s l → is_str name → 0 < max s →
  let r := spec_find (max s) (can_alloc s) name l in
  strdup_ok (heap s) ∨ 0 <= r.1 →
  ∃ s', hev_mapped_dns_find name s = Val r.1 s' ∧ dns_inv s' r.2 ∧ same_config s s' ∧
    (strdup_ok (heap s) → strdup_ok (heap s')).
Proof.
  intros Hi Hs Hm r Hor. pose proof (find_outcome s l name Hi Hs Hm) as Ho.
  assert (find_undefined s l name = false) as E.
  { destruct Hor as [Hok|Hr]; [by apply strdup_ok_defined|]. unfold r, spec_find in Hr.
    destruct (can_alloc s) eqn:Ec; [by apply can_alloc_defined|].
    unfold find_undefined. destruct (spec_get name l); [done|]. cbn in Hr. lia. }
  rewrite E in Ho. destruct Ho as (s' & ? & ? & ? & Hh). exists s'. split_and!; try done.
  rewrite Hh. destruct (spec_get name l); [done|]. apply strdup_ok_next.
Qed.
