(* ===== verification/DNSCache.v ===== *)
(** * DNSCache: what the name cache of MappedDNS guarantees

    Looking up an index, creation and destruction on top of LRU, and the
    properties of the cache: its refinement to a least-recently-used map, the
    stability of an answered address, and the release of every node. What a failed
    [strdup] does is part of the statements. *)
From stdpp Require Import sorting.
From S2P Require Import Prelude Bytes HevList HevRBTree RBRep RBTree MappedDNS LRU.
Lemma touch_none (P : bytes * Z → bool) l : (∀ q, q ∈ l → P q = false) → touch P l = l.
Proof.
  intros H. unfold touch.
  assert (filter (λ p, P p = false) l = l ∧ filter (λ p, P p = true) l = []) as [-> ->]; [|by rewrite app_nil_r].
  induction l as [|q l IH]; [done|]. rewrite !filter_cons. assert (P q = false) as -> by (apply H; set_solver).
  destruct IH as [-> ->]; [set_solver|]. done.
Qed.

Lemma land_lnot_nonneg ip m mx : 0 <= mx <= Z.lnot m → 0 <= Z.land ip (Z.lnot m).
Proof. intros Hm. apply Z.land_nonneg. lia. Qed.

Lemma lookup_refines s l ip :
  dns_inv s l → max s <= Z.lnot (mask s) →
  let r := spec_lookup (Z.land ip (Z.lnot (mask s))) l in
  ∃ s', hev_mapped_dns_lookup ip s = Val r.1 s' ∧ dns_inv s' r.2 ∧ same_config s s' ∧ heap s' = heap s.
Proof.
  intros (xs & ts & Hr) Hcfg r.
  pose proof (zlen_nonneg l) as Hl0. pose proof (r_le _ _ _ _ Hr) as Hle.
  assert (0 <= Z.land ip (Z.lnot (mask s))) as Hi0 by (apply (land_lnot_nonneg _ _ (max s)); lia).
  unfold hev_mapped_dns_lookup. erewrite bind_val by reflexivity. cbv zeta. unfold r. clear r.
  generalize dependent (Z.land ip (Z.lnot (mask s))). intros idx Hi0.
  erewrite bind_val by reflexivity.
  assert (∀ q, q ∈ l → ∃ a, ddata s !! a = Some (NodeData q.1 q.2)) as Hnode.
  { intros q Hq. destruct (rep_node _ _ _ _ _ Hr Hq) as (a & _ & Ha). by exists a. }
  assert ((∀ q, q ∈ l → q.2 ≠ idx) →
    spec_lookup idx l = (None, l)) as Hnone.
  { intros Hq. unfold spec_lookup. rewrite find_none_iff, touch_none; [done| |];
      intros q Hin; apply has_idx_false; auto. }
  destruct (Z.leb_spec (max s) idx) as [Hge|Hlt].
  { rewrite Hnone; [exists s; split_and!; try done; by exists xs, ts|].
    intros q Hq. destruct (Hnode q Hq) as (a & Ha). apply (r_rec _ _ _ _ Hr) in Ha.
    apply zget_Some_bound in Ha. cbn in Ha. rewrite <- (r_max _ _ _ _ Hr) in Ha. lia. }
  destruct (zget_is_Some (records s) idx) as [a Ha]; [rewrite <- (r_max _ _ _ _ Hr); lia|].
  erewrite bind_val by (unfold get_record; by rewrite Ha).
  destruct (decide (a = 0)) as [->|Ha0].
  { rewrite Hnone; [exists s; split_and!; try done; by exists xs, ts|].
    intros q Hq He. destruct (Hnode q Hq) as (b & Hb). pose proof (r_rec _ _ _ _ Hr _ _ Hb) as Hb'.
    cbn in Hb'. rewrite He, Ha in Hb'. injection Hb' as <-.
    pose proof (r_list _ _ _ _ Hr) as (_ & _ & _ & _ & Hnz). rewrite Forall_forall in Hnz.
    apply (Hnz 0); [|done]. apply elem_of_dom_2 in Hb. rewrite (r_domd _ _ _ _ Hr) in Hb. set_solver. }
  rewrite truthy_ne by done. cbn [negb].
  destruct (r_back _ _ _ _ Hr _ _ Ha Ha0) as (n & Hd).
  destruct (rep_touch s l xs ts a (NodeData n idx) (has_idx idx) Hr Hd) as (s1 & s2 & He1 & He2 & Hd2 & Hi2).
  { by apply has_idx_true. }
  { intros q _ Hq. by apply has_idx_false. }
  erewrite bind_val by exact He1. erewrite bind_val by exact He2.
  erewrite bind_val by (apply get_data_val; rewrite Hd2; exact Hd).
  apply on_list_config in He1 as [(? & ? & ?) ?], He2 as [(? & ? & ?) ?].
  exists s2. split_and!; [|done| |congruence]; [|unfold same_config; split_and!; congruence].
  unfold spec_lookup. cbn [fst nname].
  destruct (rep_entry _ _ _ _ _ _ Hr Hd) as (us & vs & lu & lv & _ & -> & _ & _ & Hne).
  rewrite (find_split _ _ (n, idx)); [done|by apply has_idx_true|].
  intros q Hq. apply has_idx_false. apply Hne. set_solver.
Qed.

(** ** Creation and destruction *)

Lemma new_inv net mask max h s :
  hev_mapped_dns_new net mask max true h = Some s → 0 <= max →
  dns_inv s [] ∧ LRU.same_config (DNS 0 max net mask (dlist s) (dtree s) [] ∅ []) s ∧ max <= Z.lnot mask ∧ heap s = h.
Proof.
  unfold hev_mapped_dns_new, hev_mapped_dns_construct. cbn [negb].
  destruct (Z.ltb_spec (Z.lnot mask) max); cbn; intros [= <-] Hm. split_and!; try done.
  exists [], []. constructor; cbn; try done.
  - unfold zlen. rewrite length_replicate. lia.
  - apply list_rep_nil.
  - apply rbtree_empty.
  - constructor.
  - unfold zget. intros i a Hi Ha. destruct (0 <=? i); [|done].
    apply lookup_replicate in Hi as [-> _]. done.
Qed.

Lemma destruct_loop_spec xs p s fuel :
  lseg (lnodes (dlist s)) p xs 0 → NoDup xs → Forall (λ x, x ≠ 0) xs →
  dom (ddata s) = list_to_set xs → (length xs < fuel)%nat →
  ∃ s', destruct_loop fuel (List.hd 0 xs) s = Val tt s' ∧ ddata s' = ∅.
Proof.
  revert p s fuel. induction xs as [|x xs IH]; intros p s fuel Hs Hnd Hnz Hd Hf;
    (destruct fuel as [|fuel]; [lia|]); cbn [destruct_loop List.hd].
  - exists s. split; [done|]. by apply dom_empty_inv_L.
  - destruct Hs as [Hx Hs]. apply NoDup_cons in Hnd as [Hxs Hnd]. apply Forall_cons in Hnz as [Hx0 Hnz].
    rewrite truthy_ne by done.
    assert (on_list (hev_list_node_next x) s = Val (List.hd 0 xs) s) as He.
    { unfold on_list, zoom, hev_list_node_next, get_lnode. mstep. rewrite Hx. cbn.
      by rewrite set_dlist_id. }
    erewrite bind_val by exact He.
    assert (x ∈ dom (ddata s)) as [d Hdx]%elem_of_dom by (rewrite Hd; set_solver).
    unfold hev_mapped_dns_node_free, hev_free. erewrite bind_val by (by rewrite Hdx).
    eapply (IH x); [|done|done| |cbn in Hf; lia].
    + cbn. eapply lseg_frame, Hs. intros y Hy. apply lookup_delete_ne. set_solver.
    + cbn. by apply dom_delete_cons.
Qed.

Lemma destruct_spec s l :
  dns_inv s l → ∃ s', hev_mapped_dns_destruct s = Val tt s' ∧ ddata s' = ∅.
Proof.
  intros (xs & ts & Hr). destruct (r_list _ _ _ _ Hr) as (Hh & _ & Hs & Hnd & Hnz).
  unfold hev_mapped_dns_destruct.
  erewrite bind_val; [|apply (zoom_val _ _ hev_list_first _ (head (dlist s))); reflexivity].
  rewrite set_dlist_id. erewrite bind_val by reflexivity. rewrite Hh.
  eapply destruct_loop_spec; [exact Hs|done|done|apply (r_domd _ _ _ _ Hr)|].
  rewrite <- size_dom, (r_domd _ _ _ _ Hr), size_list_to_set by done. lia.
Qed.

(** ** Ages of entries *)

Lemma inv_names s l : dns_inv s l → NoDup l.*1.
Proof.
  intros (xs & ts & Hr). apply NoDup_alt. intros i j n Hi Hj.
  rewrite list_lookup_fmap in Hi, Hj.
  destruct (l !! i) as [p|] eqn:Hp; [|done]. destruct (l !! j) as [q|] eqn:Hq; [|done]. cbn in *.
  pose proof (r_data _ _ _ _ Hr) as Hd.
  destruct (Forall2_lookup_r _ _ _ _ _ Hd Hp) as (a & Ha & Hap).
  destruct (Forall2_lookup_r _ _ _ _ _ Hd Hq) as (b & Hb & Hbq).
  destruct (r_list _ _ _ _ Hr) as (_ & _ & _ & Hnd & _).
  destruct (decide (a = b)) as [->|Hab]; [eapply NoDup_lookup; eauto|].
  exfalso. apply (sorted_distinct (ddata s) ts a b) in Hab.
  - rewrite (name_of_Some _ _ _ Hap), (name_of_Some _ _ _ Hbq) in Hab. cbn in Hab. congruence.
  - apply (r_sorted _ _ _ _ Hr).
  - rewrite (r_perm _ _ _ _ Hr). by eapply list_elem_of_lookup_2.
  - rewrite (r_perm _ _ _ _ Hr). by eapply list_elem_of_lookup_2.
Qed.

Lemma inv_idx s l : dns_inv s l → NoDup l.*2.
Proof. intros (xs & ts & Hr). rewrite (r_idx _ _ _ _ Hr). apply NoDup_seqZ. Qed.

(** The entry of [name] is among the [j + 1] most recently used ones. *)
Definition recent (l : lru) (name : bytes) (idx : Z) (j : nat) : Prop :=
  ∃ l1 l2, l = l1 ++ (name, idx) :: l2 ∧ (length l2 ≤ j)%nat.

Lemma filter_name_length name (l : lru) :
  NoDup l.*1 → (length (filter (λ p, has_name name p = true) l) ≤ 1)%nat.
Proof.
  induction l as [|p l IH]; intros Hnd; [cbn; lia|]. rewrite fmap_cons, NoDup_cons in Hnd.
  destruct Hnd as [Hp Hnd]. rewrite filter_cons. case_decide as Hd; [|by apply IH].
  unfold has_name in Hd. apply bool_decide_eq_true in Hd. cbn.
  enough (filter (λ p, has_name name p = true) l = []) as -> by (cbn; lia).
  clear IH Hnd. induction l as [|q l IH]; [done|]. rewrite filter_cons.
  rewrite fmap_cons, not_elem_of_cons in Hp. destruct Hp as [Hq Hp].
  rewrite decide_False; [by apply IH|]. unfold has_name. rewrite bool_decide_eq_true. congruence.
Qed.

Lemma recent_touch l name idx j n :
  NoDup l.*1 → n ≠ name → recent l name idx j → recent (touch (has_name n) l) name idx (S j).
Proof.
  intros Hnd Hne (l1 & l2 & -> & Hj). pose proof (filter_name_length n _ Hnd) as Hlen.
  unfold touch. set (k := filter (λ p, has_name n p = true) _) in *.
  exists (filter (λ p, has_name n p = false) l1), (filter (λ p, has_name n p = false) l2 ++ k). split.
  - rewrite filter_app, filter_cons. rewrite decide_True by (by apply has_name_false). by rewrite <- app_assoc.
  - rewrite length_app. pose proof (length_filter (λ p, has_name n p = false) l2). lia.
Qed.

(** Resolving another name makes an entry older by at most one. *)
Lemma recent_find l name idx j n max ok :
  NoDup l.*1 → n ≠ name → Z.of_nat (S j) < max → recent l name idx j →
  recent (spec_find max ok n l).2 name idx (S j).
Proof.
  intros Hnd Hne Hj Hr. unfold spec_find. destruct (spec_get n l) as [i|]; [by apply recent_touch|].
  assert (recent l name idx (S j)) as Hr'.
  { destruct Hr as (l1 & l2 & ? & ?). exists l1, l2. split; [done|lia]. }
  destruct ok; cbn [negb]; [|done]. destruct Hr as (l1 & l2 & -> & Hl2).
  destruct (Z.ltb_spec (zlen (l1 ++ (name, idx) :: l2)) max) as [Hlt|Hge]; cbn [snd].
  - exists l1, (l2 ++ [(n, zlen (l1 ++ (name, idx) :: l2))]). rewrite <- app_assoc. split; [done|].
    rewrite length_app. cbn. lia.
  - destruct l1 as [|[n1 i1] l1]; cbn [app].
    + unfold zlen in Hge. cbn in Hge. lia.
    + exists l1, (l2 ++ [(n, i1)]). cbn. rewrite <- app_assoc. split; [done|]. rewrite length_app. cbn. lia.
Qed.
Lemma find_Some_split {A} (P : A → bool) l p :
  List.find P l = Some p → P p = true ∧ ∃ l1 l2, l = l1 ++ p :: l2 ∧ ∀ q, q ∈ l1 → P q = false.
Proof.
  induction l as [|x l IH]; [done|]. cbn. destruct (P x) eqn:Hx.
  - intros [= ->]. split; [done|]. exists [], l. split; [done|]. set_solver.
  - intros Hf. destruct (IH Hf) as (Hp & l1 & l2 & -> & Hq). split; [done|].
    exists (x :: l1), l2. split; [done|]. intros q [->|?]%elem_of_cons; auto.
Qed.

Lemma spec_find_recent l name idx l' max ok :
  NoDup l.*1 → spec_find max ok name l = (idx, l') → 0 <= idx → recent l' name idx 0.
Proof.
  intros Hnd Hf Hi. unfold spec_find in Hf.
  destruct (spec_get name l) as [i|] eqn:Hg.
  - simplify_eq. unfold spec_get in Hg.
    destruct (List.find _ l) as [p|] eqn:Hp; [|done]. cbn in Hg. simplify_eq.
    apply find_Some_split in Hp as (Hn & l1 & l2 & -> & Hq). apply bool_decide_eq_true in Hn.
    exists (l1 ++ l2), []. split; [|cbn; lia]. rewrite touch_split.
    + rewrite <- app_assoc. destruct p; cbn in *; by subst.
    + by apply has_name_true.
    + intros q Hin. apply has_name_false. subst name.
      rewrite fmap_app, fmap_cons in Hnd.
      apply elem_of_app in Hin as [Hin|Hin]; apply (list_elem_of_fmap_2 fst) in Hin; nodup_sat;
        intros He; rewrite He in Hin; done.
  - destruct ok; cbn [negb] in Hf; [|simplify_eq; lia].
    destruct (zlen l <? max).
    + simplify_eq. exists l, []. split; [done|cbn; lia].
    + destruct l as [|[n0 i0] l]; simplify_eq; [lia|]. exists l, []. split; [done|cbn; lia].
Qed.

Lemma spec_lookup_recent l name idx j :
  NoDup l.*2 → recent l name idx j → (spec_lookup idx l).1 = Some name.
Proof.
  intros Hnd (l1 & l2 & -> & _). unfold spec_lookup. cbn [fst].
  rewrite (find_split _ _ (name, idx)); [done|by apply has_idx_true|].
  intros q Hq. apply has_idx_false. rewrite fmap_app, fmap_cons in Hnd.
  apply (list_elem_of_fmap_2 snd) in Hq. nodup_sat. cbn in *. intros He. by rewrite He in Hq.
Qed.

(** ** Sequences of requests *)

Fixpoint find_all (ns : list bytes) : M dns unit :=
  match ns with
  | [] => mret tt
  | n :: ns => _ ← hev_mapped_dns_find n; find_all ns
  end.

(** The configuration of a server: a capacity, and a netmask of [k] host bits. *)
Definition config_ok (s : dns) (k : Z) : Prop :=
  0 < max s /\ 0 <= k /\ Z.lnot (mask s) = Z.ones k /\ max s <= Z.lnot (mask s) /\
  Z.land (net s) (Z.lnot (mask s)) = 0.

Lemma config_same s s' k : same_config s s' → config_ok s k → config_ok s' k.
Proof. unfold same_config, config_ok. intros (-> & -> & ->). done. Qed.

Lemma host_bits s k idx :
  config_ok s k → 0 <= idx < max s → Z.land (Z.lor (net s) idx) (Z.lnot (mask s)) = idx.
Proof.
  intros (Hm & Hk & Hmask & Hle & Hnet) Hi. rewrite Z.land_lor_distr_l, Hnet, Hmask in *. cbn [Z.lor].
  rewrite Z.lor_0_l, Z.land_ones by done. apply Z.mod_small. rewrite Z.ones_equiv in Hle. lia.
Qed.

Lemma find_all_recent ns s l name idx j :
  dns_inv s l → 0 < max s → strdup_ok (heap s) → Forall is_str ns → name ∉ ns →
  Z.of_nat (j + length ns) < max s → recent l name idx j →
  ∃ s' l', find_all ns s = Val tt s' ∧ dns_inv s' l' ∧ same_config s s' ∧
    recent l' name idx (j + length ns).
Proof.
  revert s l j. induction ns as [|n ns IH]; intros s l j Hi Hm Hk Hs Hn Hj Hr.
  - exists s, l. rewrite Nat.add_0_r. done.
  - cbn in Hj. apply Forall_cons in Hs as [Hsn Hs]. apply not_elem_of_cons in Hn as [Hne Hn].
    destruct (find_refines s l n Hi Hsn Hm (or_introl Hk)) as (s1 & He1 & Hi1 & Hc1 & Hk1).
    cbn [find_all]. erewrite bind_val by exact He1.
    destruct (IH s1 _ (S j) Hi1) as (s2 & l2 & He2 & Hi2 & Hc2 & Hr2); try done.
    + destruct Hc1 as (-> & _). done.
    + by apply Hk1.
    + destruct Hc1 as (-> & _). lia.
    + apply recent_find; [by eapply inv_names|congruence|lia|done].
    + exists s2, l2. split_and!; try done.
      * unfold same_config in *. naive_solver congruence.
      * cbn [length]. by rewrite Nat.add_succ_r.
Qed.
Lemma inv_idx_range s l q : dns_inv s l → q ∈ l → 0 <= q.2 < zlen l ∧ zlen l <= max s.
Proof.
  intros (xs & ts & Hr) Hq. pose proof (r_le _ _ _ _ Hr).
  assert (q.2 ∈ seqZ 0 (zlen l)) as Hin.
  { rewrite <- (r_idx _ _ _ _ Hr). by apply list_elem_of_fmap_2. }
  apply elem_of_seqZ in Hin. lia.
Qed.

Lemma spec_find_range s l name ok :
  dns_inv s l → 0 < max s →
  let r := (spec_find (max s) ok name l).1 in r = -1 ∨ 0 <= r < max s.
Proof.
  intros Hi Hm r. pose proof (zlen_nonneg l). unfold r, spec_find, spec_get.
  destruct (List.find _ l) as [p|] eqn:Hf; cbn [fmap option_fmap option_map fst snd].
  - right. apply find_Some_split in Hf as (_ & l1 & l2 & Heq & _).
    assert (p ∈ l) as Hp by (rewrite Heq; set_solver). pose proof (inv_idx_range _ _ _ Hi Hp). lia.
  - destruct ok; [|by left]. cbn [negb]. right. destruct (Z.ltb_spec (zlen l) (max s)); cbn [fst]; [lia|].
    destruct l as [|p l]; [unfold zlen in *; cbn in *; lia|].
    assert (p ∈ p :: l) as Hp by set_solver. destruct p as [n0 i0].
    pose proof (inv_idx_range _ _ _ Hi Hp). cbn in *. lia.
Qed.

Lemma inv_injective s l a b d e :
  dns_inv s l → ddata s !! a = Some d → ddata s !! b = Some e →
  nidx d = nidx e ∨ nname d = nname e → a = b.
Proof.
  intros (xs & ts & Hr) Ha Hb [Heq|Heq].
  - apply (r_rec _ _ _ _ Hr) in Ha, Hb. rewrite Heq in Ha. congruence.
  - destruct (decide (a = b)) as [|Hab]; [done|]. exfalso.
    apply (sorted_distinct (ddata s) ts a b) in Hab.
    + by rewrite (name_of_Some _ _ _ Ha), (name_of_Some _ _ _ Hb) in Hab.
    + apply (r_sorted _ _ _ _ Hr).
    + apply elem_of_dom_2 in Ha. rewrite (r_perm _ _ _ _ Hr). rewrite (r_domd _ _ _ _ Hr) in Ha. set_solver.
    + apply elem_of_dom_2 in Hb. rewrite (r_perm _ _ _ _ Hr). rewrite (r_domd _ _ _ _ Hr) in Hb. set_solver.
Qed.

Lemma inv_size s l : dns_inv s l → use s = Z.of_nat (size (ddata s)) ∧ use s <= max s.
Proof.
  intros (xs & ts & Hr). rewrite (r_use _ _ _ _ Hr). split; [|apply (r_le _ _ _ _ Hr)].
  destruct (r_list _ _ _ _ Hr) as (_ & _ & _ & Hnd & _).
  rewrite <- size_dom, (r_domd _ _ _ _ Hr), size_list_to_set by done.
  unfold zlen. f_equal. symmetry. eapply Forall2_length, (r_data _ _ _ _ Hr).
Qed.

(** The states a server goes through. *)
Inductive dns_reach (net mask max : Z) (h : list (Z * bool)) : dns → Prop :=
| reach_new s : hev_mapped_dns_new net mask max true h = Some s → dns_reach net mask max h s
| reach_find s name r s' :
    dns_reach net mask max h s → is_str name → hev_mapped_dns_find name s = Val r s' →
    dns_reach net mask max h s'
| reach_lookup s ip r s' :
    dns_reach net mask max h s → hev_mapped_dns_lookup ip s = Val r s' → dns_reach net mask max h s'.

Lemma reach_inv n m mx h s :
  0 < mx → dns_reach n m mx h s →
  (∃ l, dns_inv s l) ∧ max s = mx ∧ net s = n ∧ mask s = m ∧ mx <= Z.lnot m.
Proof.
  intros Hmx. induction 1 as [s Hn|s name r s' _ (( l & Hi) & Hm & Hnet & Hmask & Hle) Hs He|s ip r s' _ ((l & Hi) & Hm & Hnet & Hmask & Hle) He].
  - apply new_inv in Hn as (Hi & (? & ? & ?) & ? & _); [|lia]. cbn in *. split; [by eexists|done].
  - pose proof (find_outcome s l name Hi Hs) as Ho. destruct (find_undefined s l name); [rewrite Ho in He; [done|lia]|].
    destruct Ho as (s1 & He1 & Hi1 & (? & ? & ?) & _); [lia|]. rewrite He in He1. simplify_eq. split; [by eexists|]. split_and!; congruence.
  - destruct (lookup_refines s l ip Hi) as (s1 & He1 & Hi1 & (? & ? & ?) & _); [by rewrite Hm, Hmask|].
    rewrite He in He1. simplify_eq. split; [by eexists|]. split_and!; congruence.
Qed.

(** ** Properties

    [dns0] is a server with room for two names, on the network 100.64.0.0/10. *)

Definition dns0 : dns :=
  DNS 0 2 1681915904 (-4194304) (ListMem 0 0 ∅) (RBMem 0 ∅) [0; 0] ∅ [(16, true); (32, true); (48, true)].

Lemma dns0_new : hev_mapped_dns_new 1681915904 (-4194304) 2 true (heap dns0) = Some dns0.
Proof. reflexivity. Qed.

Lemma dns0_inv : dns_inv dns0 [].
Proof. by apply (new_inv _ _ _ _ _ dns0_new). Qed.

Definition www : bytes := [119; 119; 119].
Definition ftp : bytes := [102; 116; 112].

Lemma str_www : is_str www.
Proof. repeat constructor. Qed.
Lemma str_ftp : is_str ftp.
Proof. repeat constructor. Qed.

(** C4: [hev_mapped_dns_find] refines the search in a least-recently-used map:
    it returns the index of a cached name and makes the name the most recently
    used one; it gives a new name the next free index, or the index of the
    least recently used name, which it removes, when the cache is full; and it
    returns -1 without changing the cache when there is no memory for a node.
    It then never dereferences a bad pointer, and the intrusive list, the tree,
    the record array and the nodes stay consistent. It is undefined in exactly
    one case, a new name for whose node there is memory, but not for the copy of
    the name: that node is released with the wrong function. *)
Theorem find_refines_lru s l name :
  dns_inv s l → is_str name → 0 < max s →
  let r := spec_find (max s) (can_alloc s) name l in
  if find_undefined s l name then hev_mapped_dns_find name s = Stuck else
  ∃ s', hev_mapped_dns_find name s = Val r.1 s' ∧ dns_inv s' r.2 ∧
    max s' = max s ∧ net s' = net s ∧ mask s' = mask s.
Proof.
  intros Hi Hs Hm r. pose proof (find_outcome s l name Hi Hs Hm) as Ho. destruct (find_undefined s l name); [done|].
  destruct Ho as (s' & ? & ? & (? & ? & ?) & _). by exists s'.
Qed.

Lemma find_refines_lru_witness :
  (∃ s', hev_mapped_dns_find www dns0 = Val 0 s' ∧ dns_inv s' [(www, 0)]) ∧
  hev_mapped_dns_find www (set_heap [(16, false)] dns0) = Stuck.
Proof.
  split.
  - destruct (find_refines_lru dns0 [] www dns0_inv str_www ltac:(done)) as (s' & He & Hi & _).
    exists s'. split; [exact He|exact Hi].
  - apply (find_refines_lru (set_heap [(16, false)] dns0) []); [|apply str_www|done].
    apply (new_inv 1681915904 (-4194304) 2 [(16, false)]); [reflexivity|done].
Defined.

(** C5: [hev_mapped_dns_lookup] refines the search by index in the same map: it
    returns the cached name of the host part of the address, if there is one,
    and makes it the most recently used one. It allocates nothing: what the
    allocator would answer plays no part, and is not used up. *)
Theorem lookup_refines_lru s l ip :
  dns_inv s l → max s <= Z.lnot (mask s) →
  let r := spec_lookup (Z.land ip (Z.lnot (mask s))) l in
  ∃ s', hev_mapped_dns_lookup ip s = Val r.1 s' ∧ dns_inv s' r.2 ∧
    max s' = max s ∧ net s' = net s ∧ mask s' = mask s ∧ heap s' = heap s.
Proof.
  intros Hi Hm r. destruct (lookup_refines s l ip Hi Hm) as (s' & ? & ? & (? & ? & ?) & ?). by exists s'.
Qed.

Lemma lookup_refines_lru_witness :
  ∃ s', hev_mapped_dns_lookup 1681915904 dns0 = Val None s' ∧ dns_inv s' [].
Proof.
  destruct (lookup_refines_lru dns0 [] 1681915904 dns0_inv) as (s' & He & Hi & _); [done|].
  exists s'. split; [exact He|exact Hi].
Defined.

(** An answered address leads back to its name, as long as the name is recent. *)
Lemma answered_leads_back s l k name idx s1 ns :
  dns_inv s l → config_ok s k → strdup_ok (heap s) → is_str name →
  hev_mapped_dns_find name s = Val idx s1 → 0 <= idx →
  Forall is_str ns → name ∉ ns → zlen ns < max s →
  ∃ s2 s3, find_all ns s1 = Val tt s2 ∧
    hev_mapped_dns_lookup (Z.lor (net s) idx) s2 = Val (Some name) s3.
Proof.
  intros Hi Hc Hk Hn Hf Hidx Hns Hnn Hlen. pose proof Hc as (Hm & _).
  destruct (find_refines s l name Hi Hn Hm (or_introl Hk)) as (s1' & He & Hi1 & Hc1 & Hk1).
  rewrite Hf in He. simplify_eq. pose proof (spec_find_range s l name (can_alloc s) Hi Hm) as Hrange.
  destruct (spec_find (max s) (can_alloc s) name l) as [i l1] eqn:Hsf. cbn [fst snd] in *.
  pose proof (spec_find_recent _ _ _ _ _ _ (inv_names _ _ Hi) Hsf Hidx) as Hrec.
  pose proof (config_same _ _ _ Hc1 Hc) as Hc1'.
  destruct (find_all_recent ns s1' l1 name i 0 Hi1) as (s2 & l2 & He2 & Hi2 & Hc2 & Hrec2); try done.
  { destruct Hc1 as (-> & _). done. }
  { by apply Hk1. }
  { destruct Hc1 as (-> & _). unfold zlen in Hlen. lia. }
  pose proof (config_same _ _ _ Hc2 Hc1') as (_ & _ & _ & Hle & _).
  destruct (lookup_refines s2 l2 (Z.lor (net s) i) Hi2 Hle) as (s3 & He3 & _).
  exists s2, s3. split; [done|]. rewrite He3. f_equal.
  destruct Hc1 as (? & Hnet & Hmask), Hc2 as (? & Hnet2 & Hmask2).
  rewrite Hmask2, Hmask, (host_bits s k i) by (done || lia).
  eapply spec_lookup_recent; [by eapply inv_idx|done].
Qed.

(** An address that was answered for a name keeps leading to that name
    until [max] other names have been resolved: a lookup of [net | idx] after
    any [max - 1] resolutions of other names returns the name. *)
Theorem answered_address_stable s l k name idx s1 ns :
  dns_inv s l → config_ok s k → strdup_ok (heap s) → is_str name →
  hev_mapped_dns_find name s = Val idx s1 → 0 <= idx →
  Forall is_str ns → name ∉ ns → zlen ns < max s →
  ∃ s2 s3, find_all ns s1 = Val tt s2 ∧
    hev_mapped_dns_lookup (Z.lor (net s) idx) s2 = Val (Some name) s3.
Proof. apply answered_leads_back. Qed.

Lemma answered_address_stable_witness :
  ∃ s2 s3, find_all [ftp] (match hev_mapped_dns_find www dns0 with Val _ s => s | _ => dns0 end) = Val tt s2 ∧
    hev_mapped_dns_lookup (Z.lor 1681915904 0) s2 = Val (Some www) s3.
Proof.
  apply (answered_address_stable dns0 [] 22 www 0).
  - apply dns0_inv.
  - split_and!; done.
  - repeat constructor.
  - apply str_www.
  - vm_compute. reflexivity.
  - done.
  - constructor; [apply str_ftp|constructor].
  - apply (bool_decide_unpack _). by vm_compute.
  - done.
Defined.

(** C8: in every reachable state of the server: the cache holds at most [max]
    names, no two nodes share a name or an index, every request by name returns
    -1 or an index below [max], or is undefined because the name is in no node and
    [strdup] fails for the node that it gets, and no request by address has
    undefined behaviour. *)
Theorem reachable_safe n m mx h s :
  0 < mx → dns_reach n m mx h s →
  use s = Z.of_nat (size (ddata s)) ∧ use s <= mx ∧
  (∀ a b d e, ddata s !! a = Some d → ddata s !! b = Some e →
     nidx d = nidx e ∨ nname d = nname e → a = b) ∧
  (∀ name, is_str name →
     (∃ r s', hev_mapped_dns_find name s = Val r s' ∧ (r = -1 ∨ 0 <= r < mx)) ∨
     hev_mapped_dns_find name s = Stuck ∧ strdup_fails s = true ∧ (∀ a d, ddata s !! a = Some d → nname d ≠ name)) ∧
  (∀ ip, ∃ r s', hev_mapped_dns_lookup ip s = Val r s').
Proof.
  intros Hmx Hr. destruct (reach_inv _ _ _ _ _ Hmx Hr) as ((l & Hi) & Hm & Hn & Hk & Hle).
  destruct (inv_size _ _ Hi) as [Hu Hum]. rewrite Hm in Hum. split_and!; try done.
  - intros a b d e. by eapply inv_injective.
  - intros name Hs. pose proof (find_outcome s l name Hi Hs) as Ho. destruct (find_undefined s l name) eqn:E; [right|left].
    + apply andb_true_iff in E as [Eg%bool_decide_eq_true Ef]. split_and!; [apply Ho; lia|done|].
      intros a d Ha <-. destruct Hi as (xs & ts & Hrep). by rewrite (rep_spec_get _ _ _ _ _ _ Hrep Ha) in Eg.
    + destruct Ho as (s' & He & _); [lia|]. eexists _, s'. split; [done|]. rewrite <- Hm. apply spec_find_range; [done|lia].
  - intros ip. destruct (lookup_refines s l ip Hi) as (s1 & He & _); [by rewrite Hm, Hk|]. by eexists _, _.
Qed.

Lemma reachable_safe_witness : use dns0 = 0 ∧ use dns0 <= 2.
Proof.
  split; [reflexivity|].
  apply (reachable_safe 1681915904 (-4194304) 2 (heap dns0) dns0); [done|].
  apply reach_new, dns0_new.
Defined.

(** destroying the server frees every node exactly once and reads no node
    after it was freed. *)
Theorem destruct_frees_all s l :
  dns_inv s l → ∃ s', hev_mapped_dns_destruct s = Val tt s' ∧ ddata s' = ∅.
Proof. apply destruct_spec. Qed.

Lemma destruct_frees_all_witness :
  ∃ s', hev_mapped_dns_destruct dns0 = Val tt s' ∧ ddata s' = ∅.
Proof. apply (destruct_frees_all dns0 [] dns0_inv). Defined.

(** An address outside of the mapped network is taken for a mapped one
    whenever its host part is the index of a cached name: the network part of
    the address is never compared. *)
Theorem lookup_foreign_address s l name idx j ip :
  dns_inv s l → max s <= Z.lnot (mask s) → recent l name idx j →
  Z.land ip (Z.lnot (mask s)) = idx → Z.land ip (mask s) ≠ Z.land (net s) (mask s) →
  ∃ s', hev_mapped_dns_lookup ip s = Val (Some name) s'.
Proof.
  intros Hi Hm Hr Hip _. destruct (lookup_refines s l ip Hi Hm) as (s' & He & _). exists s'.
  rewrite He. f_equal. rewrite Hip. eapply spec_lookup_recent; [by eapply inv_idx|done].
Qed.

(** 8.0.0.0 is not in 100.64.0.0/10. *)
Lemma lookup_foreign_address_witness :
  ∃ s', hev_mapped_dns_lookup 134217728 (match hev_mapped_dns_find www dns0 with Val _ s => s | _ => dns0 end) =
    Val (Some www) s'.
Proof.
  destruct (find_refines dns0 [] www dns0_inv str_www) as (s1 & He & Hi & (Hm & Hn & Hk) & _); [done|by right|].
  rewrite He. apply (lookup_foreign_address s1 [(www, 0)] www 0 0).
  - exact Hi.
  - rewrite Hm, Hk. done.
  - exists [], []. split; [reflexivity|cbn; lia].
  - rewrite Hk. reflexivity.
  - rewrite Hk, Hn. done.
Defined.
