(* ===== verification/DNSHandle.v ===== *)
(** * DNSHandle: answering a DNS request

    [hev_mapped_dns_handle] is memory safe and bounded on every request, and
    answers an A question with the address of the name. *)
From stdpp Require Import sorting.
From S2P Require Import Prelude Bytes HevList HevRBTree RBRep RBTree MappedDNS LRU DNSCache.

(** ** Safety *)

Section Safety.
Context (Lq Ls mx : Z) (U : Prop).

(** What every step of the handler preserves: either no [strdup] fails, or a failing
    one is accounted for by [U]. *)
Definition exchange_inv (s : exchange) : Prop :=
  (∃ l, dns_inv (server s) l) ∧ (max (server s) = mx ∧ 0 < mx ∧ (strdup_ok (heap (server s)) ∨ U)) ∧ Forall is_byte (rb s) ∧
  zlen (rb s) = Lq ∧ zlen (sb s) = Ls.

Lemma u8_byte v : is_byte (u8 v).
Proof. apply Z.mod_pos_bound. lia. Qed.

Lemma wp_rd_q i s Q :
  exchange_inv s → 0 <= i < Lq → (∀ b, is_byte b → zget (rb s) i = Some b → Q b s) → wp_or U (rd_q i) Q never s.
Proof.
  intros (_ & _ & Hb & Hlq & _) Hi HQ. destruct (zget_is_Some (rb s) i) as [b Hg]; [lia|].
  unfold wp_or, rd_q. rewrite Hg. apply HQ; [|done]. apply zget_elem in Hg.
  by eapply Forall_forall in Hb.
Qed.

Lemma wp_rd_s i s Q :
  exchange_inv s → 0 <= i < Ls → (∀ b, Q b s) → wp_or U (rd_s i) Q never s.
Proof.
  intros (_ & _ & _ & _ & Hls) Hi HQ. destruct (zget_is_Some (sb s) i) as [b Hg]; [lia|].
  unfold wp_or, rd_s. rewrite Hg. apply HQ.
Qed.

Lemma wp_wr_q i v s Q :
  exchange_inv s → 0 <= i < Lq → is_byte v →
  (∀ s', exchange_inv s' → rb s' = <[Z.to_nat i := v]> (rb s) → Q tt s') → wp_or U (wr_q i v) Q never s.
Proof.
  intros (Hi & (Hm & Hmx & Hk) & Hb & Hlq & Hls) Hr Hv HQ. unfold wp_or, wr_q. rewrite zset_Some by lia.
  apply HQ; [|done]. split_and!; try done; cbn.
  - by apply Forall_insert.
  - rewrite <- Hlq. unfold zlen. by rewrite length_insert.
Qed.

Lemma wp_wr_s i v s Q :
  exchange_inv s → 0 <= i < Ls →
  (∀ s', exchange_inv s' → rb s' = rb s → Q tt s') → wp_or U (wr_s i v) Q never s.
Proof.
  intros (Hi & (Hm & Hmx & Hk) & Hb & Hlq & Hls) Hr HQ. unfold wp_or, wr_s. rewrite zset_Some by lia.
  apply HQ; [|done]. split_and!; try done; cbn.
  rewrite <- Hls. unfold zlen. by rewrite length_insert.
Qed.
Lemma wp_ld_q off s Q :
  exchange_inv s → 0 <= off < Lq - 1 → (∀ v, 0 <= v → Q v s) → wp_or U (ld_q off) Q never s.
Proof.
  intros Hi Ho HQ. apply wp_or_bind, wp_rd_q; [done|lia|]. intros a Ha _.
  apply wp_or_bind, wp_rd_q; [done|lia|]. intros b Hb _. apply HQ.
  unfold is_byte in *. apply Z.lor_nonneg. split; [lia|]. apply Z.shiftl_nonneg. lia.
Qed.

Lemma wp_ld_s off s Q :
  exchange_inv s → 0 <= off < Ls - 1 → (∀ v, Q v s) → wp_or U (ld_s off) Q never s.
Proof.
  intros Hi Ho HQ. apply wp_or_bind, wp_rd_s; [done|lia|]. intros a.
  apply wp_or_bind, wp_rd_s; [done|lia|]. intros b. apply HQ.
Qed.

Lemma wp_st_q off v s Q :
  exchange_inv s → 0 <= off < Lq - 1 → (∀ s', exchange_inv s' → Q tt s') → wp_or U (st_q off v) Q never s.
Proof.
  intros Hi Ho HQ. apply wp_or_bind, wp_wr_q; [done|lia|apply u8_byte|]. intros s1 Hi1 _.
  apply wp_wr_q; [done|lia|apply u8_byte|]. intros s2 Hi2 _. by apply HQ.
Qed.

Lemma wp_st_s off v s Q :
  exchange_inv s → 0 <= off < Ls - 1 → (∀ s', exchange_inv s' → Q tt s') → wp_or U (st_s off v) Q never s.
Proof.
  intros Hi Ho HQ. apply wp_or_bind, wp_wr_s; [done|lia|]. intros s1 Hi1 _.
  apply wp_wr_s; [done|lia|]. intros s2 Hi2 _. by apply HQ.
Qed.

Lemma wp_read_u16 p s Q :
  exchange_inv s → 0 <= p < Lq - 1 →
  (∀ a b, is_byte a → is_byte b → zget (rb s) p = Some a → Q (Z.lor (u16 (Z.shiftl a 8)) b) s) →
  wp_or U (read_u16 p) Q never s.
Proof.
  intros Hi Ho HQ. apply wp_or_bind, wp_rd_q; [done|lia|]. intros a Ha Hga.
  apply wp_or_bind, wp_rd_q; [done|lia|]. intros b Hb _. by apply HQ.
Qed.

Lemma u16_high a b : is_byte a → is_byte b → Z.lor (u16 (Z.shiftl a 8)) b = 1 → a = 0.
Proof.
  unfold is_byte, u16. intros Ha Hb He. rewrite Z.shiftl_mul_pow2 in He by lia.
  rewrite Z.mod_small in He by lia.
  assert (Z.shiftr (Z.lor (a * 2 ^ 8) b) 8 = a) as Hs.
  { rewrite Z.shiftr_lor, !Z.shiftr_div_pow2, Z.div_mul, Z.div_small by lia. apply Z.lor_0_r. }
  rewrite He in Hs. by cbn in Hs.
Qed.

Lemma wp_string_at p s (Q : bytes → exchange → Prop) i :
  exchange_inv s → 0 <= p <= i → zget (rb s) i = Some 0 → (∀ n, is_str n → Q n s) →
  wp_or U (string_at p) Q never s.
Proof.
  intros (_ & _ & Hb & _ & _) Hp Hg HQ. unfold wp_or, string_at.
  assert (0 ∈ drop (Z.to_nat p) (rb s)) as Hin.
  { unfold zget in Hg. destruct (Z.leb_spec 0 i); [|done].
    apply (list_elem_of_lookup_2 _ (Z.to_nat i - Z.to_nat p)). rewrite lookup_drop.
    by replace (Z.to_nat p + (Z.to_nat i - Z.to_nat p))%nat with (Z.to_nat i) by lia. }
  destruct (cstr_is_Some _ Hin) as [n Hn]. rewrite Hn. apply HQ.
  eapply cstr_str; [exact Hn|by apply Forall_drop].
Qed.

Lemma wp_find name s Q :
  exchange_inv s → is_str name → (∀ idx s', exchange_inv s' → Q idx s') →
  wp_or U (on_server (hev_mapped_dns_find name)) Q never s.
Proof.
  intros ((l & Hi) & (Hm & Hmx & Hk) & Hb & Hlq & Hls) Hn HQ. apply wp_or_zoom.
  pose proof (find_outcome (server s) l name Hi Hn) as Ho.
  destruct (find_undefined (server s) l name) eqn:E.
  { unfold wp_or. rewrite Ho by lia. destruct Hk as [Hk|]; [|done]. by rewrite (strdup_ok_defined _ _ _ Hk) in E. }
  destruct Ho as (d & He & Hd & (Hmd & _) & Hh); [lia|].
  eapply wp_or_val; [exact He|]. apply HQ. split_and!; try done; cbn; [by eexists|congruence|].
  destruct Hk as [Hk|]; [left|by right]. rewrite Hh. destruct (spec_get name l); [done|]. by apply strdup_ok_next.
Qed.

Lemma wp_write_u16 p v s Q :
  exchange_inv s → 0 <= p < Ls - 1 → (∀ s', exchange_inv s' → Q tt s') → wp_or U (write_u16 p v) Q never s.
Proof.
  intros Hi Ho HQ. apply wp_or_bind, wp_wr_s; [done|lia|]. intros s1 Hi1 _.
  apply wp_wr_s; [done|lia|]. intros s2 Hi2 _. by apply HQ.
Qed.

Lemma wp_write_u32 p v s Q :
  exchange_inv s → 0 <= p < Ls - 3 → (∀ s', exchange_inv s' → Q tt s') → wp_or U (write_u32 p v) Q never s.
Proof.
  intros Hi Ho HQ. unfold write_u32. cbv zeta.
  do 3 (apply wp_or_bind, wp_wr_s; [done|lia|]; clear Hi; intros ? Hi _).
  apply wp_wr_s; [done|lia|]. clear Hi. intros s2 Hi2 _. by apply HQ.
Qed.

(** The walk stops at the NUL that ends the name, which lies in the message
    and is not overwritten. *)
Lemma wp_walk_labels fuel off s Q :
  exchange_inv s → 0 <= off < Lq → (Z.to_nat (Lq - off) < fuel)%nat →
  (∀ s', exchange_inv s' → Q None s') →
  (∀ s' off', exchange_inv s' → off <= off' < Lq → zget (rb s') off' = Some 0 → Q (Some off') s') →
  wp_or U (walk_labels fuel Lq off) Q never s.
Proof.
  revert off s. induction fuel as [|fuel IH]; intros off s Hi Ho Hf HN HS; [lia|].
  cbn [walk_labels]. apply wp_or_bind, wp_rd_q; [done|lia|]. intros n Hn Hg.
  unfold truthy. destruct (Z.eqb_spec n 0) as [->|Hn0]; cbn [negb].
  - apply HS; [done|lia|done].
  - unfold is_byte in Hn. destruct (Z.leb_spec Lq (off + (1 + n))); [by apply HN|].
    apply wp_or_bind, wp_wr_q; [done|lia|unfold is_byte; lia|]. intros s' Hi' _.
    apply IH; [done|lia|lia|done|]. intros s2 off' Hi2 Ho2 Hg2. apply HS; [done|lia|done].
Qed.

Lemma wp_questions n off acc s Q :
  exchange_inv s → 12 <= off → off <= Lq → (length acc + n <= 32)%nat →
  (∀ s', exchange_inv s' → Q None s') →
  (∀ s' off' acc', exchange_inv s' → 12 <= off' <= Lq → (length acc' <= 32)%nat → Q (Some (off', acc')) s') →
  wp_or U (questions n Lq off acc) Q never s.
Proof.
  revert off acc s. induction n as [|n IH]; intros off acc s Hi Ho Ho2 Hacc HN HS; cbn [questions].
  { apply HS; [done|lia|lia]. }
  destruct (Z.leb_spec 32 (zlen acc)); [unfold zlen in *; lia|].
  destruct (Z.leb_spec Lq off); [by apply HN|].
  apply wp_or_bind, wp_walk_labels; [done|lia|lia| |].
  { intros s' Hi'. by apply HN. }
  intros s1 off1 Hi1 Ho1 Hg1. cbn beta iota.
  destruct (Z.leb_spec Lq (off1 + 1 + 3)); [by apply HN|].
  apply wp_or_bind, wp_read_u16; [done|lia|]. intros a b Ha Hb Hga.
  assert (∀ c, wp_or U (acc0 ← (if (Z.lor (u16 (Z.shiftl a 8)) b =? 1) && (c =? 1)
             then name ← string_at (off + 1); idx ← on_server (hev_mapped_dns_find name);
                  nt ← gets (λ s0, net (server s0));
                  mret (if 0 <=? idx then acc ++ [(off, Z.lor nt idx)] else acc)
             else mret acc); questions n Lq (off1 + 1 + 4) acc0) Q never s1) as Hc.
  { intros c. apply wp_or_bind, wp_or_if; intros Htc; [|apply wp_or_ret, IH; try done; lia].
    apply andb_prop in Htc as [Ht%Z.eqb_eq _]. apply u16_high in Ht; [|done|done]. subst a.
    apply wp_or_bind. eapply (wp_string_at _ _ _ (if decide (off = off1) then off1 + 1 + 0 else off1)); [done| | |].
    { case_decide; lia. }
    { by case_decide. }
    intros name Hname. apply wp_or_bind, wp_find; [done|done|]. intros idx s2 Hi2.
    apply wp_or_bind, wp_or_gets, wp_or_ret, IH; try done; try lia.
    destruct (0 <=? idx); [rewrite length_app; cbn|]; lia. }
  apply wp_or_bind, wp_or_if; intros Ht; [apply wp_read_u16; [done|lia|]; intros ? ? _ _ _; apply Hc|apply wp_or_ret, Hc].
Qed.

Lemma wp_answers acc off s Q :
  exchange_inv s → 12 <= off → off <= Ls →
  (∀ s', exchange_inv s' → Q None s') →
  (∀ s' off', exchange_inv s' → 12 <= off' <= Ls → Q (Some off') s') →
  wp_or U (answers Ls off acc) Q never s.
Proof.
  revert off s. induction acc as [|[ipo ip] acc IH]; intros off s Hi Ho Ho2 HN HS; cbn [answers].
  { apply HS; [done|lia]. }
  destruct (Z.leb_spec Ls (off + 15)); [by apply HN|].
  do 3 (apply wp_or_bind, wp_write_u16; [done|lia|]; clear s Hi; intros s Hi).
  apply wp_or_bind, wp_write_u32; [done|lia|]; clear s Hi; intros s Hi.
  apply wp_or_bind, wp_write_u16; [done|lia|]; clear s Hi; intros s Hi.
  apply wp_or_bind, wp_write_u32; [done|lia|]; clear s Hi; intros s Hi.
  apply IH; [done|lia|lia|done|done].
Qed.

Lemma wp_copy_request s Q :
  exchange_inv s → 0 <= Lq <= Ls → Lq < 2147483648 →
  (∀ s', exchange_inv s' → Q tt s') → wp_or U (copy_request Lq) Q never s.
Proof.
  intros (Hi & (Hm & Hmx & Hk) & Hb & Hlq & Hls) HL Hmax HQ. unfold wp_or, copy_request. cbv zeta.
  rewrite Z.mod_small by lia. rewrite Hlq, Hls, Z.leb_refl, (proj2 (Z.leb_le _ _)) by lia. cbn [andb].
  apply HQ. split_and!; try done. cbn. unfold zlen in *. rewrite length_app, length_take, length_drop. lia.
Qed.

Lemma handle_safe_wp s :
  exchange_inv s → 0 <= Lq < 2147483648 →
  wp_or U (hev_mapped_dns_handle Lq Ls) (λ r s', exchange_inv s' ∧ (r = -1 ∨ 12 <= r <= Ls)) never s.
Proof.
  intros Hi HL. unfold hev_mapped_dns_handle.
  destruct (Z.ltb_spec Ls Lq); [apply wp_or_ret; auto|].
  rewrite Z.mod_small by lia. destruct (Z.ltb_spec Lq sizeof_DNSHdr) as [|H12]; [apply wp_or_ret; auto|].
  unfold sizeof_DNSHdr, off_qd, off_fl, off_ns, off_an, off_ar in *.
  apply wp_or_bind, wp_copy_request; [done|lia|lia|]; clear s Hi; intros s Hi.
  apply wp_or_bind, wp_ld_q; [done|lia|]; intros qd0 _.
  apply wp_or_bind, wp_st_q; [done|lia|]; clear s Hi; intros s Hi.
  apply wp_or_bind, wp_ld_s; [done|lia|]; intros fl0.
  do 4 (apply wp_or_bind, wp_st_s; [done|lia|]; clear s Hi; intros s Hi).
  apply wp_or_bind, wp_ld_q; [done|lia|]; intros qd Hqd.
  destruct (Z.ltb_spec 32 qd); [apply wp_or_ret; auto|].
  apply wp_or_bind, wp_questions; [done|lia|lia|cbn; lia| |].
  { intros s' Hi'. apply wp_or_ret; auto. }
  clear s Hi. intros s off acc Hi Ho Hacc. cbn beta iota.
  apply wp_or_bind, wp_answers; [done|lia|lia| |].
  { intros s' Hi'. apply wp_or_ret; auto. }
  clear s Hi. intros s off' Hi Ho'. cbn beta iota.
  apply wp_or_bind, wp_ld_s; [done|lia|]; intros fl1.
  do 2 (apply wp_or_bind, wp_st_s; [done|lia|]; clear s Hi; intros s Hi).
  apply wp_or_ret. auto.
Qed.
End Safety.
(** What the handler makes of a request, and when it is undefined. *)
Lemma handle_outcome s l :
  dns_inv (server s) l → 0 < max (server s) → Forall is_byte (rb s) → zlen (rb s) < 2147483648 →
  (∃ r s', hev_mapped_dns_handle (zlen (rb s)) (zlen (sb s)) s = Val r s' ∧
    (r = -1 ∨ 12 <= r <= zlen (sb s)) ∧ Forall is_byte (rb s') ∧ zlen (rb s') = zlen (rb s) ∧
    zlen (sb s') = zlen (sb s) ∧ (∃ l', dns_inv (server s') l') ∧ max (server s') = max (server s)) ∨
  hev_mapped_dns_handle (zlen (rb s)) (zlen (sb s)) s = Stuck ∧ ¬ strdup_ok (heap (server s)).
Proof.
  intros Hi Hm Hb Hlen. apply or_comm.
  assert (exchange_inv (zlen (rb s)) (zlen (sb s)) (max (server s)) (¬ strdup_ok (heap (server s))) s) as Hs.
  { split_and!; try done; [by exists l|]. destruct (decide (strdup_ok (heap (server s)))); [by left|by right]. }
  destruct (wp_or_never_val _ _ _ _ (handle_safe_wp _ _ _ _ _ Hs (conj (zlen_nonneg _) Hlen)))
    as [(r & s' & He & (Hi' & (Hm' & _) & Hb' & Hq' & Hs') & Hr)|[E HU]]; [right|by left].
  by exists r, s'.
Qed.

(** ** The answer to one A question *)

(** A name on the wire, the same bytes after the walk, and its dotted form. *)
Fixpoint wire (ls : list bytes) : bytes :=
  match ls with [] => [0] | l :: ls => zlen l :: l ++ wire ls end.
Fixpoint dots (ls : list bytes) : bytes :=
  match ls with [] => [] | l :: ls => 46 :: l ++ dots ls end.
Definition dotted (ls : list bytes) : bytes := List.tl (dots ls).

Definition is_label (l : bytes) : Prop := is_str l ∧ 0 < zlen l < 64.

Lemma dots_length ls : zlen (dots ls) = zlen (wire ls) - 1.
Proof. induction ls as [|l ls IH]; [done|]. cbn. rewrite !zlen_cons, !zlen_app. lia. Qed.

Lemma zget_app_r {A} (l k : list A) i : zlen l <= i → zget (l ++ k) i = zget k (i - zlen l).
Proof.
  intros Hi. unfold zget, zlen in *. destruct (Z.leb_spec 0 i), (Z.leb_spec 0 (i - Z.of_nat (length l))); try lia.
  rewrite lookup_app_r by lia. f_equal. lia.
Qed.

Lemma zget_mid {A} (l k : list A) x i : i = zlen l → zget (l ++ x :: k) i = Some x.
Proof. intros ->. rewrite zget_app_r by lia. by rewrite Z.sub_diag. Qed.

Lemma zset_mid {A} (l k : list A) x y i : i = zlen l → zset (l ++ x :: k) i y = Some (l ++ y :: k).
Proof.
  intros ->. rewrite zset_Some.
  - unfold zlen. rewrite Nat2Z.id. f_equal. by rewrite insert_app_r_alt, Nat.sub_diag by done.
  - unfold zlen. rewrite length_app. cbn. lia.
Qed.

Lemma walk_labels_val ls pre post d sbuf fuel qlen off :
  Forall is_label ls → off = zlen pre → qlen = zlen (pre ++ wire ls ++ post) → post ≠ [] →
  (length ls < fuel)%nat →
  walk_labels fuel qlen off (Exchange d (pre ++ wire ls ++ post) sbuf) =
    Val (Some (off + zlen (dots ls))) (Exchange d (pre ++ dots ls ++ 0 :: post) sbuf).
Proof.
  intros Hls. revert pre fuel off. induction Hls as [|l ls [Hl Hlen] Hls IH]; intros pre fuel off -> Hq Hpost Hf;
    (destruct fuel as [|fuel]; [lia|]); cbn [walk_labels].
  - erewrite bind_val by (unfold rd_q; cbn; by rewrite zget_mid by done). cbn. by rewrite Z.add_0_r.
  - assert (wire (l :: ls) ++ post = zlen l :: (l ++ wire ls ++ post)) as Hw.
    { cbn. by rewrite <- !app_assoc. }
    rewrite Hw in *. erewrite bind_val by (unfold rd_q; cbn; by rewrite zget_mid by done).
    rewrite truthy_ne by lia. cbn [negb]. cbv zeta.
    assert (0 < zlen post) as Hp0 by (destruct post; [done|rewrite zlen_cons; pose proof (zlen_nonneg post); lia]).
    pose proof (zlen_nonneg (wire ls)).
    destruct (Z.leb_spec qlen (zlen pre + (1 + zlen l))) as [Hle|Hgt].
    { rewrite Hq, zlen_app, zlen_cons, !zlen_app in Hle. lia. }
    erewrite bind_val by (unfold wr_q; cbn; by rewrite zset_mid by done). cbn [server rb sb].
    replace (pre ++ 46 :: l ++ wire ls ++ post) with ((pre ++ 46 :: l) ++ wire ls ++ post)
      by (by rewrite <- app_assoc).
    rewrite IH; [|rewrite zlen_app, zlen_cons; lia| |done|cbn in Hf; lia].
    + f_equal.
      * f_equal. cbn. rewrite zlen_cons, zlen_app. lia.
      * f_equal. rewrite <- !app_assoc. cbn. by rewrite <- app_assoc.
    + rewrite Hq, !zlen_app, !zlen_cons, !zlen_app. lia.
Qed.

Lemma dots_str ls : Forall is_label ls → is_str (dots ls).
Proof.
  induction 1 as [|l ls [Hl _] Hls IH]; [constructor|]. cbn.
  constructor; [lia|]. apply Forall_app. by split.
Qed.

(** Writing at the end of what has been written. *)
Lemma wr_s_app d q P R i v :
  i = zlen P → R ≠ [] → wr_s i v (Exchange d q (P ++ R)) = Val tt (Exchange d q ((P ++ [v]) ++ List.tl R)).
Proof.
  intros Hi HR. destruct R as [|x R]; [done|]. unfold wr_s. cbn [sb].
  rewrite zset_mid by done. cbn. by rewrite <- app_assoc.
Qed.

Lemma write_u16_app d q P R i v :
  i = zlen P → (2 <= length R)%nat →
  write_u16 i v (Exchange d q (P ++ R)) = Val tt (Exchange d q ((P ++ be16 (u16 v)) ++ drop 2 R)).
Proof.
  intros Hi HR. destruct R as [|x [|y R]]; cbn in HR; try lia. unfold write_u16. cbv zeta.
  erewrite bind_val by (by apply wr_s_app). rewrite wr_s_app; [|rewrite zlen_snoc; lia|done].
  cbn [List.tl drop]. unfold be16. by rewrite <- !app_assoc.
Qed.

Lemma write_u32_app d q P R i v :
  i = zlen P → (4 <= length R)%nat →
  write_u32 i v (Exchange d q (P ++ R)) = Val tt (Exchange d q ((P ++ be32 (u32 v)) ++ drop 4 R)).
Proof.
  intros Hi HR. destruct R as [|x [|y [|z [|w R]]]]; cbn in HR; try lia. unfold write_u32. cbv zeta.
  erewrite bind_val by (by apply wr_s_app).
  do 2 (erewrite bind_val by (apply wr_s_app; [rewrite !zlen_snoc; lia|done])).
  rewrite wr_s_app; [|rewrite !zlen_snoc; lia|done].
  cbn [List.tl drop]. unfold be32. by rewrite <- !app_assoc.
Qed.

(** One resource record: a pointer to the name, type A, class IN, a time to
    live of one second and four bytes of address. *)
Definition record_a (ipo ip : Z) : bytes :=
  be16 (u16 (Z.lor 0xc000 ipo)) ++ [0; 1; 0; 1; 0; 0; 0; 1; 0; 4] ++ be32 (u32 ip).

Lemma answers_one d q P R slen off ipo ip :
  off = zlen P → slen = zlen (P ++ R) → (16 <= length R)%nat →
  answers slen off [(ipo, ip)] (Exchange d q (P ++ R)) =
    Val (Some (off + 16)) (Exchange d q ((P ++ record_a ipo ip) ++ drop 16 R)).
Proof.
  intros Ho Hs HR. cbn [answers].
  destruct (Z.leb_spec slen (off + 15)) as [Hle|_]; [rewrite Hs, zlen_app in Hle; unfold zlen in *; lia|].
  erewrite bind_val by (apply write_u16_app; [lia|lia]).
  do 2 (erewrite bind_val by (apply write_u16_app; [rewrite !zlen_app, ?zlen_be16, ?zlen_be32; lia|rewrite !length_drop; lia])).
  erewrite bind_val by (apply write_u32_app; [rewrite !zlen_app, ?zlen_be16, ?zlen_be32; lia|rewrite !length_drop; lia]).
  erewrite bind_val by (apply write_u16_app; [rewrite !zlen_app, ?zlen_be16, ?zlen_be32; lia|rewrite !length_drop; lia]).
  erewrite bind_val by (apply write_u32_app; [rewrite !zlen_app, ?zlen_be16, ?zlen_be32; lia|rewrite !length_drop; lia]).
  unfold mret, M_ret. rewrite !drop_drop. cbn [Nat.add]. unfold record_a.
  do 2 f_equal. rewrite <- !app_assoc. done.
Qed.

(** The flags of the reply: QR is set and RA is copied from RD. *)
Definition reply_flags (f1 f2 : Z) : bytes := [Z.lor f1 128; Z.lor f2 (Z.shiftl (Z.land f1 1) 7)].

Definition flags_ok (f1 f2 : Z) : bool :=
  let fl := ntohs (Z.lor f1 (Z.shiftl f2 8)) in
  let fl' := Z.lor (u8 fl) (Z.shiftl (u8 (Z.shiftr fl 8)) 8) in
  let out := htons (Z.lor (Z.lor fl' 0x8000) (Z.shiftr (Z.land fl' 0x100) 1)) in
  bool_decide ([u8 out; u8 (Z.shiftr out 8)] = reply_flags f1 f2).

Lemma flags_ok_all :
  forallb (λ f1, forallb (flags_ok f1) (seqZ 0 256)) (seqZ 0 256) = true.
Proof. vm_compute. reflexivity. Qed.

Lemma flags_reply f1 f2 : is_byte f1 → is_byte f2 → flags_ok f1 f2 = true.
Proof.
  intros H1 H2. pose proof flags_ok_all as H. rewrite forallb_forall in H.
  specialize (H f1). rewrite forallb_forall in H. apply H.
  - apply list_elem_of_In, elem_of_seqZ. unfold is_byte in *. lia.
  - apply list_elem_of_In, elem_of_seqZ. unfold is_byte in *. lia.
Qed.

Lemma questions_one ls pre post d d' sbuf qlen off idx :
  Forall is_label ls → ls ≠ [] → off = zlen pre →
  qlen = zlen (pre ++ wire ls ++ 0 :: 1 :: 0 :: 1 :: post) →
  hev_mapped_dns_find (dotted ls) d = Val idx d' → 0 <= idx →
  questions 1 qlen off [] (Exchange d (pre ++ wire ls ++ 0 :: 1 :: 0 :: 1 :: post) sbuf) =
    Val (Some (off + zlen (wire ls) + 4, [(off, Z.lor (net d') idx)]))
      (Exchange d' (pre ++ dots ls ++ 0 :: 0 :: 1 :: 0 :: 1 :: post) sbuf).
Proof.
  intros Hls Hne Ho Hq Hf Hidx. cbn [questions]. change (32 <=? zlen []) with false. cbv iota zeta.
  pose proof (zlen_nonneg post) as Hp0. pose proof (dots_length ls) as Hd.
  pose proof (zlen_nonneg (dots ls)) as Hd0.
  assert (qlen = off + zlen (wire ls) + 4 + zlen post) as Hq2 by (rewrite Hq, !zlen_app, !zlen_cons; lia).
  destruct (Z.leb_spec qlen off); [lia|].
  erewrite bind_val.
  2: { apply walk_labels_val; try done. rewrite Hq2, Ho. pose proof (zlen_nonneg pre).
       enough (Z.of_nat (length ls) <= zlen (dots ls)) by lia. clear.
       induction ls as [|l ls IH]; [done|]. cbn [dots length]. rewrite zlen_cons, zlen_app.
       pose proof (zlen_nonneg l). lia. }
  cbn beta iota. destruct (Z.leb_spec qlen (off + zlen (dots ls) + 1 + 3)); [lia|].
  set (s1 := Exchange d (pre ++ dots ls ++ 0 :: 0 :: 1 :: 0 :: 1 :: post) sbuf).
  assert (∀ j v, 0 <= j < 4 → zget [0; 1; 0; 1] j = Some v →
    rd_q (off + zlen (dots ls) + 1 + j) s1 = Val v s1) as Hrd.
  { intros j v Hj Hv. unfold rd_q, s1. cbn [rb]. rewrite !zget_app_r by (rewrite ?zlen_app; lia).
    replace (off + zlen (dots ls) + 1 + j - zlen pre - zlen (dots ls)) with (1 + j) by lia.
    assert (zget (0 :: 0 :: 1 :: 0 :: 1 :: post) (1 + j) = zget [0; 1; 0; 1] j) as ->; [|by rewrite Hv].
    assert (j = 0 ∨ j = 1 ∨ j = 2 ∨ j = 3) as [->|[->|[->| ->]]] by lia; reflexivity. }
  assert (∀ j, (j = 0 ∨ j = 2) → read_u16 (off + zlen (dots ls) + 1 + j) s1 = Val 1 s1) as Hru.
  { intros j Hj. unfold read_u16. erewrite bind_val by (apply (Hrd j 0); [lia|by destruct Hj as [->| ->]]).
    replace (off + zlen (dots ls) + 1 + j + 1) with (off + zlen (dots ls) + 1 + (j + 1)) by lia.
    erewrite bind_val by (apply (Hrd (j + 1) 1); [lia|by destruct Hj as [->| ->]]). done. }
  erewrite bind_val by (apply Hru; by left). cbn [Z.eqb Pos.eqb].
  erewrite bind_val by (apply Hru; by right). cbn [Z.eqb Pos.eqb andb].
  assert (string_at (off + 1) s1 = Val (dotted ls) s1) as Hst.
  { unfold string_at, s1. cbn [rb]. destruct ls as [|l ls]; [done|]. cbn [dots app].
    replace (Z.to_nat (off + 1)) with (length (pre ++ [46])) by (rewrite length_app; unfold zlen in Ho; cbn; lia).
    replace (pre ++ 46 :: (l ++ dots ls) ++ 0 :: 0 :: 1 :: 0 :: 1 :: post)
      with ((pre ++ [46]) ++ (l ++ dots ls) ++ 0 :: 0 :: 1 :: 0 :: 1 :: post) by (by rewrite <- app_assoc).
    rewrite drop_app_length, cstr_app; [reflexivity|].
    apply Forall_cons in Hls as [[? _] ?]. apply Forall_app. split; [done|by apply dots_str]. }
  rewrite bind_assoc. erewrite bind_val by exact Hst. rewrite bind_assoc.
  erewrite bind_val by (eapply zoom_val; exact Hf).
  rewrite bind_assoc. erewrite bind_val by reflexivity. rewrite bind_ret.
  rewrite (proj2 (Z.leb_le _ _)) by done. cbn [app server]. unfold mret, M_ret, s1. cbn [rb sb].
  do 3 f_equal. f_equal. lia.
Qed.

Lemma ld_s_val d q l off a b :
  zget l off = Some a → zget l (off + 1) = Some b →
  ld_s off (Exchange d q l) = Val (Z.lor a (Z.shiftl b 8)) (Exchange d q l).
Proof.
  intros Ha Hb. unfold ld_s. erewrite bind_val by (unfold rd_s; cbn; by rewrite Ha).
  by erewrite bind_val by (unfold rd_s; cbn; by rewrite Hb).
Qed.
Lemma ld_q_val d q l off a b :
  zget q off = Some a → zget q (off + 1) = Some b →
  ld_q off (Exchange d q l) = Val (Z.lor a (Z.shiftl b 8)) (Exchange d q l).
Proof.
  intros Ha Hb. unfold ld_q. erewrite bind_val by (unfold rd_q; cbn; by rewrite Ha).
  by erewrite bind_val by (unfold rd_q; cbn; by rewrite Hb).
Qed.
Lemma st_s_val d q l l1 l2 off v :
  zset l off (u8 v) = Some l1 → zset l1 (off + 1) (u8 (Z.shiftr v 8)) = Some l2 →
  st_s off v (Exchange d q l) = Val tt (Exchange d q l2).
Proof.
  intros Ha Hb. unfold st_s. erewrite bind_val by (unfold wr_s; cbn; by rewrite Ha).
  unfold wr_s. cbn. by rewrite Hb.
Qed.
Lemma st_q_val d q l q1 q2 off v :
  zset q off (u8 v) = Some q1 → zset q1 (off + 1) (u8 (Z.shiftr v 8)) = Some q2 →
  st_q off v (Exchange d q l) = Val tt (Exchange d q2 l).
Proof.
  intros Ha Hb. unfold st_q. erewrite bind_val by (unfold wr_q; cbn; by rewrite Ha).
  unfold wr_q. cbn. by rewrite Hb.
Qed.

(** Accesses to the fields of a header in front of [t]. *)
Lemma zset_0 {A} (x v : A) l : zset (x :: l) 0 v = Some (v :: l).
Proof. rewrite zset_Some; [done|]. rewrite zlen_cons. pose proof (zlen_nonneg l). lia. Qed.
Lemma zset_S {A} (x v : A) l i : 0 < i → zset (x :: l) i v = (x ::.) <$> zset l (i - 1) v.
Proof.
  intros Hi. unfold zset. rewrite zlen_cons.
  destruct (Z.leb_spec 0 i), (Z.leb_spec 0 (i - 1)), (Z.ltb_spec i (1 + zlen l)),
    (Z.ltb_spec (i - 1) (zlen l)); try lia; cbn; try done.
  by replace (Z.to_nat i) with (S (Z.to_nat (i - 1))) by lia.
Qed.

Ltac hget := reflexivity.
Ltac hset :=
  repeat (rewrite zset_S by lia); cbn [Z.sub Z.add Z.opp Z.pos_sub Pos.add Pos.pred_double];
  rewrite zset_0; reflexivity.

Lemma handle_header d q i1 i2 f1 f2 a1 a2 n1 n2 r1 r2 t u n :
  n = 12 + zlen t → n < 2147483648 →
  let req := i1 :: i2 :: f1 :: f2 :: 0 :: 1 :: a1 :: a2 :: n1 :: n2 :: r1 :: r2 :: t in
  q = req → n <= zlen u →
  ∀ (f : M exchange Z),
  (copy_request n;;
   qd ← ld_q off_qd; st_q off_qd (ntohs qd);;
   fl ← ld_s off_fl; st_s off_fl (ntohs fl);;
   st_s off_ns 0;; st_s off_an 0;; st_s off_ar 0;; f) (Exchange d q u) =
  let fl := ntohs (Z.lor f1 (Z.shiftl f2 8)) in
  f (Exchange d (i1 :: i2 :: f1 :: f2 :: 1 :: 0 :: a1 :: a2 :: n1 :: n2 :: r1 :: r2 :: t)
    (i1 :: i2 :: u8 fl :: u8 (Z.shiftr fl 8) :: 0 :: 1 :: 0 :: 0 :: 0 :: 0 :: 0 :: 0 :: t ++ drop (Z.to_nat n) u)).
Proof.
  intros Hn Hmax req -> Hu f. pose proof (zlen_nonneg t).
  assert (zlen req = n) as Hreq by (unfold req; rewrite !zlen_cons; lia).
  assert (copy_request n (Exchange d req u) =
    Val tt (Exchange d req (req ++ drop (Z.to_nat n) u))) as Hc.
  { unfold copy_request. cbv zeta. cbn [rb sb]. rewrite Z.mod_small by lia.
    rewrite (proj2 (Z.leb_le _ _)) by lia. rewrite (proj2 (Z.leb_le _ _)) by lia. cbn [andb].
    rewrite take_ge by (unfold zlen in Hreq; lia). done. }
  erewrite bind_val by exact Hc. unfold req, off_qd, off_fl, off_ns, off_an, off_ar. cbn [app].
  erewrite bind_val by (apply ld_q_val; hget).
  erewrite bind_val by (eapply st_q_val; hset).
  erewrite bind_val by (apply ld_s_val; hget).
  do 4 (erewrite bind_val by (eapply st_s_val; hset)).
  cbn. reflexivity.
Qed.

Lemma handle_question d d' i1 i2 f1 f2 a1 a2 n1 n2 r1 r2 ls rest u idx qlen slen :
  let hdr := [i1; i2; f1; f2; 0; 1; a1; a2; n1; n2; r1; r2] in
  let req := hdr ++ wire ls ++ [0; 1; 0; 1] ++ rest in
  is_byte f1 → is_byte f2 → Forall is_label ls → ls ≠ [] →
  hev_mapped_dns_find (dotted ls) d = Val idx d' → 0 <= idx →
  qlen = zlen req → qlen < 2147483648 → slen = zlen u → qlen <= slen → 32 + zlen (wire ls) <= slen →
  ∃ q' tl,
    hev_mapped_dns_handle qlen slen (Exchange d req u) =
      Val (32 + zlen (wire ls))
        (Exchange d' q' ([i1; i2] ++ reply_flags f1 f2 ++ [0; 1; 0; 1; 0; 0; 0; 0] ++ wire ls ++ [0; 1; 0; 1] ++
           record_a 12 (Z.lor (net d') idx) ++ tl)).
Proof.
  intros hdr req Hf1 Hf2 Hls Hne Hfind Hidx Hq Hmax Hs Hqs Hroom.
  pose proof (zlen_nonneg rest) as Hr0. pose proof (zlen_nonneg (wire ls)) as Hw0.
  assert (qlen = 16 + zlen (wire ls) + zlen rest) as Hq2.
  { rewrite Hq. unfold req, hdr. rewrite !zlen_app, !zlen_cons. change (zlen []) with 0. lia. }
  unfold hev_mapped_dns_handle. destruct (Z.ltb_spec slen qlen); [lia|].
  rewrite Z.mod_small by lia. destruct (Z.ltb_spec qlen sizeof_DNSHdr); [unfold sizeof_DNSHdr in *; lia|].
  erewrite (handle_header d req i1 i2 f1 f2 a1 a2 n1 n2 r1 r2 (wire ls ++ [0; 1; 0; 1] ++ rest) u qlen);
    [|rewrite Hq2, !zlen_app; change (zlen [0; 1; 0; 1]) with 4; lia|lia|done|lia].
  cbv zeta. set (fl := ntohs (Z.lor f1 (Z.shiftl f2 8))).
  erewrite bind_val by (apply ld_q_val; reflexivity).
  change (Z.lor 1 (Z.shiftl 0 8)) with 1. change (32 <? 1) with false. cbv iota.
  change (Z.to_nat 1) with 1%nat.
  erewrite bind_val.
  2: { apply (questions_one ls [i1; i2; f1; f2; 1; 0; a1; a2; n1; n2; r1; r2] rest d d' _ qlen sizeof_DNSHdr idx);
       try done. }
  cbn beta iota. unfold sizeof_DNSHdr.
  set (P := [i1; i2; u8 fl; u8 (Z.shiftr fl 8); 0; 1; 0; 0; 0; 0; 0; 0] ++ wire ls ++ [0; 1; 0; 1]).
  set (R := rest ++ drop (Z.to_nat qlen) u).
  assert (i1 :: i2 :: u8 fl :: u8 (Z.shiftr fl 8) :: 0 :: 1 :: 0 :: 0 :: 0 :: 0 :: 0 :: 0
    :: (wire ls ++ [0; 1; 0; 1] ++ rest) ++ drop (Z.to_nat qlen) u = P ++ R) as HPR.
  { unfold P, R. cbn [app]. rewrite <- !app_assoc. done. }
  assert (zlen P = 16 + zlen (wire ls)) as HP.
  { unfold P. rewrite !zlen_app, !zlen_cons. change (zlen []) with 0. lia. }
  assert (zlen R = zlen rest + (slen - qlen)) as HR.
  { unfold R. rewrite zlen_app. unfold zlen in *. rewrite length_drop. lia. }
  rewrite HPR. erewrite bind_val.
  2: { apply answers_one; [lia|rewrite zlen_app; lia|]. unfold zlen in *. lia. }
  cbn beta iota. unfold P. rewrite <- !app_assoc. cbn [app]. unfold off_fl, off_an.
  erewrite bind_val by (apply ld_s_val; hget).
  erewrite bind_val by (eapply st_s_val; hset). erewrite bind_val by (eapply st_s_val; hset).
  pose proof (flags_reply f1 f2 Hf1 Hf2) as Hfl. apply bool_decide_eq_true in Hfl. fold fl in Hfl.
  injection Hfl as Hfl1 Hfl2. rewrite Hfl1, Hfl2.
  eexists _, _. unfold mret, M_ret. f_equal. lia.
Qed.

(** ** Properties *)

Definition query_www : bytes :=
  [18; 52; 1; 0; 0; 1; 0; 0; 0; 0; 0; 0] ++ wire [www] ++ [0; 1; 0; 1].

Definition exchange0 : exchange := Exchange dns0 query_www (replicate 64 0).

(** C6: on every request, however malformed, the handler terminates, reads and
    writes inside of the two buffers only, returns -1 or a length between that
    of a header and that of the response buffer, and keeps the cache
    consistent: unless the copy of a name fails for which there is a node, the one
    case in which the cache is undefined. *)
Theorem handle_safe s l :
  dns_inv (server s) l → 0 < max (server s) → Forall is_byte (rb s) → zlen (rb s) < 2147483648 →
  (∃ r s', hev_mapped_dns_handle (zlen (rb s)) (zlen (sb s)) s = Val r s' ∧
    (r = -1 ∨ 12 <= r <= zlen (sb s)) ∧ zlen (sb s') = zlen (sb s) ∧ ∃ l', dns_inv (server s') l') ∨
  hev_mapped_dns_handle (zlen (rb s)) (zlen (sb s)) s = Stuck ∧ ¬ strdup_ok (heap (server s)).
Proof.
  intros Hi Hm Hb Hlen. destruct (handle_outcome s l Hi Hm Hb Hlen) as [(r & s' & He & Hr & _ & _ & Hs' & Hi' & _)|]; [|by right].
  left. by exists r, s'.
Qed.

Lemma handle_safe_witness :
  ∃ r s', hev_mapped_dns_handle 21 64 exchange0 = Val r s' ∧ (r = -1 ∨ 12 <= r <= 64).
Proof.
  destruct (handle_safe exchange0 [] dns0_inv) as [(r & s' & He & Hr & _)|[_ []]].
  - done.
  - apply Forall_forall. intros x Hx. repeat (apply elem_of_cons in Hx as [->|Hx]; [by unfold is_byte|]).
    by apply elem_of_nil in Hx.
  - done.
  - exists r, s'. split; [exact He|exact Hr].
  - repeat constructor.
Defined.

(** C7: a well-formed request with one A question is answered, when memory is
    available and the response buffer has room, with the request's identifier
    and question, the reply flags, no other sections, and one A record that
    holds [net | idx] for the index of the dotted name in the cache. *)
Theorem handle_answers d l i1 i2 f1 f2 a1 a2 n1 n2 r1 r2 ls rest u :
  let req := [i1; i2; f1; f2; 0; 1; a1; a2; n1; n2; r1; r2] ++ wire ls ++ [0; 1; 0; 1] ++ rest in
  let r := spec_find (max d) (can_alloc d) (dotted ls) l in
  dns_inv d l → 0 < max d → is_byte f1 → is_byte f2 → Forall is_label ls → ls ≠ [] → 0 <= r.1 →
  zlen req < 2147483648 → zlen req <= zlen u → 32 + zlen (wire ls) <= zlen u →
  ∃ d' q' tl,
    hev_mapped_dns_handle (zlen req) (zlen u) (Exchange d req u) =
      Val (32 + zlen (wire ls))
        (Exchange d' q' ([i1; i2] ++ reply_flags f1 f2 ++ [0; 1; 0; 1; 0; 0; 0; 0] ++ wire ls ++ [0; 1; 0; 1] ++
           record_a 12 (Z.lor (net d) r.1) ++ tl)) ∧ dns_inv d' r.2.
Proof.
  intros req r Hi Hm Hf1 Hf2 Hls Hne Hr Hlen Hroom1 Hroom2.
  assert (is_str (dotted ls)) as Hstr.
  { pose proof (dots_str ls Hls) as Hd. destruct ls as [|l0 ls]; [done|]. cbn in *.
    by apply Forall_cons in Hd as [_ Hd]. }
  destruct (find_refines d l (dotted ls) Hi Hstr Hm (or_intror Hr)) as (d' & He & Hi' & (_ & Hn & _) & _).
  destruct (handle_question d d' i1 i2 f1 f2 a1 a2 n1 n2 r1 r2 ls rest u r.1 (zlen req) (zlen u))
    as (q' & tl & Hh); try done.
  exists d', q', tl. split; [|done]. fold req in Hh. rewrite Hh, Hn. done.
Qed.

Lemma handle_answers_witness :
  ∃ d' q' tl, hev_mapped_dns_handle 21 64 exchange0 =
    Val 37 (Exchange d' q' ([18; 52; 129; 128; 0; 1; 0; 1; 0; 0; 0; 0] ++ wire [www] ++ [0; 1; 0; 1] ++
      record_a 12 (Z.lor 1681915904 0) ++ tl)).
Proof.
  destruct (handle_answers dns0 [] 18 52 1 0 0 0 0 0 0 0 [www] [] (replicate 64 0)) as (d' & q' & tl & He & _).
  - apply dns0_inv.
  - done.
  - by unfold is_byte.
  - by unfold is_byte.
  - repeat constructor; done.
  - done.
  - done.
  - done.
  - done.
  - done.
  - exists d', q', tl. exact He.
Defined.
