(* ===== verification/RingBuffer.v ===== *)
(** * RingBuffer: the ring buffer of src/misc/hev-ring-buffer.c

    The TCP session reads bytes of the SOCKS server into the buffer, hands them
    to the TCP stack without copying them, and releases them when the stack
    reports that they were acknowledged. The buffer therefore holds two queues
    one after the other: bytes in flight, then bytes not yet read. *)
From S2P Require Import Prelude Bytes.

Record HevRingBuffer := Ring {
  rp : Z; wp : Z; rda_size : Z; use_size : Z; max_size : Z; data : bytes
}.

(** The part of the data that an [iovec] of the code points to. *)
Record iovec := Iov { iov_off : Z; iov_len : Z }.

Definition hev_ring_buffer_alloca (data : bytes) : HevRingBuffer := Ring 0 0 0 0 (zlen data) data.

Definition hev_ring_buffer_get_max_size (self : HevRingBuffer) : Z := max_size self.
Definition hev_ring_buffer_get_use_size (self : HevRingBuffer) : Z := use_size self.

(** The segments that are filled in; the code returns their number. *)
Definition hev_ring_buffer_reading (self : HevRingBuffer) : list iovec :=
  if 0 =? rda_size self then [] else
  let upper_size := u64 (max_size self - rp self) in
  if rda_size self <=? upper_size then [Iov (rp self) (rda_size self)]
  else [Iov (rp self) upper_size; Iov 0 (u64 (rda_size self - upper_size))].

Definition hev_ring_buffer_read_finish (size : Z) (self : HevRingBuffer) : HevRingBuffer :=
  Ring (u64 (rp self + size) mod max_size self) (wp self) (u64 (rda_size self - size))
    (use_size self) (max_size self) (data self).

Definition hev_ring_buffer_read_release (size : Z) (self : HevRingBuffer) : HevRingBuffer :=
  let use_size := u64 (use_size self - size) in
  if negb (truthy use_size)
  then Ring 0 0 (rda_size self) use_size (max_size self) (data self)
  else Ring (rp self) (wp self) (rda_size self) use_size (max_size self) (data self).

Definition hev_ring_buffer_writing (self : HevRingBuffer) : list iovec :=
  if use_size self =? max_size self then [] else
  let upper_size := u64 (max_size self - wp self) in
  let spc_size := u64 (max_size self - use_size self) in
  if spc_size <=? upper_size then [Iov (wp self) spc_size]
  else [Iov (wp self) upper_size; Iov 0 (u64 (spc_size - upper_size))].

Definition hev_ring_buffer_write_finish (size : Z) (self : HevRingBuffer) : HevRingBuffer :=
  Ring (rp self) (u64 (wp self + size) mod max_size self) (u64 (rda_size self + size))
    (u64 (use_size self + size)) (max_size self) (data self).

(** ** What the callers do with the segments

    [gather] is the bytes that [writev] or [tcp_write] takes from the segments,
    [scatter] what [readv] leaves when it delivers [bs] into them. *)
Definition gather (data : bytes) (iovs : list iovec) : bytes :=
  mjoin ((λ v, slice data (iov_off v) (iov_len v)) <$> iovs).

Fixpoint scatter (data : bytes) (iovs : list iovec) (bs : bytes) : bytes :=
  match iovs with
  | [] => data
  | v :: iovs =>
      let n := Z.to_nat (iov_len v) in
      scatter (overwrite data (iov_off v) (take n bs)) iovs (drop n bs)
  end.

Definition iov_total (iovs : list iovec) : Z := foldr (λ v n, iov_len v + n) 0 iovs.

(** Reading [bs] from the peer into the buffer, as far as it has room. *)
Definition ring_write (bs : bytes) (self : HevRingBuffer) : HevRingBuffer :=
  let iovs := hev_ring_buffer_writing self in
  let bs := take (Z.to_nat (iov_total iovs)) bs in
  hev_ring_buffer_write_finish (zlen bs)
    (Ring (rp self) (wp self) (rda_size self) (use_size self) (max_size self) (scatter (data self) iovs bs)).

(** Handing the first [n] unread bytes on. *)
Definition ring_read (n : Z) (self : HevRingBuffer) : bytes * HevRingBuffer :=
  let bs := take (Z.to_nat n) (gather (data self) (hev_ring_buffer_reading self)) in
  (bs, hev_ring_buffer_read_finish (zlen bs) self).

(** ** Representation

    [flight] and [unread] are the bytes in flight and the bytes not yet read;
    together they start at the offset [base] and may wrap around the end. *)
Record ring_rep (r : HevRingBuffer) (base : Z) (flight unread : bytes) : Prop := {
  rr_max : 0 < max_size r < 4611686018427387904;
  rr_len : zlen (data r) = max_size r;
  rr_fit : zlen flight + zlen unread <= max_size r;
  rr_base : 0 <= base < max_size r;
  rr_use : use_size r = zlen flight + zlen unread;
  rr_rda : rda_size r = zlen unread;
  rr_rp : rp r = (base + zlen flight) mod max_size r;
  rr_wp : wp r = (base + zlen flight + zlen unread) mod max_size r;
  rr_cell : ∀ i, 0 <= i < zlen flight + zlen unread →
    zget (data r) ((base + i) mod max_size r) = zget (flight ++ unread) i
}.

Lemma zlen_0 {A} (l : list A) : zlen l = 0 → l = [].
Proof. destruct l; [done|]. rewrite zlen_cons. pose proof (zlen_nonneg l). lia. Qed.

Lemma mod_wrap x m : 0 < m → 0 <= x < 2 * m → x mod m = if x <? m then x else x - m.
Proof.
  intros Hm Hx. destruct (Z.ltb_spec x m); [apply Z.mod_small; lia|].
  symmetry. apply (Z.mod_unique _ _ 1); lia.
Qed.

Lemma u64_small x : 0 <= x < 18446744073709551616 → u64 x = x.
Proof. apply Z.mod_small. Qed.

(** Case analysis on whether an index wraps around. *)
Ltac wraps :=
  repeat match goal with
  | |- context [ ?x mod ?m ] => rewrite (mod_wrap x m) by lia
  | H : context [ ?x mod ?m ] |- _ => rewrite (mod_wrap x m) in H by lia
  end;
  repeat match goal with
  | |- context [ if ?a <? ?b then _ else _ ] => destruct (Z.ltb_spec a b)
  | H : context [ if ?a <? ?b then _ else _ ] |- _ => destruct (Z.ltb_spec a b)
  end.

Ltac sizes :=
  repeat match goal with
  | |- context [ zlen ?l ] =>
      lazymatch goal with H : 0 <= zlen l |- _ => fail | _ => pose proof (zlen_nonneg l) end
  | _ : context [ zlen ?l ] |- _ =>
      lazymatch goal with H : 0 <= zlen l |- _ => fail | _ => pose proof (zlen_nonneg l) end
  end.

Lemma alloca_rep d : 0 < zlen d < 4611686018427387904 → ring_rep (hev_ring_buffer_alloca d) 0 [] [].
Proof.
  intros Hd. split; cbn [hev_ring_buffer_alloca rp wp rda_size use_size max_size data];
    change (zlen []) with 0; try done; try lia; by rewrite Z.mod_small by lia.
Qed.

(** ** Reading *)

Lemma zget_unread r base f u i :
  ring_rep r base f u → 0 <= i < zlen u → zget (data r) ((base + zlen f + i) mod max_size r) = zget u i.
Proof.
  intros R Hi. sizes. rewrite <- Z.add_assoc, (rr_cell _ _ _ _ R) by lia.
  rewrite zget_app. destruct (Z.ltb_spec (zlen f + i) (zlen f)); [lia|]. f_equal. lia.
Qed.

Lemma reading_gather r base f u :
  ring_rep r base f u → gather (data r) (hev_ring_buffer_reading r) = u.
Proof.
  intros R. pose proof (λ i, zget_unread r base f u i R) as Hc. destruct R as [Hm Hl Hf Hb Hu Hr Hp _ _].
  unfold hev_ring_buffer_reading, gather. sizes. rewrite Hr, Hp.
  destruct (Z.eqb_spec 0 (zlen u)) as [He|Hne].
  { destruct u; [done|]. rewrite zlen_cons in He. sizes. lia. }
  assert (0 <= (base + zlen f) mod max_size r < max_size r) as Hp' by (apply Z.mod_pos_bound; lia).
  rewrite !u64_small by lia.
  destruct (Z.leb_spec (zlen u) (max_size r - (base + zlen f) mod max_size r)) as [Hfit|Hwrap];
    cbn [fmap list_fmap mjoin list_join iov_off iov_len]; rewrite app_nil_r; apply zget_ext.
  - rewrite zlen_slice; lia.
  - intros i Hi. rewrite zlen_slice in Hi by lia. rewrite zget_slice by lia.
    destruct (Z.ltb_spec i (zlen u)); [|lia]. rewrite <- Hc by lia. f_equal. wraps; lia.
  - rewrite u64_small, zlen_app, !zlen_slice by lia. lia.
  - intros i Hi. rewrite u64_small in * by lia. rewrite zlen_app, !zlen_slice in Hi by lia.
    rewrite zget_app, zlen_slice by lia. rewrite <- Hc by lia.
    destruct (Z.ltb_spec i (max_size r - (base + zlen f) mod max_size r)) as [Hi1|Hi1];
      rewrite zget_slice by lia; match goal with |- context [?a <? ?b] => destruct (Z.ltb_spec a b) end;
      try lia; f_equal; wraps; lia.
Qed.

Lemma take_zlen_app {A} (l k : list A) : take (Z.to_nat (zlen l)) (l ++ k) = l.
Proof. unfold zlen. rewrite Nat2Z.id. apply take_app_length. Qed.

Lemma read_finish_rep r base f bs u :
  ring_rep r base f (bs ++ u) → ring_rep (hev_ring_buffer_read_finish (zlen bs) r) base (f ++ bs) u.
Proof.
  intros [Hm Hl Hf Hb Hu Hr Hp Hw Hc]. rewrite zlen_app in *. sizes.
  unfold hev_ring_buffer_read_finish.
  assert (0 <= rp r < max_size r) by (rewrite Hp; apply Z.mod_pos_bound; lia).
  split; cbn [rp wp rda_size use_size max_size data]; rewrite ?zlen_app; try lia.
  - rewrite Hr, u64_small; lia.
  - rewrite u64_small by lia. rewrite Hp, Z.add_mod_idemp_l by lia. f_equal. lia.
  - rewrite Hw. f_equal. lia.
  - intros i Hi. rewrite <- app_assoc. apply Hc. lia.
Qed.

Lemma ring_read_rep r base f u n :
  ring_rep r base f u → 0 <= n <= zlen u →
  (ring_read n r).1 = take (Z.to_nat n) u ∧
  ring_rep (ring_read n r).2 base (f ++ take (Z.to_nat n) u) (drop (Z.to_nat n) u).
Proof.
  intros R Hn. unfold ring_read. rewrite (reading_gather _ _ _ _ R). cbn [fst snd].
  split; [done|]. apply read_finish_rep. by rewrite take_drop.
Qed.

(** ** Releasing *)

Lemma read_release_rep r base bs f u :
  ring_rep r base (bs ++ f) u →
  ∃ base', (base' = (base + zlen bs) mod max_size r ∨ f = []) ∧
    data (hev_ring_buffer_read_release (zlen bs) r) = data r ∧
    max_size (hev_ring_buffer_read_release (zlen bs) r) = max_size r ∧
    ring_rep (hev_ring_buffer_read_release (zlen bs) r) base' f u.
Proof.
  intros [Hm Hl Hf Hb Hu Hr Hp Hw Hc]. rewrite zlen_app in *. sizes.
  unfold hev_ring_buffer_read_release. rewrite u64_small by lia. unfold truthy.
  destruct (Z.eqb_spec (use_size r - zlen bs) 0) as [He|Hne]; cbn [negb].
  - exists 0. assert (zlen f = 0) by lia. split_and!; [right; by apply zlen_0|done|done|].
    split; cbn [rp wp rda_size use_size max_size data]; try lia; rewrite ?Z.mod_small by lia; lia.
  - exists ((base + zlen bs) mod max_size r). split_and!; [by left|done|done|].
    assert (0 <= (base + zlen bs) mod max_size r < max_size r) by (apply Z.mod_pos_bound; lia).
    split; cbn [rp wp rda_size use_size max_size data]; try lia.
    + rewrite Hp, Z.add_mod_idemp_l by lia. f_equal. lia.
    + rewrite Hw. rewrite <- !Z.add_assoc, Z.add_mod_idemp_l by lia. f_equal. lia.
    + intros i Hi. rewrite Z.add_mod_idemp_l, <- Z.add_assoc, Hc by lia.
      rewrite <- app_assoc, zget_app. destruct (Z.ltb_spec (zlen bs + i) (zlen bs)); [lia|]. f_equal. lia.
Qed.

(** ** Writing *)

Lemma writing_total r base f u :
  ring_rep r base f u → iov_total (hev_ring_buffer_writing r) = max_size r - (zlen f + zlen u).
Proof.
  intros [Hm Hl Hf Hb Hu Hr Hp Hw Hc]. sizes. unfold hev_ring_buffer_writing.
  assert (0 <= wp r < max_size r) by (rewrite Hw; apply Z.mod_pos_bound; lia).
  destruct (Z.eqb_spec (use_size r) (max_size r)); [cbn; lia|]. rewrite !u64_small by lia.
  destruct (Z.leb_spec (max_size r - use_size r) (max_size r - wp r)); cbn; rewrite ?u64_small by lia; lia.
Qed.

(** The bytes are stored in order from [wp] on, wrapping around the end, and no
    other cell changes. *)
Lemma writing_scatter r base f u bs :
  ring_rep r base f u → zlen bs <= max_size r - (zlen f + zlen u) →
  let d := scatter (data r) (hev_ring_buffer_writing r) bs in
  zlen d = max_size r ∧
  (∀ i, 0 <= i < zlen bs → zget d ((wp r + i) mod max_size r) = zget bs i) ∧
  (∀ i, 0 <= i < zlen f + zlen u →
     zget d ((base + i) mod max_size r) = zget (data r) ((base + i) mod max_size r)).
Proof.
  intros [Hm Hl Hf Hb Hu Hr Hp Hw _] Hbs. sizes. cbv zeta. unfold hev_ring_buffer_writing.
  assert (0 <= wp r < max_size r) by (rewrite Hw; apply Z.mod_pos_bound; lia).
  destruct (Z.eqb_spec (use_size r) (max_size r)) as [He|Hne]; [split_and!; [done|lia|done]|].
  rewrite !u64_small by lia.
  destruct (Z.leb_spec (max_size r - use_size r) (max_size r - wp r)) as [Hfit|Hwrap];
    cbn [scatter iov_off iov_len].
  - assert (take (Z.to_nat (max_size r - use_size r)) bs = bs) as ->
      by (apply take_ge; unfold zlen in *; lia).
    rewrite zlen_overwrite by lia. split_and!; [done| |]; intros i Hi; rewrite zget_overwrite by lia.
    + rewrite Z.mod_small by lia. destruct (Z.leb_spec (wp r) (wp r + i)), (Z.ltb_spec (wp r + i) (wp r + zlen bs));
        try lia. cbn [andb]. f_equal. lia.
    + destruct (Z.leb_spec (wp r) ((base + i) mod max_size r)),
        (Z.ltb_spec ((base + i) mod max_size r) (wp r + zlen bs)); cbn [andb]; try done.
      exfalso. revert Hw. wraps; lia.
  - rewrite u64_small by lia. remember (max_size r - wp r) as up eqn:Hup.
    set (b1 := take (Z.to_nat up) bs). set (b2 := drop (Z.to_nat up) bs).
    assert (bs = b1 ++ b2) as Hsplit by (symmetry; apply take_drop).
    assert (zlen b1 = Z.min up (zlen bs)) as Hb1 by (unfold b1, zlen in *; rewrite length_take; lia).
    assert (zlen b2 = zlen bs - zlen b1) as Hb2 by (rewrite Hsplit at 1; rewrite zlen_app; lia).
    assert (take (Z.to_nat (max_size r - use_size r - up)) b2 = b2) as ->
      by (apply take_ge; unfold zlen in *; lia).
    assert (zlen (overwrite (data r) (wp r) b1) = max_size r) as Hl1 by (rewrite zlen_overwrite; lia).
    rewrite zlen_overwrite by lia. split_and!; [done| |]; intros i Hi; rewrite zget_overwrite by lia.
    + rewrite Hsplit, zget_app. destruct (Z.ltb_spec i (zlen b1)).
      * rewrite Z.mod_small by lia. destruct (Z.leb_spec 0 (wp r + i)), (Z.ltb_spec (wp r + i) (0 + zlen b2));
          try lia; cbn [andb].
        rewrite zget_overwrite by lia.
        destruct (Z.leb_spec (wp r) (wp r + i)), (Z.ltb_spec (wp r + i) (wp r + zlen b1)); try lia.
        cbn [andb]. f_equal. lia.
      * rewrite mod_wrap by lia. destruct (Z.ltb_spec (wp r + i) (max_size r)); [lia|].
        destruct (Z.leb_spec 0 (wp r + i - max_size r)), (Z.ltb_spec (wp r + i - max_size r) (0 + zlen b2));
          try lia. cbn [andb]. f_equal. lia.
    + rewrite zget_overwrite by lia.
      destruct (Z.leb_spec 0 ((base + i) mod max_size r)),
        (Z.ltb_spec ((base + i) mod max_size r) (0 + zlen b2)),
        (Z.leb_spec (wp r) ((base + i) mod max_size r)),
        (Z.ltb_spec ((base + i) mod max_size r) (wp r + zlen b1)); cbn [andb]; try done;
        exfalso; revert Hw; wraps; lia.
Qed.

Lemma ring_write_rep r base f u bs :
  ring_rep r base f u →
  ring_rep (ring_write bs r) base f
    (u ++ take (Z.to_nat (max_size r - (zlen f + zlen u))) bs).
Proof.
  intros R. unfold ring_write. rewrite (writing_total _ _ _ _ R).
  set (b := take _ bs). assert (zlen b <= max_size r - (zlen f + zlen u)) as Hb.
  { pose proof (rr_fit _ _ _ _ R). unfold b, zlen in *. rewrite length_take. lia. }
  destruct (writing_scatter _ _ _ _ b R Hb) as (Hd & Hn & Ho). sizes.
  destruct R as [Hm Hl Hf Hbs Hu Hr Hp Hw Hc].
  assert (0 <= wp r < max_size r) by (rewrite Hw; apply Z.mod_pos_bound; lia).
  unfold hev_ring_buffer_write_finish.
  split; cbn [rp wp rda_size use_size max_size data]; rewrite ?zlen_app; try done; try lia.
  - rewrite u64_small; lia.
  - rewrite u64_small; lia.
  - rewrite u64_small by lia. rewrite Hw, Z.add_mod_idemp_l by lia. f_equal. lia.
  - intros i Hi. rewrite app_assoc, zget_app, zlen_app. destruct (Z.ltb_spec i (zlen f + zlen u)).
    + rewrite Ho, Hc by lia. done.
    + rewrite <- Hn by lia. f_equal. rewrite Hw, Z.add_mod_idemp_l by lia. f_equal. lia.
Qed.

(** ** Cells

    The cells that hold [n] bytes from the position [b] on. *)
Definition ring_cells (m b n : Z) : list Z := (λ i, (b + i) mod m) <$> seqZ 0 n.

(** The cells of segments, and that they lie inside of the data. *)
Definition iov_cells (iovs : list iovec) : list Z := mjoin ((λ v, seqZ (iov_off v) (iov_len v)) <$> iovs).
Definition iov_ok (m : Z) (v : iovec) : Prop := 0 <= iov_off v ∧ 0 <= iov_len v ∧ iov_off v + iov_len v <= m.

Lemma fmap_seqZ_shift {A} (f : Z → A) a n : f <$> seqZ a n = (λ i, f (a + i)) <$> seqZ 0 n.
Proof. unfold seqZ. rewrite <- !list_fmap_compose. apply list_fmap_ext. intros i x _. cbn. f_equal. lia. Qed.

Lemma ring_cells_app m b n k : 0 <= n → 0 <= k → ring_cells m b (n + k) = ring_cells m b n ++ ring_cells m (b + n) k.
Proof.
  intros Hn Hk. unfold ring_cells. rewrite seqZ_app, fmap_app by lia. f_equal. rewrite fmap_seqZ_shift.
  apply list_fmap_ext. intros i x _. f_equal. lia.
Qed.

Lemma ring_cells_mod m b n : 0 < m → ring_cells m (b mod m) n = ring_cells m b n.
Proof. intros Hm. apply list_fmap_ext. intros i x _. by rewrite Z.add_mod_idemp_l by lia. Qed.

Lemma zlen_ring_cells m b n : 0 <= n → zlen (ring_cells m b n) = n.
Proof. intros Hn. unfold ring_cells, zlen. rewrite length_fmap, length_seqZ. lia. Qed.

Lemma ring_cells_seqZ m b n : 0 <= b → b + n <= m → ring_cells m b n = seqZ b n.
Proof.
  intros Hb Hm. unfold ring_cells. rewrite <- (list_fmap_id (seqZ b n)), (fmap_seqZ_shift id b n).
  apply list_fmap_ext. intros i x [? ?]%lookup_seqZ. subst. unfold id. apply Z.mod_small. lia.
Qed.

Lemma ring_cells_wrap m n : 0 < m → ring_cells m m n = ring_cells m 0 n.
Proof. intros Hm. rewrite <- (ring_cells_mod m m) by done. by rewrite Z.mod_same by lia. Qed.

(** What the cells in use hold. *)
Lemma ring_cells_hold r base f u :
  ring_rep r base f u →
  Forall2 (λ c b, zget (data r) c = Some b) (ring_cells (max_size r) base (zlen (f ++ u))) (f ++ u).
Proof.
  intros [Hm Hl Hf Hb Hu Hr Hp Hw Hc]. rewrite <- zlen_app in Hc. pose proof (zlen_nonneg (f ++ u)).
  apply Forall2_same_length_lookup. split.
  { pose proof (zlen_ring_cells (max_size r) base (zlen (f ++ u))). unfold zlen in *. lia. }
  intros i c b Hci Hbi. apply list_lookup_fmap_Some in Hci as (x & -> & [-> Hi]%lookup_seqZ).
  rewrite Z.add_0_l, Hc by lia. unfold zget. destruct (Z.leb_spec 0 (Z.of_nat i)); [|lia]. by rewrite Nat2Z.id.
Qed.

Lemma iov_cells_inside m iovs : Forall (iov_ok m) iovs → Forall (λ c, 0 <= c < m) (iov_cells iovs).
Proof.
  induction 1 as [|v iovs Hv _ IH]; [constructor|]. apply Forall_app. split; [|done].
  unfold iov_ok in Hv. apply Forall_forall. intros c Hc%elem_of_seqZ. lia.
Qed.

(** The segments to read are the unread cells, the segments to write the free ones. *)
Lemma reading_cells r base f u :
  ring_rep r base f u →
  iov_cells (hev_ring_buffer_reading r) = ring_cells (max_size r) (base + zlen f) (zlen u) ∧
  Forall (iov_ok (max_size r)) (hev_ring_buffer_reading r) ∧ iov_total (hev_ring_buffer_reading r) = zlen u.
Proof.
  intros [Hm Hl Hf Hb Hu Hr Hp Hw Hc]. sizes. unfold hev_ring_buffer_reading. rewrite Hr.
  destruct (Z.eqb_spec 0 (zlen u)) as [<-|Hne]; [done|].
  rewrite <- (ring_cells_mod _ (base + zlen f)), <- Hp by lia.
  assert (0 <= rp r < max_size r) by (rewrite Hp; apply Z.mod_pos_bound; lia).
  rewrite !u64_small by lia.
  destruct (Z.leb_spec (zlen u) (max_size r - rp r)) as [Hfit|Hwrap]; unfold iov_cells; cbn.
  - rewrite app_nil_r, ring_cells_seqZ by lia. split_and!; [done|repeat constructor; unfold iov_ok; cbn; lia|lia].
  - rewrite u64_small by lia. rewrite app_nil_r. split_and!; [|repeat constructor; unfold iov_ok; cbn; lia|lia].
    replace (zlen u) with (max_size r - rp r + (zlen u - (max_size r - rp r))) at 2 by lia.
    rewrite ring_cells_app by lia. f_equal; [by rewrite ring_cells_seqZ by lia|].
    replace (rp r + (max_size r - rp r)) with (max_size r) by lia. rewrite ring_cells_wrap by lia.
    by rewrite ring_cells_seqZ by lia.
Qed.

Lemma writing_inside r base f u : ring_rep r base f u → Forall (iov_ok (max_size r)) (hev_ring_buffer_writing r).
Proof.
  intros [Hm Hl Hf Hb Hu Hr Hp Hw Hc]. sizes. unfold hev_ring_buffer_writing.
  assert (0 <= wp r < max_size r) by (rewrite Hw; apply Z.mod_pos_bound; lia).
  destruct (Z.eqb_spec (use_size r) (max_size r)); [constructor|]. rewrite !u64_small by lia.
  destruct (Z.leb_spec (max_size r - use_size r) (max_size r - wp r)); rewrite ?u64_small by lia;
    repeat constructor; unfold iov_ok; cbn; lia.
Qed.

(** ** Refinement of a pair of queues *)

Inductive ring_op := Write (bs : bytes) | Read (n : Z) | Release (n : Z).

Definition ring_step (op : ring_op) (r : HevRingBuffer) : bytes * HevRingBuffer :=
  match op with
  | Write bs => ([], ring_write bs r)
  | Read n => ring_read n r
  | Release n => ([], hev_ring_buffer_read_release n r)
  end.

(** The specification, on the bytes in flight and the unread bytes. A caller
    reads at most what is there and releases at most what is in flight. *)
Definition fifo_step (max : Z) (op : ring_op) (q : bytes * bytes) : option (bytes * (bytes * bytes)) :=
  let '(f, u) := q in
  match op with
  | Write bs => Some ([], (f, u ++ take (Z.to_nat (max - (zlen f + zlen u))) bs))
  | Read n =>
      if (0 <=? n) && (n <=? zlen u)
      then Some (take (Z.to_nat n) u, (f ++ take (Z.to_nat n) u, drop (Z.to_nat n) u)) else None
  | Release n =>
      if (0 <=? n) && (n <=? zlen f) then Some ([], (drop (Z.to_nat n) f, u)) else None
  end.

Fixpoint ring_run (ops : list ring_op) (r : HevRingBuffer) : list bytes * HevRingBuffer :=
  match ops with
  | [] => ([], r)
  | op :: ops =>
      let '(o, r) := ring_step op r in
      let '(os, r) := ring_run ops r in (o :: os, r)
  end.

Fixpoint fifo_run (max : Z) (ops : list ring_op) (q : bytes * bytes) :
    option (list bytes * (bytes * bytes)) :=
  match ops with
  | [] => Some ([], q)
  | op :: ops =>
      match fifo_step max op q with
      | Some (o, q) => prod_map (o ::.) id <$> fifo_run max ops q
      | None => None
      end
  end.

Lemma ring_step_rep op r base f u o q :
  ring_rep r base f u → fifo_step (max_size r) op (f, u) = Some (o, q) →
  (ring_step op r).1 = o ∧ max_size (ring_step op r).2 = max_size r ∧
  ∃ base', ring_rep (ring_step op r).2 base' q.1 q.2.
Proof.
  intros R. destruct op as [bs|n|n]; cbn [fifo_step ring_step].
  - intros [= <- <-]. split_and!; [done|done|]. exists base. by apply ring_write_rep.
  - destruct (Z.leb_spec 0 n), (Z.leb_spec n (zlen u)); cbn [andb]; intros [= <- <-].
    destruct (ring_read_rep _ _ _ _ n R) as [-> ?]; [lia|]. split_and!; [done|done|]. by exists base.
  - destruct (Z.leb_spec 0 n), (Z.leb_spec n (zlen f)); cbn [andb]; intros [= <- <-].
    cbn [fst snd]. split_and!; [done| |].
    { unfold hev_ring_buffer_read_release. by case_match. }
    rewrite <- (take_drop (Z.to_nat n) f) in R. apply read_release_rep in R as (base' & _ & _ & _ & R).
    rewrite zlen_take in R by lia. eauto.
Qed.

Lemma ring_run_rep ops r base f u os q :
  ring_rep r base f u → fifo_run (max_size r) ops (f, u) = Some (os, q) →
  (ring_run ops r).1 = os ∧ ∃ base', ring_rep (ring_run ops r).2 base' q.1 q.2.
Proof.
  revert r base f u os q. induction ops as [|op ops IH]; intros r base f u os q R; cbn [fifo_run ring_run].
  { intros [= <- <-]. split; [done|]. by exists base. }
  destruct (fifo_step (max_size r) op (f, u)) as [[o [f1 u1]]|] eqn:Hs; [|done].
  destruct (ring_step_rep _ _ _ _ _ _ _ R Hs) as (Ho & Hmx & base1 & R1).
  destruct (ring_step op r) as [o' r1]. cbn [fst snd] in *. subst o'. rewrite <- Hmx.
  destruct (fifo_run (max_size r1) ops (f1, u1)) as [[os1 q1]|] eqn:Hr; [|done]. intros [= <- <-].
  destruct (IH _ _ _ _ _ _ R1 Hr) as (Hos & base' & R').
  destruct (ring_run ops r1) as [os' r2]. cbn [fst snd] in *. subst os'. split; [done|]. by exists base'.
Qed.

(** C9: every run of writes, reads and releases on a new buffer, in which the
    caller never reads or releases more than there is, hands on exactly the
    bytes that a pair of unbounded queues with the same capacity limit hands on,
    in the same order; afterwards the segments that are readable hold the
    unread bytes, the used size is the bytes in flight and unread, and the room
    for writing is what remains of the capacity. *)
Theorem ring_refines_fifo d ops os f u :
  0 < zlen d < 4611686018427387904 → fifo_run (zlen d) ops ([], []) = Some (os, (f, u)) →
  let '(os', r) := ring_run ops (hev_ring_buffer_alloca d) in
  os' = os ∧ gather (data r) (hev_ring_buffer_reading r) = u ∧
  hev_ring_buffer_get_use_size r = zlen f + zlen u ∧
  iov_total (hev_ring_buffer_writing r) = hev_ring_buffer_get_max_size r - (zlen f + zlen u).
Proof.
  intros Hd Hr. destruct (ring_run_rep ops _ _ _ _ _ _ (alloca_rep d Hd) Hr) as (Hos & base & R).
  destruct (ring_run ops _) as [os' r]. cbn [fst snd] in *.
  split_and!; [done|by eapply reading_gather|by eapply rr_use|by eapply writing_total].
Qed.

Lemma ring_refines_fifo_witness :
  let ops := [Write [1; 2; 3]; Read 2; Release 2; Write [4; 5; 6]; Read 3; Write [7]] in
  (0 < zlen [0; 0; 0; 0] < 4611686018427387904 ∧
   fifo_run 4 ops ([], []) = Some ([[]; [1; 2]; []; []; [3; 4; 5]; []], ([3; 4; 5], [6]))) ∧
  gather (data (ring_run ops (hev_ring_buffer_alloca [0; 0; 0; 0])).2)
    (hev_ring_buffer_reading (ring_run ops (hev_ring_buffer_alloca [0; 0; 0; 0])).2) = [6].
Proof.
  cbv zeta. split; [split; [vm_compute; split; reflexivity|reflexivity]|].
  pose proof (ring_refines_fifo [0; 0; 0; 0]
    [Write [1; 2; 3]; Read 2; Release 2; Write [4; 5; 6]; Read 3; Write [7]]
    [[]; [1; 2]; []; []; [3; 4; 5]; []] [3; 4; 5] [6]
    ltac:(vm_compute; split; reflexivity) ltac:(reflexivity)) as H.
  destruct (ring_run _ _) as [os r]. apply H.
Defined.

(** The bytes that were handed to the TCP stack by reference stay in
    place: whatever the peer sends next, writing it changes no cell that holds a
    byte in flight or unread, whether or not the free space wraps around. *)
Theorem write_keeps_used d ops os f u bs :
  0 < zlen d < 4611686018427387904 → fifo_run (zlen d) ops ([], []) = Some (os, (f, u)) →
  let r := (ring_run ops (hev_ring_buffer_alloca d)).2 in
  ∃ base, 0 <= base < max_size r ∧
    ∀ i, 0 <= i < zlen (f ++ u) →
      zget (data r) ((base + i) mod max_size r) = zget (f ++ u) i ∧
      zget (data (ring_write bs r)) ((base + i) mod max_size r) = zget (f ++ u) i.
Proof.
  intros Hd Hr. destruct (ring_run_rep ops _ _ _ _ _ _ (alloca_rep d Hd) Hr) as (_ & base & R).
  cbn [fst snd] in R. cbv zeta. set (r := (ring_run ops _).2) in *. exists base.
  split; [by eapply rr_base|]. intros i Hi. rewrite zlen_app in Hi.
  split; [by apply (rr_cell _ _ _ _ R)|]. pose proof (ring_write_rep _ _ _ _ bs R) as R'. sizes.
  pose proof (rr_cell _ _ _ _ R' i) as Hc. change (max_size (ring_write bs r)) with (max_size r) in Hc.
  rewrite zlen_app in Hc. sizes. rewrite Hc by lia. rewrite app_assoc, zget_app, zlen_app.
  destruct (Z.ltb_spec i (zlen f + zlen u)); [done|lia].
Qed.

Lemma write_keeps_used_witness :
  (0 < zlen [0; 0; 0; 0] < 4611686018427387904 ∧
   fifo_run 4 [Write [1; 2; 3]; Read 2; Release 1] ([], []) = Some ([[]; [1; 2]; []], ([2], [3]))) ∧
  ∃ base, 0 <= base < 4 ∧ ∀ i, 0 <= i < 2 →
    zget (data (ring_write [9; 9; 9] (ring_run [Write [1; 2; 3]; Read 2; Release 1]
      (hev_ring_buffer_alloca [0; 0; 0; 0])).2)) ((base + i) mod 4) = zget [2; 3] i.
Proof.
  split; [split; [vm_compute; split; reflexivity|reflexivity]|].
  destruct (write_keeps_used [0; 0; 0; 0] [Write [1; 2; 3]; Read 2; Release 1] [[]; [1; 2]; []] [2] [3] [9; 9; 9]
    ltac:(vm_compute; split; reflexivity) ltac:(reflexivity)) as (base & Hb & H).
  exists base. split; [exact Hb|]. intros i Hi. apply H. exact Hi.
Defined.
