(* ===== verification/Auth.v ===== *)
(** * Auth: users and the authenticator of src/core/src/hev-socks5-user.c and
    src/core/src/hev-socks5-authenticator.c

    A user object holds a name, a password and a reference count and is a node
    of the authenticator's tree, which is ordered by the length of the names and
    then by their bytes. The address of an object is the address of its node.
    [heap] lists what the allocator answers when the next users are made: an
    address or 0, and whether the copies of the name and the password fit. *)
From S2P Require Import Prelude Bytes HevRBTree RBRep RBTree.

Record HevSocks5User := User {
  ref_count : Z; uname : bytes; upass : bytes; name_len : Z; pass_len : Z
}.

#[export] Instance HevSocks5User_eq_dec : EqDecision HevSocks5User.
Proof. solve_decision. Defined.

Record auth := Auth { tree : rbmem; users : gmap Z HevSocks5User; heap : list (Z * bool * bool) }.

Definition on_tree {A} (m : M rbmem A) : M auth A :=
  zoom tree (λ t s, Auth t (users s) (heap s)) m.

Definition get_user (p : Z) : M auth HevSocks5User := λ s,
  match users s !! p with Some u => Val u s | None => Stuck end.
Definition put_user (p : Z) (u : HevSocks5User) : M auth unit := λ s,
  match users s !! p with
  | Some _ => Val tt (Auth (tree s) (<[p := u]> (users s)) (heap s))
  | None => Stuck
  end.
(** ** Users *)

Definition calloc_user : M auth (Z * bool * bool) := λ s,
  match heap s with
  | [] => Val (0, false, false) s
  | (p, nm, ps) :: h =>
      if bool_decide (p ≠ 0 ∧ aligned p ∧ users s !! p = None) then
        Val (p, nm, ps)
          (Auth (RBMem (root (tree s)) (<[p := RBNode 0 0 0]> (nodes (tree s))))
             (<[p := User 0 [] [] 0 0]> (users s)) h)
      else Val (0, false, false) (Auth (tree s) (users s) h)
  end.

Definition free_user (p : Z) : M auth unit := λ s,
  match users s !! p with
  | Some _ =>
      Val tt (Auth (RBMem (root (tree s)) (delete p (nodes (tree s)))) (delete p (users s)) (heap s))
  | None => Stuck
  end.

(** The copies end in a NUL byte; copying reads [len] bytes of the argument. *)
Definition copy_string (src : bytes) (len : Z) : option bytes :=
  if len <=? zlen src then Some (take (Z.to_nat len) src ++ [0]) else None.

Definition hev_socks5_user_construct (self : Z) (nm ps : bool)
    (name : bytes) (nlen : Z) (pass : bytes) (plen : Z) : M auth Z :=
  u ← get_user self;
  put_user self (User 1 (uname u) (upass u) (name_len u) (pass_len u));;
  if negb nm then mret (-1) else
  n ← of_option (copy_string name nlen);
  u ← get_user self;
  put_user self (User (ref_count u) n (upass u) nlen (pass_len u));;
  if negb ps then mret (-1) else
  q ← of_option (copy_string pass plen);
  u ← get_user self;
  put_user self (User (ref_count u) (uname u) q (name_len u) plen);;
  mret 0.

Definition hev_socks5_user_new (name : bytes) (nlen : Z) (pass : bytes) (plen : Z) : M auth Z :=
  '(self, nm, ps) ← calloc_user;
  if negb (truthy self) then mret 0 else
  res ← hev_socks5_user_construct self nm ps name nlen pass plen;
  if res <? 0 then free_user self;; mret 0 else mret self.

Definition hev_socks5_user_checker (self : Z) (pass : bytes) (plen : Z) : M auth Z :=
  u ← get_user self;
  if negb (pass_len u =? plen) then mret (-1) else
  c ← of_option (memcmp (upass u) pass plen);
  if negb (c =? 0) then mret (-1) else mret 0.

Definition hev_socks5_user_check (self : Z) (pass : bytes) (plen : Z) : M auth Z :=
  hev_socks5_user_checker self pass plen.

Definition hev_socks5_user_destruct (self : Z) : M auth unit := free_user self.

(** [hev_object_ref] and [hev_object_unref] of an atomic object. *)
Definition hev_object_ref (self : Z) : M auth unit :=
  u ← get_user self;
  put_user self (User (u32 (ref_count u + 1)) (uname u) (upass u) (name_len u) (pass_len u)).

Definition hev_object_unref (self : Z) : M auth unit :=
  u ← get_user self;
  let rc := ref_count u in
  put_user self (User (u32 (rc - 1)) (uname u) (upass u) (name_len u) (pass_len u));;
  if 1 <? rc then mret tt else hev_socks5_user_destruct self.

(** ** The authenticator *)

Definition hev_socks5_authenticator_new (ok : bool) (h : list (Z * bool * bool)) : option auth :=
  if ok then Some (Auth (RBMem 0 ∅) ∅ h) else None.

(** The three-way comparison of the node [this] with a name, as in each loop. *)
Definition compare_user (this : Z) (name : bytes) (nlen : Z) : M auth Z :=
  u ← get_user this;
  if name_len u <? nlen then mret (-1)
  else if nlen <? name_len u then mret 1
  else of_option (memcmp (uname u) name (name_len u)).

Inductive spot := Taken | Free (parent : Z) (new : link).

Fixpoint add_loop (fuel : nat) (name : bytes) (nlen : Z) (parent : Z) (new : link) : M auth spot :=
  match fuel with
  | O => stuck
  | S fuel =>
      cur ← on_tree (deref new);
      if negb (truthy cur) then mret (Free parent new) else
      res ← compare_user cur name nlen;
      if res <? 0 then add_loop fuel name nlen cur (LinkLeft cur)
      else if 0 <? res then add_loop fuel name nlen cur (LinkRight cur)
      else mret Taken
  end.

Definition loop_fuel : M auth nat := gets (λ s, S (size (nodes (tree s)))).

Definition hev_socks5_authenticator_add (user : Z) : M auth Z :=
  u ← get_user user;
  fuel ← loop_fuel;
  r ← add_loop fuel (uname u) (name_len u) 0 LinkRoot;
  match r with
  | Taken => mret (-1)
  | Free parent new =>
      on_tree (hev_rbtree_node_link user parent new;; hev_rbtree_insert_color user);;
      mret 0
  end.

(** The node with the name, or NULL. *)
Fixpoint search_loop (fuel : nat) (name : bytes) (nlen : Z) (node : Z) : M auth Z :=
  match fuel with
  | O => stuck
  | S fuel =>
      if negb (truthy node) then mret 0 else
      res ← compare_user node name nlen;
      if res <? 0 then l ← on_tree (get_left node); search_loop fuel name nlen l
      else if 0 <? res then r ← on_tree (get_right node); search_loop fuel name nlen r
      else mret node
  end.

Definition hev_socks5_authenticator_del (name : bytes) (nlen : Z) : M auth Z :=
  node ← gets (λ s, root (tree s));
  fuel ← loop_fuel;
  node ← search_loop fuel name nlen node;
  if negb (truthy node) then mret (-1) else
  on_tree (hev_rbtree_erase node);;
  hev_object_unref node;;
  mret 0.

Definition hev_socks5_authenticator_get (name : bytes) (nlen : Z) : M auth Z :=
  node ← gets (λ s, root (tree s));
  fuel ← loop_fuel;
  search_loop fuel name nlen node.

Fixpoint clear_loop (fuel : nat) : M auth unit :=
  match fuel with
  | O => stuck
  | S fuel =>
      n ← on_tree hev_rbtree_first;
      if negb (truthy n) then mret tt else
      on_tree (hev_rbtree_erase n);;
      hev_object_unref n;;
      clear_loop fuel
  end.

Definition hev_socks5_authenticator_clear : M auth unit :=
  fuel ← loop_fuel; clear_loop fuel.

Definition hev_socks5_authenticator_destruct : M auth unit := hev_socks5_authenticator_clear.
