(* ===== verification/AuthMap.v ===== *)
(** * AuthMap: the authenticator is a finite map from names to users

    The abstract state keeps, for every live user object, its name, password and
    reference count, and the table of the authenticator from names to objects.
    Every operation of [Auth] refines an operation on it. *)
From stdpp Require Import sorting.
From S2P Require Import Prelude Bytes HevRBTree RBRep RBTree Auth.

Record entry := Entry { e_name : bytes; e_pass : bytes; e_refs : Z }.

Record spec := Spec { live : gmap Z entry; table : gmap bytes Z }.

#[export] Instance entry_eq_dec : EqDecision entry.
Proof. solve_decision. Defined.

(** ** The order of the tree *)

Definition name_cmp (a b : bytes) : Z :=
  if zlen a <? zlen b then -1 else if zlen b <? zlen a then 1 else strcmp a b.

Lemma name_cmp_refl a : name_cmp a a = 0.
Proof. unfold name_cmp. destruct (Z.ltb_spec (zlen a) (zlen a)); [lia|]. apply strcmp_refl. Qed.

Lemma zlen_inj {A} (a b : list A) : zlen a = zlen b → length a = length b.
Proof. unfold zlen. lia. Qed.

Lemma name_cmp_eq a b : name_cmp a b = 0 → a = b.
Proof.
  unfold name_cmp. destruct (Z.ltb_spec (zlen a) (zlen b)), (Z.ltb_spec (zlen b) (zlen a)); try lia.
  apply strcmp_eq_length, zlen_inj. lia.
Qed.

Lemma name_cmp_antisym a b : name_cmp b a < 0 ↔ 0 < name_cmp a b.
Proof.
  unfold name_cmp. destruct (Z.ltb_spec (zlen a) (zlen b)), (Z.ltb_spec (zlen b) (zlen a)); try lia.
  rewrite (strcmp_antisym a b). lia.
Qed.

Lemma name_cmp_trans a b c : 0 < name_cmp a b → 0 < name_cmp b c → 0 < name_cmp a c.
Proof.
  unfold name_cmp. intros H1 H2.
  destruct (Z.ltb_spec (zlen a) (zlen b)), (Z.ltb_spec (zlen b) (zlen a)),
    (Z.ltb_spec (zlen b) (zlen c)), (Z.ltb_spec (zlen c) (zlen b)),
    (Z.ltb_spec (zlen a) (zlen c)), (Z.ltb_spec (zlen c) (zlen a)); try lia.
  enough (strcmp c a < 0) by (rewrite (strcmp_antisym c a); lia).
  eapply (strcmp_trans_length c b a); [apply zlen_inj; lia..| |];
    rewrite strcmp_antisym; lia.
Qed.

(** ** Representation *)

Definition user_of (e : entry) : HevSocks5User :=
  User (e_refs e) (e_name e ++ [0]) (e_pass e ++ [0]) (zlen (e_name e)) (zlen (e_pass e)).

Definition name_at (m : gmap Z entry) (a : Z) : bytes := default [] (e_name <$> m !! a).

Definition before (m : gmap Z entry) (a b : Z) : Prop := 0 < name_cmp (name_at m a) (name_at m b).

Record auth_rep (s : auth) (σ : spec) (ts : list Z) : Prop := {
  a_tree : rbtree (tree s) ts;
  a_sorted : StronglySorted (before (live σ)) ts;
  a_users : users s = user_of <$> live σ;
  a_dom : dom (nodes (tree s)) = dom (live σ);
  a_refs : ∀ a e, live σ !! a = Some e → 1 <= e_refs e < 4294967296;
  a_addr : ∀ a, a ∈ dom (live σ) → a ≠ 0 ∧ aligned a;
  a_table : ∀ n a, table σ !! n = Some a ↔ a ∈ ts ∧ name_at (live σ) a = n
}.

Definition auth_inv (s : auth) (σ : spec) : Prop := ∃ ts, auth_rep s σ ts.

Lemma a_live s σ ts a : auth_rep s σ ts → a ∈ ts → ∃ e, live σ !! a = Some e.
Proof.
  intros R Ha. destruct (rbtree_node _ _ _ (a_tree _ _ _ R) Ha) as (_ & _ & Hd).
  rewrite (a_dom _ _ _ R) in Hd. by apply elem_of_dom in Hd.
Qed.

Lemma name_at_Some m a e : m !! a = Some e → name_at m a = e_name e.
Proof. unfold name_at. by intros ->. Qed.

Lemma get_user_rep s σ ts a e :
  auth_rep s σ ts → live σ !! a = Some e → get_user a s = Val (user_of e) s.
Proof. intros R Ha. unfold get_user. by rewrite (a_users _ _ _ R), lookup_fmap, Ha. Qed.

Lemma put_user_rep s σ ts a e u :
  auth_rep s σ ts → live σ !! a = Some e →
  put_user a u s = Val tt (Auth (tree s) (<[a := u]> (users s)) (heap s)).
Proof. intros R Ha. unfold put_user. by rewrite (a_users _ _ _ R), lookup_fmap, Ha. Qed.

Lemma memcmp_names (a b : bytes) x y :
  zlen a = zlen b → memcmp (a ++ x) (b ++ y) (zlen a) = Some (strcmp a b).
Proof.
  intros Hl. pose proof (zlen_nonneg x). pose proof (zlen_nonneg y). unfold memcmp.
  rewrite !zlen_app. destruct (Z.leb_spec (zlen a) (zlen a + zlen x)), (Z.leb_spec (zlen a) (zlen b + zlen y));
    try lia. cbn [andb]. unfold zlen in *. rewrite Nat2Z.id.
  rewrite take_app_length. by replace (length a) with (length b) by lia; rewrite take_app_length.
Qed.

(** The name to look for is a prefix of the array that is passed. *)
Lemma compare_user_rep s σ ts a e name y :
  auth_rep s σ ts → live σ !! a = Some e →
  compare_user a (name ++ y) (zlen name) s = Val (name_cmp (e_name e) name) s.
Proof.
  intros R Ha. unfold compare_user. erewrite bind_val by (by eapply get_user_rep).
  cbn [user_of name_len uname]. unfold name_cmp.
  destruct (Z.ltb_spec (zlen (e_name e)) (zlen name)), (Z.ltb_spec (zlen name) (zlen (e_name e)));
    try done. by rewrite memcmp_names by lia.
Qed.

Lemma on_tree_val {A} (m : M rbmem A) s a t :
  m (tree s) = Val a t → on_tree m s = Val a (Auth t (users s) (heap s)).
Proof. unfold on_tree, zoom. by intros ->. Qed.

Lemma on_tree_read {A} (m : M rbmem A) s a :
  m (tree s) = Val a (tree s) → on_tree m s = Val a s.
Proof. intros H. erewrite on_tree_val by exact H. by destruct s. Qed.

(** ** Searching *)

Lemma sorted_around m ts1 a ts2 b :
  StronglySorted (before m) (ts1 ++ a :: ts2) →
  (b ∈ ts1 → before m b a) ∧ (b ∈ ts2 → before m a b).
Proof.
  intros Hs. split; intros Hb.
  - eapply StronglySorted_app_1_elem_of; [exact Hs|done|set_solver].
  - apply StronglySorted_app_1_r in Hs. apply StronglySorted_cons in Hs as [Hs _].
    by eapply Forall_forall in Hs.
Qed.

(** What a search below a subtree knows about the nodes around it. *)
Definition around (m : gmap Z entry) (name : bytes) (us vs : list Z) : Prop :=
  (∀ b, b ∈ us → 0 < name_cmp (name_at m b) name) ∧
  (∀ b, b ∈ vs → name_cmp (name_at m b) name < 0).

Lemma around_left m name us tl a tr vs :
  StronglySorted (before m) (us ++ (tl ++ a :: tr) ++ vs) → around m name us vs →
  name_cmp (name_at m a) name < 0 → around m name us (a :: tr ++ vs).
Proof.
  intros Hs [Hu Hv] Ha. split; [done|]. intros b [->|[Hb|Hb]%elem_of_app]%elem_of_cons; [done| |by apply Hv].
  rewrite <- app_assoc, app_assoc in Hs. cbn in Hs.
  destruct (sorted_around _ _ _ _ b Hs) as [_ Hab]. specialize (Hab ltac:(set_solver)). unfold before in Hab.
  apply name_cmp_antisym in Ha. apply name_cmp_antisym. by eapply name_cmp_trans.
Qed.

Lemma around_right m name us tl a tr vs :
  StronglySorted (before m) (us ++ (tl ++ a :: tr) ++ vs) → around m name us vs →
  0 < name_cmp (name_at m a) name → around m name (us ++ tl ++ [a]) vs.
Proof.
  intros Hs [Hu Hv] Ha. split; [|done]. intros b [Hb|[Hb| ->%list_elem_of_singleton]%elem_of_app]%elem_of_app;
    [by apply Hu| |done].
  rewrite <- app_assoc, app_assoc in Hs. cbn in Hs.
  destruct (sorted_around _ _ _ _ b Hs) as [Hba _]. specialize (Hba ltac:(set_solver)). unfold before in Hba.
  by eapply name_cmp_trans.
Qed.

(** The outcome of a search: the node with the name, or a place for it between
    the greater and the smaller names. *)
Lemma add_loop_spec s σ ts name y t us vs p l fuel :
  auth_rep s σ ts → ts = us ++ inorder t ++ vs → at_tree (tree s) us t vs p l →
  around (live σ) name us vs → (length (inorder t) < fuel)%nat →
  (∃ a, a ∈ ts ∧ name_at (live σ) a = name ∧
     add_loop fuel (name ++ y) (zlen name) p l s = Val Taken s) ∨
  (∃ us' vs' p' l', add_loop fuel (name ++ y) (zlen name) p l s = Val (Free p' l') s ∧
     at_tree (tree s) us' E vs' p' l' ∧ ts = us' ++ vs' ∧ around (live σ) name us' vs').
Proof.
  intros R. revert us vs p l fuel.
  induction t as [|c tl IHl a tr IHr]; intros us vs p l fuel Hts Hat Har Hf;
    (destruct fuel as [|fuel]; [lia|]); cbn [add_loop];
    (erewrite bind_val; [|by eapply on_tree_read, at_tree_deref]); cbn [addr].
  { right. exists us, vs, p, l. split_and!; done. }
  cbn [inorder] in Hts, Hf. assert (a ∈ ts) as Ha by (subst ts; set_solver).
  destruct (rbtree_node _ _ _ (a_tree _ _ _ R) Ha) as (Ha0 & _). rewrite truthy_ne by done.
  destruct (a_live _ _ _ _ R Ha) as [e He]. cbn [negb].
  erewrite bind_val by (by eapply compare_user_rep). rewrite <- (name_at_Some _ _ _ He).
  pose proof (a_sorted _ _ _ R) as Hs. rewrite Hts in Hs. rewrite length_app in Hf. cbn in Hf.
  destruct (Z.ltb_spec (name_cmp (name_at (live σ) a) name) 0) as [Hlt|Hge];
    [|destruct (Z.ltb_spec 0 (name_cmp (name_at (live σ) a) name))].
  - apply (IHl us (a :: inorder tr ++ vs) a (LinkLeft a)); [by rewrite Hts, <- !app_assoc|by eapply at_tree_left|by eapply around_left|lia].
  - apply (IHr (us ++ inorder tl ++ [a]) vs a (LinkRight a)); [by rewrite Hts, <- !app_assoc|by eapply at_tree_right|by eapply around_right|lia].
  - left. exists a. split_and!; [done| |done]. apply name_cmp_eq. lia.
Qed.

Lemma around_absent m name us vs a :
  around m name us vs → a ∈ us ++ vs → name_at m a ≠ name.
Proof.
  intros [Hu Hv] [Ha|Ha]%elem_of_app Heq; [apply Hu in Ha|apply Hv in Ha];
    rewrite Heq, name_cmp_refl in Ha; lia.
Qed.

Lemma search_loop_spec s σ ts name y t us vs fuel p l :
  auth_rep s σ ts → ts = us ++ inorder t ++ vs → at_tree (tree s) us t vs p l →
  around (live σ) name us vs → (length (inorder t) < fuel)%nat →
  search_loop fuel (name ++ y) (zlen name) (addr t) s = Val (default 0 (table σ !! name)) s.
Proof.
  intros R. revert us vs p l fuel.
  induction t as [|c tl IHl a tr IHr]; intros us vs p l fuel Hts Hat Har Hf;
    (destruct fuel as [|fuel]; [lia|]); cbn [search_loop addr].
  { destruct (table σ !! name) as [a|] eqn:Hn; [|done]. exfalso.
    apply (a_table _ _ _ R) in Hn as [Ha Hn]. subst ts. by eapply around_absent. }
  cbn [inorder] in Hts, Hf. assert (a ∈ ts) as Ha by (subst ts; set_solver).
  destruct (rbtree_node _ _ _ (a_tree _ _ _ R) Ha) as (Ha0 & _). rewrite truthy_ne by done.
  destruct (a_live _ _ _ _ R Ha) as [e He]. cbn [negb].
  erewrite bind_val by (by eapply compare_user_rep). rewrite <- (name_at_Some _ _ _ He).
  pose proof (a_sorted _ _ _ R) as Hs. rewrite Hts in Hs. rewrite length_app in Hf. cbn in Hf.
  pose proof (at_tree_deref _ _ _ _ _ _ (at_tree_left _ _ _ _ _ _ _ _ _ Hat)) as Hl.
  pose proof (at_tree_deref _ _ _ _ _ _ (at_tree_right _ _ _ _ _ _ _ _ _ Hat)) as Hr.
  cbn [deref] in Hl, Hr.
  destruct (Z.ltb_spec (name_cmp (name_at (live σ) a) name) 0) as [Hlt|Hge];
    [|destruct (Z.ltb_spec 0 (name_cmp (name_at (live σ) a) name))].
  - erewrite bind_val by (by apply on_tree_read).
    eapply (IHl us (a :: inorder tr ++ vs)); [by rewrite Hts, <- !app_assoc|by eapply at_tree_left|by eapply around_left|lia].
  - erewrite bind_val by (by apply on_tree_read).
    eapply (IHr (us ++ inorder tl ++ [a]) vs); [by rewrite Hts, <- !app_assoc|by eapply at_tree_right|by eapply around_right|lia].
  - assert (name_at (live σ) a = name) as Hn by (apply name_cmp_eq; lia).
    assert (table σ !! name = Some a) as -> by (by apply (a_table _ _ _ R)). done.
Qed.

Lemma around_nil m name : around m name [] [].
Proof. split; set_solver. Qed.

Lemma loop_fuel_ok s σ ts : auth_rep s σ ts → (length ts < S (size (nodes (tree s))))%nat.
Proof. intros R. pose proof (rbtree_size _ _ (a_tree _ _ _ R)). lia. Qed.

Lemma search_spec s σ ts name y :
  auth_rep s σ ts →
  search_loop (S (size (nodes (tree s)))) (name ++ y) (zlen name) (root (tree s)) s
    = Val (default 0 (table σ !! name)) s.
Proof.
  intros R. destruct (at_tree_root _ _ (a_tree _ _ _ R)) as (t & Ht & Hat).
  pose proof (at_tree_deref _ _ _ _ _ _ Hat) as Hd. cbn in Hd.
  assert (root (tree s) = addr t) as -> by (unfold gets in Hd; congruence).
  eapply (search_loop_spec _ _ ts _ _ _ [] []); [exact R|by rewrite Ht, app_nil_r|exact Hat|apply around_nil|].
  rewrite Ht. by eapply loop_fuel_ok.
Qed.

Lemma get_refines s σ name y :
  auth_inv s σ →
  hev_socks5_authenticator_get (name ++ y) (zlen name) s = Val (default 0 (table σ !! name)) s.
Proof.
  intros [ts R]. unfold hev_socks5_authenticator_get, loop_fuel.
  erewrite !bind_val by reflexivity. by eapply search_spec.
Qed.

(** ** Reference counts *)

Lemma sorted_names m m' ts :
  (∀ a, a ∈ ts → name_at m' a = name_at m a) →
  StronglySorted (before m) ts → StronglySorted (before m') ts.
Proof.
  intros Hm Hs. revert Hm. induction Hs as [|t ts Hs IH Ht]; intros Hm; constructor.
  - apply IH. set_solver.
  - rewrite Forall_forall in *. intros x Hx. unfold before. rewrite !Hm by set_solver. by apply Ht.
Qed.

Definition set_refs (a r : Z) (σ : spec) : spec :=
  Spec (alter (λ e, Entry (e_name e) (e_pass e) r) a (live σ)) (table σ).

Lemma name_at_alter m a r b :
  name_at (alter (λ e, Entry (e_name e) (e_pass e) r) a m) b = name_at m b.
Proof.
  unfold name_at. destruct (decide (a = b)) as [->|Hne].
  - rewrite lookup_alter_eq. by destruct (m !! b).
  - by rewrite lookup_alter_ne.
Qed.

Lemma set_refs_rep s σ ts a e r :
  auth_rep s σ ts → live σ !! a = Some e → 1 <= r < 4294967296 →
  auth_rep (Auth (tree s) (<[a := user_of (Entry (e_name e) (e_pass e) r)]> (users s)) (heap s))
    (set_refs a r σ) ts.
Proof.
  intros [Ht Hs Hu Hd Hr Ha Htb] He Hr1. split; cbn [tree users live table set_refs].
  - done.
  - eapply sorted_names; [|exact Hs]. intros b _. apply name_at_alter.
  - rewrite Hu. apply map_eq. intros b. rewrite lookup_fmap.
    destruct (decide (a = b)) as [<-|Hne].
    + by rewrite lookup_insert_eq, lookup_alter_eq, He.
    + by rewrite lookup_insert_ne, lookup_fmap, lookup_alter_ne by done.
  - by rewrite dom_alter_L.
  - intros b e' Hb. destruct (decide (a = b)) as [<-|Hne].
    + rewrite lookup_alter_eq, He in Hb. by injection Hb as <-.
    + rewrite lookup_alter_ne in Hb by done. by eapply Hr.
  - intros b. rewrite dom_alter_L. apply Ha.
  - intros n b. by rewrite name_at_alter.
Qed.

Definition spec_free (a : Z) (σ : spec) : spec := Spec (delete a (live σ)) (table σ).

Lemma free_rep s σ ts a :
  auth_rep s σ ts → a ∉ ts → a ∈ dom (live σ) →
  ∃ s', free_user a s = Val tt s' ∧ auth_rep s' (spec_free a σ) ts ∧ heap s' = heap s.
Proof.
  intros R Hn [e He]%elem_of_dom. unfold free_user.
  rewrite (a_users _ _ _ R), lookup_fmap, He. cbn. eexists. split; [reflexivity|]. split; [|done].
  destruct R as [Ht Hs Hu Hd Hr Ha Htb]. split; cbn [tree users live table spec_free].
  - eapply rbtree_frame; [| |exact Ht]; [done|]. cbn. intros x Hx. apply lookup_delete_ne. set_solver.
  - eapply sorted_names; [|exact Hs]. intros b Hb. unfold name_at. rewrite lookup_delete_ne; set_solver.
  - by rewrite fmap_delete.
  - cbn. rewrite !dom_delete_L. by rewrite Hd.
  - intros b e' Hb. apply lookup_delete_Some in Hb as [_ Hb]. by eapply Hr.
  - intros b Hb. apply Ha. set_solver.
  - intros n b. rewrite Htb. unfold name_at. split; intros [Hb <-]; split; try done;
      (rewrite lookup_delete_ne; [done|]); set_solver.
Qed.

(** Dropping a reference; the object is freed with the last one. *)
Definition spec_unref (a : Z) (σ : spec) : spec :=
  match live σ !! a with
  | Some e => if e_refs e =? 1 then spec_free a σ else set_refs a (e_refs e - 1) σ
  | None => σ
  end.

Lemma u32_small x : 0 <= x < 4294967296 → u32 x = x.
Proof. apply Z.mod_small. Qed.

Lemma free_overwritten s a u :
  a ∈ dom (users s) →
  free_user a (Auth (tree s) (<[a := u]> (users s)) (heap s)) = free_user a s.
Proof.
  intros [v Hv]%elem_of_dom. unfold free_user. cbn [tree users heap].
  by rewrite lookup_insert_eq, Hv, delete_insert_eq.
Qed.

Lemma unref_rep s σ ts a e :
  auth_rep s σ ts → live σ !! a = Some e → (a ∈ ts → 1 < e_refs e) →
  ∃ s', hev_object_unref a s = Val tt s' ∧ auth_rep s' (spec_unref a σ) ts ∧ heap s' = heap s.
Proof.
  intros R He Hin. pose proof (a_refs _ _ _ R _ _ He) as Hr. unfold hev_object_unref, spec_unref. rewrite He.
  erewrite bind_val by (by eapply get_user_rep). cbn [user_of ref_count uname upass name_len pass_len].
  erewrite bind_val by (by eapply put_user_rep). rewrite u32_small by lia.
  destruct (Z.ltb_spec 1 (e_refs e)), (Z.eqb_spec (e_refs e) 1); try lia.
  - eexists. split; [reflexivity|]. split; [|done]. apply (set_refs_rep _ _ _ _ e); [done|done|lia].
  - unfold hev_socks5_user_destruct. rewrite free_overwritten.
    + apply free_rep; [done|intros Ha; apply Hin in Ha; lia|by apply elem_of_dom].
    + rewrite (a_users _ _ _ R), dom_fmap. by apply elem_of_dom.
Qed.

Lemma ref_rep s σ ts a e :
  auth_rep s σ ts → live σ !! a = Some e → e_refs e < 4294967295 →
  ∃ s', hev_object_ref a s = Val tt s' ∧ auth_rep s' (set_refs a (e_refs e + 1) σ) ts ∧ heap s' = heap s.
Proof.
  intros R He Hm. pose proof (a_refs _ _ _ R _ _ He) as Hr. unfold hev_object_ref.
  erewrite bind_val by (by eapply get_user_rep). cbn [user_of ref_count uname upass name_len pass_len].
  erewrite put_user_rep by done. rewrite u32_small by lia. eexists. split; [reflexivity|].
  split; [|done]. apply (set_refs_rep _ _ _ _ e); [done|done|lia].
Qed.

(** ** Users *)

Definition spec_check (a : Z) (pass : bytes) (σ : spec) : Z :=
  match live σ !! a with
  | Some e => if bool_decide (e_pass e = pass) then 0 else -1
  | None => -1
  end.

Lemma check_refines s σ ts a e pass y :
  auth_rep s σ ts → live σ !! a = Some e →
  hev_socks5_user_check a (pass ++ y) (zlen pass) s = Val (spec_check a pass σ) s.
Proof.
  intros R He. unfold hev_socks5_user_check, hev_socks5_user_checker, spec_check. rewrite He.
  erewrite bind_val by (by eapply get_user_rep). cbn [user_of pass_len upass].
  destruct (Z.eqb_spec (zlen (e_pass e)) (zlen pass)) as [Hl|Hl]; cbn [negb].
  - rewrite <- Hl, memcmp_names by done. cbn [of_option]. rewrite bind_ret.
    destruct (Z.eqb_spec (strcmp (e_pass e) pass) 0) as [Hc|Hc]; cbn [negb]; case_bool_decide as Hp; try done.
    + apply strcmp_eq_length in Hc; [done|by apply zlen_inj].
    + subst. by rewrite strcmp_refl in Hc.
  - case_bool_decide as Hp; [|done]. by subst.
Qed.

Definition fresh_user (s : auth) (p : Z) : Prop := p ≠ 0 ∧ aligned p ∧ users s !! p = None.

(** A new object, or NULL when memory is short. *)
Definition spec_new (s : auth) (name pass : bytes) (σ : spec) : Z * spec :=
  match heap s with
  | (p, nm, ps) :: _ =>
      if bool_decide (fresh_user s p) && nm && ps
      then (p, Spec (<[p := Entry name pass 1]> (live σ)) (table σ)) else (0, σ)
  | [] => (0, σ)
  end.

Lemma alloc_rep s σ ts p e :
  auth_rep s σ ts → fresh_user s p → 1 <= e_refs e < 4294967296 →
  auth_rep (Auth (RBMem (root (tree s)) (<[p := RBNode 0 0 0]> (nodes (tree s))))
      (<[p := user_of e]> (users s)) (tl (heap s)))
    (Spec (<[p := e]> (live σ)) (table σ)) ts.
Proof.
  intros [Ht Hs Hu Hd Hr Ha Htb] (Hp0 & Hal & Hp) He.
  assert (live σ !! p = None) as Hl.
  { rewrite Hu, lookup_fmap in Hp. by destruct (live σ !! p). }
  assert (p ∉ ts) as Hpt.
  { intros Hin. destruct (rbtree_node _ _ _ Ht Hin) as (_ & _ & Hin').
    rewrite Hd in Hin'. by apply not_elem_of_dom in Hl. }
  assert (∀ b, b ∈ ts → name_at (<[p := e]> (live σ)) b = name_at (live σ) b) as Hnm.
  { intros b Hb. unfold name_at. rewrite lookup_insert_ne; set_solver. }
  split; cbn [tree users live table].
  - eapply rbtree_frame; [| |exact Ht]; [done|]. cbn. intros x Hx. apply lookup_insert_ne. set_solver.
  - by eapply sorted_names.
  - by rewrite fmap_insert, Hu.
  - cbn. by rewrite !dom_insert_L, Hd.
  - intros b e' Hb. apply lookup_insert_Some in Hb as [[_ <-]|[_ Hb]]; [done|by eapply Hr].
  - intros b Hb. rewrite dom_insert_L in Hb.
    apply elem_of_union in Hb as [->%elem_of_singleton|Hb]; [done|by apply Ha].
  - intros n b. rewrite Htb. split; intros [Hb Hn]; (split; [done|]); [by rewrite Hnm|by rewrite <- Hnm].
Qed.

Lemma heap_rep s σ ts h : auth_rep s σ ts → auth_rep (Auth (tree s) (users s) h) σ ts.
Proof. intros []. by split. Qed.

Lemma copy_string_app (a y : bytes) : copy_string (a ++ y) (zlen a) = Some (a ++ [0]).
Proof.
  unfold copy_string. rewrite zlen_app. pose proof (zlen_nonneg y).
  destruct (Z.leb_spec (zlen a) (zlen a + zlen y)); [|lia].
  unfold zlen. by rewrite Nat2Z.id, take_app_length.
Qed.

Lemma put_user_at s p u v :
  users s !! p = Some v → put_user p u s = Val tt (Auth (tree s) (<[p := u]> (users s)) (heap s)).
Proof. intros H. unfold put_user. by rewrite H. Qed.

Lemma get_user_at s p v : users s !! p = Some v → get_user p s = Val v s.
Proof. intros H. unfold get_user. by rewrite H. Qed.

Lemma free_fresh s p u nd h :
  users s !! p = None → nodes (tree s) !! p = None →
  free_user p (Auth (RBMem (root (tree s)) (<[p := nd]> (nodes (tree s)))) (<[p := u]> (users s)) h)
    = Val tt (Auth (tree s) (users s) h).
Proof.
  intros Hu Hn. unfold free_user. cbn [tree users heap nodes root]. rewrite lookup_insert_eq.
  rewrite !delete_insert_id by done. by destruct s as [[]].
Qed.

Ltac user_step :=
  first
    [ erewrite bind_val by (apply get_user_at; cbn [users]; apply lookup_insert_eq)
    | erewrite bind_val by (eapply put_user_at; cbn [users]; apply lookup_insert_eq)
    | erewrite bind_val by (rewrite copy_string_app; reflexivity) ];
  cbn [tree users heap ref_count uname upass name_len pass_len negb];
  rewrite ?insert_insert_eq.

Lemma new_refines s σ ts name y pass z :
  auth_rep s σ ts →
  ∃ s', hev_socks5_user_new (name ++ y) (zlen name) (pass ++ z) (zlen pass) s
          = Val (spec_new s name pass σ).1 s' ∧
    auth_rep s' (spec_new s name pass σ).2 ts ∧ heap s' = tl (heap s).
Proof.
  intros R. unfold hev_socks5_user_new, calloc_user, spec_new, fresh_user.
  destruct (heap s) as [|[[p nm] ps] h] eqn:Hh.
  { erewrite bind_val by (by rewrite Hh). eexists. split; [reflexivity|]. by rewrite Hh. }
  destruct (decide (p ≠ 0 ∧ aligned p ∧ users s !! p = None)) as [Hp|Hp].
  2: { erewrite bind_val by (rewrite Hh, bool_decide_eq_false_2 by done; reflexivity).
       rewrite bool_decide_eq_false_2 by done. eexists. split; [reflexivity|].
       split; [by apply heap_rep|done]. }
  erewrite bind_val by (rewrite Hh, bool_decide_eq_true_2 by done; reflexivity).
  rewrite bool_decide_eq_true_2 by done. cbn [andb].
  destruct Hp as (Hp0 & Hal & Hpu). rewrite truthy_ne by done. cbn [negb].
  assert (nodes (tree s) !! p = None) as Hpn.
  { apply not_elem_of_dom. rewrite (a_dom _ _ _ R). apply not_elem_of_dom.
    rewrite (a_users _ _ _ R), lookup_fmap in Hpu. by destruct (live σ !! p). }
  unfold hev_socks5_user_construct. rewrite bind_assoc.
  user_step. rewrite bind_assoc. user_step.
  destruct nm; cbn [negb andb fst snd].
  2: { rewrite bind_ret. change (-1 <? 0) with true. cbv iota.
       erewrite bind_val by (by apply free_fresh). eexists. split; [reflexivity|].
       split; [by apply heap_rep|done]. }
  rewrite bind_assoc. user_step. rewrite bind_assoc. user_step. rewrite bind_assoc. user_step.
  destruct ps; cbn [negb andb fst snd].
  2: { rewrite bind_ret. change (-1 <? 0) with true. cbv iota.
       erewrite bind_val by (by apply free_fresh). eexists. split; [reflexivity|].
       split; [by apply heap_rep|done]. }
  rewrite bind_assoc. user_step. rewrite bind_assoc. user_step. rewrite bind_assoc. user_step.
  rewrite bind_ret. change (0 <? 0) with false. cbv iota. eexists. split; [reflexivity|]. split; [|done].
  replace h with (tl (heap s)) by (by rewrite Hh).
  eapply (alloc_rep s σ ts p (Entry name pass 1)); [done|by split_and!|cbn; lia].
Qed.

(** ** The table *)

Definition spec_add (a : Z) (σ : spec) : Z * spec :=
  match live σ !! a with
  | Some e =>
      match table σ !! e_name e with
      | Some _ => (-1, σ)
      | None => (0, Spec (live σ) (<[e_name e := a]> (table σ)))
      end
  | None => (-1, σ)
  end.

Lemma SSorted_insert m name us vs a :
  name_at m a = name → around m name us vs →
  StronglySorted (before m) (us ++ vs) → StronglySorted (before m) (us ++ a :: vs).
Proof.
  intros Hn [Hu Hv] Hs. apply StronglySorted_app_2.
  - intros b c Hb [->|Hc]%elem_of_cons.
    + unfold before. rewrite Hn. by apply Hu.
    + by eapply StronglySorted_app_1_elem_of.
  - by eapply StronglySorted_app_1_l.
  - constructor; [by eapply StronglySorted_app_1_r|]. apply Forall_forall. intros b Hb. unfold before.
    rewrite Hn. apply name_cmp_antisym. by apply Hv.
Qed.

Lemma add_refines s σ ts a :
  auth_rep s σ ts → a ∈ dom (live σ) →
  ∃ s' ts', hev_socks5_authenticator_add a s = Val (spec_add a σ).1 s' ∧
    auth_rep s' (spec_add a σ).2 ts' ∧ heap s' = heap s.
Proof.
  intros R [e He]%elem_of_dom. unfold hev_socks5_authenticator_add, spec_add. rewrite He.
  erewrite bind_val by (by eapply get_user_rep). unfold loop_fuel. erewrite bind_val by reflexivity.
  cbn [user_of uname name_len]. destruct (at_tree_root _ _ (a_tree _ _ _ R)) as (t & Ht & Hat).
  destruct (add_loop_spec s σ ts (e_name e) [0] t [] [] 0 LinkRoot (S (size (nodes (tree s)))))
    as [(b & Hb & Hbn & Hl)|(us & vs & p & l & Hl & Hat' & -> & Har)];
    [done|by rewrite Ht, app_nil_r|done|apply around_nil|rewrite Ht; by eapply loop_fuel_ok|..];
    (erewrite bind_val by exact Hl).
  - assert (table σ !! e_name e = Some b) as -> by (by apply (a_table _ _ _ R)).
    exists s, ts. split_and!; [done|done|done].
  - assert (table σ !! e_name e = None) as Hnone.
    { destruct (table σ !! e_name e) as [b|] eqn:Hb; [|done]. exfalso.
      apply (a_table _ _ _ R) in Hb as [Hb Hn]. by eapply around_absent. }
    rewrite Hnone. pose proof (name_at_Some _ _ _ He) as Hna.
    assert (a ∉ us ++ vs) as Ha by (intros Hin; by eapply around_absent).
    destruct (a_addr _ _ _ R a) as [Ha0 Hal]; [by apply elem_of_dom|].
    destruct (insert_spec _ _ _ _ _ a Hat') as (t' & Hins & Ht' & Hfr & Hdom); try done.
    { rewrite (a_dom _ _ _ R). by apply elem_of_dom. }
    erewrite bind_val by (by apply on_tree_val). eexists _, (us ++ a :: vs). split; [reflexivity|].
    split; [|done]. destruct R as [Hrt Hs Hu Hd Hr Had Htb]. split; cbn [fst snd tree users live table]; try done.
    + by eapply SSorted_insert.
    + by rewrite Hdom.
    + intros n b. destruct (decide (n = e_name e)) as [->|Hne].
      * rewrite lookup_insert_eq. split.
        -- intros [= <-]. split; [set_solver|done].
        -- intros [Hb Hbn]. f_equal. apply elem_of_app in Hb as [Hb|[->|Hb]%elem_of_cons]; [|done|].
           ++ exfalso. eapply (around_absent _ _ us vs b); [done|set_solver|done].
           ++ exfalso. eapply (around_absent _ _ us vs b); [done|set_solver|done].
      * rewrite lookup_insert_ne by done. rewrite Htb. split; intros [Hb Hbn]; (split; [|done]).
        -- set_solver.
        -- apply elem_of_app in Hb as [Hb|[->|Hb]%elem_of_cons]; [set_solver| |set_solver].
           by rewrite Hna in Hbn.
Qed.

(** Taking a user out of the table, without dropping the table's reference. *)
Definition spec_take (name : bytes) (σ : spec) : spec := Spec (live σ) (delete name (table σ)).

Lemma SSorted_delete {A} (Rel : A → A → Prop) us a vs :
  StronglySorted Rel (us ++ a :: vs) → StronglySorted Rel (us ++ vs).
Proof.
  intros Hs. apply StronglySorted_app_2.
  - intros b c Hb Hc. eapply StronglySorted_app_1_elem_of; [exact Hs|done|set_solver].
  - by eapply StronglySorted_app_1_l.
  - apply StronglySorted_app_1_r in Hs. by apply StronglySorted_cons in Hs as [_ Hs].
Qed.

Lemma before_ne m a b : before m a b → name_at m a ≠ name_at m b.
Proof. unfold before. intros Hb Heq. rewrite Heq, name_cmp_refl in Hb. lia. Qed.

Lemma erase_refines s σ us a vs :
  auth_rep s σ (us ++ a :: vs) →
  ∃ s', on_tree (hev_rbtree_erase a) s = Val tt s' ∧
    auth_rep s' (spec_take (name_at (live σ) a) σ) (us ++ vs) ∧ heap s' = heap s.
Proof.
  intros R. destruct (erase_spec _ _ _ _ (a_tree _ _ _ R)) as (t' & He & Ht' & Hfr & Hdom).
  erewrite on_tree_val by exact He. eexists. split; [reflexivity|]. split; [|done].
  destruct R as [Hrt Hs Hu Hd Hr Had Htb].
  split; cbn [tree users live table spec_take]; try done.
  - by eapply SSorted_delete.
  - by rewrite Hdom.
  - intros n b. destruct (decide (n = name_at (live σ) a)) as [->|Hne].
    + rewrite lookup_delete_eq. split; [done|]. intros [Hb Hbn]. exfalso.
      destruct (sorted_around _ _ _ _ b Hs) as [H1 H2].
      apply elem_of_app in Hb as [Hb|Hb]; [apply H1, before_ne in Hb|apply H2, before_ne in Hb]; congruence.
    + rewrite lookup_delete_ne by done. rewrite Htb. split; intros [Hb Hbn]; (split; [|done]).
      * apply elem_of_app in Hb as [Hb|[->|Hb]%elem_of_cons]; [set_solver| |set_solver]. congruence.
      * set_solver.
Qed.

Definition spec_del (name : bytes) (σ : spec) : Z * spec :=
  match table σ !! name with
  | Some a => (0, spec_unref a (spec_take name σ))
  | None => (-1, σ)
  end.

Lemma in_table s σ ts n a :
  auth_rep s σ ts → table σ !! n = Some a →
  a ≠ 0 ∧ ∃ us vs e, ts = us ++ a :: vs ∧ live σ !! a = Some e ∧ e_name e = n.
Proof.
  intros R Hn. apply (a_table _ _ _ R) in Hn as [Ha Hna].
  destruct (rbtree_node _ _ _ (a_tree _ _ _ R) Ha) as (Ha0 & _).
  destruct (a_live _ _ _ _ R Ha) as [e He]. apply list_elem_of_split in Ha as (us & vs & ->).
  split; [done|]. exists us, vs, e. split_and!; [done|done|]. by rewrite <- (name_at_Some _ _ _ He).
Qed.

Lemma nodup_middle s σ us a vs : auth_rep s σ (us ++ a :: vs) → a ∉ us ++ vs.
Proof.
  intros R. pose proof (rbtree_nodup _ _ (a_tree _ _ _ R)) as Hnd.
  apply NoDup_app in Hnd as (_ & H1 & H2). apply NoDup_cons in H2 as [H2 _]. set_solver.
Qed.

(** Erasing a node and dropping the tree's reference to it. *)
Lemma drop_refines s σ us a vs e :
  auth_rep s σ (us ++ a :: vs) → live σ !! a = Some e →
  ∃ s', (on_tree (hev_rbtree_erase a);; hev_object_unref a) s = Val tt s' ∧
    auth_rep s' (spec_unref a (spec_take (e_name e) σ)) (us ++ vs) ∧ heap s' = heap s.
Proof.
  intros R He. pose proof (nodup_middle _ _ _ _ _ R) as Hn.
  destruct (erase_refines _ _ _ _ _ R) as (s1 & H1 & R1 & Hh1).
  rewrite (name_at_Some _ _ _ He) in R1. erewrite bind_val by exact H1.
  destruct (unref_rep _ _ _ a e R1) as (s2 & H2 & R2 & Hh2); [done|done|].
  exists s2. split_and!; [done|done|congruence].
Qed.

Lemma del_refines s σ ts name y :
  auth_rep s σ ts →
  ∃ s' ts', hev_socks5_authenticator_del (name ++ y) (zlen name) s = Val (spec_del name σ).1 s' ∧
    auth_rep s' (spec_del name σ).2 ts' ∧ heap s' = heap s.
Proof.
  intros R. unfold hev_socks5_authenticator_del, loop_fuel, spec_del.
  erewrite !bind_val by reflexivity. erewrite bind_val by (by eapply search_spec).
  destruct (table σ !! name) as [a|] eqn:Hn; cbn [default from_option id].
  - destruct (in_table _ _ _ _ _ R Hn) as (Ha0 & us & vs & e & -> & He & <-).
    rewrite truthy_ne by done. cbn [negb].
    destruct (drop_refines _ _ _ _ _ _ R He) as (s' & Hd & R' & Hh).
    exists s', (us ++ vs). split_and!; [|done|done].
    rewrite <- bind_assoc. by erewrite bind_val by exact Hd.
  - exists s, ts. by split_and!.
Qed.

Definition drop_entry (tbl : gmap bytes Z) (a : Z) (e : entry) : option entry :=
  if bool_decide (tbl !! e_name e = Some a)
  then if e_refs e =? 1 then None else Some (Entry (e_name e) (e_pass e) (e_refs e - 1))
  else Some e.

Definition spec_clear (σ : spec) : spec := Spec (map_imap (drop_entry (table σ)) (live σ)) ∅.

Lemma lookup_spec_unref σ a e b :
  live σ !! a = Some e →
  live (spec_unref a σ) !! b =
    if decide (a = b)
    then if e_refs e =? 1 then None else Some (Entry (e_name e) (e_pass e) (e_refs e - 1))
    else live σ !! b.
Proof.
  intros He. unfold spec_unref. rewrite He. destruct (e_refs e =? 1); cbn [spec_free set_refs live];
    (destruct (decide (a = b)) as [<-|]).
  - apply lookup_delete_eq.
  - by apply lookup_delete_ne.
  - by rewrite lookup_alter_eq, He.
  - by apply lookup_alter_ne.
Qed.

Lemma table_spec_unref σ a : table (spec_unref a σ) = table σ.
Proof. unfold spec_unref. by repeat case_match. Qed.

Lemma spec_clear_drop s σ us a vs e :
  auth_rep s σ (us ++ a :: vs) → live σ !! a = Some e →
  spec_clear (spec_unref a (spec_take (e_name e) σ)) = spec_clear σ.
Proof.
  intros R He. assert (table σ !! e_name e = Some a) as Hta.
  { apply (a_table _ _ _ R). split; [set_solver|by apply name_at_Some]. }
  unfold spec_clear. f_equal. apply map_eq. intros b. rewrite !map_lookup_imap.
  rewrite (lookup_spec_unref (spec_take (e_name e) σ) a e b He), table_spec_unref. cbn [spec_take live table].
  unfold drop_entry, mbind, option_bind. destruct (decide (a = b)) as [<-|Hne].
  - rewrite He. rewrite (bool_decide_eq_true_2 (table σ !! e_name e = Some a)) by done.
    destruct (e_refs e =? 1); [done|]. cbn [e_name e_refs].
    rewrite bool_decide_eq_false_2; [done|]. by rewrite lookup_delete_eq.
  - destruct (live σ !! b) as [e'|] eqn:Hb; [|done].
    destruct (decide (e_name e = e_name e')) as [Heq|Hneq].
    + rewrite Heq, lookup_delete_eq. rewrite <- Heq, Hta.
      rewrite !bool_decide_eq_false_2; [done|congruence|done].
    + by rewrite lookup_delete_ne.
Qed.

Lemma spec_clear_empty s σ : auth_rep s σ [] → spec_clear σ = σ.
Proof.
  intros R. assert (table σ = ∅) as Ht.
  { apply map_empty. intros n. destruct (table σ !! n) eqn:Hn; [|done].
    apply (a_table _ _ _ R) in Hn as [Hn _]. set_solver. }
  destruct σ as [lv tb]. cbn in Ht. subst tb. unfold spec_clear. f_equal. apply map_eq. intros b.
  cbn [live table]. rewrite map_lookup_imap. by destruct (lv !! b).
Qed.

Lemma clear_loop_spec s σ ts fuel :
  auth_rep s σ ts → (length ts < fuel)%nat →
  ∃ s', clear_loop fuel s = Val tt s' ∧ auth_rep s' (spec_clear σ) [] ∧ heap s' = heap s.
Proof.
  revert s σ fuel. induction ts as [|a ts IH]; intros s σ fuel R Hf;
    (destruct fuel as [|fuel]; [cbn in Hf; lia|]); cbn [clear_loop];
    (erewrite bind_val by (apply on_tree_read, first_spec, R)).
  - exists s. split_and!; [done| |done]. by rewrite (spec_clear_empty _ _ R).
  - cbn [head ptr]. destruct (rbtree_node _ _ a (a_tree _ _ _ R)) as (Ha0 & _); [set_solver|].
    cbn. rewrite truthy_ne by done. cbn [negb].
    destruct (a_live _ _ _ a R) as [e He]; [set_solver|].
    destruct (drop_refines _ _ [] _ _ _ R He) as (s1 & H1 & R1 & Hh1).
    destruct (IH _ _ fuel R1) as (s2 & H2 & R2 & Hh2); [cbn in Hf; lia|].
    exists s2. split_and!; [|by erewrite <- (spec_clear_drop _ _ []) by done|congruence].
    rewrite <- bind_assoc. by erewrite bind_val by exact H1.
Qed.

Lemma clear_refines s σ ts :
  auth_rep s σ ts →
  ∃ s', hev_socks5_authenticator_clear s = Val tt s' ∧ auth_rep s' (spec_clear σ) [] ∧ heap s' = heap s.
Proof.
  intros R. unfold hev_socks5_authenticator_clear, loop_fuel. erewrite bind_val by reflexivity.
  eapply clear_loop_spec; [done|by eapply loop_fuel_ok].
Qed.

(** ** Refinement *)

Inductive op :=
| New (name pass : bytes) | Add (a : Z) | Del (name : bytes) | Get (name : bytes)
| Verify (a : Z) (pass : bytes) | Ref (a : Z) | Unref (a : Z) | Clear.

Definition run (o : op) : M auth Z :=
  match o with
  | New name pass => hev_socks5_user_new name (zlen name) pass (zlen pass)
  | Add a => hev_socks5_authenticator_add a
  | Del name => hev_socks5_authenticator_del name (zlen name)
  | Get name => hev_socks5_authenticator_get name (zlen name)
  | Verify a pass => hev_socks5_user_check a pass (zlen pass)
  | Ref a => hev_object_ref a;; mret 0
  | Unref a => hev_object_unref a;; mret 0
  | Clear => hev_socks5_authenticator_clear;; mret 0
  end.

(** What a caller has to respect: it names live objects only, does not overflow
    the counter, and does not drop the reference that the table holds. *)
Definition allowed (o : op) (σ : spec) : Prop :=
  match o with
  | Add a | Verify a _ => a ∈ dom (live σ)
  | Ref a => ∃ e, live σ !! a = Some e ∧ e_refs e < 4294967295
  | Unref a => ∃ e, live σ !! a = Some e ∧ (table σ !! e_name e = Some a → 1 < e_refs e)
  | _ => True
  end.

Definition spec_step (o : op) (σ : spec) (r : Z) (σ' : spec) : Prop :=
  match o with
  | New name pass =>
      (r = 0 ∧ σ' = σ) ∨
      (r ≠ 0 ∧ live σ !! r = None ∧ σ' = Spec (<[r := Entry name pass 1]> (live σ)) (table σ))
  | Add a => (r, σ') = spec_add a σ
  | Del name => (r, σ') = spec_del name σ
  | Get name => r = default 0 (table σ !! name) ∧ σ' = σ
  | Verify a pass => r = spec_check a pass σ ∧ σ' = σ
  | Ref a => r = 0 ∧ ∃ e, live σ !! a = Some e ∧ σ' = set_refs a (e_refs e + 1) σ
  | Unref a => r = 0 ∧ σ' = spec_unref a σ
  | Clear => r = 0 ∧ σ' = spec_clear σ
  end.

Lemma step_refines s σ o :
  auth_inv s σ → allowed o σ →
  ∃ r s' σ', run o s = Val r s' ∧ spec_step o σ r σ' ∧ auth_inv s' σ'.
Proof.
  intros [ts R] Ho. destruct o as [name pass|a|name|name|a pass|a|a|]; cbn [run spec_step allowed] in *.
  - destruct (new_refines s σ ts name [] pass [] R) as (s' & Hr & R' & _).
    rewrite !app_nil_r in Hr. eexists _, s', _. split_and!; [exact Hr| |by exists ts].
    unfold spec_new. destruct (heap s) as [|[[p nm] ps] h]; [by left|].
    case_bool_decide as Hf; [|by left]. destruct nm, ps; cbn [andb]; [|by left..]. right.
    destruct Hf as (Hp & _ & Hu). split_and!; [done| |done].
    rewrite (a_users _ _ _ R), lookup_fmap in Hu. cbn. by destruct (live σ !! p).
  - destruct (add_refines _ _ _ a R Ho) as (s' & ts' & Hr & R' & _).
    exists (spec_add a σ).1, s', (spec_add a σ).2. split_and!; [exact Hr|by destruct (spec_add a σ)|by exists ts'].
  - destruct (del_refines _ _ _ name [] R) as (s' & ts' & Hr & R' & _). rewrite app_nil_r in Hr.
    exists (spec_del name σ).1, s', (spec_del name σ).2. split_and!; [exact Hr|by destruct (spec_del name σ)|by exists ts'].
  - exists (default 0 (table σ !! name)), s, σ. split_and!; [|done|done|by exists ts].
    rewrite <- (app_nil_r name) at 1. apply get_refines. by exists ts.
  - apply elem_of_dom in Ho as [e He]. exists (spec_check a pass σ), s, σ.
    split_and!; [|done|done|by exists ts]. rewrite <- (app_nil_r pass) at 1. by eapply check_refines.
  - destruct Ho as (e & He & Hm). destruct (ref_rep _ _ _ _ _ R He Hm) as (s' & Hr & R' & _).
    exists 0, s', (set_refs a (e_refs e + 1) σ).
    split_and!; [by erewrite bind_val by exact Hr|done|by exists e|by exists ts].
  - destruct Ho as (e & He & Ht). destruct (unref_rep _ _ _ _ _ R He) as (s' & Hr & R' & _).
    { intros Ha. apply Ht. apply (a_table _ _ _ R). by rewrite (name_at_Some _ _ _ He). }
    exists 0, s', (spec_unref a σ). split_and!; [by erewrite bind_val by exact Hr|done|done|by exists ts].
  - destruct (clear_refines _ _ _ R) as (s' & Hr & R' & _). exists 0, s', (spec_clear σ).
    split_and!; [by erewrite bind_val by exact Hr|done|done|by exists []].
Qed.

Lemma auth_new_inv h s : hev_socks5_authenticator_new true h = Some s → auth_inv s (Spec ∅ ∅).
Proof.
  intros [= <-]. exists []. split; cbn [tree users live table].
  - apply rbtree_empty.
  - constructor.
  - by rewrite fmap_empty.
  - cbn. by rewrite !dom_empty_L.
  - intros a e Ha. by rewrite lookup_empty in Ha.
  - intros a Ha. set_solver.
  - intros n a. rewrite lookup_empty. split; [done|]. intros [Ha _]. set_solver.
Qed.

Lemma spec_step_det o σ r σ1 σ2 : spec_step o σ r σ1 → spec_step o σ r σ2 → σ1 = σ2.
Proof.
  destruct o; cbn [spec_step]; (congruence || naive_solver).
Qed.

(** The states that callers who respect the protocol reach. *)
Inductive reach : auth → spec → Prop :=
| reach_new h s : hev_socks5_authenticator_new true h = Some s → reach s (Spec ∅ ∅)
| reach_step s σ o r s' σ' :
    reach s σ → allowed o σ → run o s = Val r s' → spec_step o σ r σ' → reach s' σ'.

Lemma auth_reach_inv s σ : reach s σ → auth_inv s σ.
Proof.
  induction 1 as [h s Hs|s σ o r s' σ' _ IH Ho Hr Hst]; [by eapply auth_new_inv|].
  destruct (step_refines _ _ _ IH Ho) as (r1 & s1 & σ1 & Hr1 & Hst1 & Hi).
  rewrite Hr in Hr1. injection Hr1 as <- <-. by rewrite (spec_step_det _ _ _ _ _ Hst Hst1).
Qed.

(** C10: in every state that new, add, del, get, check, ref, unref and clear
    reach, the next operation ends (the searches and the clearing loop too), never
    uses a freed user, and returns what the operation on a finite map from names
    to users returns: adding a name that is there fails, deleting drops the
    table's reference and frees the user with the last one, the search by length
    and bytes finds exactly the user of that name. *)
Theorem authenticator_refines_map s σ o :
  reach s σ → allowed o σ →
  ∃ r s' σ', run o s = Val r s' ∧ spec_step o σ r σ' ∧ reach s' σ'.
Proof.
  intros Hr Ho. destruct (step_refines _ _ _ (auth_reach_inv _ _ Hr) Ho) as (r & s' & σ' & Hrun & Hst & _).
  exists r, s', σ'. split_and!; [done|done|by eapply reach_step].
Qed.

Definition demo_ops : list op := [New [97] [1]; Add 8; New [98] [2]; Add 16].
Definition demo_state (n : nat) : auth :=
  foldl (λ s o, match run o s with Val _ s' => s' | _ => s end)
    (Auth (RBMem 0 ∅) ∅ [(8, true, true); (16, true, true)]) (take n demo_ops).

Definition demo_1 : spec := Spec (<[8 := Entry [97] [1] 1]> ∅) ∅.
Definition demo_2 : spec := Spec (live demo_1) (<[[97] := 8]> ∅).
Definition demo_3 : spec := Spec (<[16 := Entry [98] [2] 1]> (live demo_2)) (table demo_2).
Definition demo_4 : spec := Spec (live demo_3) (<[[98] := 16]> (table demo_3)).

Lemma demo_reach : reach (demo_state 4) demo_4.
Proof.
  apply (reach_step (demo_state 3) demo_3 (Add 16) 0);
    [|cbn [allowed]; apply elem_of_dom; by eexists|vm_compute; reflexivity|reflexivity].
  apply (reach_step (demo_state 2) demo_2 (New [98] [2]) 16);
    [|done|vm_compute; reflexivity|by right; split_and!].
  apply (reach_step (demo_state 1) demo_1 (Add 8) 0);
    [|cbn [allowed]; apply elem_of_dom; by eexists|vm_compute; reflexivity|reflexivity].
  apply (reach_step (demo_state 0) (Spec ∅ ∅) (New [97] [1]) 8);
    [|done|vm_compute; reflexivity|by right; split_and!].
  by apply (reach_new [(8, true, true); (16, true, true)]).
Qed.

(** Two users are made and added; then the first is deleted. *)
Lemma authenticator_refines_map_witness :
  (reach (demo_state 4) demo_4 ∧ allowed (Del [97]) demo_4) ∧
  ∃ r s' σ', run (Del [97]) (demo_state 4) = Val r s' ∧ spec_step (Del [97]) demo_4 r σ' ∧ reach s' σ'.
Proof.
  split; [split; [exact demo_reach|exact I]|].
  apply (authenticator_refines_map (demo_state 4) demo_4 (Del [97])); [exact demo_reach|exact I].
Defined.
