(* ===== verification/TaskIO.v ===== *)
(** * TaskIO: descriptors, waiting and the retrying socket calls of
    third-part/hev-task-system/src/lib/io/socket/hev-task-io-socket.c

    What the kernel and the peers will do is data of the state: every descriptor
    carries the queue of the outcomes of its next reads and writes, [wakes] lists
    how the next waits end, [answers] the results of the next calls of [connect],
    [bind], [setsockopt] and [getsockname], [sockets] the descriptors to come and
    [mallocs] whether memory is available. Theorems quantify over all of them.
    The retry loops run with as much fuel as there are outcomes that can make
    them retry; [TaskIOSpec] shows that it is never used up. *)
From S2P Require Import Prelude Bytes.

(** ** The state *)

(** One outcome of a read on a stream: a non-empty segment (of which a read takes
    what it asked for and leaves the rest), no data yet, the end of the stream (for
    good), or an error. *)
Inductive rx_event := RxData (b : Z) (bs : bytes) | RxAgain | RxEof | RxErr (e : Z).

(** The bytes that are still to come on a stream. *)
Fixpoint stream (q : list rx_event) : bytes :=
  match q with
  | RxData b bs :: q => b :: bs ++ stream q
  | RxAgain :: q | RxErr _ :: q => stream q
  | RxEof :: _ | [] => []
  end.

(** One outcome of a write: up to [n] + 1 bytes (or datagrams) are accepted, the
    buffer is full, or an error. With no outcome left everything is accepted. *)
Inductive tx_event := TxAccept (n : nat) | TxAgain | TxErr (e : Z).

Record sockaddr6 := Sockaddr6 { sin6_family : Z; sin6_port : Z; sin6_addr : bytes }.

(** One outcome of a read on a datagram socket. *)
Inductive dg_event := DgFrom (src : sockaddr6) (bs : bytes) | DgAgain | DgErr (e : Z).

Record chan := Chan {
  rxq : list rx_event; rxd : list dg_event; txq : list tx_event;
  tx : bytes; txd : list (option sockaddr6 * bytes); shut : bool
}.

(** The globals of src/core/src/hev-socks5-misc.c. *)
Record globals := Globals {
  connect_timeout : Z; tcp_timeout : Z; udp_timeout : Z;
  task_stack_size : Z; udp_recv_buffer_size : Z; udp_copy_buffer_nums : Z
}.

Record world := World {
  errno : Z;
  wakes : list Z;
  chans : gmap Z chan;
  sockets : list (option chan);
  answers : list Z;
  names : list sockaddr6;
  mallocs : list bool;
  blocks : gmap Z bytes;
  polled : gset Z;
  config : globals
}.

(** Code of an object runs on the object and the world. *)
Record st (O : Type) := St { self : O; io : world }.
Arguments St {O} self io.
Arguments self {O} s.
Arguments io {O} s.

Definition set_errno v i := World v (wakes i) (chans i) (sockets i) (answers i) (names i) (mallocs i) (blocks i) (polled i) (config i).
Definition set_wakes v i := World (errno i) v (chans i) (sockets i) (answers i) (names i) (mallocs i) (blocks i) (polled i) (config i).
Definition set_chans v i := World (errno i) (wakes i) v (sockets i) (answers i) (names i) (mallocs i) (blocks i) (polled i) (config i).
Definition set_sockets v i := World (errno i) (wakes i) (chans i) v (answers i) (names i) (mallocs i) (blocks i) (polled i) (config i).
Definition set_answers v i := World (errno i) (wakes i) (chans i) (sockets i) v (names i) (mallocs i) (blocks i) (polled i) (config i).
Definition set_names v i := World (errno i) (wakes i) (chans i) (sockets i) (answers i) v (mallocs i) (blocks i) (polled i) (config i).
Definition set_mallocs v i := World (errno i) (wakes i) (chans i) (sockets i) (answers i) (names i) v (blocks i) (polled i) (config i).
Definition set_blocks v i := World (errno i) (wakes i) (chans i) (sockets i) (answers i) (names i) (mallocs i) v (polled i) (config i).
Definition set_polled v i := World (errno i) (wakes i) (chans i) (sockets i) (answers i) (names i) (mallocs i) (blocks i) v (config i).
Definition set_config v i := World (errno i) (wakes i) (chans i) (sockets i) (answers i) (names i) (mallocs i) (blocks i) (polled i) v.

Definition set_rxq v c := Chan v (rxd c) (txq c) (tx c) (txd c) (shut c).
Definition set_rxd v c := Chan (rxq c) v (txq c) (tx c) (txd c) (shut c).
Definition set_tx q v c := Chan (rxq c) (rxd c) q v (txd c) (shut c).
Definition set_txd q v c := Chan (rxq c) (rxd c) q (tx c) v (shut c).
Definition set_shut v c := Chan (rxq c) (rxd c) (txq c) (tx c) (txd c) v.

Section Io.
Context {O : Type}.
Implicit Types s : st O.

Definition on_io {A} (m : M world A) : M (st O) A := zoom io (λ i s, St (self s) i) m.
Definition get_self : M (st O) O := gets self.
Definition put_self (o : O) : M (st O) unit := modify (λ s, St o (io s)).
Definition get_errno : M (st O) Z := gets (λ s, errno (io s)).

Definition EAGAIN : Z := 11.
Definition EBADF : Z := 9.
Definition EINPROGRESS : Z := 115.
Definition EALREADY : Z := 114.
Definition EISCONN : Z := 106.
Definition MSG_DONTWAIT : Z := 64.
Definition MSG_WAITALL : Z := 256.
Definition MSG_MORE : Z := 32768.

(** ** Memory *)

(** A block of its own for [bs]; a negative size stands for one that does not
    fit the address space. *)
Definition hev_malloc (size : Z) (bs : bytes) : M (st O) Z := on_io (λ i,
  if size <? 0 then Val 0 i else
  match mallocs i with
  | false :: ms => Val 0 (set_mallocs ms i)
  | ms =>
      let p := fresh (dom (blocks i) ∪ {[0]}) in
      Val p (set_mallocs (tl ms) (set_blocks (<[p := bs]> (blocks i)) i))
  end).

Definition hev_malloc0 (size : Z) : M (st O) Z := hev_malloc size (replicate (Z.to_nat size) 0).

Definition hev_free (p : Z) : M (st O) unit := on_io (λ i,
  match blocks i !! p with
  | Some _ => Val tt (set_blocks (delete p (blocks i)) i)
  | None => Stuck
  end).

(** A pointer is a block and an offset. *)
Definition load (p : Z * Z) (n : Z) : M (st O) bytes := λ s,
  match blocks (io s) !! p.1 with
  | Some b =>
      if (0 <=? p.2) && (0 <=? n) && (p.2 + n <=? zlen b) then Val (slice b p.2 n) s else Stuck
  | None => Stuck
  end.

Definition store (p : Z * Z) (bs : bytes) : M (st O) unit := on_io (λ i,
  match blocks i !! p.1 with
  | Some b =>
      if (0 <=? p.2) && (p.2 + zlen bs <=? zlen b)
      then Val tt (set_blocks (<[p.1 := overwrite b p.2 bs]> (blocks i)) i) else Stuck
  | None => Stuck
  end).

(** ** Waiting *)

Inductive HevTaskYieldType := HEV_TASK_YIELD | HEV_TASK_WAITIO.

(** Waiting for I/O returns when the task is woken; a task that nothing wakes
    any more waits for ever. *)
Definition hev_task_yield (type : HevTaskYieldType) : M (st O) unit := on_io (λ i,
  match type with
  | HEV_TASK_YIELD => Val tt i
  | HEV_TASK_WAITIO =>
      match wakes i with
      | _ :: ws => Val tt (set_wakes ws i)
      | [] => Blocked i
      end
  end).

(** Sleeping returns the time that is left when the task is woken, and 0 when
    the time is over. *)
Definition hev_task_sleep (milliseconds : Z) : M (st O) Z := on_io (λ i,
  if milliseconds =? 0 then Val 0 i else
  match wakes i with
  | w :: ws => Val w (set_wakes ws i)
  | [] => Val 0 i
  end).

(** The function that waits for its caller, with the data it is called with; a
    result other than 0 gives up. *)
Definition HevTaskIOYielder : Type := option (HevTaskYieldType → M (st O) Z).

Definition wait_io (yielder : HevTaskIOYielder) : M (st O) bool :=
  match yielder with
  | Some y => r ← y HEV_TASK_WAITIO; mret (truthy r)
  | None => hev_task_yield HEV_TASK_WAITIO;; mret false
  end.

(** ** System calls *)

Definition fail {A} (e : Z) (a : A) : M world A := λ i, Val a (set_errno e i).

Definition on_chan {A} (fd : Z) (bad : A) (f : chan → world → outcome world A) : M (st O) A :=
  on_io (λ i, match chans i !! fd with Some c => f c i | None => fail EBADF bad i end).

Definition put_chan (fd : Z) (c : chan) (i : world) : world := set_chans (<[fd := c]> (chans i)) i.

Definition recv (fd len : Z) : M (st O) (Z * bytes) := on_chan fd (-1, []) (λ c i,
  match rxq c with
  | [] => fail EAGAIN (-1, []) i
  | RxAgain :: q => fail EAGAIN (-1, []) (put_chan fd (set_rxq q c) i)
  | RxEof :: _ => Val (0, []) i
  | RxErr e :: q => fail e (-1, []) (put_chan fd (set_rxq q c) i)
  | RxData b bs :: q =>
      let data := take (Z.to_nat len) (b :: bs) in
      let q := match drop (Z.to_nat len) (b :: bs) with [] => q | b :: bs => RxData b bs :: q end in
      Val (zlen data, data) (put_chan fd (set_rxq q c) i)
  end).

Definition send (fd : Z) (buf : bytes) : M (st O) Z := on_chan fd (-1) (λ c i,
  match txq c with
  | [] => Val (zlen buf) (put_chan fd (set_tx [] (tx c ++ buf) c) i)
  | TxAccept n :: q =>
      let data := take (S n) buf in
      Val (zlen data) (put_chan fd (set_tx q (tx c ++ data) c) i)
  | TxAgain :: q => fail EAGAIN (-1) (put_chan fd (set_tx q (tx c) c) i)
  | TxErr e :: q => fail e (-1) (put_chan fd (set_tx q (tx c) c) i)
  end).

(** A negative answer is the negated error code; a missing one is an error. *)
Definition syscall : M (st O) Z := on_io (λ i,
  match answers i with
  | [] => fail EBADF (-1) i
  | a :: l => if a <? 0 then fail (- a) (-1) (set_answers l i) else Val a (set_answers l i)
  end).

Definition connect (fd : Z) (addr : sockaddr6) : M (st O) Z := syscall.
Definition bind (fd : Z) (addr : sockaddr6) : M (st O) Z := syscall.
Definition setsockopt (fd : Z) : M (st O) Z := syscall.

(** The name that the kernel reports, when the call succeeds. *)
Definition getsockname (fd : Z) (old : sockaddr6) : M (st O) (Z * sockaddr6) :=
  res ← syscall;
  if res <? 0 then mret (res, old) else
  on_io (λ i, match names i with
    | a :: l => Val (res, a) (set_names l i)
    | [] => Val (res, old) i
    end).

Definition socket : M (st O) Z := on_io (λ i,
  match sockets i with
  | Some c :: l =>
      let fd := 1 + foldr Z.max 0 (elements (dom (chans i))) in
      Val fd (set_sockets l (put_chan fd c i))
  | None :: l => fail EBADF (-1) (set_sockets l i)
  | [] => fail EBADF (-1) i
  end).

(** Closing ends the registration too. *)
Definition close (fd : Z) : M (st O) unit := on_io (λ i,
  Val tt (set_polled (polled i ∖ {[fd]}) (set_chans (delete fd (chans i)) i))).

(** No more is sent. *)
Definition shutdown (fd : Z) : M (st O) unit := on_chan fd tt (λ c i, Val tt (put_chan fd (set_shut true c) i)).

(** The descriptors that the task is registered for. *)
Definition hev_task_add_fd (fd : Z) : M (st O) Z := on_io (λ i,
  if bool_decide (fd ∈ polled i) then Val (-1) i else Val 0 (set_polled ({[fd]} ∪ polled i) i)).
Definition hev_task_mod_fd (fd : Z) : M (st O) Z := on_io (λ i,
  if bool_decide (fd ∈ polled i) then Val 0 i else Val (-1) i).
Definition hev_task_del_fd (fd : Z) : M (st O) unit := on_io (λ i,
  Val tt (set_polled (polled i ∖ {[fd]}) i)).

(** Datagrams: up to [n] that are there, each with its sender and cut to the
    length of the buffer it is read into. *)
Fixpoint take_dgrams (lens : list Z) (q : list dg_event) : list (sockaddr6 * bytes) * list dg_event :=
  match lens, q with
  | len :: lens, DgFrom src bs :: q =>
      let '(ms, q) := take_dgrams lens q in ((src, take (Z.to_nat len) bs) :: ms, q)
  | _, _ => ([], q)
  end.

Definition recvmmsg (fd : Z) (lens : list Z) : M (st O) (Z * list (sockaddr6 * bytes)) :=
  on_chan fd (-1, []) (λ c i,
    match rxd c with
    | [] => fail EAGAIN (-1, []) i
    | DgAgain :: q => fail EAGAIN (-1, []) (put_chan fd (set_rxd q c) i)
    | DgErr e :: q => fail e (-1, []) (put_chan fd (set_rxd q c) i)
    | DgFrom _ _ :: _ =>
        let '(ms, q) := take_dgrams lens (rxd c) in
        Val (zlen ms, ms) (put_chan fd (set_rxd q c) i)
    end).

Definition sendmmsg (fd : Z) (msgs : list (option sockaddr6 * bytes)) : M (st O) Z :=
  on_chan fd (-1) (λ c i,
    match txq c with
    | [] => Val (zlen msgs) (put_chan fd (set_txd [] (txd c ++ msgs) c) i)
    | TxAccept n :: q =>
        let ms := take (S n) msgs in
        Val (zlen ms) (put_chan fd (set_txd q (txd c ++ ms) c) i)
    | TxAgain :: q => fail EAGAIN (-1) (put_chan fd (set_txd q (txd c) c) i)
    | TxErr e :: q => fail e (-1) (put_chan fd (set_txd q (txd c) c) i)
    end).
End Io.

(** ** The retrying calls

    A [yielder] that returns 0 has used up a wake, and a read or write that is
    retried has used up an outcome or a wake. *)
Section Retry.
Context {O : Type}.
Implicit Types y : HevTaskIOYielder (O := O).

Definition flag (flags f : Z) : bool := truthy (Z.land flags f).

Definition io_fuel (fd : Z) : M (st O) nat := gets (λ s,
  let i := io s in
  match chans i !! fd with
  | Some c => S (length (rxq c) + length (rxd c) + length (txq c) + length (wakes i))
  | None => 1%nat
  end).

Fixpoint connect_loop (fuel : nat) (fd : Z) (addr : sockaddr6) y : M (st O) Z :=
  match fuel with
  | Datatypes.O => stuck
  | S fuel =>
      res ← connect fd addr;
      e ← get_errno;
      if res <? 0 then
        if (e =? EINPROGRESS) || (e =? EALREADY) then
          r ← wait_io y;
          if r : bool then mret (-2) else connect_loop fuel fd addr y
        else if e =? EISCONN then mret 0
        else mret res
      else mret res
  end.

Definition hev_task_io_socket_connect (fd : Z) (addr : sockaddr6) y : M (st O) Z :=
  fuel ← gets (λ s, S (length (answers (io s))));
  connect_loop fuel fd addr y.

(** The result and the bytes that were stored from the start of the buffer on. *)
Fixpoint recv_loop (fuel : nat) (fd len flags : Z) y (size : Z) (buf : bytes) : M (st O) (Z * bytes) :=
  match fuel with
  | Datatypes.O => stuck
  | S fuel =>
      '(s, bs) ← recv fd (len - size);
      e ← get_errno;
      if (s <? 0) && (e =? EAGAIN) && negb (flag flags MSG_DONTWAIT) then
        r ← wait_io y;
        if r : bool then mret (if truthy size then size else -2, buf)
        else recv_loop fuel fd len flags y size buf
      else if negb (flag flags MSG_WAITALL) then mret (s, buf ++ bs)
      else if s <=? 0 then mret (if truthy size then size else s, buf)
      else
        let size := size + s in
        if size <? len then recv_loop fuel fd len flags y size (buf ++ bs)
        else mret (size, buf ++ bs)
  end.

Definition hev_task_io_socket_recv (fd len flags : Z) y : M (st O) (Z * bytes) :=
  fuel ← io_fuel fd;
  recv_loop fuel fd len flags y 0 [].

Fixpoint send_loop (fuel : nat) (fd : Z) (buf : bytes) (flags : Z) y (size : Z) : M (st O) Z :=
  match fuel with
  | Datatypes.O => stuck
  | S fuel =>
      s ← send fd (drop (Z.to_nat size) buf);
      e ← get_errno;
      if (s <? 0) && (e =? EAGAIN) && negb (flag flags MSG_DONTWAIT) then
        r ← wait_io y;
        if r : bool then mret (if truthy size then size else -2)
        else send_loop fuel fd buf flags y size
      else if negb (flag flags MSG_WAITALL) then mret s
      else if s <=? 0 then mret (if truthy size then size else s)
      else
        let size := size + s in
        if size <? zlen buf then send_loop fuel fd buf flags y size
        else mret size
  end.

Definition hev_task_io_socket_send (fd : Z) (buf : bytes) (flags : Z) y : M (st O) Z :=
  fuel ← io_fuel fd;
  send_loop fuel fd buf flags y 0.

(** ** Vectors

    What is left of the vector after [s] bytes, as the loop over the segments
    computes it. *)
Fixpoint advance (iov : list bytes) (s : Z) : list bytes :=
  match iov with
  | [] => []
  | v :: iov => if s <? zlen v then drop (Z.to_nat s) v :: iov else advance iov (s - zlen v)
  end.

Definition sendmsg (fd : Z) (iov : list bytes) : M (st O) Z := send fd (mjoin iov).

Fixpoint sendmsg_loop (fuel : nat) (fd : Z) (iov : list bytes) (len flags : Z) y (size : Z) : M (st O) Z :=
  match fuel with
  | Datatypes.O => stuck
  | S fuel =>
      s ← sendmsg fd iov;
      e ← get_errno;
      if (s <? 0) && (e =? EAGAIN) && negb (flag flags MSG_DONTWAIT) then
        r ← wait_io y;
        if r : bool then mret (if truthy size then size else -2)
        else sendmsg_loop fuel fd iov len flags y size
      else if negb (flag flags MSG_WAITALL) then mret s
      else if s <=? 0 then mret (if truthy size then size else s)
      else
        let size := size + s in
        if size <? len then sendmsg_loop fuel fd (advance iov s) len flags y size
        else mret size
  end.

Definition hev_task_io_socket_sendmsg (fd : Z) (iov : list bytes) (flags : Z) y : M (st O) Z :=
  let len := foldr (λ v n, zlen v + n) 0 iov in
  fuel ← io_fuel fd;
  sendmsg_loop fuel fd iov len flags y 0.

(** A vector to read into: segments of memory. *)
Abbreviation riov := (list ((Z * Z) * Z)).

Fixpoint radvance (iov : riov) (s : Z) : riov :=
  match iov with
  | [] => []
  | (p, n) :: iov => if s <? n then ((p.1, p.2 + s), n - s) :: iov else radvance iov (s - n)
  end.

Definition rtotal (iov : riov) : Z := foldr (λ v n, v.2 + n) 0 iov.

Fixpoint store_iov (iov : riov) (bs : bytes) : M (st O) unit :=
  match iov with
  | [] => mret tt
  | (p, n) :: iov =>
      (if zlen bs =? 0 then mret tt else store p (take (Z.to_nat n) bs));;
      store_iov iov (drop (Z.to_nat n) bs)
  end.

Definition recvmsg (fd : Z) (iov : riov) : M (st O) Z :=
  '(s, bs) ← recv fd (rtotal iov);
  store_iov iov bs;;
  mret s.

Fixpoint recvmsg_loop (fuel : nat) (fd : Z) (iov : riov) (len flags : Z) y (size : Z) : M (st O) Z :=
  match fuel with
  | Datatypes.O => stuck
  | S fuel =>
      s ← recvmsg fd iov;
      e ← get_errno;
      if (s <? 0) && (e =? EAGAIN) && negb (flag flags MSG_DONTWAIT) then
        r ← wait_io y;
        if r : bool then mret (if truthy size then size else -2)
        else recvmsg_loop fuel fd iov len flags y size
      else if negb (flag flags MSG_WAITALL) then mret s
      else if s <=? 0 then mret (if truthy size then size else s)
      else
        let size := size + s in
        if size <? len then recvmsg_loop fuel fd (radvance iov s) len flags y size
        else mret size
  end.

Definition hev_task_io_socket_recvmsg (fd : Z) (iov : riov) (flags : Z) y : M (st O) Z :=
  let len := rtotal iov in
  fuel ← io_fuel fd;
  recvmsg_loop fuel fd iov len flags y 0.

(** ** Many datagrams *)

Fixpoint recvmmsg_loop (fuel : nat) (fd : Z) (lens : list Z) (flags : Z) y
    (c : Z) (acc : list (sockaddr6 * bytes)) : M (st O) (Z * list (sockaddr6 * bytes)) :=
  match fuel with
  | Datatypes.O => stuck
  | S fuel =>
      '(r, ms) ← recvmmsg fd (drop (Z.to_nat c) lens);
      e ← get_errno;
      if (r <? 0) && (e =? EAGAIN) && negb (flag flags MSG_DONTWAIT) then
        w ← wait_io y;
        if w : bool then mret (if truthy c then c else -2, acc)
        else recvmmsg_loop fuel fd lens flags y c acc
      else if negb (flag flags MSG_WAITALL) then mret (r, acc ++ ms)
      else if r <=? 0 then mret (if truthy c then c else r, acc)
      else
        let c := c + r in
        if c <? zlen lens then recvmmsg_loop fuel fd lens flags y c (acc ++ ms)
        else mret (c, acc ++ ms)
  end.

Definition hev_task_io_socket_recvmmsg (fd : Z) (lens : list Z) (flags : Z) y :
    M (st O) (Z * list (sockaddr6 * bytes)) :=
  fuel ← io_fuel fd;
  recvmmsg_loop fuel fd lens flags y 0 [].

Fixpoint sendmmsg_loop (fuel : nat) (fd : Z) (msgs : list (option sockaddr6 * bytes)) (flags : Z) y
    (c : Z) : M (st O) Z :=
  match fuel with
  | Datatypes.O => stuck
  | S fuel =>
      r ← sendmmsg fd (drop (Z.to_nat c) msgs);
      e ← get_errno;
      if (r <? 0) && (e =? EAGAIN) && negb (flag flags MSG_DONTWAIT) then
        w ← wait_io y;
        if w : bool then mret (if truthy c then c else -2)
        else sendmmsg_loop fuel fd msgs flags y c
      else if negb (flag flags MSG_WAITALL) then mret r
      else if r <=? 0 then mret (if truthy c then c else r)
      else
        let c := c + r in
        if c <? zlen msgs then sendmmsg_loop fuel fd msgs flags y c
        else mret c
  end.

Definition hev_task_io_socket_sendmmsg (fd : Z) (msgs : list (option sockaddr6 * bytes)) (flags : Z) y :
    M (st O) Z :=
  fuel ← io_fuel fd;
  sendmmsg_loop fuel fd msgs flags y 0.
End Retry.
