(* ===== verification/TaskIOSpec.v ===== *)
(** * TaskIOSpec: what the retrying socket calls guarantee

    Two kinds of specification: for every environment, a call ends (or waits for
    ever) and what it read is a prefix of the stream, what it wrote a prefix of
    the buffer; in an environment that keeps delivering, a call transfers exactly
    the number of bytes asked for, however the stream is cut into segments. *)
From S2P Require Import Prelude Bytes TaskIO.

(** ** Streams *)

(** How often a reader (a writer) has to wait. *)
Fixpoint rx_waits (q : list rx_event) : nat :=
  match q with
  | RxAgain :: q => S (rx_waits q)
  | RxData _ _ :: q | RxErr _ :: q => rx_waits q
  | RxEof :: _ | [] => 0
  end.
Fixpoint tx_waits (q : list tx_event) : nat :=
  match q with
  | TxAgain :: q => S (tx_waits q)
  | _ :: q => tx_waits q
  | [] => 0
  end.

Definition rx_clean (q : list rx_event) : Prop :=
  Forall (λ e, match e with RxErr _ => False | _ => True end) q.
Definition tx_clean (q : list tx_event) : Prop :=
  Forall (λ e, match e with TxErr _ => False | _ => True end) q.

(** ** States that differ in one descriptor *)

Definition io_upd (fd : Z) (c : chan) (w : list Z) (e : Z) (i : world) : world :=
  set_errno e (set_wakes w (put_chan fd c i)).

Lemma io_upd_upd fd c w e c' w' e' i : io_upd fd c' w' e' (io_upd fd c w e i) = io_upd fd c' w' e' i.
Proof. destruct i. unfold io_upd, put_chan, set_errno, set_wakes, set_chans. cbn. by rewrite insert_insert_eq. Qed.

Lemma io_upd_id fd c i : chans i !! fd = Some c → io_upd fd c (wakes i) (errno i) i = i.
Proof.
  intros Hc. destruct i. unfold io_upd, put_chan, set_errno, set_wakes, set_chans. cbn in *.
  by rewrite insert_id.
Qed.

Lemma io_upd_chan fd c w e i : chans (io_upd fd c w e i) !! fd = Some c.
Proof. destruct i. unfold io_upd, put_chan, set_errno, set_wakes, set_chans. cbn. apply lookup_insert_eq. Qed.

Section Spec.
Context {O : Type}.
Implicit Types s : st O.

Definition evolve (fd : Z) (c : chan) (s s' : st O) : Prop :=
  ∃ w e, s' = St (self s) (io_upd fd c w e (io s)).

Lemma evolve_refl fd c s : chans (io s) !! fd = Some c → evolve fd c s s.
Proof. intros Hc. exists (wakes (io s)), (errno (io s)). rewrite io_upd_id by done. by destruct s. Qed.

Lemma evolve_trans fd c c' s s' s'' : evolve fd c s s' → evolve fd c' s' s'' → evolve fd c' s s''.
Proof. intros (w & e & ->) (w' & e' & ->). exists w', e'. cbn. by rewrite io_upd_upd. Qed.

Lemma evolve_chan fd c s s' : evolve fd c s s' → chans (io s') !! fd = Some c.
Proof. intros (w & e & ->). apply io_upd_chan. Qed.

Lemma evolve_self fd c s s' : evolve fd c s s' → self s' = self s.
Proof. by intros (w & e & ->). Qed.

(** ** Single reads and writes *)

Lemma recv_spec fd n c s :
  chans (io s) !! fd = Some c → 0 <= n →
  ∃ r bs q e, recv fd n s = Val (r, bs) (St (self s) (io_upd fd (set_rxq q c) (wakes (io s)) e (io s))) ∧
    stream (rxq c) = bs ++ stream q ∧ zlen bs <= n ∧ (length q <= length (rxq c))%nat ∧
    (r = -1 ∧ bs = [] ∨ r = zlen bs) ∧ (0 < r → r = n ∨ (length q < length (rxq c))%nat).
Proof.
  intros Hc Hn. unfold recv, on_chan, on_io, zoom. rewrite Hc.
  destruct (rxq c) as [|[b bs| | |e] q] eqn:Hq.
  - exists (-1), [], [], EAGAIN. split_and!; try done; try (by left); try lia.
    rewrite <- Hq. unfold fail, io_upd, put_chan. replace (set_rxq (rxq c) c) with c by (by destruct c).
    destruct s as [o i], i. cbn in *. unfold set_errno, set_wakes, set_chans. cbn. by rewrite insert_id.
  - exists (zlen (take (Z.to_nat n) (b :: bs))), (take (Z.to_nat n) (b :: bs)).
    exists (match drop (Z.to_nat n) (b :: bs) with [] => q | b :: bs => RxData b bs :: q end), (errno (io s)).
    split_and!.
    + destruct s as [o i], i. done.
    + cbn [stream]. change (b :: bs ++ stream q) with ((b :: bs) ++ stream q).
      rewrite <- (take_drop (Z.to_nat n) (b :: bs)) at 1. rewrite <- app_assoc. f_equal.
      by destruct (drop (Z.to_nat n) (b :: bs)).
    + unfold zlen. rewrite length_take. lia.
    + destruct (drop (Z.to_nat n) (b :: bs)); cbn; lia.
    + by right.
    + intros _. destruct (drop (Z.to_nat n) (b :: bs)) as [|b' bs'] eqn:Hd; [right; cbn; lia|left].
      apply (f_equal length) in Hd. rewrite length_drop in Hd. cbn [length] in Hd.
      unfold zlen. rewrite length_take. cbn [length]. lia.
  - exists (-1), [], q, EAGAIN. split_and!; try done; try (by left); try (cbn; lia).
  - exists 0, [], (RxEof :: q), (errno (io s)). split_and!; try done; try (by right).
    rewrite <- Hq. replace (set_rxq (rxq c) c) with c by (by destruct c).
    by rewrite io_upd_id.
  - exists (-1), [], q, e. split_and!; try done; try (by left); try (cbn; lia).
Qed.

Lemma send_spec fd buf c s :
  chans (io s) !! fd = Some c →
  ∃ r k q e, send fd buf s =
      Val r (St (self s) (io_upd fd (set_tx q (tx c ++ take k buf) c) (wakes (io s)) e (io s))) ∧
    (k <= length buf)%nat ∧ (r = -1 ∧ k = 0%nat ∨ r = Z.of_nat k) ∧
    (length q <= length (txq c))%nat ∧ (0 < r → r = zlen buf ∨ (length q < length (txq c))%nat).
Proof.
  intros Hc. unfold send, on_chan, on_io, zoom. rewrite Hc. destruct (txq c) as [|[n| |e] q] eqn:Hq.
  - exists (zlen buf), (length buf), [], (errno (io s)). rewrite take_ge by done.
    split_and!; try done; [by right|by left].
  - exists (zlen (take (S n) buf)), (S n `min` length buf)%nat, q, (errno (io s)).
    split_and!; [|lia|right; unfold zlen; by rewrite length_take|cbn; lia|cbn; lia].
    replace (take (S n `min` length buf) buf) with (take (S n) buf).
    { by destruct s as [o []]. }
    destruct (decide (S n <= length buf)%nat); [f_equal; lia|]. rewrite !take_ge by lia. done.
  - exists (-1), 0%nat, q, EAGAIN. rewrite take_0, app_nil_r.
    split_and!; try done; try (cbn; lia).
  - exists (-1), 0%nat, q, e. rewrite take_0, app_nil_r.
    split_and!; try done; try (cbn; lia).
Qed.

(** ** Yielders

    A yielder that behaves changes nothing but the wakes of the world, uses one
    up when it asks for a retry, and when it waits for ever leaves a state in [B];
    a good one asks for the retry when the next wake comes in time. [P] is what the
    yielder needs of the object. *)
Definition polite (P : O → Prop) (B : st O → Prop) (y : HevTaskYieldType → M (st O) Z) : Prop :=
  ∀ s, P (self s) → wp (y HEV_TASK_WAITIO)
    (λ r s', ∃ w, s' = St (self s) (set_wakes w (io s)) ∧ (length w <= length (wakes (io s)))%nat ∧
       (r = 0 → (length w < length (wakes (io s)))%nat)) B s.

Record good_yielder (P : O → Prop) (y : HevTaskYieldType → M (st O) Z) : Prop := {
  gy_any : polite P (λ _, True) y;
  gy_wake : ∀ s w ws, P (self s) → wakes (io s) = w :: ws → 0 < w →
    y HEV_TASK_WAITIO s = Val 0 (St (self s) (set_wakes ws (io s)))
}.

Section Any.
Context (P : O → Prop) (B : st O → Prop) (y : HevTaskYieldType → M (st O) Z) (Hy : polite P B y) (fd : Z).

Lemma wait_io_any c s :
  P (self s) → chans (io s) !! fd = Some c →
  wp (wait_io (Some y)) (λ b s', evolve fd c s s' ∧ (length (wakes (io s')) <= length (wakes (io s)))%nat ∧
    (b = false → (length (wakes (io s')) < length (wakes (io s)))%nat)) B s.
Proof using Hy.
  intros Hp Hc. unfold wait_io. apply wp_bind. eapply wp_mono; [by apply Hy| |done].
  intros r s' (w & -> & Hw & Hr). apply wp_ret. cbn [io]. split_and!.
  - exists w, (errno (io s)). destruct s as [o i], i. cbn in *.
    unfold io_upd, put_chan, set_errno, set_wakes, set_chans. cbn. by rewrite insert_id.
  - by destruct (io s).
  - intros Hb. destruct (io s). apply Hr. unfold truthy in Hb. destruct (Z.eqb_spec r 0); done.
Qed.

Lemma recv_loop_any len fuel s c size buf :
  P (self s) → chans (io s) !! fd = Some c → zlen buf = size → (size < len ∨ size = 0 ∧ len = 0) →
  (length (rxq c) + length (wakes (io s)) < fuel)%nat →
  wp (recv_loop fuel fd len MSG_WAITALL (Some y) size buf)
    (λ '(r, b) s', ∃ q bs, evolve fd (set_rxq q c) s s' ∧ b = buf ++ bs ∧
       stream (rxq c) = bs ++ stream q ∧ r <= len ∧ (r = len → zlen b = len)) B s.
Proof using Hy.
  revert s c size buf. induction fuel as [|fuel IH]; intros s c size buf Hp Hc Hb Hs Hf; [lia|].
  cbn [recv_loop]. pose proof (zlen_nonneg buf).
  destruct (recv_spec fd (len - size) c s Hc) as (r & bs & q & e & Hr & Hst & Hl & Hq & Hrb & Hpr); [lia|].
  eapply wp_bind_val; [exact Hr|]. cbv beta iota. set (s1 := St _ _).
  assert (evolve fd (set_rxq q c) s s1) as He by (by eexists _, _).
  assert (wakes (io s1) = wakes (io s)) as Hw by (by destruct (io s)).
  assert (P (self s1)) as Hp1 by done. pose proof (evolve_chan _ _ _ _ He) as Hc1.
  clearbody s1. eapply wp_bind_val; [reflexivity|].
  change (flag MSG_WAITALL MSG_DONTWAIT) with false. change (flag MSG_WAITALL MSG_WAITALL) with true.
  cbn [negb]. rewrite andb_true_r. cbv iota. pose proof (zlen_nonneg bs).
  destruct ((r <? 0) && _) eqn:Hag.
  - apply andb_true_iff in Hag as [Hr0%Z.ltb_lt _]. destruct Hrb as [[-> ->]| ->]; [|lia].
    apply wp_bind. eapply wp_mono; [by apply (wait_io_any _ _ Hp1 Hc1)| |done].
    intros b s2 (He2 & _ & Hlt). destruct b.
    + apply wp_ret. exists q, []. rewrite app_nil_r. split_and!; [|done|done|..].
      * eapply evolve_trans; [exact He|exact He2].
      * unfold truthy. destruct (Z.eqb_spec size 0); cbn [negb]; lia.
      * unfold truthy. destruct (Z.eqb_spec size 0); cbn [negb]; lia.
    + eapply wp_mono; [apply (IH s2 (set_rxq q c))|intros [r' b'] s3|done]; try done.
      * by rewrite (evolve_self _ _ _ _ He2).
      * by eapply evolve_chan.
      * cbn. specialize (Hlt eq_refl). rewrite Hw in Hlt. lia.
      * intros (q' & bs' & He3 & -> & Hst' & Hr' & Hl'). exists q', bs'. split_and!; try done.
        -- eapply evolve_trans; [exact He|]. eapply evolve_trans; [exact He2|exact He3].
        -- by rewrite Hst.
  - destruct (Z.leb_spec r 0) as [Hr0|Hr0].
    + apply wp_ret. exists q, []. assert (bs = []) as ->.
      { destruct Hrb as [[_ ->]|Hrb]; [done|]. destruct bs; [done|]. rewrite zlen_cons in Hrb.
        pose proof (zlen_nonneg bs). lia. }
      rewrite app_nil_r. split_and!; try done; unfold truthy; destruct (Z.eqb_spec size 0); cbn [negb];
        destruct Hrb as [[-> _]| ->]; change (zlen []) with 0; lia.
    + destruct Hrb as [[-> _]|Hrb]; [lia|]. destruct (Z.ltb_spec (size + r) len).
      * eapply wp_mono; [apply (IH s1 (set_rxq q c))|intros [r' b'] s3|done]; try done.
        -- rewrite zlen_app. lia.
        -- by left.
        -- cbn. rewrite Hw. specialize (Hpr ltac:(lia)). lia.
        -- intros (q' & bs' & He3 & -> & Hst' & Hr' & Hl'). exists q', (bs ++ bs').
           cbn [rxq set_rxq] in Hst'. rewrite !app_assoc in *. split_and!; try done.
           ++ eapply evolve_trans; [exact He|exact He3].
           ++ rewrite Hst, Hst'. by rewrite app_assoc.
      * apply wp_ret. exists q, bs. split_and!; try done; [lia|]. rewrite zlen_app. lia.
Qed.

(** ** Writing *)

Lemma send_loop_any buf fuel s c size :
  P (self s) → chans (io s) !! fd = Some c → 0 <= size → (size < zlen buf ∨ size = 0 ∧ zlen buf = 0) →
  (length (txq c) + length (wakes (io s)) < fuel)%nat →
  wp (send_loop fuel fd buf MSG_WAITALL (Some y) size)
    (λ r s', ∃ q k, evolve fd (set_tx q (tx c ++ take k (drop (Z.to_nat size) buf)) c) s s' ∧
       size + Z.of_nat k <= zlen buf ∧ (r = size + Z.of_nat k ∨ r < 0 ∧ size + Z.of_nat k = 0)) B s.
Proof using Hy.
  revert s c size. induction fuel as [|fuel IH]; intros s c size Hp Hc Hs0 Hs Hf; [lia|].
  cbn [send_loop].
  destruct (send_spec fd (drop (Z.to_nat size) buf) c s Hc) as (r & k & q & e & Hr & Hk & Hrk & Hq & Hpr).
  rewrite length_drop in Hk. unfold zlen in Hpr. rewrite length_drop in Hpr.
  eapply wp_bind_val; [exact Hr|]. cbv beta iota. set (s1 := St _ _).
  set (c1 := set_tx q (tx c ++ take k (drop (Z.to_nat size) buf)) c). assert (evolve fd c1 s s1) as He by (by eexists _, _).
  assert (wakes (io s1) = wakes (io s)) as Hw by (by destruct (io s)).
  assert (P (self s1)) as Hp1 by done. pose proof (evolve_chan _ _ _ _ He) as Hc1.
  clearbody s1. eapply wp_bind_val; [reflexivity|].
  change (flag MSG_WAITALL MSG_DONTWAIT) with false. change (flag MSG_WAITALL MSG_WAITALL) with true.
  cbn [negb]. rewrite andb_true_r. cbv iota.
  destruct ((r <? 0) && _) eqn:Hag.
  - apply andb_true_iff in Hag as [Hr0%Z.ltb_lt _]. assert (k = 0%nat) as -> by lia.
    apply wp_bind. eapply wp_mono; [by apply (wait_io_any _ _ Hp1 Hc1)| |done].
    intros b s2 (He2 & _ & Hlt). pose proof (evolve_trans _ _ _ _ _ _ He He2) as He02. destruct b.
    + apply wp_ret. exists q, 0%nat. split_and!; [done|unfold zlen in *; lia|].
      unfold truthy. destruct (Z.eqb_spec size 0); cbn [negb]; lia.
    + eapply wp_mono; [apply (IH s2 c1)|intros r' s3|done]; try done.
      * by rewrite (evolve_self _ _ _ _ He2).
      * by eapply evolve_chan.
      * cbn. specialize (Hlt eq_refl). rewrite Hw in Hlt. lia.
      * intros (q' & k' & He3 & ? & ?). exists q', k'. split_and!; try done.
        unfold c1 in He3. cbn [set_tx tx] in He3. rewrite take_0, app_nil_r in He3.
        eapply evolve_trans; [exact He02|exact He3].
  - destruct (Z.leb_spec r 0) as [Hr0|Hr0].
    + apply wp_ret. assert (k = 0%nat) as -> by lia. exists q, 0%nat. split_and!; [done|unfold zlen in *; lia|].
      unfold truthy. destruct (Z.eqb_spec size 0); cbn [negb]; lia.
    + assert (r = Z.of_nat k) as -> by lia. destruct (Z.ltb_spec (size + Z.of_nat k) (zlen buf)).
      * eapply wp_mono; [apply (IH s1 c1)|intros r' s3|done]; try done; [lia|by left| |].
        -- cbn. rewrite Hw. specialize (Hpr Hr0). unfold zlen in *. lia.
        -- intros (q' & k' & He3 & ? & ?). exists q', (k + k')%nat. split_and!; [|lia|lia].
           eapply evolve_trans; [exact He|]. unfold c1 in He3. cbn [set_tx tx rxq rxd txd] in He3.
           rewrite <- app_assoc in He3.
           replace (drop (Z.to_nat (size + Z.of_nat k)) buf) with (drop k (drop (Z.to_nat size) buf)) in He3
             by (rewrite drop_drop; f_equal; lia).
           by rewrite take_take_drop in He3.
      * apply wp_ret. exists q, k. split_and!; [done|unfold zlen in *; lia|by left].
Qed.

End Any.

Section Ready.
Context (P : O → Prop) (y : HevTaskYieldType → M (st O) Z) (Hy : good_yielder P y) (fd : Z).

Lemma wait_io_wake c s w ws :
  P (self s) → chans (io s) !! fd = Some c → wakes (io s) = w :: ws → 0 < w →
  ∃ s', wait_io (Some y) s = Val false s' ∧ evolve fd c s s' ∧ wakes (io s') = ws.
Proof using Hy.
  intros Hp Hc Hw H0. unfold wait_io. erewrite bind_val by (by eapply (gy_wake _ _ Hy)).
  eexists. split; [reflexivity|]. split; [|by destruct (io s)].
  exists ws, (errno (io s)). destruct s as [o i], i. cbn in *.
  unfold io_upd, put_chan, set_errno, set_wakes, set_chans. cbn. by rewrite insert_id.
Qed.

(** With nothing but data to come and enough wakes, the loop reads what it was
    asked for, whatever the segments are. *)
Lemma recv_loop_ready len fuel s c size buf :
  P (self s) → chans (io s) !! fd = Some c → 0 <= size < len →
  rx_clean (rxq c) → (rx_waits (rxq c) <= length (wakes (io s)))%nat → Forall (Z.lt 0) (wakes (io s)) →
  len - size <= zlen (stream (rxq c)) → (length (rxq c) + length (wakes (io s)) < fuel)%nat →
  ∃ s' q, recv_loop fuel fd len MSG_WAITALL (Some y) size buf s
      = Val (len, buf ++ take (Z.to_nat (len - size)) (stream (rxq c))) s' ∧
    evolve fd (set_rxq q c) s s' ∧ stream q = drop (Z.to_nat (len - size)) (stream (rxq c)) ∧
    rx_clean q ∧ (rx_waits (rxq c) + length (wakes (io s')) = rx_waits q + length (wakes (io s)))%nat ∧
    Forall (Z.lt 0) (wakes (io s')).
Proof using Hy.
  revert s c size buf. induction fuel as [|fuel IH]; intros s c size buf Hp Hc Hs Hcl Hwt Hpos Hn Hf; [lia|].
  cbn [recv_loop]. unfold recv, on_chan, on_io, zoom, mbind at 1, M_bind at 1. rewrite Hc.
  destruct (rxq c) as [|[b bs| | |e] q] eqn:Hq; cbn [stream] in Hn.
  - change (zlen []) with 0 in Hn. lia.
  - set (d := take (Z.to_nat (len - size)) (b :: bs)).
    set (q1 := match drop _ _ with [] => q | _ :: _ => _ end).
    assert (0 < zlen d <= len - size) as Hd.
    { unfold d, zlen. rewrite length_take. cbn [length]. lia. }
    set (s1 := St (self s) _). assert (evolve fd (set_rxq q1 c) s s1) as He.
    { exists (wakes (io s)), (errno (io s)). by destruct s as [o []]. }
    assert (wakes (io s1) = wakes (io s)) as Hw by (by destruct (io s)).
    assert (stream q1 = drop (Z.to_nat (len - size)) (b :: bs) ++ stream q) as Hq1.
    { unfold q1. by destruct (drop _ (b :: bs)). }
    assert (rx_waits q1 = rx_waits q) as Hwq by (unfold q1; by destruct (drop _ (b :: bs))).
    assert (rx_clean q1) as Hclq.
    { apply Forall_cons in Hcl as [_ Hcl]. unfold q1. destruct (drop _ (b :: bs)); [done|by constructor]. }
    assert (P (self s1)) as Hp1 by done. pose proof (evolve_chan _ _ _ _ He) as Hc1.
    erewrite bind_val by reflexivity. clearbody s1.
    replace ((zlen d <? 0) && _) with false by (destruct (Z.ltb_spec (zlen d) 0); [lia|done]).
    change (flag MSG_WAITALL MSG_WAITALL) with true. cbn [negb andb]. cbv iota zeta.
    destruct (Z.leb_spec (zlen d) 0); [lia|]. cbn [stream] in *. rewrite app_comm_cons in *.
    destruct (Z.ltb_spec (size + zlen d) len) as [Hlt|Hge].
    + assert (d = b :: bs) as Hdd.
      { unfold d in *. apply take_ge. unfold zlen in *. rewrite length_take in *. lia. }
      assert (drop (Z.to_nat (len - size)) (b :: bs) = []) as Hdr.
      { apply drop_ge. rewrite <- Hdd. unfold zlen in *. lia. }
      destruct (IH s1 (set_rxq q1 c) (size + zlen d) (buf ++ d)) as (s' & q' & Hr & He' & Hst & Hcl' & Hw' & Hpos');
        try done; cbn [rxq set_rxq].
      * lia.
      * rewrite Hwq, Hw. cbn in Hwt. done.
      * by rewrite Hw.
      * rewrite Hq1, Hdr. rewrite zlen_app in Hn. rewrite <- Hdd in Hn. cbn. lia.
      * unfold q1. rewrite Hdr, Hw. cbn in Hf. lia.
      * cbn [rxq set_rxq] in *. rewrite Hw, Hwq in Hw'. exists s', q'. rewrite Hr. split_and!; try done.
        -- f_equal. f_equal. rewrite <- app_assoc. f_equal. rewrite Hq1, Hdr, app_nil_l.
           rewrite <- Hdd. rewrite take_app_ge by (unfold zlen in *; lia). f_equal. f_equal. unfold zlen. lia.
        -- eapply evolve_trans; [exact He|exact He'].
        -- rewrite Hst, Hq1, Hdr, app_nil_l. rewrite <- Hdd, drop_app_ge by (unfold zlen in *; lia).
           f_equal. unfold zlen. lia.
    + exists s1, q1. assert (zlen d = len - size) as Hdl by lia.
      assert (Z.to_nat (len - size) <= length (b :: bs))%nat as Hle.
      { rewrite <- Hdl. unfold d, zlen. rewrite length_take. lia. }
      split_and!; try done.
      * cbv [mret M_ret]. replace (size + zlen d) with len by lia. f_equal. f_equal. f_equal.
        unfold d. by rewrite take_app_le.
      * by rewrite Hq1, drop_app_le.
      * rewrite Hwq, Hw. cbn [rx_waits]. done.
      * by rewrite Hw.
  - cbn [rx_waits] in *. destruct (wakes (io s)) as [|w ws] eqn:Hws; [cbn in Hwt; lia|].
    apply Forall_cons in Hpos as [Hw0 Hpos].
    unfold fail. set (s1 := St (self s) _). assert (evolve fd (set_rxq q c) s s1) as He.
    { exists (wakes (io s)), EAGAIN. by destruct s as [o []]. }
    assert (wakes (io s1) = w :: ws) as Hw by (rewrite <- Hws; by destruct (io s)).
    assert (errno (io s1) = EAGAIN) as Her by (by destruct (io s)).
    assert (P (self s1)) as Hp1 by done. pose proof (evolve_chan _ _ _ _ He) as Hc1. clearbody s1.
    erewrite bind_val by reflexivity. rewrite Her. change ((-1 <? 0) && _ && _) with true. cbv iota.
    destruct (wait_io_wake _ _ _ _ Hp1 Hc1 Hw Hw0) as (s2 & H2 & He2 & Hw2).
    erewrite bind_val by exact H2. cbv iota.
    assert (evolve fd (set_rxq q c) s s2) as He02 by (by eapply evolve_trans).
    apply Forall_cons in Hcl as [_ Hcl].
    destruct (IH s2 (set_rxq q c) size buf) as (s' & q' & Hr & He' & Hst & Hcl' & Hw' & Hpos'); try done;
      cbn [rxq set_rxq].
    + by rewrite (evolve_self _ _ _ _ He02).
    + by eapply evolve_chan.
    + rewrite Hw2. cbn in Hwt. lia.
    + by rewrite Hw2.
    + rewrite Hw2. cbn in Hf. lia.
    + cbn [rxq set_rxq] in *. rewrite Hw2 in Hw'. exists s', q'. split_and!; try done.
      * eapply evolve_trans; [exact He02|exact He'].
      * cbn [length]. lia.
  - change (zlen []) with 0 in Hn. lia.
  - apply Forall_cons in Hcl as [[] _].
Qed.

Lemma send_loop_ready buf fuel s c size :
  P (self s) → chans (io s) !! fd = Some c → 0 <= size < zlen buf →
  tx_clean (txq c) → (tx_waits (txq c) <= length (wakes (io s)))%nat → Forall (Z.lt 0) (wakes (io s)) →
  (length (txq c) + length (wakes (io s)) < fuel)%nat →
  ∃ s' q, send_loop fuel fd buf MSG_WAITALL (Some y) size s = Val (zlen buf) s' ∧
    evolve fd (set_tx q (tx c ++ drop (Z.to_nat size) buf) c) s s' ∧ tx_clean q ∧
    (tx_waits (txq c) + length (wakes (io s')) = tx_waits q + length (wakes (io s)))%nat ∧
    Forall (Z.lt 0) (wakes (io s')).
Proof using Hy.
  revert s c size. induction fuel as [|fuel IH]; intros s c size Hp Hc Hs Hcl Hwt Hpos Hf; [lia|].
  cbn [send_loop]. unfold send, on_chan, on_io, zoom, mbind at 1, M_bind at 1. rewrite Hc.
  set (b := drop (Z.to_nat size) buf).
  assert (zlen b = zlen buf - size) as Hb by (unfold b; apply zlen_drop; lia).
  destruct (txq c) as [|[n| |e] q] eqn:Hq.
  - set (s1 := St (self s) _). assert (evolve fd (set_tx [] (tx c ++ b) c) s s1) as He.
    { exists (wakes (io s)), (errno (io s)). by destruct s as [o []]. }
    assert (wakes (io s1) = wakes (io s)) as Hw by (by destruct (io s)).
    erewrite bind_val by reflexivity. clearbody s1. cbn [andb negb].
    destruct (Z.ltb_spec (zlen b) 0), (Z.leb_spec (zlen b) 0); try lia. cbn [andb negb].
    change (flag MSG_WAITALL MSG_WAITALL) with true. cbn [negb]. cbv iota zeta.
    destruct (Z.ltb_spec (size + zlen b) (zlen buf)); [lia|]. exists s1, [].
    split_and!; try done; [cbv [mret M_ret]; f_equal; lia|by rewrite Hw|by rewrite Hw].
  - set (d := take (S n) b). set (s1 := St (self s) _).
    set (c1 := set_tx q (tx c ++ d) c). assert (evolve fd c1 s s1) as He.
    { exists (wakes (io s)), (errno (io s)). by destruct s as [o []]. }
    assert (0 < zlen d <= zlen b) as Hd by (unfold d, zlen in *; rewrite length_take; lia).
    assert (wakes (io s1) = wakes (io s)) as Hw by (by destruct (io s)).
    assert (P (self s1)) as Hp1 by done. pose proof (evolve_chan _ _ _ _ He) as Hc1.
    erewrite bind_val by reflexivity. clearbody s1.
    destruct (Z.ltb_spec (zlen d) 0), (Z.leb_spec (zlen d) 0); try lia. cbn [andb negb].
    change (flag MSG_WAITALL MSG_WAITALL) with true. cbn [negb]. cbv iota zeta.
    apply Forall_cons in Hcl as [_ Hcl]. cbn [tx_waits] in *.
    destruct (Z.ltb_spec (size + zlen d) (zlen buf)) as [Hlt|Hge].
    + destruct (IH s1 c1 (size + zlen d)) as (s' & q' & Hr & He' & Hcl' & Hw' & Hpos'); try done.
      * lia.
      * by rewrite Hw.
      * by rewrite Hw.
      * rewrite Hw. cbn in *. lia.
      * exists s', q'. rewrite Hw in Hw'. split_and!; try done.
        eapply evolve_trans; [exact He|]. unfold c1 in He'. cbn [set_tx tx rxq rxd txd] in He'.
        replace (tx c ++ b) with ((tx c ++ d) ++ drop (Z.to_nat (size + zlen d)) buf); [done|].
        rewrite <- app_assoc. f_equal. rewrite <- (take_drop (length d) b). f_equal.
        -- unfold d. rewrite length_take.
           destruct (decide (S n <= length b)%nat); [f_equal; lia|by rewrite !take_ge by lia].
        -- unfold b. rewrite drop_drop. f_equal. unfold zlen. lia.
    + exists s1, q. assert (d = b) as Hdb by (unfold d, zlen in *; apply take_ge; rewrite length_take in *; lia).
      unfold c1 in He. rewrite Hdb in *. split_and!; try done; [|by rewrite Hw|by rewrite Hw].
      cbv [mret M_ret]. f_equal. lia.
  - cbn [tx_waits] in *. destruct (wakes (io s)) as [|w ws] eqn:Hws; [cbn in Hwt; lia|].
    apply Forall_cons in Hpos as [Hw0 Hpos].
    unfold fail. set (s1 := St (self s) _). set (c1 := set_tx q (tx c) c). assert (evolve fd c1 s s1) as He.
    { exists (wakes (io s)), EAGAIN. by destruct s as [o []]. }
    assert (wakes (io s1) = w :: ws) as Hw by (rewrite <- Hws; by destruct (io s)).
    assert (errno (io s1) = EAGAIN) as Her by (by destruct (io s)).
    assert (P (self s1)) as Hp1 by done. pose proof (evolve_chan _ _ _ _ He) as Hc1. clearbody s1.
    erewrite bind_val by reflexivity. rewrite Her. change ((-1 <? 0) && _ && _) with true. cbv iota.
    destruct (wait_io_wake _ _ _ _ Hp1 Hc1 Hw Hw0) as (s2 & H2 & He2 & Hw2).
    erewrite bind_val by exact H2. cbv iota.
    assert (evolve fd c1 s s2) as He02 by (by eapply evolve_trans).
    apply Forall_cons in Hcl as [_ Hcl].
    destruct (IH s2 c1 size) as (s' & q' & Hr & He' & Hcl' & Hw' & Hpos'); try done.
    + by rewrite (evolve_self _ _ _ _ He02).
    + by eapply evolve_chan.
    + rewrite Hw2. cbn in *. lia.
    + by rewrite Hw2.
    + rewrite Hw2. cbn in *. lia.
    + rewrite Hw2 in Hw'. exists s', q'. split_and!; try done.
      * eapply evolve_trans; [exact He02|exact He'].
      * cbn [length] in *. unfold c1 in Hw'. cbn [txq set_tx] in Hw'. lia.
  - apply Forall_cons in Hcl as [[] _].
Qed.
End Ready.

(** ** The calls *)

Lemma recv_closed fd len flags y s :
  chans (io s) !! fd = None →
  hev_task_io_socket_recv fd len flags y s = Val (-1, []) (St (self s) (set_errno EBADF (io s))).
Proof.
  intros Hc. unfold hev_task_io_socket_recv, io_fuel. erewrite bind_val by reflexivity. rewrite Hc. cbn [recv_loop].
  unfold recv, on_chan, on_io, zoom, mbind at 1, M_bind at 1. rewrite Hc. unfold fail.
  erewrite bind_val by reflexivity. cbn [io]. replace (errno _) with EBADF by (by destruct (io s)).
  change ((-1 <? 0) && (EBADF =? EAGAIN) && _) with false. cbv iota. by destruct (negb _).
Qed.

Lemma recv_any P B y fd len c s :
  polite P B y → P (self s) → chans (io s) !! fd = Some c → 0 <= len →
  wp (hev_task_io_socket_recv fd len MSG_WAITALL (Some y))
    (λ '(r, b) s', ∃ q, evolve fd (set_rxq q c) s s' ∧ stream (rxq c) = b ++ stream q ∧
       r <= len ∧ (r = len → zlen b = len)) B s.
Proof.
  intros Hy Hp Hc Hl. unfold hev_task_io_socket_recv, io_fuel. eapply wp_bind_val; [reflexivity|]. rewrite Hc.
  eapply wp_mono; [eapply recv_loop_any; try done; [lia|cbn; lia]|intros [r b] s'|done].
  intros (q & bs & He & -> & Hst & Hr & Hn). exists q. split_and!; done.
Qed.

Lemma send_any P B y fd buf c s :
  polite P B y → P (self s) → chans (io s) !! fd = Some c →
  wp (hev_task_io_socket_send fd buf MSG_WAITALL (Some y))
    (λ r s', ∃ q k, evolve fd (set_tx q (tx c ++ take k buf) c) s s' ∧ Z.of_nat k <= zlen buf ∧
       (r = Z.of_nat k ∨ r < 0 ∧ k = 0%nat)) B s.
Proof.
  intros Hy Hp Hc. unfold hev_task_io_socket_send, io_fuel. eapply wp_bind_val; [reflexivity|]. rewrite Hc.
  pose proof (zlen_nonneg buf).
  eapply wp_mono; [eapply send_loop_any; try done; [lia|cbn; lia]|intros r s'|done].
  intros (q & k & He & Hk & Hr). exists q, k. split_and!; [done|lia|]. lia.
Qed.

(** ** An environment that keeps delivering *)

(** Only data comes, nothing is refused, and there is a wake in time for every
    wait. *)
Record ready (fd : Z) (c : chan) (s : st O) : Prop := {
  rd_chan : chans (io s) !! fd = Some c;
  rd_rx : rx_clean (rxq c);
  rd_tx : tx_clean (txq c);
  rd_wakes : (rx_waits (rxq c) + tx_waits (txq c) <= length (wakes (io s)))%nat;
  rd_pos : Forall (Z.lt 0) (wakes (io s))
}.

Lemma recv_ready P y fd len c s :
  good_yielder P y → P (self s) → ready fd c s → 0 < len <= zlen (stream (rxq c)) →
  ∃ s' q, hev_task_io_socket_recv fd len MSG_WAITALL (Some y) s
      = Val (len, take (Z.to_nat len) (stream (rxq c))) s' ∧
    evolve fd (set_rxq q c) s s' ∧ stream q = drop (Z.to_nat len) (stream (rxq c)) ∧
    ready fd (set_rxq q c) s'.
Proof.
  intros Hy Hp [Hc Hrx Htx Hw Hpos] Hl. unfold hev_task_io_socket_recv, io_fuel.
  erewrite bind_val by reflexivity. rewrite Hc.
  destruct (recv_loop_ready P y Hy fd len (S (length (rxq c) + length (rxd c) + length (txq c) + length (wakes (io s))))
    s c 0 []) as (s' & q & Hr & He & Hst & Hcl & Hwt & Hpos'); try done; try lia.
  rewrite Z.sub_0_r in *. exists s', q. split_and!; [exact Hr|done|done|].
  split; try done; [by eapply evolve_chan|cbn; lia].
Qed.

Lemma send_ready P y fd buf c s :
  good_yielder P y → P (self s) → ready fd c s → 0 < zlen buf →
  ∃ s' q, hev_task_io_socket_send fd buf MSG_WAITALL (Some y) s = Val (zlen buf) s' ∧
    evolve fd (set_tx q (tx c ++ buf) c) s s' ∧ ready fd (set_tx q (tx c ++ buf) c) s'.
Proof.
  intros Hy Hp [Hc Hrx Htx Hw Hpos] Hl. unfold hev_task_io_socket_send, io_fuel.
  erewrite bind_val by reflexivity. rewrite Hc.
  destruct (send_loop_ready P y Hy fd buf (S (length (rxq c) + length (rxd c) + length (txq c) + length (wakes (io s))))
    s c 0) as (s' & q & Hr & He & Hcl & Hwt & Hpos'); try done; try lia.
  exists s', q. split_and!; [exact Hr|done|]. split; try done; [by eapply evolve_chan|cbn; lia].
Qed.

(** The other flags do not matter to the retry loop. *)
Lemma send_flags fd buf flags flags' y s :
  flag flags MSG_DONTWAIT = flag flags' MSG_DONTWAIT → flag flags MSG_WAITALL = flag flags' MSG_WAITALL →
  hev_task_io_socket_send fd buf flags y s = hev_task_io_socket_send fd buf flags' y s.
Proof.
  intros H1 H2. unfold hev_task_io_socket_send. unfold mbind, M_bind.
  destruct (io_fuel fd s) as [fuel s1|s1|]; [|done|done]. generalize 0 as size. revert s1.
  induction fuel as [|fuel IH]; intros s1 size; [done|]. cbn [send_loop]. rewrite H1, H2.
  unfold mbind, M_bind. destruct (send _ _ s1) as [r s2|s2|]; [|done|done].
  destruct (get_errno s2) as [e s3|s3|]; [|done|done]. destruct ((r <? 0) && _ && _).
  - destruct (wait_io y s3) as [[] s4|s4|]; done.
  - destruct (negb _); [done|]. destruct (r <=? 0); [done|]. destruct (size + r <? zlen buf); [apply IH|done].
Qed.

(** ** Vectors are written like one buffer *)

Lemma mjoin_advance (iov : list bytes) n : 0 <= n → mjoin (advance iov n) = drop (Z.to_nat n) (mjoin iov).
Proof.
  revert n. induction iov as [|v iov IH]; intros n Hn.
  { change ([] = drop (Z.to_nat n) (@nil Z)). by rewrite drop_nil. }
  cbn [advance].
  change (mjoin (v :: iov)) with (v ++ mjoin iov). destruct (Z.ltb_spec n (zlen v)).
  - change (mjoin (drop (Z.to_nat n) v :: iov)) with (drop (Z.to_nat n) v ++ mjoin iov).
    rewrite drop_app_le by (unfold zlen in *; lia). done.
  - rewrite IH by lia. rewrite drop_app_ge by (unfold zlen in *; lia). f_equal. unfold zlen. lia.
Qed.

Lemma sendmsg_loop_send fd fuel buf iov flags y size (s : st O) :
  0 <= size → mjoin iov = drop (Z.to_nat size) buf →
  sendmsg_loop fuel fd iov (zlen buf) flags y size s = send_loop fuel fd buf flags y size s.
Proof.
  revert iov size s. induction fuel as [|fuel IH]; intros iov size s Hs Hiov; [done|].
  cbn [sendmsg_loop send_loop]. unfold sendmsg. rewrite Hiov. unfold mbind, M_bind.
  destruct (send fd (drop (Z.to_nat size) buf) s) as [r s1|s1|]; [|done|done]. cbn [get_errno gets].
  unfold get_errno, gets. destruct ((r <? 0) && _ && _).
  - destruct (wait_io y s1) as [[] s2|s2|]; try done. by apply IH.
  - destruct (negb _); [done|]. destruct (Z.leb_spec r 0); [done|]. destruct (size + r <? zlen buf); [|done].
    apply IH; [lia|]. rewrite mjoin_advance, Hiov, drop_drop by lia. f_equal. lia.
Qed.

Lemma total_mjoin (iov : list bytes) : foldr (λ v n, zlen v + n) 0 iov = zlen (mjoin iov).
Proof.
  induction iov as [|v iov IH]; [done|]. change (mjoin (v :: iov)) with (v ++ mjoin iov).
  rewrite zlen_app, <- IH. done.
Qed.

Lemma sendmsg_send fd iov flags y (s : st O) :
  hev_task_io_socket_sendmsg fd iov flags y s = hev_task_io_socket_send fd (mjoin iov) flags y s.
Proof.
  unfold hev_task_io_socket_sendmsg, hev_task_io_socket_send. rewrite total_mjoin.
  unfold mbind, M_bind, io_fuel, gets. by apply sendmsg_loop_send.
Qed.
End Spec.
