(* ===== verification/Socks5.v ===== *)
(** * Socks5: addresses, timeouts and sockets of src/core/src/hev-socks5-misc.c,
    src/core/src/hev-socks5.c and src/core/src/hev-socks5-proto.h

    A [HevSocks5Addr] is the bytes of the packed C structure. A port of a
    [sockaddr6] is the 16-bit integer that the code holds, which is in network
    order; ports in memory are the two bytes of that integer in host order. *)
From S2P Require Import Prelude Bytes TaskIO.

(** ** The protocol's constants *)

Definition HEV_SOCKS5_VERSION_5 : Z := 5.
Definition HEV_SOCKS5_AUTH_METHOD_NONE : Z := 0.
Definition HEV_SOCKS5_AUTH_METHOD_USER : Z := 2.
Definition HEV_SOCKS5_AUTH_METHOD_DENY : Z := 255.
Definition HEV_SOCKS5_AUTH_VERSION_1 : Z := 1.
Definition HEV_SOCKS5_REQ_CMD_CONNECT : Z := 1.
Definition HEV_SOCKS5_REQ_CMD_UDP_ASC : Z := 3.
Definition HEV_SOCKS5_REQ_CMD_FWD_UDP : Z := 5.
Definition HEV_SOCKS5_RES_REP_SUCC : Z := 0.
Definition HEV_SOCKS5_RES_REP_FAIL : Z := 1.
Definition HEV_SOCKS5_RES_REP_HOST : Z := 4.
Definition HEV_SOCKS5_RES_REP_IMPL : Z := 7.
Definition HEV_SOCKS5_RES_REP_ADDR : Z := 8.
Definition HEV_SOCKS5_ADDR_TYPE_IPV4 : Z := 1.
Definition HEV_SOCKS5_ADDR_TYPE_IPV6 : Z := 4.
Definition HEV_SOCKS5_ADDR_TYPE_NAME : Z := 3.

Definition AF_UNSPEC : Z := 0.
Definition AF_INET : Z := 2.
Definition AF_INET6 : Z := 10.
Definition HEV_SOCKS5_ADDR_FAMILY_IPV4 : Z := AF_INET.
Definition HEV_SOCKS5_ADDR_FAMILY_IPV6 : Z := AF_INET6.
Definition HEV_SOCKS5_ADDR_FAMILY_UNSPEC : Z := AF_UNSPEC.

Inductive HevSocks5Type :=
| HEV_SOCKS5_TYPE_NONE | HEV_SOCKS5_TYPE_TCP | HEV_SOCKS5_TYPE_UDP_IN_TCP | HEV_SOCKS5_TYPE_UDP_IN_UDP.

#[export] Instance HevSocks5Type_eq_dec : EqDecision HevSocks5Type.
Proof. solve_decision. Defined.

(** ** Addresses *)

(** The two bytes of a 16-bit integer in memory, and back. *)
Definition le16 (v : Z) : bytes := [u8 v; u8 (Z.shiftr v 8)].
Definition get_le16 (p : bytes) : option Z :=
  match p with a :: b :: _ => Some (a + 256 * b) | _ => None end.

Definition sizeof_HevSocks5Addr : Z := 260.

(** A structure on the stack. What it held before does not matter: no function reads a
    byte of it that it did not write. *)
Definition addr_undef : bytes := replicate (Z.to_nat sizeof_HevSocks5Addr) 0.

Definition hev_socks5_addr_len (addr : bytes) : option Z :=
  match zget addr 0 with
  | None => None
  | Some atype =>
      if atype =? HEV_SOCKS5_ADDR_TYPE_IPV4 then Some 7
      else if atype =? HEV_SOCKS5_ADDR_TYPE_IPV6 then Some 19
      else if atype =? HEV_SOCKS5_ADDR_TYPE_NAME then (λ len, 4 + len) <$> zget addr 1
      else Some (-1)
  end.

(** [strncpy] of at most 256 bytes pads with zeros; the length is what [strlen] finds
    in the field, which reads beyond it when a name fills it. *)
Definition strncpy (name : bytes) (n : Z) : bytes :=
  let name := take (Z.to_nat n) name in name ++ replicate (Z.to_nat n - length name) 0.

Definition hev_socks5_addr_from_name (addr name : bytes) (_port : Z) : option (Z * bytes) :=
  let port := u16 _port in
  let addr := overwrite addr 0 [HEV_SOCKS5_ADDR_TYPE_NAME] in
  let addr := overwrite addr 2 (strncpy name 256) in
  match cstr (strncpy name 256) with
  | None => None
  | Some s =>
      let len := u8 (zlen s) in
      let addr := overwrite addr 1 [len] in
      Some (4 + len, overwrite addr (2 + len) (le16 port))
  end.

Definition hev_socks5_addr_from_ipv4 (addr ipv4 : bytes) (port : Z) : Z * bytes :=
  let addr := overwrite addr 0 [HEV_SOCKS5_ADDR_TYPE_IPV4] in
  let addr := overwrite addr 1 (take 4 ipv4) in
  (7, overwrite addr 5 (le16 (u16 port))).

Definition hev_socks5_addr_from_ipv6 (addr ipv6 : bytes) (port : Z) : Z * bytes :=
  let addr := overwrite addr 0 [HEV_SOCKS5_ADDR_TYPE_IPV6] in
  let addr := overwrite addr 1 (take 16 ipv6) in
  (19, overwrite addr 17 (le16 (u16 port))).

Definition v4mapped_prefix : bytes := [0; 0; 0; 0; 0; 0; 0; 0; 0; 0; 255; 255].
Definition IN6_IS_ADDR_V4MAPPED (a : bytes) : bool := bool_decide (take 12 a = v4mapped_prefix).

Definition hev_socks5_addr_from_sockaddr6 (addr : bytes) (saddr : sockaddr6) : Z * bytes :=
  if IN6_IS_ADDR_V4MAPPED (sin6_addr saddr) then
    let addr := overwrite addr 0 [HEV_SOCKS5_ADDR_TYPE_IPV4] in
    let addr := overwrite addr 5 (le16 (sin6_port saddr)) in
    (7, overwrite addr 1 (slice (sin6_addr saddr) 12 4))
  else
    let addr := overwrite addr 0 [HEV_SOCKS5_ADDR_TYPE_IPV6] in
    let addr := overwrite addr 17 (le16 (sin6_port saddr)) in
    (19, overwrite addr 1 (take 16 (sin6_addr saddr))).

Definition hev_socks5_ipv4_into_sockaddr6 (addr : bytes) (saddr : sockaddr6) : option sockaddr6 :=
  port ← get_le16 (slice addr 5 2);
  let a := overwrite (sin6_addr saddr) 0 (replicate 10 0) in
  let a := overwrite a 10 [255] in
  let a := overwrite a 11 [255] in
  Some (Sockaddr6 AF_INET6 port (overwrite a 12 (slice addr 1 4))).

Definition hev_socks5_ipv6_into_sockaddr6 (addr : bytes) (saddr : sockaddr6) : option sockaddr6 :=
  port ← get_le16 (slice addr 17 2);
  Some (Sockaddr6 AF_INET6 port (overwrite (sin6_addr saddr) 0 (slice addr 1 16))).

(** ** Names

    The C library's address parser and the resolver are parameters: [inet_pton]
    for a family, and the first result of [getaddrinfo] for a name and the family
    asked for, with the family and the bytes of the address. *)
Class Resolver := {
  inet_pton : Z → bytes → option bytes;
  getaddrinfo : bytes → Z → option (Z * bytes)
}.

Section Names.
Context `{Resolver}.

Definition hev_socks5_name_resolve_ipv4 (name : bytes) (saddr : sockaddr6) : Z * sockaddr6 :=
  let a := overwrite (sin6_addr saddr) 0 (replicate 10 0) in
  match inet_pton AF_INET name with
  | None => (-1, Sockaddr6 (sin6_family saddr) (sin6_port saddr) a)
  | Some ip =>
      let a := overwrite a 12 ip in
      let a := overwrite a 10 [255] in
      let a := overwrite a 11 [255] in
      (0, Sockaddr6 (sin6_family saddr) (sin6_port saddr) a)
  end.

Definition hev_socks5_name_resolve_ipv6 (name : bytes) (saddr : sockaddr6) : Z * sockaddr6 :=
  match inet_pton AF_INET6 name with
  | None => (-1, saddr)
  | Some ip => (0, Sockaddr6 (sin6_family saddr) (sin6_port saddr) (overwrite (sin6_addr saddr) 0 ip))
  end.

Definition hev_socks5_name_resolve_name (name : bytes) (saddr : sockaddr6) (family : Z) :
    Z * sockaddr6 * Z :=
  match getaddrinfo name family with
  | None => (-1, saddr, family)
  | Some (fam, ip) =>
      if fam =? AF_INET then
        let a := overwrite (sin6_addr saddr) 0 (replicate 10 0) in
        let a := overwrite a 10 [255] in
        let a := overwrite a 11 [255] in
        (0, Sockaddr6 (sin6_family saddr) (sin6_port saddr) (overwrite a 12 (take 4 ip)),
         HEV_SOCKS5_ADDR_FAMILY_IPV4)
      else if fam =? AF_INET6 then
        (0, Sockaddr6 (sin6_family saddr) (sin6_port saddr) (overwrite (sin6_addr saddr) 0 (take 16 ip)),
         HEV_SOCKS5_ADDR_FAMILY_IPV6)
      else (-1, saddr, family)
  end.

Definition hev_socks5_name_into_sockaddr6 (name : bytes) (port : Z) (saddr : sockaddr6) (family : Z) :
    Z * sockaddr6 * Z :=
  let saddr := Sockaddr6 AF_INET6 (htons port) (sin6_addr saddr) in
  let '(res, saddr) := hev_socks5_name_resolve_ipv4 name saddr in
  if res =? 0 then (0, saddr, HEV_SOCKS5_ADDR_FAMILY_IPV4) else
  let '(res, saddr) := hev_socks5_name_resolve_ipv6 name saddr in
  if res =? 0 then (0, saddr, HEV_SOCKS5_ADDR_FAMILY_IPV6) else
  hev_socks5_name_resolve_name name saddr family.

(** A read outside of the structure has no result. *)
Definition hev_socks5_addr_into_sockaddr6 (addr : bytes) (saddr : sockaddr6) (family : Z) :
    option (Z * sockaddr6 * Z) :=
  atype ← zget addr 0;
  if atype =? HEV_SOCKS5_ADDR_TYPE_IPV4 then
    saddr ← hev_socks5_ipv4_into_sockaddr6 addr saddr;
    Some (0, saddr, HEV_SOCKS5_ADDR_FAMILY_IPV4)
  else if atype =? HEV_SOCKS5_ADDR_TYPE_IPV6 then
    saddr ← hev_socks5_ipv6_into_sockaddr6 addr saddr;
    Some (0, saddr, HEV_SOCKS5_ADDR_FAMILY_IPV6)
  else if atype =? HEV_SOCKS5_ADDR_TYPE_NAME then
    len ← zget addr 1;
    name ← cstr (slice addr 2 len ++ [0]);
    port ← get_le16 (slice addr (2 + len) 2);
    Some (hev_socks5_name_into_sockaddr6 name (ntohs port) saddr family)
  else Some (-1, saddr, family).
End Names.

(** ** The base object *)

Record HevSocks5 := Socks5 {
  fd : Z; timeout : Z; type : HevSocks5Type; udp_associated : bool; addr_family : Z
}.

(** An object that starts with a [HevSocks5]. *)
Class IsSocks5 (O : Type) := {
  base : O → HevSocks5;
  set_base : HevSocks5 → O → O;
  base_set : ∀ b o, base (set_base b o) = b;
  set_set : ∀ b b' o, set_base b (set_base b' o) = set_base b o;
  set_get : ∀ o, set_base (base o) o = o
}.

#[export] Program Instance HevSocks5_IsSocks5 : IsSocks5 HevSocks5 :=
  {| base o := o; set_base b _ := b |}.
Solve All Obligations with done.

Definition set_fd v b := Socks5 v (timeout b) (type b) (udp_associated b) (addr_family b).
Definition set_tmo v b := Socks5 (fd b) v (type b) (udp_associated b) (addr_family b).
Definition set_type v b := Socks5 (fd b) (timeout b) v (udp_associated b) (addr_family b).
Definition set_associated v b := Socks5 (fd b) (timeout b) (type b) v (addr_family b).
Definition set_family v b := Socks5 (fd b) (timeout b) (type b) (udp_associated b) v.

(** The construction of the base object leaves [udp_associated] as the zeroed
    memory has it. *)
Definition hev_socks5_construct (self : HevSocks5) (type : HevSocks5Type) : HevSocks5 :=
  Socks5 (-1) (-1) type (udp_associated self) HEV_SOCKS5_ADDR_FAMILY_UNSPEC.

Definition socks5_zero : HevSocks5 := Socks5 0 0 HEV_SOCKS5_TYPE_NONE false 0.

Section Socks5.
Context {O : Type} `{IsSocks5 O}.

Definition get_base : M (st O) HevSocks5 := gets (λ s, base (self s)).
Definition upd_base (f : HevSocks5 → HevSocks5) : M (st O) unit :=
  modify (λ s, St (set_base (f (base (self s))) (self s)) (io s)).

Definition hev_socks5_get_timeout : M (st O) Z := b ← get_base; mret (timeout b).

(** A timeout of 0 stays. *)
Definition hev_socks5_set_timeout (v : Z) : M (st O) unit :=
  b ← get_base; when (truthy (timeout b)) (upd_base (set_tmo v)).

Definition hev_socks5_get_addr_family : M (st O) Z := b ← get_base; mret (addr_family b).
Definition hev_socks5_set_addr_family (v : Z) : M (st O) unit := upd_base (set_family v).

Definition hev_socks5_bind (sock : Z) (dest : sockaddr6) : M (st O) Z := mret 0.

Definition hev_socks5_task_io_yielder (type : HevTaskYieldType) : M (st O) Z :=
  match type with
  | HEV_TASK_YIELD => hev_task_yield HEV_TASK_YIELD;; mret 0
  | HEV_TASK_WAITIO =>
      b ← get_base;
      if timeout b <? 0 then hev_task_yield HEV_TASK_WAITIO;; mret 0
      else
        t ← hev_task_sleep (timeout b);
        if t <=? 0 then mret (-1) else mret 0
  end.

Definition get_config : M (st O) globals := gets (λ s, config (io s)).

Definition hev_socks5_get_connect_timeout : M (st O) Z := c ← get_config; mret (connect_timeout c).
Definition hev_socks5_get_tcp_timeout : M (st O) Z := c ← get_config; mret (tcp_timeout c).
Definition hev_socks5_get_udp_timeout : M (st O) Z := c ← get_config; mret (udp_timeout c).
Definition hev_socks5_get_udp_copy_buffer_nums : M (st O) Z := c ← get_config; mret (udp_copy_buffer_nums c).

Inductive sock_type := SOCK_STREAM | SOCK_DGRAM.

Definition hev_socks5_socket (type : sock_type) : M (st O) Z :=
  fd ← socket;
  if fd <? 0 then mret (-1) else
  res ← setsockopt fd;
  if res <? 0 then close fd;; mret (-1) else
  res ← hev_task_add_fd fd;
  (if res <? 0 then hev_task_mod_fd fd;; mret tt else mret tt);;
  match type with
  | SOCK_DGRAM => setsockopt fd;; mret fd
  | SOCK_STREAM => mret fd
  end.

(** What every failure after [hev_socks5_socket] does with the new descriptor,
    and the destructors with theirs. *)
Definition drop_fd (fd : Z) : M (st O) unit := hev_task_del_fd fd;; close fd.

Definition hev_socks5_destruct : M (st O) unit :=
  b ← get_base;
  if 0 <=? fd b then drop_fd (fd b) else mret tt.
End Socks5.
