(* ===== verification/Socks5Spec.v ===== *)
(** * Socks5Spec: addresses survive their conversions; timeouts and waiting *)
From S2P Require Import Prelude Bytes TaskIO TaskIOSpec Socks5.

(** ** Addresses *)

Lemma le16_get v : 0 <= v < 65536 → get_le16 (le16 v) = Some v.
Proof.
  intros Hv. unfold get_le16, le16, u8. f_equal. rewrite Z.shiftr_div_pow2 by lia. change (2 ^ 8) with 256.
  rewrite (Z.mod_small (v / 256)) by (split; [apply Z.div_pos; lia|apply Z.div_lt_upper_bound; lia]).
  pose proof (Z.div_mod v 256). lia.
Qed.

Lemma get_le16_le a b : is_byte a → is_byte b → le16 (a + 256 * b) = [a; b].
Proof.
  unfold is_byte, le16, u8. intros Ha Hb. rewrite Z.shiftr_div_pow2 by lia. change (2 ^ 8) with 256.
  rewrite (Z.mul_comm 256), Z.mod_add, Z.div_add, (Z.mod_small a), (Z.div_small a) by lia.
  by rewrite Z.mod_small by lia.
Qed.

(** Reading off the first cells of an array that is long enough. *)
Ltac cells l H n :=
  match n with
  | O => idtac
  | S ?n =>
      let x := fresh "x" in destruct l as [|x l];
      [exfalso; revert H; unfold zlen; cbn [length]; lia|cells l H n]
  end.

(** The bytes of an address on the wire. *)
Definition wire_ipv4 (ip : bytes) (port : Z) : bytes := HEV_SOCKS5_ADDR_TYPE_IPV4 :: ip ++ le16 port.
Definition wire_ipv6 (ip : bytes) (port : Z) : bytes := HEV_SOCKS5_ADDR_TYPE_IPV6 :: ip ++ le16 port.
Definition wire_name (name : bytes) (port : Z) : bytes :=
  HEV_SOCKS5_ADDR_TYPE_NAME :: zlen name :: name ++ le16 port.

Definition ipv4_sockaddr (ip : bytes) (port : Z) : sockaddr6 := Sockaddr6 AF_INET6 port (v4mapped_prefix ++ ip).
Definition ipv6_sockaddr (ip : bytes) (port : Z) : sockaddr6 := Sockaddr6 AF_INET6 port ip.

Lemma from_ipv4_wire addr ip port :
  7 <= zlen addr → zlen ip = 4 → 0 <= port < 65536 →
  (hev_socks5_addr_from_ipv4 addr ip port).1 = 7 ∧
  take 7 (hev_socks5_addr_from_ipv4 addr ip port).2 = wire_ipv4 ip port.
Proof.
  intros Ha Hi Hp. cells addr Ha 7%nat. cells ip Hi 4%nat. destruct ip; [|unfold zlen in Hi; cbn in Hi; lia].
  split; [done|]. unfold hev_socks5_addr_from_ipv4, wire_ipv4, le16, u16. rewrite Z.mod_small by lia. done.
Qed.

Lemma from_ipv6_wire addr ip port :
  19 <= zlen addr → zlen ip = 16 → 0 <= port < 65536 →
  (hev_socks5_addr_from_ipv6 addr ip port).1 = 19 ∧
  take 19 (hev_socks5_addr_from_ipv6 addr ip port).2 = wire_ipv6 ip port.
Proof.
  intros Ha Hi Hp. cells addr Ha 19%nat. cells ip Hi 16%nat. destruct ip; [|unfold zlen in Hi; cbn in Hi; lia].
  split; [done|]. unfold hev_socks5_addr_from_ipv6, wire_ipv6, le16, u16. rewrite Z.mod_small by lia. done.
Qed.

(** An IPv4 address in IPv6 form and any other IPv6 address. *)
Lemma from_sockaddr6_wire addr saddr :
  19 <= zlen addr → zlen (sin6_addr saddr) = 16 →
  take (Z.to_nat (hev_socks5_addr_from_sockaddr6 addr saddr).1) (hev_socks5_addr_from_sockaddr6 addr saddr).2 =
    if IN6_IS_ADDR_V4MAPPED (sin6_addr saddr)
    then wire_ipv4 (drop 12 (sin6_addr saddr)) (sin6_port saddr)
    else wire_ipv6 (sin6_addr saddr) (sin6_port saddr).
Proof.
  destruct saddr as [fam port ip]. cbn [sin6_addr sin6_port]. intros Ha Hi.
  cells addr Ha 19%nat. cells ip Hi 16%nat. destruct ip; [|unfold zlen in Hi; cbn in Hi; lia].
  unfold hev_socks5_addr_from_sockaddr6. cbn [sin6_addr sin6_port]. by destruct (IN6_IS_ADDR_V4MAPPED _).
Qed.

Section Wire.
Context `{Resolver}.

Lemma into_sockaddr6_ipv4 ip port saddr fam rest :
  zlen ip = 4 → 0 <= port < 65536 → zlen (sin6_addr saddr) = 16 →
  hev_socks5_addr_into_sockaddr6 (wire_ipv4 ip port ++ rest) saddr fam =
    Some (0, ipv4_sockaddr ip port, HEV_SOCKS5_ADDR_FAMILY_IPV4).
Proof.
  destruct saddr as [f p sa]. cbn [sin6_addr]. intros Hi Hp Hs.
  cells ip Hi 4%nat. destruct ip; [|unfold zlen in Hi; cbn in Hi; lia].
  cells sa Hs 16%nat. destruct sa; [|unfold zlen in Hs; cbn in Hs; lia].
  unfold hev_socks5_addr_into_sockaddr6, hev_socks5_ipv4_into_sockaddr6.
  change (slice (wire_ipv4 _ port ++ rest) 5 2) with (le16 port). by rewrite le16_get.
Qed.

Lemma into_sockaddr6_ipv6 ip port saddr fam rest :
  zlen ip = 16 → 0 <= port < 65536 → zlen (sin6_addr saddr) = 16 →
  hev_socks5_addr_into_sockaddr6 (wire_ipv6 ip port ++ rest) saddr fam =
    Some (0, ipv6_sockaddr ip port, HEV_SOCKS5_ADDR_FAMILY_IPV6).
Proof.
  destruct saddr as [f p sa]. cbn [sin6_addr]. intros Hi Hp Hs.
  cells ip Hi 16%nat. destruct ip; [|unfold zlen in Hi; cbn in Hi; lia].
  cells sa Hs 16%nat. destruct sa; [|unfold zlen in Hs; cbn in Hs; lia].
  unfold hev_socks5_addr_into_sockaddr6, hev_socks5_ipv6_into_sockaddr6.
  change (slice (wire_ipv6 _ port ++ rest) 17 2) with (le16 port). by rewrite le16_get.
Qed.

Lemma slice_app_exact {A} (l k m : list A) : slice (l ++ k ++ m) (zlen l) (zlen k) = k.
Proof. unfold slice, zlen. rewrite !Nat2Z.id, drop_app_length, take_app_length. done. Qed.

Lemma into_sockaddr6_name name port saddr fam rest :
  is_str name → 0 <= port < 65536 →
  hev_socks5_addr_into_sockaddr6 (wire_name name port ++ rest) saddr fam =
    Some (hev_socks5_name_into_sockaddr6 name (ntohs port) saddr fam).
Proof.
  intros Hn Hp. unfold hev_socks5_addr_into_sockaddr6, wire_name.
  change (zget ((HEV_SOCKS5_ADDR_TYPE_NAME :: zlen name :: name ++ le16 port) ++ rest) 0) with (Some HEV_SOCKS5_ADDR_TYPE_NAME).
  change (zget ((HEV_SOCKS5_ADDR_TYPE_NAME :: zlen name :: name ++ le16 port) ++ rest) 1) with (Some (zlen name)).
  cbn [mbind option_bind]. change (HEV_SOCKS5_ADDR_TYPE_NAME =? HEV_SOCKS5_ADDR_TYPE_IPV4) with false.
  change (HEV_SOCKS5_ADDR_TYPE_NAME =? HEV_SOCKS5_ADDR_TYPE_IPV6) with false.
  change (HEV_SOCKS5_ADDR_TYPE_NAME =? HEV_SOCKS5_ADDR_TYPE_NAME) with true. cbv iota.
  pose proof (slice_app_exact [HEV_SOCKS5_ADDR_TYPE_NAME; zlen name] name (le16 port ++ rest)) as H1.
  pose proof (slice_app_exact ([HEV_SOCKS5_ADDR_TYPE_NAME; zlen name] ++ name) (le16 port) rest) as H2.
  rewrite zlen_app in H2. change (zlen [_; _]) with 2 in *. change (zlen (le16 port)) with 2 in H2.
  rewrite <- !app_assoc in *. cbn [app] in *. unfold mbind, option_bind. rewrite <- app_assoc, H1, H2.
  by rewrite cstr_app, le16_get.
Qed.
End Wire.

(** [strncpy] and [strlen] on a name that fits with its NUL byte. *)
Lemma strncpy_fits name :
  is_str name → zlen name < 256 → cstr (strncpy name 256) = Some name.
Proof.
  intros Hn Hl. unfold strncpy. rewrite take_ge by (unfold zlen in *; lia).
  replace (Z.to_nat 256 - length name)%nat with (S (255 - length name)) by (unfold zlen in *; lia).
  by apply cstr_app.
Qed.

Lemma overwrite_prefix {A} (l k m : list A) : length k = length m → overwrite (l ++ k) (zlen l) m = l ++ m.
Proof.
  intros Hl. unfold overwrite, zlen. rewrite Nat2Z.id, take_app_length, drop_ge, app_nil_r; [done|].
  rewrite length_app. lia.
Qed.

Lemma from_name_wire addr name port :
  zlen addr = sizeof_HevSocks5Addr → is_str name → zlen name < 256 → 0 <= port < 65536 →
  ∃ rest, hev_socks5_addr_from_name addr name port = Some (4 + zlen name, wire_name name port ++ rest).
Proof.
  intros Ha Hn Hl Hp. unfold sizeof_HevSocks5Addr in Ha. cells addr Ha 2%nat. rename addr into rest.
  assert (zlen rest = 258) as Hr by (rewrite !zlen_cons in Ha; lia).
  unfold hev_socks5_addr_from_name. set (field := strncpy name 256).
  change (overwrite (x :: x0 :: rest) 0 [HEV_SOCKS5_ADDR_TYPE_NAME]) with (HEV_SOCKS5_ADDR_TYPE_NAME :: x0 :: rest).
  change (overwrite (HEV_SOCKS5_ADDR_TYPE_NAME :: x0 :: rest) 2 field)
    with (HEV_SOCKS5_ADDR_TYPE_NAME :: x0 :: overwrite rest 0 field).
  unfold field. rewrite strncpy_fits by done. cbv zeta. pose proof (zlen_nonneg name).
  unfold u8, u16. rewrite (Z.mod_small (zlen name)), (Z.mod_small port) by lia.
  change (overwrite (HEV_SOCKS5_ADDR_TYPE_NAME :: x0 :: overwrite rest 0 (strncpy name 256)) 1 [zlen name])
    with (HEV_SOCKS5_ADDR_TYPE_NAME :: zlen name :: overwrite rest 0 (strncpy name 256)).
  assert (∃ t, overwrite rest 0 (strncpy name 256) = name ++ t ∧ (2 <= length t)%nat) as (t & -> & Ht).
  { unfold overwrite, strncpy. change (take (Z.to_nat 0) rest) with (@nil Z). cbn [app].
    rewrite take_ge by (unfold zlen in *; lia). rewrite <- app_assoc. eexists. split; [reflexivity|].
    repeat rewrite ?length_app, ?length_replicate, ?length_drop.
    unfold zlen in *. lia. }
  destruct t as [|t0 [|t1 t]]; [exfalso; clear -Ht; cbn in Ht; lia|exfalso; clear -Ht; cbn in Ht; lia|]. exists t. f_equal. f_equal.
  unfold wire_name, overwrite, zlen. rewrite !app_comm_cons.
  replace (Z.to_nat (2 + Z.of_nat (length name))) with (length (HEV_SOCKS5_ADDR_TYPE_NAME :: Z.of_nat (length name) :: name))
    by (cbn [length]; lia).
  rewrite take_app_length, drop_app_ge by lia. cbn [app]. rewrite <- app_assoc.
  replace (length _ + length (le16 port) - _)%nat with 2%nat by (cbn [length le16]; lia). done.
Qed.

(** the address of a peer survives its trip over the wire: the bytes that
    [hev_socks5_addr_from_sockaddr6] makes of a socket address, whatever the
    buffer held before and whatever follows them, are read back by
    [hev_socks5_addr_into_sockaddr6] as the same address and port, IPv4 addresses
    (which are carried in their 4-byte form) and IPv6 addresses alike. *)
Theorem sockaddr6_roundtrip `{Resolver} addr saddr old fam rest :
  19 <= zlen addr → zlen (sin6_addr old) = 16 →
  sin6_family saddr = AF_INET6 → 0 <= sin6_port saddr < 65536 → zlen (sin6_addr saddr) = 16 →
  let '(len, a) := hev_socks5_addr_from_sockaddr6 addr saddr in
  hev_socks5_addr_len a = Some len ∧
  ∃ fam', hev_socks5_addr_into_sockaddr6 (take (Z.to_nat len) a ++ rest) old fam = Some (0, saddr, fam').
Proof.
  intros Ha Ho Hf Hp Hs. pose proof (from_sockaddr6_wire addr saddr Ha Hs) as Hw.
  destruct (hev_socks5_addr_from_sockaddr6 addr saddr) as [len a] eqn:He. cbn [fst snd] in Hw.
  destruct saddr as [fm port ip]. cbn [sin6_family sin6_port sin6_addr] in *. subst fm.
  split.
  { cells addr Ha 19%nat. unfold hev_socks5_addr_from_sockaddr6 in He. cbn [sin6_addr sin6_port] in He.
    cells ip Hs 16%nat. by destruct (IN6_IS_ADDR_V4MAPPED _); injection He as <- <-. }
  rewrite Hw. unfold IN6_IS_ADDR_V4MAPPED. case_bool_decide as Hm.
  - eexists. rewrite into_sockaddr6_ipv4; [|unfold zlen in *; rewrite length_drop; lia|done|done].
    unfold ipv4_sockaddr. by rewrite <- Hm, take_drop.
  - eexists. by rewrite into_sockaddr6_ipv6.
Qed.

#[local] Instance no_resolver : Resolver := {| inet_pton _ _ := None; getaddrinfo _ _ := None |}.

Lemma sockaddr6_roundtrip_witness :
  (19 <= zlen addr_undef ∧ zlen (sin6_addr (ipv4_sockaddr [1; 2; 3; 4] 80)) = 16) ∧
  ∃ fam', hev_socks5_addr_into_sockaddr6 (wire_ipv4 [1; 2; 3; 4] 80 ++ [9]) (ipv6_sockaddr (replicate 16 0) 0) 0
    = Some (0, ipv4_sockaddr [1; 2; 3; 4] 80, fam').
Proof.
  split; [vm_compute; split; [done|reflexivity]|].
  pose proof (sockaddr6_roundtrip addr_undef (ipv4_sockaddr [1; 2; 3; 4] 80) (ipv6_sockaddr (replicate 16 0) 0) 0 [9]
    ltac:(vm_compute; done) ltac:(reflexivity) ltac:(reflexivity) ltac:(cbn; lia) ltac:(reflexivity)) as H.
  exact (proj2 H).
Defined.

(** A name of up to 255 bytes is carried whole: the structure that
    [hev_socks5_addr_from_name] fills in begins with the type, the length, the name
    and the port, its length is what [hev_socks5_addr_len] computes, and
    [hev_socks5_addr_into_sockaddr6] resolves exactly this name and port. *)
Theorem name_roundtrip `{Resolver} addr name port old fam :
  zlen addr = sizeof_HevSocks5Addr → is_str name → zlen name < 256 → 0 <= port < 65536 →
  ∃ a, hev_socks5_addr_from_name addr name port = Some (4 + zlen name, a) ∧
    take (Z.to_nat (4 + zlen name)) a = wire_name name port ∧
    hev_socks5_addr_len a = Some (4 + zlen name) ∧
    hev_socks5_addr_into_sockaddr6 a old fam = Some (hev_socks5_name_into_sockaddr6 name (ntohs port) old fam).
Proof.
  intros Ha Hn Hl Hp. destruct (from_name_wire _ _ _ Ha Hn Hl Hp) as [rest He].
  eexists. split_and!; [exact He| |done|by apply into_sockaddr6_name].
  pose proof (zlen_nonneg name). rewrite take_app_le by (cbn; rewrite length_app; unfold zlen in *; cbn; lia).
  apply take_ge. cbn. rewrite length_app. unfold zlen in *. cbn. lia.
Qed.

Lemma name_roundtrip_witness :
  (zlen addr_undef = sizeof_HevSocks5Addr ∧ is_str [97; 46; 98]) ∧
  ∃ a, hev_socks5_addr_from_name addr_undef [97; 46; 98] 80 = Some (7, a) ∧ take 7 a = wire_name [97; 46; 98] 80.
Proof.
  assert (is_str [97; 46; 98]) as Hs by (repeat constructor; lia).
  split; [split; [reflexivity|exact Hs]|].
  destruct (name_roundtrip addr_undef [97; 46; 98] 80 (ipv6_sockaddr (replicate 16 0) 0) 0
    ltac:(reflexivity) Hs ltac:(vm_compute; done) ltac:(lia)) as (a & Ha & Ht & _).
  exists a. split; [exact Ha|exact Ht].
Defined.

(** ** Waiting *)

Section Yielder.
Context {O : Type} `{IsSocks5 O}.
Implicit Types s : st O.

Lemma yielder_polite : polite (λ _, True) (λ _, True) (hev_socks5_task_io_yielder (O := O)).
Proof.
  intros s _. unfold hev_socks5_task_io_yielder, get_base. eapply wp_bind_val; [reflexivity|].
  destruct s as [o i]. cbn [self]. destruct (timeout (base o) <? 0).
  - unfold hev_task_yield, on_io, zoom, wp, mbind, M_bind. cbn [io self].
    destruct (wakes i) as [|w ws]; cbn; [done|]. exists ws. split_and!; [done|lia|lia].
  - unfold hev_task_sleep, on_io, zoom, wp, mbind, M_bind. cbn [io self].
    destruct (timeout (base o) =? 0); [|destruct (wakes i) as [|w ws] eqn:Hw]; cbn.
    + exists (wakes i). split_and!; [by destruct i|lia|lia].
    + exists []. split_and!; [|cbn; lia|lia]. rewrite <- Hw. by destruct i.
    + destruct (w <=? 0); cbn; exists ws; (split_and!; [done|lia|lia]).
Qed.

Lemma yielder_good :
  good_yielder (λ o, timeout (base o) ≠ 0) hev_socks5_task_io_yielder.
Proof.
  split; [intros s _; by apply yielder_polite|].
  intros s w ws Hp Hw Hpos. unfold hev_socks5_task_io_yielder, get_base. erewrite bind_val by reflexivity.
  destruct (timeout (base (self s)) <? 0).
  - unfold hev_task_yield, on_io, zoom, mbind, M_bind. by rewrite Hw.
  - unfold hev_task_sleep, on_io, zoom, mbind, M_bind.
    destruct (Z.eqb_spec (timeout (base (self s))) 0); [done|]. rewrite Hw.
    destruct (Z.leb_spec w 0); [lia|done].
Qed.

(** With the timeout at 0 a wait gives up at once. *)
Lemma yielder_zero s : timeout (base (self s)) = 0 → hev_socks5_task_io_yielder HEV_TASK_WAITIO s = Val (-1) s.
Proof.
  intros Ht. unfold hev_socks5_task_io_yielder, get_base. erewrite bind_val by reflexivity. rewrite Ht.
  by destruct s as [o []].
Qed.

Lemma set_timeout_val v s :
  hev_socks5_set_timeout v s = Val tt (if truthy (timeout (base (self s)))
    then St (set_base (set_tmo v (base (self s))) (self s)) (io s) else s).
Proof.
  unfold hev_socks5_set_timeout, get_base. erewrite bind_val by reflexivity.
  unfold when. by destruct (truthy _).
Qed.
End Yielder.

(** What may still happen to an object whose timeout is 0: new timeouts, new
    families, waits and retried reads. *)
Inductive late_op := SetTimeout (v : Z) | SetFamily (v : Z) | Wait | Read (d : Z) (n : nat).

Definition run_late {O} `{IsSocks5 O} (o : late_op) : M (st O) Z :=
  match o with
  | SetTimeout v => hev_socks5_set_timeout v;; mret 0
  | SetFamily v => hev_socks5_set_addr_family v;; mret 0
  | Wait => hev_socks5_task_io_yielder HEV_TASK_WAITIO
  | Read d n =>
      '(r, _) ← hev_task_io_socket_recv d (Z.of_nat n) MSG_WAITALL (Some hev_socks5_task_io_yielder); mret r
  end.

Fixpoint run_lates {O} `{IsSocks5 O} (l : list late_op) : M (st O) (list Z) :=
  match l with
  | [] => mret []
  | o :: l => r ← run_late o; rs ← run_lates l; mret (r :: rs)
  end.

Section Terminated.
Context {O : Type} `{IsSocks5 O}.
Implicit Types s : st O.

Lemma yielder_zero_polite :
  polite (λ o, timeout (base o) = 0) never (hev_socks5_task_io_yielder (O := O)).
Proof.
  intros s Ht. unfold wp. rewrite (yielder_zero _ Ht). exists (wakes (io s)). split_and!; [|done|done].
  by destruct s as [o []].
Qed.

Lemma late_step o s :
  timeout (base (self s)) = 0 →
  ∃ r s', run_late o s = Val r s' ∧ timeout (base (self s')) = 0 ∧ (o = Wait → r = -1).
Proof.
  intros Ht. destruct o as [v|v| |d n]; cbn [run_late].
  - erewrite bind_val by apply set_timeout_val. rewrite Ht. by exists 0, s.
  - eexists 0, _. split_and!; [reflexivity| |done]. cbn. by rewrite base_set.
  - rewrite yielder_zero by done. by exists (-1), s.
  - destruct (chans (io s) !! d) as [c|] eqn:Hc.
    + destruct (wp_never_val _ _ _ (recv_any _ never _ d (Z.of_nat n) c s yielder_zero_polite Ht Hc ltac:(lia)))
        as ([r b] & s' & Hr & q & He & _).
      exists r, s'. erewrite bind_val by exact Hr. split_and!; [done| |done].
      by rewrite (evolve_self _ _ _ _ He).
    + eexists (-1), _. erewrite bind_val by (by apply recv_closed). by split_and!.
Qed.

(** a session that was terminated (its timeout is 0) stays terminated and
    comes to an end: whatever later code does, new timeouts do not take effect, a
    wait for I/O gives up at once, and a read that insists on all its bytes returns
    instead of waiting, on every descriptor and in every environment. *)
Theorem terminated_never_waits (l : list late_op) s :
  timeout (base (self s)) = 0 →
  ∃ rs s', run_lates l s = Val rs s' ∧ timeout (base (self s')) = 0 ∧ Forall2 (λ o r, o = Wait → r = -1) l rs.
Proof.
  revert s. induction l as [|o l IH]; intros s Ht; cbn [run_lates].
  { by exists [], s. }
  destruct (late_step o s Ht) as (r & s1 & Hr & Ht1 & Hw). destruct (IH s1 Ht1) as (rs & s2 & Hrs & Ht2 & Hf).
  exists (r :: rs), s2. erewrite bind_val by exact Hr. erewrite bind_val by exact Hrs.
  split_and!; [done|done|by constructor].
Qed.
End Terminated.

Definition idle_world : world :=
  World 0 [] {[3 := Chan [RxData 1 []; RxAgain] [] [] [] [] false]} [] [] [] [] ∅ ∅ (Globals 10000 300000 60000 8192 524288 10).

Lemma terminated_never_waits_witness :
  let s := St (set_tmo 0 socks5_zero) idle_world in
  timeout (base (self s)) = 0 ∧
  ∃ rs s', run_lates [SetTimeout 5; Read 3 2; Wait] s = Val rs s' ∧ timeout (base (self s')) = 0 ∧
    Forall2 (λ o r, o = Wait → r = -1) [SetTimeout 5; Read 3 2; Wait] rs.
Proof.
  split; [reflexivity|].
  apply (terminated_never_waits [SetTimeout 5; Read 3 2; Wait] (St (set_tmo 0 socks5_zero) idle_world)). reflexivity.
Defined.

(** A read that insists on all its bytes depends on the stream alone: if at
    least [len] bytes come, in segments of any sizes with pauses anywhere between
    them, and every pause ends before the object's timeout, it returns [len] and
    exactly the first [len] bytes, and leaves the rest of the stream for the next
    read. *)
Theorem recv_waitall_exact {O} `{IsSocks5 O} (s : st O) d len c :
  timeout (base (self s)) ≠ 0 → ready d c s → 0 < len <= zlen (stream (rxq c)) →
  ∃ s' q, hev_task_io_socket_recv d len MSG_WAITALL (Some hev_socks5_task_io_yielder) s
      = Val (len, take (Z.to_nat len) (stream (rxq c))) s' ∧
    chans (io s') !! d = Some (set_rxq q c) ∧ stream q = drop (Z.to_nat len) (stream (rxq c)).
Proof.
  intros Ht Hr Hl. destruct (recv_ready _ _ d len c s yielder_good Ht Hr Hl) as (s' & q & Hv & He & Hst & _).
  exists s', q. split_and!; [done|by eapply evolve_chan|done].
Qed.

Definition paused_chan : chan := Chan [RxData 1 [2]; RxAgain; RxData 3 [4; 5]] [] [] [] [] false.

Lemma recv_waitall_exact_witness :
  let s := St (set_tmo 9 socks5_zero) (World 0 [7] {[3 := paused_chan]} [] [] [] [] ∅ ∅ (config idle_world)) in
  (timeout (base (self s)) ≠ 0 ∧ ready 3 paused_chan s) ∧
  ∃ s' q, hev_task_io_socket_recv 3 4 MSG_WAITALL (Some hev_socks5_task_io_yielder) s = Val (4, [1; 2; 3; 4]) s' ∧
    chans (io s') !! 3 = Some (set_rxq q paused_chan) ∧ stream q = [5].
Proof.
  assert (ready 3 paused_chan (St (set_tmo 9 socks5_zero)
    (World 0 [7] {[3 := paused_chan]} [] [] [] [] ∅ ∅ (config idle_world)))) as Hr.
  { split; [reflexivity|repeat constructor|constructor|cbn; lia|repeat constructor]. }
  split; [split; [cbn; lia|exact Hr]|].
  apply (recv_waitall_exact (O := HevSocks5)
    (St (set_tmo 9 socks5_zero) (World 0 [7] {[3 := paused_chan]} [] [] [] [] ∅ ∅ (config idle_world))) 3 4 paused_chan);
    [cbn; lia|exact Hr|change (0 < 4 <= 5); lia].
Defined.

(** Writing a vector is writing its concatenation: with partial writes, full
    buffers, errors and timeouts anywhere, the call that steps through the segments
    returns the same result and leaves the same state as the call on one buffer. *)
Theorem sendmsg_is_send {O} `{IsSocks5 O} (s : st O) d (iov : list bytes) flags y :
  hev_task_io_socket_sendmsg d iov flags y s = hev_task_io_socket_send d (mjoin iov) flags y s.
Proof. apply sendmsg_send. Qed.
