(* ===== verification/LwipAddr.v ===== *)
(** * LwipAddr: from DNS answers to SOCKS5 requests, src/misc/hev-utils.c

    The addresses of lwIP and those of the protocol. A destination that the DNS
    server made up is turned back into the name it was made up for; the theorem
    follows a name from the DNS request to the request of the SOCKS5 client, provided
    that no [strdup] fails. *)
From S2P Require Import Prelude Bytes LRU MappedDNS DNSCache DNSHandle TaskIO Socks5 Socks5Spec.

(** An address of lwIP: a union of at least 16 bytes, and what it holds. *)
Inductive lwip_type := IPADDR_TYPE_V4 | IPADDR_TYPE_V6 | IPADDR_TYPE_ANY.
Record ip_addr := IpAddr { u_addr : bytes; ip_type : lwip_type }.

(** [ntohl] of the four bytes at the start. *)
Definition ip4_host (a : bytes) : option Z :=
  match a with
  | b0 :: b1 :: b2 :: b3 :: _ => Some (b0 * 16777216 + b1 * 65536 + b2 * 256 + b3)
  | _ => None
  end.

(** [present]: there is a DNS server ([hev_mapped_dns_get] is not NULL). *)
Definition hev_socks5_addr_from_lwip (present : bool) (addr : bytes) (ip : ip_addr) (port : Z) : M dns (Z * bytes) :=
  match ip_type ip with
  | IPADDR_TYPE_V4 =>
      name ← (if present then v ← of_option (ip4_host (u_addr ip)); hev_mapped_dns_lookup (i32 v) else mret None);
      match name with
      | Some name =>
          '(_, addr) ← of_option (hev_socks5_addr_from_name addr name (htons port));
          mret (0, addr)
      | None => mret (0, (hev_socks5_addr_from_ipv4 addr (u_addr ip) (htons port)).2)
      end
  | IPADDR_TYPE_V6 => mret (0, (hev_socks5_addr_from_ipv6 addr (u_addr ip) (htons port)).2)
  | IPADDR_TYPE_ANY => mret (-1, addr)
  end.

(** The result, and the address and the port when they are set. *)
Definition hev_socks5_addr_into_lwip (addr : bytes) (ip : ip_addr) : option (Z * ip_addr * option Z) :=
  atype ← zget addr 0;
  if atype =? HEV_SOCKS5_ADDR_TYPE_IPV4 then
    port ← get_le16 (slice addr 5 2);
    Some (0, IpAddr (overwrite (u_addr ip) 0 (slice addr 1 4)) IPADDR_TYPE_V4, Some (ntohs port))
  else if atype =? HEV_SOCKS5_ADDR_TYPE_IPV6 then
    port ← get_le16 (slice addr 17 2);
    Some (0, IpAddr (overwrite (u_addr ip) 0 (slice addr 1 16)) IPADDR_TYPE_V6, Some (ntohs port))
  else Some (-1, ip, None).

Lemma ip4_host_be32 v u : ip4_host (be32 v ++ u) = Some (u32 v).
Proof.
  unfold be32, ip4_host, u8, u32. cbn [app]. f_equal. rewrite !Z.shiftr_div_pow2 by lia.
  change (2 ^ 24) with 16777216. change (2 ^ 16) with 65536. change (2 ^ 8) with 256.
  Z.div_mod_to_equations. lia.
Qed.

Lemma i32_u32 v : -2147483648 <= v < 2147483648 → i32 (u32 v) = v.
Proof. intros Hv. unfold i32, u32. Z.div_mod_to_equations. lia. Qed.

(** C22: a name survives the way through the DNS server: when a request with one A
    question for a name was answered with an address, the application may resolve up
    to [max - 1] other names, and a connection to that address is then carried on as
    a request for exactly the name, of up to 255 bytes, and the port. [strdup] is
    taken not to fail for the nodes of these names. *)
Theorem mapped_name_requested d l k i1 i2 f1 f2 a1 a2 n1 n2 r1 r2 ls rest u ns port pad :
  let req := [i1; i2; f1; f2; 0; 1; a1; a2; n1; n2; r1; r2] ++ wire ls ++ [0; 1; 0; 1] ++ rest in
  let r := spec_find (max d) (can_alloc d) (dotted ls) l in
  dns_inv d l → config_ok d k → strdup_ok (heap d) → -2147483648 <= Z.lor (net d) r.1 < 2147483648 →
  is_byte f1 → is_byte f2 → Forall is_label ls → ls ≠ [] → 0 <= r.1 → zlen (dotted ls) < 256 →
  zlen req < 2147483648 → zlen req <= zlen u → 32 + zlen (wire ls) <= zlen u →
  Forall is_str ns → dotted ls ∉ ns → zlen ns < max d → 0 <= port < 65536 →
  ∃ d1 q out tl ip d2 d3 a,
    hev_mapped_dns_handle (zlen req) (zlen u) (Exchange d req u) = Val (32 + zlen (wire ls)) (Exchange d1 q out) ∧
    out = [i1; i2] ++ reply_flags f1 f2 ++ [0; 1; 0; 1; 0; 0; 0; 0] ++ wire ls ++ [0; 1; 0; 1] ++
      [192; 12; 0; 1; 0; 1; 0; 0; 0; 1; 0; 4] ++ ip ++ tl ∧ zlen ip = 4 ∧
    find_all ns d1 = Val tt d2 ∧
    hev_socks5_addr_from_lwip true addr_undef (IpAddr (ip ++ pad) IPADDR_TYPE_V4) port d2 = Val (0, a) d3 ∧
    take (Z.to_nat (4 + zlen (dotted ls))) a = wire_name (dotted ls) (htons port).
Proof.
  intros req r Hi Hc Hk Hip Hf1 Hf2 Hls Hne Hr Hl Hlen Hroom1 Hroom2 Hns Hnn Hcap Hport. pose proof Hc as (Hm & _).
  assert (is_str (dotted ls)) as Hstr.
  { pose proof (dots_str ls Hls) as Hd. destruct ls as [|l0 ls]; [done|]. cbn in *.
    by apply Forall_cons in Hd as [_ Hd]. }
  destruct (find_refines d l (dotted ls) Hi Hstr Hm (or_introl Hk)) as (d1 & He & Hi' & (_ & Hn & _) & _).
  destruct (handle_question d d1 i1 i2 f1 f2 a1 a2 n1 n2 r1 r2 ls rest u r.1 (zlen req) (zlen u))
    as (q & tl & Hh); try done.
  destruct (answered_leads_back d l k (dotted ls) r.1 d1 ns Hi Hc Hk Hstr He Hr Hns Hnn Hcap) as (d2 & d3 & Ha & Hlk).
  destruct (from_name_wire addr_undef (dotted ls) (htons port) eq_refl Hstr Hl (bswap16_range port)) as (t & Hfn).
  eexists d1, q, _, tl, (be32 (u32 (Z.lor (net d) r.1))), d2, d3, _. split_and!; [exact Hh| |done|exact Ha| |].
  - unfold record_a. rewrite Hn. by rewrite <- !app_assoc.
  - unfold hev_socks5_addr_from_lwip. cbn [ip_type u_addr].
    assert (u32 (u32 (Z.lor (net d) r.1)) = u32 (Z.lor (net d) r.1)) as Hu by (unfold u32; apply Z.mod_mod; lia).
    rewrite bind_assoc. erewrite bind_val by (rewrite ip4_host_be32, Hu; reflexivity). rewrite i32_u32 by done.
    erewrite bind_val by exact Hlk. cbv beta iota. erewrite bind_val by (rewrite Hfn; reflexivity). reflexivity.
  - pose proof (zlen_nonneg (dotted ls)). rewrite take_app_le by (cbn; rewrite length_app; unfold zlen in *; cbn; lia).
    apply take_ge. cbn. rewrite length_app. unfold zlen in *. cbn. lia.
Qed.

(** "www" is resolved, then "ftp"; then the application connects to port 80 of the
    answered address 100.64.0.0. *)
Lemma mapped_name_requested_witness :
  ∃ d1 q out tl ip d2 d3 a,
    hev_mapped_dns_handle 21 64 exchange0 = Val 37 (Exchange d1 q out) ∧
    out = [18; 52] ++ reply_flags 1 0 ++ [0; 1; 0; 1; 0; 0; 0; 0] ++ wire [www] ++ [0; 1; 0; 1] ++
      [192; 12; 0; 1; 0; 1; 0; 0; 0; 1; 0; 4] ++ ip ++ tl ∧ zlen ip = 4 ∧
    find_all [ftp] d1 = Val tt d2 ∧
    hev_socks5_addr_from_lwip true addr_undef (IpAddr (ip ++ replicate 12 0) IPADDR_TYPE_V4) 80 d2 = Val (0, a) d3 ∧
    take 7 a = wire_name www (htons 80).
Proof.
  apply (mapped_name_requested dns0 [] 22 18 52 1 0 0 0 0 0 0 0 [www] [] (replicate 64 0) [ftp] 80 (replicate 12 0)).
  - apply dns0_inv.
  - split_and!; done.
  - repeat constructor.
  - by vm_compute.
  - by unfold is_byte.
  - by unfold is_byte.
  - repeat constructor; done.
  - done.
  - done.
  - done.
  - done.
  - done.
  - done.
  - constructor; [apply str_ftp|constructor].
  - apply (bool_decide_unpack _). by vm_compute.
  - done.
  - done.
Defined.
