(* ===== verification/SocketSpec.v ===== *)
(** * SocketSpec: opening, connecting and dropping descriptors

    What the code that makes a socket may do to the open descriptors and to the
    descriptors the task is registered for, whatever the system calls answer. *)
From S2P Require Import Prelude Bytes TaskIO TaskIOSpec Socks5 Socks5Spec.

Section Sockets.
Context {O : Type} `{IsSocks5 O}.
Implicit Types s : st O.

(** Nothing but the clocks, the answers and [errno] has changed. *)
Definition calm s s' : Prop :=
  self s' = self s ∧ chans (io s') = chans (io s) ∧ polled (io s') = polled (io s) ∧
  blocks (io s') = blocks (io s) ∧ config (io s') = config (io s).

Lemma calm_refl s : calm s s.
Proof using Type. done. Qed.

Lemma calm_trans s s' s'' : calm s s' → calm s' s'' → calm s s''.
Proof using Type. unfold calm. intuition congruence. Qed.

Lemma syscall_calm s :
  ∃ r s', syscall s = Val r s' ∧ calm s s' ∧ match answers (io s) with
    | [] => errno (io s') = EBADF
    | _ :: l => answers (io s') = l
    end.
Proof using Type.
  destruct s as [o i]. unfold syscall, on_io, zoom, fail. cbn [io self]. destruct (answers i) as [|a l] eqn:Ha.
  - eexists _, _. split; [reflexivity|]. by destruct i.
  - destruct (a <? 0); (eexists _, _; split; [reflexivity|by destruct i]).
Qed.

Lemma wait_calm y s :
  polite (λ _, True) (λ _, True) y →
  wp (wait_io (Some y)) (λ _ s', calm s s' ∧ answers (io s') = answers (io s)) (λ _, True) s.
Proof using Type.
  intros Hy. unfold wait_io. apply wp_bind. eapply wp_mono; [by apply Hy| |done].
  intros r s' (w & -> & _). apply wp_ret. by destruct s as [? []].
Qed.

Lemma connect_loop_calm fuel fd a y s :
  polite (λ _, True) (λ _, True) y → (length (answers (io s)) < fuel)%nat →
  wp (connect_loop fuel fd a (Some y)) (λ _ s', calm s s') (λ _, True) s.
Proof using Type.
  intros Hy. revert s. induction fuel as [|fuel IH]; intros s Hf; [lia|]. cbn [connect_loop]. unfold connect.
  destruct (syscall_calm s) as (r & s1 & Hv & Hc & Ha).
  eapply wp_bind_val; [exact Hv|]. eapply wp_bind_val; [reflexivity|].
  destruct (r <? 0); [|by apply wp_ret].
  destruct ((errno (io s1) =? EINPROGRESS) || _) eqn:He; [|by apply wp_if; intros; apply wp_ret].
  destruct (answers (io s)) as [|a0 l]; [by rewrite Ha in He|]. cbn in Hf.
  apply wp_bind. eapply wp_mono; [by apply wait_calm| |done]. intros b s2 [Hc2 Ha2].
  pose proof (calm_trans _ _ _ Hc Hc2) as Hc02. destruct b; [by apply wp_ret|].
  eapply wp_mono; [apply IH; rewrite Ha2, Ha; lia| |done]. intros r' s3 Hc3. by eapply calm_trans.
Qed.

Lemma connect_calm fd a y s :
  polite (λ _, True) (λ _, True) y →
  wp (hev_task_io_socket_connect fd a (Some y)) (λ _ s', calm s s') (λ _, True) s.
Proof using Type.
  intros Hy. unfold hev_task_io_socket_connect. eapply wp_bind_val; [reflexivity|].
  apply connect_loop_calm; [done|lia].
Qed.

(** A new open descriptor that the task is registered for. *)
Definition opened (fd : Z) s s' : Prop :=
  0 < fd ∧ chans (io s) !! fd = None ∧ (∃ c, chans (io s') = <[fd := c]> (chans (io s))) ∧
  polled (io s') = {[fd]} ∪ polled (io s).

Lemma fresh_fd_ne d s c : chans (io s) !! d = Some c → d < 1 + foldr Z.max 0 (elements (dom (chans (io s)))).
Proof using Type.
  intros Hd. assert (d ∈ elements (dom (chans (io s)))) as Hin by (apply elem_of_elements, elem_of_dom; by exists c).
  revert Hin. generalize (elements (dom (chans (io s)))) as l. clear.
  induction l as [|x l IH]; cbn [foldr]; [by intros ?%elem_of_nil|]. intros [->|Hin]%elem_of_cons; [lia|].
  specialize (IH Hin). lia.
Qed.

Lemma fresh_fd_pos (l : list Z) : 0 <= foldr Z.max 0 l.
Proof using Type. induction l; cbn [foldr]; lia. Qed.

Lemma fresh_fd_closed s : chans (io s) !! (1 + foldr Z.max 0 (elements (dom (chans (io s))))) = None.
Proof using Type. destruct (chans (io s) !! _) as [c|] eqn:Hc; [|done]. apply fresh_fd_ne in Hc. lia. Qed.

Lemma opened_calm fd s s' s'' : opened fd s s' → calm s' s'' → opened fd s s''.
Proof using Type. intros (H0 & H1 & (c & H2) & H3) (_ & Hc & Hp & _). split_and!; [done|done|exists c; congruence|congruence]. Qed.

(** An attempt that left no trace; a task is registered only for descriptors that
    are open, so that closing the new one restores the registrations too. *)
Definition undone s s' : Prop :=
  self s' = self s ∧ blocks (io s') = blocks (io s) ∧ config (io s') = config (io s) ∧ chans (io s') = chans (io s) ∧
  (polled (io s) ⊆ dom (chans (io s)) → polled (io s') = polled (io s)).

Definition same_rest s s' : Prop :=
  self s' = self s ∧ blocks (io s') = blocks (io s) ∧ config (io s') = config (io s).

(** A descriptor that is not open is not registered. *)
Lemma unregistered d s :
  chans (io s) !! d = None → polled (io s) ⊆ dom (chans (io s)) → polled (io s) ∖ {[d]} = polled (io s).
Proof using Type.
  intros Hcl Hsub. assert (d ∉ polled (io s)) as Hni.
  { intros Hin%Hsub%elem_of_dom. rewrite Hcl in Hin. by destruct Hin. }
  set_solver.
Qed.

(** Registration never fails, and keeps one that is there. *)
Lemma register_spec {A} fd (g : M (st O) A) s :
  ∃ s', (res ← hev_task_add_fd fd; (if res <? 0 then hev_task_mod_fd fd;; mret tt else mret tt);; g) s = g s' ∧
    self s' = self s ∧ blocks (io s') = blocks (io s) ∧ config (io s') = config (io s) ∧
    chans (io s') = chans (io s) ∧ polled (io s') = {[fd]} ∪ polled (io s) ∧
    wakes (io s') = wakes (io s) ∧ answers (io s') = answers (io s).
Proof using Type.
  destruct s as [o i]. unfold hev_task_add_fd, hev_task_mod_fd, on_io, zoom, mbind, M_bind. cbn [io self].
  case_bool_decide as Hin; cbn [Z.ltb Z.compare io self].
  - rewrite bool_decide_eq_true_2 by done. eexists. split; [by destruct i|]. split_and!; try done. cbn [io]. set_solver.
  - eexists. split; [reflexivity|]. by destruct i.
Qed.

Lemma socket_spec ty s :
  wp (hev_socks5_socket ty) (λ r s', self s' = self s ∧ blocks (io s') = blocks (io s) ∧ config (io s') = config (io s) ∧
    (r = -1 ∧ undone s s' ∨ opened r s s')) never s.
Proof using Type.
  unfold hev_socks5_socket. pose proof (fresh_fd_closed s) as Hcl.
  pose proof (fresh_fd_pos (elements (dom (chans (io s))))) as Hpos.
  unfold socket, on_io, zoom, fail. destruct (sockets (io s)) as [|[c|] l] eqn:Hso.
  - eapply wp_bind_val; [cbn; rewrite Hso; reflexivity|]. apply wp_ret. unfold undone. cbn [self io].
    destruct (io s). split_and!; [done|done|done|left; by split_and!].
  - set (fd := 1 + _) in *. set (s1 := St (self s) (set_sockets l (put_chan fd c (io s)))).
    eapply (wp_bind_val _ _ _ _ _ fd s1); [cbn; rewrite Hso; reflexivity|]. destruct (Z.ltb_spec fd 0); [lia|].
    destruct (syscall_calm s1) as (r & s2 & Hv & Hc & _). unfold setsockopt. eapply wp_bind_val; [exact Hv|].
    destruct Hc as (Hs2 & Hc2 & Hp2 & Hb2 & Hg2).
    assert (chans (io s2) = <[fd := c]> (chans (io s))) as Hch by (rewrite Hc2; unfold s1; cbn [io]; by destruct (io s)).
    assert (polled (io s2) = polled (io s)) as Hpo by (rewrite Hp2; unfold s1; cbn [io]; by destruct (io s)).
    assert (blocks (io s2) = blocks (io s)) as Hbo by (rewrite Hb2; unfold s1; cbn [io]; by destruct (io s)).
    assert (config (io s2) = config (io s)) as Hgo by (rewrite Hg2; unfold s1; cbn [io]; by destruct (io s)).
    clear Hc2 Hp2 Hb2 Hg2. change (self s1) with (self s) in Hs2.
    apply wp_if; intros _.
    { eapply wp_bind_val; [reflexivity|]. apply wp_ret. destruct (io s2) eqn:Hio2. cbn in *. subst.
      split_and!; [done|done|done|]. left. split; [done|]. split_and!; try done; cbn.
      - by apply delete_insert_id.
      - intros Hsub. by apply unregistered. }
    set (g := match ty with SOCK_STREAM => mret fd | SOCK_DGRAM => _ end).
    destruct (register_spec fd g s2) as (s3 & Hv3 & Hs3 & Hb3 & Hg3 & Hc3 & Hp3 & _). unfold wp. rewrite Hv3. clear Hv3. unfold g.
    assert (opened fd s s3) as Ho by (split_and!; [lia|done|exists c; congruence|congruence]).
    destruct ty; [cbv [mret M_ret]; split_and!; [congruence..|by right]|].
    destruct (syscall_calm s3) as (r4 & s4 & Hv4 & Hc4 & _). erewrite bind_val by exact Hv4. cbv [mret M_ret].
    pose proof (opened_calm _ _ _ _ Ho Hc4) as Ho4. destruct Hc4 as (? & _ & _ & ? & ?).
    split_and!; [congruence..|by right].
  - eapply wp_bind_val; [cbn; rewrite Hso; reflexivity|]. apply wp_ret. unfold undone. cbn [self io].
    destruct (io s). split_and!; [done|done|done|left; by split_and!].
Qed.

Lemma drop_opened {A} fd (v : A) s s' :
  opened fd s s' → same_rest s s' →
  ∃ s'', (drop_fd fd;; mret v) s' = Val v s'' ∧ undone s s''.
Proof using Type.
  intros (Hpos & Hcl & (c & Hc) & Hp) (Hs & Hb & Hg). eexists. split; [reflexivity|].
  destruct s' as [o []]. cbn in *. subst. split_and!; try done; cbn.
  - by apply delete_insert_id.
  - intros Hsub. pose proof (unregistered _ _ Hcl Hsub) as Hun. set_solver.
Qed.

Lemma dial_wp {A} ty (b : Z → M (st O) Z) y a (bad : A) (K : Z → M (st O) A) (Q : A → st O → Prop) s :
  polite (λ _, True) (λ _, True) y →
  (∀ d s, wp (b d) (λ _ s', calm s s') (λ _, True) s) →
  (∀ s', undone s s' → Q bad s') →
  (∀ d s', opened d s s' → same_rest s s' → wp (K d) Q (λ _, True) s') →
  wp (fd ← hev_socks5_socket ty;
      if fd <? 0 then mret bad else
      res ← b fd;
      if res <? 0 then drop_fd fd;; mret bad else
      res ← hev_task_io_socket_connect fd a (Some y);
      if res <? 0 then drop_fd fd;; mret bad else K fd) Q (λ _, True) s.
Proof using Type.
  intros Hy Hb Hbad HK. apply wp_bind. eapply wp_mono; [apply socket_spec| |done].
  intros d s1 (Hs1 & Hb1 & Hg1 & Hd). destruct Hd as [[-> Hu]|Ho]; [by apply wp_ret, Hbad|].
  destruct (Z.ltb_spec d 0); [destruct Ho; lia|]. assert (same_rest s s1) as Hr by done.
  assert (∀ s', calm s1 s' → opened d s s' ∧ same_rest s s') as Hstep.
  { intros s' Hc. split; [by eapply opened_calm|]. destruct Hc as (? & _ & _ & ? & ?).
    split_and!; congruence. }
  assert (∀ s', calm s1 s' → wp (drop_fd d;; mret bad) Q (λ _, True) s') as Hdrop.
  { intros s' [Ho' Hr']%Hstep. destruct (drop_opened d bad s s' Ho' Hr') as (s'' & Hv & Hu).
    eapply wp_val; [exact Hv|by apply Hbad]. }
  apply wp_bind. eapply wp_mono; [apply Hb|intros r s2 Hc2|done]. apply wp_if; intros _; [by apply Hdrop|].
  apply wp_bind. eapply wp_mono; [by apply connect_calm|intros r' s3 Hc3|done].
  pose proof (calm_trans _ _ _ Hc2 Hc3) as Hc. apply wp_if; intros _; [by apply Hdrop|].
  destruct (Hstep _ Hc). by apply HK.
Qed.
End Sockets.
