(* ===== verification/Splice.v ===== *)
(** * Splice: relaying two streams, third-part/hev-task-system/src/lib/io/basic/
    hev-task-io.c as it is built for Linux (with splice), and the TCP half of a
    session, src/core/src/hev-socks5-tcp.c

    A splicer owns a pipe of the kernel; its contents are part of the splicer. The
    loop runs with fuel for every byte that is still to come, twice (it is moved
    into the pipe and out of it), and for every wake. *)
From S2P Require Import Prelude Bytes TaskIO Socks5.

(** The capacity of a pipe, which F_GETPIPE_SZ reports. *)
Definition PIPE_SIZE : Z := 65536.

Record HevTaskIOSplicer := Splicer { fd_r : Z; fd_w : Z; wlen : Z; blen : Z; pipe : bytes }.

Section Splice.
Context {O : Type}.

(** ** Pipes *)

Definition new_fd : M (st O) Z := on_io (λ i,
  let fd := 1 + foldr Z.max 0 (elements (dom (chans i))) in
  Val fd (put_chan fd (Chan [] [] [] [] [] false) i)).

Definition pipe2 : M (st O) (Z * Z * Z) :=
  res ← syscall;
  if res <? 0 then mret (res, 0, 0) else
  r ← new_fd;
  w ← new_fd;
  mret (0, r, w).

(** Moving bytes into a pipe, which may be full, and out of it. *)
Definition splice_in (fd : Z) (pipe : bytes) (len : Z) : M (st O) (Z * bytes) :=
  let room := PIPE_SIZE - zlen pipe in
  if room <=? 0 then on_io (fail EAGAIN (-1, [])) else recv fd (Z.min len room).

Definition splice_out (pipe : bytes) (fd len : Z) : M (st O) Z :=
  if zlen pipe =? 0 then on_io (fail EAGAIN (-1)) else send fd (take (Z.to_nat len) pipe).

(** ** The splicer *)

Definition task_io_splicer_init (buf_size : Z) : M (st O) (option HevTaskIOSplicer) :=
  '(res, r, w) ← pipe2;
  if res <? 0 then mret None else
  res ← hev_task_add_fd r;
  if res <? 0 then close r;; close w;; mret None else
  res ← hev_task_add_fd w;
  if res <? 0 then close r;; close w;; mret None else
  let buf_size := PIPE_SIZE in
  mret (Some (Splicer r w 0 buf_size [])).

Definition task_io_splicer_fini (self : HevTaskIOSplicer) : M (st O) unit :=
  close (fd_r self);; close (fd_w self).

(** The result of a call that moved [s] bytes: progress, try again, or the end. *)
Definition moved (s e : Z) : Z :=
  if s <=? 0 then (if (s <? 0) && (e =? EAGAIN) then 0 else -1) else 1.

Definition task_io_splice (self : HevTaskIOSplicer) (fd_in fd_out : Z) : M (st O) (Z * HevTaskIOSplicer) :=
  '(s, bs) ← splice_in fd_in (pipe self) (blen self);
  e ← get_errno;
  let res := moved s e in
  let self :=
    if s <=? 0 then self
    else Splicer (fd_r self) (fd_w self) (u64 (wlen self + s)) (blen self) (pipe self ++ bs) in
  if truthy (wlen self) then
    s ← splice_out (pipe self) fd_out (blen self);
    e ← get_errno;
    let res := moved s e in
    if s <=? 0 then mret (res, self)
    else mret (res, Splicer (fd_r self) (fd_w self) (u64 (wlen self - s)) (blen self) (drop (Z.to_nat s) (pipe self)))
  else if res <? 0 then shutdown fd_out;; mret (res, self)
  else mret (res, self).

Definition splice_fuel (fd : Z) (s : st O) : nat :=
  match chans (io s) !! fd with Some c => 2 * length (stream (rxq c)) | None => 0 end.

Fixpoint splice_loop (fuel : nat) (a_i a_o b_i b_o : Z) (yielder : HevTaskIOYielder (O := O))
    (f b : HevTaskIOSplicer) (res_f res_b : Z) : M (st O) (HevTaskIOSplicer * HevTaskIOSplicer) :=
  match fuel with
  | Datatypes.O => stuck
  | S fuel =>
      '(res_f, f) ← (if 0 <=? res_f then task_io_splice f a_i b_o else mret (res_f, f));
      '(res_b, b) ← (if 0 <=? res_b then task_io_splice b b_i a_o else mret (res_b, b));
      match (if (0 <? res_f) || (0 <? res_b) then Some HEV_TASK_YIELD
             else if Z.land res_f res_b =? 0 then Some HEV_TASK_WAITIO
             else None) with
      | None => mret (f, b)
      | Some type =>
          match yielder with
          | Some y =>
              r ← y type;
              if truthy r then mret (f, b)
              else splice_loop fuel a_i a_o b_i b_o yielder f b res_f res_b
          | None =>
              hev_task_yield type;;
              splice_loop fuel a_i a_o b_i b_o yielder f b res_f res_b
          end
      end
  end.

Definition hev_task_io_splice (a_i a_o b_i b_o : Z) (buf_size : Z) (yielder : HevTaskIOYielder (O := O)) :
    M (st O) unit :=
  f ← task_io_splicer_init buf_size;
  match f with
  | None => mret tt
  | Some f =>
      b ← task_io_splicer_init buf_size;
      match b with
      | None => task_io_splicer_fini f
      | Some b =>
          fuel ← gets (λ s, S (splice_fuel a_i s + splice_fuel b_i s + length (wakes (io s))));
          '(f, b) ← splice_loop fuel a_i a_o b_i b_o yielder f b 1 1;
          task_io_splicer_fini b;;
          task_io_splicer_fini f
      end
  end.
End Splice.

(** ** The TCP half of a session *)

Definition hev_socks5_tcp_splicer {O} `{IsSocks5 O} (fd : Z) : M (st O) Z :=
  b ← get_base;
  let cfd := Socks5.fd b in
  if cfd <? 0 then mret (-1) else
  res ← hev_task_add_fd fd;
  (if res <? 0 then hev_task_mod_fd fd;; mret tt else mret tt);;
  hev_task_io_splice cfd cfd fd fd 8192 (Some hev_socks5_task_io_yielder);;
  mret 0.

Definition hev_socks5_tcp_splice {O} `{IsSocks5 O} (fd : Z) : M (st O) Z := hev_socks5_tcp_splicer fd.
