(* ===== verification/SpliceSpec.v ===== *)
(** * SpliceSpec: the relay moves every byte, in order, and ends *)
From S2P Require Import Prelude Bytes TaskIO TaskIOSpec Socks5 Socks5Spec SocketSpec Splice.

(** A stream whose end will come. *)
Definition ended (q : list rx_event) : Prop := RxEof ∈ q.

(** What one read or write leaves: the queue, and whether it must be retried. *)
Definition rx_left (q q' : list rx_event) (r e : Z) : Prop :=
  rx_clean q → ended q → rx_clean q' ∧ ended q' ∧ (rx_waits q' <= rx_waits q)%nat ∧
    (r <= 0 → r < 0 ∧ e = EAGAIN ∧ (rx_waits q' < rx_waits q)%nat ∨ r = 0 ∧ stream q' = []).
Definition tx_left (q q' : list tx_event) (r e : Z) : Prop :=
  tx_clean q → tx_clean q' ∧ (tx_waits q' <= tx_waits q)%nat ∧
    (r <= 0 → r < 0 ∧ e = EAGAIN ∧ (tx_waits q' < tx_waits q)%nat).

Section Steps.
Context {O : Type}.
Implicit Types s : st O.

Lemma recv_left d n c s :
  chans (io s) !! d = Some c → 0 < n →
  ∃ r bs q s', recv d n s = Val (r, bs) s' ∧ self s' = self s ∧ wakes (io s') = wakes (io s) ∧
    chans (io s') = <[d := set_rxq q c]> (chans (io s)) ∧
    stream (rxq c) = bs ++ stream q ∧ zlen bs <= n ∧ (0 < r ∧ r = zlen bs ∨ r <= 0 ∧ bs = []) ∧
    rx_left (rxq c) q r (errno (io s')).
Proof.
  intros Hc Hn. unfold recv, on_chan, on_io, zoom. rewrite Hc. destruct s as [o i]. cbn [self io] in *.
  destruct (rxq c) as [|[b bs| | |e] q] eqn:Hq.
  - exists (-1), [], []. eexists. split; [reflexivity|]. split_and!; try done; try (unfold zlen; cbn; lia); try (by right).
    + replace (set_rxq [] c) with c by (rewrite <- Hq; by destruct c). by rewrite insert_id; destruct i.
    + intros _ Hend. by apply elem_of_nil in Hend.
  - set (bs' := take (Z.to_nat n) (b :: bs)).
    exists (zlen bs'), bs', (match drop (Z.to_nat n) (b :: bs) with [] => q | b :: bs => RxData b bs :: q end).
    eexists. split; [reflexivity|].
    assert (0 < zlen bs' <= n) as Hz.
    { unfold bs', zlen. rewrite length_take. cbn [length]. lia. }
    split_and!; try done; try (by destruct i); try lia.
    + cbn [stream]. change (b :: bs ++ stream q) with ((b :: bs) ++ stream q).
      rewrite <- (take_drop (Z.to_nat n) (b :: bs)) at 1. rewrite <- app_assoc. f_equal.
      by destruct (drop (Z.to_nat n) (b :: bs)).
    + intros Hcl Hend. apply Forall_cons in Hcl as [_ Hcl]. apply elem_of_cons in Hend as [?|Hend]; [done|].
      destruct (drop _ _); (split_and!; [by repeat constructor|by try (apply elem_of_cons; right)|cbn; lia|lia]).
  - exists (-1), [], q. eexists. split; [reflexivity|]. split_and!; try done; try (by destruct i); try (unfold zlen; cbn; lia); try (by right).
    intros Hcl Hend. apply Forall_cons in Hcl as [_ Hcl]. apply elem_of_cons in Hend as [?|Hend]; [done|].
    split_and!; [done|done|cbn; lia|]. intros _. left. split_and!; [lia|by destruct i|cbn; lia].
  - exists 0, [], (RxEof :: q). eexists. split; [reflexivity|]. split_and!; try done; try (unfold zlen; cbn; lia); try (by right).
    + replace (set_rxq (RxEof :: q) c) with c by (rewrite <- Hq; by destruct c). by rewrite insert_id.
    + intros Hcl Hend. split_and!; [done|done|lia|]. by right.
  - exists (-1), [], q. eexists. split; [reflexivity|]. split_and!; try done; try (by destruct i); try (unfold zlen; cbn; lia); try (by right).
    intros Hcl. by apply Forall_cons in Hcl as [[] _].
Qed.

Lemma send_left d buf c s :
  chans (io s) !! d = Some c → 0 < zlen buf →
  ∃ r k q s', send d buf s = Val r s' ∧ self s' = self s ∧ wakes (io s') = wakes (io s) ∧
    chans (io s') = <[d := set_tx q (tx c ++ take k buf) c]> (chans (io s)) ∧
    (k <= length buf)%nat ∧ (0 < r ∧ r = Z.of_nat k ∨ r <= 0 ∧ k = 0%nat) ∧
    tx_left (txq c) q r (errno (io s')).
Proof.
  intros Hc Hb. unfold send, on_chan, on_io, zoom. rewrite Hc. destruct s as [o i]. cbn [self io] in *.
  destruct (txq c) as [|[n| |e] q] eqn:Hq.
  - exists (zlen buf), (length buf), []. eexists. split; [reflexivity|]. rewrite take_ge by done.
    split_and!; try done; try (by destruct i); [by left|]. intros Hcl. split_and!; [done|cbn; lia|lia].
  - exists (zlen (take (S n) buf)), (S n `min` length buf)%nat, q. eexists. split; [reflexivity|].
    assert (take (S n `min` length buf) buf = take (S n) buf) as ->.
    { destruct (decide (S n <= length buf)%nat); [f_equal; lia|]. by rewrite !take_ge by lia. }
    assert (zlen (take (S n) buf) = Z.of_nat (S n `min` length buf)) as Hz by (unfold zlen; by rewrite length_take).
    unfold zlen in Hb. split_and!; try done; try (by destruct i); try lia.
    intros Hcl. apply Forall_cons in Hcl as [_ Hcl]. split_and!; [done|cbn; lia|lia].
  - exists (-1), 0%nat, q. eexists. split; [reflexivity|]. rewrite take_0, app_nil_r.
    split_and!; try done; try (by destruct i); try lia.
    intros Hcl. apply Forall_cons in Hcl as [_ Hcl]. split_and!; [done|cbn; lia|].
    intros _. split_and!; [lia|by destruct i|cbn; lia].
  - exists (-1), 0%nat, q. eexists. split; [reflexivity|]. rewrite take_0, app_nil_r.
    split_and!; try done; try (by destruct i); try lia.
    intros Hcl. by apply Forall_cons in Hcl as [[] _].
Qed.
(** ** One step of a splicer *)

Definition sp_ok (f : HevTaskIOSplicer) : Prop :=
  wlen f = zlen (pipe f) ∧ zlen (pipe f) <= PIPE_SIZE ∧ blen f = PIPE_SIZE.

(** The moves that are left: every byte goes into the pipe and out of it. *)
Definition cost (f : HevTaskIOSplicer) (q : list rx_event) : nat := 2 * length (stream q) + length (pipe f).

Lemma splice_in_left d pip c s :
  chans (io s) !! d = Some c → zlen pip <= PIPE_SIZE →
  ∃ r bs q s', splice_in d pip PIPE_SIZE s = Val (r, bs) s' ∧ self s' = self s ∧ wakes (io s') = wakes (io s) ∧
    chans (io s') = <[d := set_rxq q c]> (chans (io s)) ∧
    stream (rxq c) = bs ++ stream q ∧ zlen (pip ++ bs) <= PIPE_SIZE ∧ (0 < r ∧ r = zlen bs ∨ r <= 0 ∧ bs = []) ∧
    (pip = [] → rx_left (rxq c) q r (errno (io s'))) ∧
    (rx_clean (rxq c) → ended (rxq c) → rx_clean q ∧ ended q ∧ (rx_waits q <= rx_waits (rxq c))%nat).
Proof.
  intros Hc Hp. unfold splice_in. destruct (Z.leb_spec (PIPE_SIZE - zlen pip) 0) as [Hr|Hr].
  - exists (-1), [], (rxq c). eexists. split; [reflexivity|]. unfold fail.
    replace (set_rxq (rxq c) c) with c by (by destruct c). rewrite app_nil_r.
    split_and!; try done; try (by destruct s as [? []]); try (by right).
    + rewrite insert_id by done. by destruct s as [? []].
    + intros ->. change (zlen []) with 0 in Hr. unfold PIPE_SIZE in Hr. lia.
  - destruct (recv_left d (Z.min PIPE_SIZE (PIPE_SIZE - zlen pip)) c s Hc)
      as (r & bs & q & s' & Hv & Hs & Hw & Hch & Hst & Hl & Hr' & Hx); [unfold PIPE_SIZE in *; lia|].
    exists r, bs, q, s'. rewrite zlen_app. split_and!; try done; [lia|].
    intros Hcl Hend. by destruct (Hx Hcl Hend) as (? & ? & ? & _).
Qed.

Lemma splice_out_left d pip c s :
  chans (io s) !! d = Some c → pip ≠ [] → zlen pip <= PIPE_SIZE →
  ∃ r k q s', splice_out pip d PIPE_SIZE s = Val r s' ∧ self s' = self s ∧ wakes (io s') = wakes (io s) ∧
    chans (io s') = <[d := set_tx q (tx c ++ take k pip) c]> (chans (io s)) ∧
    (k <= length pip)%nat ∧ (0 < r ∧ r = Z.of_nat k ∨ r <= 0 ∧ k = 0%nat) ∧
    tx_left (txq c) q r (errno (io s')).
Proof.
  intros Hc Hne Hp. assert (0 < zlen pip) as Hpos by (destruct pip; [done|rewrite zlen_cons; pose proof (zlen_nonneg pip); lia]).
  unfold splice_out. destruct (Z.eqb_spec (zlen pip) 0); [lia|].
  rewrite take_ge by (unfold zlen, PIPE_SIZE in *; lia). by apply send_left.
Qed.

Lemma moved_spec r e : moved r e = 1 ∧ 0 < r ∨ r <= 0 ∧ (moved r e = 0 ∧ r < 0 ∧ e = EAGAIN ∨ moved r e = -1 ∧ ¬ (r < 0 ∧ e = EAGAIN)).
Proof.
  unfold moved. destruct (Z.leb_spec r 0); [right|by left]. split; [done|].
  destruct (Z.ltb_spec r 0), (Z.eqb_spec e EAGAIN); cbn; [left|right|right|right]; split; try done; lia.
Qed.

Lemma u64_le x : 0 <= x <= PIPE_SIZE → u64 x = x.
Proof. unfold u64, PIPE_SIZE. intros. apply Z.mod_small. lia. Qed.

Definition step_post (f : HevTaskIOSplicer) (i o : Z) (ci co : chan) s (r : Z) (f' : HevTaskIOSplicer) s' : Prop :=
  ∃ q1 q2 sent sh, self s' = self s ∧ wakes (io s') = wakes (io s) ∧ sp_ok f' ∧ fd_r f' = fd_r f ∧ fd_w f' = fd_w f ∧
    chans (io s') = <[o := set_shut sh (set_tx q2 (tx co ++ sent) co)]> (<[i := set_rxq q1 ci]> (chans (io s))) ∧
    pipe f ++ stream (rxq ci) = sent ++ pipe f' ++ stream q1 ∧
    (r = -1 ∨ r = 0 ∨ r = 1) ∧ (cost f' q1 <= cost f (rxq ci))%nat ∧ (r = 1 → (cost f' q1 < cost f (rxq ci))%nat) ∧
    (rx_clean (rxq ci) → ended (rxq ci) → tx_clean (txq co) →
      rx_clean q1 ∧ ended q1 ∧ tx_clean q2 ∧
      (rx_waits q1 + tx_waits q2 <= rx_waits (rxq ci) + tx_waits (txq co))%nat ∧
      (r = 0 → (rx_waits q1 + tx_waits q2 < rx_waits (rxq ci) + tx_waits (txq co))%nat) ∧
      (r = -1 → pipe f' = [] ∧ stream q1 = [] ∧ sh = true)).

Lemma splice_step f i o ci co s :
  i ≠ o → sp_ok f → chans (io s) !! i = Some ci → chans (io s) !! o = Some co →
  ∃ r f' s', task_io_splice f i o s = Val (r, f') s' ∧ step_post f i o ci co s r f' s'.
Proof.
  intros Hio (Hwl & Hps & Hbl) Hi Ho. unfold task_io_splice. rewrite Hbl.
  destruct (splice_in_left i (pipe f) ci s Hi Hps) as (r1 & bs & q1 & s1 & Hv & Hs1 & Hw1 & Hc1 & Hst & Hfit & Hr1 & Hx & Hx').
  erewrite bind_val by exact Hv. cbv beta iota. erewrite bind_val by reflexivity. cbv beta zeta.
  set (f1 := if r1 <=? 0 then f else _).
  assert (pipe f1 = pipe f ++ bs ∧ wlen f1 = zlen (pipe f1) ∧ blen f1 = PIPE_SIZE ∧ fd_r f1 = fd_r f ∧ fd_w f1 = fd_w f)
    as (Hp1 & Hwl1 & Hbl1 & Hfr1 & Hfw1).
  { unfold f1. destruct Hr1 as [[Hr1 ->]|[Hr1 ->]]; [destruct (Z.leb_spec (zlen bs) 0); [lia|]|destruct (Z.leb_spec r1 0); [|lia]].
    - cbn. rewrite Hwl. pose proof (zlen_nonneg (pipe f)). rewrite zlen_app in *. by rewrite u64_le by lia.
    - by rewrite app_nil_r. }
  rewrite <- Hp1 in Hfit. clearbody f1.
  assert (chans (io s1) !! o = Some co) as Ho1 by (by rewrite Hc1, lookup_insert_ne).
  destruct (decide (pipe f1 = [])) as [Hnil|Hne].
  - (* nothing to send *)
    rewrite Hwl1, Hnil. change (truthy (zlen [])) with false. cbv iota.
    rewrite Hnil in Hp1. symmetry in Hp1. apply app_eq_nil in Hp1 as [Hpf ->].
    destruct Hr1 as [[Hr1 ->]|[Hr1 _]]; [by change (zlen []) with 0 in Hr1; lia|].
    assert (sp_ok f1) as Hok1 by (by split_and!).
    assert (∀ sh s', self s' = self s1 → wakes (io s') = wakes (io s1) →
      chans (io s') = <[o := set_shut sh co]> (chans (io s1)) → (moved r1 (errno (io s1)) = -1 → sh = true) →
      step_post f i o ci co s (moved r1 (errno (io s1))) f1 s') as Hpost.
    { intros sh s' Hs' Hw' Hc' Hsh. exists q1, (txq co), [], sh. rewrite app_nil_r.
      replace (set_tx (txq co) (tx co) co) with co by (by destruct co).
      destruct (moved_spec r1 (errno (io s1))) as [[_ ?]|[_ Hm]]; [lia|].
      unfold cost. rewrite Hpf, Hnil, Hst. cbn [app]. split_and!; try congruence; try done; try lia.
      intros Hcl Hend Htx. destruct (Hx Hpf Hcl Hend) as (? & ? & ? & Hag). specialize (Hag Hr1).
      split_and!; try done; [lia|intros Hm0; lia|]. intros Hm1. split_and!; [done| |by apply Hsh].
      destruct Hag as [(? & ? & _)|[_ ?]]; [|done]. destruct Hm as [[? _]|[_ Hn]]; [lia|]. exfalso. by apply Hn. }
    destruct (Z.ltb_spec (moved r1 (errno (io s1))) 0).
    + unfold shutdown, on_chan, on_io, zoom. eexists _, _, _. split.
      { erewrite bind_val; [reflexivity|]. cbv beta. rewrite Ho1. reflexivity. }
      apply (Hpost true); [done|by destruct (io s1)|by destruct (io s1)|done].
    + eexists _, _, _. split; [reflexivity|]. apply (Hpost (shut co)); [done|done| |lia].
      replace (set_shut (shut co) co) with co by (by destruct co). by rewrite insert_id.
  - (* something to send *)
    rewrite Hwl1. replace (truthy (zlen (pipe f1))) with true
      by (destruct (pipe f1); [done|symmetry; apply truthy_ne; rewrite zlen_cons; pose proof (zlen_nonneg l); lia]).
    cbv iota. rewrite Hbl1.
    destruct (splice_out_left o (pipe f1) co s1 Ho1 Hne Hfit) as (r2 & k & q2 & s2 & Hv2 & Hs2 & Hw2 & Hc2 & Hk & Hr2 & Hx2).
    erewrite bind_val by exact Hv2. erewrite bind_val by reflexivity. cbv beta zeta.
    assert (∀ f', pipe f' = drop k (pipe f1) → sp_ok f' → fd_r f' = fd_r f → fd_w f' = fd_w f →
      step_post f i o ci co s (moved r2 (errno (io s2))) f' s2) as Hpost.
    { intros f' Hpf' Hok' Hfr' Hfw'. exists q1, q2, (take k (pipe f1)), (shut co).
      replace (set_shut (shut co) (set_tx q2 (tx co ++ take k (pipe f1)) co)) with (set_tx q2 (tx co ++ take k (pipe f1)) co)
        by (by destruct co).
      destruct (moved_spec r2 (errno (io s2))) as [[Hm ?]|[? Hm]].
      all: split_and!; try congruence; try done.
      all: try (rewrite Hc2, Hc1; done).
      all: try (rewrite Hpf', app_assoc, (take_drop k), Hp1, Hst; by rewrite app_assoc).
      all: try lia.
      all: try (unfold cost; rewrite Hpf', Hst, !length_app, length_drop, Hp1, length_app; rewrite Hp1, length_app in Hk; lia).
      all: intros Hcl Hend Htx; destruct (Hx' Hcl Hend) as (? & ? & ?); destruct (Hx2 Htx) as (? & ? & Hag).
      - split_and!; try done; lia.
      - specialize (Hag ltac:(lia)). split_and!; try done; lia. }
    destruct Hr2 as [[Hr2 ->]|[Hr2 ->]].
    + destruct (Z.leb_spec (Z.of_nat k) 0); [lia|]. eexists _, _, _. split; [reflexivity|]. rewrite Nat2Z.id.
      assert (zlen (drop k (pipe f1)) = zlen (pipe f1) - Z.of_nat k) as Hdl by (unfold zlen; rewrite length_drop; lia).
      pose proof (zlen_nonneg (drop k (pipe f1))).
      apply Hpost; try done. unfold sp_ok. cbn [wlen pipe blen]. rewrite Hdl, u64_le by lia. split_and!; [done|lia|done].
    + destruct (Z.leb_spec r2 0); [|lia]. eexists _, _, _. split; [reflexivity|]. by apply Hpost; try split_and!.
Qed.
(** ** One direction of one round *)

(** What has left the splicer is what came in, up to what the pipe still holds. *)
Definition relayed (f : HevTaskIOSplicer) (ci co : chan) (f' : HevTaskIOSplicer) (ci' co' : chan) : Prop :=
  ∃ sent, pipe f ++ stream (rxq ci) = sent ++ pipe f' ++ stream (rxq ci') ∧ tx co' = tx co ++ sent.

Lemma relayed_refl f ci co : relayed f ci co f ci co.
Proof. exists []. by rewrite app_nil_r. Qed.

Lemma relayed_trans f ci co f' ci' co' f'' ci'' co'' :
  relayed f ci co f' ci' co' → relayed f' ci' co' f'' ci'' co'' → relayed f ci co f'' ci'' co''.
Proof.
  intros (x & H1 & H2) (y & H3 & H4). exists (x ++ y). rewrite H1, H3, H4, H2, <- !app_assoc. done.
Qed.

(** Only the queue of the input and the output's sent bytes matter. *)
Lemma relayed_frame f ci co f' ci' co' di di' do' :
  relayed f ci co f' ci' co' → rxq di = rxq ci → rxq di' = rxq ci' → tx do' = tx co' → relayed f di co f' di' do'.
Proof. unfold relayed. intros (x & H1 & H2) -> -> ->. by exists x. Qed.

Definition fine (res : Z) (f : HevTaskIOSplicer) (ci co : chan) : Prop :=
  rx_clean (rxq ci) ∧ ended (rxq ci) ∧ tx_clean (txq co) ∧
  (res = -1 → pipe f = [] ∧ stream (rxq ci) = [] ∧ shut co = true).

Definition waits (ci co : chan) : nat := rx_waits (rxq ci) + tx_waits (txq co).

(** The input only loses events, and nothing else of it changes; the output only
    sends. *)
Definition half_post (res : Z) (f : HevTaskIOSplicer) (i o : Z) (ci co : chan) s r f' s' : Prop :=
  ∃ ci' co', self s' = self s ∧ wakes (io s') = wakes (io s) ∧ sp_ok f' ∧ fd_r f' = fd_r f ∧ fd_w f' = fd_w f ∧
    chans (io s') !! i = Some ci' ∧ chans (io s') !! o = Some co' ∧
    (rxq co' = rxq co ∧ txq ci' = txq ci ∧ tx ci' = tx ci ∧ shut ci' = shut ci) ∧
    relayed f ci co f' ci' co' ∧ (r = -1 ∨ r = 0 ∨ r = 1) ∧
    (cost f' (rxq ci') <= cost f (rxq ci))%nat ∧ (0 < r → (cost f' (rxq ci') < cost f (rxq ci))%nat) ∧
    (fine res f ci co → fine r f' ci' co' ∧ (waits ci' co' <= waits ci co)%nat ∧
      (r = 0 → (waits ci' co' < waits ci co)%nat)).

Lemma half_step res f i o ci co s :
  i ≠ o → sp_ok f → chans (io s) !! i = Some ci → chans (io s) !! o = Some co → (res = -1 ∨ res = 0 ∨ res = 1) →
  ∃ r f' s', (if 0 <=? res then task_io_splice f i o else mret (res, f)) s = Val (r, f') s' ∧
    half_post res f i o ci co s r f' s'.
Proof.
  intros Hio Hok Hi Ho Hres. destruct (Z.leb_spec 0 res).
  - destruct (splice_step f i o ci co s Hio Hok Hi Ho)
      as (r & f' & s' & Hv & q1 & q2 & sent & sh & Hs & Hw & Hok' & Hfr & Hfw & Hc & Hst & Hr & Hle & Hlt & Hcl).
    exists r, f', s'. split; [exact Hv|]. exists (set_rxq q1 ci), (set_shut sh (set_tx q2 (tx co ++ sent) co)). split_and!; try done.
    + rewrite Hc, lookup_insert_ne by congruence. by rewrite lookup_insert_eq.
    + by rewrite Hc, lookup_insert_eq.
    + by exists sent.
    + intros ?. apply Hlt. lia.
    + intros (H1 & H2 & H3 & _). destruct (Hcl H1 H2 H3) as (? & ? & ? & Hle' & Hlt' & Hend).
      split_and!; [|exact Hle'|exact Hlt']. unfold fine. by split_and!.
  - assert (res = -1) as -> by lia. exists (-1), f, s. split; [done|].
    exists ci, co. split_and!; try done; try lia; try apply relayed_refl.
Qed.
End Steps.

(** ** The loop *)

Section Loop.
Context {O : Type} `{IsSocks5 O}.
Implicit Types s : st O.

Lemma yielder_waits s :
  hev_socks5_task_io_yielder HEV_TASK_WAITIO s = Blocked s ∨
  ∃ r w, hev_socks5_task_io_yielder HEV_TASK_WAITIO s = Val r (St (self s) (set_wakes w (io s))) ∧
    (r = 0 → (length w < length (wakes (io s)))%nat).
Proof.
  pose proof (yielder_polite s I) as Hp. unfold wp in Hp.
  destruct (hev_socks5_task_io_yielder HEV_TASK_WAITIO s) as [r s'|s'|] eqn:Hy; [right|left|done].
  - destruct Hp as (w & -> & _ & Hr). by exists r, w.
  - revert Hy. unfold hev_socks5_task_io_yielder, get_base, hev_task_yield, hev_task_sleep, on_io, zoom, gets, mbind, M_bind.
    destruct (timeout _ <? 0), s as [o i]; cbn [self io]; destruct (wakes i) eqn:Hw;
      try destruct (timeout _ =? 0); cbn; try done; try (destruct (_ <=? 0); done); by intros [= <-].
Qed.

(** The two directions together. *)
Definition both (a b : Z) (ca cb : chan) (f g : HevTaskIOSplicer) s (f' g' : HevTaskIOSplicer) s' : Prop :=
  ∃ ca' cb', chans (io s') !! a = Some ca' ∧ chans (io s') !! b = Some cb' ∧
    relayed f ca cb f' ca' cb' ∧ relayed g cb ca g' cb' ca' ∧
    (fd_r f' = fd_r f ∧ fd_w f' = fd_w f) ∧ (fd_r g' = fd_r g ∧ fd_w g' = fd_w g).

Definition next_yield (res_f res_b : Z) : option HevTaskYieldType :=
  if (0 <? res_f) || (0 <? res_b) then Some HEV_TASK_YIELD
  else if Z.land res_f res_b =? 0 then Some HEV_TASK_WAITIO else None.

Lemma next_yield_spec rf rb :
  (rf = -1 ∨ rf = 0 ∨ rf = 1) → (rb = -1 ∨ rb = 0 ∨ rb = 1) →
  next_yield rf rb = Some HEV_TASK_YIELD ∧ (0 < rf ∨ 0 < rb) ∨
  next_yield rf rb = Some HEV_TASK_WAITIO ∧ (rf = 0 ∧ rb <= 0 ∨ rb = 0 ∧ rf <= 0) ∨
  next_yield rf rb = None ∧ rf = -1 ∧ rb = -1.
Proof using Type.
  intros Hf Hb. destruct Hf as [->|[->| ->]], Hb as [->|[->| ->]]; cbn; try (left; split; [done|lia]);
    try (right; left; split; [done|lia]). right; right. done.
Qed.

(** One round of the loop up to its yield. *)
Lemma round a b ca cb f g rf rb s :
  a ≠ b → sp_ok f → sp_ok g → chans (io s) !! a = Some ca → chans (io s) !! b = Some cb →
  (rf = -1 ∨ rf = 0 ∨ rf = 1) → (rb = -1 ∨ rb = 0 ∨ rb = 1) →
  ∃ rf' f' rb' g' ca' cb' s', (∀ A (K : Z → HevTaskIOSplicer → Z → HevTaskIOSplicer → M (st O) A),
    ('(rf, f) ← (if 0 <=? rf then task_io_splice f a b else mret (rf, f));
     '(rb, g) ← (if 0 <=? rb then task_io_splice g b a else mret (rb, g)); K rf f rb g) s = K rf' f' rb' g' s') ∧
    self s' = self s ∧ wakes (io s') = wakes (io s) ∧ sp_ok f' ∧ sp_ok g' ∧
    chans (io s') !! a = Some ca' ∧ chans (io s') !! b = Some cb' ∧ both a b ca cb f g s f' g' s' ∧
    (rf' = -1 ∨ rf' = 0 ∨ rf' = 1) ∧ (rb' = -1 ∨ rb' = 0 ∨ rb' = 1) ∧
    (cost f' (rxq ca') + cost g' (rxq cb') <= cost f (rxq ca) + cost g (rxq cb))%nat ∧
    (0 < rf' ∨ 0 < rb' → (cost f' (rxq ca') + cost g' (rxq cb') < cost f (rxq ca) + cost g (rxq cb))%nat) ∧
    (fine rf f ca cb → fine rb g cb ca → fine rf' f' ca' cb' ∧ fine rb' g' cb' ca' ∧
      (waits ca' cb' + waits cb' ca' <= waits ca cb + waits cb ca)%nat ∧
      (rf' = 0 ∨ rb' = 0 → (waits ca' cb' + waits cb' ca' < waits ca cb + waits cb ca)%nat)).
Proof using Type.
  intros Hab Hf Hg Ha Hb Hrf Hrb.
  destruct (half_step rf f a b ca cb s Hab Hf Ha Hb Hrf)
    as (rf' & f' & s1 & Hv1 & c1 & d1 & Hs1 & Hw1 & Hf' & Hfr & Hfw & Hc1 & Hd1 & (E1 & E2 & E3 & E4) & Hrel1 & Hr1 & Hle1 & Hlt1 & Hfine1).
  destruct (half_step rb g b a d1 c1 s1 (not_eq_sym Hab) Hg Hd1 Hc1 Hrb)
    as (rb' & g' & s2 & Hv2 & d2 & c2 & Hs2 & Hw2 & Hg' & Hgr & Hgw & Hd2 & Hc2 & (F1 & F2 & F3 & F4) & Hrel2 & Hr2 & Hle2 & Hlt2 & Hfine2).
  exists rf', f', rb', g', c2, d2, s2. rewrite E1 in Hle2, Hlt2. split_and!; try done; try congruence.
  - intros A K. erewrite bind_val by exact Hv1. cbv beta iota. erewrite bind_val by exact Hv2. done.
  - exists c2, d2. split_and!; try done.
    + destruct Hrel1 as (x & G1 & G2). exists x. by rewrite F1, F3.
    + destruct Hrel2 as (x & G1 & G2). exists x. by rewrite <- E1, <- E3.
  - rewrite F1. lia.
  - rewrite F1. intros [?|?]; [specialize (Hlt1 ltac:(done))|specialize (Hlt2 ltac:(done))]; lia.
  - intros Hff Hfg. destruct (Hfine1 Hff) as (Hff' & Hwl & Hwlt).
    assert (fine rb g d1 c1) as Hfg1.
    { destruct Hfg as (? & ? & ? & ?). unfold fine. rewrite E1, E2, E4. by split_and!. }
    destruct (Hfine2 Hfg1) as (Hfg' & Hwl2 & Hwlt2).
    assert (fine rf' f' c2 d2) as Hff2.
    { destruct Hff' as (? & ? & ? & ?). unfold fine. rewrite F1, F2, F4. by split_and!. }
    unfold waits in *. rewrite E1, E2 in Hwl2, Hwlt2. rewrite F1, F2. split_and!; [done|done|lia|].
    intros [?|?]; [specialize (Hwlt ltac:(done))|specialize (Hwlt2 ltac:(done))]; lia.
Qed.
Lemma both_trans a b ca cb f g s f1 g1 s1 c1 d1 f2 g2 s2 :
  both a b ca cb f g s f1 g1 s1 → chans (io s1) !! a = Some c1 → chans (io s1) !! b = Some d1 →
  both a b c1 d1 f1 g1 s1 f2 g2 s2 → both a b ca cb f g s f2 g2 s2.
Proof using Type.
  intros (c1' & d1' & Ha & Hb & R1 & R2 & ? & ?) Ha' Hb' (c2 & d2 & ? & ? & R3 & R4 & ? & ?).
  rewrite Ha in Ha'. rewrite Hb in Hb'. simplify_eq. exists c2, d2. split_and!; try done; try (intuition congruence);
    by eapply relayed_trans.
Qed.

Lemma both_io a b ca cb f g s f1 g1 s1 s2 :
  both a b ca cb f g s f1 g1 s1 → chans (io s2) = chans (io s1) → both a b ca cb f g s f1 g1 s2.
Proof using Type. intros (c1 & d1 & ? & ? & HR) Hc. exists c1, d1. by rewrite Hc. Qed.

Lemma loop_any fuel a b f g rf rb ca cb s :
  a ≠ b → sp_ok f → sp_ok g → chans (io s) !! a = Some ca → chans (io s) !! b = Some cb →
  (rf = -1 ∨ rf = 0 ∨ rf = 1) → (rb = -1 ∨ rb = 0 ∨ rb = 1) →
  (cost f (rxq ca) + cost g (rxq cb) + length (wakes (io s)) < fuel)%nat →
  wp (splice_loop fuel a a b b (Some hev_socks5_task_io_yielder) f g rf rb)
    (λ '(f', g') s', both a b ca cb f g s f' g' s') (λ s', ∃ f' g', both a b ca cb f g s f' g' s') s.
Proof.
  intros Hab. revert f g rf rb ca cb s. induction fuel as [|fuel IH];
    intros f g rf rb ca cb s Hf Hg Ha Hb Hrf Hrb Hfuel; [lia|].
  destruct (round a b ca cb f g rf rb s Hab Hf Hg Ha Hb Hrf Hrb)
    as (rf1 & f1 & rb1 & g1 & c1 & d1 & s1 & Hv & Hs1 & Hw1 & Hf1 & Hg1 & Hc1 & Hd1 & Hboth & Hrf1 & Hrb1 & Hle & Hlt & _).
  cbn [splice_loop]. unfold wp. rewrite Hv. clear Hv. fold (next_yield rf1 rb1).
  destruct (next_yield_spec rf1 rb1 Hrf1 Hrb1) as [[-> Hor]|[[-> Hor]|[-> _]]]; [| |exact Hboth].
  - erewrite bind_val by reflexivity. cbn [truthy Z.eqb negb]. specialize (Hlt Hor).
    replace (St (self s1) (io s1)) with s1 by (by destruct s1).
    eapply wp_mono; [apply (IH _ _ _ _ c1 d1); try done; rewrite Hw1; lia|intros [f2 g2] s2 HB|intros s2 (f2 & g2 & HB)].
    + by eapply both_trans.
    + exists f2, g2. by eapply both_trans.
  - destruct (yielder_waits s1) as [Hy|(r & w & Hy & Hr)].
    { unfold mbind, M_bind. rewrite Hy. by exists f1, g1. }
    erewrite bind_val by exact Hy. unfold truthy. destruct (Z.eqb_spec r 0) as [->|]; cbn [negb].
    2: { eapply both_io; [exact Hboth|]. by destruct (io s1). }
    set (s2 := St _ _). assert (both a b ca cb f g s f1 g1 s2) as Hboth2.
    { eapply both_io; [exact Hboth|]. unfold s2. cbn [io]. by destruct (io s1). }
    assert (chans (io s2) = chans (io s1)) as Hch by (unfold s2; cbn [io]; by destruct (io s1)).
    eapply wp_mono; [apply (IH _ _ _ _ c1 d1); try done; try (by rewrite Hch)|intros [f2 g2] s3 HB|intros s3 (f2 & g2 & HB)].
    + specialize (Hr eq_refl). unfold s2. cbn [io]. rewrite Hw1 in Hr. destruct (io s1). cbn in *. lia.
    + eapply both_trans; [exact Hboth2| | |exact HB]; by rewrite Hch.
    + exists f2, g2. eapply both_trans; [exact Hboth2| | |exact HB]; by rewrite Hch.
Qed.

(** With ends in sight and wakes for every pause, the loop empties both streams. *)
Lemma loop_complete fuel a b f g rf rb ca cb s :
  a ≠ b → sp_ok f → sp_ok g → chans (io s) !! a = Some ca → chans (io s) !! b = Some cb →
  (rf = -1 ∨ rf = 0 ∨ rf = 1) → (rb = -1 ∨ rb = 0 ∨ rb = 1) →
  (cost f (rxq ca) + cost g (rxq cb) + length (wakes (io s)) < fuel)%nat →
  timeout (base (self s)) ≠ 0 → fine rf f ca cb → fine rb g cb ca →
  (waits ca cb + waits cb ca <= length (wakes (io s)))%nat → Forall (Z.lt 0) (wakes (io s)) →
  ∃ f' g' s' ca' cb', splice_loop fuel a a b b (Some hev_socks5_task_io_yielder) f g rf rb s = Val (f', g') s' ∧
    both a b ca cb f g s f' g' s' ∧ chans (io s') !! a = Some ca' ∧ chans (io s') !! b = Some cb' ∧
    fine (-1) f' ca' cb' ∧ fine (-1) g' cb' ca'.
Proof.
  intros Hab. revert f g rf rb ca cb s. induction fuel as [|fuel IH];
    intros f g rf rb ca cb s Hf Hg Ha Hb Hrf Hrb Hfuel Hto Hff Hfg Hwt Hpos; [lia|].
  destruct (round a b ca cb f g rf rb s Hab Hf Hg Ha Hb Hrf Hrb)
    as (rf1 & f1 & rb1 & g1 & c1 & d1 & s1 & Hv & Hs1 & Hw1 & Hf1 & Hg1 & Hc1 & Hd1 & Hboth & Hrf1 & Hrb1 & Hle & Hlt & Hfine).
  destruct (Hfine Hff Hfg) as (Hff1 & Hfg1 & Hwl & Hwlt). clear Hfine.
  cbn [splice_loop]. rewrite Hv. clear Hv. fold (next_yield rf1 rb1).
  destruct (next_yield_spec rf1 rb1 Hrf1 Hrb1) as [[-> Hor]|[[-> Hor]|(-> & -> & ->)]].
  - erewrite bind_val by reflexivity. cbn [truthy Z.eqb negb]. specialize (Hlt Hor).
    replace (St (self s1) (io s1)) with s1 by (by destruct s1).
    destruct (IH f1 g1 rf1 rb1 c1 d1 s1) as (f' & g' & s' & ca' & cb' & Hv & HB & HR); try done;
      try (rewrite Hw1; lia); try (by rewrite Hw1); [by rewrite Hs1|].
    exists f', g', s', ca', cb'. split_and!; try done; try apply HR. by eapply both_trans.
  - assert (waits c1 d1 + waits d1 c1 < waits ca cb + waits cb ca)%nat as Hdec by (apply Hwlt; tauto).
    destruct (wakes (io s1)) as [|w ws] eqn:Hws; [rewrite <- Hw1 in Hwt; cbn in Hwt; lia|].
    rewrite <- Hw1 in *. apply Forall_cons in Hpos as [Hw0 Hpos].
    erewrite bind_val by (apply (gy_wake _ _ yielder_good _ w ws); [by rewrite Hs1|done|done]).
    change (truthy 0) with false. cbv iota. set (s2 := St _ _).
    assert (chans (io s2) = chans (io s1) ∧ wakes (io s2) = ws) as [Hch Hw2] by (unfold s2; cbn [io]; by destruct (io s1)).
    assert (both a b ca cb f g s f1 g1 s2) as Hboth2 by (by eapply both_io).
    cbn [length] in *.
    destruct (IH f1 g1 rf1 rb1 c1 d1 s2) as (f' & g' & s' & ca' & cb' & Hv & HB & HR); try done;
      try (by rewrite Hch); try (rewrite Hw2; lia); try (by rewrite Hw2); [cbn; by rewrite Hs1|].
    exists f', g', s', ca', cb'. split_and!; try done; try apply HR.
    eapply both_trans; [exact Hboth2| | |exact HB]; by rewrite Hch.
  - exists f1, g1, s1, c1, d1. by split_and!.
Qed.
End Loop.

(** ** The pipes *)

Section Relay.
Context {O : Type} `{IsSocks5 O}.
Implicit Types s : st O.

(** Descriptors that were open stay as they are. *)
Definition keeps s s' : Prop := ∀ d c, chans (io s) !! d = Some c → chans (io s') !! d = Some c.

Lemma new_fd_spec s :
  ∃ d s', new_fd s = Val d s' ∧ self s' = self s ∧ wakes (io s') = wakes (io s) ∧ answers (io s') = answers (io s) ∧
    polled (io s') = polled (io s) ∧ chans (io s) !! d = None ∧
    chans (io s') = <[d := Chan [] [] [] [] [] false]> (chans (io s)).
Proof using Type.
  eexists _, _. split; [reflexivity|]. pose proof (fresh_fd_closed s). by destruct s as [? []].
Qed.

Definition init_post s (f : option HevTaskIOSplicer) s' : Prop :=
  self s' = self s ∧ wakes (io s') = wakes (io s) ∧ keeps s s' ∧
  match f with
  | Some f => sp_ok f ∧ pipe f = [] ∧ chans (io s) !! fd_r f = None ∧ chans (io s) !! fd_w f = None
  | None => True
  end ∧
  (∀ x l, polled (io s) ⊆ dom (chans (io s)) → answers (io s) = x :: l → 0 <= x →
    f ≠ None ∧ polled (io s') ⊆ dom (chans (io s')) ∧ answers (io s') = l).

Lemma init_spec n s : ∃ f s', task_io_splicer_init n s = Val f s' ∧ init_post s f s'.
Proof using Type.
  unfold task_io_splicer_init, pipe2. destruct (syscall_calm s) as (r & s1 & Hv & (Hs1 & Hc1 & Hp1 & _) & Ha1).
  assert (wakes (io s1) = wakes (io s) ∧ (∀ x l, answers (io s) = x :: l → 0 <= x → r = x)) as [Hw1 Hr].
  { revert Hv. unfold syscall, on_io, zoom, fail. destruct s as [o i]. cbn [self io].
    destruct (answers i) as [|x l]; [|destruct (Z.ltb_spec x 0)]; intros [= <- <-]; split; try (by destruct i);
      try done; intros ? ? [= <- <-]; lia. }
  rewrite bind_assoc. erewrite bind_val by exact Hv. destruct (Z.ltb_spec r 0).
  { erewrite bind_val by reflexivity. cbv beta iota. destruct (Z.ltb_spec r 0); [|lia].
    exists None, s1. split; [done|]. split_and!; try done.
    - intros d c. by rewrite Hc1.
    - intros x l _ Hx Hpos. rewrite (Hr x l) in * by done. lia. }
  destruct (new_fd_spec s1) as (p & s2 & Hv2 & Hs2 & Hw2 & Ha2 & Hp2 & Hn2 & Hc2).
  destruct (new_fd_spec s2) as (q & s3 & Hv3 & Hs3 & Hw3 & Ha3 & Hp3 & Hn3 & Hc3).
  rewrite bind_assoc. erewrite bind_val by exact Hv2. rewrite bind_assoc. erewrite bind_val by exact Hv3.
  erewrite bind_val by reflexivity. cbv beta iota. change (0 <? 0) with false. cbv iota.
  assert (p ≠ q) as Hpq by (intros ->; by rewrite Hc2, lookup_insert_eq in Hn3).
  rewrite Hc1 in Hn2, Hc2. rewrite Hc2 in Hn3, Hc3. rewrite lookup_insert_ne in Hn3 by done.
  assert (∀ pl d, self s3 = self s → keeps s (St d (set_polled pl (io s3)))) as Hk.
  { intros pl d _ x c Hx. destruct s3 as [? []]. cbn in *. rewrite Hc3.
    rewrite !lookup_insert_ne by (intros ->; congruence). done. }
  assert (self s3 = self s ∧ wakes (io s3) = wakes (io s) ∧ polled (io s3) = polled (io s)) as (Hs & Hw & Hp)
    by (split_and!; congruence).
  unfold hev_task_add_fd, on_io, zoom. unfold mbind at 1, M_bind at 1. rewrite Hp.
  assert (∀ s4, self s4 = self s → wakes (io s4) = wakes (io s) → chans (io s4) = chans (io s3) → ∃ f s',
    (close p;; close q;; mret None) s4 = Val f s' ∧ f = @None HevTaskIOSplicer ∧ self s' = self s ∧ wakes (io s') = wakes (io s) ∧
    keeps s s') as Hclose.
  { intros s4 Hs4 Hw4 Hc4. eexists _, _. split; [reflexivity|]. destruct s4 as [? []]. cbn in *.
    split_and!; try done. intros x c Hx. cbn. rewrite Hc4, Hc3.
    rewrite !lookup_delete_ne, !lookup_insert_ne by (intros ->; congruence). done. }
  assert (∀ d, chans (io s) !! d = None → polled (io s) ⊆ dom (chans (io s)) → d ∉ polled (io s)) as Hfresh.
  { intros d Hd Hsub Hin%Hsub%elem_of_dom. rewrite Hd in Hin. by destruct Hin. }
  case_bool_decide as Hin1; cbn [Z.ltb Z.compare].
  { destruct (Hclose (St (self s3) (io s3))) as (f & s' & Hv' & -> & ? & ? & ?); try done.
    exists None, s'. split; [exact Hv'|]. split_and!; try done. intros x l Hsub. exfalso. by apply (Hfresh p). }
  unfold mbind at 1, M_bind at 1. cbn [io self].
  replace (polled (set_polled _ (io s3))) with ({[p]} ∪ polled (io s)) by (by destruct (io s3)).
  case_bool_decide as Hin2; cbn [Z.ltb Z.compare].
  { destruct (Hclose (St (self s3) (set_polled ({[p]} ∪ polled (io s)) (io s3)))) as (f & s' & Hv' & -> & ? & ? & ?);
      try done; try (by destruct (io s3)).
    exists None, s'. split; [exact Hv'|]. split_and!; try done. intros x l Hsub. exfalso.
    apply elem_of_union in Hin2 as [->%elem_of_singleton|Hin2]; [done|]. by apply (Hfresh q). }
  eexists _, _. split; [reflexivity|]. split_and!; try done.
  - intros x c Hx. apply (Hk ({[q]} ∪ ({[p]} ∪ polled (io s))) (self s3) Hs) in Hx. by destruct (io s3).
  - intros x l Hsub Hx Hpos. split; [done|]. destruct s3 as [? []]. cbn in *. subst. rewrite Hx in Ha1. cbn in *. split.
    + rewrite !dom_insert_L. set_solver.
    + congruence.
Qed.
Lemma fini_spec f s :
  ∃ s', task_io_splicer_fini f s = Val tt s' ∧ self s' = self s ∧
    ∀ d, d ≠ fd_r f → d ≠ fd_w f → chans (io s') !! d = chans (io s) !! d.
Proof using Type.
  eexists. split; [reflexivity|]. destruct s as [o []]. cbn. split; [done|].
  intros d H1 H2. by rewrite !lookup_delete_ne.
Qed.

(** What was relayed between two descriptors. *)
Definition relay_post (a b : Z) (ca cb : chan) s : Prop :=
  ∃ ca' cb' sa ua sb ub, chans (io s) !! a = Some ca' ∧ chans (io s) !! b = Some cb' ∧
    stream (rxq ca) = sa ++ ua ++ stream (rxq ca') ∧ tx cb' = tx cb ++ sa ∧
    stream (rxq cb) = sb ++ ub ++ stream (rxq cb') ∧ tx ca' = tx ca ++ sb.

Lemma both_post a b ca cb f g s f' g' s' :
  both a b ca cb f g s f' g' s' → pipe f = [] → pipe g = [] → relay_post a b ca cb s'.
Proof using Type.
  intros (ca' & cb' & Ha & Hb & (sa & Hsa & Hta) & (sb & Hsb & Htb) & _) Hf Hg. rewrite Hf in Hsa. rewrite Hg in Hsb.
  exists ca', cb', sa, (pipe f'), sb, (pipe g'). by split_and!.
Qed.

Lemma post_none a b ca cb s :
  chans (io s) !! a = Some ca → chans (io s) !! b = Some cb → relay_post a b ca cb s.
Proof using Type. intros Ha Hb. exists ca, cb, [], [], [], []. by rewrite !app_nil_r. Qed.

Lemma post_same a b ca cb s s' :
  relay_post a b ca cb s → chans (io s') !! a = chans (io s) !! a → chans (io s') !! b = chans (io s) !! b →
  relay_post a b ca cb s'.
Proof using Type. unfold relay_post. by intros HR -> ->. Qed.

(** The loop, with the pipes made and closed around it. *)
Lemma splice_any a b n ca cb s :
  a ≠ b → chans (io s) !! a = Some ca → chans (io s) !! b = Some cb →
  wp (hev_task_io_splice a a b b n (Some hev_socks5_task_io_yielder))
    (λ _ s', relay_post a b ca cb s') (relay_post a b ca cb) s.
Proof.
  intros Hab Ha Hb. unfold hev_task_io_splice.
  destruct (init_spec n s) as (f & s1 & Hv1 & Hs1 & Hw1 & Hk1 & Hf & _). eapply wp_bind_val; [exact Hv1|].
  pose proof (Hk1 _ _ Ha) as Ha1. pose proof (Hk1 _ _ Hb) as Hb1.
  destruct f as [f|]; [|by apply wp_ret, post_none]. destruct Hf as (Hokf & Hpf & Hrf & Hwf).
  assert (∀ d c, chans (io s) !! d = Some c → d ≠ fd_r f ∧ d ≠ fd_w f) as Hnf by (intros d c Hd; split; congruence).
  destruct (Hnf _ _ Ha), (Hnf _ _ Hb).
  destruct (init_spec n s1) as (g & s2 & Hv2 & Hs2 & Hw2 & Hk2 & Hg & _). eapply wp_bind_val; [exact Hv2|].
  pose proof (Hk2 _ _ Ha1) as Ha2. pose proof (Hk2 _ _ Hb1) as Hb2.
  destruct g as [g|].
  2: { destruct (fini_spec f s2) as (s3 & Hv3 & _ & Hc3). eapply wp_val; [exact Hv3|].
       apply post_none; by rewrite Hc3. }
  destruct Hg as (Hokg & Hpg & Hrg & Hwg).
  assert (∀ d c, chans (io s1) !! d = Some c → d ≠ fd_r g ∧ d ≠ fd_w g) as Hng by (intros d c Hd; split; congruence).
  destruct (Hng _ _ Ha1), (Hng _ _ Hb1).
  eapply wp_bind_val; [reflexivity|]. unfold splice_fuel. rewrite Ha2, Hb2. apply wp_bind.
  eapply wp_mono; [apply (loop_any _ a b f g 1 1 ca cb s2); try done; try (by right; right)
    |intros [f' g'] s3 HB|intros s3 (f' & g' & HB)].
  - unfold cost. rewrite Hpf, Hpg. cbn [length]. lia.
  - pose proof (both_post _ _ _ _ _ _ _ _ _ _ HB Hpf Hpg) as HP.
    destruct HB as (_ & _ & _ & _ & _ & _ & [Hfr Hfw] & [Hgr Hgw]).
    destruct (fini_spec g' s3) as (s4 & Hv4 & _ & Hc4). eapply wp_bind_val; [exact Hv4|].
    destruct (fini_spec f' s4) as (s5 & Hv5 & _ & Hc5). eapply wp_val; [exact Hv5|].
    apply (post_same _ _ _ _ s3); [done|rewrite Hc5, Hc4; congruence|rewrite Hc5, Hc4; congruence].
  - by eapply both_post.
Qed.

(** The part of the state that the splice is called in. *)
Lemma tcp_splice_start d s :
  0 <= fd (base (self s)) →
  ∃ s', hev_socks5_tcp_splice d s = (hev_task_io_splice (fd (base (self s))) (fd (base (self s))) d d 8192
      (Some hev_socks5_task_io_yielder);; mret 0) s' ∧
    self s' = self s ∧ chans (io s') = chans (io s) ∧ polled (io s') = {[d]} ∪ polled (io s) ∧
    wakes (io s') = wakes (io s) ∧ answers (io s') = answers (io s).
Proof.
  intros Hfd. unfold hev_socks5_tcp_splice, hev_socks5_tcp_splicer. erewrite bind_val by reflexivity. cbv zeta.
  destruct (Z.ltb_spec (fd (base (self s))) 0); [lia|].
  destruct (register_spec d (hev_task_io_splice (fd (base (self s))) (fd (base (self s))) d d 8192
    (Some hev_socks5_task_io_yielder);; mret 0) s) as (s' & Hv & ? & _ & _ & ? & ? & ? & ?).
  exists s'. by split_and!.
Qed.

(** C13: the relay never invents, loses or reorders bytes: in every environment
    (pauses, errors, ends, partial reads and writes and full pipes in any order) it
    neither misbehaves nor runs out of its rounds, and at any point where it stops,
    also when it is left waiting for ever, the bytes that went out on each side are
    those that were read from the other side, in their order, without the ones that
    the pipe still holds. *)
Theorem relay_prefix d ca cb s :
  0 <= fd (base (self s)) → fd (base (self s)) ≠ d →
  chans (io s) !! fd (base (self s)) = Some ca → chans (io s) !! d = Some cb →
  wp (hev_socks5_tcp_splice d) (λ r s', r = 0 ∧ relay_post (fd (base (self s))) d ca cb s')
    (relay_post (fd (base (self s))) d ca cb) s.
Proof.
  intros H0 Hd Ha Hb. destruct (tcp_splice_start d s H0) as (s1 & Hv & Hs & Hc & _). unfold wp. rewrite Hv.
  apply wp_bind. rewrite <- Hc in Ha, Hb.
  eapply wp_mono; [by apply splice_any|intros [] s2 HP; by apply wp_ret|done].
Qed.

(** C14: the relay completes: when both sides end, nothing fails and every pause is
    over in time, it ends by itself, all bytes of each side have been sent to the
    other, exactly once and in order, and both sides were told that no more comes. *)
Theorem relay_complete d ca cb x y l s :
  0 <= fd (base (self s)) → fd (base (self s)) ≠ d →
  chans (io s) !! fd (base (self s)) = Some ca → chans (io s) !! d = Some cb →
  rx_clean (rxq ca) → rx_clean (rxq cb) → tx_clean (txq ca) → tx_clean (txq cb) → ended (rxq ca) → ended (rxq cb) →
  timeout (base (self s)) ≠ 0 → (waits ca cb + waits cb ca <= length (wakes (io s)))%nat → Forall (Z.lt 0) (wakes (io s)) →
  answers (io s) = x :: y :: l → 0 <= x → 0 <= y → polled (io s) ⊆ dom (chans (io s)) →
  ∃ s' ca' cb', hev_socks5_tcp_splice d s = Val 0 s' ∧
    chans (io s') !! fd (base (self s)) = Some ca' ∧ chans (io s') !! d = Some cb' ∧
    tx cb' = tx cb ++ stream (rxq ca) ∧ tx ca' = tx ca ++ stream (rxq cb) ∧ shut ca' = true ∧ shut cb' = true.
Proof.
  intros H0 Hab Ha Hb Hra Hrb Hta Htb Hea Heb Hto Hwt Hpos Hans Hx Hy Hsub. set (a := fd (base (self s))) in *.
  destruct (tcp_splice_start d s H0) as (s0 & Hv & Hs0 & Hc0 & Hp0 & Hw0 & Ha0). fold a in Hv. rewrite Hv.
  assert (polled (io s0) ⊆ dom (chans (io s0))) as Hsub0.
  { rewrite Hp0, Hc0. assert (d ∈ dom (chans (io s))) by (apply elem_of_dom; by exists cb). set_solver. }
  rewrite <- Ha0 in Hans. rewrite <- Hc0 in Ha, Hb. rewrite <- Hw0 in Hwt, Hpos. rewrite <- Hs0 in Hto.
  clear Hv Hsub Hp0 Hc0 Hw0 Ha0 Hs0. clearbody a. unfold hev_task_io_splice.
  destruct (init_spec 8192 s0) as (f & s1 & Hv1 & Hs1 & Hw1 & Hk1 & Hf & Hok1).
  destruct (Hok1 _ _ Hsub0 Hans Hx) as (Hne1 & Hsub1 & Hans1).
  destruct f as [f|]; [|done]. destruct Hf as (Hokf & Hpf & Hrf & Hwf).
  pose proof (Hk1 _ _ Ha) as Ha1. pose proof (Hk1 _ _ Hb) as Hb1.
  destruct (init_spec 8192 s1) as (g & s2 & Hv2 & Hs2 & Hw2 & Hk2 & Hg & Hok2).
  destruct (Hok2 _ _ Hsub1 Hans1 Hy) as (Hne2 & _ & _).
  destruct g as [g|]; [|done]. destruct Hg as (Hokg & Hpg & Hrg & Hwg).
  pose proof (Hk2 _ _ Ha1) as Ha2. pose proof (Hk2 _ _ Hb1) as Hb2.
  rewrite bind_assoc. erewrite bind_val by exact Hv1. cbv beta iota. rewrite bind_assoc. erewrite bind_val by exact Hv2.
  cbv beta iota. rewrite bind_assoc. erewrite bind_val by reflexivity. unfold splice_fuel. rewrite Ha2, Hb2.
  rewrite bind_assoc.
  destruct (loop_complete (S (2 * length (stream (rxq ca)) + 2 * length (stream (rxq cb)) + length (wakes (io s2))))
    a d f g 1 1 ca cb s2)
    as (f' & g' & s3 & ca' & cb' & Hv3 & HB & Ha3 & Hb3 & (_ & _ & _ & Hendf) & (_ & _ & _ & Hendg)); try done;
    try (by right; right); try (by split_and!); try (by rewrite Hw2, Hw1).
  { unfold cost. rewrite Hpf, Hpg. cbn [length]. lia. }
  { by rewrite Hs2, Hs1. }
  erewrite bind_val by exact Hv3. cbv beta iota.
  destruct HB as (ca1 & cb1 & Ha4 & Hb4 & (sa & Hsa & Htxa) & (sb & Hsb & Htxb) & [Hfr Hfw] & [Hgr Hgw]).
  rewrite Ha4 in Ha3. rewrite Hb4 in Hb3. simplify_eq.
  destruct (Hendf eq_refl) as (Hpf' & Hsf' & Hshf), (Hendg eq_refl) as (Hpg' & Hsg' & Hshg).
  rewrite Hpf, Hpf', Hsf' in Hsa. rewrite Hpg, Hpg', Hsg' in Hsb. cbn [app] in *. rewrite app_nil_r in Hsa, Hsb. subst sa sb.
  rewrite bind_assoc. destruct (fini_spec g' s3) as (s4 & Hv4 & _ & Hc4). erewrite bind_val by exact Hv4.
  destruct (fini_spec f' s4) as (s5 & Hv5 & _ & Hc5). erewrite bind_val by exact Hv5.
  assert (∀ c d', (d' = a ∨ d' = d) → chans (io s3) !! d' = Some c → chans (io s5) !! d' = Some c) as Hfin.
  { intros c d' Hd' Hcd. assert (∃ c0 c1, chans (io s0) !! d' = Some c0 ∧ chans (io s1) !! d' = Some c1) as (c0 & c1 & ? & ?)
      by (destruct Hd' as [->| ->]; eauto).
    rewrite Hc5, Hc4; congruence. }
  exists s5, ca', cb'. split_and!; try done; apply Hfin; auto.
Qed.
End Relay.

(** ** A concrete relay *)
Definition relay_a : chan := Chan [RxData 1 [2; 3]; RxAgain; RxData 4 []; RxEof] [] [TxAccept 0; TxAgain] [] [] false.
Definition relay_b : chan := Chan [RxAgain; RxData 7 [8]; RxEof] [] [TxAgain] [9] [] false.
Definition relay_state : st HevSocks5 :=
  St (Socks5 3 (-1) HEV_SOCKS5_TYPE_TCP false 2)
    (World 0 [1; 1; 1; 1] {[3 := relay_a; 4 := relay_b]} [] [0; 0] [] [] ∅ {[3]} (config idle_world)).

Lemma relay_prefix_witness :
  (0 <= fd (base (self relay_state)) ∧ chans (io relay_state) !! 3 = Some relay_a ∧ chans (io relay_state) !! 4 = Some relay_b) ∧
  wp (hev_socks5_tcp_splice 4) (λ r s', r = 0 ∧ relay_post 3 4 relay_a relay_b s') (relay_post 3 4 relay_a relay_b) relay_state.
Proof.
  split; [split_and!; [done|reflexivity|reflexivity]|].
  pose proof (relay_prefix (O := HevSocks5) 4 relay_a relay_b relay_state) as Hr.
  change (fd (base (self relay_state))) with 3 in Hr.
  apply Hr; [lia|lia|reflexivity|reflexivity].
Defined.

Lemma relay_complete_witness :
  (ended (rxq relay_a) ∧ ended (rxq relay_b) ∧ (waits relay_a relay_b + waits relay_b relay_a <= 4)%nat) ∧
  ∃ s' ca' cb', hev_socks5_tcp_splice 4 relay_state = Val 0 s' ∧ chans (io s') !! 3 = Some ca' ∧ chans (io s') !! 4 = Some cb' ∧
    tx cb' = [9; 1; 2; 3; 4] ∧ tx ca' = [7; 8] ∧ shut ca' = true ∧ shut cb' = true.
Proof.
  assert (ended (rxq relay_a)) as Ha by (unfold ended, relay_a; cbn; set_solver).
  assert (ended (rxq relay_b)) as Hb by (unfold ended, relay_b; cbn; set_solver).
  assert (waits relay_a relay_b + waits relay_b relay_a <= 4)%nat as Hw by (vm_compute; lia).
  split; [by split_and!|].
  pose proof (relay_complete (O := HevSocks5) 4 relay_a relay_b 0 0 [] relay_state) as Hr.
  change (fd (base (self relay_state))) with 3 in Hr. change (stream (rxq relay_a)) with [1; 2; 3; 4] in Hr.
  change (stream (rxq relay_b)) with [7; 8] in Hr. change (tx relay_a) with (@nil Z) in Hr. change (tx relay_b) with [9] in Hr.
  apply Hr; try exact Ha; try exact Hb; try exact Hw; try reflexivity; try lia; try (by repeat constructor).
  change (polled (io relay_state)) with ({[3]} : gset Z). intros x ->%elem_of_singleton. apply elem_of_dom. by exists relay_a.
Defined.
