(* ===== verification/VectorSpec.v ===== *)
(** * VectorSpec: reading into a vector, and reads that are not retried

    [recvmsg] is [recv] followed by storing what was read, for every environment
    and every yielder that does not look at the memory. *)
From S2P Require Import Prelude Bytes TaskIO TaskIOSpec.

(** What storing into a vector does to the memory. *)
Fixpoint put_iov (iov : list ((Z * Z) * Z)) (bs : bytes) (m : gmap Z bytes) : option (gmap Z bytes) :=
  match iov with
  | [] => Some m
  | (p, n) :: iov =>
      m ← (if zlen bs =? 0 then Some m else
           b ← m !! p.1;
           let d := take (Z.to_nat n) bs in
           if (0 <=? p.2) && (p.2 + zlen d <=? zlen b) then Some (<[p.1 := overwrite b p.2 d]> m) else None);
      put_iov iov (drop (Z.to_nat n) bs) m
  end.

Lemma some_bind {A B} (x : A) (f : A → option B) : (Some x ≫= f) = f x.
Proof. done. Qed.

Section Vectors.
Context {O : Type}.
Implicit Types s : st O.

Definition with_blocks (m : gmap Z bytes) s : st O := St (self s) (set_blocks m (io s)).

Lemma with_blocks_id s : with_blocks (blocks (io s)) s = s.
Proof. by destruct s as [? []]. Qed.

Lemma with_blocks_twice m m' s : with_blocks m (with_blocks m' s) = with_blocks m s.
Proof. by destruct s as [? []]. Qed.

Lemma blocks_with m s : blocks (io (with_blocks m s)) = m.
Proof. by destruct s as [? []]. Qed.

Lemma put_iov_store iov bs m m' s :
  put_iov iov bs m = Some m' → store_iov iov bs (with_blocks m s) = Val tt (with_blocks m' s).
Proof.
  revert bs m. induction iov as [|[p n] iov IH]; intros bs m; cbn [put_iov store_iov]; [by intros [= ->]|].
  intros Hp. destruct (zlen bs =? 0).
  - erewrite bind_val by reflexivity. by apply IH.
  - destruct (m !! p.1) as [b|] eqn:Hb; [|done]. rewrite some_bind in Hp.
    destruct ((0 <=? p.2) && _) eqn:Hin; [|done].
    assert (store p (take (Z.to_nat n) bs) (with_blocks m s) =
      Val tt (with_blocks (<[p.1:=overwrite b p.2 (take (Z.to_nat n) bs)]> m) s)) as Hs.
    { unfold store, on_io, zoom. rewrite blocks_with, Hb. cbn [fst snd] in *. rewrite Hin. by destruct s as [? []]. }
    erewrite bind_val by exact Hs. by apply IH.
Qed.

Lemma overwrite_app (l : bytes) off d e :
  0 <= off → off + zlen d + zlen e <= zlen l → overwrite (overwrite l off d) (off + zlen d) e = overwrite l off (d ++ e).
Proof.
  intros Ho Hl. apply zget_ext.
  - rewrite !zlen_overwrite; rewrite ?zlen_app, ?zlen_overwrite; pose proof (zlen_nonneg d); pose proof (zlen_nonneg e); lia.
  - intros i _. pose proof (zlen_nonneg d). pose proof (zlen_nonneg e).
    rewrite !zget_overwrite; rewrite ?zlen_overwrite, ?zlen_app; try lia. rewrite zget_app.
    repeat match goal with |- context [(?a <=? ?b)] => destruct (Z.leb_spec a b)
      | |- context [(?a <? ?b)] => destruct (Z.ltb_spec a b) end; cbn [andb]; try lia; try done; f_equal; lia.
Qed.

Lemma put_iov_nil iov m : put_iov iov [] m = Some m.
Proof. induction iov as [|[p n] iov IH]; [done|]. cbn [put_iov]. rewrite drop_nil. exact IH. Qed.

(** Storing in two steps. *)
Lemma put_iov_app iov d e m m' :
  Forall (λ v, 0 <= v.2) iov → put_iov iov (d ++ e) m = Some m' →
  ∃ m1, put_iov iov d m = Some m1 ∧ put_iov (radvance iov (zlen d)) e m1 = Some m'.
Proof.
  intros Hiov. revert d m. induction Hiov as [|[p n] iov Hn Hiov IH]; intros d m Hp; [by exists m|].
  cbn [put_iov radvance snd] in *. pose proof (zlen_nonneg d). pose proof (zlen_nonneg e).
  destruct (Z.eqb_spec (zlen (d ++ e)) 0) as [Hz|Hz].
  { rewrite zlen_app in Hz. assert (d = []) as -> by (destruct d; [done|rewrite zlen_cons in Hz; pose proof (zlen_nonneg d); lia]).
    assert (e = []) as -> by (destruct e; [done|rewrite zlen_cons in Hz; pose proof (zlen_nonneg e); lia]).
    rewrite some_bind in Hp. cbn [app] in Hp. rewrite drop_nil, put_iov_nil in Hp.
    exists m. split; [change (zlen [] =? 0) with true; cbv iota; rewrite some_bind, drop_nil; apply put_iov_nil|].
    injection Hp as <-. apply put_iov_nil. }
  destruct (m !! p.1) as [b|] eqn:Hb; [|done]. rewrite ?some_bind in *.
  destruct ((0 <=? p.2) && _) eqn:Hin; [|done]. apply andb_prop in Hin as [Hp0 Hpb].
  apply Z.leb_le in Hp0, Hpb. rewrite ?some_bind in *.
  destruct (Z.ltb_spec (zlen d) n) as [Hlt|Hge].
  - (* the first segment is not full *)
    rewrite take_app_ge in * by (unfold zlen in *; lia). rewrite drop_app_ge in Hp by (unfold zlen in *; lia).
    rewrite zlen_app in Hpb.
    set (e1 := take (Z.to_nat n - length d) e) in *.
    assert (drop (Z.to_nat n) d = []) as Hdd by (apply drop_ge; unfold zlen in *; lia).
    assert (take (Z.to_nat n) d = d) as Htd by (apply take_ge; unfold zlen in *; lia).
    rewrite Hdd, Htd. destruct (Z.eqb_spec (zlen d) 0) as [Hd0|Hd0].
    + assert (d = []) as -> by (destruct d; [done|rewrite zlen_cons in Hd0; pose proof (zlen_nonneg d); lia]).
      exists m. split; [by cbn; rewrite put_iov_nil|]. cbn [put_iov fst snd]. rewrite app_nil_l in *.
      destruct (Z.eqb_spec (zlen e) 0); [lia|]. rewrite Hb. rewrite ?some_bind. change (zlen []) with 0 in *.
      rewrite Z.add_0_r.
      change (length []) with 0%nat in *. replace (Z.to_nat (n - 0)) with (Z.to_nat n - 0)%nat by lia. fold e1.
      destruct (Z.leb_spec 0 p.2), (Z.leb_spec (p.2 + zlen e1) (zlen b)); try lia. exact Hp.
    + destruct (Z.leb_spec 0 p.2), (Z.leb_spec (p.2 + zlen d) (zlen b)); pose proof (zlen_nonneg e1); try lia.
      cbn [andb]. rewrite ?some_bind. eexists. split; [by rewrite put_iov_nil|]. cbn [put_iov fst snd].
      replace (Z.to_nat (n - zlen d)) with (Z.to_nat n - length d)%nat by (unfold zlen; lia). fold e1.
      destruct (Z.eqb_spec (zlen e) 0) as [He0|He0].
      * assert (e = []) as -> by (destruct e; [done|rewrite zlen_cons in He0; pose proof (zlen_nonneg e); lia]).
        unfold e1 in Hp. rewrite take_nil, drop_nil, app_nil_r, put_iov_nil in Hp. rewrite ?some_bind.
        by rewrite drop_nil, put_iov_nil.
      * rewrite lookup_insert_eq. rewrite ?some_bind.
        rewrite zlen_overwrite by lia.
        destruct (Z.leb_spec 0 (p.2 + zlen d)), (Z.leb_spec (p.2 + zlen d + zlen e1) (zlen b)); try lia.
        cbn [andb]. rewrite ?some_bind. rewrite insert_insert_eq, overwrite_app by lia. exact Hp.
  - (* it is *)
    rewrite take_app_le in * by (unfold zlen in *; lia). rewrite drop_app_le in Hp by (unfold zlen in *; lia).
    destruct (IH _ _ Hp) as (m1 & H1 & H2). rewrite zlen_drop in H2 by lia.
    destruct (Z.eqb_spec (zlen d) 0) as [Hd0|Hd0].
    + assert (d = []) as -> by (destruct d; [done|rewrite zlen_cons in Hd0; pose proof (zlen_nonneg d); lia]).
      exists m1. split; [|exact H2]. rewrite take_nil, drop_nil in *. change (length []) with 0%nat in *.
      rewrite overwrite_nil in H1. rewrite insert_id in H1 by done. exact H1.
    + destruct (Z.leb_spec 0 p.2), (Z.leb_spec (p.2 + zlen (take (Z.to_nat n) d)) (zlen b)); try lia.
      exists m1. split; [exact H1|exact H2].
Qed.

(** Waiting does not look at the memory. *)
Definition on_states {A} (f : st O → st O) (x : outcome (st O) A) : outcome (st O) A :=
  match x with Val a s => Val a (f s) | Blocked s => Blocked (f s) | Stuck => Stuck end.

Definition blind {A} (m : M (st O) A) : Prop :=
  ∀ b s, m (with_blocks b s) = on_states (with_blocks b) (m s).

Lemma blind_bind {A B} (m : M (st O) A) (f : A → M (st O) B) : blind m → (∀ a, blind (f a)) → blind (m ≫= f).
Proof.
  intros Hm Hf b s. unfold mbind, M_bind. rewrite Hm. destruct (m s) as [a s'|s'|]; [|done|done].
  cbn [on_states]. apply Hf.
Qed.

Lemma blind_ret {A} (a : A) : blind (mret a).
Proof. done. Qed.

Lemma blind_recv fd n : blind (recv (O := O) fd n).
Proof.
  intros b s. unfold recv, on_chan, on_io, zoom. destruct s as [o []]. cbn. destruct (_ !! fd) as [c|]; [|done].
  by destruct (rxq c) as [|[]].
Qed.

Lemma blind_errno : blind (get_errno (O := O)).
Proof. intros b s. by destruct s as [? []]. Qed.

Lemma blind_wait (y : HevTaskYieldType → M (st O) Z) : (∀ t, blind (y t)) → blind (wait_io (Some y)).
Proof. intros Hy. apply blind_bind; [apply Hy|intros; apply blind_ret]. Qed.

Lemma radvance_nonneg iov n : 0 <= n → Forall (λ v, 0 <= v.2) iov → Forall (λ v : (Z * Z) * Z, 0 <= v.2) (radvance iov n).
Proof.
  intros Hn H. revert n Hn. induction H as [|[p k] iov Hk H IH]; intros n Hn; [constructor|]. cbn [radvance snd] in *.
  destruct (Z.ltb_spec n k); [constructor; [cbn; lia|done]|]. apply IH. lia.
Qed.

Lemma rtotal_radvance iov n : 0 <= n <= rtotal iov → rtotal (radvance iov n) = rtotal iov - n.
Proof.
  revert n. induction iov as [|[p k] iov IH]; intros n Hn; [cbn in *; lia|]. cbn [radvance].
  change (rtotal ((p, k) :: iov)) with (k + rtotal iov) in *. destruct (Z.ltb_spec n k).
  - change (rtotal ((p.1, p.2 + n, k - n) :: iov)) with (k - n + rtotal iov). lia.
  - rewrite IH by lia. lia.
Qed.

Lemma recv_len fd k s n d s' :
  recv fd k s = Val (n, d) s' → 0 <= k → (n = zlen d ∨ n = -1 ∧ d = []) ∧ zlen d <= k.
Proof.
  intros Hr Hk. unfold recv, on_chan, on_io, zoom in Hr. destruct (chans (io s) !! fd) as [c|]; [|by injection Hr as <- <- _; auto].
  destruct (rxq c) as [|[] q]; injection Hr as <- <- _; try (split; [by auto|done]).
  split; [by left|]. unfold zlen. rewrite length_take. lia.
Qed.

Lemma recv_loop_extends y fd fuel len flags size buf s r out s' :
  recv_loop fuel fd len flags (Some y) size buf s = Val (r, out) s' → ∃ bs, out = buf ++ bs.
Proof.
  revert size buf s. induction fuel as [|fuel IH]; intros size buf s; [done|]. cbn [recv_loop].
  unfold mbind at 1, M_bind at 1. destruct (recv fd (len - size) s) as [[n d] s1|s1|]; [|done|done].
  erewrite bind_val by reflexivity. destruct ((n <? 0) && _ && _).
  - unfold mbind, M_bind. destruct (wait_io (Some y) s1) as [[] s2|s2|]; [|by apply IH|done|done].
    intros [= _ <- _]. exists []. by rewrite app_nil_r.
  - destruct (negb _); [intros [= _ <- _]; by eexists|]. destruct (n <=? 0).
    { intros [= _ <- _]. exists []. by rewrite app_nil_r. }
    destruct (size + n <? len); [|intros [= _ <- _]; by eexists].
    intros (bs & ->)%IH. exists (d ++ bs). by rewrite app_assoc.
Qed.

(** Reading into a vector is reading, and storing what was read. *)
Lemma recvmsg_loop_recv y fd fuel iov len flags size buf bs m m' r s s' :
  (∀ t, blind (y t)) → Forall (λ v, 0 <= v.2) iov → rtotal iov = len - size → 0 <= size <= len →
  recv_loop fuel fd len flags (Some y) size buf s = Val (r, buf ++ bs) s' → put_iov iov bs m = Some m' →
  recvmsg_loop fuel fd iov len flags (Some y) size (with_blocks m s) = Val r (with_blocks m' s').
Proof.
  intros Hy. revert iov size buf bs m s.
  induction fuel as [|fuel IH]; intros iov size buf bs m s Hiov Htot Hsz Hr Hp; [done|].
  cbn [recv_loop recvmsg_loop] in *. unfold recvmsg. rewrite Htot.
  unfold mbind at 1, M_bind at 1 in Hr.
  pose proof (blind_recv fd (len - size) m s) as Hb. destruct (recv fd (len - size) s) as [[n d] s1|s1|] eqn:E1; [|done|done].
  destruct (recv_len _ _ _ _ _ _ E1 ltac:(lia)) as [Hn Hd].
  cbn [on_states] in Hb. rewrite bind_assoc. erewrite bind_val by exact Hb. cbv beta iota. rewrite bind_assoc.
  assert (∀ m0 s0, store_iov iov [] (with_blocks m0 s0) = Val tt (with_blocks m0 s0)) as Hnil.
  { intros. by apply put_iov_store, put_iov_nil. }
  assert (∀ b, buf = buf ++ b → b = []) as Hbuf.
  { intros b Hb'. rewrite <- (app_nil_r buf) in Hb' at 1. by apply app_inv_head in Hb'. }
  assert (errno (io (with_blocks m s1)) = errno (io s1)) as Her by (by destruct s1 as [? []]).
  erewrite bind_val in Hr by reflexivity.
  destruct ((n <? 0) && (errno (io s1) =? EAGAIN) && negb (flag flags MSG_DONTWAIT)) eqn:Hag.
  - assert (d = []) as -> by (destruct Hn as [->|[_ ->]]; [|done]; pose proof (zlen_nonneg d); destruct (Z.ltb_spec (zlen d) 0); [lia|done]).
    erewrite bind_val by apply Hnil. rewrite bind_ret. erewrite bind_val by reflexivity. rewrite Her, Hag.
    pose proof (blind_wait y Hy m s1) as Hw. unfold mbind, M_bind in Hr |- *. rewrite Hw.
    destruct (wait_io (Some y) s1) as [[] s2|s2|]; cbn [on_states]; [|by eapply IH|done|done].
    injection Hr as <- Hbs <-. apply Hbuf in Hbs as ->. rewrite put_iov_nil in Hp. by injection Hp as <-.
  - destruct (negb (flag flags MSG_WAITALL)) eqn:Hwa.
    + injection Hr as <- Hbs <-. apply app_inv_head in Hbs as <-.
      erewrite bind_val by (by apply put_iov_store). rewrite bind_ret. erewrite bind_val by reflexivity.
      assert (errno (io (with_blocks m' s1)) = errno (io s1)) as -> by (by destruct s1 as [? []]). rewrite Hag, ?Hwa. done.
    + destruct (Z.leb_spec n 0).
      * injection Hr as <- Hbs <-. apply Hbuf in Hbs as ->. rewrite put_iov_nil in Hp. injection Hp as <-.
        assert (d = []) as ->.
        { destruct Hn as [->|[_ ->]]; [|done]. destruct d; [done|]. rewrite zlen_cons in *. pose proof (zlen_nonneg d). lia. }
        erewrite bind_val by apply Hnil. rewrite bind_ret. erewrite bind_val by reflexivity. rewrite Her, Hag, ?Hwa.
        destruct (Z.leb_spec n 0); [done|lia].
      * destruct Hn as [->|[-> _]]; [|lia].
        assert (∃ e, bs = d ++ e) as (e & ->).
        { destruct (size + zlen d <? len).
          - apply recv_loop_extends in Hr as (e & He). rewrite <- app_assoc in He. apply app_inv_head in He as ->. by exists e.
          - injection Hr as _ He _. apply app_inv_head in He as <-. exists []. by rewrite app_nil_r. }
        destruct (put_iov_app _ _ _ _ _ Hiov Hp) as (m1 & Hp1 & Hp2).
        erewrite bind_val by (by apply put_iov_store). rewrite bind_ret. erewrite bind_val by reflexivity.
        assert (errno (io (with_blocks m1 s1)) = errno (io s1)) as -> by (by destruct s1 as [? []]). rewrite Hag, ?Hwa.
        destruct (Z.leb_spec (zlen d) 0); [lia|]. cbv zeta in *.
        destruct (Z.ltb_spec (size + zlen d) len).
        -- apply (IH _ _ (buf ++ d) e); [apply radvance_nonneg; [lia|done]|rewrite rtotal_radvance; lia|lia| |done].
           by rewrite <- app_assoc.
        -- injection Hr as <- He <-. apply app_inv_head in He. rewrite <- (app_nil_r d) in He at 1.
           apply app_inv_head in He as <-. rewrite put_iov_nil in Hp2. by injection Hp2 as <-.
Qed.

Lemma recvmsg_recv y fd iov flags bs m' r s s' :
  (∀ t, blind (y t)) → Forall (λ v, 0 <= v.2) iov →
  hev_task_io_socket_recv fd (rtotal iov) flags (Some y) s = Val (r, bs) s' →
  put_iov iov bs (blocks (io s)) = Some m' →
  hev_task_io_socket_recvmsg fd iov flags (Some y) s = Val r (with_blocks m' s').
Proof.
  intros Hy Hiov Hr Hp. unfold hev_task_io_socket_recv, hev_task_io_socket_recvmsg, io_fuel in *.
  erewrite bind_val in Hr by reflexivity. erewrite bind_val by reflexivity. rewrite <- (with_blocks_id s) at 2.
  assert (0 <= rtotal iov) by (clear -Hiov; unfold rtotal; induction Hiov as [|[p k] iov]; cbn in *; lia).
  eapply (recvmsg_loop_recv _ _ _ _ _ _ _ []); try done; lia.
Qed.

(** A read that is not retried brings something, unless it may not wait. *)
Lemma recv_loop_some P y fd flags len fuel s c :
  good_yielder P y → flag flags MSG_WAITALL = false →
  P (self s) → chans (io s) !! fd = Some c → 0 < len →
  rx_clean (rxq c) → (rx_waits (rxq c) <= length (wakes (io s)))%nat → Forall (Z.lt 0) (wakes (io s)) →
  0 < zlen (stream (rxq c)) → (length (rxq c) + length (wakes (io s)) < fuel)%nat →
  ∃ r b s' q, recv_loop fuel fd len flags (Some y) 0 [] s = Val (r, b) s' ∧
    (r = zlen b ∧ 0 < r <= len ∨ flag flags MSG_DONTWAIT = true ∧ r = -1 ∧ b = [] ∧ errno (io s') = EAGAIN) ∧
    evolve fd (set_rxq q c) s s' ∧ stream (rxq c) = b ++ stream q ∧
    rx_clean q ∧ (rx_waits q + length (wakes (io s)) <= rx_waits (rxq c) + length (wakes (io s')))%nat ∧
    Forall (Z.lt 0) (wakes (io s')).
Proof.
  intros Hy Hfl. revert s c. induction fuel as [|fuel IH]; intros s c Hp Hc Hl Hcl Hwt Hpos Hn Hf; [lia|].
  cbn [recv_loop]. rewrite Z.sub_0_r, Hfl. unfold recv, on_chan, on_io, zoom, mbind at 1, M_bind at 1. rewrite Hc.
  destruct (rxq c) as [|[b bs| | |e] q] eqn:Hq; cbn [stream] in Hn.
  - change (zlen []) with 0 in Hn. lia.
  - set (d := take (Z.to_nat len) (b :: bs)). set (q1 := match drop _ _ with [] => q | _ :: _ => _ end).
    assert (0 < zlen d <= len) as Hd by (unfold d, zlen; rewrite length_take; cbn [length]; lia).
    set (s1 := St (self s) _). assert (evolve fd (set_rxq q1 c) s s1) as He.
    { exists (wakes (io s)), (errno (io s)). by destruct s as [o []]. }
    assert (wakes (io s1) = wakes (io s)) as Hw by (by destruct (io s)).
    erewrite bind_val by reflexivity. clearbody s1.
    replace ((zlen d <? 0) && _) with false by (destruct (Z.ltb_spec (zlen d) 0); [lia|done]). cbn [negb andb].
    exists (zlen d), d, s1, q1. split_and!; [done|left; lia|done| | | |by rewrite Hw].
    + cbn [stream]. unfold q1, d. change (b :: bs ++ stream q) with ((b :: bs) ++ stream q).
      rewrite <- (take_drop (Z.to_nat len) (b :: bs)) at 1. rewrite <- app_assoc. f_equal. by destruct (drop _ (b :: bs)).
    + apply Forall_cons in Hcl as [_ Hcl]. unfold q1. destruct (drop _ (b :: bs)); [done|by constructor].
    + rewrite Hw. unfold q1. cbn [rx_waits]. by destruct (drop _ (b :: bs)).
  - cbn [rx_waits] in *. destruct (wakes (io s)) as [|w ws] eqn:Hws; [cbn in Hwt; lia|].
    unfold fail. set (s1 := St (self s) _). assert (evolve fd (set_rxq q c) s s1) as He.
    { exists (wakes (io s)), EAGAIN. by destruct s as [o []]. }
    assert (wakes (io s1) = w :: ws) as Hw by (rewrite <- Hws; by destruct (io s)).
    assert (errno (io s1) = EAGAIN) as Her by (by destruct (io s)).
    assert (P (self s1)) as Hp1 by done. pose proof (evolve_chan _ _ _ _ He) as Hc1. clearbody s1.
    apply Forall_cons in Hcl as [_ Hcl].
    erewrite bind_val by reflexivity. rewrite Her. destruct (flag flags MSG_DONTWAIT) eqn:Hdw.
    { exists (-1), [], s1, q. split_and!; try done; [by right|rewrite Hw; cbn in *; lia|by rewrite Hw]. }
    change ((-1 <? 0) && _ && _) with true. cbv iota. apply Forall_cons in Hpos as [Hw0 Hpos].
    destruct (wait_io_wake _ _ Hy _ _ _ _ _ Hp1 Hc1 Hw Hw0) as (s2 & H2 & He2 & Hw2).
    erewrite bind_val by exact H2. cbv iota.
    assert (evolve fd (set_rxq q c) s s2) as He02 by (by eapply evolve_trans).
    destruct (IH s2 (set_rxq q c)) as (r & b & s' & q' & Hr & Hb & He' & Hst & Hcl' & Hw' & Hpos'); try done;
      cbn [rxq set_rxq].
    + by rewrite (evolve_self _ _ _ _ He02).
    + by eapply evolve_chan.
    + rewrite Hw2. cbn in Hwt. lia.
    + by rewrite Hw2.
    + rewrite Hw2. cbn in Hf. lia.
    + cbn [rxq set_rxq] in *. rewrite Hw2 in Hw'. exists r, b, s', q'. split_and!; try done.
      * eapply evolve_trans; [exact He02|exact He'].
      * cbn [length]. lia.
  - change (zlen []) with 0 in Hn. lia.
  - apply Forall_cons in Hcl as [[] _].
Qed.

Lemma recv_some P y fd flags len s c :
  good_yielder P y → flag flags MSG_WAITALL = false → P (self s) → ready fd c s → 0 < len → 0 < zlen (stream (rxq c)) →
  ∃ r b s' q, hev_task_io_socket_recv fd len flags (Some y) s = Val (r, b) s' ∧
    (r = zlen b ∧ 0 < r <= len ∨ flag flags MSG_DONTWAIT = true ∧ r = -1 ∧ b = [] ∧ errno (io s') = EAGAIN) ∧
    evolve fd (set_rxq q c) s s' ∧ stream (rxq c) = b ++ stream q ∧ ready fd (set_rxq q c) s'.
Proof.
  intros Hy Hfl Hp [Hc Hrx Htx Hw Hpos] Hl Hn. unfold hev_task_io_socket_recv, io_fuel.
  erewrite bind_val by reflexivity. rewrite Hc.
  destruct (recv_loop_some P y fd flags len (S (length (rxq c) + length (rxd c) + length (txq c) + length (wakes (io s))))
    s c) as (r & b & s' & q & Hr & Hb & He & Hst & Hcl & Hwt & Hpos'); try done; try lia.
  exists r, b, s', q. split_and!; try done. split; try done; [by eapply evolve_chan|cbn; lia].
Qed.
End Vectors.
