(* ===== verification/UDP.v ===== *)
(** * UDP: datagrams over the session, src/core/src/hev-socks5-udp.c

    A message of the C code is a structure of two pointers and a length; an
    address that was never set is [Undef], and using it is undefined behaviour. *)
From S2P Require Import Prelude Bytes TaskIO Socks5.

Definition UDP_BUF_SIZE : Z := 1500.

Inductive ref := Undef | Null | Ref (p : Z * Z).

Record HevSocks5UDPMsg := UDPMsg { maddr : ref; mbuf : Z * Z; mlen : Z }.

(** The methods of the class and of the UDP interface that are used. *)
Class UDPClass (O : Type) `{IsSocks5 O} := {
  udp_get_fd : O → Z;
  udp_binder : Z → sockaddr6 → M (st O) Z
}.

Definition shift (p : Z * Z) (n : Z) : Z * Z := (p.1, p.2 + n).

Section UDP.
Context {O : Type} `{UDPClass O} `{Resolver}.

(** What is left of a block from a pointer on. *)
Definition load_rest (r : ref) : M (st O) bytes := λ s,
  match r with
  | Ref p =>
      match blocks (io s) !! p.1 with
      | Some b => if (0 <=? p.2) && (p.2 <=? zlen b) then Val (drop (Z.to_nat p.2) b) s else Stuck
      | None => Stuck
      end
  | _ => Stuck
  end.

(** The session over UDP ends with its TCP connection, which is probed here. *)
Definition udp_task_io_yielder (type : HevTaskYieldType) : M (st O) Z :=
  self ← get_base;
  ended ←
    (if bool_decide (Socks5.type self = HEV_SOCKS5_TYPE_UDP_IN_UDP) then
       '(res, _) ← recv (Socks5.fd self) 1;
       e ← get_errno;
       mret ((res =? 0) || ((res <? 0) && negb (e =? EAGAIN)))
     else mret false);
  if ended : bool then hev_socks5_set_timeout 0;; mret (-1)
  else hev_socks5_task_io_yielder type.

Definition udp_yielder : HevTaskIOYielder (O := O) := Some udp_task_io_yielder.

Definition hev_socks5_udp_get_fd : M (st O) Z := gets (λ s, udp_get_fd (self s)).

(** ** Sending *)

(** A segment of a vector: bytes on the stack, or memory. *)
Inductive segment := Bytes (bs : bytes) | Mem (p : Z * Z) (n : Z).

Definition read_segment (v : segment) : M (st O) bytes :=
  match v with Bytes bs => mret bs | Mem p n => load p n end.

Fixpoint read_segments (iov : list segment) : M (st O) (list bytes) :=
  match iov with
  | [] => mret []
  | v :: iov => b ← read_segment v; bs ← read_segments iov; mret (b :: bs)
  end.

(** The three segments of every message, unless an address has no length. *)
Fixpoint udp_segments (header : HevSocks5UDPMsg → Z → bytes) (msgv : list HevSocks5UDPMsg) :
    M (st O) (option (list (list segment))) :=
  match msgv with
  | [] => mret (Some [])
  | m :: msgv =>
      a ← load_rest (maddr m);
      addrlen ← of_option (hev_socks5_addr_len a);
      if addrlen <=? 0 then mret None else
      p ← of_option (match maddr m with Ref p => Some p | _ => None end);
      r ← udp_segments header msgv;
      mret (cons [Bytes (header m addrlen); Mem p addrlen; Mem (mbuf m) (mlen m)] <$> r)
  end.

Definition tcp_header (m : HevSocks5UDPMsg) (addrlen : Z) : bytes :=
  le16 (htons (u16 (mlen m))) ++ [u8 (3 + addrlen)].

Definition hev_socks5_udp_sendmmsg_tcp (msgv : list HevSocks5UDPMsg) : M (st O) Z :=
  iov ← udp_segments tcp_header msgv;
  match iov with
  | None => mret (-1)
  | Some iov =>
      fd ← hev_socks5_udp_get_fd;
      bs ← read_segments (mjoin iov);
      res ← hev_task_io_socket_sendmsg fd bs MSG_WAITALL udp_yielder;
      if res <=? 0 then mret (-1) else mret (zlen msgv)
  end.

Fixpoint read_datagrams (iovs : list (list segment)) : M (st O) (list (option sockaddr6 * bytes)) :=
  match iovs with
  | [] => mret []
  | iov :: iovs => bs ← read_segments iov; ms ← read_datagrams iovs; mret ((None, mjoin bs) :: ms)
  end.

Definition hev_socks5_udp_sendmmsg_udp (msgv : list HevSocks5UDPMsg) : M (st O) Z :=
  mvec ← udp_segments (λ _ _, [0; 0; 0]) msgv;
  match mvec with
  | None => mret (-1)
  | Some mvec =>
      fd ← hev_socks5_udp_get_fd;
      ms ← read_datagrams mvec;
      hev_task_io_socket_sendmmsg fd ms MSG_WAITALL udp_yielder
  end.

Definition hev_socks5_udp_sendmmsg (msgv : list HevSocks5UDPMsg) : M (st O) Z :=
  b ← get_base;
  match type b with
  | HEV_SOCKS5_TYPE_UDP_IN_TCP => hev_socks5_udp_sendmmsg_tcp msgv
  | HEV_SOCKS5_TYPE_UDP_IN_UDP => hev_socks5_udp_sendmmsg_udp msgv
  | _ => mret (-1)
  end.

(** ** Receiving *)

Definition nonblock_flag (nonblock : bool) : Z := if nonblock then MSG_DONTWAIT else 0.

(** The first five bytes of a frame, which may come in two reads. *)
Definition recv_head (fd flags : Z) : M (st O) (Z * bytes) :=
  '(res, h) ← hev_task_io_socket_recv fd 5 flags udp_yielder;
  if (0 <? res) && (res <? 5) then
    '(more, h') ← hev_task_io_socket_recv fd (5 - res) MSG_WAITALL udp_yielder;
    mret (res + more, h ++ h')
  else mret (res, h).

(** The result and the messages, those in front filled in. *)
Fixpoint recvmmsg_tcp_loop (fd flags rlen : Z) (done todo : list HevSocks5UDPMsg) :
    M (st O) (Z * list HevSocks5UDPMsg) :=
  match todo with
  | [] => mret (rlen, done)
  | m :: todo =>
      '(res, h) ← recv_head fd flags;
      if negb (res =? 5) then mret (if 0 <? rlen then rlen else res, done ++ m :: todo) else
      hdrlen ← of_option (zget h 2);
      if hdrlen <? 5 then mret (-1, done ++ m :: todo) else
      let addrlen := hdrlen - 3 in
      datlen ← of_option (get_le16 h);
      let datlen := ntohs datlen in
      if u64 (mlen m - addrlen) <? datlen then mret (-1, done ++ m :: todo) else
      let iov := [(shift (mbuf m) 2, addrlen - 2); (shift (mbuf m) addrlen, datlen)] in
      res ← hev_task_io_socket_recvmsg fd iov MSG_WAITALL udp_yielder;
      if negb (res =? addrlen - 2 + datlen) then mret (res, done ++ m :: todo) else
      atype ← of_option (zget h 3);
      len ← of_option (zget h 4);
      store (mbuf m) [atype];;
      store (shift (mbuf m) 1) [len];;
      recvmmsg_tcp_loop fd flags (rlen + 1)
        (done ++ [UDPMsg (Ref (mbuf m)) (shift (mbuf m) addrlen) datlen]) todo
  end.

Definition hev_socks5_udp_recvmmsg_tcp (msgv : list HevSocks5UDPMsg) (nonblock : bool) :
    M (st O) (Z * list HevSocks5UDPMsg) :=
  fd ← hev_socks5_udp_get_fd;
  recvmmsg_tcp_loop fd (nonblock_flag nonblock) 0 [] msgv.

Fixpoint store_datagrams (bufs : list (Z * Z)) (ms : list (sockaddr6 * bytes)) : M (st O) unit :=
  match bufs, ms with
  | p :: bufs, (_, bs) :: ms => store p bs;; store_datagrams bufs ms
  | _, _ => mret tt
  end.

(** Cutting the headers off; [ms] are the datagrams that were received. *)
Fixpoint strip_datagrams (done todo : list HevSocks5UDPMsg) (ms : list (sockaddr6 * bytes)) (res : Z) :
    M (st O) (Z * list HevSocks5UDPMsg) :=
  match todo, ms with
  | m :: todo, (_, bs) :: ms =>
      a ← load_rest (Ref (shift (mbuf m) 3));
      addrlen ← of_option (hev_socks5_addr_len a);
      let len := zlen bs in
      if len <? 4 then strip_datagrams (done ++ [UDPMsg Null (mbuf m) 0]) todo ms res else
      if addrlen <=? 0 then mret (-1, done ++ UDPMsg (maddr m) (mbuf m) len :: todo) else
      let doff := 3 + addrlen in
      if len <? doff then mret (-1, done ++ UDPMsg (maddr m) (mbuf m) len :: todo) else
      strip_datagrams (done ++ [UDPMsg (Ref (shift (mbuf m) 3)) (shift (mbuf m) doff) (len - doff)]) todo ms res
  | _, _ => mret (res, done ++ todo)
  end.

Definition hev_socks5_udp_recvmmsg_udp (msgv : list HevSocks5UDPMsg) (nonblock : bool) :
    M (st O) (Z * list HevSocks5UDPMsg) :=
  fd ← hev_socks5_udp_get_fd;
  b ← get_base;
  (if udp_associated b then mret tt else of_option (const tt <$> head msgv));;
  '(res, ms) ← hev_task_io_socket_recvmmsg fd (mlen <$> msgv) (nonblock_flag nonblock) udp_yielder;
  store_datagrams (mbuf <$> msgv) ms;;
  if res <=? 0 then mret (res, msgv) else
  b ← get_base;
  ok ←
    (if udp_associated b then mret true else
     src ← of_option (fst <$> head ms);
     r ← connect fd src;
     if r <? 0 then mret false else upd_base (set_associated true);; mret true);
  if negb ok then mret (-1, msgv) else
  strip_datagrams [] msgv ms res.

Definition hev_socks5_udp_recvmmsg (msgv : list HevSocks5UDPMsg) (nonblock : bool) :
    M (st O) (Z * list HevSocks5UDPMsg) :=
  b ← get_base;
  match type b with
  | HEV_SOCKS5_TYPE_UDP_IN_TCP => hev_socks5_udp_recvmmsg_tcp msgv nonblock
  | HEV_SOCKS5_TYPE_UDP_IN_UDP => hev_socks5_udp_recvmmsg_udp msgv nonblock
  | _ => mret (-1, msgv)
  end.
(** ** Forwarding *)

(** A fresh block for an array on the stack, and its end. *)
Definition stack_alloc (bs : bytes) : M (st O) Z := on_io (λ i,
  let p := fresh (dom (blocks i) ∪ {[0]}) in Val p (set_blocks (<[p := bs]> (blocks i)) i)).
Definition stack_free (p : Z) : M (st O) unit := on_io (λ i, Val tt (set_blocks (delete p (blocks i)) i)).

Definition socks5_zero_addr : sockaddr6 := Sockaddr6 0 0 (replicate 16 0).

(** The destinations and data of the messages [i] to [i] + [n] - 1, unless one is
    invalid. *)
Fixpoint fwd_targets (svec : list HevSocks5UDPMsg) (i n : nat) : M (st O) (option (list (sockaddr6 * (Z * Z) * Z))) :=
  match n with
  | Datatypes.O => mret (Some [])
  | S n =>
      m ← of_option (svec !! i);
      if mlen m =? 0 then mret None else
      match maddr m with
      | Undef => stuck
      | Null => mret None
      | Ref p =>
          family ← hev_socks5_get_addr_family;
          a ← load_rest (Ref p);
          '(ret, addr, _) ← of_option (hev_socks5_addr_into_sockaddr6 a socks5_zero_addr family);
          if ret <? 0 then mret None else
          r ← fwd_targets svec (S i) n;
          mret (cons (addr, mbuf m, mlen m) <$> r)
      end
  end.

Fixpoint read_targets (dvec : list (sockaddr6 * (Z * Z) * Z)) : M (st O) (list (option sockaddr6 * bytes)) :=
  match dvec with
  | [] => mret []
  | (addr, p, n) :: dvec => bs ← load p n; ms ← read_targets dvec; mret ((Some addr, bs) :: ms)
  end.

(** The end of both directions: progress, nothing to do for now, or an error. *)
Definition fwd_result (res : Z) : M (st O) Z :=
  e ← get_errno;
  mret (if res <=? 0 then (if (res =? -1) && (e =? EAGAIN) then 0 else -1) else 1).

(** The buffer [i] of an array of buffers. *)
Definition buffer (buf : Z) (i : nat) : Z * Z := (buf, UDP_BUF_SIZE * Z.of_nat i).

(** The result, and whether the socket is bound. *)
Definition hev_socks5_udp_fwd_f (fd buf : Z) (num : nat) (bind : bool) : M (st O) (Z * bool) :=
  let svec := (λ i, UDPMsg Undef (buffer buf i) UDP_BUF_SIZE) <$> seq 0 num in
  '(res, svec) ← hev_socks5_udp_recvmmsg svec true;
  if 0 <? res then
    dvec ← fwd_targets svec 0 (Z.to_nat res);
    match dvec with
    | None => mret (-1, bind)
    | Some dvec =>
        ok ←
          (if bind then mret true else
           addr ← of_option ((λ d, d.1.1) <$> head dvec);
           ret ← udp_binder fd addr;
           mret (negb (ret <? 0)));
        if negb ok then mret (-1, bind) else
        ms ← read_targets dvec;
        res ← hev_task_io_socket_sendmmsg fd ms MSG_WAITALL udp_yielder;
        r ← fwd_result res;
        mret (r, true)
    end
  else
    r ← fwd_result res;
    mret (r, bind).

(** The messages with the addresses of their senders, which are kept on the
    stack at [saddr]. *)
Definition fwd_message (buf saddr : Z) (num i : nat) (m : sockaddr6 * bytes) : HevSocks5UDPMsg :=
  UDPMsg (Ref (saddr, 19 * Z.of_nat i)) (buffer buf (num + i)) (zlen m.2).

Definition sender_bytes (m : sockaddr6 * bytes) : bytes :=
  (hev_socks5_addr_from_sockaddr6 (replicate 19 0) m.1).2.

Definition hev_socks5_udp_fwd_b (fd buf : Z) (num : nat) : M (st O) Z :=
  '(res, ms) ← hev_task_io_socket_recvmmsg fd (replicate num UDP_BUF_SIZE) MSG_DONTWAIT udp_yielder;
  store_datagrams ((λ i, buffer buf (num + i)) <$> seq 0 num) ms;;
  if 0 <? res then
    saddr ← stack_alloc (mjoin (sender_bytes <$> ms));
    res ← hev_socks5_udp_sendmmsg (imap (fwd_message buf saddr num) ms);
    stack_free saddr;;
    fwd_result res
  else fwd_result res.

Definition dgram_fuel (fd : Z) (s : st O) : nat :=
  match chans (io s) !! fd with Some c => length (stream (rxq c)) + length (rxd c) | None => 0 end.

Fixpoint udp_splice_loop (fuel : nat) (fd_b buf : Z) (num : nat) (bind : bool) (res_f res_b : Z) : M (st O) unit :=
  match fuel with
  | Datatypes.O => stuck
  | S fuel =>
      '(res_f, bind) ← (if 0 <=? res_f then hev_socks5_udp_fwd_f fd_b buf num bind else mret (res_f, bind));
      res_b ← (if 0 <=? res_b then hev_socks5_udp_fwd_b fd_b buf num else mret res_b);
      match (if (0 <? res_f) || (0 <? res_b) then Some HEV_TASK_YIELD
             else if Z.land res_f res_b =? 0 then Some HEV_TASK_WAITIO
             else None) with
      | None => mret tt
      | Some type =>
          r ← udp_task_io_yielder type;
          if truthy r then mret tt else udp_splice_loop fuel fd_b buf num bind res_f res_b
      end
  end.

Definition hev_socks5_udp_splicer (fd_b : Z) : M (st O) Z :=
  num ← hev_socks5_get_udp_copy_buffer_nums;
  buf ← hev_malloc0 (UDP_BUF_SIZE * num * 2);
  if negb (truthy buf) then mret (-1) else
  fd_a ← hev_socks5_udp_get_fd;
  res ← hev_task_mod_fd fd_a;
  (if res <? 0 then hev_task_add_fd fd_a;; mret tt else mret tt);;
  res ← hev_task_add_fd fd_b;
  (if res <? 0 then hev_task_mod_fd fd_b;; mret tt else mret tt);;
  fuel ← gets (λ s, S (dgram_fuel fd_a s + dgram_fuel fd_b s + length (wakes (io s))));
  udp_splice_loop fuel fd_b buf (Z.to_nat num) false 1 1;;
  hev_free buf;;
  mret 0.

Definition hev_socks5_udp_splice (fd : Z) : M (st O) Z := hev_socks5_udp_splicer fd.
End UDP.
