(* ===== verification/UDPSpec.v ===== *)
(** * UDPSpec: frames of datagrams on a session over TCP

    The view of a session's connection and memory, and what sending and receiving a
    vector of messages do to it in an environment that delivers. *)
From S2P Require Import Prelude Bytes TaskIO TaskIOSpec VectorSpec Socks5 Socks5Spec UDP.

(** ** The session over TCP *)

Section UDP.
Context {O : Type} `{UDPClass O} `{Resolver}.
Implicit Types s : st O.
Context (X : gmap Z chan).

Definition tcp_session (o : O) : Prop :=
  timeout (base o) ≠ 0 ∧ type (base o) = HEV_SOCKS5_TYPE_UDP_IN_TCP.

Lemma udp_yielder_tcp s t :
  type (base (self s)) = HEV_SOCKS5_TYPE_UDP_IN_TCP → udp_task_io_yielder t s = hev_socks5_task_io_yielder t s.
Proof using Type.
  intros Ht. unfold udp_task_io_yielder. erewrite bind_val by reflexivity. rewrite Ht.
  rewrite bool_decide_eq_false_2 by done. by erewrite bind_val by reflexivity.
Qed.

Lemma udp_yielder_good : good_yielder tcp_session udp_task_io_yielder.
Proof using Type.
  split.
  - intros s [Hp Ht]. unfold wp. rewrite udp_yielder_tcp by done. by apply (gy_any _ _ yielder_good).
  - intros s w ws [Hp Ht] Hw Hpos. rewrite udp_yielder_tcp by done. by apply (gy_wake _ _ yielder_good s w ws).
Qed.

Lemma blind_yield t : blind (hev_task_yield (O := O) t).
Proof using Type. intros m [o []]. unfold hev_task_yield, on_io, zoom. cbn. destruct t; [done|]. by destruct wakes. Qed.

Lemma blind_sleep n : blind (hev_task_sleep (O := O) n).
Proof using Type. intros m [o []]. unfold hev_task_sleep, on_io, zoom. cbn. destruct (_ =? _); [done|]. by destruct wakes. Qed.

Lemma blind_base : blind get_base.
Proof using Type. by intros m [o []]. Qed.

Lemma blind_set_timeout v : blind (hev_socks5_set_timeout v).
Proof using Type.
  intros m [o []]. unfold hev_socks5_set_timeout. erewrite !bind_val by reflexivity. cbn [self].
  unfold when. by destruct (truthy _).
Qed.

Lemma blind_socks5_yielder t : blind (hev_socks5_task_io_yielder t).
Proof using Type.
  unfold hev_socks5_task_io_yielder. destruct t.
  - apply blind_bind; [apply blind_yield|intros; apply blind_ret].
  - apply blind_bind; [apply blind_base|intros b]. destruct (_ <? 0).
    + apply blind_bind; [apply blind_yield|intros; apply blind_ret].
    + apply blind_bind; [apply blind_sleep|intros r]. destruct (_ <=? 0); apply blind_ret.
Qed.

Lemma blind_udp_yielder t : blind (udp_task_io_yielder t).
Proof using Type.
  unfold udp_task_io_yielder. apply blind_bind; [apply blind_base|intros b]. apply blind_bind.
  - destruct (bool_decide _); [|apply blind_ret]. apply blind_bind; [apply blind_recv|intros [r d]].
    apply blind_bind; [apply blind_errno|intros; apply blind_ret].
  - intros []; [|apply blind_socks5_yielder]. apply blind_bind; [apply blind_set_timeout|intros; apply blind_ret].
Qed.

(** The connection delivers [i], [o] was sent, the memory is [m], and the other
    descriptors are [X]. *)
Definition tcp_view (d : Z) (i o : bytes) (m : gmap Z bytes) s : Prop :=
  tcp_session (self s) ∧ udp_get_fd (self s) = d ∧ blocks (io s) = m ∧ delete d (chans (io s)) = X ∧
  ∃ c, ready d c s ∧ stream (rxq c) = i ∧ tx c = o.

Lemma evolve_memory d c s s' : evolve d c s s' → blocks (io s') = blocks (io s).
Proof using Type. intros (w & e & ->). by destruct s as [? []]. Qed.

Lemma evolve_others d c s s' : evolve d c s s' → delete d (chans (io s')) = delete d (chans (io s)).
Proof using Type. intros (w & e & ->). destruct s as [? []]. cbn. by rewrite delete_insert_eq. Qed.

Lemma view_evolve d i o m c s s' :
  delete d (chans (io s)) = X → tcp_session (self s) → udp_get_fd (self s) = d → blocks (io s) = m → evolve d c s s' → ready d c s' →
  stream (rxq c) = i → tx c = o → tcp_view d i o m s'.
Proof using Type.
  intros Hx Hp Hd Hm He Hr Hi Ho. unfold tcp_view.
  rewrite (evolve_self _ _ _ _ He), (evolve_memory _ _ _ _ He), (evolve_others _ _ _ _ He).
  split_and!; try done. by exists c.
Qed.

Lemma tcp_recv d b i o m s :
  tcp_view d (b ++ i) o m s → 0 < zlen b →
  ∃ s', hev_task_io_socket_recv d (zlen b) MSG_WAITALL udp_yielder s = Val (zlen b, b) s' ∧ tcp_view d i o m s'.
Proof using Type.
  intros (Hp & Hd & Hm & Hx & c & Hr & Hi & Ho) Hb.
  destruct (recv_ready _ _ d (zlen b) c s udp_yielder_good Hp Hr) as (s' & q & Hv & He & Hst & Hr').
  { rewrite Hi, zlen_app. pose proof (zlen_nonneg i). lia. }
  rewrite Hi in *. unfold zlen in Hv, Hst. rewrite Nat2Z.id, take_app_length in Hv.
  rewrite Nat2Z.id, drop_app_length in Hst. exists s'. split; [exact Hv|].
  eapply (view_evolve _ _ _ _ (set_rxq q c)); done.
Qed.

Lemma with_blocks_view d i o m m' s : tcp_view d i o m s → tcp_view d i o m' (with_blocks m' s).
Proof using Type.
  intros (Hp & Hd & Hm & Hx & c & [] & Hi & Ho). destruct s as [? []]. split_and!; try done. exists c. by split.
Qed.

Lemma tcp_recvmsg d iov b i o m m' s :
  tcp_view d (b ++ i) o m s → 0 < zlen b → rtotal iov = zlen b → Forall (λ v, 0 <= v.2) iov → put_iov iov b m = Some m' →
  ∃ s', hev_task_io_socket_recvmsg d iov MSG_WAITALL udp_yielder s = Val (zlen b) s' ∧ tcp_view d i o m' s'.
Proof using Type.
  intros Hs Hb Ht Hiov Hp. destruct (tcp_recv _ _ _ _ _ _ Hs Hb) as (s1 & Hv & Hs1).
  exists (with_blocks m' s1). split; [|by eapply with_blocks_view].
  eapply (recvmsg_recv _ _ _ _ b); [apply blind_udp_yielder|done|by rewrite Ht|].
  destruct Hs as (_ & _ & -> & _). exact Hp.
Qed.

Lemma nonblock_waitall nb : flag (nonblock_flag nb) MSG_WAITALL = false.
Proof using Type. by destruct nb. Qed.
Lemma nonblock_dontwait nb : flag (nonblock_flag nb) MSG_DONTWAIT = nb.
Proof using Type. by destruct nb. Qed.

(** The head of a frame is read whole, or not at all when reading may not wait. *)
Lemma tcp_head d nb h i o m s :
  tcp_view d (h ++ i) o m s → zlen h = 5 →
  (∃ s', recv_head d (nonblock_flag nb) s = Val (5, h) s' ∧ tcp_view d i o m s') ∨
  (nb = true ∧ ∃ s', errno (io s') = EAGAIN ∧ recv_head d (nonblock_flag nb) s = Val (-1, []) s' ∧ tcp_view d (h ++ i) o m s').
Proof using Type.
  intros (Hp & Hd & Hm & Hx & c & Hr & Hi & Ho) Hh. unfold recv_head.
  destruct (recv_some _ _ d (nonblock_flag nb) 5 s c udp_yielder_good) as (r & b & s1 & q & Hv & Hrb & He & Hst & Hr1); try done.
  { by apply nonblock_waitall. }
  { rewrite Hi, zlen_app. pose proof (zlen_nonneg i). lia. }
  rewrite nonblock_dontwait in Hrb. rewrite Hi in Hst.
  assert (∀ i', stream q = i' → tcp_view d i' o m s1) as Hs1.
  { intros i' Hi'. eapply (view_evolve _ _ _ _ (set_rxq q c)); done. }
  destruct Hrb as [[-> Hb]|(-> & -> & -> & He1)].
  2:{ right. split; [done|]. exists s1. split; [done|]. split; [by erewrite bind_val by exact Hv|by apply Hs1]. }
  left. assert (∃ h', h = b ++ h' ∧ stream q = h' ++ i) as (h' & -> & Hq).
  { exists (drop (length b) h). assert (take (length b) h = b) as Htb.
    { apply (f_equal (take (length b))) in Hst. rewrite take_app_length, take_app_le in Hst by (unfold zlen in *; lia). done. }
    rewrite <- Htb at 1. rewrite take_drop. split; [done|].
    apply (f_equal (drop (length b))) in Hst. rewrite drop_app_length, drop_app_le in Hst by (unfold zlen in *; lia). done. }
  rewrite zlen_app in Hh. erewrite bind_val by exact Hv. cbv beta iota.
  destruct (Z.ltb_spec 0 (zlen b)); [|lia]. cbn [andb]. destruct (Z.ltb_spec (zlen b) 5).
  - specialize (Hs1 _ Hq). destruct (tcp_recv _ _ _ _ _ _ Hs1) as (s2 & Hv2 & Hs2); [lia|].
    exists s2. split; [|done]. replace (5 - zlen b) with (zlen h') by lia. erewrite bind_val by exact Hv2.
    cbv [mret M_ret]. f_equal. f_equal. lia.
  - assert (h' = []) as ->. { destruct h'; [done|]. rewrite zlen_cons in Hh. pose proof (zlen_nonneg h'). lia. }
    rewrite app_nil_r. exists s1. split; [|by apply Hs1]. cbv [mret M_ret]. f_equal. f_equal. lia.
Qed.

(** ** Frames *)

Definition dgram : Type := bytes * bytes.

(** A datagram, the address in wire form and the data, as the protocol frames it: the
    length of the data, that of the header, which wraps around in its byte, address and
    data. [send_frames] shows that these are the bytes that the sender makes. *)
Definition frame (g : dgram) : bytes := le16 (htons (u16 (zlen g.2))) ++ [u8 (3 + zlen g.1)] ++ g.1 ++ g.2.
Definition frames (gs : list dgram) : bytes := mjoin (frame <$> gs).

(** A datagram that fits a frame and a buffer. *)
Definition fits (g : dgram) : Prop :=
  hev_socks5_addr_len g.1 = Some (zlen g.1) ∧ 2 < zlen g.1 <= 252 ∧ zlen g.1 + zlen g.2 <= UDP_BUF_SIZE.

Definition small (g : dgram) : Prop := zlen g.1 + zlen g.2 <= UDP_BUF_SIZE.
Definition sendable (g : dgram) : Prop := hev_socks5_addr_len g.1 = Some (zlen g.1) ∧ 2 < zlen g.1.

Lemma fits_small gs : Forall fits gs → Forall small gs.
Proof using Type. intros Hf. eapply Forall_impl; [exact Hf|]. by intros g (_ & _ & ?). Qed.
Lemma fits_sendable gs : Forall fits gs → Forall sendable gs.
Proof using Type. intros Hf. eapply Forall_impl; [exact Hf|]. intros g (? & ? & _). split; [done|lia]. Qed.

(** The memory after the datagrams were stored in the buffers from the [k]-th on,
    and the messages that describe them. *)
Fixpoint fill (b : bytes) (k : nat) (gs : list dgram) : bytes :=
  match gs with
  | [] => b
  | g :: gs => fill (overwrite b (UDP_BUF_SIZE * Z.of_nat k) (g.1 ++ g.2)) (S k) gs
  end.

Definition received (buf : Z) (k : nat) (g : dgram) : HevSocks5UDPMsg :=
  UDPMsg (Ref (buffer buf k)) (shift (buffer buf k) (zlen g.1)) (zlen g.2).
Definition slot (buf : Z) (k : nat) : HevSocks5UDPMsg := UDPMsg Undef (buffer buf k) UDP_BUF_SIZE.

Fixpoint receiveds (buf : Z) (k : nat) (gs : list dgram) : list HevSocks5UDPMsg :=
  match gs with [] => [] | g :: gs => received buf k g :: receiveds buf (S k) gs end.

Lemma overwrite_at (b : bytes) off d k e :
  k = off + zlen d → 0 <= off → off + zlen d + zlen e <= zlen b → overwrite (overwrite b off d) k e = overwrite b off (d ++ e).
Proof using Type. intros ->. apply overwrite_app. Qed.

(** One frame. *)
Lemma store_frame p n b (a dat : bytes) m :
  m !! p.1 = Some b → 0 <= p.2 → p.2 + zlen a + zlen dat <= zlen b → 0 < zlen a → n = zlen a →
  put_iov [(p, n); (shift p n, zlen dat)] (a ++ dat) m = Some (<[p.1 := overwrite b p.2 (a ++ dat)]> m).
Proof using Type.
  intros Hm Hp Hb Ha ->. pose proof (zlen_nonneg dat). cbn [put_iov fst snd shift].
  destruct (Z.eqb_spec (zlen (a ++ dat)) 0) as [Hz|_]; [rewrite zlen_app in Hz; lia|].
  assert (take (Z.to_nat (zlen a)) (a ++ dat) = a) as -> by (unfold zlen; by rewrite Nat2Z.id, take_app_length).
  assert (drop (Z.to_nat (zlen a)) (a ++ dat) = dat) as -> by (unfold zlen; by rewrite Nat2Z.id, drop_app_length).
  rewrite Hm, some_bind.
  destruct (Z.leb_spec 0 p.2), (Z.leb_spec (p.2 + zlen a) (zlen b)); try lia. cbn [andb]. rewrite some_bind.
  destruct (Z.eqb_spec (zlen dat) 0) as [Hz|Hz].
  - rewrite some_bind. destruct dat; [by rewrite app_nil_r|rewrite zlen_cons in Hz; pose proof (zlen_nonneg dat); lia].
  - rewrite lookup_insert_eq, some_bind. rewrite zlen_overwrite by lia. rewrite take_ge by (unfold zlen; lia).
    destruct (Z.leb_spec 0 (p.2 + zlen a)), (Z.leb_spec (p.2 + zlen a + zlen dat) (zlen b)); try lia. cbn [andb].
    rewrite some_bind, insert_insert_eq. by rewrite overwrite_app by lia.
Qed.

(** The first two bytes are stored last. *)
Lemma overwrite_heads b off t l (d : bytes) :
  0 <= off → off + 2 + zlen d <= zlen b →
  overwrite (overwrite (overwrite b (off + 2) d) off [t]) (off + 1) [l] = overwrite b off (t :: l :: d).
Proof using Type.
  intros Ho Hb. pose proof (zlen_nonneg d).
  rewrite (overwrite_at _ off [t] (off + 1) [l]); [|done|lia|rewrite zlen_overwrite by lia; change (zlen [t]) with 1; change (zlen [l]) with 1; lia].
  cbn [app]. unfold overwrite, zlen in *. cbn [length].
  assert (length (take (Z.to_nat (off + 2)) b) = Z.to_nat off + 2)%nat as Hl by (rewrite length_take; lia).
  rewrite take_app_le, take_take, Nat.min_l by lia. f_equal. cbn [app]. f_equal. f_equal.
  rewrite drop_app_length' by lia. do 2 f_equal. lia.
Qed.

(** What is read back from the memory. *)
Definition held (m : gmap Z bytes) (p : Z * Z) (bs : bytes) : Prop :=
  ∃ b, m !! p.1 = Some b ∧ 0 <= p.2 ∧ p.2 + zlen bs <= zlen b ∧ slice b p.2 (zlen bs) = bs.

(** Messages that describe datagrams in the memory. *)
Definition carries (m : gmap Z bytes) (g : dgram) (v : HevSocks5UDPMsg) : Prop :=
  (∃ p, maddr v = Ref p ∧ held m p g.1) ∧ held m (mbuf v) g.2 ∧ mlen v = zlen g.2.

Lemma tcp_store d i o m p b bs s :
  tcp_view d i o m s → m !! p.1 = Some b → 0 <= p.2 → p.2 + zlen bs <= zlen b →
  ∃ s', store p bs s = Val tt s' ∧ tcp_view d i o (<[p.1 := overwrite b p.2 bs]> m) s'.
Proof using Type.
  intros Hs Hm Hp Hl. pose proof Hs as (_ & _ & Hbl & _). exists (with_blocks (<[p.1 := overwrite b p.2 bs]> m) s).
  split; [|by eapply with_blocks_view]. unfold store, on_io, zoom. rewrite Hbl, Hm.
  destruct (Z.leb_spec 0 p.2), (Z.leb_spec (p.2 + zlen bs) (zlen b)); try lia. cbn [andb]. by rewrite <- Hbl.
Qed.

(** One frame is received whole, or nothing of it when reading may not wait. *)
Lemma recv_step d nb buf b k rlen done todo a dat i o m s :
  tcp_view d (frame (a, dat) ++ i) o m s → fits (a, dat) → m !! buf = Some b → UDP_BUF_SIZE * (Z.of_nat k + 1) <= zlen b →
  (∃ s', recvmmsg_tcp_loop d (nonblock_flag nb) rlen done (slot buf k :: todo) s =
      recvmmsg_tcp_loop d (nonblock_flag nb) (rlen + 1) (done ++ [received buf k (a, dat)]) todo s' ∧
    tcp_view d i o (<[buf := overwrite b (UDP_BUF_SIZE * Z.of_nat k) (a ++ dat)]> m) s') ∨
  (nb = true ∧ ∃ s', errno (io s') = EAGAIN ∧ recvmmsg_tcp_loop d (nonblock_flag nb) rlen done (slot buf k :: todo) s =
      Val (if 0 <? rlen then rlen else -1, done ++ slot buf k :: todo) s' ∧ tcp_view d (frame (a, dat) ++ i) o m s').
Proof using Type.
  intros Hs (Hal & Hl & Hf) Hm Hb. cbn [fst snd] in *. pose proof (zlen_nonneg dat).
  destruct a as [|t [|l a]]; [by destruct Hl|by destruct Hl|]. rewrite !zlen_cons in *. unfold UDP_BUF_SIZE in *.
  set (off := 1500 * Z.of_nat k) in *. cbn [recvmmsg_tcp_loop].
  set (h := le16 (htons (u16 (zlen dat))) ++ [u8 (3 + zlen (t :: l :: a))] ++ [t; l]).
  assert (frame (t :: l :: a, dat) ++ i = h ++ (a ++ dat) ++ i) as Hfr.
  { done. }
  rewrite Hfr in *.
  destruct (tcp_head d nb h _ o m s Hs) as [(s1 & Hv & Hs1)|(-> & s1 & Her & Hv & Hs1)]; [done| |].
  2:{ right. split; [done|]. exists s1. split; [done|]. split; [|done]. by erewrite bind_val by exact Hv. }
  left. erewrite bind_val by exact Hv. cbv beta iota. change (negb (5 =? 5)) with false. cbv iota.
  assert (zget h 2 = Some (5 + zlen a)) as Hg2.
  { change (zget h 2) with (Some (u8 (3 + zlen (t :: l :: a)))). rewrite !zlen_cons. unfold u8. rewrite Z.mod_small by lia. f_equal. lia. }
  erewrite bind_val by (rewrite Hg2; reflexivity). destruct (Z.ltb_spec (5 + zlen a) 5); [lia|]. cbv zeta.
  assert (get_le16 h = Some (htons (zlen dat))) as Hdl.
  { change (get_le16 h) with (get_le16 (le16 (htons (u16 (zlen dat))))). unfold u16. rewrite Z.mod_small by lia.
    apply le16_get, bswap16_range. }
  erewrite bind_val by (rewrite Hdl; reflexivity). cbv beta. rewrite ntohs_htons by lia.
  cbn [slot mlen mbuf]. unfold UDP_BUF_SIZE.
  assert (u64 (1500 - (5 + zlen a - 3)) = 1500 - (2 + zlen a)) as -> by (unfold u64; rewrite Z.mod_small by lia; lia).
  destruct (Z.ltb_spec (1500 - (2 + zlen a)) (zlen dat)); [lia|].
  set (b1 := overwrite b (off + 2) (a ++ dat)).
  destruct (tcp_recvmsg d [(shift (buffer buf k) 2, zlen a); (shift (buffer buf k) (2 + zlen a), zlen dat)]
    (a ++ dat) i o m (<[buf := b1]> m) s1 Hs1) as (s2 & Hv2 & Hs2).
  { rewrite zlen_app. lia. }
  { rewrite zlen_app. cbn. lia. }
  { repeat constructor; cbn; lia. }
  { change (shift (buffer buf k) (2 + zlen a)) with (buf, off + (2 + zlen a)).
    change (shift (buffer buf k) 2) with (buf, off + 2).
    replace (buf, off + (2 + zlen a)) with (shift (buf, off + 2) (zlen a)) by (unfold shift; cbn [fst snd]; f_equal; lia).
    by apply (store_frame (buf, off + 2)); cbn [fst snd]; try lia. }
  replace (5 + zlen a - 3 - 2) with (zlen a) by lia. replace (5 + zlen a - 3) with (2 + zlen a) by lia.
  erewrite bind_val by exact Hv2. rewrite zlen_app. rewrite Z.eqb_refl. cbn [negb].
  erewrite bind_val by reflexivity. erewrite bind_val by reflexivity.
  assert (zlen b1 = zlen b) as Hb1 by (unfold b1; rewrite zlen_overwrite; rewrite ?zlen_app; lia).
  assert (zlen (overwrite b1 off [t]) = zlen b) as Hb2 by (rewrite zlen_overwrite; [done|lia|change (zlen [t]) with 1; lia]).
  destruct (tcp_store d i o _ (buffer buf k) b1 [t] s2 Hs2) as (s3 & Hv3 & Hs3);
    [cbn [fst]; by rewrite lookup_insert_eq|cbn [snd shift buffer]; unfold UDP_BUF_SIZE; lia| |].
  { cbn [snd buffer]. change (zlen [t]) with 1. unfold UDP_BUF_SIZE. lia. }
  erewrite bind_val by exact Hv3. cbn [fst snd buffer] in Hs3. rewrite insert_insert_eq in Hs3.
  destruct (tcp_store d i o _ (shift (buffer buf k) 1) (overwrite b1 off [t]) [l] s3 Hs3) as (s4 & Hv4 & Hs4);
    [cbn [fst shift buffer]; by rewrite lookup_insert_eq|cbn [snd shift buffer]; unfold UDP_BUF_SIZE; lia| |].
  { rewrite Hb2. cbn [snd shift buffer]. change (zlen [l]) with 1. unfold UDP_BUF_SIZE. lia. }
  erewrite bind_val by exact Hv4. exists s4. split.
  - unfold received. cbn [fst snd]. rewrite !zlen_cons. by replace (1 + (1 + zlen a)) with (2 + zlen a) by lia.
  - cbn [fst snd buffer shift] in Hs4. rewrite insert_insert_eq in Hs4.
    unfold b1, UDP_BUF_SIZE in Hs4. fold off in Hs4. rewrite overwrite_heads in Hs4 by (rewrite ?zlen_app; lia). exact Hs4.
Qed.

Lemma fill_length b k gs :
  Forall small gs → UDP_BUF_SIZE * (Z.of_nat k + zlen gs) <= zlen b → zlen (fill b k gs) = zlen b.
Proof using Type.
  revert b k. induction gs as [|g gs IH]; intros b k Hf Hb; [done|]. apply Forall_cons in Hf as [Hg Hf]. unfold small in Hg.
  rewrite zlen_cons in Hb. cbn [fill]. pose proof (zlen_nonneg gs). pose proof (zlen_nonneg g.1). pose proof (zlen_nonneg g.2). unfold UDP_BUF_SIZE in *.
  rewrite IH; rewrite ?zlen_overwrite; rewrite ?zlen_app; try done; lia.
Qed.

(** Receiving frames: all of them, or when reading may not wait those that were there. *)
Lemma recv_frames d nb buf gs k rlen done i o m b s :
  tcp_view d (frames gs ++ i) o m s → Forall fits gs → m !! buf = Some b →
  UDP_BUF_SIZE * (Z.of_nat k + zlen gs) <= zlen b → 0 <= rlen →
  ∃ n s', (n <= length gs)%nat ∧ (nb = false → n = length gs) ∧ ((n < length gs)%nat → errno (io s') = EAGAIN) ∧
    recvmmsg_tcp_loop d (nonblock_flag nb) rlen done (slot buf <$> seq k (length gs)) s =
      Val (if decide (n = length gs ∨ 0 < rlen + Z.of_nat n) then rlen + Z.of_nat n else -1,
        done ++ receiveds buf k (take n gs) ++ (slot buf <$> seq (k + n) (length gs - n))) s' ∧
    tcp_view d (frames (drop n gs) ++ i) o (<[buf := fill b k (take n gs)]> m) s'.
Proof using Type.
  revert k rlen done m b s. induction gs as [|[a dat] gs IH]; intros k rlen done m b s Hs Hf Hm Hb Hr.
  - exists 0%nat, s. split_and!; [done|done|cbn; lia| |].
    + cbn [length fmap list_fmap seq recvmmsg_tcp_loop take receiveds]. rewrite decide_True by (by left).
      cbn. rewrite app_nil_r. cbv [mret M_ret]. f_equal. f_equal. lia.
    + cbn [take fill drop]. by rewrite insert_id.
  - apply Forall_cons in Hf as [Hg Hf]. rewrite zlen_cons in Hb. pose proof (zlen_nonneg gs).
    change (frames ((a, dat) :: gs)) with (frame (a, dat) ++ frames gs) in Hs. rewrite <- app_assoc in Hs.
    cbn [length seq fmap list_fmap].
    destruct (recv_step d nb buf b k rlen done (slot buf <$> seq (S k) (length gs)) a dat (frames gs ++ i) o m s Hs Hg Hm)
      as [(s1 & Hv & Hs1)|(Hnb & s1 & Her & Hv & Hs1)]; [unfold UDP_BUF_SIZE in *; lia| |].
    + destruct (IH (S k) (rlen + 1) (done ++ [received buf k (a, dat)]) _ _ s1 Hs1 Hf (lookup_insert_eq _ _ _))
        as (n & s' & Hn & Hall & Her & Hv' & Hs').
      * pose proof Hg as (_ & ? & ?). cbn [fst snd] in *. pose proof (zlen_nonneg dat).
        unfold UDP_BUF_SIZE in *. rewrite zlen_overwrite by (rewrite ?zlen_app; lia). lia.
      * lia.
      * exists (S n), s'. split_and!; [lia|intros Hx; by rewrite Hall|intros; apply Her; lia| |].
        -- change (recvmmsg_tcp_loop d (nonblock_flag nb) rlen done (slot buf k :: (slot buf <$> seq (S k) (length gs))) s = 
             Val (if decide (S n = S (length gs) ∨ 0 < rlen + Z.of_nat (S n)) then rlen + Z.of_nat (S n) else -1,
               done ++ (received buf k (a, dat) :: receiveds buf (S k) (take n gs)) ++ (slot buf <$> seq (k + S n) (length gs - n))) s').
           rewrite Hv, Hv', <- app_assoc. cbn [app]. replace (k + S n)%nat with (S k + n)%nat by lia.
           rewrite !decide_True by lia. do 2 f_equal. lia.
        -- rewrite insert_insert_eq in Hs'. exact Hs'.
    + exists 0%nat, s1. split_and!; [lia|by rewrite Hnb|done| |].
      * rewrite Hv. cbn [take receiveds app]. rewrite Nat.sub_0_r, Nat.add_0_r. f_equal. f_equal.
        rewrite Z.add_0_r. destruct (Z.ltb_spec 0 rlen); [by rewrite decide_True by lia|by rewrite decide_False by lia].
      * cbn [take fill drop]. rewrite insert_id by done. rewrite app_assoc in Hs1. exact Hs1.
Qed.

(** ** The memory *)

Lemma slice_overwrite (b : bytes) off bs :
  0 <= off → off + zlen bs <= zlen b → slice (overwrite b off bs) off (zlen bs) = bs.
Proof using Type.
  intros Ho Hb. unfold slice, overwrite, zlen in *. rewrite Nat2Z.id.
  rewrite drop_app_length' by (rewrite length_take; lia). by rewrite take_app_length.
Qed.

Lemma slice_overwrite_before (b : bytes) off bs p n :
  0 <= p → 0 <= n → p + n <= off → off + zlen bs <= zlen b → slice (overwrite b off bs) p n = slice b p n.
Proof using Type.
  intros Hp Hn Ho Hb. unfold slice, overwrite, zlen in *. rewrite !take_drop_commute.
  rewrite take_app_le by (rewrite length_take; lia). rewrite take_take. do 2 f_equal. lia.
Qed.

Lemma fill_before gs k b p n :
  Forall small gs → UDP_BUF_SIZE * (Z.of_nat k + zlen gs) <= zlen b → 0 <= p → 0 <= n → p + n <= UDP_BUF_SIZE * Z.of_nat k →
  slice (fill b k gs) p n = slice b p n.
Proof using Type.
  revert k b. induction gs as [|g gs IH]; intros k b Hf Hb Hp Hn Ho; [done|].
  apply Forall_cons in Hf as [Hg Hf]. unfold small in Hg. rewrite zlen_cons in Hb. pose proof (zlen_nonneg gs). pose proof (zlen_nonneg g.1). pose proof (zlen_nonneg g.2). cbn [fill].
  unfold UDP_BUF_SIZE in *.
  rewrite IH; try done; [apply slice_overwrite_before|rewrite zlen_overwrite| ]; rewrite ?zlen_app; lia.
Qed.

Lemma held_app m p a b : held m p (a ++ b) → held m p a ∧ held m (shift p (zlen a)) b.
Proof using Type.
  intros (bl & Hb & Hp & Hl & Hs). rewrite zlen_app in *. pose proof (zlen_nonneg a). pose proof (zlen_nonneg b).
  unfold slice in Hs. assert (length (a ++ b) = Z.to_nat (zlen a + zlen b)) as Hlen by (unfold zlen; rewrite length_app; lia).
  assert (take (length a) (drop (Z.to_nat p.2) bl) = a) as Ha.
  { apply (f_equal (take (length a))) in Hs. rewrite take_app_length, take_take, Nat.min_l in Hs by (unfold zlen; lia). done. }
  assert (take (length b) (drop (length a) (drop (Z.to_nat p.2) bl)) = b) as Hb'.
  { rewrite take_drop_commute. replace (length a + length b)%nat with (Z.to_nat (zlen a + zlen b)) by (unfold zlen; lia).
    by rewrite Hs, drop_app_length. }
  split; exists bl; cbn [shift fst snd]; split_and!; try done; try lia; unfold slice, zlen.
  - by rewrite Nat2Z.id.
  - rewrite drop_drop in Hb'. rewrite Nat2Z.id. rewrite <- Hb' at 2. do 2 f_equal. lia.
Qed.

Lemma fill_carries gs k b buf m :
  Forall small gs → UDP_BUF_SIZE * (Z.of_nat k + zlen gs) <= zlen b → m !! buf = Some (fill b k gs) →
  Forall2 (carries m) gs (receiveds buf k gs).
Proof using Type.
  revert k b. induction gs as [|g gs IH]; intros k b Hf Hb Hm; [constructor|].
  pose proof Hf as Hf'. apply Forall_cons in Hf' as [Hg Hf']. unfold small in Hg. rewrite zlen_cons in Hb.
  pose proof (zlen_nonneg gs). pose proof (zlen_nonneg g.1). pose proof (zlen_nonneg g.2). cbn [fill receiveds] in *. set (off := UDP_BUF_SIZE * Z.of_nat k) in *. unfold UDP_BUF_SIZE in *.
  constructor.
  - assert (held m (buffer buf k) (g.1 ++ g.2)) as Hh.
    { eexists. split; [exact Hm|]. cbn [snd buffer]. unfold UDP_BUF_SIZE. fold off.
      assert (zlen (overwrite b off (g.1 ++ g.2)) = zlen b) as Hl by (rewrite zlen_overwrite; rewrite ?zlen_app; lia).
      split_and!; [lia| |].
      - rewrite fill_length; rewrite ?Hl; try done; unfold UDP_BUF_SIZE; rewrite ?zlen_app; lia.
      - rewrite fill_before; rewrite ?Hl; try done; unfold UDP_BUF_SIZE; rewrite ?zlen_app; try lia.
        rewrite <- zlen_app. apply slice_overwrite; rewrite ?zlen_app; lia. }
    apply held_app in Hh as [H1' H2']. split; [by exists (buffer buf k)|]. by split.
  - apply (IH (S k) (overwrite b off (g.1 ++ g.2))); [done| |done].
    unfold UDP_BUF_SIZE. rewrite zlen_overwrite; rewrite ?zlen_app; lia.
Qed.

(** ** Sending *)

Lemma held_load m p bs s : held m p bs → blocks (io s) = m → load p (zlen bs) s = Val bs s.
Proof using Type.
  intros (b & Hb & Hp & Hl & Hs) <-. unfold load. rewrite Hb. pose proof (zlen_nonneg bs).
  destruct (Z.leb_spec 0 p.2), (Z.leb_spec 0 (zlen bs)), (Z.leb_spec (p.2 + zlen bs) (zlen b)); try lia.
  cbn [andb]. by rewrite Hs.
Qed.

Lemma held_rest m p bs s : held m p bs → blocks (io s) = m → ∃ r, load_rest (Ref p) s = Val (bs ++ r) s.
Proof using Type.
  intros (b & Hb & Hp & Hl & Hs) <-. unfold load_rest. rewrite Hb. pose proof (zlen_nonneg bs).
  destruct (Z.leb_spec 0 p.2), (Z.leb_spec p.2 (zlen b)); try lia. cbn [andb].
  exists (drop (Z.to_nat (zlen bs)) (drop (Z.to_nat p.2) b)). unfold slice in Hs. rewrite <- Hs at 1. by rewrite take_drop.
Qed.

Lemma addr_len_app a r : 2 < zlen a → hev_socks5_addr_len (a ++ r) = hev_socks5_addr_len a.
Proof using Type. intros Ha. destruct a as [|t [|l a]]; [done|done|done]. Qed.

Lemma read_segments_cons v iov b bs s :
  read_segment v s = Val b s → read_segments iov s = Val bs s → read_segments (v :: iov) s = Val (b :: bs) s.
Proof using Type. intros Hv Hi. cbn [read_segments]. erewrite bind_val by exact Hv. by erewrite bind_val by exact Hi. Qed.

Lemma segments_frames gs msgv m s :
  Forall2 (carries m) gs msgv → Forall sendable gs → blocks (io s) = m →
  ∃ segs bss, udp_segments tcp_header msgv s = Val (Some segs) s ∧ read_segments (mjoin segs) s = Val bss s ∧
    mjoin bss = frames gs.
Proof using Type.
  intros Hc Hf Hm. induction Hc as [|g v gs msgv ((p & Hp & Ha) & Hb & Hl) Hc IH]; [by exists [], []|].
  apply Forall_cons in Hf as [(Hal & H2) Hf]. destruct (IH Hf) as (segs & bss & E1 & E2 & E3).
  destruct (held_rest _ _ _ s Ha Hm) as (r & Hr). cbn [udp_segments]. rewrite Hp.
  exists ([Bytes (tcp_header v (zlen g.1)); Mem p (zlen g.1); Mem (mbuf v) (mlen v)] :: segs),
    (tcp_header v (zlen g.1) :: g.1 :: g.2 :: bss). split_and!.
  - erewrite bind_val by exact Hr. erewrite bind_val by (rewrite addr_len_app, Hal by lia; reflexivity).
    destruct (Z.leb_spec (zlen g.1) 0); [lia|]. erewrite bind_val by reflexivity. by erewrite bind_val by exact E1.
  - change (mjoin (?x :: segs)) with (x ++ mjoin segs). cbn [app].
    apply read_segments_cons; [done|]. apply read_segments_cons; [by apply (held_load m)|].
    apply read_segments_cons; [|done]. cbn [read_segment]. rewrite Hl. by apply (held_load m).
  - change (frames (g :: gs)) with (frame g ++ frames gs). rewrite <- E3. unfold frame, tcp_header. rewrite Hl.
    rewrite <- !app_assoc. done.
Qed.

Lemma tcp_send d buf i o m s :
  tcp_view d i o m s → 0 < zlen buf →
  ∃ s', hev_task_io_socket_send d buf MSG_WAITALL udp_yielder s = Val (zlen buf) s' ∧ tcp_view d i (o ++ buf) m s'.
Proof using Type.
  intros (Hp & Hd & Hm & Hx & c & Hr & Hi & Ho) Hb.
  destruct (send_ready _ _ d buf c s udp_yielder_good Hp Hr Hb) as (s' & q & Hv & He & Hr').
  exists s'. split; [exact Hv|]. eapply view_evolve; try done. cbn. by rewrite Ho.
Qed.

Lemma frames_pos gs : gs ≠ [] → 0 < zlen (frames gs).
Proof using Type.
  destruct gs as [|g gs]; [done|]. intros _. change (frames (g :: gs)) with (frame g ++ frames gs). unfold frame.
  rewrite !zlen_app. pose proof (zlen_nonneg g.1). pose proof (zlen_nonneg g.2). pose proof (zlen_nonneg (frames gs)).
  change (zlen (le16 _)) with 2. pose proof (zlen_nonneg [u8 (3 + zlen g.1)]). lia.
Qed.

Lemma send_frames d gs msgv i o m s :
  tcp_view d i o m s → Forall2 (carries m) gs msgv → gs ≠ [] → Forall sendable gs →
  ∃ s', hev_socks5_udp_sendmmsg msgv s = Val (zlen gs) s' ∧ tcp_view d i (o ++ frames gs) m s'.
Proof using Type.
  intros Hs Hc Hne Hf.
  destruct (segments_frames gs msgv m s Hc Hf (proj1 (proj2 (proj2 Hs)))) as (segs & bss & E1 & E2 & E3).
  destruct (tcp_send d (frames gs) _ _ _ _ Hs (frames_pos _ Hne)) as (s' & Hv & Hs'). exists s'. split; [|done].
  unfold hev_socks5_udp_sendmmsg. erewrite bind_val by reflexivity. rewrite (proj2 (proj1 Hs)).
  unfold hev_socks5_udp_sendmmsg_tcp. erewrite bind_val by exact E1. cbv beta iota. erewrite bind_val by reflexivity.
  rewrite (proj1 (proj2 Hs)). erewrite bind_val by exact E2.
  erewrite bind_val by (rewrite sendmsg_send, E3; exact Hv).
  pose proof (frames_pos gs Hne). destruct (Z.leb_spec (zlen (frames gs)) 0); [lia|].
  unfold zlen. by rewrite (Forall2_length _ _ _ Hc).
Qed.

(** What a call of [recvmmsg] on the buffers from the first on returns. *)
Lemma recv_messages d nb buf gs i o m b s :
  tcp_view d (frames gs ++ i) o m s → Forall fits gs → m !! buf = Some b → UDP_BUF_SIZE * zlen gs <= zlen b →
  ∃ n s', (n <= length gs)%nat ∧ (nb = false → n = length gs) ∧ ((n < length gs)%nat → errno (io s') = EAGAIN) ∧
    hev_socks5_udp_recvmmsg (slot buf <$> seq 0 (length gs)) nb s =
      Val (if decide (n = length gs ∨ n ≠ 0%nat) then Z.of_nat n else -1,
        receiveds buf 0 (take n gs) ++ (slot buf <$> seq n (length gs - n))) s' ∧
    tcp_view d (frames (drop n gs) ++ i) o (<[buf := fill b 0 (take n gs)]> m) s'.
Proof using Type.
  intros Hs Hf Hm Hb.
  destruct (recv_frames d nb buf gs 0 0 [] i o m b s Hs Hf Hm ltac:(lia) ltac:(lia))
    as (n & s1 & Hn & Hall & Her & Hv & Hs1).
  exists n, s1. split_and!; try done. unfold hev_socks5_udp_recvmmsg. erewrite bind_val by reflexivity.
  rewrite (proj2 (proj1 Hs)). unfold hev_socks5_udp_recvmmsg_tcp. erewrite bind_val by reflexivity.
  rewrite (proj1 (proj2 Hs)), Hv. cbn [app]. f_equal. f_equal. destruct (decide (n = length gs ∨ n ≠ 0%nat)).
  - rewrite decide_True by lia. lia.
  - by rewrite decide_False by lia.
Qed.

(** ** Forwarding *)

(** Datagrams with data, for addresses that resolve. *)
Definition resolves (g : dgram) (sa : sockaddr6) : Prop :=
  0 < zlen g.2 ∧ ∀ rest fam, ∃ fam', hev_socks5_addr_into_sockaddr6 (g.1 ++ rest) socks5_zero_addr fam = Some (0, sa, fam').

Definition outgoing (gs : list dgram) (sas : list sockaddr6) : list (option sockaddr6 * bytes) :=
  zip_with (λ g sa, (Some sa, g.2)) gs sas.

Lemma targets_outgoing gs sas vs svec m s :
  Forall2 resolves gs sas → Forall2 (carries m) gs vs → blocks (io s) = m → 
  ∀ i, (∀ j, (j < length gs)%nat → svec !! (i + j)%nat = vs !! j) →
  ∃ dvec, fwd_targets svec i (length gs) s = Val (Some dvec) s ∧ length dvec = length gs ∧
    read_targets dvec s = Val (outgoing gs sas) s.
Proof using Type.
  intros Hr Hc Hm. revert sas Hr. induction Hc as [|g v gs vs ((p & Hp & Ha) & Hb & Hl) Hc IH]; intros sas Hr i Hv.
  { exists []. by inversion Hr. }
  inversion Hr as [|? sa ? sas' [Hpos Hg] Hr']; subst. cbn [length fwd_targets].
  assert (svec !! i = Some v) as Hi by (rewrite <- (Nat.add_0_r i), Hv; [done|cbn; lia]).
  erewrite bind_val by (rewrite Hi; reflexivity). rewrite Hl. destruct (Z.eqb_spec (zlen g.2) 0); [lia|]. rewrite Hp.
  destruct (held_rest _ _ _ s Ha eq_refl) as (r & Hrest). erewrite bind_val by reflexivity. erewrite bind_val by exact Hrest.
  destruct (Hg r (addr_family (base (self s)))) as (fam' & Hf).
  erewrite bind_val by (rewrite Hf; reflexivity). cbv beta iota. change (0 <? 0) with false. cbv iota.
  destruct (IH sas' Hr' (S i)) as (dvec & E1 & E2 & E3).
  { intros j Hj. replace (S i + j)%nat with (i + S j)%nat by lia. apply (Hv (S j)). cbn. lia. }
  exists ((sa, mbuf v, zlen g.2) :: dvec). split_and!; [by erewrite bind_val by exact E1|cbn; by rewrite E2|].
  cbn [read_targets]. erewrite bind_val by (by eapply held_load). by erewrite bind_val by exact E3.
Qed.

(** A socket that accepts what it is given takes all datagrams at once. *)
Lemma send_datagrams e c ms s :
  chans (io s) !! e = Some c → txq c = [] → ms ≠ [] →
  hev_task_io_socket_sendmmsg e ms MSG_WAITALL udp_yielder s =
    Val (zlen ms) (St (self s) (put_chan e (set_txd [] (txd c ++ ms) c) (io s))).
Proof using Type.
  intros Hc Hq Hne. assert (0 < zlen ms) as Hpos.
  { destruct ms; [done|]. rewrite zlen_cons. pose proof (zlen_nonneg ms). lia. }
  unfold hev_task_io_socket_sendmmsg, io_fuel. erewrite bind_val by reflexivity. rewrite Hc. cbn [sendmmsg_loop].
  assert (sendmmsg e (drop (Z.to_nat 0) ms) s = Val (zlen ms) (St (self s) (put_chan e (set_txd [] (txd c ++ ms) c) (io s)))) as Hv.
  { unfold sendmmsg, on_chan, on_io, zoom. by rewrite Hc, Hq. }
  erewrite bind_val by exact Hv. erewrite bind_val by reflexivity.
  destruct (Z.ltb_spec (zlen ms) 0), (Z.leb_spec (zlen ms) 0); try lia. cbn [andb negb].
  change (flag MSG_WAITALL MSG_WAITALL) with true. cbn [negb]. cbv iota zeta. rewrite Z.add_0_l, Z.ltb_irrefl. done.
Qed.

Lemma carries_take n gs vs m : Forall2 (carries m) gs vs → Forall2 (carries m) (take n gs) (take n vs).
Proof using Type. apply Forall2_take. Qed.

End UDP.
