(* ===== verification/Client.v ===== *)
(** * Client: the SOCKS5 client of src/core/src/hev-socks5-client.c and its TCP
    and UDP variants, src/core/src/hev-socks5-client-tcp.c and
    src/core/src/hev-socks5-client-udp.c

    The virtual methods of the C classes are the fields of [ClientClass]; the code
    of the client runs on any object that has them. *)
From S2P Require Import Prelude Bytes TaskIO Socks5 UDP.

(** ** The client object *)

(** The strings that were set, or NULL. *)
Record HevSocks5Client := Client { cbase : HevSocks5; auth_user : option bytes; auth_pass : option bytes }.

#[export] Program Instance HevSocks5Client_IsSocks5 : IsSocks5 HevSocks5Client :=
  {| base := cbase; set_base b o := Client b (auth_user o) (auth_pass o) |}.
Solve All Obligations with by intros; repeat match goal with o : HevSocks5Client |- _ => destruct o end.

Class IsClient (O : Type) `{IsSocks5 O} := {
  client : O → HevSocks5Client;
  set_client : HevSocks5Client → O → O;
  client_base : ∀ o, cbase (client o) = base o;
  client_set_base : ∀ b o, client (set_base b o) = set_base b (client o)
}.

(** The methods that the variants override. The upstream address is a block of
    memory; the caller of [get_upstream_addr] owns it. *)
Class ClientClass (O : Type) `{IsClient O} := {
  binder : Z → sockaddr6 → M (st O) Z;
  get_upstream_addr : M (st O) Z;
  set_upstream_addr : bytes → M (st O) Z
}.

(** Memory for an object is zeroed, or not available. *)
Definition alloc_object {O} (zero : O) : M (st O) bool := λ s,
  match mallocs (io s) with
  | false :: ms => Val false (St (self s) (set_mallocs ms (io s)))
  | ms => Val true (St zero (set_mallocs (tl ms) (io s)))
  end.

Section Client.
Context {O : Type} `{ClientClass O} `{Resolver}.

Definition get_client : M (st O) HevSocks5Client := gets (λ s, client (self s)).
Definition yielder : HevTaskIOYielder (O := O) := Some hev_socks5_task_io_yielder.

Definition hev_socks5_client_write_auth_methods : M (st O) Z :=
  self ← get_client;
  let methods_0 :=
    match auth_user self, auth_pass self with
    | Some _, Some _ => HEV_SOCKS5_AUTH_METHOD_USER
    | _, _ => HEV_SOCKS5_AUTH_METHOD_NONE
    end in
  res ← hev_task_io_socket_send (fd (cbase self)) [HEV_SOCKS5_VERSION_5; 1; methods_0]
    (Z.lor MSG_WAITALL MSG_MORE) yielder;
  if res <=? 0 then mret (-1) else mret 0.

(** The lengths are stored in bytes; that many bytes of the strings (with their
    NUL) are sent. *)
Definition hev_socks5_client_write_auth_creds : M (st O) Z :=
  self ← get_client;
  match auth_user self, auth_pass self with
  | Some user, Some pass =>
      let ub_1 := u8 (zlen user) in
      let ub_2 := u8 (zlen pass) in
      let iov := [[HEV_SOCKS5_AUTH_VERSION_1; ub_1]; take (Z.to_nat ub_1) user; [ub_2]; take (Z.to_nat ub_2) pass] in
      res ← hev_task_io_socket_sendmsg (fd (cbase self)) iov (Z.lor MSG_WAITALL MSG_MORE) yielder;
      if res <=? 0 then mret (-1) else mret 0
  | _, _ => mret 0
  end.

Definition request_cmd (type : HevSocks5Type) : option Z :=
  match type with
  | HEV_SOCKS5_TYPE_TCP => Some HEV_SOCKS5_REQ_CMD_CONNECT
  | HEV_SOCKS5_TYPE_UDP_IN_TCP => Some HEV_SOCKS5_REQ_CMD_FWD_UDP
  | HEV_SOCKS5_TYPE_UDP_IN_UDP => Some HEV_SOCKS5_REQ_CMD_UDP_ASC
  | HEV_SOCKS5_TYPE_NONE => None
  end.

(** The address is not freed when the type is unknown or the write fails. *)
Definition hev_socks5_client_write_request : M (st O) Z :=
  self ← get_client;
  match request_cmd (type (cbase self)) with
  | None => mret (-1)
  | Some cmd =>
      let req := [HEV_SOCKS5_VERSION_5; cmd; 0] in
      addr ← get_upstream_addr;
      atype ← load (addr, 0) 1;
      addrlen ←
        (if bool_decide (atype = [HEV_SOCKS5_ADDR_TYPE_IPV4]) then mret 7
         else if bool_decide (atype = [HEV_SOCKS5_ADDR_TYPE_IPV6]) then mret 19
         else if bool_decide (atype = [HEV_SOCKS5_ADDR_TYPE_NAME]) then
           len ← load (addr, 1) 1; mret (4 + default 0 (head len))
         else mret (-1));
      if addrlen <? 0 then mret (-1) else
      bs ← load (addr, 0) addrlen;
      self ← get_client;
      ret ← hev_task_io_socket_sendmsg (fd (cbase self)) [req; bs] MSG_WAITALL yielder;
      if ret <=? 0 then mret (-1) else
      hev_free addr;;
      mret 0
  end.

Definition hev_socks5_client_read_auth_method : M (st O) Z :=
  self ← get_client;
  '(res, auth) ← hev_task_io_socket_recv (fd (cbase self)) 2 MSG_WAITALL yielder;
  if negb (res =? 2) then mret (-1) else
  ver ← of_option (zget auth 0);
  if negb (ver =? HEV_SOCKS5_VERSION_5) then mret (-1) else
  of_option (zget auth 1).

Definition hev_socks5_client_read_auth_creds : M (st O) Z :=
  self ← get_client;
  '(ret, res) ← hev_task_io_socket_recv (fd (cbase self)) 2 MSG_WAITALL yielder;
  if negb (ret =? 2) then mret (-1) else
  ver ← of_option (zget res 0);
  if negb (ver =? HEV_SOCKS5_AUTH_VERSION_1) then mret (-1) else
  rep ← of_option (zget res 1);
  if negb (rep =? HEV_SOCKS5_RES_REP_SUCC) then mret (-1) else mret 0.

Definition hev_socks5_client_read_response : M (st O) Z :=
  self ← get_client;
  '(ret, res) ← hev_task_io_socket_recv (fd (cbase self)) 4 MSG_WAITALL yielder;
  if negb (ret =? 4) then mret (-1) else
  ver ← of_option (zget res 0);
  if negb (ver =? HEV_SOCKS5_VERSION_5) then mret (-1) else
  rep ← of_option (zget res 1);
  if negb (rep =? HEV_SOCKS5_RES_REP_SUCC) then mret (-1) else
  atype ← of_option (zget res 3);
  let addrlen :=
    if atype =? HEV_SOCKS5_ADDR_TYPE_IPV4 then 6
    else if atype =? HEV_SOCKS5_ADDR_TYPE_IPV6 then 18 else -1 in
  if addrlen <? 0 then mret (-1) else
  self ← get_client;
  '(ret, bs) ← hev_task_io_socket_recv (fd (cbase self)) addrlen MSG_WAITALL yielder;
  if negb (ret =? addrlen) then mret (-1) else
  let addr := overwrite (overwrite addr_undef 0 [atype]) 1 bs in
  ret ← set_upstream_addr addr;
  if ret <? 0 then mret (-1) else mret 0.

Definition hev_socks5_client_connect (addr : bytes) (port : Z) : M (st O) Z :=
  timeout ← hev_socks5_get_connect_timeout;
  hev_socks5_set_timeout timeout;;
  addr_family ← hev_socks5_get_addr_family;
  let saddr := Sockaddr6 0 0 (replicate 16 0) in
  let '(res, saddr, addr_family) := hev_socks5_name_into_sockaddr6 addr port saddr addr_family in
  if res <? 0 then mret (-1) else
  fd ← hev_socks5_socket SOCK_STREAM;
  if fd <? 0 then mret (-1) else
  res ← binder fd saddr;
  if res <? 0 then drop_fd fd;; mret (-1) else
  res ← hev_task_io_socket_connect fd saddr yielder;
  if res <? 0 then drop_fd fd;; mret (-1) else
  upd_base (set_fd fd);;
  hev_socks5_set_addr_family addr_family;;
  mret 0.

Definition hev_socks5_client_handshake_standard : M (st O) Z :=
  res ← hev_socks5_client_write_auth_methods;
  if res <? 0 then mret (-1) else
  res ← hev_socks5_client_read_auth_method;
  if res <? 0 then mret (-1) else
  res ←
    (if res =? HEV_SOCKS5_AUTH_METHOD_USER then
       res ← hev_socks5_client_write_auth_creds;
       if res <? 0 then mret (-1) else hev_socks5_client_read_auth_creds
     else if negb (res =? HEV_SOCKS5_AUTH_METHOD_NONE) then mret (-1)
     else mret 0);
  if res <? 0 then mret (-1) else
  res ← hev_socks5_client_write_request;
  if res <? 0 then mret (-1) else
  res ← hev_socks5_client_read_response;
  if res <? 0 then mret (-1) else mret 0.

Definition hev_socks5_client_handshake_pipeline : M (st O) Z :=
  res ← hev_socks5_client_write_auth_methods;
  if res <? 0 then mret (-1) else
  res ← hev_socks5_client_write_auth_creds;
  if res <? 0 then mret (-1) else
  res ← hev_socks5_client_write_request;
  if res <? 0 then mret (-1) else
  res ← hev_socks5_client_read_auth_method;
  if res <? 0 then mret (-1) else
  res ←
    (if res =? HEV_SOCKS5_AUTH_METHOD_USER then hev_socks5_client_read_auth_creds
     else if negb (res =? HEV_SOCKS5_AUTH_METHOD_NONE) then mret (-1)
     else mret 0);
  if res <? 0 then mret (-1) else
  res ← hev_socks5_client_read_response;
  if res <? 0 then mret (-1) else mret 0.

Definition hev_socks5_client_handshake (pipeline : bool) : M (st O) Z :=
  timeout ← hev_socks5_get_tcp_timeout;
  hev_socks5_set_timeout timeout;;
  res ← (if pipeline then hev_socks5_client_handshake_pipeline else hev_socks5_client_handshake_standard);
  b ← get_base;
  match type b with
  | HEV_SOCKS5_TYPE_UDP_IN_TCP | HEV_SOCKS5_TYPE_UDP_IN_UDP =>
      timeout ← hev_socks5_get_udp_timeout;
      hev_socks5_set_timeout timeout
  | _ => mret tt
  end;;
  mret res.

Definition hev_socks5_client_set_auth (user pass : option bytes) : M (st O) unit :=
  modify (λ s, St (set_client (Client (cbase (client (self s))) user pass) (self s)) (io s)).
End Client.

Definition hev_socks5_client_construct (self : HevSocks5Client) (type : HevSocks5Type) : HevSocks5Client :=
  Client (Socks5.hev_socks5_construct (cbase self) type) (auth_user self) (auth_pass self).

Definition client_zero : HevSocks5Client := Client socks5_zero None None.

Definition hev_socks5_client_destruct {O} `{IsSocks5 O} : M (st O) unit := hev_socks5_destruct.

(** ** The TCP client *)

Record HevSocks5ClientTCP := ClientTCP { tcp_base : HevSocks5Client; addr : Z }.

#[export] Program Instance HevSocks5ClientTCP_IsSocks5 : IsSocks5 HevSocks5ClientTCP :=
  {| base o := base (tcp_base o); set_base b o := ClientTCP (set_base b (tcp_base o)) (addr o) |}.
Solve All Obligations with
  by intros; repeat match goal with o : HevSocks5ClientTCP |- _ => destruct o as [[]] end.

#[export] Program Instance HevSocks5ClientTCP_IsClient : IsClient HevSocks5ClientTCP :=
  {| client := tcp_base; set_client c o := ClientTCP c (addr o) |}.
Solve All Obligations with done.

Definition hev_socks5_client_tcp_get_upstream_addr : M (st HevSocks5ClientTCP) Z :=
  self ← get_self;
  put_self (ClientTCP (tcp_base self) 0);;
  mret (addr self).

Definition hev_socks5_client_tcp_set_upstream_addr (addr : bytes) : M (st HevSocks5ClientTCP) Z := mret 0.

#[export] Instance HevSocks5ClientTCP_class : ClientClass HevSocks5ClientTCP := {
  binder := hev_socks5_bind;
  get_upstream_addr := hev_socks5_client_tcp_get_upstream_addr;
  set_upstream_addr := hev_socks5_client_tcp_set_upstream_addr
}.

Definition hev_socks5_client_tcp_construct (addr : bytes) : M (st HevSocks5ClientTCP) Z :=
  self ← get_self;
  put_self (ClientTCP (hev_socks5_client_construct (tcp_base self) HEV_SOCKS5_TYPE_TCP) (Client.addr self));;
  res ← of_option (hev_socks5_addr_len addr);
  p ← hev_malloc res (take (Z.to_nat res) addr);
  self ← get_self;
  put_self (ClientTCP (tcp_base self) p);;
  if negb (truthy p) then mret (-1) else mret 0.

Definition client_tcp_zero : HevSocks5ClientTCP := ClientTCP client_zero 0.

(** Whether a new object is returned; [junk] is what the address on the stack
    held before. *)
Definition client_tcp_new (addr : option bytes) : M (st HevSocks5ClientTCP) bool :=
  ok ← alloc_object client_tcp_zero;
  if negb ok then mret false else
  addr ← of_option addr;
  res ← hev_socks5_client_tcp_construct addr;
  mret (negb (res <? 0)).

Definition hev_socks5_client_tcp_new_name (junk name : bytes) (port : Z) : M (st HevSocks5ClientTCP) bool :=
  client_tcp_new (snd <$> hev_socks5_addr_from_name junk name port).
Definition hev_socks5_client_tcp_new_ipv4 (junk ipv4 : bytes) (port : Z) : M (st HevSocks5ClientTCP) bool :=
  client_tcp_new (Some (hev_socks5_addr_from_ipv4 junk ipv4 port).2).
Definition hev_socks5_client_tcp_new_ipv6 (junk ipv6 : bytes) (port : Z) : M (st HevSocks5ClientTCP) bool :=
  client_tcp_new (Some (hev_socks5_addr_from_ipv6 junk ipv6 port).2).

Definition hev_socks5_client_tcp_destruct : M (st HevSocks5ClientTCP) unit :=
  self ← get_self;
  (if truthy (addr self) then hev_free (addr self) else mret tt);;
  hev_socks5_client_destruct.

(** ** The UDP client *)

Record HevSocks5ClientUDP := ClientUDP { udp_base : HevSocks5Client; udp_fd : Z }.

#[export] Program Instance HevSocks5ClientUDP_IsSocks5 : IsSocks5 HevSocks5ClientUDP :=
  {| base o := base (udp_base o); set_base b o := ClientUDP (set_base b (udp_base o)) (udp_fd o) |}.
Solve All Obligations with
  by intros; repeat match goal with o : HevSocks5ClientUDP |- _ => destruct o as [[]] end.

#[export] Program Instance HevSocks5ClientUDP_IsClient : IsClient HevSocks5ClientUDP :=
  {| client := udp_base; set_client c o := ClientUDP c (udp_fd o) |}.
Solve All Obligations with done.

(** A zeroed address of the family of the connection to the server, or NULL. *)
Definition hev_socks5_client_udp_get_upstream_addr {O} `{IsSocks5 O} : M (st O) Z :=
  family ← hev_socks5_get_addr_family;
  if family =? HEV_SOCKS5_ADDR_FAMILY_IPV4 then
    addr ← hev_malloc0 7;
    (if truthy addr then store (addr, 0) [HEV_SOCKS5_ADDR_TYPE_IPV4] else mret tt);;
    mret addr
  else if family =? HEV_SOCKS5_ADDR_FAMILY_IPV6 then
    addr ← hev_malloc0 19;
    (if truthy addr then store (addr, 0) [HEV_SOCKS5_ADDR_TYPE_IPV6] else mret tt);;
    mret addr
  else mret 0.

(** The class's own [binder] is called, which a subclass may have replaced. *)
Definition hev_socks5_client_udp_set_upstream_addr `{Resolver} {O} `{IsSocks5 O}
    (set_udp_fd : Z → O → O) (binder : Z → sockaddr6 → M (st O) Z) (addr : bytes) : M (st O) Z :=
  b ← get_base;
  if negb (bool_decide (type b = HEV_SOCKS5_TYPE_UDP_IN_UDP)) then mret 0 else
  addr_family ← hev_socks5_get_addr_family;
  '(res, saddr, addr_family) ←
    of_option (hev_socks5_addr_into_sockaddr6 addr (Sockaddr6 0 0 (replicate 16 0)) addr_family);
  if res <? 0 then mret (-1) else
  fd ← hev_socks5_socket SOCK_DGRAM;
  if fd <? 0 then mret (-1) else
  res ← binder fd saddr;
  if res <? 0 then drop_fd fd;; mret (-1) else
  res ← hev_task_io_socket_connect fd saddr (Some hev_socks5_task_io_yielder);
  if res <? 0 then drop_fd fd;; mret (-1) else
  upd_base (set_associated true);;
  modify (λ s, St (set_udp_fd fd (self s)) (io s));;
  mret 0.

Definition set_client_udp_fd (v : Z) (o : HevSocks5ClientUDP) : HevSocks5ClientUDP := ClientUDP (udp_base o) v.

#[export] Instance HevSocks5ClientUDP_class `{Resolver} : ClientClass HevSocks5ClientUDP := {
  binder := hev_socks5_bind;
  get_upstream_addr := hev_socks5_client_udp_get_upstream_addr;
  set_upstream_addr := hev_socks5_client_udp_set_upstream_addr set_client_udp_fd hev_socks5_bind
}.

Definition hev_socks5_client_udp_get_fd (self : HevSocks5ClientUDP) : Z :=
  match type (base self) with
  | HEV_SOCKS5_TYPE_UDP_IN_TCP => fd (base self)
  | HEV_SOCKS5_TYPE_UDP_IN_UDP => udp_fd self
  | _ => -1
  end.

#[export] Instance client_udp_session : UDPClass HevSocks5ClientUDP :=
  {| udp_get_fd := hev_socks5_client_udp_get_fd; udp_binder := hev_socks5_bind |}.

Definition hev_socks5_client_udp_construct (self : HevSocks5ClientUDP) (type : HevSocks5Type) : HevSocks5ClientUDP :=
  ClientUDP (hev_socks5_client_construct (udp_base self) type) (-1).

Definition client_udp_zero : HevSocks5ClientUDP := ClientUDP client_zero 0.

Definition hev_socks5_client_udp_new (type : HevSocks5Type) : M (st HevSocks5ClientUDP) bool :=
  ok ← alloc_object client_udp_zero;
  if negb ok then mret false else
  self ← get_self;
  put_self (hev_socks5_client_udp_construct self type);;
  mret true.

Definition hev_socks5_client_udp_destruct : M (st HevSocks5ClientUDP) unit :=
  self ← get_self;
  (if 0 <=? udp_fd self then drop_fd (udp_fd self) else mret tt);;
  hev_socks5_client_destruct.
