(* ===== verification/UDPRelay.v ===== *)
(** * UDPRelay: the theorems about datagrams

    Datagrams survive the session over TCP; both forwarders pass on exactly what
    came; and two cases in which the code fails. *)
From S2P Require Import Prelude Bytes TaskIO TaskIOSpec VectorSpec Socks5 Socks5Spec Client UDP UDPSpec.

(** ** Between the session and a socket *)

Section Forward.
Context {O : Type} `{UDPClass O} `{Resolver}.
Implicit Types s : st O.

(** What another descriptor was given. *)
Definition given (X : gmap Z chan) (e : Z) (c : chan) (ms : list (option sockaddr6 * bytes)) : gmap Z chan :=
  <[e := set_txd [] (txd c ++ ms) c]> X.

Lemma view_put X d e c i o m s :
  tcp_view X d i o m s → d ≠ e → tcp_view (<[e := c]> X) d i o m (St (self s) (put_chan e c (io s))).
Proof using Type.
  intros (Hp & Hd & Hm & Hx & c' & [] & Hi & Ho) Hne. destruct s as [? []]. cbn in *.
  split_and!; try done.
  - cbn. by rewrite <- Hx, delete_insert_ne.
  - exists c'. split; [|done]. split; try done. cbn. by rewrite lookup_insert_ne.
Qed.

Lemma view_chan X d e c i o m s : tcp_view X d i o m s → d ≠ e → X !! e = Some c → chans (io s) !! e = Some c.
Proof using Type. intros (_ & _ & _ & <- & _) Hde Hx. by rewrite lookup_delete_ne in Hx. Qed.

Lemma receiveds_length buf k gs : length (receiveds buf k gs) = length gs.
Proof using Type. revert k. induction gs as [|g gs IH]; intros k; cbn; [done|by rewrite IH]. Qed.

(** C18: the forwarder towards the network: in an environment in which the session
    delivers frames of datagrams, each with data and for an address that resolves,
    and the socket accepts datagrams, one call forwards a run of the first frames,
    whatever the segments of the stream are: exactly their data, each to the address
    that was asked for, in order; nothing of the frames after them is consumed, and
    the result is 1, or 0 when no frame was there yet. *)
Theorem fwd_f_forwards X d e c gs sas bound i o m buf b s :
  tcp_view X d (frames gs ++ i) o m s → d ≠ e → X !! e = Some c → txq c = [] → gs ≠ [] → Forall fits gs →
  Forall2 resolves gs sas → m !! buf = Some b → UDP_BUF_SIZE * zlen gs <= zlen b →
  bound = true ∨ (∀ sa s', udp_binder e sa s' = Val 0 s') →
  ∃ n s' m', (n <= length gs)%nat ∧
    hev_socks5_udp_fwd_f e buf (length gs) bound s = Val (if decide (n = 0%nat) then (0, bound) else (1, true)) s' ∧
    tcp_view (if decide (n = 0%nat) then X else given X e c (outgoing (take n gs) (take n sas))) d
      (frames (drop n gs) ++ i) o m' s'.
Proof using Type.
  intros Hs Hde Hx Hq Hne Hf Hr Hm Hb Hbd.
  destruct (recv_messages X d true buf gs i o m b s Hs Hf Hm Hb) as (n & s1 & Hn & _ & Her & Hv & Hs1).
  assert (length gs ≠ 0%nat) as Hl0 by (by destruct gs).
  set (m1 := <[buf := fill b 0 (take n gs)]> m) in *.
  unfold hev_socks5_udp_fwd_f.
  change ((λ i0, UDPMsg Undef (buffer buf i0) UDP_BUF_SIZE) <$> seq 0 (length gs)) with (slot buf <$> seq 0 (length gs)).
  erewrite bind_val by exact Hv. cbv beta iota. destruct (decide (n = 0%nat)) as [->|Hn0].
  - rewrite decide_False by lia. exists 0%nat, s1, m1. split_and!; [done| |exact Hs1]. rewrite decide_True by done.
    change (0 <? -1) with false. cbv iota. unfold fwd_result. rewrite bind_assoc. erewrite bind_val by reflexivity.
    rewrite Her by lia. done.
  - rewrite (decide_True (P := n = length gs ∨ _)) by auto. destruct (Z.ltb_spec 0 (Z.of_nat n)); [|lia]. rewrite Nat2Z.id.
    set (gs' := take n gs) in *. assert (length gs' = n) as Hlen by (unfold gs'; rewrite length_take; lia).
    assert (Forall fits gs') as Hf' by (by apply Forall_take).
    assert (UDP_BUF_SIZE * (Z.of_nat 0 + zlen gs') <= zlen b) as Hb'.
    { unfold zlen in *. rewrite Hlen. unfold UDP_BUF_SIZE in *. lia. }
    assert (Forall2 (carries m1) gs' (receiveds buf 0 gs')) as Hc.
    { eapply (fill_carries gs' 0 b); [by apply fits_small|done|apply lookup_insert_eq]. }
    destruct (targets_outgoing gs' (take n sas) _ (receiveds buf 0 gs' ++ (slot buf <$> seq n (length gs - n))) m1 s1
      (Forall2_take _ _ _ n Hr) Hc (proj1 (proj2 (proj2 Hs1))) 0) as (dvec & E1 & E2 & E3).
    { intros j Hj. by rewrite lookup_app_l by (rewrite receiveds_length; cbn; lia). }
    rewrite Hlen in E1. erewrite bind_val by exact E1. cbv beta iota.
    set (ms := outgoing gs' (take n sas)).
    assert (length ms = n) as Hms.
    { unfold ms, outgoing. unfold gs'. rewrite length_zip_with, !length_take, <- (Forall2_length _ _ _ Hr).
      exact (eq_trans (f_equal2 Nat.min (Nat.min_l _ _ Hn) (Nat.min_l _ _ Hn)) (Nat.min_id n)). }
    pose proof (view_chan _ _ _ _ _ _ _ _ Hs1 Hde Hx) as Hce.
    assert ((if bound : bool then mret true else
      (addr ← of_option ((λ d0, d0.1.1) <$> head dvec); ret ← udp_binder e addr; mret (negb (ret <? 0)))) s1 = Val true s1) as E4.
    { destruct bound; [done|]. destruct dvec as [|v dvec]; [cbn in E2; lia|]. erewrite bind_val by reflexivity.
      destruct Hbd as [|Hbd]; [done|]. by erewrite bind_val by apply Hbd. }
    exists n. eexists. exists m1. rewrite !decide_False by done. split; [done|]. split.
    + erewrite bind_val by exact E4. cbn [negb]. erewrite bind_val by exact E3.
      erewrite bind_val by (apply (send_datagrams e c); [done|done|intros Hnil; fold ms in Hnil; by rewrite Hnil in Hms; cbn in Hms]).
      unfold fwd_result. rewrite bind_assoc. erewrite bind_val by reflexivity.
      destruct (Z.leb_spec (zlen (outgoing gs' (take n sas))) 0) as [Hz|]; [fold ms in Hz; unfold zlen in Hz; lia|]. reflexivity.
    + by apply view_put.
Qed.


(** What the system delivers, and the same as datagrams of the session. *)
Definition arrived (v : sockaddr6 * bytes) : dg_event := DgFrom v.1 v.2.
Definition wire (sa : sockaddr6) : bytes :=
  if IN6_IS_ADDR_V4MAPPED (sin6_addr sa) then wire_ipv4 (drop 12 (sin6_addr sa)) (sin6_port sa)
  else wire_ipv6 (sin6_addr sa) (sin6_port sa).
Definition incoming (v : sockaddr6 * bytes) : dgram := (wire v.1, v.2).

Lemma wire_sendable sa bs : zlen (sin6_addr sa) = 16 → sendable (wire sa, bs).
Proof using Type.
  intros Hl. unfold sendable, wire. cbn [fst]. destruct (IN6_IS_ADDR_V4MAPPED _); unfold wire_ipv4, wire_ipv6;
    rewrite zlen_cons, zlen_app; change (zlen (le16 _)) with 2; [|rewrite Hl; split; [done|lia]].
  assert (zlen (drop 12 (sin6_addr sa)) = 4) as -> by (unfold zlen in *; rewrite length_drop; lia). split; [done|lia].
Qed.

Lemma sender_wire v :
  zlen (sin6_addr v.1) = 16 → zlen (sender_bytes v) = 19 ∧ take (Z.to_nat (zlen (wire v.1))) (sender_bytes v) = wire v.1.
Proof using Type.
  intros Hl. pose proof (from_sockaddr6_wire (replicate 19 0) v.1 ltac:(done) Hl) as Hw. fold (wire v.1) in Hw.
  unfold sender_bytes. destruct v as [[fam port ip] bs]. cbn [fst sin6_addr] in *. 
  cells ip Hl 16%nat. destruct ip; [|unfold zlen in Hl; cbn in Hl; lia].
  unfold wire, hev_socks5_addr_from_sockaddr6 in *. cbn [sin6_addr sin6_port] in *. by destruct (IN6_IS_ADDR_V4MAPPED _).
Qed.

Lemma take_all_dgrams num vs q :
  (length vs <= num)%nat → Forall (λ v, zlen v.2 <= UDP_BUF_SIZE) vs →
  (length vs = num ∨ match q with DgFrom _ _ :: _ => False | _ => True end) →
  take_dgrams (replicate num UDP_BUF_SIZE) ((arrived <$> vs) ++ q) = (vs, q).
Proof using Type.
  revert num. induction vs as [|[sa bs] vs IH]; intros num Hn Hf Hq.
  - cbn [fmap list_fmap app]. destruct num; [by destruct q as [|[]]|]. destruct Hq as [|Hq]; [done|]. by destruct q as [|[]].
  - destruct num as [|num]; [cbn in Hn; lia|]. apply Forall_cons in Hf as [Hb Hf]. cbn [snd] in Hb.
    cbn [fmap list_fmap app replicate take_dgrams arrived fst snd].
    rewrite IH; [|cbn in Hn; lia|done|destruct Hq as [Hq|Hq]; [left; cbn in Hq; lia|by right]].
    rewrite take_ge; [done|]. unfold zlen in Hb. lia.
Qed.

Lemma recv_datagrams e c num vs q s :
  chans (io s) !! e = Some c → rxd c = (arrived <$> vs) ++ q → vs ≠ [] → (length vs <= num)%nat →
  Forall (λ v, zlen v.2 <= UDP_BUF_SIZE) vs →
  (length vs = num ∨ match q with DgFrom _ _ :: _ => False | _ => True end) →
  hev_task_io_socket_recvmmsg e (replicate num UDP_BUF_SIZE) MSG_DONTWAIT udp_yielder s =
    Val (zlen vs, vs) (St (self s) (put_chan e (set_rxd q c) (io s))).
Proof using Type.
  intros Hc Hr Hne Hn Hf Hq. unfold hev_task_io_socket_recvmmsg, io_fuel. erewrite bind_val by reflexivity. rewrite Hc.
  cbn [recvmmsg_loop]. change (drop (Z.to_nat 0) (replicate num UDP_BUF_SIZE)) with (replicate num UDP_BUF_SIZE).
  assert (recvmmsg e (replicate num UDP_BUF_SIZE) s = Val (zlen vs, vs) (St (self s) (put_chan e (set_rxd q c) (io s)))) as Hv.
  { unfold recvmmsg, on_chan, on_io, zoom. rewrite Hc, Hr. destruct vs as [|[sa bs] vs]; [done|].
    pose proof (take_all_dgrams num _ q Hn Hf Hq) as Ht. cbn [fmap list_fmap app arrived fst snd] in *. by rewrite Ht. }
  erewrite bind_val by exact Hv. cbv beta iota. erewrite bind_val by reflexivity. pose proof (zlen_nonneg vs).
  destruct (Z.ltb_spec (zlen vs) 0); [lia|]. cbn [andb]. change (flag MSG_DONTWAIT MSG_WAITALL) with false. done.
Qed.

(** The received data in the buffers. *)
Lemma store_received X d i o m b buf k n vs s :
  tcp_view X d i o m s → m !! buf = Some b → (length vs <= n)%nat → Forall (λ v : sockaddr6 * bytes, zlen v.2 <= UDP_BUF_SIZE) vs →
  UDP_BUF_SIZE * (Z.of_nat k + Z.of_nat n) <= zlen b →
  ∃ s', store_datagrams ((λ j, buffer buf (k + j)) <$> seq 0 n) vs s = Val tt s' ∧
    tcp_view X d i o (<[buf := fill b k ((λ v, ([], v.2)) <$> vs)]> m) s'.
Proof using Type.
  revert m b k n s. induction vs as [|[sa bs] vs IH]; intros m b k n s Hs Hm Hn Hf Hb.
  - exists s. split; [by destruct n|]. cbn. by rewrite insert_id.
  - destruct n as [|n]; [cbn in Hn; lia|]. apply Forall_cons in Hf as [Hbs Hf]. cbn [snd] in Hbs.
    cbn [seq fmap list_fmap store_datagrams]. rewrite Nat.add_0_r.
    destruct (tcp_store X d i o m (buffer buf k) b bs s Hs Hm) as (s1 & Hv & Hs1).
    { cbn [snd buffer]. unfold UDP_BUF_SIZE. lia. }
    { cbn [snd buffer]. unfold UDP_BUF_SIZE in *. lia. }
    erewrite bind_val by exact Hv. cbn [fst snd buffer] in Hs1.
    destruct (IH _ _ (S k) n s1 Hs1 (lookup_insert_eq _ _ _)) as (s' & Hv' & Hs'); [cbn in Hn; lia|done| |].
    { rewrite zlen_overwrite; unfold UDP_BUF_SIZE in *; lia. }
    exists s'. split.
    + rewrite <- Hv'. f_equal. rewrite <- fmap_S_seq, <- list_fmap_compose. apply list_fmap_ext. intros j ? _.
      unfold compose. f_equal. lia.
    + rewrite insert_insert_eq in Hs'. exact Hs'.
Qed.

Lemma stack_block X d i o m bs s :
  tcp_view X d i o m s → ∃ p s', stack_alloc bs s = Val p s' ∧ m !! p = None ∧ tcp_view X d i o (<[p := bs]> m) s'.
Proof using Type.
  intros Hs. pose proof Hs as (_ & _ & Hbl & _). set (p := fresh (dom (blocks (io s)) ∪ {[0]})).
  exists p, (with_blocks (<[p := bs]> m) s). split; [|split; [|by eapply with_blocks_view]].
  - unfold stack_alloc, on_io, zoom. fold p. by rewrite <- Hbl.
  - apply not_elem_of_dom. rewrite <- Hbl. assert (p ∉ dom (blocks (io s)) ∪ {[0]}) as Hp by apply is_fresh.
    by apply not_elem_of_union in Hp as [? _].
Qed.

Lemma sender_at vs j v :
  Forall (λ v : sockaddr6 * bytes, zlen (sin6_addr v.1) = 16) vs → vs !! j = Some v →
  19 * Z.of_nat j + 19 <= zlen (mjoin (sender_bytes <$> vs)) ∧
  slice (mjoin (sender_bytes <$> vs)) (19 * Z.of_nat j) (zlen (wire v.1)) = wire v.1.
Proof using Type.
  intros Hf. revert j. induction Hf as [|w vs Hw Hf IH]; intros j Hj; [done|].
  change (mjoin (sender_bytes <$> w :: vs)) with (sender_bytes w ++ mjoin (sender_bytes <$> vs)).
  destruct (sender_wire w Hw) as [H19 Htk]. rewrite zlen_app. pose proof (zlen_nonneg (mjoin (sender_bytes <$> vs))).
  destruct j as [|j]; cbn in Hj.
  - injection Hj as ->. split; [lia|]. unfold slice. cbn [Z.of_nat]. rewrite Z.mul_0_r, drop_0.
    rewrite take_app_le; [done|]. apply (f_equal length) in Htk. rewrite length_take in Htk. unfold zlen in *. lia.
  - destruct (IH j Hj) as [Hl Hs]. split; [lia|]. rewrite <- Hs at 2. unfold slice.
    rewrite drop_app_ge by (unfold zlen in *; lia). do 2 f_equal. unfold zlen in *. lia.
Qed.

Lemma sender_messages vs b buf k p m :
  Forall (λ v : sockaddr6 * bytes, zlen (sin6_addr v.1) = 16 ∧ zlen v.2 <= UDP_BUF_SIZE) vs →
  UDP_BUF_SIZE * (Z.of_nat k + zlen vs) <= zlen b → p ≠ buf →
  m !! buf = Some (fill b k ((λ v, ([], v.2)) <$> vs)) → m !! p = Some (mjoin (sender_bytes <$> vs)) →
  Forall2 (carries m) (incoming <$> vs) (imap (fwd_message buf p k) vs).
Proof using Type.
  intros Hf Hb Hne Hbuf Hp. apply Forall2_same_length_lookup. split; [by rewrite length_imap, length_fmap|].
  intros j g v Hg Hv. rewrite list_lookup_fmap in Hg. rewrite list_lookup_imap in Hv.
  destruct (vs !! j) as [w|] eqn:Hw; [|done]. injection Hg as <-. injection Hv as <-.
  assert (Forall2 (carries m) ((λ v, ([], v.2)) <$> vs) (receiveds buf k ((λ v, ([], v.2)) <$> vs))) as Hc.
  { eapply fill_carries; [| |exact Hbuf].
    - apply Forall_fmap. eapply Forall_impl; [exact Hf|]. intros v [_ Hv]. unfold compose, small. cbn. exact Hv.
    - unfold zlen in *. rewrite length_fmap. done. }
  assert (∀ (l : list dgram) q, receiveds buf q l !! j = received buf (q + j) <$> l !! j) as Hrj.
  { clear. induction j as [|j IH]; intros [|g l] q; cbn; try done; [by rewrite Nat.add_0_r|].
    rewrite IH. by replace (q + S j)%nat with (S q + j)%nat by lia. }
  eapply Forall2_lookup_lr in Hc; [|by rewrite list_lookup_fmap, Hw|by rewrite Hrj, list_lookup_fmap, Hw].
  destruct Hc as (_ & Hd & _). split; [|split].
  - eexists. split; [reflexivity|]. cbn [fst incoming].
    assert (Forall (λ v : sockaddr6 * bytes, zlen (sin6_addr v.1) = 16) vs) as Hf'.
    { eapply Forall_impl; [exact Hf|]. by intros ? []. }
    destruct (sender_at vs j w Hf' Hw) as [Hl Hs]. pose proof (Forall_lookup_1 _ _ _ _ Hf' Hw) as Hw16.
    destruct (sender_wire w Hw16) as [H19 Htk]. exists (mjoin (sender_bytes <$> vs)). cbn [fst snd].
    split_and!; [done|lia| |exact Hs]. apply (f_equal length) in Htk. rewrite length_take in Htk. unfold zlen in *. lia.
  - cbn [mbuf fwd_message snd incoming received fst] in *. unfold shift in Hd. change (zlen []) with 0 in Hd.
    rewrite Z.add_0_r in Hd. exact Hd.
  - done.
Qed.

(** C19: the forwarder towards the session: in an environment in which datagrams have
    arrived on the socket and the session's connection delivers, one call sends
    exactly those datagrams, as many as there are buffers, as frames that name their
    senders, in order; the memory that it used for the addresses is released, and
    the result is 1. *)
Theorem fwd_b_frames X d e c vs q num i o m buf b s :
  tcp_view X d i o m s → d ≠ e → X !! e = Some c → rxd c = (arrived <$> vs) ++ q → vs ≠ [] → (length vs <= num)%nat →
  Forall (λ v : sockaddr6 * bytes, zlen (sin6_addr v.1) = 16 ∧ zlen v.2 <= UDP_BUF_SIZE) vs →
  (length vs = num ∨ match q with DgFrom _ _ :: _ => False | _ => True end) →
  m !! buf = Some b → UDP_BUF_SIZE * (2 * Z.of_nat num) <= zlen b →
  ∃ s' b', hev_socks5_udp_fwd_b e buf num s = Val 1 s' ∧
    tcp_view (<[e := set_rxd q c]> X) d i (o ++ frames (incoming <$> vs)) (<[buf := b']> m) s'.
Proof using Type.
  intros Hs Hde Hx Hr Hne Hn Hf Hq Hm Hb. unfold hev_socks5_udp_fwd_b.
  assert (Forall (λ v : sockaddr6 * bytes, zlen v.2 <= UDP_BUF_SIZE) vs) as Hfb.
  { eapply Forall_impl; [exact Hf|]. by intros ? []. }
  erewrite bind_val by (by apply (recv_datagrams e c num vs q); [eapply view_chan|..]). cbv beta iota.
  pose proof (view_put _ _ _ (set_rxd q c) _ _ _ _ Hs Hde) as Hs1. set (s1 := St _ _) in *. clearbody s1.
  destruct (store_received _ d i o m b buf num num vs s1 Hs1 Hm Hn Hfb) as (s2 & Hv2 & Hs2); [lia|].
  erewrite bind_val by exact Hv2. assert (0 < zlen vs) as Hpos.
  { destruct vs; [done|]. rewrite zlen_cons. pose proof (zlen_nonneg vs). lia. }
  destruct (Z.ltb_spec 0 (zlen vs)); [|lia].
  destruct (stack_block _ _ _ _ _ (mjoin (sender_bytes <$> vs)) _ Hs2) as (p & s3 & Hv3 & Hp & Hs3).
  erewrite bind_val by exact Hv3. set (gs0 := (λ v, ([], v.2)) <$> vs) in *.
  set (m2 := <[p := _]> _) in Hs3.
  assert (p ≠ buf) as Hpb by (intros ->; by rewrite lookup_insert_eq in Hp).
  assert (Forall2 (carries m2) (incoming <$> vs) (imap (fwd_message buf p num) vs)) as Hc.
  { apply (sender_messages vs b buf num p m2); [done| |done| |apply lookup_insert_eq].
    - unfold zlen, UDP_BUF_SIZE in *. lia.
    - unfold m2. by rewrite lookup_insert_ne, lookup_insert_eq by done. }
  destruct (send_frames _ d _ _ _ _ _ _ Hs3 Hc) as (s4 & Hv4 & Hs4).
  { by destruct vs. }
  { apply Forall_fmap. eapply Forall_impl; [exact Hf|]. intros v [Hv _]. by apply wire_sendable. }
  erewrite bind_val by exact Hv4. erewrite bind_val by reflexivity. exists (with_blocks (delete p m2) s4).
  exists (fill b num gs0). split.
  - unfold fwd_result. erewrite bind_val by reflexivity. unfold zlen in *. rewrite length_fmap.
    destruct (Z.leb_spec (Z.of_nat (length vs)) 0); [lia|]. f_equal.
    destruct Hs4 as (_ & _ & <- & _). by destruct s4 as [? []].
  - apply (with_blocks_view _ _ _ _ _ (<[buf := fill b num gs0]> m)) in Hs4. unfold m2.
    by rewrite delete_insert_id by done.
Qed.


(** The receiver of a frame for a name whose header length does not fit its byte. *)
Lemma long_frame_rejected X d name port dat i o m buf nb s :
  249 <= zlen name <= 253 → tcp_view X d (frame (wire_name name port, dat) ++ i) o m s →
  ∃ s', hev_socks5_udp_recvmmsg [slot buf 0] nb s = Val (-1, [slot buf 0]) s' ∧
    (tcp_view X d (drop 5 (frame (wire_name name port, dat)) ++ i) o m s' ∨
     nb = true ∧ errno (io s') = EAGAIN ∧ tcp_view X d (frame (wire_name name port, dat) ++ i) o m s').
Proof using Type.
  intros Hn Hs. set (t := HEV_SOCKS5_ADDR_TYPE_NAME).
  assert (zlen (wire_name name port) = 4 + zlen name) as Hw.
  { unfold wire_name. rewrite !zlen_cons, zlen_app. change (zlen (le16 port)) with 2. lia. }
  set (h := le16 (htons (u16 (zlen dat))) ++ [u8 (3 + zlen (wire_name name port)); t; zlen name]).
  assert (frame (wire_name name port, dat) ++ i = h ++ (name ++ le16 port) ++ dat ++ i) as Hfr.
  { unfold frame, h, wire_name. cbn [fst snd]. rewrite <- !app_assoc. cbn [app]. by rewrite <- !app_assoc. }
  assert (drop 5 (frame (wire_name name port, dat)) ++ i = (name ++ le16 port) ++ dat ++ i) as Hrest.
  { change (drop 5 (frame (wire_name name port, dat))) with ((name ++ le16 port) ++ dat). by rewrite <- app_assoc. }
  rewrite Hrest. clear Hrest. rewrite Hfr in *. pose proof Hs as ((_ & Ht) & Hd & _).
  unfold hev_socks5_udp_recvmmsg. erewrite bind_val by reflexivity. rewrite Ht.
  unfold hev_socks5_udp_recvmmsg_tcp. erewrite bind_val by reflexivity. rewrite Hd. cbn [recvmmsg_tcp_loop].
  destruct (tcp_head X d nb h _ o m s Hs eq_refl) as [(s1 & Hv & Hs1)|(-> & s1 & Her & Hv & Hs1)].
  2: { exists s1. split; [by erewrite bind_val by exact Hv|]. right. done. }
  erewrite bind_val by exact Hv. cbv beta iota. change (negb (5 =? 5)) with false. cbv iota.
  assert (zget h 2 = Some (zlen name - 249)) as Hg.
  { change (zget h 2) with (Some (u8 (3 + zlen (wire_name name port)))). rewrite Hw. unfold u8. f_equal.
    rewrite <- (Z.mod_small (zlen name - 249) 256) by lia.
    replace (3 + (4 + zlen name)) with (zlen name - 249 + 1 * 256) by lia. apply Z.mod_add. lia. }
  erewrite bind_val by (rewrite Hg; reflexivity). destruct (Z.ltb_spec (zlen name - 249) 5); [|lia]. exists s1. split; [done|by left].
Qed.

(** A frame that ends early is used before it is there: when the connection of
    the session ends inside of a frame, after its head, the number of bytes that
    were read is taken for a number of messages, and the forwarder follows an address
    that was never set, whatever the bytes are. *)
Theorem truncated_frame_undefined d e d0 d1 hl t l x part rest txs buf b num bound s :
  timeout (base (self s)) ≠ 0 → type (base (self s)) = HEV_SOCKS5_TYPE_UDP_IN_TCP → udp_get_fd (self s) = d →
  chans (io s) !! d = Some (Chan [RxData d0 [d1; hl; t; l]; RxData x part; RxEof] rest txs [] [] false) →
  5 < hl < 256 → zlen (x :: part) < hl - 5 + ntohs (d0 + 256 * d1) → 0 <= ntohs (d0 + 256 * d1) <= UDP_BUF_SIZE - (hl - 3) →
  blocks (io s) !! buf = Some b → UDP_BUF_SIZE * Z.of_nat (S num) <= zlen b →
  hev_socks5_udp_fwd_f e buf (S num) bound s = Stuck.
Proof using Type.
  intros Hto Hty Hd Hc Hhl Hshort Hdl Hb Hbl. set (dl := ntohs (d0 + 256 * d1)) in *.
  set (c1 := Chan [RxData x part; RxEof] rest txs [] [] false).
  set (s1 := St (self s) (put_chan d c1 (io s))).
  assert (∀ fl, flag fl MSG_WAITALL = false → hev_task_io_socket_recv d 5 fl udp_yielder s = Val (5, [d0; d1; hl; t; l]) s1) as Hhead.
  { intros fl Hfl. unfold hev_task_io_socket_recv, io_fuel. erewrite bind_val by reflexivity. rewrite Hc. cbn [recv_loop].
    assert (recv d (5 - 0) s = Val (5, [d0; d1; hl; t; l]) s1) as Hv by (unfold recv, on_chan, on_io, zoom; by rewrite Hc).
    erewrite bind_val by exact Hv. cbv beta iota. erewrite bind_val by reflexivity. change (5 <? 0) with false. cbn [andb]. by rewrite Hfl. }
  set (n := hl - 5 + dl) in *. set (body := x :: part) in *.
  assert (0 < zlen body) as Hpos by (unfold body; rewrite zlen_cons; pose proof (zlen_nonneg part); lia).
  set (c2 := Chan [RxEof] rest txs [] [] false). set (s2 := St (self s1) (put_chan d c2 (io s1))).
  assert (chans (io s1) !! d = Some c1) as Hc1 by (unfold s1; destruct (io s); cbn; apply lookup_insert_eq).
  assert (chans (io s2) !! d = Some c2) as Hc2 by (unfold s2; destruct (io s1); cbn; apply lookup_insert_eq).
  assert (hev_task_io_socket_recv d n MSG_WAITALL udp_yielder s1 = Val (zlen body, body) s2) as Hbody.
  { unfold hev_task_io_socket_recv, io_fuel. erewrite bind_val by reflexivity. rewrite Hc1. cbn [length c1 rxq Nat.add recv_loop].
    assert (recv d (n - 0) s1 = Val (zlen body, body) s2) as Hv.
    { unfold recv, on_chan, on_io, zoom. rewrite Hc1. cbn [rxq c1]. fold body. rewrite Z.sub_0_r.
      rewrite take_ge, drop_ge by (unfold zlen in *; lia). done. }
    erewrite bind_val by exact Hv. cbv beta iota. erewrite bind_val by reflexivity.
    destruct (Z.ltb_spec (zlen body) 0), (Z.leb_spec (zlen body) 0); try lia. cbn [andb].
    change (flag MSG_WAITALL MSG_WAITALL) with true. cbn [negb]. cbv iota zeta. rewrite Z.add_0_l.
    destruct (Z.ltb_spec (zlen body) n); [|lia].
    assert (recv d (n - zlen body) s2 = Val (0, []) s2) as Hv2.
    { unfold recv, on_chan, on_io, zoom. rewrite Hc2. cbn [rxq c2]. by destruct s2. }
    erewrite bind_val by exact Hv2. cbv beta iota. erewrite bind_val by reflexivity. cbn [Z.ltb Z.compare andb negb Z.leb].
    rewrite truthy_ne by lia. done. }
  set (iov := [(shift (buffer buf 0) 2, hl - 5); (shift (buffer buf 0) (hl - 3), dl)]).
  assert (rtotal iov = n) as Hrt by (unfold iov, rtotal, n; cbn; lia).
  assert (∃ m', put_iov iov body (blocks (io s1)) = Some m') as [m' Hput].
  { set (pad := replicate (Z.to_nat (n - zlen body)) 0).
    set (full := body ++ pad). assert (zlen full = n) as Hfull by (unfold full, pad, zlen in *; rewrite length_app, length_replicate; lia).
    assert (blocks (io s1) !! buf = Some b) as Hb1 by (unfold s1; by destruct (io s)).
    pose proof (store_frame (buf, 2) (hl - 5) b (take (Z.to_nat (hl - 5)) full) (drop (Z.to_nat (hl - 5)) full) (blocks (io s1))) as Hst.
    rewrite zlen_take, zlen_drop, take_drop in Hst by lia. cbn [fst snd] in Hst. unfold UDP_BUF_SIZE in *.
    edestruct (put_iov_app iov body pad) as (m1 & Hm1 & _); [| |by exists m1].
    - unfold iov. repeat constructor; cbn; lia.
    - fold full. unfold iov. rewrite <- Hst; try done; try lia. unfold shift, buffer. cbn [fst snd].
      do 3 f_equal; f_equal; try lia. f_equal. lia. }
  pose proof (recvmsg_recv udp_task_io_yielder d iov MSG_WAITALL body m' (zlen body) s1 s2 blind_udp_yielder) as Hmsg.
  rewrite Hrt in Hmsg. specialize (Hmsg ltac:(unfold iov; repeat constructor; cbn; lia) Hbody Hput).
  assert (hev_socks5_udp_recvmmsg (slot buf <$> seq 0 (S num)) true s =
    Val (zlen body, slot buf <$> seq 0 (S num)) (with_blocks m' s2)) as Hv.
  { unfold hev_socks5_udp_recvmmsg. erewrite bind_val by reflexivity. rewrite Hty.
    unfold hev_socks5_udp_recvmmsg_tcp. erewrite bind_val by reflexivity. rewrite Hd. cbn [seq fmap list_fmap recvmmsg_tcp_loop].
    assert (recv_head d (nonblock_flag true) s = Val (5, [d0; d1; hl; t; l]) s1) as Hh.
    { unfold recv_head. by erewrite bind_val by (by apply Hhead). }
    erewrite bind_val by exact Hh. cbv beta iota. change (negb (5 =? 5)) with false. cbv iota.
    erewrite bind_val by reflexivity. destruct (Z.ltb_spec hl 5); [lia|]. cbv zeta.
    erewrite bind_val by reflexivity. fold dl. cbn [slot mlen mbuf]. unfold UDP_BUF_SIZE in *.
    unfold u64. rewrite Z.mod_small by lia. destruct (Z.ltb_spec (1500 - (hl - 3)) dl); [lia|].
    replace (hl - 3 - 2) with (hl - 5) by lia. erewrite bind_val by exact Hmsg.
    destruct (Z.eqb_spec (zlen body) (hl - 5 + dl)); [lia|]. done. }
  unfold hev_socks5_udp_fwd_f.
  change ((λ i0, UDPMsg Undef (buffer buf i0) UDP_BUF_SIZE) <$> seq 0 (S num)) with (slot buf <$> seq 0 (S num)).
  erewrite bind_val by exact Hv. cbv beta iota. destruct (Z.ltb_spec 0 (zlen body)); [|lia].
  replace (Z.to_nat (zlen body)) with (S (length part)) by (unfold body, zlen; cbn [length]; lia). done.
Qed.


End Forward.

(** ** Between two sessions *)

Section Both.
Context {P : Type} `{UDPClass P} {Q : Type} `{UDPClass Q} `{Resolver}.

(** C20: datagrams cross the session over TCP whole: in environments that deliver
    what is sent, the vector that one side sends arrives at the other as the same
    vector, whatever the segments of the stream are: the bytes on the connection
    are the frames of the datagrams, every message that is filled in points to the
    address and to the data of the datagram with the same place, the lengths are
    right, and the bytes after the last frame are left in the stream. *)
Theorem udp_tcp_roundtrip d e gs msgv buf b i o j k m m' X Y (s : st P) (r : st Q) :
  tcp_view X d i o m s → Forall2 (carries m) gs msgv → gs ≠ [] → Forall fits gs →
  tcp_view Y e (frames gs ++ j) k m' r → m' !! buf = Some b → UDP_BUF_SIZE * zlen gs <= zlen b →
  ∃ s' r' got m'', hev_socks5_udp_sendmmsg msgv s = Val (zlen gs) s' ∧ tcp_view X d i (o ++ frames gs) m s' ∧
    hev_socks5_udp_recvmmsg (slot buf <$> seq 0 (length gs)) false r = Val (zlen gs, got) r' ∧
    tcp_view Y e j k m'' r' ∧ Forall2 (carries m'') gs got.
Proof using Type.
  intros Hs Hc Hne Hf Hr Hm Hb.
  destruct (send_frames X d _ _ _ _ _ _ Hs Hc Hne (fits_sendable _ Hf)) as (s' & Hv & Hs').
  destruct (recv_messages Y e false buf gs j k m' b r Hr Hf Hm Hb) as (n & r' & _ & Hn & _ & Hv' & Hr').
  specialize (Hn eq_refl) as ->. rewrite firstn_all, drop_all, Nat.sub_diag, decide_True in * by (by left).
  cbn [seq fmap list_fmap] in Hv'. rewrite app_nil_r in Hv'.
  exists s', r', (receiveds buf 0 gs), (<[buf := fill b 0 gs]> m'). split_and!; try done.
  eapply fill_carries; [by apply fits_small| |apply lookup_insert_eq]. lia.
Qed.

(** C21: a long name is lost: when one side sends a datagram for a name of 249 to 253
    bytes, which every other function of the program accepts, [hev_socks5_udp_sendmmsg]
    reports that it was sent, but the length of the header does not fit its byte and
    wraps around; and the other side, given these bytes, whether it waits or not, never
    delivers the datagram: once the head of the frame has come it reports an error, with
    the rest of the frame left in the stream. *)
Theorem long_name_rejected d e name port dat v i o m buf nb j k m' X Y (s : st P) :
  249 <= zlen name <= 253 → tcp_view X d i o m s → carries m (wire_name name port, dat) v →
  ∃ s' bs, hev_socks5_udp_sendmmsg [v] s = Val 1 s' ∧ tcp_view X d i (o ++ bs) m s' ∧ zget bs 2 = Some (zlen name - 249) ∧
    ∀ r : st Q, tcp_view Y e (bs ++ j) k m' r →
      ∃ r', hev_socks5_udp_recvmmsg [slot buf 0] nb r = Val (-1, [slot buf 0]) r' ∧
        (tcp_view Y e (drop 5 bs ++ j) k m' r' ∨
         nb = true ∧ errno (io r') = EAGAIN ∧ tcp_view Y e (bs ++ j) k m' r').
Proof using Type.
  intros Hn Hs Hc. set (g := (wire_name name port, dat)).
  assert (zlen (wire_name name port) = 4 + zlen name) as Hw.
  { unfold wire_name. rewrite !zlen_cons, zlen_app. change (zlen (le16 port)) with 2. lia. }
  destruct (send_frames X d [g] [v] i o m s Hs) as (s' & Hv & Hs').
  - constructor; [done|constructor].
  - done.
  - repeat constructor; cbn [fst g]; [rewrite Hw; reflexivity|rewrite Hw; lia].
  - exists s', (frame g). change (frames [g]) with (frame g ++ []) in Hs'. rewrite app_nil_r in Hs'.
    split_and!; [exact Hv|exact Hs'| |].
    + change (zget (frame g) 2) with (Some (u8 (3 + zlen (wire_name name port)))). rewrite Hw. unfold u8. f_equal.
      replace (3 + (4 + zlen name)) with (zlen name - 249 + 1 * 256) by lia. rewrite Z.mod_add by lia. apply Z.mod_small. lia.
    + intros r Hr. by apply long_frame_rejected.
Qed.
End Both.

(** ** Concrete sessions

    Two datagrams for two addresses; the frames come in segments, with a pause. *)
#[local] Instance nameless : Resolver := {| inet_pton _ _ := None; getaddrinfo _ _ := None |}.

Definition talker : HevSocks5ClientUDP :=
  ClientUDP (Client (Socks5 3 9 HEV_SOCKS5_TYPE_UDP_IN_TCP false 0) None None) (-1).
Definition talk : list dgram := [(wire_ipv4 [10; 0; 0; 1] 80, [7; 8]); (wire_ipv4 [10; 0; 0; 2] 81, [9])].
Definition talk_sas : list sockaddr6 := [ipv4_sockaddr [10; 0; 0; 1] 80; ipv4_sockaddr [10; 0; 0; 2] 81].

Definition talk_rx : list rx_event :=
  [RxData 0 [2; 10]; RxAgain; RxData 1 [10; 0; 0; 1; 80; 0; 7; 8; 0; 1; 10; 1; 10; 0; 0]; RxData 2 [81; 0; 9; 55]].
Definition talk_state (rx : list rx_event) (m : gmap Z bytes) : st HevSocks5ClientUDP :=
  St talker (World 0 [7; 7] {[3 := Chan rx [] [] [] [] false; 4 := Chan [] [] [] [] [] false]} [] [] [] [] m {[3; 4]} (config idle_world)).
Definition other : gmap Z chan := {[4 := Chan [] [] [] [] [] false]}.

Definition inbox : gmap Z bytes := {[1 := replicate 3000 0]}.
(** The messages of the sender: addresses and data in one block. *)
Definition outbox : gmap Z bytes := {[1 := [1; 10; 0; 0; 1; 80; 0; 7; 8; 1; 10; 0; 0; 2; 81; 0; 9]]}.
Definition talk_msgs : list HevSocks5UDPMsg := [UDPMsg (Ref (1, 0)) (1, 7) 2; UDPMsg (Ref (1, 9)) (1, 16) 1].

Lemma others_chans rx m : delete 3 (chans (io (talk_state rx m))) = other.
Proof. cbn. by rewrite delete_insert_id. Qed.

Lemma talk_view m : tcp_view other 3 (frames talk ++ [55]) [] m (talk_state talk_rx m).
Proof.
  split; [done|]. split; [done|]. split; [done|]. split; [apply others_chans|]. eexists. split.
  - split; [reflexivity|repeat constructor|repeat constructor|cbn; lia|repeat constructor].
  - by vm_compute.
Qed.

Lemma quiet_view m : tcp_view other 3 [] [] m (talk_state [] m).
Proof.
  split; [done|]. split; [done|]. split; [done|]. split; [apply others_chans|]. eexists. split.
  - split; [reflexivity|repeat constructor|repeat constructor|cbn; lia|repeat constructor].
  - done.
Qed.

Lemma talk_fits : Forall fits talk.
Proof. repeat constructor; by vm_compute. Qed.

Lemma talk_carried : Forall2 (carries outbox) talk talk_msgs.
Proof.
  repeat constructor.
  - exists (1, 0). split; [done|]. eexists. split; [reflexivity|]. split_and!; by vm_compute.
  - eexists. split; [reflexivity|]. split_and!; by vm_compute.
  - exists (1, 9). split; [done|]. eexists. split; [reflexivity|]. split_and!; by vm_compute.
  - eexists. split; [reflexivity|]. split_and!; by vm_compute.
Qed.

Lemma talk_resolves : Forall2 resolves talk talk_sas.
Proof.
  repeat constructor; intros rest fam; exists HEV_SOCKS5_ADDR_FAMILY_IPV4; by apply into_sockaddr6_ipv4.
Qed.

Lemma inbox_room : UDP_BUF_SIZE * zlen talk <= zlen (replicate 3000 0).
Proof. by vm_compute. Qed.

Lemma udp_tcp_roundtrip_witness :
  (tcp_view other 3 [] [] outbox (talk_state [] outbox) ∧ Forall2 (carries outbox) talk talk_msgs ∧ Forall fits talk ∧
    tcp_view other 3 (frames talk ++ [55]) [] inbox (talk_state talk_rx inbox)) ∧
  ∃ s' r' got m'', hev_socks5_udp_sendmmsg talk_msgs (talk_state [] outbox) = Val 2 s' ∧
    tcp_view other 3 [] ([] ++ frames talk) outbox s' ∧
    hev_socks5_udp_recvmmsg [slot 1 0; slot 1 1] false (talk_state talk_rx inbox) = Val (2, got) r' ∧
    tcp_view other 3 [55] [] m'' r' ∧ Forall2 (carries m'') talk got.
Proof.
  split; [exact (conj (quiet_view _) (conj talk_carried (conj talk_fits (talk_view _))))|].
  exact (udp_tcp_roundtrip 3 3 talk talk_msgs 1 (replicate 3000 0) [] [] [55] [] outbox inbox other other
    (talk_state [] outbox) (talk_state talk_rx inbox) (quiet_view _) talk_carried ltac:(done) talk_fits (talk_view _)
    eq_refl inbox_room).
Defined.

Lemma fwd_f_forwards_witness :
  (tcp_view other 3 (frames talk ++ [55]) [] inbox (talk_state talk_rx inbox) ∧ Forall fits talk ∧
    Forall2 resolves talk talk_sas) ∧
  ∃ n s' m', (n <= 2)%nat ∧
    hev_socks5_udp_fwd_f 4 1 2 false (talk_state talk_rx inbox) = Val (if decide (n = 0%nat) then (0, false) else (1, true)) s' ∧
    tcp_view (if decide (n = 0%nat) then other else given other 4 (Chan [] [] [] [] [] false) (outgoing (take n talk) (take n talk_sas)))
      3 (frames (drop n talk) ++ [55]) [] m' s'.
Proof.
  split; [exact (conj (talk_view _) (conj talk_fits talk_resolves))|].
  exact (fwd_f_forwards other 3 4 (Chan [] [] [] [] [] false) talk talk_sas false [55] [] inbox 1 (replicate 3000 0)
    (talk_state talk_rx inbox) (talk_view _) ltac:(done) eq_refl eq_refl ltac:(done) talk_fits talk_resolves eq_refl
    inbox_room (or_intror (λ _ _, eq_refl))).
Defined.

(** Datagrams from two senders, one of them with an IPv6 address. *)
Definition news : list (sockaddr6 * bytes) :=
  [(ipv4_sockaddr [10; 0; 0; 1] 80, [7; 8]); (ipv6_sockaddr [1; 2; 3; 4; 5; 6; 7; 8; 9; 10; 11; 12; 13; 14; 15; 16] 81, [9])].
Definition news_chan : chan := Chan [] (arrived <$> news) [] [] [] false.
Definition news_state : st HevSocks5ClientUDP :=
  St talker (World 0 [7; 7] {[3 := Chan [] [] [] [] [] false; 4 := news_chan]} [] [] [] [] {[1 := replicate 9000 0]} {[3; 4]}
    (config idle_world)).

Lemma news_view : tcp_view {[4 := news_chan]} 3 [] [] {[1 := replicate 9000 0]} news_state.
Proof.
  split; [done|]. split; [done|]. split; [done|]. split; [cbn; by rewrite delete_insert_id|]. eexists. split.
  - split; [reflexivity|repeat constructor|repeat constructor|cbn; lia|repeat constructor].
  - done.
Qed.

Lemma fwd_b_frames_witness :
  tcp_view {[4 := news_chan]} 3 [] [] {[1 := replicate 9000 0]} news_state ∧
  ∃ s' b', hev_socks5_udp_fwd_b 4 1 3 news_state = Val 1 s' ∧
    tcp_view (<[4 := set_rxd [] news_chan]> {[4 := news_chan]}) 3 []
      ([0; 2; 10; 1; 10; 0; 0; 1; 80; 0; 7; 8; 0; 1; 22; 4; 1; 2; 3; 4; 5; 6; 7; 8; 9; 10; 11; 12; 13; 14; 15; 16; 81; 0; 9])
      (<[1 := b']> {[1 := replicate 9000 0]}) s'.
Proof.
  split; [exact news_view|].
  apply (fwd_b_frames {[4 := news_chan]} 3 4 news_chan news [] 3 [] [] {[1 := replicate 9000 0]} 1 (replicate 9000 0) news_state);
    [exact news_view|done|done|done|done|by vm_compute; lia|repeat constructor; by vm_compute|by right|done|by vm_compute].
Defined.

(** A name of 249 bytes, in a message of the sender, and what arrives of it. *)
Definition long_name : bytes := replicate 249 97.
Definition long_outbox : gmap Z bytes := {[1 := wire_name long_name 80 ++ [7]]}.
Definition long_msg : HevSocks5UDPMsg := UDPMsg (Ref (1, 0)) (1, 253) 1.
Definition long_sent : bytes :=
  match hev_socks5_udp_sendmmsg [long_msg] (talk_state [] long_outbox) with
  | Val _ s => match chans (io s) !! 3 with Some c => tx c | None => [] end
  | _ => []
  end.
Definition long_state : st HevSocks5ClientUDP :=
  talk_state [RxData (hd 0 long_sent) (tl long_sent)] inbox.

Lemma long_view : tcp_view other 3 (long_sent ++ []) [] inbox long_state.
Proof.
  split; [done|]. split; [done|]. split; [done|]. split; [apply others_chans|]. eexists. split.
  - split; [reflexivity|repeat constructor|repeat constructor|cbn; lia|repeat constructor].
  - by vm_compute.
Qed.

Lemma long_carried : carries long_outbox (wire_name long_name 80, [7]) long_msg.
Proof.
  split_and!; [|eexists; split; [reflexivity|]; split_and!; by vm_compute|done].
  exists (1, 0). split; [done|]. eexists. split; [reflexivity|]. split_and!; by vm_compute.
Qed.

Lemma long_name_rejected_witness :
  (249 <= zlen long_name <= 253 ∧ tcp_view other 3 (long_sent ++ []) [] inbox long_state) ∧
  ∃ r', hev_socks5_udp_recvmmsg [slot 1 0] false long_state = Val (-1, [slot 1 0]) r'.
Proof.
  assert (249 <= zlen long_name <= 253) as Hl by (by vm_compute).
  split; [exact (conj Hl long_view)|].
  destruct (long_name_rejected 3 3 long_name 80 [7] long_msg [] [] long_outbox 1 false [] [] inbox other other
    (talk_state [] long_outbox) Hl (quiet_view _) long_carried) as (s' & bs & Hv & (_ & _ & _ & _ & c & [Hc _] & _ & Htx) & _ & Hr).
  assert (bs = long_sent) as ->.
  { unfold long_sent. rewrite Hv, Hc. symmetry. exact Htx. }
  destruct (Hr long_state long_view) as (r' & He & _). exists r'. exact He.
Defined.

(** The connection ends after one byte of the rest of the frame. *)
Definition cut_state : st HevSocks5ClientUDP :=
  St talker (World 0 [7; 7] {[3 := Chan [RxData 0 [2; 10; 1; 10]; RxData 0 []; RxEof] [] [] [] [] false]} [] [] [] [] inbox {[3]}
    (config idle_world)).

Lemma truncated_frame_undefined_witness :
  chans (io cut_state) !! 3 = Some (Chan [RxData 0 [2; 10; 1; 10]; RxData 0 []; RxEof] [] [] [] [] false) ∧
  hev_socks5_udp_fwd_f 4 1 2 true cut_state = Stuck.
Proof.
  split; [done|].
  apply (truncated_frame_undefined 3 4 0 2 10 1 10 0 [] [] [] 1 (replicate 3000 0) 1 true cut_state);
    [done|done|done|done|lia|by vm_compute|by vm_compute|done|by vm_compute].
Defined.
