(* ===== verification/ClientSpec.v ===== *)
(** * ClientSpec: what the handshake of the client accepts and sends

    The theorems are proved for every object whose class satisfies [ClientLaws];
    the TCP and the UDP client do. In every environment a successful handshake has
    read a valid sequence of replies, and the credentials leave the client only as
    the protocol allows; in an environment that keeps delivering, a valid sequence
    of replies makes the handshake succeed with exactly the expected bytes sent. *)
From S2P Require Import Prelude Bytes TaskIO TaskIOSpec Socks5 Socks5Spec SocketSpec Client.

(** ** Messages *)

Definition has_auth (k : HevSocks5Client) : bool :=
  match auth_user k, auth_pass k with Some _, Some _ => true | _, _ => false end.

Definition methods_msg (k : HevSocks5Client) : bytes := [5; 1; if has_auth k then 2 else 0].

Definition creds_msg (k : HevSocks5Client) : bytes :=
  match auth_user k, auth_pass k with
  | Some user, Some pass =>
      [1; u8 (zlen user)] ++ take (Z.to_nat (u8 (zlen user))) user ++
      [u8 (zlen pass)] ++ take (Z.to_nat (u8 (zlen pass))) pass
  | _, _ => []
  end.

Definition request_msg (k : HevSocks5Client) (a : bytes) : bytes :=
  [5; default 0 (request_cmd (type (cbase k))); 0] ++ a.

(** An address as it is sent: its length is the one that its type says. *)
Definition wire_addr (a : bytes) : Prop := hev_socks5_addr_len a = Some (zlen a) ∧ 0 < zlen a.

(** The replies of a server: the method, the result of the authentication when
    it chose user and password, and the response with the bound address. *)
Record replies := Replies { r_method : Z; r_rsv : Z; r_atype : Z; r_addr : bytes }.

Definition valid_replies (r : replies) : Prop :=
  (r_method r = 0 ∨ r_method r = 2) ∧
  (r_atype r = 1 ∧ zlen (r_addr r) = 6 ∨ r_atype r = 4 ∧ zlen (r_addr r) = 18).

Definition auth_reply (r : replies) : bytes := if r_method r =? 2 then [1; 0] else [].

Definition replies_msg (r : replies) : bytes :=
  [5; r_method r] ++ auth_reply r ++ [5; 0; r_rsv r; r_atype r] ++ r_addr r.

(** ** What a class promises to the client

    [good_addr a s]: the next call of [get_upstream_addr] yields a block with [a].
    [own s] is the descriptor of the connection to the server. *)
Definition own {O} `{IsSocks5 O} (s : st O) : Z := fd (base (self s)).

Class ClientLaws (O : Type) `{ClientClass O} := {
  good_addr : bytes → st O → Prop;
  set_easy : HevSocks5Type → Prop;
  good_addr_wire : ∀ a s, good_addr a s → wire_addr a;
  good_addr_evolve : ∀ a s s' fd c, good_addr a s → evolve fd c s s' → good_addr a s';
  good_addr_timeout : ∀ a s v,
    good_addr a s → good_addr a (St (set_base (set_tmo v (base (self s))) (self s)) (io s));
  binder_law : ∀ d a s, wp (binder d a) (λ _ s', calm s s') (λ _, True) s;
  get_law : ∀ a s, good_addr a s →
    ∃ p s', get_upstream_addr s = Val p s' ∧ blocks (io s') !! p = Some a ∧
      client (self s') = client (self s) ∧ chans (io s') = chans (io s) ∧ wakes (io s') = wakes (io s);
  set_law : ∀ a s c, chans (io s) !! own s = Some c → zlen a = sizeof_HevSocks5Addr →
    zget a 0 = Some 1 ∨ zget a 0 = Some 4 →
    wp (set_upstream_addr a) (λ r s', own s' = own s ∧ chans (io s') !! own s = Some c) (λ _, True) s;
  set_easy_law : ∀ a s, set_easy (type (base (self s))) → set_upstream_addr a s = Val 0 s
}.

(** ** The view of the connection

    The object's client part, the bytes still to come on the connection and the
    bytes that were sent. *)
Section View.
Context {O : Type} `{L : ClientLaws O} `{Resolver}.
Implicit Types s : st O.

Definition sees (k : HevSocks5Client) (i o : bytes) s : Prop :=
  client (self s) = k ∧ ∃ c, chans (io s) !! fd (cbase k) = Some c ∧ stream (rxq c) = i ∧ tx c = o.

Lemma sees_evolve k i o s s' c :
  client (self s) = k → evolve (fd (cbase k)) c s s' → stream (rxq c) = i → tx c = o → sees k i o s'.
Proof.
  intros Hk He Hi Ho. split; [by rewrite (evolve_self _ _ _ _ He)|]. exists c.
  split_and!; [by eapply evolve_chan|done|done].
Qed.

Lemma view_recv k i o len s :
  sees k i o s → 0 <= len →
  wp (hev_task_io_socket_recv (fd (cbase k)) len MSG_WAITALL yielder)
    (λ '(r, b) s', ∃ i' c, i = b ++ i' ∧ sees k i' o s' ∧ (r = len → zlen b = len) ∧ evolve (fd (cbase k)) c s s')
    (λ _, True) s.
Proof.
  intros (Hk & c & Hc & Hi & Ho) Hl.
  eapply wp_mono; [by apply (recv_any _ _ _ _ len c s yielder_polite)|intros [r b] s'|done].
  intros (q & He & Hst & _ & Hn). exists (stream q), (set_rxq q c). split_and!; try done; [congruence|].
  eapply sees_evolve; [done|exact He|done|done].
Qed.

Lemma view_send k i o buf flags s :
  sees k i o s → flag flags MSG_DONTWAIT = false → flag flags MSG_WAITALL = true →
  wp (hev_task_io_socket_send (fd (cbase k)) buf flags yielder)
    (λ r s', ∃ n c, sees k i (o ++ take n buf) s' ∧ Z.of_nat n <= zlen buf ∧
       (r = Z.of_nat n ∨ r < 0 ∧ n = 0%nat) ∧ evolve (fd (cbase k)) c s s') (λ _, True) s.
Proof.
  intros (Hk & c & Hc & Hi & Ho) Hf1 Hf2. unfold wp. rewrite (send_flags _ _ flags MSG_WAITALL) by done.
  eapply wp_mono; [by apply (send_any _ _ _ _ buf c s yielder_polite)|intros r s'|done].
  intros (q & n & He & Hn & Hr). eexists n, _. split_and!; [|done|done|exact He].
  eapply sees_evolve; [done|exact He|done|]. cbn. congruence.
Qed.

Lemma get_client_val s : get_client s = Val (client (self s)) s.
Proof. done. Qed.

(** Every write of the handshake sends a prefix of its message; its success is
    decided by the first byte only. *)
Lemma write_methods_any k i o a s :
  sees k i o s → good_addr a s →
  wp hev_socks5_client_write_auth_methods
    (λ r s', good_addr a s' ∧ (r = 0 ∨ r = -1) ∧ ∃ n, sees k i (o ++ take n (methods_msg k)) s') (λ _, True) s.
Proof.
  intros Hs Ha. unfold hev_socks5_client_write_auth_methods. eapply wp_bind_val; [reflexivity|].
  rewrite (proj1 Hs). cbv zeta.
  replace (match auth_user k with Some _ => _ | None => _ end) with (if has_auth k then 2 else 0)
    by (unfold has_auth; by destruct (auth_user k), (auth_pass k)).
  apply wp_bind. eapply wp_mono; [by apply view_send|intros r s'|done].
  intros (n & c & Hs' & _ & _ & He). apply wp_if; intros _; apply wp_ret;
    (split_and!; [by eapply good_addr_evolve|by auto|by exists n]).
Qed.

Lemma write_creds_any k i o a s :
  sees k i o s → good_addr a s →
  wp hev_socks5_client_write_auth_creds
    (λ r s', good_addr a s' ∧ (r = 0 ∨ r = -1) ∧ ∃ n, sees k i (o ++ take n (creds_msg k)) s') (λ _, True) s.
Proof.
  intros Hs Ha. unfold hev_socks5_client_write_auth_creds. eapply wp_bind_val; [reflexivity|].
  rewrite (proj1 Hs). unfold creds_msg.
  destruct (auth_user k) as [user|], (auth_pass k) as [pass|];
    try (apply wp_ret; split_and!; [done|by left|exists 0%nat; by rewrite take_0, app_nil_r]).
  cbv zeta. apply wp_bind. unfold wp. rewrite sendmsg_send.
  eapply wp_mono; [by apply view_send|intros r s'|done]. intros (n & c & Hs' & _ & _ & He).
  apply wp_if; intros _; apply wp_ret;
    (split_and!; [by eapply good_addr_evolve|by auto|exists n]; cbn in Hs' |- *; by rewrite ?app_nil_r in Hs').
Qed.

Lemma read_method_any k i o s :
  sees k i o s →
  wp hev_socks5_client_read_auth_method
    (λ r s', (∀ a, good_addr a s → good_addr a s') ∧ ∃ b i', i = b ++ i' ∧ sees k i' o s' ∧ (r = -1 ∨ b = [5; r])) (λ _, True) s.
Proof.
  intros Hs. unfold hev_socks5_client_read_auth_method. eapply wp_bind_val; [reflexivity|].
  rewrite (proj1 Hs). apply wp_bind. eapply wp_mono; [by apply view_recv|intros [r b] s'|done].
  intros (i' & c & -> & Hs' & Hn & He). assert (∀ a, good_addr a s → good_addr a s') as Ha' by (intros a ?; by eapply good_addr_evolve).
  destruct (Z.eqb_spec r 2) as [->|]; cbn [negb]; [|apply wp_ret; split; [done|exists b, i'; by auto]].
  specialize (Hn eq_refl). destruct b as [|v [|m [|? b]]]; try (unfold zlen in Hn; cbn in Hn; lia).
  cbn [of_option zget Z.leb Z.compare Z.to_nat]. apply wp_bind, wp_ret.
  destruct (Z.eqb_spec v HEV_SOCKS5_VERSION_5) as [->|]; cbn [negb]; apply wp_ret;
    (split; [done|]; eexists _, i'; split_and!; [done|done|by auto]).
Qed.

Lemma read_creds_any k i o s :
  sees k i o s →
  wp hev_socks5_client_read_auth_creds
    (λ r s', (∀ a, good_addr a s → good_addr a s') ∧ ∃ b i', i = b ++ i' ∧ sees k i' o s' ∧ (r = -1 ∨ r = 0 ∧ b = [1; 0])) (λ _, True) s.
Proof.
  intros Hs. unfold hev_socks5_client_read_auth_creds. eapply wp_bind_val; [reflexivity|].
  rewrite (proj1 Hs). apply wp_bind. eapply wp_mono; [by apply view_recv|intros [r b] s'|done].
  intros (i' & c & -> & Hs' & Hn & He). assert (∀ a, good_addr a s → good_addr a s') as Ha' by (intros a ?; by eapply good_addr_evolve).
  destruct (Z.eqb_spec r 2) as [->|]; cbn [negb]; [|apply wp_ret; split; [done|exists b, i'; by auto]].
  specialize (Hn eq_refl). destruct b as [|v [|m [|? b]]]; try (unfold zlen in Hn; cbn in Hn; lia).
  cbn [of_option zget Z.leb Z.compare Z.to_nat]. apply wp_bind, wp_ret.
  destruct (Z.eqb_spec v HEV_SOCKS5_AUTH_VERSION_1) as [->|]; cbn [negb];
    [|apply wp_ret; split; [done|]; eexists _, i'; split_and!; [done|done|by auto]].
  apply wp_bind, wp_ret. destruct (Z.eqb_spec m HEV_SOCKS5_RES_REP_SUCC) as [->|]; cbn [negb]; apply wp_ret;
    (split; [done|]; eexists _, i'; split_and!; [done|done|by auto]).
Qed.

(** ** The request *)

Lemma load_block p off n b s :
  blocks (io s) !! p = Some b → 0 <= off → 0 <= n → off + n <= zlen b →
  load (p, off) n s = Val (slice b off n) s.
Proof.
  intros Hp Ho Hn Hl. unfold load. cbn [fst snd]. rewrite Hp.
  destruct (Z.leb_spec 0 off), (Z.leb_spec 0 n), (Z.leb_spec (off + n) (zlen b)); try lia. done.
Qed.

Definition request_addrlen (addr : Z) (atype : bytes) : M (st O) Z :=
  if bool_decide (atype = [HEV_SOCKS5_ADDR_TYPE_IPV4]) then mret 7
  else if bool_decide (atype = [HEV_SOCKS5_ADDR_TYPE_IPV6]) then mret 19
  else if bool_decide (atype = [HEV_SOCKS5_ADDR_TYPE_NAME]) then
    len ← load (addr, 1) 1; mret (4 + default 0 (head len))
  else mret (-1).

Lemma request_addrlen_wire p a s :
  blocks (io s) !! p = Some a → wire_addr a →
  load (p, 0) 1 s = Val (slice a 0 1) s ∧ request_addrlen p (slice a 0 1) s = Val (zlen a) s.
Proof.
  intros Hp [Hl Hpos]. split; [apply load_block; [done|lia|lia|lia]|].
  destruct a as [|t a]; [done|]. unfold hev_socks5_addr_len in Hl.
  change (zget (t :: a) 0) with (Some t) in Hl. cbv beta iota in Hl. change (slice (t :: a) 0 1) with [t]. unfold request_addrlen.
  destruct (Z.eqb_spec t HEV_SOCKS5_ADDR_TYPE_IPV4) as [->|Hn4].
  { apply (inj Some) in Hl. by rewrite <- Hl. }
  rewrite bool_decide_eq_false_2 by congruence.
  destruct (Z.eqb_spec t HEV_SOCKS5_ADDR_TYPE_IPV6) as [->|Hn6].
  { apply (inj Some) in Hl. by rewrite <- Hl. }
  rewrite bool_decide_eq_false_2 by congruence.
  destruct (Z.eqb_spec t HEV_SOCKS5_ADDR_TYPE_NAME) as [->|Hne]; [|apply (inj Some) in Hl; lia].
  rewrite bool_decide_eq_true_2 by done. destruct a as [|n a]; [done|].
  change (zget (HEV_SOCKS5_ADDR_TYPE_NAME :: n :: a) 1) with (Some n) in Hl. cbn [fmap option_fmap option_map] in Hl.
  erewrite bind_val by (apply load_block; [exact Hp|lia|lia|rewrite !zlen_cons; pose proof (zlen_nonneg a); lia]).
  change (default 0 (head (slice (HEV_SOCKS5_ADDR_TYPE_NAME :: n :: a) 1 1))) with n.
  apply (inj Some) in Hl. by rewrite <- Hl.
Qed.

Lemma sees_same_chans k i o s s' :
  sees k i o s → client (self s') = client (self s) → chans (io s') = chans (io s) → sees k i o s'.
Proof. intros (Hk & c & Hc & Hi & Ho) Hcl Hch. split; [congruence|]. exists c. by rewrite Hch. Qed.

Lemma free_val p b s :
  blocks (io s) !! p = Some b →
  hev_free p s = Val tt (St (self s) (set_blocks (delete p (blocks (io s))) (io s))).
Proof. intros Hp. unfold hev_free, on_io, zoom. by rewrite Hp. Qed.

Lemma write_request_any k i o a s :
  sees k i o s → good_addr a s →
  wp hev_socks5_client_write_request
    (λ r s', (r = 0 ∨ r = -1) ∧ ∃ n, sees k i (o ++ take n (request_msg k a)) s') (λ _, True) s.
Proof.
  intros Hs Ha. unfold hev_socks5_client_write_request. eapply wp_bind_val; [reflexivity|].
  rewrite (proj1 Hs). unfold request_msg. destruct (request_cmd (type (cbase k))) as [cmd|].
  2: { apply wp_ret. split; [by right|]. exists 0%nat. by rewrite take_0, app_nil_r. }
  cbv zeta. destruct (get_law a s Ha) as (p & s1 & Hg & Hb & Hcl & Hch & _).
  eapply wp_bind_val; [exact Hg|]. pose proof (sees_same_chans _ _ _ _ _ Hs Hcl Hch) as Hs1.
  pose proof (good_addr_wire _ _ Ha) as Hw. destruct (request_addrlen_wire p a s1 Hb Hw) as [Hl1 Hl2].
  eapply wp_bind_val; [exact Hl1|]. eapply wp_bind_val; [exact Hl2|].
  destruct Hw as [_ Hpos]. destruct (Z.ltb_spec (zlen a) 0); [lia|].
  eapply wp_bind_val; [apply load_block; [exact Hb|lia|lia|lia]|].
  replace (slice a 0 (zlen a)) with a by (unfold slice, zlen; by rewrite Nat2Z.id, drop_0, take_ge).
  eapply wp_bind_val; [reflexivity|]. rewrite (proj1 Hs1). apply wp_bind. unfold wp. rewrite sendmsg_send.
  eapply wp_mono; [by apply view_send|intros r s2|done]. intros (n & c & Hs2 & _ & _ & He).
  replace (mjoin _) with ([5; cmd; 0] ++ a) in Hs2 by (cbn; by rewrite app_nil_r).
  apply wp_if; intros _; [apply wp_ret; split; [by right|by exists n]|].
  eapply wp_bind_val; [apply (free_val p a)|].
  { destruct He as (w & e & ->). by destruct (io s1). }
  apply wp_ret. split; [by left|]. exists n.
  eapply sees_same_chans; [exact Hs2|done|by destruct (io s2)].
Qed.

(** ** The response *)

Lemma own_client s : own s = fd (cbase (client (self s))).
Proof. unfold own. by rewrite client_base. Qed.

Lemma response_addr atype bs :
  zlen bs <= 258 →
  zlen (overwrite (overwrite addr_undef 0 [atype]) 1 bs) = sizeof_HevSocks5Addr ∧
  zget (overwrite (overwrite addr_undef 0 [atype]) 1 bs) 0 = Some atype.
Proof.
  intros Hb. change (overwrite addr_undef 0 [atype]) with (atype :: replicate 259 0).
  change (overwrite (atype :: replicate 259 0) 1 bs) with (atype :: overwrite (replicate 259 0) 0 bs).
  split; [|done]. rewrite zlen_cons, zlen_overwrite; [reflexivity|lia|].
  change (zlen (replicate 259 0)) with 259. lia.
Qed.

Lemma read_response_any k i o s :
  sees k i o s →
  wp hev_socks5_client_read_response
    (λ r s', (r = -1 ∨ r = 0 ∧ ∃ rsv atype body i', i = [5; 0; rsv; atype] ++ body ++ i' ∧
       (atype = 1 ∧ zlen body = 6 ∨ atype = 4 ∧ zlen body = 18)) ∧
      ∃ c', chans (io s') !! fd (cbase k) = Some c' ∧ tx c' = o) (λ _, True) s.
Proof using L.
  intros Hs. unfold hev_socks5_client_read_response. eapply wp_bind_val; [reflexivity|].
  rewrite (proj1 Hs). apply wp_bind. eapply wp_mono; [by apply view_recv|intros [r b] s1|done].
  intros (i1 & c & -> & Hs1 & Hn & _).
  assert (∀ A, A → A ∧ ∃ c', chans (io s1) !! fd (cbase k) = Some c' ∧ tx c' = o) as Hfin.
  { intros A HA. split; [done|]. destruct Hs1 as (_ & c1 & ? & _ & ?). by exists c1. }
  destruct (Z.eqb_spec r 4) as [->|]; cbn [negb]; [|apply wp_ret, Hfin; by left].
  specialize (Hn eq_refl). destruct b as [|v [|m [|rsv [|t [|? b]]]]]; try (unfold zlen in Hn; cbn in Hn; lia).
  cbn [of_option zget Z.leb Z.compare Z.to_nat]. apply wp_bind, wp_ret.
  destruct (Z.eqb_spec v HEV_SOCKS5_VERSION_5) as [->|]; cbn [negb]; [|apply wp_ret, Hfin; by left].
  apply wp_bind, wp_ret.
  destruct (Z.eqb_spec m HEV_SOCKS5_RES_REP_SUCC) as [->|]; cbn [negb]; [|apply wp_ret, Hfin; by left].
  apply wp_bind, wp_ret. cbv zeta.
  set (alen := if t =? _ then 6 else _). assert (alen = 6 ∧ t = 1 ∨ alen = 18 ∧ t = 4 ∨ alen = -1) as Hal.
  { unfold alen. destruct (Z.eqb_spec t HEV_SOCKS5_ADDR_TYPE_IPV4) as [->|]; [by left|].
    destruct (Z.eqb_spec t HEV_SOCKS5_ADDR_TYPE_IPV6) as [->|]; [by right; left|by right; right]. }
  clearbody alen. destruct (Z.ltb_spec alen 0); [apply wp_ret, Hfin; by left|].
  eapply wp_bind_val; [reflexivity|]. rewrite (proj1 Hs1). apply wp_bind.
  eapply wp_mono; [by apply view_recv|intros [r b] s2|done]. intros (i2 & c2 & -> & Hs2 & Hn2 & _).
  clear Hfin. destruct Hs2 as (Hk2 & c2' & Hc2 & Hi2 & Ho2).
  assert (own s2 = fd (cbase k)) as How by (by rewrite own_client, Hk2).
  destruct (Z.eqb_spec r alen) as [->|]; cbn [negb]; [|apply wp_ret; split; [by left|by exists c2']].
  specialize (Hn2 eq_refl). apply wp_bind.
  destruct (response_addr t b) as [Hz Ht]; [lia|].
  eapply wp_mono; [apply (set_law _ s2 c2')|intros r' s3 (_ & Hc3)|done].
  { by rewrite How. }
  { done. }
  { rewrite Ht. destruct Hal as [[_ ->]|[[_ ->]|?]]; [by left|by right|lia]. }
  rewrite How in Hc3. apply wp_if; intros _; apply wp_ret; (split; [|by exists c2']); [by left|right].
  split; [done|]. exists rsv, t, b, i2. split; [done|]. lia.
Qed.
(** ** The handshake in any environment

    [early] says whether the credentials are sent without being asked for. *)
Definition handshake_post (early : bool) (k : HevSocks5Client) (i o a : bytes) (r : Z) s : Prop :=
  (r = -1 ∨ r = 0 ∧ ∃ rp rest, valid_replies rp ∧ i = replies_msg rp ++ rest) ∧
  ∃ c n1 n2 n3, chans (io s) !! fd (cbase k) = Some c ∧
    tx c = o ++ take n1 (methods_msg k) ++ take n2 (creds_msg k) ++ take n3 (request_msg k a) ∧
    (early = false → n2 = 0%nat ∨ ∃ i', i = [5; 2] ++ i').

Lemma post_fail early k i i' o a n1 n2 n3 s :
  sees k i' (o ++ take n1 (methods_msg k) ++ take n2 (creds_msg k) ++ take n3 (request_msg k a)) s →
  (early = false → n2 = 0%nat ∨ ∃ i', i = [5; 2] ++ i') → handshake_post early k i o a (-1) s.
Proof. intros (_ & c & Hc & _ & Ho) He. split; [by left|]. exists c, n1, n2, n3. by rewrite Ho. Qed.

Lemma response_post early k i b m ab i1 i2 o a n1 n2 n3 s :
  i = b ++ i1 → b = [5; m] → i1 = ab ++ i2 → (m = 2 ∧ ab = [1; 0] ∨ m = 0 ∧ ab = []) →
  sees k i2 (o ++ take n1 (methods_msg k) ++ take n2 (creds_msg k) ++ take n3 (request_msg k a)) s →
  (early = false → n2 = 0%nat ∨ ∃ i', i = [5; 2] ++ i') →
  wp (res ← hev_socks5_client_read_response; if res <? 0 then mret (-1) else mret 0)
    (handshake_post early k i o a) (λ _, True) s.
Proof using L.
  intros -> -> -> Hm Hs He. apply wp_bind. eapply wp_mono; [by eapply read_response_any|intros r s'|done].
  intros (Hr & c & Hc & Ho). destruct Hr as [->|[-> (rsv & atype & body & i' & -> & Hb)]]; apply wp_ret.
  { split; [by left|]. exists c, n1, n2, n3. by rewrite Ho. }
  split; [right; split; [done|]|exists c, n1, n2, n3; by rewrite Ho].
  exists (Replies m rsv atype body), i'. split; [split; [cbn; lia|done]|].
  destruct Hm as [[-> ->]|[-> ->]]; unfold replies_msg, auth_reply; cbn; by rewrite <- ?app_assoc.
Qed.

Lemma sent_app (o m1 m2 m3 : bytes) : ((o ++ m1) ++ m2) ++ m3 = o ++ m1 ++ m2 ++ m3.
Proof. by rewrite <- !app_assoc. Qed.

Lemma standard_any k i o a s :
  sees k i o s → good_addr a s →
  wp hev_socks5_client_handshake_standard (handshake_post false k i o a) (λ _, True) s.
Proof using L.
  intros Hs Ha. unfold hev_socks5_client_handshake_standard.
  apply wp_bind. eapply wp_mono; [by eapply write_methods_any|intros r s1|done]. intros (Ha1 & Hr & n1 & Hs1).
  assert (∀ i' s', sees k i' (o ++ take n1 (methods_msg k)) s' → handshake_post false k i o a (-1) s') as Hf1.
  { intros i' s' Hs'. apply (post_fail _ _ _ i' _ _ n1 0 0); [|by left]. by rewrite !take_0, !app_nil_r. }
  destruct Hr as [->| ->]; [|by apply wp_ret, (Hf1 i)]. cbv beta iota.
  change (0 <? 0) with false. cbv iota.
  apply wp_bind. eapply wp_mono; [by eapply read_method_any|intros r s2|done].
  intros (Ha2 & b & i1 & -> & Hs2 & Hb). apply Ha2 in Ha1.
  apply wp_if; intros Hr0; [by apply wp_ret, (Hf1 i1)|]. apply Z.ltb_ge in Hr0. destruct Hb as [->|Hb]; [lia|].
  apply wp_bind. destruct (Z.eqb_spec r HEV_SOCKS5_AUTH_METHOD_USER) as [->|Hu].
  - assert (∃ i', b ++ i1 = [5; 2] ++ i') as Hasked by (exists i1; by rewrite Hb).
    apply wp_bind. eapply wp_mono; [by eapply write_creds_any|intros r s3|done]. intros (Ha3 & Hr & n2 & Hs3).
    assert (∀ i' s', sees k i' ((o ++ take n1 (methods_msg k)) ++ take n2 (creds_msg k)) s' →
      handshake_post false k (b ++ i1) o a (-1) s') as Hf2.
    { intros i' s' Hs'. apply (post_fail _ _ _ i' _ _ n1 n2 0); [|by right]. by rewrite take_0, app_nil_r, app_assoc. }
    destruct Hr as [->| ->]; [|by apply wp_ret, wp_ret, (Hf2 i1)]. change (0 <? 0) with false. cbv iota.
    eapply wp_mono; [by eapply read_creds_any|intros r s4|done]. intros (Ha4 & b2 & i2 & -> & Hs4 & Hb2). apply Ha4 in Ha3.
    destruct Hb2 as [->|[-> ->]]; [by apply wp_ret, (Hf2 i2)|]. change (0 <? 0) with false. cbv iota.
    apply wp_bind. eapply wp_mono; [by eapply write_request_any|intros r s5|done]. intros (Hr & n3 & Hs5).
    rewrite sent_app in Hs5.
    destruct Hr as [->| ->]; [|apply wp_ret; eapply post_fail; [done|by right]]. change (0 <? 0) with false. cbv iota.
    apply (response_post _ _ _ b 2 [1; 0] ([1; 0] ++ i2) i2 _ _ n1 n2 n3); [done|done|done|by left|done|by right].
  - destruct (Z.eqb_spec r HEV_SOCKS5_AUTH_METHOD_NONE) as [->|Hn]; cbn [negb]; apply wp_ret.
    2: { by apply wp_ret, (Hf1 i1). }
    change (0 <? 0) with false. cbv iota.
    apply wp_bind. eapply wp_mono; [by eapply write_request_any|intros r s5|done]. intros (Hr & n3 & Hs5).
    replace (_ ++ take n3 _) with (o ++ take n1 (methods_msg k) ++ take 0 (creds_msg k) ++ take n3 (request_msg k a))
      in Hs5 by (by rewrite take_0, <- app_assoc).
    destruct Hr as [->| ->]; [|apply wp_ret; eapply post_fail; [done|by left]]. change (0 <? 0) with false. cbv iota.
    apply (response_post _ _ _ b 0 [] i1 i1 _ _ n1 0 n3); [done|done|done|by right|done|by left].
Qed.

Lemma pipeline_any k i o a s :
  sees k i o s → good_addr a s →
  wp hev_socks5_client_handshake_pipeline (handshake_post true k i o a) (λ _, True) s.
Proof using L.
  intros Hs Ha. unfold hev_socks5_client_handshake_pipeline.
  apply wp_bind. eapply wp_mono; [by eapply write_methods_any|intros r s1|done]. intros (Ha1 & Hr & n1 & Hs1).
  destruct Hr as [->| ->].
  2: { apply wp_ret, (post_fail _ _ _ i _ _ n1 0 0); [|done]. by rewrite !take_0, !app_nil_r. }
  change (0 <? 0) with false. cbv iota.
  apply wp_bind. eapply wp_mono; [by eapply write_creds_any|intros r s2|done]. intros (Ha2 & Hr & n2 & Hs2).
  destruct Hr as [->| ->].
  2: { apply wp_ret, (post_fail _ _ _ i _ _ n1 n2 0); [|done]. by rewrite take_0, app_nil_r, app_assoc. }
  change (0 <? 0) with false. cbv iota.
  apply wp_bind. eapply wp_mono; [by eapply write_request_any|intros r s3|done]. intros (Hr & n3 & Hs3).
  rewrite sent_app in Hs3.
  destruct Hr as [->| ->]; [|apply wp_ret; by eapply post_fail]. change (0 <? 0) with false. cbv iota.
  apply wp_bind. eapply wp_mono; [by eapply read_method_any|intros r s4|done].
  intros (_ & b & i1 & -> & Hs4 & Hb).
  apply wp_if; intros Hr0; [apply wp_ret; by eapply post_fail|]. apply Z.ltb_ge in Hr0.
  destruct Hb as [->|Hb]; [lia|].
  apply wp_bind. destruct (Z.eqb_spec r HEV_SOCKS5_AUTH_METHOD_USER) as [->|Hu].
  - eapply wp_mono; [by eapply read_creds_any|intros r s5|done]. intros (_ & b2 & i2 & -> & Hs5 & Hb2).
    destruct Hb2 as [->|[-> ->]]; [apply wp_ret; by eapply post_fail|]. change (0 <? 0) with false. cbv iota.
    apply (response_post _ _ _ b 2 [1; 0] ([1; 0] ++ i2) i2 _ _ n1 n2 n3); [done|done|done|by left|done|done].
  - destruct (Z.eqb_spec r HEV_SOCKS5_AUTH_METHOD_NONE) as [->|Hn]; cbn [negb]; apply wp_ret.
    2: { apply wp_ret; by eapply post_fail. }
    change (0 <? 0) with false. cbv iota. apply (response_post _ _ _ b 0 [] i1 i1 _ _ n1 n2 n3); [done|done|done|by right|done|done].
Qed.

(** The timeouts that are set around the handshake. *)
Lemma sees_timeout k i o a v s :
  sees k i o s → good_addr a s →
  ∃ t s', hev_socks5_set_timeout v s = Val tt s' ∧ io s' = io s ∧ good_addr a s' ∧
    sees (set_base (set_tmo t (cbase k)) k) i o s' ∧ (t = timeout (cbase k) ∨ t = v).
Proof.
  intros Hs Ha. rewrite set_timeout_val. pose proof Hs as (Hk & c & Hc & Hi & Ho).
  destruct (truthy _); [exists v|exists (timeout (cbase k))]; eexists; (split; [reflexivity|]); (split; [done|]).
  - split_and!; [by apply good_addr_timeout| |by right].
    split; [cbn [self]; by rewrite client_set_base, <- client_base, Hk|]. by exists c.
  - split_and!; [done| |by left]. split; [|by exists c]. rewrite Hk. by destruct k as [[]].
Qed.

Lemma handshake_tail {A} (r : A) s :
  ∃ s', (b ← get_base;
    match type b with
    | HEV_SOCKS5_TYPE_UDP_IN_TCP | HEV_SOCKS5_TYPE_UDP_IN_UDP =>
        timeout ← hev_socks5_get_udp_timeout; hev_socks5_set_timeout timeout
    | _ => mret tt
    end;; mret r) s = Val r s' ∧ io s' = io s.
Proof.
  erewrite bind_val by reflexivity. destruct (type (base (self s)));
    try (exists s; split; [reflexivity|done]); rewrite bind_assoc; unfold hev_socks5_get_udp_timeout, get_config;
    rewrite bind_assoc; erewrite bind_val by reflexivity; erewrite bind_val by reflexivity;
    (erewrite bind_val by apply set_timeout_val); eexists; (split; [reflexivity|by destruct (truthy _)]).
Qed.

(** ** The handshake in an environment that delivers *)
Definition easy (k : HevSocks5Client) (i o : bytes) s : Prop :=
  client (self s) = k ∧ timeout (cbase k) ≠ 0 ∧
  ∃ c, ready (fd (cbase k)) c s ∧ stream (rxq c) = i ∧ tx c = o.

Lemma easy_sees k i o s : easy k i o s → sees k i o s.
Proof. intros (Hk & _ & c & [Hc _ _ _ _] & Hi & Ho). split; [done|]. by exists c. Qed.

Lemma easy_base k i o s : easy k i o s → timeout (base (self s)) ≠ 0.
Proof. intros (Hk & Ht & _). by rewrite <- client_base, Hk. Qed.

Lemma easy_recv k b i o s n :
  easy k (b ++ i) o s → n = zlen b → 0 < n →
  ∃ s', hev_task_io_socket_recv (fd (cbase k)) n MSG_WAITALL yielder s = Val (n, b) s' ∧ easy k i o s' ∧
    ∀ a, good_addr a s → good_addr a s'.
Proof.
  intros He -> Hb. pose proof (easy_base _ _ _ _ He) as Hto. destruct He as (Hk & Ht & c & Hr & Hi & Ho).
  destruct (recv_ready _ hev_socks5_task_io_yielder (fd (cbase k)) (zlen b) c s yielder_good Hto Hr)
    as (s' & q & Hv & He & Hst & Hr').
  { rewrite Hi, zlen_app. pose proof (zlen_nonneg i). lia. }
  rewrite Hi in *. unfold zlen in Hv, Hst. rewrite Nat2Z.id, take_app_length in Hv.
  rewrite Nat2Z.id, drop_app_length in Hst.
  exists s'. split_and!; [exact Hv| |intros a ?; by eapply good_addr_evolve].
  split; [by rewrite (evolve_self _ _ _ _ He)|]. split; [done|]. by exists (set_rxq q c).
Qed.

Lemma easy_send k i o buf flags s :
  easy k i o s → flag flags MSG_DONTWAIT = false → flag flags MSG_WAITALL = true → 0 < zlen buf →
  ∃ s', hev_task_io_socket_send (fd (cbase k)) buf flags yielder s = Val (zlen buf) s' ∧ easy k i (o ++ buf) s' ∧
    blocks (io s') = blocks (io s) ∧ ∀ a, good_addr a s → good_addr a s'.
Proof.
  intros He Hf1 Hf2 Hb. pose proof (easy_base _ _ _ _ He) as Hto. destruct He as (Hk & Ht & c & Hr & Hi & Ho).
  rewrite (send_flags _ _ flags MSG_WAITALL) by done.
  destruct (send_ready _ hev_socks5_task_io_yielder (fd (cbase k)) buf c s yielder_good Hto Hr Hb)
    as (s' & q & Hv & He & Hr').
  exists s'. split_and!; [exact Hv| | |intros a ?; by eapply good_addr_evolve].
  - split; [by rewrite (evolve_self _ _ _ _ He)|]. split; [done|]. eexists. split; [exact Hr'|]. cbn. by rewrite Ho.
  - destruct He as (w & e & ->). by destruct (io s).
Qed.

Lemma write_methods_easy k i o a s :
  easy k i o s → good_addr a s →
  ∃ s', hev_socks5_client_write_auth_methods s = Val 0 s' ∧ easy k i (o ++ methods_msg k) s' ∧ good_addr a s'.
Proof.
  intros He Ha. unfold hev_socks5_client_write_auth_methods. erewrite bind_val by reflexivity.
  rewrite (proj1 He). cbv zeta.
  replace (match auth_user k with Some _ => _ | None => _ end) with (if has_auth k then 2 else 0)
    by (unfold has_auth; by destruct (auth_user k), (auth_pass k)).
  destruct (easy_send k i o (methods_msg k) (Z.lor MSG_WAITALL MSG_MORE) s) as (s' & Hv & He' & _ & Hg);
    [done|done|done|done|].
  exists s'. unfold methods_msg in Hv. erewrite bind_val by exact Hv. split_and!; [done|done|by apply Hg].
Qed.

Lemma write_creds_easy k i o a s :
  easy k i o s → good_addr a s →
  ∃ s', hev_socks5_client_write_auth_creds s = Val 0 s' ∧ easy k i (o ++ creds_msg k) s' ∧ good_addr a s'.
Proof.
  intros He Ha. unfold hev_socks5_client_write_auth_creds. erewrite bind_val by reflexivity.
  rewrite (proj1 He). unfold creds_msg.
  destruct (auth_user k) as [user|] eqn:Hu, (auth_pass k) as [pass|] eqn:Hp;
    try (exists s; by rewrite app_nil_r).
  assert (0 < zlen (creds_msg k)) as Hpos.
  { unfold creds_msg. rewrite Hu, Hp. cbn [app]. rewrite zlen_cons. pose proof (zlen_nonneg
      (u8 (zlen user) :: take (Z.to_nat (u8 (zlen user))) user ++ u8 (zlen pass) :: take (Z.to_nat (u8 (zlen pass))) pass)).
    lia. }
  cbv zeta. destruct (easy_send k i o (creds_msg k) (Z.lor MSG_WAITALL MSG_MORE) s) as (s' & Hv & He' & _ & Hg);
    [done|done|done|done|].
  exists s'. unfold creds_msg in Hv, He', Hpos. rewrite Hu, Hp in Hv, He', Hpos.
  erewrite bind_val.
  2: { rewrite sendmsg_send. replace (mjoin _) with
         ([1; u8 (zlen user)] ++ take (Z.to_nat (u8 (zlen user))) user ++
          [u8 (zlen pass)] ++ take (Z.to_nat (u8 (zlen pass))) pass); [exact Hv|].
       cbn. by rewrite app_nil_r. }
  destruct (Z.leb_spec (zlen ([1; u8 (zlen user)] ++ take (Z.to_nat (u8 (zlen user))) user ++
          [u8 (zlen pass)] ++ take (Z.to_nat (u8 (zlen pass))) pass)) 0); [lia|].
  split_and!; [done|done|by apply Hg].
Qed.
Lemma easy_same k i o s s' :
  easy k i o s → client (self s') = client (self s) → chans (io s') = chans (io s) → wakes (io s') = wakes (io s) →
  easy k i o s'.
Proof.
  intros (Hk & Ht & c & [] & Hi & Ho) Hcl Hch Hw. split; [congruence|]. split; [done|]. exists c.
  split; [|done]. split; congruence.
Qed.

Lemma write_request_easy k cmd i o a s :
  easy k i o s → good_addr a s → request_cmd (type (cbase k)) = Some cmd →
  ∃ s', hev_socks5_client_write_request s = Val 0 s' ∧ easy k i (o ++ request_msg k a) s'.
Proof.
  intros He Ha Hcmd. unfold hev_socks5_client_write_request. erewrite bind_val by reflexivity.
  rewrite (proj1 He). unfold request_msg. rewrite Hcmd. cbv zeta.
  destruct (get_law a s Ha) as (p & s1 & Hg & Hb & Hcl & Hch & Hw). erewrite bind_val by exact Hg.
  pose proof (easy_same _ _ _ _ _ He Hcl Hch Hw) as He1.
  pose proof (good_addr_wire _ _ Ha) as Hwire. destruct (request_addrlen_wire p a s1 Hb Hwire) as [Hl1 Hl2].
  erewrite bind_val by exact Hl1. erewrite bind_val by exact Hl2.
  destruct Hwire as [_ Hpos]. destruct (Z.ltb_spec (zlen a) 0); [lia|].
  erewrite bind_val by (apply load_block; [exact Hb|lia|lia|lia]).
  replace (slice a 0 (zlen a)) with a by (unfold slice, zlen; by rewrite Nat2Z.id, drop_0, take_ge).
  erewrite bind_val by reflexivity. rewrite (proj1 He1).
  destruct (easy_send k i o ([5; cmd; 0] ++ a) MSG_WAITALL s1) as (s2 & Hv & He2 & Hbl & _); [done|done|done| |].
  { rewrite zlen_app. change (zlen [_; _; _]) with 3. lia. }
  erewrite bind_val.
  2: { rewrite sendmsg_send. replace (mjoin _) with ([5; cmd; 0] ++ a) by (cbn; by rewrite app_nil_r). exact Hv. }
  rewrite zlen_app. change (zlen [_; _; _]) with 3. destruct (Z.leb_spec (3 + zlen a) 0); [lia|].
  erewrite bind_val by (apply (free_val p a); by rewrite Hbl). eexists. split; [reflexivity|].
  eapply easy_same; [exact He2|done|by destruct (io s2)|by destruct (io s2)].
Qed.

Lemma read_method_easy k m i o s :
  easy k ([5; m] ++ i) o s →
  ∃ s', hev_socks5_client_read_auth_method s = Val m s' ∧ easy k i o s' ∧ ∀ a, good_addr a s → good_addr a s'.
Proof.
  intros He. unfold hev_socks5_client_read_auth_method. erewrite bind_val by reflexivity. rewrite (proj1 He).
  destruct (easy_recv k [5; m] i o s 2 He) as (s' & Hv & He' & Hg); [done|lia|].
  erewrite bind_val by exact Hv. by exists s'.
Qed.

Lemma read_creds_easy k i o s :
  easy k ([1; 0] ++ i) o s →
  ∃ s', hev_socks5_client_read_auth_creds s = Val 0 s' ∧ easy k i o s' ∧ ∀ a, good_addr a s → good_addr a s'.
Proof.
  intros He. unfold hev_socks5_client_read_auth_creds. erewrite bind_val by reflexivity. rewrite (proj1 He).
  destruct (easy_recv k [1; 0] i o s 2 He) as (s' & Hv & He' & Hg); [done|lia|].
  erewrite bind_val by exact Hv. by exists s'.
Qed.

Lemma read_response_easy k rsv t body i o s :
  easy k ([5; 0; rsv; t] ++ body ++ i) o s → set_easy (type (cbase k)) →
  (t = 1 ∧ zlen body = 6 ∨ t = 4 ∧ zlen body = 18) →
  ∃ s', hev_socks5_client_read_response s = Val 0 s' ∧ easy k i o s'.
Proof.
  intros He Hset Ht. unfold hev_socks5_client_read_response. erewrite bind_val by reflexivity. rewrite (proj1 He).
  destruct (easy_recv k [5; 0; rsv; t] (body ++ i) o s 4 He) as (s1 & Hv & He1 & _); [done|lia|].
  erewrite bind_val by exact Hv. cbv beta iota. change (4 =? 4) with true.
  cbv beta iota delta [negb]. erewrite bind_val by reflexivity.
  cbv beta. change (5 =? HEV_SOCKS5_VERSION_5) with true. cbv beta iota delta [negb]. erewrite bind_val by reflexivity.
  cbv beta. change (0 =? HEV_SOCKS5_RES_REP_SUCC) with true. cbv beta iota delta [negb]. erewrite bind_val by reflexivity. cbv beta zeta.
  destruct (easy_recv k body i o s1 (zlen body) He1) as (s2 & Hv2 & He2 & _); [done|lia|].
  replace (if t =? HEV_SOCKS5_ADDR_TYPE_IPV4 then 6 else _) with (zlen body)
    by (by destruct Ht as [[-> ->]|[-> ->]]).
  destruct (Z.ltb_spec (zlen body) 0); [lia|]. erewrite bind_val by reflexivity. rewrite (proj1 He1).
  erewrite bind_val by exact Hv2. cbv beta iota. rewrite Z.eqb_refl. cbv beta iota delta [negb].
  erewrite bind_val by (apply set_easy_law; by rewrite <- client_base, (proj1 He2)). by exists s2.
Qed.

(** The bytes that a successful handshake sends; the credentials leave unasked
    only in the pipelined one. *)
Definition handshake_msg (pipeline : bool) (k : HevSocks5Client) (m : Z) (a : bytes) : bytes :=
  methods_msg k ++ (if pipeline || (m =? 2) then creds_msg k else []) ++ request_msg k a.

(** The code of a step that succeeds. *)
Ltac step Hs :=
  erewrite bind_val by exact Hs; change (0 <? 0) with false; cbv iota.

Lemma standard_easy k rp cmd rest o a s :
  easy k (replies_msg rp ++ rest) o s → good_addr a s → request_cmd (type (cbase k)) = Some cmd →
  set_easy (type (cbase k)) → valid_replies rp →
  ∃ s', hev_socks5_client_handshake_standard s = Val 0 s' ∧ easy k rest (o ++ handshake_msg false k (r_method rp) a) s'.
Proof.
  destruct rp as [m rsv t body]. unfold replies_msg, auth_reply, valid_replies, handshake_msg.
  cbn [r_method r_rsv r_atype r_addr]. intros He Ha Hcmd Hset [Hm Hb]. rewrite <- !app_assoc in He.
  unfold hev_socks5_client_handshake_standard.
  destruct (write_methods_easy _ _ _ _ _ He Ha) as (s1 & E1 & He1 & Ha1). step E1.
  destruct (read_method_easy _ _ _ _ _ He1) as (s2 & E2 & He2 & Ha2). apply Ha2 in Ha1.
  erewrite bind_val by exact E2. cbv beta.
  destruct Hm as [->| ->].
  - change (0 <? 0) with false. cbv iota. change (0 =? HEV_SOCKS5_AUTH_METHOD_USER) with false.
    change (0 =? 2) with false in *. cbv beta iota delta [negb orb]. erewrite bind_val by reflexivity. change (0 <? 0) with false. cbv iota.
    destruct (write_request_easy _ _ _ _ _ _ He2 Ha1 Hcmd) as (s3 & E3 & He3). step E3.
    destruct (read_response_easy _ _ _ _ _ _ _ He3 Hset Hb) as (s4 & E4 & He4). step E4.
    exists s4. split; [done|]. by rewrite <- app_assoc in He4.
  - change (2 <? 0) with false. cbv iota. change (2 =? HEV_SOCKS5_AUTH_METHOD_USER) with true.
    change (2 =? 2) with true in *. cbv iota. rewrite orb_true_r.
    destruct (write_creds_easy _ _ _ _ _ He2 Ha1) as (s3 & E3 & He3 & Ha3). rewrite bind_assoc. step E3.
    destruct (read_creds_easy _ _ _ _ He3) as (s4 & E4 & He4 & Ha4). apply Ha4 in Ha3. step E4.
    destruct (write_request_easy _ _ _ _ _ _ He4 Ha3 Hcmd) as (s5 & E5 & He5). step E5.
    destruct (read_response_easy _ _ _ _ _ _ _ He5 Hset Hb) as (s6 & E6 & He6). step E6.
    exists s6. split; [done|]. by rewrite <- !app_assoc in He6.
Qed.

Lemma pipeline_easy k rp cmd rest o a s :
  easy k (replies_msg rp ++ rest) o s → good_addr a s → request_cmd (type (cbase k)) = Some cmd →
  set_easy (type (cbase k)) → valid_replies rp →
  ∃ s', hev_socks5_client_handshake_pipeline s = Val 0 s' ∧ easy k rest (o ++ handshake_msg true k (r_method rp) a) s'.
Proof.
  destruct rp as [m rsv t body]. unfold replies_msg, auth_reply, valid_replies, handshake_msg.
  cbn [r_method r_rsv r_atype r_addr orb]. intros He Ha Hcmd Hset [Hm Hb]. rewrite <- !app_assoc in He.
  unfold hev_socks5_client_handshake_pipeline.
  destruct (write_methods_easy _ _ _ _ _ He Ha) as (s1 & E1 & He1 & Ha1). step E1.
  destruct (write_creds_easy _ _ _ _ _ He1 Ha1) as (s2 & E2 & He2 & Ha2). step E2.
  destruct (write_request_easy _ _ _ _ _ _ He2 Ha2 Hcmd) as (s3 & E3 & He3). step E3.
  rewrite <- !app_assoc in He3. destruct (read_method_easy _ _ _ _ _ He3) as (s4 & E4 & He4 & _).
  erewrite bind_val by exact E4. cbv beta. destruct Hm as [->| ->].
  - change (0 <? 0) with false. cbv iota. change (0 =? HEV_SOCKS5_AUTH_METHOD_USER) with false.
    change (0 =? 2) with false in *. cbv beta iota delta [negb]. erewrite bind_val by reflexivity. change (0 <? 0) with false. cbv iota.
    destruct (read_response_easy _ _ _ _ _ _ _ He4 Hset Hb) as (s5 & E5 & He5). step E5. by exists s5.
  - change (2 <? 0) with false. cbv iota. change (2 =? HEV_SOCKS5_AUTH_METHOD_USER) with true.
    change (2 =? 2) with true in *. cbv iota.
    destruct (read_creds_easy _ _ _ _ He4) as (s5 & E5 & He5 & _). step E5.
    destruct (read_response_easy _ _ _ _ _ _ _ He5 Hset Hb) as (s6 & E6 & He6). step E6. by exists s6.
Qed.
End View.
