(* ===== verification/Handshake.v ===== *)
(** * Handshake: the theorems about the client and its TCP and UDP variants *)
From S2P Require Import Prelude Bytes TaskIO TaskIOSpec Socks5 Socks5Spec SocketSpec Client ClientSpec.

(** ** The variants keep the promises of their class *)

Definition tcp_good_addr (a : bytes) (s : st HevSocks5ClientTCP) : Prop :=
  blocks (io s) !! addr (self s) = Some a ∧ wire_addr a.

Lemma evolve_blocks {O} d c (s s' : st O) :
  evolve d c s s' → blocks (io s') = blocks (io s) ∧ mallocs (io s') = mallocs (io s).
Proof. intros (w & e & ->). by destruct s as [? []]. Qed.

#[export] Program Instance HevSocks5ClientTCP_laws : ClientLaws HevSocks5ClientTCP := {|
  good_addr := tcp_good_addr;
  set_easy _ := True
|}.
Next Obligation. by intros a s [_ H]. Qed.
Next Obligation.
  intros a s s' d c [Hb Hw] He. destruct (evolve_blocks _ _ _ _ He) as [Hbl _].
  split; [|done]. by rewrite Hbl, (evolve_self _ _ _ _ He).
Qed.
Next Obligation. by intros a [[]] v. Qed.
Next Obligation. intros d a s. by apply wp_ret. Qed.
Next Obligation. intros a s [Hb _]. eexists _, _. split; [reflexivity|]. by split_and!. Qed.
Next Obligation. intros a s c Hc _ _. by apply wp_ret. Qed.
Next Obligation. done. Qed.

(** The address that the UDP client asks with: unspecified, of the family of its
    connection. *)
Definition udp_ask (family : Z) : option bytes :=
  if family =? HEV_SOCKS5_ADDR_FAMILY_IPV4 then Some (1 :: replicate 6 0)
  else if family =? HEV_SOCKS5_ADDR_FAMILY_IPV6 then Some (4 :: replicate 18 0) else None.

Definition udp_good_addr (a : bytes) (s : st HevSocks5ClientUDP) : Prop :=
  udp_ask (addr_family (base (self s))) = Some a ∧ head (mallocs (io s)) ≠ Some false.

Lemma malloc_ok {O} n bs (s : st O) :
  0 <= n → head (mallocs (io s)) ≠ Some false →
  ∃ p s', hev_malloc n bs s = Val p s' ∧ p ≠ 0 ∧ self s' = self s ∧ blocks (io s') = <[p := bs]> (blocks (io s)) ∧
    blocks (io s) !! p = None ∧ chans (io s') = chans (io s) ∧ wakes (io s') = wakes (io s).
Proof.
  intros Hn Hm. destruct s as [o i]. unfold hev_malloc, on_io, zoom. cbn [io self] in *.
  destruct (Z.ltb_spec n 0); [lia|]. set (p := fresh (dom (blocks i) ∪ {[0]})).
  assert (p ∉ dom (blocks i) ∪ {[0]}) as Hp by apply is_fresh. apply not_elem_of_union in Hp as [Hd H0].
  apply not_elem_of_dom in Hd. exists p.
  destruct (mallocs i) as [|[] l]; [| |done];
    (eexists; split; [reflexivity|]; split_and!; [set_solver|done|by destruct i|done|by destruct i|by destruct i]).
Qed.

Lemma store_start {O} p b bs (s : st O) :
  blocks (io s) !! p = Some b → zlen bs <= zlen b →
  store (p, 0) bs s = Val tt (St (self s) (set_blocks (<[p := overwrite b 0 bs]> (blocks (io s))) (io s))).
Proof.
  intros Hp Hl. unfold store, on_io, zoom. cbn [fst snd]. rewrite Hp.
  destruct (Z.leb_spec 0 0), (Z.leb_spec (0 + zlen bs) (zlen b)); try lia. done.
Qed.

Lemma udp_get_law a (s : st HevSocks5ClientUDP) :
  udp_good_addr a s →
  ∃ p s', hev_socks5_client_udp_get_upstream_addr s = Val p s' ∧ blocks (io s') !! p = Some a ∧
    self s' = self s ∧ chans (io s') = chans (io s) ∧ wakes (io s') = wakes (io s).
Proof.
  intros [Ha Hm]. unfold hev_socks5_client_udp_get_upstream_addr, udp_ask, hev_malloc0 in *.
  erewrite bind_val by reflexivity.
  destruct (_ =? HEV_SOCKS5_ADDR_FAMILY_IPV4); [|destruct (_ =? HEV_SOCKS5_ADDR_FAMILY_IPV6); [|done]];
    apply (inj Some) in Ha as <-.
  1: destruct (malloc_ok 7 (replicate (Z.to_nat 7) 0) s) as (p & s1 & Hv & Hp & Hs & Hb & _ & Hc & Hw); [lia|done|].
  2: destruct (malloc_ok 19 (replicate (Z.to_nat 19) 0) s) as (p & s1 & Hv & Hp & Hs & Hb & _ & Hc & Hw); [lia|done|].
  all: erewrite bind_val by exact Hv; rewrite truthy_ne by done; exists p; eexists;
    (erewrite bind_val by (eapply store_start; [by rewrite Hb, lookup_insert_eq|done]));
    (split; [reflexivity|]); cbn [self io]; (split_and!; [|done|by destruct (io s1)|by destruct (io s1)]);
    destruct (io s1); cbn; by rewrite lookup_insert_eq.
Qed.

Section UDP.
Context `{Resolver}.

Lemma udp_set_law a c (s : st HevSocks5ClientUDP) :
  chans (io s) !! own s = Some c → zlen a = sizeof_HevSocks5Addr → zget a 0 = Some 1 ∨ zget a 0 = Some 4 →
  wp (hev_socks5_client_udp_set_upstream_addr set_client_udp_fd hev_socks5_bind a)
    (λ r s', own s' = own s ∧ chans (io s') !! own s = Some c) (λ _, True) s.
Proof.
  intros Hc Hl Ht. unfold hev_socks5_client_udp_set_upstream_addr. eapply wp_bind_val; [reflexivity|].
  apply wp_if; intros _; [by apply wp_ret|]. eapply wp_bind_val; [reflexivity|].
  assert (∃ sa fam, hev_socks5_addr_into_sockaddr6 a (Sockaddr6 0 0 (replicate 16 0)) (addr_family (base (self s))) =
    Some (0, sa, fam)) as (sa & fam & Hsa).
  { unfold sizeof_HevSocks5Addr in Hl. cells a Hl 19%nat.
    change (zget (x :: _) 0) with (Some x) in Ht.
    destruct Ht as [Ht|Ht]; apply (inj Some) in Ht as ->; eexists _, _; reflexivity. }
  eapply wp_bind_val; [by rewrite Hsa|]. cbn [Z.ltb Z.compare].
  apply (dial_wp SOCK_DGRAM (λ d, hev_socks5_bind d sa) hev_socks5_task_io_yielder sa (-1)).
  - apply yielder_polite.
  - intros d s'. by apply wp_ret.
  - intros s' (Hs & _ & _ & Hch & _). unfold own. by rewrite Hs, Hch.
  - intros d s' (_ & Hd & (c' & Hch) & _) (Hs & _ & _). cbn. split.
    + unfold own. cbn. by rewrite Hs.
    + rewrite Hch, lookup_insert_ne; [done|]. intros ->. congruence.
Qed.

#[export] Program Instance HevSocks5ClientUDP_laws : ClientLaws HevSocks5ClientUDP := {|
  good_addr := udp_good_addr;
  set_easy t := t ≠ HEV_SOCKS5_TYPE_UDP_IN_UDP
|}.
Next Obligation.
  intros a s [Ha _]. unfold udp_ask in Ha.
  destruct (_ =? _); [|destruct (_ =? _); [|done]]; by apply (inj Some) in Ha as <-.
Qed.
Next Obligation.
  intros a s s' d c [Ha Hm] He. destruct (evolve_blocks _ _ _ _ He) as [_ Hml].
  split; [by rewrite (evolve_self _ _ _ _ He)|by rewrite Hml].
Qed.
Next Obligation. done. Qed.
Next Obligation. intros d a s. by apply wp_ret. Qed.
Next Obligation.
  intros a s Ha. destruct (udp_get_law a s Ha) as (p & s' & Hv & Hb & Hs & ? & ?).
  exists p, s'. split_and!; try done. by rewrite Hs.
Qed.
Next Obligation. intros a s c. apply udp_set_law. Qed.
Next Obligation.
  intros a s Ht. cbn. unfold hev_socks5_client_udp_set_upstream_addr. erewrite bind_val by reflexivity.
  by rewrite bool_decide_eq_false_2.
Qed.
End UDP.

(** ** The handshake *)

Section Handshake.
Context {O : Type} `{L : ClientLaws O} `{Resolver}.

(** The two forms share what happens around them. *)
Lemma handshake_around pipeline (Q : Z → st O → Prop) s s1 :
  hev_socks5_set_timeout (tcp_timeout (config (io s))) s = Val tt s1 →
  wp (if pipeline : bool then hev_socks5_client_handshake_pipeline else hev_socks5_client_handshake_standard)
    (λ r s', ∀ s'', io s'' = io s' → Q r s'') (λ _, True) s1 →
  wp (hev_socks5_client_handshake pipeline) Q (λ _, True) s.
Proof using L.
  intros Ht Hb. unfold hev_socks5_client_handshake, hev_socks5_get_tcp_timeout, get_config.
  unfold wp. rewrite bind_assoc. erewrite bind_val by reflexivity. erewrite bind_val by reflexivity.
  erewrite bind_val by exact Ht. apply wp_bind.
  eapply wp_mono; [exact Hb|intros r s' HQ|done]. destruct (handshake_tail r s') as (s'' & Hv & Hio).
  eapply wp_val; [exact Hv|]. by apply HQ.
Qed.

(** C11: the handshake of the client is sound against every server and network:
    whatever arrives, however it is cut, whatever errors and timeouts occur, it
    never misbehaves; it reports success only if the stream began with a complete
    and valid sequence of replies (a method, the acceptance of the credentials if
    that method asks for them, and a granted request with an IPv4 or IPv6 address);
    what it sends is a prefix of each of its messages, in order; and the
    credentials are not sent before the server has asked for them, unless the
    handshake is pipelined. *)
Theorem handshake_sound pipeline k i o a s :
  sees k i o s → good_addr a s →
  wp (hev_socks5_client_handshake pipeline) (λ r s',
    (r = -1 ∨ r = 0 ∧ ∃ rp rest, valid_replies rp ∧ i = replies_msg rp ++ rest) ∧
    ∃ c n1 n2 n3, chans (io s') !! fd (cbase k) = Some c ∧
      tx c = o ++ take n1 (methods_msg k) ++ take n2 (creds_msg k) ++ take n3 (request_msg k a) ∧
      (pipeline = false → n2 = 0%nat ∨ ∃ i', i = [5; 2] ++ i')) (λ _, True) s.
Proof using L.
  intros Hs Ha. destruct (sees_timeout _ _ _ _ (tcp_timeout (config (io s))) _ Hs Ha) as (t & s1 & Ht & Hio & Ha1 & Hs1 & _).
  apply (handshake_around _ _ _ _ Ht).
  apply (wp_mono _ (handshake_post pipeline (set_base (set_tmo t (cbase k)) k) i o a) _ (λ _, True) _);
    [|intros r s' HQ s'' Heq|done].
  - destruct pipeline; [by apply pipeline_any|by apply standard_any].
  - destruct HQ as [Hr (c & n1 & n2 & n3 & Hc & Htx & He)]. split; [exact Hr|]. exists c, n1, n2, n3.
    rewrite Heq. by split_and!.
Qed.

Lemma handshake_easy (pipeline : bool) rp rest k cmd o a s :
  easy k (replies_msg rp ++ rest) o s → tcp_timeout (config (io s)) ≠ 0 → valid_replies rp → good_addr a s →
  request_cmd (type (cbase k)) = Some cmd → set_easy (type (cbase k)) →
  ∃ s' c, hev_socks5_client_handshake pipeline s = Val 0 s' ∧ chans (io s') !! fd (cbase k) = Some c ∧
    tx c = o ++ handshake_msg pipeline k (r_method rp) a ∧ stream (rxq c) = rest.
Proof using L.
  intros He Hto Hv Ha Hcmd Hset.
  destruct (sees_timeout _ _ _ _ (tcp_timeout (config (io s))) _ (easy_sees _ _ _ _ He) Ha)
    as (t & s1 & Ht & Hio & Ha1 & Hs1 & Hor).
  set (k1 := set_base (set_tmo t (cbase k)) k).
  assert (easy k1 (replies_msg rp ++ rest) o s1) as He1.
  { destruct He as (Hk & Ht0 & c & [] & Hi & Ho). split; [exact (proj1 Hs1)|]. split; [cbn; by destruct Hor as [->| ->]|].
    exists c. split; [|done]. by split; rewrite ?Hio. }
  assert (∃ s2, (if pipeline then hev_socks5_client_handshake_pipeline else hev_socks5_client_handshake_standard) s1
    = Val 0 s2 ∧ easy k1 rest (o ++ handshake_msg pipeline k1 (r_method rp) a) s2) as (s2 & Hv2 & He2).
  { destruct pipeline; [by eapply pipeline_easy|by eapply standard_easy]. }
  destruct (handshake_tail 0 s2) as (s3 & Hv3 & Hio3).
  destruct He2 as (_ & _ & c & [Hc _ _ _ _] & Hi & Ho). exists s3, c. split_and!; [|by rewrite Hio3|exact Ho|exact Hi].
  unfold hev_socks5_client_handshake, hev_socks5_get_tcp_timeout, get_config.
  rewrite bind_assoc. erewrite bind_val by reflexivity. erewrite bind_val by reflexivity.
  erewrite bind_val by exact Ht. erewrite bind_val by exact Hv2. exact Hv3.
Qed.

(** C12: the handshake completes: in an environment that keeps delivering (no
    errors, every wait woken in time) a valid sequence of replies, however it is cut
    into segments and however slowly it comes, makes it succeed; it has sent exactly
    the messages of the protocol, byte for byte, and left everything that follows
    the replies in the stream for the relay. *)
Theorem handshake_complete (pipeline : bool) rp rest k cmd o a s :
  easy k (replies_msg rp ++ rest) o s → tcp_timeout (config (io s)) ≠ 0 → valid_replies rp → good_addr a s →
  request_cmd (type (cbase k)) = Some cmd → set_easy (type (cbase k)) →
  ∃ s' c, hev_socks5_client_handshake pipeline s = Val 0 s' ∧ chans (io s') !! fd (cbase k) = Some c ∧
    tx c = o ++ handshake_msg pipeline k (r_method rp) a ∧ stream (rxq c) = rest.
Proof using L. apply handshake_easy. Qed.

(** Connecting keeps the books of descriptors: when it fails, at whichever
    step and for whichever answers of the system, the open descriptors and the
    registrations of the task are what they were before and the object still has
    its old descriptor; when it succeeds, exactly one descriptor was opened,
    registered and stored in the object. *)
Theorem connect_descriptors name port s :
  polled (io s) ⊆ dom (chans (io s)) →
  wp (hev_socks5_client_connect name port) (λ r s',
    r = -1 ∧ chans (io s') = chans (io s) ∧ polled (io s') = polled (io s) ∧ fd (base (self s')) = fd (base (self s)) ∨
    r = 0 ∧ ∃ c, chans (io s) !! fd (base (self s')) = None ∧ 0 < fd (base (self s')) ∧
      chans (io s') = <[fd (base (self s')) := c]> (chans (io s)) ∧
      polled (io s') = {[fd (base (self s'))]} ∪ polled (io s)) (λ _, True) s.
Proof using L.
  intros Hsub. unfold hev_socks5_client_connect, hev_socks5_get_connect_timeout, get_config.
  unfold wp. rewrite bind_assoc. erewrite bind_val by reflexivity. erewrite bind_val by reflexivity.
  erewrite bind_val by apply set_timeout_val. set (s1 := if truthy _ then _ else s).
  assert (io s1 = io s ∧ fd (base (self s1)) = fd (base (self s))) as [Hio Hfd].
  { unfold s1. destruct (truthy _); [|done]. cbn. by rewrite base_set. }
  clearbody s1. unfold hev_socks5_get_addr_family. rewrite bind_assoc.
  erewrite bind_val by reflexivity. erewrite bind_val by reflexivity. cbv zeta.
  destruct (hev_socks5_name_into_sockaddr6 _ _ _ _) as [[res sa] fam].
  destruct (res <? 0); [left; by rewrite Hio|].
  apply (dial_wp SOCK_STREAM (λ d, binder d sa) hev_socks5_task_io_yielder sa (-1)).
  - apply yielder_polite.
  - intros d s'. apply binder_law.
  - intros s' (Hs & _ & _ & Hch & Hp). left. rewrite Hio in Hch, Hp. split_and!; [done|done|by apply Hp|by rewrite Hs].
  - intros d s' (Hpos & Hd & (c & Hch) & Hp) (Hs & _ & _). rewrite Hio in Hd, Hch, Hp. cbn. right. split; [done|].
    exists c. cbn. rewrite !base_set. by split_and!.
Qed.
End Handshake.

(** ** A concrete session

    A TCP client with a user and a password; the server asks for them, accepts
    them and grants the request; the reply comes in four segments with a pause. *)
Definition demo_client : HevSocks5Client :=
  Client (Socks5 3 (-1) HEV_SOCKS5_TYPE_TCP false 2) (Some [117]) (Some [112; 113]).
Definition demo_replies : replies := Replies 2 0 1 [10; 0; 0; 2; 0; 80].
Definition demo_chan : chan :=
  Chan [RxData 5 [2]; RxAgain; RxData 1 [0; 5]; RxData 0 [0; 1; 10; 0; 0; 2; 0; 80; 99]] [] [TxAccept 0; TxAgain] [] [] false.
Definition demo_addr : bytes := wire_ipv4 [10; 0; 0; 1] 80.
Definition demo_state : st HevSocks5ClientTCP :=
  St (ClientTCP demo_client 1)
    (World 0 [7; 7] {[3 := demo_chan]} [] [] [] [] {[1 := demo_addr]} {[3]} (config idle_world)).

(** Every name is the IPv6 loopback address. *)
#[local] Instance loopback : Resolver :=
  {| inet_pton f _ := if f =? AF_INET6 then Some (replicate 15 0 ++ [1]) else None; getaddrinfo _ _ := None |}.

Lemma demo_good : good_addr demo_addr demo_state.
Proof. by vm_compute. Qed.

Lemma demo_easy : easy demo_client (replies_msg demo_replies ++ [99]) [] demo_state.
Proof.
  split; [done|]. split; [done|]. exists demo_chan. split; [|by vm_compute].
  split; [reflexivity|repeat constructor|repeat constructor|cbn; lia|repeat constructor].
Qed.

Lemma handshake_sound_witness :
  (sees demo_client (replies_msg demo_replies ++ [99]) [] demo_state ∧ good_addr demo_addr demo_state) ∧
  wp (hev_socks5_client_handshake false) (λ r s',
    (r = -1 ∨ r = 0 ∧ ∃ rp rest, valid_replies rp ∧ replies_msg demo_replies ++ [99] = replies_msg rp ++ rest) ∧
    ∃ c n1 n2 n3, chans (io s') !! fd (cbase demo_client) = Some c ∧
      tx c = [] ++ take n1 (methods_msg demo_client) ++ take n2 (creds_msg demo_client) ++
        take n3 (request_msg demo_client demo_addr) ∧
      (false = false → n2 = 0%nat ∨ ∃ i', replies_msg demo_replies ++ [99] = [5; 2] ++ i')) (λ _, True) demo_state.
Proof.
  pose proof (easy_sees _ _ _ _ demo_easy) as Hs. split; [exact (conj Hs demo_good)|].
  exact (handshake_sound false _ _ _ _ _ Hs demo_good).
Defined.

Lemma handshake_complete_witness :
  (easy demo_client (replies_msg demo_replies ++ [99]) [] demo_state ∧ valid_replies demo_replies) ∧
  ∃ s' c, hev_socks5_client_handshake false demo_state = Val 0 s' ∧ chans (io s') !! 3 = Some c ∧
    tx c = [5; 1; 2; 1; 1; 117; 2; 112; 113; 5; 1; 0; 1; 10; 0; 0; 1; 80; 0] ∧ stream (rxq c) = [99].
Proof.
  assert (valid_replies demo_replies) as Hv by (split; [by right|by left]).
  split; [exact (conj demo_easy Hv)|].
  apply (handshake_complete false demo_replies [99] demo_client 1 [] demo_addr demo_state);
    [exact demo_easy|done|exact Hv|exact demo_good|done|done].
Defined.

(** An attempt to connect that is refused after the socket was made. *)
Definition dialing_state : st HevSocks5ClientTCP :=
  St (ClientTCP (Client (Socks5 (-1) (-1) HEV_SOCKS5_TYPE_TCP false 0) None None) 1)
    (World 0 [7] {[3 := demo_chan]} [Some demo_chan] [0; -115; -111] [] [] ∅ {[3]} (config idle_world)).

Lemma connect_descriptors_witness :
  polled (io dialing_state) ⊆ dom (chans (io dialing_state)) ∧
  wp (hev_socks5_client_connect [58; 58; 49] 1080) (λ r s',
    r = -1 ∧ chans (io s') = chans (io dialing_state) ∧ polled (io s') = polled (io dialing_state) ∧
      fd (base (self s')) = fd (base (self dialing_state)) ∨
    r = 0 ∧ ∃ c, chans (io dialing_state) !! fd (base (self s')) = None ∧ 0 < fd (base (self s')) ∧
      chans (io s') = <[fd (base (self s')) := c]> (chans (io dialing_state)) ∧
      polled (io s') = {[fd (base (self s'))]} ∪ polled (io dialing_state)) (λ _, True) dialing_state.
Proof.
  assert (polled (io dialing_state) ⊆ dom (chans (io dialing_state))) as Hs by (vm_compute; set_solver).
  split; [exact Hs|]. exact (connect_descriptors [58; 58; 49] 1080 dialing_state Hs).
Defined.
