(* ===== verification/TunnelSync.v ===== *)
(** * TunnelSync: starting and stopping the tunnel, src/hev-socks5-tunnel.c

    [hev_socks5_tunnel_stop] may run in any thread, and in several, while one thread
    runs [hev_socks5_tunnel_init], [hev_socks5_tunnel_run] and
    [hev_socks5_tunnel_fini], again and again. They synchronise through the atomic
    word [tsync]. A step of a thread is one atomic operation on it, or one operation
    on the pair of sockets that wakes the event task; [events] counts the bytes
    that wait in the pair, when it is open. What the thread does in between - the
    device, lwIP, the other tasks, the sessions - does not touch these, and takes no
    step here; that a part of the initialisation may fail is kept.

    The invariant [sync_inv], by induction on the interleaving, gives the safety of
    stopping; a stop that is not interrupted ends the run; and one that is can get
    lost. *)
From S2P Require Import Prelude.

Definition SYNC_SEND : Z := Z.shiftl 1 0.
Definition SYNC_SENT : Z := Z.shiftl 1 1.
Definition SYNC_WAIT : Z := Z.shiftl 1 2.
Definition SYNC_STOP : Z := Z.shiftl 1 3.

(** Where a call of [hev_socks5_tunnel_stop] is; [res] is the value of [tsync] that
    it found, without SYNC_WAIT. *)
Inductive stop_pc := StopRetry | StopSend (res : Z) | StopWrite | StopRelease | StopReturned.

#[export] Instance stop_pc_eq_dec : EqDecision stop_pc.
Proof. solve_decision. Defined.

(** Where the thread of the tunnel is: not in the tunnel, before and after the
    sockets of the event task are made, before [hev_socks5_tunnel_run], in the event
    task before and after it read, and in [hev_socks5_tunnel_fini]. *)
Inductive main_pc := MainIdle | MainInit | MainInitRest | MainRun | MainEventRead | MainEventClear | MainFini | MainClose.

Record tunnel := Tunnel { tsync : Z; events : option Z; main : main_pc; stops : gmap nat stop_pc }.

Definition set_tsync (v : Z) (s : tunnel) : tunnel := Tunnel v (events s) (main s) (stops s).
Definition set_events (v : option Z) (s : tunnel) : tunnel := Tunnel (tsync s) v (main s) (stops s).
Definition set_main (v : main_pc) (s : tunnel) : tunnel := Tunnel (tsync s) (events s) v (stops s).
Definition set_stop (t : nat) (v : stop_pc) (s : tunnel) : tunnel :=
  Tunnel (tsync s) (events s) (main s) (<[t := v]> (stops s)).

Definition atomic_fetch_or (v : Z) : M tunnel Z := λ s, Val (tsync s) (set_tsync (Z.lor (tsync s) v) s).
Definition atomic_fetch_and (v : Z) : M tunnel Z := λ s, Val (tsync s) (set_tsync (Z.land (tsync s) v) s).

(** The next step of a call of [hev_socks5_tunnel_stop]. Writing to a pair that is
    not open fails an assertion. *)
Definition hev_socks5_tunnel_stop (pc : stop_pc) : M tunnel stop_pc :=
  match pc with
  | StopRetry =>
      res ← atomic_fetch_or SYNC_WAIT;
      mret (if truthy (Z.land res SYNC_WAIT) then StopRetry else StopSend res)
  | StopSend res =>
      if truthy (Z.land res SYNC_SEND) then
        res ← atomic_fetch_or SYNC_SENT;
        mret (if truthy (Z.land res SYNC_SENT) then StopRelease else StopWrite)
      else
        atomic_fetch_or SYNC_STOP;;
        mret StopRelease
  | StopWrite =>
      e ← gets events;
      n ← of_option e;
      modify (set_events (Some (n + 1)%Z));;
      mret StopRelease
  | StopRelease =>
      atomic_fetch_and (Z.lnot SYNC_WAIT);;
      mret StopReturned
  | StopReturned => mret StopReturned
  end.

(** The next step of the tunnel's thread. [ok] says whether the next part of the
    initialisation succeeds: what comes before [event_task_init], its [socketpair],
    and the rest. *)
Definition hev_socks5_tunnel_init (ok : bool) : M tunnel main_pc :=
  pc ← gets main;
  match pc with
  | MainIdle => mret (if ok then MainInit else MainFini)
  | MainInit =>
      if ok then modify (set_events (Some 0));; mret MainInitRest
      else mret MainFini
  | _ =>
      if ok then atomic_fetch_or SYNC_SEND;; mret MainRun
      else mret MainFini
  end.

(** The scheduler runs the event task, which waits until it can read, and returns when
    that task and those that it joins have ended. *)
Definition hev_socks5_tunnel_run : M tunnel main_pc :=
  res ← atomic_fetch_and (Z.lnot SYNC_STOP);
  mret (if truthy (Z.land res SYNC_STOP) then MainFini else MainEventRead).

Definition event_task_entry : M tunnel main_pc :=
  pc ← gets main;
  match pc with
  | MainEventRead =>
      e ← gets events;
      n ← of_option e;
      if n =? 0 then blocked else
      modify (set_events (Some (n - Z.min n 4)));;
      mret MainEventClear
  | _ =>
      atomic_fetch_and (Z.lnot SYNC_SENT);;
      mret MainFini
  end.

Definition hev_socks5_tunnel_fini : M tunnel main_pc :=
  pc ← gets main;
  match pc with
  | MainClose => modify (set_events None);; mret MainIdle
  | _ =>
      res ← atomic_fetch_and (Z.lnot (Z.lor SYNC_SEND SYNC_SENT));
      mret (if truthy (Z.land res SYNC_WAIT) then MainFini else MainClose)
  end.

(** The thread calls init, run and fini in turn; init calls fini when it fails. *)
Definition main_step (ok : bool) : M tunnel main_pc :=
  pc ← gets main;
  match pc with
  | MainIdle | MainInit | MainInitRest => hev_socks5_tunnel_init ok
  | MainRun => hev_socks5_tunnel_run
  | MainEventRead | MainEventClear => event_task_entry
  | MainFini | MainClose => hev_socks5_tunnel_fini
  end.

(** The threads take turns in any order; new calls of [hev_socks5_tunnel_stop] come
    at any time. *)
Inductive step : tunnel → tunnel → Prop :=
| step_main ok s s' pc : main_step ok s = Val pc s' → step s (set_main pc s')
| step_call t s : stops s !! t = None ∨ stops s !! t = Some StopReturned → step s (set_stop t StopRetry s)
| step_stop t pc pc' s s' :
    stops s !! t = Some pc → hev_socks5_tunnel_stop pc s = Val pc' s' → step s (set_stop t pc' s').

Definition tunnel_start : tunnel := Tunnel 0 None MainIdle ∅.
Definition reachable (s : tunnel) : Prop := rtc step tunnel_start s.

(** ** Bits *)

Definition has (b v : Z) : bool := truthy (Z.land v b).

Class Bit (b : Z) : Prop := bit_is : ∃ n, 0 <= n ∧ b = 2 ^ n.
#[export] Instance bit_send : Bit SYNC_SEND. Proof. by exists 0. Qed.
#[export] Instance bit_sent : Bit SYNC_SENT. Proof. by exists 1. Qed.
#[export] Instance bit_wait : Bit SYNC_WAIT. Proof. by exists 2. Qed.
#[export] Instance bit_stop : Bit SYNC_STOP. Proof. by exists 3. Qed.

Lemma has_testbit n v : 0 <= n → has (2 ^ n) v = Z.testbit v n.
Proof.
  intros Hn. unfold has, truthy.
  assert (Z.land v (2 ^ n) = if Z.testbit v n then 2 ^ n else 0) as ->.
  { apply Z.bits_inj'. intros m Hm. rewrite Z.land_spec, Z.pow2_bits_eqb by lia.
    destruct (n =? m) eqn:E.
    - apply Z.eqb_eq in E as ->. destruct (Z.testbit v m);
        [by rewrite Z.pow2_bits_true by lia|by rewrite Z.bits_0].
    - rewrite andb_false_r. destruct (Z.testbit v n);
        [rewrite Z.pow2_bits_eqb, E by lia; done|by rewrite Z.bits_0]. }
  pose proof (Z.pow_pos_nonneg 2 n). destruct (Z.testbit v n); [|done].
  destruct (Z.eqb_spec (2 ^ n) 0); [lia|done].
Qed.

Lemma has_or `{Bit b} v m : has b (Z.lor v m) = has b v || has b m.
Proof. destruct bit_is as (n & Hn & ->). by rewrite !has_testbit, Z.lor_spec. Qed.

Lemma has_and_not `{Bit b} v m : has b (Z.land v (Z.lnot m)) = has b v && negb (has b m).
Proof. destruct bit_is as (n & Hn & ->). by rewrite !has_testbit, Z.land_spec, Z.lnot_spec. Qed.

(** ** The lock

    A call between its first and its last step owns SYNC_WAIT. *)

Definition owner (pc : stop_pc) : bool :=
  match pc with StopSend _ | StopWrite | StopRelease => true | _ => false end.

Record lock_inv (s : tunnel) : Prop := {
  li_owner : ∀ t pc, stops s !! t = Some pc → owner pc = true → has SYNC_WAIT (tsync s) = true;
  li_unique : ∀ t t' pc pc', stops s !! t = Some pc → stops s !! t' = Some pc' →
    owner pc = true → owner pc' = true → t = t'
}.

(** Evaluates what a step does to each bit. *)
Ltac bits :=
  rewrite ?has_and_not, ?has_or, ?has_and_not in *;
  repeat match goal with
  | H : context [has ?b ?m] |- _ =>
      let r := eval vm_compute in (has b m) in
      match r with true => idtac | false => idtac end; change (has b m) with r in H
  | |- context [has ?b ?m] =>
      let r := eval vm_compute in (has b m) in
      match r with true => idtac | false => idtac end; change (has b m) with r
  end;
  rewrite ?andb_true_r, ?andb_false_r, ?orb_true_r, ?orb_false_r in *.

(** The cases of a step of either kind. *)
Ltac fold_has :=
  repeat match goal with
  | H : context [truthy (Z.land ?v ?b)] |- _ => change (truthy (Z.land v b)) with (has b v) in H
  end.
Ltac main_cases H :=
  unfold main_step, hev_socks5_tunnel_init, hev_socks5_tunnel_run, event_task_entry,
    hev_socks5_tunnel_fini, atomic_fetch_or, atomic_fetch_and, of_option in H; mstep;
  repeat case_match; simplify_eq; mstep; simplify_eq; fold_has; cbn in *; bits.
Ltac stop_cases H :=
  unfold hev_socks5_tunnel_stop, atomic_fetch_or, atomic_fetch_and, of_option in H; mstep;
  repeat case_match; simplify_eq; mstep; simplify_eq; fold_has; cbn in *; bits.

(** The tunnel's thread leaves SYNC_WAIT and the calls alone. *)
Lemma main_keeps ok s s' pc :
  main_step ok s = Val pc s' → stops s' = stops s ∧ has SYNC_WAIT (tsync s') = has SYNC_WAIT (tsync s).
Proof. intros H. main_cases H; done. Qed.

(** What a step of a call does to the lock. *)
Definition lock_step (pc pc' : stop_pc) (w w' : bool) : Prop :=
  match owner pc, owner pc' with
  | true, true => w' = w
  | true, false => w' = false
  | false, true => w = false ∧ w' = true
  | false, false => w' = w
  end.

Lemma stop_lock pc pc' s s' :
  hev_socks5_tunnel_stop pc s = Val pc' s' →
  stops s' = stops s ∧ main s' = main s ∧
  lock_step pc pc' (has SYNC_WAIT (tsync s)) (has SYNC_WAIT (tsync s')).
Proof. intros H. unfold lock_step. stop_cases H; done. Qed.

Lemma lock_step_inv s s' : step s s' → lock_inv s → lock_inv s'.
Proof.
  intros [ok s0 s1 pc H|t s0 H|t pc pc' s0 s1 Ht H] [Ho Hu].
  - apply main_keeps in H as [Hs Hw]. split; cbn; rewrite Hs, ?Hw; eauto.
  - split; cbn.
    + intros t' pc Ht' Hp. apply lookup_insert_Some in Ht' as [[<- <-]|[_ Ht']]; [done|eauto].
    + intros t1 t2 pc1 pc2 [[<- <-]|[_ H1]]%lookup_insert_Some [[<- <-]|[_ H2]]%lookup_insert_Some; try done; eauto.
  - apply stop_lock in H as (Hs & _ & Hw). unfold lock_step in Hw.
    assert (Hfree : owner pc = false → has SYNC_WAIT (tsync s0) = false →
      ∀ t' p, stops s0 !! t' = Some p → owner p = false).
    { intros _ Hn t' p Hp. destruct (owner p) eqn:E; [|done]. by rewrite (Ho t' p) in Hn. }
    split; cbn; rewrite Hs.
    + intros t' p [[<- <-]|[Hne Hp]]%lookup_insert_Some Hop.
      * rewrite Hop in Hw. destruct (owner pc) eqn:E; [rewrite Hw; eauto|tauto].
      * destruct (owner pc) eqn:E; [by specialize (Hu _ _ _ _ Ht Hp E Hop)|].
        specialize (Ho _ _ Hp Hop). destruct (owner pc'); [tauto|congruence].
    + intros t1 t2 p1 p2 [[<- <-]|[Hn1 H1]]%lookup_insert_Some [[<- <-]|[Hn2 H2]]%lookup_insert_Some O1 O2; [done| | |eauto].
      * destruct (owner pc) eqn:E; [eauto|]. rewrite O1 in Hw. destruct Hw as [Hw _].
        by rewrite (Hfree eq_refl Hw _ _ H2) in O2.
      * destruct (owner pc) eqn:E; [eauto|]. rewrite O2 in Hw. destruct Hw as [Hw _].
        by rewrite (Hfree eq_refl Hw _ _ H1) in O1.
Qed.

(** ** The sockets *)

(** The tunnel accepts stops through its sockets, and how far [main] got. *)
Definition listening (m : main_pc) : bool :=
  match m with MainRun | MainEventRead | MainEventClear | MainFini => true | _ => false end.
Definition waiting (m : main_pc) : bool :=
  match m with MainRun | MainEventRead => true | _ => false end.

(** A call that has seen SYNC_SEND and has not returned its own SYNC_WAIT. *)
Definition sending (pc : stop_pc) : bool :=
  match pc with StopSend res => has SYNC_SEND res | StopWrite => true | _ => false end.

Definition can_send (s : tunnel) : Prop := listening (main s) = true ∧ is_Some (events s).

Record sync_inv (s : tunnel) : Prop := {
  si_lock : lock_inv s;
  si_send : has SYNC_SEND (tsync s) = true → can_send s;
  si_sending : ∀ t pc, stops s !! t = Some pc → sending pc = true → can_send s;
  si_sent : has SYNC_SENT (tsync s) = true → can_send s;
  si_pending : has SYNC_SENT (tsync s) = true → waiting (main s) = true →
    (∃ t, stops s !! t = Some StopWrite) ∨ ∃ n, events s = Some n ∧ 0 < n;
  si_waiting : waiting (main s) = true → has SYNC_SEND (tsync s) = true;
  si_open : waiting (main s) = true ∨ main s = MainInitRest → is_Some (events s);
  si_events : ∀ n, events s = Some n → 0 <= n
}.

(** The closing of the sockets waits until no call owns SYNC_WAIT. *)
Lemma main_can_send ok s s' pc :
  main_step ok s = Val pc s' → can_send s → has SYNC_WAIT (tsync s) = true → can_send (set_main pc s').
Proof. intros H [Hl He] Hw. unfold can_send. main_cases H; try congruence; try done; eauto. Qed.

Lemma sending_owner pc : sending pc = true → owner pc = true.
Proof. by destruct pc. Qed.

Lemma main_sync_inv ok s s' pc : main_step ok s = Val pc s' → sync_inv s → sync_inv (set_main pc s').
Proof.
  intros H [L Hsend Hsending Hsent Hpend Hwait Hopen Hev].
  assert (lock_inv (set_main pc s')) as L'
    by (eapply lock_step_inv; [by eapply step_main|done]).
  split; [done| | | | | | |].
  - unfold can_send in *. main_cases H; try done; intros Hb; try specialize (Hsend Hb); naive_solver.
  - intros t p Ht Hp. pose proof (main_keeps _ _ _ _ H) as [Hs _]. cbn in Ht. rewrite Hs in Ht.
    eapply main_can_send; [done|by eauto|]. eapply (li_owner _ L); [done|by apply sending_owner].
  - unfold can_send in *. main_cases H; try done; intros Hb; try specialize (Hsent Hb); naive_solver.
  - clear -H Hsent Hpend. unfold can_send in *. main_cases H; try done; naive_solver.
  - clear -H Hwait. main_cases H; try done; naive_solver.
  - clear -H Hopen. main_cases H; try done; naive_solver.
  - clear -H Hev. main_cases H; intros n Hn; simplify_eq; try (specialize (Hev _ eq_refl)); try lia; eauto.
Qed.

(** A step of a call, on the sockets. *)
Definition stop_moves (pc pc' : stop_pc) (s s' : tunnel) : Prop :=
  (has SYNC_SEND (tsync s') = has SYNC_SEND (tsync s)) ∧
  (has SYNC_SENT (tsync s') = true → has SYNC_SENT (tsync s) = true ∨ sending pc = true ∧ pc' = StopWrite) ∧
  (sending pc' = true → sending pc = true ∨ has SYNC_SEND (tsync s) = true) ∧
  match pc with
  | StopWrite => ∃ n, events s = Some n ∧ events s' = Some (n + 1)
  | _ => events s' = events s
  end.

Lemma stop_effect pc pc' s s' : hev_socks5_tunnel_stop pc s = Val pc' s' → stop_moves pc pc' s s'.
Proof. intros H. unfold stop_moves. stop_cases H; naive_solver. Qed.

Lemma stop_sync_inv t pc pc' s s' :
  stops s !! t = Some pc → hev_socks5_tunnel_stop pc s = Val pc' s' → sync_inv s → sync_inv (set_stop t pc' s').
Proof.
  intros Ht H [L Hsend Hsending Hsent Hpend Hwait Hopen Hev].
  assert (lock_inv (set_stop t pc' s')) as L'
    by (eapply lock_step_inv; [by eapply step_stop|done]).
  pose proof (Hsending t pc Ht) as Hpc.
  destruct (stop_lock _ _ _ _ H) as (Hs & Hm & _).
  destruct (stop_effect _ _ _ _ H) as (Esend & Esent & Esending & Eev).
  assert (Hk : can_send s → can_send (set_stop t pc' s')).
  { intros [? [n En]]. split; cbn; [congruence|].
    destruct pc; rewrite ?Eev; try (by eexists). destruct Eev as (m & _ & ->). by eexists. }
  split; [done| | | | | | |].
  - cbn. rewrite Esend. auto.
  - cbn [stops set_stop]. intros t' p [[<- <-]|[_ Hp]]%lookup_insert_Some Hsp; [|rewrite Hs in Hp; eauto].
    apply Hk. destruct (Esending Hsp); auto.
  - intros [?|[? _]]%Esent; auto.
  - cbn. rewrite Hm, Hs. intros [Hb|[_ ->]]%Esent Hw; [|left; exists t; apply lookup_insert_eq].
    destruct (decide (pc = StopWrite)) as [->|Hne].
    { destruct Eev as (n & Hn & ->). right. specialize (Hev _ Hn). eauto with lia. }
    destruct (Hpend Hb Hw) as [[t' Ht']|(n & Hn & Hpos)]; [left|right].
    + exists t'. rewrite lookup_insert_ne; [done|]. intros <-. congruence.
    + exists n. split; [|done]. destruct pc; congruence.
  - cbn. rewrite Hm, Esend. done.
  - cbn. rewrite Hm. intros Hw. destruct (Hopen Hw) as [n Hn].
    destruct pc; rewrite ?Eev; try (by eexists). destruct Eev as (m & _ & ->). by eexists.
  - cbn. intros n. destruct pc; rewrite ?Eev; try (eauto; fail).
    destruct Eev as (m & Hm' & ->). intros [= <-]. specialize (Hev _ Hm'). lia.
Qed.

Lemma call_sync_inv t s :
  stops s !! t = None ∨ stops s !! t = Some StopReturned → sync_inv s → sync_inv (set_stop t StopRetry s).
Proof.
  intros Ht [L Hsend Hsending Hsent Hpend Hwait Hopen Hev].
  split; [eapply lock_step_inv; [by apply step_call|done]|done| |done| |done|done|done].
  - cbn [stops set_stop]. intros t' p [[<- <-]|[_ Hp]]%lookup_insert_Some Hsp; [done|by eapply Hsending].
  - intros Hb Hw. destruct (Hpend Hb Hw) as [[t' Ht']|?]; [left|by right].
    exists t'. cbn. rewrite lookup_insert_ne; [done|]. intros <-. destruct Ht; congruence.
Qed.

Lemma reachable_inv s : reachable s → sync_inv s.
Proof.
  apply (rtc_ind_r (λ s, sync_inv s)).
  - split; [split|..]; cbn; try done; naive_solver.
  - intros s1 s2 _ [ok s0 s' pc H|t s0 H|t pc pc' s0 s' Ht H];
      [by eapply main_sync_inv|by apply call_sync_inv|by eapply stop_sync_inv].
Qed.

(** SYNC_WAIT is set by a call that is still there. *)
Lemma wait_owned s : reachable s → has SYNC_WAIT (tsync s) = true → ∃ t pc, stops s !! t = Some pc ∧ owner pc = true.
Proof.
  apply (rtc_ind_r (λ s, has SYNC_WAIT (tsync s) = true → ∃ t pc, stops s !! t = Some pc ∧ owner pc = true)); [done|].
  intros s1 s2 Hr [ok s0 s' pc H|t s0 H|t pc pc' s0 s' Ht H] IH.
  - apply main_keeps in H as [Hs Hw]. cbn. by rewrite Hs, Hw.
  - cbn. intros (t' & p & Hp & Ho)%IH. exists t', p. split; [|done]. rewrite lookup_insert_ne; [done|].
    intros ->. destruct H as [H|H]; rewrite H in Hp; by simplify_eq.
  - apply stop_lock in H as (Hs & _ & Hw). unfold lock_step in Hw. cbn. intros Hwait. rewrite Hs.
    destruct (owner pc') eqn:Eo'; [exists t, pc'; split; [apply lookup_insert_eq|done]|].
    destruct (owner pc) eqn:Eo; [congruence|]. rewrite Hw in Hwait. destruct (IH Hwait) as (t' & p & Hp & Ho).
    exists t', p. split; [|done]. rewrite lookup_insert_ne; [done|]. intros ->. congruence.
Qed.

(** No step is undefined. *)
Lemma stop_defined s t pc : sync_inv s → stops s !! t = Some pc → hev_socks5_tunnel_stop pc s ≠ Stuck.
Proof.
  intros [_ _ Hsending _ _ _ _ _] Ht. specialize (Hsending t pc Ht). unfold can_send in Hsending.
  unfold hev_socks5_tunnel_stop, atomic_fetch_or, atomic_fetch_and, of_option. mstep. repeat case_match; naive_solver.
Qed.

Lemma main_defined ok s : sync_inv s → main_step ok s ≠ Stuck.
Proof.
  intros [_ _ _ _ _ _ Hopen _]. unfold main_step, hev_socks5_tunnel_init, hev_socks5_tunnel_run, event_task_entry,
    hev_socks5_tunnel_fini, atomic_fetch_or, atomic_fetch_and, of_option. mstep. repeat case_match; naive_solver.
Qed.

(** Only the event task waits, and a wait changes nothing. *)
Lemma main_blocked ok s s' : main_step ok s = Blocked s' → s' = s ∧ main s = MainEventRead.
Proof.
  unfold main_step, hev_socks5_tunnel_init, hev_socks5_tunnel_run, event_task_entry,
    hev_socks5_tunnel_fini, atomic_fetch_or, atomic_fetch_and, of_option. mstep. repeat case_match; naive_solver.
Qed.

Lemma stop_blocked pc s s' : hev_socks5_tunnel_stop pc s ≠ Blocked s'.
Proof.
  unfold hev_socks5_tunnel_stop, atomic_fetch_or, atomic_fetch_and, of_option. mstep. repeat case_match; naive_solver.
Qed.

(** ** What the protocol promises *)

(** C23: Whatever the threads do, in every interleaving: at most one call of
    [hev_socks5_tunnel_stop] is between taking and releasing SYNC_WAIT; no step of a
    call or of the tunnel's thread is undefined, so a stop never writes to sockets
    that [hev_socks5_tunnel_fini] closed, and the event task never reads from them;
    and once a stop has announced itself with SYNC_SENT and has written its byte, the
    event task is woken, so the stop is not lost. *)
Theorem tunnel_stop_safe s :
  reachable s →
  (∀ t t' pc pc', stops s !! t = Some pc → stops s !! t' = Some pc' → owner pc = true → owner pc' = true → t = t') ∧
  (∀ t pc, stops s !! t = Some pc → hev_socks5_tunnel_stop pc s ≠ Stuck) ∧
  (∀ ok, main_step ok s ≠ Stuck) ∧
  (has SYNC_SENT (tsync s) = true → main s = MainEventRead → (∀ t, stops s !! t ≠ Some StopWrite) →
   ∃ s', main_step true s = Val MainEventClear s').
Proof.
  intros Hi%reachable_inv. pose proof Hi as [[_ Hu] _ _ _ Hpend _ _ _].
  split; [done|split; [|split]].
  - intros t pc. by apply stop_defined.
  - intros ok. by apply main_defined.
  - intros Hb Hm Hn. rewrite Hm in Hpend.
    destruct (Hpend Hb eq_refl) as [[t Ht]|(n & Hn' & Hpos)]; [by destruct (Hn t)|].
    unfold main_step, event_task_entry, of_option. mstep. rewrite Hm. mstep. rewrite Hm. mstep. rewrite Hn'. mstep.
    destruct (Z.eqb_spec n 0); [lia|eauto].
Qed.

(** A tunnel whose event task is read and closed. *)
Lemma tunnel_stop_safe_witness :
  ∃ s, stops s !! 0%nat = Some StopRelease ∧ main s = MainEventRead ∧
    reachable s ∧ ∃ s', main_step true s = Val MainEventClear s'.
Proof.
  eexists (Tunnel 7 (Some 1) MainEventRead {[ 0%nat := StopRelease ]}).
  assert (reachable (Tunnel 7 (Some 1) MainEventRead {[ 0%nat := StopRelease ]})) as Hr.
  { do 4 (eapply rtc_l; [by apply (step_main true)|]).
    eapply rtc_l; [apply (step_call 0); by left|].
    do 3 (eapply rtc_l; [by eapply (step_stop 0)|]). apply rtc_refl. }
  split; [done|split; [done|split; [done|]]].
  apply (tunnel_stop_safe _ Hr); [by vm_compute|done|].
  cbn [stops]. by intros t [_ [=]]%lookup_singleton_Some.
Defined.

(** A call, or the tunnel's thread, that takes [n] steps in a row. *)
Fixpoint stop_steps (n : nat) (pc : stop_pc) : M tunnel stop_pc :=
  match n with O => mret pc | S n => pc' ← hev_socks5_tunnel_stop pc; stop_steps n pc' end.
Fixpoint main_steps (n : nat) : M tunnel main_pc :=
  match n with
  | O => gets main
  | S n => pc ← main_step true; modify (set_main pc);; main_steps n
  end.

(** A call that nobody interrupts: SYNC_WAIT is free again, and the byte is in the
    sockets, or SYNC_STOP is set. *)
Lemma stop_alone s :
  sync_inv s → has SYNC_WAIT (tsync s) = false →
  ∃ s1, stop_steps 4 StopRetry s = Val StopReturned s1 ∧ main s1 = main s ∧
    has SYNC_WAIT (tsync s1) = false ∧
    if has SYNC_SEND (tsync s) then waiting (main s) = true → ∃ n, events s1 = Some n ∧ 0 < n
    else has SYNC_STOP (tsync s1) = true.
Proof.
  intros [[Ho _] Hsend _ _ Hpend _ _ Hev] Hfree.
  assert (Hnw : ∀ t, stops s !! t ≠ Some StopWrite).
  { intros t Ht. specialize (Ho _ _ Ht eq_refl). congruence. }
  cbn [stop_steps]. unfold hev_socks5_tunnel_stop, atomic_fetch_or, atomic_fetch_and, of_option. mstep.
  fold (has SYNC_WAIT (tsync s)). rewrite Hfree. mstep.
  fold (has SYNC_SEND (tsync s)).
  destruct (has SYNC_SEND (tsync s)) eqn:Es; mstep; cbn.
  - destruct (Hsend eq_refl) as [_ [n Hn]]. specialize (Hev _ Hn).
    fold (has SYNC_SENT (Z.lor (tsync s) SYNC_WAIT)). bits.
    destruct (has SYNC_SENT (tsync s)) eqn:Et; mstep; cbn.
    + eexists. split; [done|split; [done|split; [cbn; bits; done|]]]. cbn. intros Hw.
      destruct (Hpend eq_refl Hw) as [[t Ht]|?]; [by destruct (Hnw t)|done].
    + rewrite Hn. cbn. eexists. split; [done|split; [done|split; [cbn; bits; done|]]]. cbn. eauto with lia.
  - eexists. split; [done|split; [done|split; cbn; bits; done]].
Qed.

Lemma main_ends s n :
  main s = MainEventRead → has SYNC_WAIT (tsync s) = false → events s = Some n → 0 < n →
  ∃ s2, main_steps 4 s = Val MainIdle s2 ∧ events s2 = None.
Proof.
  intros Hm Hw He Hn. cbn [main_steps].
  unfold main_step, event_task_entry, hev_socks5_tunnel_fini, atomic_fetch_and, of_option. mstep.
  do 2 (rewrite Hm; mstep). rewrite He. mstep. destruct (Z.eqb_spec n 0); [lia|]. cbn.
  fold (has SYNC_WAIT (Z.land (tsync s) (Z.lnot SYNC_SENT))). bits. rewrite Hw. cbn. eauto.
Qed.

Lemma main_refuses s :
  main s = MainIdle → has SYNC_STOP (tsync s) = true → ∃ s2, main_steps 4 s = Val MainFini s2.
Proof.
  intros Hm Hs. cbn [main_steps].
  unfold main_step, hev_socks5_tunnel_init, hev_socks5_tunnel_run, atomic_fetch_or, atomic_fetch_and. mstep.
  do 2 (rewrite Hm; cbn).
  fold (has SYNC_STOP (Z.lor (tsync s) SYNC_SEND)). bits. rewrite Hs. cbn. eauto.
Qed.

(** A stop works. In a reachable state where no call holds SYNC_WAIT, a call of
    [hev_socks5_tunnel_stop] that is not interrupted returns; when the event task was
    waiting, the tunnel's thread then leaves the run and closes its sockets, and when
    the tunnel had not started, the next run ends before it runs any task. *)
Theorem tunnel_stop_ends_run s :
  reachable s → has SYNC_WAIT (tsync s) = false →
  (main s = MainEventRead → ∃ s1 s2, stop_steps 4 StopRetry s = Val StopReturned s1 ∧
     main_steps 4 s1 = Val MainIdle s2 ∧ events s2 = None) ∧
  (main s = MainIdle → ∃ s1 s2, stop_steps 4 StopRetry s = Val StopReturned s1 ∧
     main_steps 4 s1 = Val MainFini s2).
Proof.
  intros Hr%reachable_inv Hfree. destruct (stop_alone s Hr Hfree) as (s1 & H1 & Hm & Hw & He).
  split; intros Hs; exists s1; rewrite Hs in *.
  - rewrite (si_waiting _ Hr) in He by by rewrite Hs. destruct (He eq_refl) as (n & Hn & Hpos).
    destruct (main_ends s1 n) as (s2 & ? & ?); eauto.
  - destruct (has SYNC_SEND (tsync s)) eqn:Es.
    { destruct (si_send _ Hr Es) as [Hl _]. by rewrite Hs in Hl. }
    destruct (main_refuses s1) as (s2 & ?); eauto.
Qed.

Lemma tunnel_stop_ends_run_witness :
  ∃ s s1 s2, reachable s ∧ stop_steps 4 StopRetry s = Val StopReturned s1 ∧
    main_steps 4 s1 = Val MainIdle s2 ∧ events s2 = None.
Proof.
  assert (reachable (Tunnel 1 (Some 0) MainEventRead ∅)) as Hr.
  { do 4 (eapply rtc_l; [by apply (step_main true)|]). apply rtc_refl. }
  pose proof (proj1 (tunnel_stop_ends_run _ Hr eq_refl) eq_refl) as (s1 & s2 & H).
  by exists (Tunnel 1 (Some 0) MainEventRead ∅), s1, s2.
Defined.

(** A stop can get lost. There is an interleaving in which a call that began
    before the tunnel accepted stops through its sockets returns after
    [hev_socks5_tunnel_run] looked for SYNC_STOP: the call has returned, no other is in
    progress, and the event task waits for a byte that nobody will write. *)
Theorem tunnel_stop_lost :
  ∃ s, reachable s ∧ stops s = {[ 0%nat := StopReturned ]} ∧
    main s = MainEventRead ∧ ∀ ok, main_step ok s = Blocked s.
Proof.
  exists (Tunnel 9 (Some 0) MainEventRead {[ 0%nat := StopReturned ]}).
  split; [|by split; [|split; [|by intros []]]].
  eapply rtc_l; [apply (step_call 0); by left|].
  eapply rtc_l; [by eapply (step_stop 0)|].
  do 4 (eapply rtc_l; [by apply (step_main true)|]).
  do 2 (eapply rtc_l; [by eapply (step_stop 0)|]). apply rtc_refl.
Qed.
