(* ===== verification/Service.v ===== *)
(** * Service: the engine as the app starts and stops it, src/hev-jni.c

    The app's threads call [native_start_service] and [native_stop_service] whenever
    they like; each start makes a worker thread, which runs the tunnel. Calls and
    workers take turns in any order, one atomic operation, one operation on the mutex
    or one call of the thread library at a time; what a thread does with the variables
    that the mutex protects is part of its step. The tunnel is that of [TunnelSync]. *)
From S2P Require Import Prelude TunnelSync.

(** ** State *)

(** What a worker was given: the blocks of the path and of the ThreadData. *)
Record thread_data := TData { t_path : nat; t_data : nat }.

(** A worker: before and in [hev_socks5_tunnel_main], after it, and ended. *)
Inductive worker_pc := WorkerMain | WorkerTunnel | WorkerStore | WorkerFree | WorkerEnded.

Record worker := Worker { w_pc : worker_pc; w_data : thread_data }.

(** Where a call is; the result comes at the end. *)
Inductive call_pc :=
  | StartLock | StartLoad | StartJoin | StartPrepare | StartStore (d : thread_data) | StartCreate (d : thread_data)
  | StartFail (d : thread_data) | StartDone
  | StopLock | StopLoad | StopQuit | StopJoin | StopStore
  | Unlock (result : bool) | Returned (result : bool).

(** [is_running], [thread_joinable], [work_thread] and [mutex] are the static
    variables, the last as the call that holds it. [workers]: the threads that were
    not joined; [blocks]: the memory in use; [pinned]: the characters of Java strings
    that were not released. *)
Record service := Service {
  is_running : Z; thread_joinable : Z; work_thread : nat; mutex : option nat;
  workers : gmap nat worker; calls : gmap nat call_pc; blocks : gset nat; pinned : Z; sync : TunnelSync.tunnel
}.

Definition set_is_running v s := Service v (thread_joinable s) (work_thread s) (mutex s) (workers s) (calls s) (blocks s) (pinned s) (sync s).
Definition set_thread_joinable v s := Service (is_running s) v (work_thread s) (mutex s) (workers s) (calls s) (blocks s) (pinned s) (sync s).
Definition set_work_thread v s := Service (is_running s) (thread_joinable s) v (mutex s) (workers s) (calls s) (blocks s) (pinned s) (sync s).
Definition set_mutex v s := Service (is_running s) (thread_joinable s) (work_thread s) v (workers s) (calls s) (blocks s) (pinned s) (sync s).
Definition set_workers v s := Service (is_running s) (thread_joinable s) (work_thread s) (mutex s) v (calls s) (blocks s) (pinned s) (sync s).
Definition set_calls v s := Service (is_running s) (thread_joinable s) (work_thread s) (mutex s) (workers s) v (blocks s) (pinned s) (sync s).
Definition set_blocks v s := Service (is_running s) (thread_joinable s) (work_thread s) (mutex s) (workers s) (calls s) v (pinned s) (sync s).
Definition set_pinned v s := Service (is_running s) (thread_joinable s) (work_thread s) (mutex s) (workers s) (calls s) (blocks s) v (sync s).
Definition set_sync v s := Service (is_running s) (thread_joinable s) (work_thread s) (mutex s) (workers s) (calls s) (blocks s) (pinned s) v.

(** ** Memory, threads and the mutex *)

(** [ok]: whether there is memory. *)
Definition malloc (ok : bool) : M service (option nat) :=
  if negb ok then mret None else
  m ← gets blocks;
  modify (set_blocks ({[fresh m]} ∪ m));;
  mret (Some (fresh m)).
Definition free (b : nat) : M service unit :=
  m ← gets blocks; if bool_decide (b ∈ m) then modify (set_blocks (m ∖ {[b]})) else stuck.

Definition pthread_mutex_lock (t : nat) : M service unit :=
  m ← gets mutex; if m is Some _ then blocked else modify (set_mutex (Some t)).
Definition pthread_mutex_unlock (t : nat) : M service unit :=
  m ← gets mutex; if bool_decide (m = Some t) then modify (set_mutex None) else stuck.

(** A thread that does not exist, or was joined before, cannot be joined. *)
Definition pthread_join (w : nat) : M service unit :=
  m ← gets workers;
  x ← of_option (m !! w);
  match w_pc x with
  | WorkerEnded => modify (set_workers (delete w m))
  | _ => blocked
  end.

Definition pthread_create (ok : bool) (d : thread_data) : M service bool :=
  if negb ok then mret false else
  m ← gets workers;
  let w := fresh (dom m) in
  modify (set_workers (<[w := Worker WorkerMain d]> m));;
  modify (set_work_thread w);;
  mret true.

(** ** The calls

    [oks]: how the calls of the library in the step end, in order. *)
Record outcomes := Oks { ok_data : bool; ok_chars : bool; ok_path : bool; ok_thread : bool }.

(** The part of [native_start_service] between the old thread and the new one. *)
Definition prepare_data (oks : outcomes) : M service call_pc :=
  tdata ← malloc (ok_data oks);
  match tdata with
  | None => mret (Unlock false)
  | Some tdata =>
      if negb (ok_chars oks) then (free tdata;; mret (Unlock false)) else
      modify (λ s, set_pinned (pinned s + 1) s);;
      path ← malloc (ok_path oks);
      modify (λ s, set_pinned (pinned s - 1) s);;
      match path with
      | None => free tdata;; mret (Unlock false)
      | Some path => mret (StartStore (TData path tdata))
      end
  end.

Definition native_start_service (t : nat) (oks : outcomes) (pc : call_pc) : M service call_pc :=
  match pc with
  | StartLock => pthread_mutex_lock t;; mret StartLoad
  | StartLoad =>
      r ← gets is_running;
      mret (if truthy r then Unlock false else StartJoin)
  | StartJoin =>
      s ← gets (λ s, s);
      when (truthy (thread_joinable s)) (
        pthread_join (work_thread s);;
        modify (set_thread_joinable 0));;
      mret StartPrepare
  | StartPrepare => prepare_data oks
  | StartStore d => modify (set_is_running 1);; mret (StartCreate d)
  | StartCreate d =>
      ok ← pthread_create (ok_thread oks) d;
      mret (if negb ok then StartFail d else StartDone)
  | StartFail d =>
      modify (set_is_running 0);;
      free (t_path d);;
      free (t_data d);;
      mret (Unlock false)
  | _ =>
      modify (set_thread_joinable 1);;
      mret (Unlock true)
  end.

(** [StopQuit] takes the next step of [hev_socks5_tunnel_quit] in this thread. *)
Definition native_stop_service (t : nat) (pc : call_pc) : M service call_pc :=
  match pc with
  | StopLock =>
      pthread_mutex_lock t;;
      j ← gets thread_joinable;
      mret (if negb (truthy j) then Unlock true else StopLoad)
  | StopLoad =>
      r ← gets is_running;
      if truthy r then
        modify (λ s, set_sync (set_stop t StopRetry (sync s)) s);;
        mret StopQuit
      else mret StopJoin
  | StopQuit =>
      s ← gets (λ s, s);
      pc ← of_option (stops (sync s) !! t);
      pc' ← zoom sync set_sync (hev_socks5_tunnel_stop pc);
      modify (λ s, set_sync (set_stop t pc' (sync s)) s);;
      mret (match pc' with StopReturned => StopJoin | _ => StopQuit end)
  | StopJoin =>
      w ← gets work_thread;
      pthread_join w;;
      modify (set_thread_joinable 0);;
      mret StopStore
  | _ => modify (set_is_running 0);; mret (Unlock true)
  end.

(** The next step of a call. *)
Definition call_body (t : nat) (oks : outcomes) (pc : call_pc) : M service call_pc :=
  match pc with
  | StopLock | StopLoad | StopQuit | StopJoin | StopStore => native_stop_service t pc
  | Unlock result => pthread_mutex_unlock t;; mret (Returned result)
  | Returned result => mret (Returned result)
  | _ => native_start_service t oks pc
  end.
Definition call_step (t : nat) (oks : outcomes) : M service unit :=
  s ← gets (λ s, s);
  pc ← of_option (calls s !! t);
  pc' ← call_body t oks pc;
  modify (λ s, set_calls (<[t := pc']> (calls s)) s).

(** ** The worker *)

(** The next step of [thread_handler]. [ok]: whether what comes before the tunnel's
    initialisation succeeds, and then as in [main_step]. *)
Definition thread_handler (w : nat) (ok : bool) : M service unit :=
  s ← gets (λ s, s);
  x ← of_option (workers s !! w);
  pc' ← match w_pc x with
        | WorkerMain => mret (if ok then WorkerTunnel else WorkerStore)
        | WorkerTunnel =>
            pc ← zoom sync set_sync (main_step ok);
            modify (λ s, set_sync (set_main pc (sync s)) s);;
            mret (match pc with MainIdle => WorkerStore | _ => WorkerTunnel end)
        | WorkerStore => modify (set_is_running 0);; mret WorkerFree
        | WorkerFree =>
            free (t_path (w_data x));;
            free (t_data (w_data x));;
            mret WorkerEnded
        | WorkerEnded => mret WorkerEnded
        end;
  modify (λ s, set_workers (<[w := Worker pc' (w_data x)]> (workers s)) s).

(** ** Interleaving *)

Inductive action := Start (t : nat) | Stop (t : nat) | Call (t : nat) (oks : outcomes) | Work (w : nat) (ok : bool).

(** A new call, in a thread that is not in one. *)
Definition new_call (t : nat) (pc : call_pc) : M service unit :=
  s ← gets (λ s, s);
  match calls s !! t with
  | None | Some (Returned _) => modify (set_calls (<[t := pc]> (calls s)))
  | _ => blocked
  end.

Definition perform (a : action) : M service unit :=
  match a with
  | Start t => new_call t StartLock
  | Stop t => new_call t StopLock
  | Call t oks => call_step t oks
  | Work w ok => thread_handler w ok
  end.

(** Calls that are made and threads that exist. *)
Definition enabled (a : action) (s : service) : Prop :=
  match a with
  | Call t _ => is_Some (calls s !! t)
  | Work w _ => is_Some (workers s !! w)
  | _ => True
  end.

Definition native_is_running (s : service) : bool := truthy (is_running s).

Definition service_start : service := Service 0 0 0 None ∅ ∅ ∅ 0 tunnel_start.
Definition service_step (s s' : service) : Prop := ∃ a, enabled a s ∧ perform a s = Val tt s'.
Definition service_reachable (s : service) : Prop := rtc service_step service_start s.
