(* ===== verification/ServiceSafe.v ===== *)
(** * ServiceSafe: the engine is started and stopped one thread at a time

    The invariant of [Service]: who holds the mutex, which thread exists, what
    [is_running] says of it and who owns which memory, by induction on the
    interleaving. The tunnel's part of a reachable state is reachable in
    [TunnelSync], so that what is shown there holds here. *)
From S2P Require Import Prelude TunnelSync Service.

(** ** The invariant *)

(** Between the mutex's lock and its unlock. *)
Definition inside (pc : call_pc) : bool :=
  match pc with StartLock | StopLock | Returned _ => false | _ => true end.

(** The worker may still be in [hev_socks5_tunnel_main]. *)
Definition active (x : option worker) : bool :=
  match x with Some (Worker (WorkerMain | WorkerTunnel | WorkerStore) _) => true | _ => false end.

(** [is_running] is set for a thread that is not there yet. *)
Definition starting (hp : option call_pc) : bool :=
  match hp with Some (StartCreate _ | StartFail _) => true | _ => false end.

(** What the call that holds the mutex knows of the thread. *)
Definition knows (hp : option call_pc) (joinable : Z) (x : option worker) : Prop :=
  match hp with
  | Some (StartPrepare | StartStore _ | StartCreate _ | StartFail _ | StopStore) => x = None ∧ joinable = 0
  | Some StartDone => is_Some x ∧ joinable = 0
  | Some (StopLoad | StopQuit | StopJoin) => is_Some x ∧ joinable = 1
  | Some StartJoin => active x = false ∧ joinable = if x is Some _ then 1 else 0
  | _ => joinable = if x is Some _ then 1 else 0
  end.

Definition data_blocks (d : thread_data) : list nat := [t_path d; t_data d].
Definition worker_blocks (x : option worker) : list nat :=
  match x with Some (Worker WorkerEnded _) | None => [] | Some (Worker _ d) => data_blocks d end.
Definition call_blocks (hp : option call_pc) : list nat :=
  match hp with Some (StartStore d | StartCreate d | StartFail d) => data_blocks d | _ => [] end.

(** The call that holds the mutex, and the thread of [work_thread]. *)
Definition held (s : service) : option call_pc := t ← mutex s; calls s !! t.
Definition current (s : service) : option worker := workers s !! work_thread s.

Definition in_tunnel (x : option worker) : Prop := ∃ d, x = Some (Worker WorkerTunnel d).

Record service_inv (s : service) : Prop := {
  iv_inside : ∀ t pc, calls s !! t = Some pc → inside pc = true → mutex s = Some t;
  iv_mutex : ∀ t, mutex s = Some t → ∃ pc, calls s !! t = Some pc ∧ inside pc = true;
  iv_one : ∀ w x, workers s !! w = Some x → w = work_thread s;
  iv_knows : knows (held s) (thread_joinable s) (current s);
  iv_running : is_running s = if active (current s) || starting (held s) then 1 else 0;
  iv_nodup : NoDup (worker_blocks (current s) ++ call_blocks (held s));
  iv_blocks : blocks s = list_to_set (worker_blocks (current s) ++ call_blocks (held s));
  iv_pinned : pinned s = 0;
  iv_main : main (sync s) ≠ MainIdle → in_tunnel (current s);
  iv_sync : reachable (sync s);
  iv_stops : ∀ t pc, stops (sync s) !! t = Some pc → pc ≠ StopReturned → calls s !! t = Some StopQuit;
  iv_quit : ∀ t, calls s !! t = Some StopQuit → ∃ pc, stops (sync s) !! t = Some pc ∧ pc ≠ StopReturned
}.

Lemma start_inv : service_inv service_start.
Proof.
  split; try done.
  - constructor.
  - by apply rtc_refl.
Qed.

Lemma held_other s t : service_inv s → match calls s !! t with None | Some (Returned _) => True | _ => False end → mutex s ≠ Some t.
Proof.
  intros Hi Ht Hm. destruct (iv_mutex _ Hi _ Hm) as (pc & E & Hin). rewrite E in Ht. by destruct pc.
Qed.

(** A call that does not hold the mutex moves on without it. *)
Lemma outside_inv s t pc :
  service_inv s → (∀ pc', calls s !! t = Some pc' → inside pc' = false) → inside pc = false →
  service_inv (set_calls (<[t := pc]> (calls s)) s).
Proof.
  intros Hi Ht Hpc. assert (mutex s ≠ Some t) as Hm.
  { intros Hm. destruct (iv_mutex _ Hi _ Hm) as (pc' & E & Hin). specialize (Ht _ E). congruence. }
  assert (held (set_calls (<[t := pc]> (calls s)) s) = held s) as Hh.
  { unfold held. cbn. destruct (mutex s) as [t'|] eqn:Em; [|done]. cbn. by rewrite lookup_insert_ne by congruence. }
  destruct Hi. split; rewrite ?Hh; try done.
  - cbn. intros t' pc' [[<- <-]|[_ E]]%lookup_insert_Some Hin; [congruence|eauto].
  - cbn. intros t' Em. rewrite lookup_insert_ne by congruence. eauto.
  - intros t' pc' Hs Hr. cbn. specialize (iv_stops0 _ _ Hs Hr). rewrite lookup_insert_ne; [done|].
    intros <-. by specialize (Ht _ iv_stops0).
  - cbn. intros t' [[<- ->]|[_ E]]%lookup_insert_Some; [done|eauto].
Qed.

Lemma new_call_inv s t pc s' : service_inv s → inside pc = false → new_call t pc s = Val tt s' → service_inv s'.
Proof.
  intros Hi Hpc E. unfold new_call in E. mstep.
  destruct (calls s !! t) as [[]|] eqn:Et; simplify_eq; apply outside_inv; try done; intros pc' E'; rewrite Et in E'; by simplify_eq.
Qed.

(** ** The worker *)

Lemma knows_moves hp joinable x x' : (active (Some x') = true → active (Some x) = true) → knows hp joinable (Some x) → knows hp joinable (Some x').
Proof.
  intros Ha. destruct hp as [[]|]; cbn [knows]; try done; try (intros [? ?]; split; [by eexists|done]); try (by intros [[=] _]).
  intros [H1 H2]. split; [|done]. destruct (active (Some x')); [by rewrite Ha in H1|done].
Qed.

(** The thread goes from [pc] to [pc'], with a new tunnel and other blocks. *)
Lemma worker_moves s s' d pc pc' :
  service_inv s → current s = Some (Worker pc d) →
  workers s' = <[work_thread s := Worker pc' d]> (workers s) → work_thread s' = work_thread s → mutex s' = mutex s →
  calls s' = calls s → thread_joinable s' = thread_joinable s → pinned s' = pinned s →
  (active (Some (Worker pc' d)) = true → active (Some (Worker pc d)) = true) →
  is_running s' = (if active (Some (Worker pc' d)) || starting (held s) then 1 else 0) →
  NoDup (worker_blocks (Some (Worker pc' d)) ++ call_blocks (held s)) →
  blocks s' = list_to_set (worker_blocks (Some (Worker pc' d)) ++ call_blocks (held s)) →
  (main (sync s') ≠ MainIdle → pc' = WorkerTunnel) → reachable (sync s') → stops (sync s') = stops (sync s) →
  service_inv s'.
Proof.
  intros Hi Hc Ew Et Em Eca Ej Ep Ha Hr Hnd Hbl Hm Hsy Hst.
  assert (held s' = held s) as Hh by (unfold held; by rewrite Em, Eca).
  assert (current s' = Some (Worker pc' d)) as Hc' by (unfold current; rewrite Ew, Et; apply lookup_insert_eq).
  destruct Hi. rewrite Hc in *. split; rewrite ?Hh, ?Hc', ?Em, ?Eca, ?Ej, ?Ep, ?Et, ?Hst; try done.
  - rewrite Ew. intros w x [[<- _]|[_ E]]%lookup_insert_Some; eauto.
  - by apply knows_moves with (Worker pc d).
  - intros Hmn. exists d. by rewrite Hm.
Qed.

(** A thread that exists was created by a call that has gone on. *)
Lemma thread_not_starting s x : service_inv s → current s = Some x → starting (held s) = false ∧ call_blocks (held s) = [].
Proof.
  intros [] Hc. rewrite Hc in *. destruct (held s) as [[]|]; cbn in *; try done; by destruct iv_knows0.
Qed.

Lemma free_block_val b s : b ∈ blocks s → free b s = Val tt (set_blocks (blocks s ∖ {[b]}) s).
Proof. intros Hb. unfold free. mstep. by rewrite bool_decide_eq_true_2. Qed.

(** Both blocks of a thread's data are freed. *)
Lemma free_both {A} (k : M service A) (Q : A → service → Prop) Bl d s :
  NoDup (data_blocks d) → blocks s = list_to_set (data_blocks d) → wp k Q Bl (set_blocks ∅ s) →
  wp (free (t_path d);; free (t_data d);; k) Q Bl s.
Proof.
  intros [Hn _]%NoDup_cons Hb Hk. cbn in Hb, Hn. rewrite list_elem_of_singleton in Hn.
  eapply wp_bind_val; [apply free_block_val; set_solver|]. eapply wp_bind_val; [apply free_block_val; cbn; set_solver|].
  assert (blocks s ∖ {[t_path d]} ∖ {[t_data d]} = ∅) as E by (rewrite Hb; set_solver). unfold set_blocks. cbn. by rewrite E.
Qed.

Lemma worker_ok w ok s :
  service_inv s → is_Some (workers s !! w) →
  wp (thread_handler w ok) (λ _, service_inv) (λ s', s' = s ∧ main (sync s) = MainEventRead) s.
Proof.
  intros Hi [[pc d] Hw]. assert (w = work_thread s) as -> by by eapply iv_one. assert (current s = Some (Worker pc d)) as Hc by done.
  destruct (thread_not_starting _ _ Hi Hc) as [Hns Hnb].
  pose proof Hi as []. rewrite Hc, Hns, Hnb, ?app_nil_r in *. unfold thread_handler. apply wp_bind, wp_gets. rewrite Hw. apply wp_bind, wp_ret, wp_bind.
  assert (∀ s', main (sync s') = main (sync s) → main (sync s') ≠ MainIdle → pc = WorkerTunnel) as Hidle.
  { intros s' -> Hm. destruct (iv_main0 Hm) as [d' E]. congruence. }
  cbn [w_pc w_data]. destruct pc.
  - apply wp_ret, wp_modify. eapply worker_moves with (pc := WorkerMain); rewrite ?Hns, ?Hnb, ?app_nil_r; try done; try (by destruct ok).
    intros Hm. by specialize (Hidle s eq_refl Hm).
  - pose proof (reachable_inv _ iv_sync0) as Hsi.
    destruct (main_step ok (sync s)) as [pc' sy|sy|] eqn:E; [| |by apply main_defined in E].
    + pose proof (main_keeps _ _ _ _ E) as [Hst _].
      apply wp_bind, wp_val with pc' (set_sync sy s); [unfold zoom; by rewrite E|]. apply wp_bind, wp_modify, wp_ret, wp_modify.
      eapply worker_moves with (pc := WorkerTunnel); rewrite ?Hns, ?Hnb, ?app_nil_r; try done; try (by destruct pc').
      cbn. eapply rtc_r; [exact iv_sync0|]. by eapply step_main.
    + apply main_blocked in E as Hb. destruct Hb as [-> Hb]. unfold wp, mbind, M_bind, zoom. rewrite E. split; [by destruct s|done].
  - apply wp_bind, wp_modify, wp_ret, wp_modify.
    eapply worker_moves with (pc := WorkerStore); rewrite ?Hns, ?Hnb, ?app_nil_r; try done.
    intros Hm. by specialize (Hidle s eq_refl Hm).
  - apply free_both; [done..|]. apply wp_ret, wp_modify.
    eapply worker_moves with (pc := WorkerFree); rewrite ?Hns, ?Hnb, ?app_nil_r; try done; [constructor|].
    intros Hm. by specialize (Hidle s eq_refl Hm).
  - apply wp_ret, wp_modify.
    eapply worker_moves with (pc := WorkerEnded); rewrite ?Hns, ?Hnb, ?app_nil_r; try done.
    intros Hm. by specialize (Hidle s eq_refl Hm).
Qed.

(** ** The calls *)

(** What the view of the call that holds the mutex must be. *)
Record view (hp : option call_pc) (s : service) : Prop := {
  vw_one : ∀ w x, workers s !! w = Some x → w = work_thread s;
  vw_knows : knows hp (thread_joinable s) (current s);
  vw_running : is_running s = if active (current s) || starting hp then 1 else 0;
  vw_nodup : NoDup (worker_blocks (current s) ++ call_blocks hp);
  vw_blocks : blocks s = list_to_set (worker_blocks (current s) ++ call_blocks hp);
  vw_pinned : pinned s = 0;
  vw_main : main (sync s) ≠ MainIdle → in_tunnel (current s);
  vw_sync : reachable (sync s)
}.

Lemma inv_view s : service_inv s → view (held s) s.
Proof. by intros []. Qed.

(** How a call that holds the mutex, or takes it, moves on. *)
Lemma call_moves s s' t pc pc' :
  service_inv s → calls s !! t = Some pc → mutex s = Some t ∨ mutex s = None → inside pc' = true →
  calls s' = <[t := pc']> (calls s) → mutex s' = Some t → view (Some pc') s' →
  (∀ t' p, t' ≠ t → stops (sync s') !! t' = Some p → stops (sync s) !! t' = Some p) →
  (∀ t' p, t' ≠ t → stops (sync s) !! t' = Some p → stops (sync s') !! t' = Some p) →
  (∀ p, stops (sync s') !! t = Some p → p ≠ StopReturned → pc' = StopQuit) →
  (pc' = StopQuit → ∃ p, stops (sync s') !! t = Some p ∧ p ≠ StopReturned) →
  service_inv s'.
Proof.
  intros Hi Ht Hm Hpc' Eca Em Hv Hs1 Hs2 Hs3 Hs4.
  assert (held s' = Some pc') as Hh by (unfold held; rewrite Em; cbn; by rewrite Eca, lookup_insert_eq).
  assert (∀ t' pc, t' ≠ t → calls s !! t' = Some pc → inside pc = false) as Hothers.
  { intros t' p Hne Hp. destruct (inside p) eqn:Ein; [|done]. apply (iv_inside _ Hi _ _ Hp) in Ein. destruct Hm; congruence. }
  destruct Hv, Hi. split; rewrite ?Hh; try done.
  - rewrite Eca. intros t' p [[<- <-]|[Hne Hp]]%lookup_insert_Some Hin; [done|]. rewrite (Hothers t' p) in Hin; [done|congruence|done].
  - intros t'. rewrite Em. intros [= <-]. exists pc'. by rewrite Eca, lookup_insert_eq.
  - intros t' p Hst Hr. rewrite Eca. destruct (decide (t' = t)) as [-> |Hne].
    + rewrite lookup_insert_eq. f_equal. by eapply Hs3.
    + rewrite lookup_insert_ne by congruence. eauto.
  - intros t'. rewrite Eca. intros [[<- ->]|[Hne Hp]]%lookup_insert_Some; [by apply Hs4|].
    destruct (iv_quit0 _ Hp) as (p & ? & ?). exists p. split; [apply Hs2; [congruence|done]|done].
Qed.

(** The same when the tunnel's calls are not concerned. *)
Lemma call_moves_same s s' t pc pc' :
  service_inv s → calls s !! t = Some pc → mutex s = Some t ∨ mutex s = None → pc ≠ StopQuit → pc' ≠ StopQuit → inside pc' = true →
  calls s' = <[t := pc']> (calls s) → mutex s' = Some t → view (Some pc') s' → sync s' = sync s → service_inv s'.
Proof.
  intros Hi Ht Hm Hn Hn' Hin Eca Em Hv Es. eapply (call_moves s s' t pc pc'); rewrite ?Es; try done.
  intros p Hp Hr. pose proof (iv_stops _ Hi _ _ Hp Hr). congruence.
Qed.

(** A call gives the mutex back. *)
Lemma unlock_inv s t r :
  service_inv s → calls s !! t = Some (Unlock r) → mutex s = Some t →
  service_inv (set_calls (<[t := Returned r]> (calls s)) (set_mutex None s)).
Proof.
  intros Hi Ht Hm. assert (held s = Some (Unlock r)) as Hh by (unfold held; by rewrite Hm).
  pose proof (inv_view _ Hi) as Hv. rewrite Hh in Hv. set (s' := set_calls _ _). assert (held s' = None) as Hh' by done.
  destruct Hv, Hi. split; rewrite ?Hh'; try done.
  - cbn. intros t' p [[<- <-]|[Hne Hp]]%lookup_insert_Some Hin; [done|]. specialize (iv_inside0 _ _ Hp Hin). congruence.
  - cbn. intros t' p Hst Hr. rewrite lookup_insert_ne; [by eauto|]. intros <-. specialize (iv_stops0 _ _ Hst Hr). congruence.
  - cbn. intros t' [[<- ?]|[Hne Hp]]%lookup_insert_Some; [done|eauto].
Qed.

(** The threads with at most one, and the state of the current. *)
Lemma current_some s x : current s = Some x → is_Some (workers s !! work_thread s).
Proof. intros E. by exists x. Qed.

Section Call.
Context (s : service) (t : nat) (oks : outcomes).

(** A call may wait: for the mutex, or for a thread that is still there. *)
Definition call_waits (s' : service) : Prop :=
  s' = s ∧ ((∃ t', mutex s = Some t' ∧ t' ≠ t) ∨ active (current s) = true ∨ ∃ d, current s = Some (Worker WorkerFree d)).

Definition call_fine (m : M service call_pc) : Prop :=
  wp m (λ pc' s', service_inv (set_calls (<[t := pc']> (calls s')) s')) call_waits s.

(** A step of the holder that leaves everything but [is_running], [thread_joinable],
    the threads and the memory alone. *)
Lemma call_next pc pc' s' :
  service_inv s → calls s !! t = Some pc → mutex s = Some t ∨ mutex s = None → pc ≠ StopQuit → pc' ≠ StopQuit → inside pc' = true →
  calls s' = calls s → mutex s' = Some t → sync s' = sync s → view (Some pc') s' →
  service_inv (set_calls (<[t := pc']> (calls s')) s').
Proof.
  intros Hi Ht Hm Hn Hn' Hin Eca Em Es [].
  eapply (call_moves_same s _ t pc pc'); try done; cbn; by rewrite Eca.
Qed.

(** The view does not depend on what the call is, as long as it knows as much. *)
Lemma view_next hp hp' s' : view hp s' → (knows hp (thread_joinable s') (current s') → knows hp' (thread_joinable s') (current s')) →
  starting hp' = starting hp → call_blocks hp' = call_blocks hp → view hp' s'.
Proof. intros [] Hk Hst Hb. split; rewrite ?Hst, ?Hb; auto. Qed.

Lemma lock_ok pc (k : M service call_pc) :
  service_inv s → calls s !! t = Some pc → inside pc = false →
  (mutex s = None → view None s → call_fine (modify (set_mutex (Some t));; k)) →
  call_fine (pthread_mutex_lock t;; k).
Proof.
  intros Hi Ht Hpc Hk. assert (mutex s ≠ Some t) as Hmt.
  { intros Hm. destruct (iv_mutex _ Hi _ Hm) as (p & E & Hin). congruence. }
  unfold call_fine, pthread_mutex_lock. destruct (mutex s) as [t'|] eqn:Em.
  - unfold wp. mstep. rewrite Em. split; [done|]. left. exists t'. split; [done|congruence].
  - specialize (Hk eq_refl). assert (held s = None) as Hh by (unfold held; by rewrite Em).
    pose proof (inv_view _ Hi) as Hv. rewrite Hh in Hv. specialize (Hk Hv). unfold call_fine, wp in *. mstep. rewrite Em. exact Hk.
Qed.
End Call.

Lemma holder_view s t pc : service_inv s → calls s !! t = Some pc → inside pc = true → mutex s = Some t ∧ view (Some pc) s.
Proof.
  intros Hi Ht Hin. pose proof (iv_inside _ Hi _ _ Ht Hin) as Hm. pose proof (inv_view _ Hi) as Hv.
  unfold held in Hv. rewrite Hm in Hv. cbn in Hv. by rewrite Ht in Hv.
Qed.

Lemma wp_malloc ok (Q : option nat → service → Prop) Bl s :
  Q None s → (∀ b, b ∉ blocks s → Q (Some b) (set_blocks ({[b]} ∪ blocks s) s)) → wp (malloc ok) Q Bl s.
Proof.
  intros H0 H1. destruct ok; [|done]. apply wp_bind, wp_gets, wp_bind, wp_modify, wp_ret, H1, is_fresh.
Qed.

(** [pthread_join] of a thread that exists waits for its end. *)
Lemma wp_join (Q : unit → service → Prop) (Bl : service → Prop) s x :
  current s = Some x → (w_pc x = WorkerEnded → Q tt (set_workers (delete (work_thread s) (workers s)) s)) →
  (w_pc x ≠ WorkerEnded → Bl s) → wp (pthread_join (work_thread s)) Q Bl s.
Proof.
  intros Hc HQ HB. apply wp_bind, wp_gets, wp_bind. unfold current in Hc. rewrite Hc. apply wp_ret.
  destruct (w_pc x) eqn:E; try (by apply HB). by apply wp_modify, HQ.
Qed.

Lemma not_ended_waits s t x : current s = Some x → w_pc x ≠ WorkerEnded → call_waits s t s.
Proof.
  intros Hc Hx. split; [done|right]. rewrite Hc. destruct x as [[] d]; try (by left). right. by exists d.
Qed.

(** The joined thread is gone, and with it all memory of workers. *)
Lemma joined_view hp hp' s x j :
  view hp s → current s = Some x → w_pc x = WorkerEnded → starting hp = false → starting hp' = false → call_blocks hp = [] → call_blocks hp' = [] →
  knows hp' j None → view hp' (set_thread_joinable j (set_workers (delete (work_thread s) (workers s)) s)).
Proof.
  intros [] Hc Hx Hs Hs' Hb Hb' Hk. set (s' := set_thread_joinable _ _).
  assert (current s' = None) as Hc' by apply lookup_delete_eq. rewrite Hc in *. destruct x as [pc d]. cbn in Hx. subst pc.
  split; rewrite ?Hc', ?Hs', ?Hb'; try done.
  - cbn. intros w x [_ E]%lookup_delete_Some. eauto.
  - cbn [is_running s' set_thread_joinable set_workers]. by rewrite vw_running0, Hs.
  - constructor.
  - cbn [blocks s' set_thread_joinable set_workers]. by rewrite vw_blocks0, Hb.
  - intros Hm. destruct (vw_main0 Hm) as [d' E]. congruence.
Qed.

Lemma prepare_ok s t oks : service_inv s → calls s !! t = Some StartPrepare → call_fine s t (prepare_data oks).
Proof.
  intros Hi Ht. destruct (holder_view _ _ _ Hi Ht eq_refl) as [Hm Hv]. pose proof Hv as []. destruct vw_knows0 as [Hc Hj].
  rewrite Hc in *. cbn in vw_blocks0, vw_running0.
  assert (∀ s', set_blocks ∅ s = s' → service_inv (set_calls (<[t := Unlock false]> (calls s')) s')) as Hfail.
  { intros s' <-. rewrite <- vw_blocks0. apply (call_next s t StartPrepare); try done; [by left|].
    split; cbn; try done; unfold current in *; cbn; rewrite ?Hc; try done. }
  assert (∀ b s', b ∉ blocks s → s' = set_blocks ({[b]} ∪ blocks s) s → wp (free b) (λ _ s'', s'' = set_blocks ∅ s) (call_waits s t) s') as Hfree.
  { intros b s' Hb ->. eapply wp_val; [apply free_block_val; cbn; set_solver|]. unfold set_blocks. cbn. f_equal. rewrite vw_blocks0. set_solver. }
  unfold call_fine, prepare_data. apply wp_bind, wp_malloc; [apply wp_ret, Hfail; rewrite <- vw_blocks0; by destruct s|].
  intros b Hb. apply wp_if; intros _.
  { apply wp_bind. eapply wp_mono; [by apply (Hfree b)| |done]. intros [] s'' ->. by apply wp_ret, Hfail. }
  apply wp_bind, wp_modify, wp_bind, wp_malloc.
  - apply wp_bind, wp_modify, wp_bind. eapply wp_mono; [apply (Hfree b); [done|]| |done].
    + unfold set_pinned, set_blocks. cbn. f_equal. lia.
    + intros [] s'' ->. by apply wp_ret, Hfail.
  - intros p Hp. cbn in Hp. apply wp_bind, wp_modify, wp_ret.
    apply (call_next s t StartPrepare); try done; [by left|].
    split; unfold current in *; cbn; rewrite ?Hc; try done; [|rewrite vw_blocks0; set_solver|lia].
    constructor; [|constructor; [|constructor]]; set_solver.
Qed.

(** Which steps belong to which call. *)
Definition starts (pc : call_pc) : bool :=
  match pc with
  | StartLock | StartLoad | StartJoin | StartPrepare | StartStore _ | StartCreate _ | StartFail _ | StartDone => true
  | _ => false
  end.
Definition stopping (pc : call_pc) : bool :=
  match pc with StopLock | StopLoad | StopQuit | StopJoin | StopStore => true | _ => false end.

Lemma start_step_ok s t oks pc :
  service_inv s → calls s !! t = Some pc → starts pc = true → call_fine s t (native_start_service t oks pc).
Proof.
  intros Hi Ht Hpc.
  assert (pc ≠ StartLock → mutex s = Some t ∧ view (Some pc) s) as Hheld.
  { intros Hne. apply (holder_view s t pc Hi Ht). by destruct pc. }
  destruct pc; try done; cbn [native_start_service]; try (destruct Hheld as [Hm Hv]; [done|]).
  - (* lock *) eapply lock_ok; try done. intros Hm Hv. apply wp_bind, wp_modify, wp_ret.
    apply (call_next s t StartLock); try done; [by right|]. eapply view_next; [|by idtac|done..]. by destruct Hv.
  - (* load *) apply wp_bind, wp_gets, wp_ret. pose proof Hv as []. cbn [starting] in vw_running0. rewrite orb_false_r in vw_running0.
    rewrite vw_running0. destruct (active (current s)) eqn:Ea; cbn [truthy negb Z.eqb].
    + apply (call_next s t StartLoad); try done; [by left|]. by eapply view_next.
    + apply (call_next s t StartLoad); try done; [by left|]. eapply view_next; [done| |done..]. by intros Hk.
  - (* join *) apply wp_bind, wp_gets, wp_bind. pose proof Hv as []. destruct vw_knows0 as [Ha Hj]. rewrite Hj.
    destruct (current s) as [x|] eqn:Hc; cbn [truthy negb Z.eqb when].
    + apply wp_bind. eapply wp_join; [exact Hc| |].
      * intros Hx. apply wp_modify, wp_ret. apply (call_next s t StartJoin); try done; [by left|].
        by eapply (joined_view (Some StartJoin)).
      * intros Hx. by eapply not_ended_waits.
    + apply wp_ret, wp_ret. apply (call_next s t StartJoin); try done; [by left|].
      eapply view_next; [done| |done..]. cbn. by rewrite Hc.
  - (* prepare *) by apply prepare_ok.
  - (* store *) apply wp_bind, wp_modify, wp_ret. apply (call_next s t (StartStore d)); try done; [by left|].
    destruct Hv, vw_knows0 as [Hc Hj]. split; unfold current in *; cbn; try done. by rewrite Hc.
  - (* create *) destruct Hv. destruct vw_knows0 as [Hc Hj]. apply wp_bind. destruct (ok_thread oks); unfold pthread_create; cbn [negb].
    + apply wp_bind, wp_gets, wp_bind, wp_modify, wp_bind, wp_modify, wp_ret, wp_ret.
      apply (call_next s t (StartCreate d)); try done; [by left|]. unfold current in *.
      assert (workers s = ∅) as Hw. { apply map_empty. intros w. destruct (workers s !! w) eqn:E; [|done]. specialize (vw_one0 _ _ E). congruence. }
      set (w := fresh _). split; unfold current; cbn; rewrite ?lookup_insert_eq; try done; rewrite ?Hw.
      * intros w' x [[<- _]|[_ E]]%lookup_insert_Some; [done|]. by rewrite lookup_empty in E.
      * by rewrite Hc in vw_running0.
      * by rewrite Hc in vw_nodup0.
      * by rewrite Hc in vw_blocks0.
      * intros Hmn. destruct (vw_main0 Hmn) as [d' E]. congruence.
    + apply wp_ret, wp_ret. apply (call_next s t (StartCreate d)); try done. by left.
  - (* fail *) destruct Hv. destruct vw_knows0 as [Hc Hj]. rewrite Hc in vw_nodup0, vw_blocks0. apply wp_bind, wp_modify, free_both; [done..|]. apply wp_ret.
    apply (call_next s t (StartFail d)); try done; [by left|]. unfold current in *.
    split; unfold current; cbn; rewrite ?Hc; try done; [by apply NoDup_nil_2|by rewrite <- Hc].
  - (* done *) apply wp_bind, wp_modify, wp_ret. apply (call_next s t StartDone); try done; [by left|].
    destruct Hv. destruct vw_knows0 as [[x Hc] Hj]. split; unfold current in *; cbn; try done. by rewrite Hc.
Qed.

Lemma quit_ok s t : service_inv s → calls s !! t = Some StopQuit → call_fine s t (native_stop_service t StopQuit).
Proof.
  intros Hi Ht. destruct (holder_view s t _ Hi Ht eq_refl) as [Hm Hv]. destruct (iv_quit _ Hi _ Ht) as (p & Hp & Hr).
  pose proof (reachable_inv _ (iv_sync _ Hi)) as Hsi. unfold call_fine. cbn [native_stop_service].
  apply wp_bind, wp_gets, wp_bind. rewrite Hp. apply wp_ret.
  destruct (hev_socks5_tunnel_stop p (sync s)) as [p' sy|sy|] eqn:E; [|by apply stop_blocked in E|by eapply stop_defined in E].
  destruct (stop_lock _ _ _ _ E) as (Est & Emain & _).
  apply wp_bind, wp_val with p' (set_sync sy s); [unfold zoom; by rewrite E|]. apply wp_bind, wp_modify, wp_ret.
  assert (∀ t', t' ≠ t → stops (sync s) !! t' = stops (sync (set_sync (set_stop t p' sy) s)) !! t') as Hother.
  { intros t' Hne. cbn. rewrite Est. by rewrite lookup_insert_ne. }
  assert (view (Some StopQuit) (set_sync (set_stop t p' sy) s)) as Hv'.
  { destruct Hv. split; cbn; try done; [by rewrite Emain|]. eapply rtc_r; [done|by eapply step_stop]. }
  set (pc' := match p' with StopReturned => StopJoin | _ => StopQuit end).
  eapply (call_moves s _ t StopQuit pc'); cbn [calls set_calls set_sync sync]; try done.
  - by left.
  - by destruct p'.
  - destruct Hv'. subst pc'. by destruct p'.
  - intros t' q Hne. by rewrite (Hother t').
  - intros t' q Hne. by rewrite (Hother t').
  - cbn. rewrite lookup_insert_eq. intros q [= <-]. subst pc'. by destruct p'.
  - cbn. rewrite lookup_insert_eq. subst pc'. intros Hq. exists p'. split; [done|by intros ->].
Qed.

Lemma stop_step_ok s t pc :
  service_inv s → calls s !! t = Some pc → stopping pc = true → call_fine s t (native_stop_service t pc).
Proof.
  intros Hi Ht Hpc.
  assert (pc ≠ StopLock → mutex s = Some t ∧ view (Some pc) s) as Hheld.
  { intros Hne. apply (holder_view s t pc Hi Ht). by destruct pc. }
  destruct pc; try done; try (destruct Hheld as [Hm Hv]; [done|]).
  - (* lock *) eapply lock_ok; try done. intros Hm Hv. apply wp_bind, wp_modify, wp_bind, wp_gets, wp_ret. destruct Hv.
    cbn [thread_joinable set_mutex]. cbn in vw_knows0. rewrite vw_knows0.
    destruct (current s) as [x|] eqn:Hc; cbn [truthy negb Z.eqb];
      (apply (call_next s t StopLock); try done; [by right|]; unfold current in *; split; unfold current; cbn; rewrite ?Hc; try done).
  - (* load *) apply wp_bind, wp_gets. pose proof Hv as []. destruct vw_knows0 as [[x Hc] Hj]. cbn [starting] in vw_running0.
    rewrite orb_false_r in vw_running0. rewrite vw_running0. destruct (active (current s)) eqn:Ea; cbn [truthy negb Z.eqb].
    + apply wp_bind, wp_modify, wp_ret. eapply (call_moves s _ t StopLoad StopQuit); cbn [calls set_calls set_sync sync]; try done.
      * by left.
      * split; unfold current in *; cbn; try done; [by rewrite Ea|]. eapply rtc_r; [exact vw_sync0|]. apply step_call.
        destruct (stops (sync s) !! t) as [p|] eqn:Ep; [|by left]. destruct (decide (p = StopReturned)) as [-> |Hne]; [by right|].
        pose proof (iv_stops _ Hi _ _ Ep Hne). congruence.
      * cbn. intros t' q Hne. by rewrite lookup_insert_ne.
      * cbn. intros t' q Hne. by rewrite lookup_insert_ne.
      * cbn. rewrite lookup_insert_eq. intros _. by exists StopRetry.
    + apply wp_ret. apply (call_next s t StopLoad); try done; [by left|]. by eapply view_next.
  - (* quit *) by apply quit_ok.
  - (* join *) destruct Hv. destruct vw_knows0 as [[x Hc] Hj]. apply wp_bind, wp_gets, wp_bind. eapply wp_join; [exact Hc| |].
    + intros Hx. apply wp_bind, wp_modify, wp_ret. apply (call_next s t StopJoin); try done; [by left|].
      eapply (joined_view (Some StopJoin)); done.
    + intros Hx. by eapply not_ended_waits.
  - (* store *) apply wp_bind, wp_modify, wp_ret. apply (call_next s t StopStore); try done; [by left|].
    destruct Hv. destruct vw_knows0 as [Hc Hj]. split; unfold current in *; cbn; rewrite ?Hc in *; try done.
Qed.

Lemma call_ok s t oks :
  service_inv s → is_Some (calls s !! t) → wp (call_step t oks) (λ _, service_inv) (call_waits s t) s.
Proof.
  intros Hi [pc Ht]. unfold call_step. apply wp_bind, wp_gets. rewrite Ht. apply wp_bind, wp_ret, wp_bind.
  assert (∀ m, call_fine s t m →
    wp m (λ pc' s', wp (modify (λ s, set_calls (<[t := pc']> (calls s)) s)) (λ _, service_inv) (call_waits s t) s') (call_waits s t) s) as Hm.
  { intros m Hm. eapply wp_mono; [exact Hm| |done]. intros pc' s' Hs'. apply wp_modify, Hs'. }
  destruct pc; try (apply Hm, start_step_ok; done); try (apply Hm, stop_step_ok; done).
  - destruct (holder_view s t _ Hi Ht eq_refl) as [Hmx _]. apply wp_bind, wp_bind, wp_gets.
    rewrite bool_decide_eq_true_2 by done. apply wp_modify, wp_ret, wp_modify. exact (unlock_inv s t result Hi Ht Hmx).
  - apply wp_ret, wp_modify. apply outside_inv; [done| |done]. intros pc'. rewrite Ht. by intros [= <-].
Qed.

(** ** Every interleaving *)

Lemma step_inv s s' : service_step s s' → service_inv s → service_inv s'.
Proof.
  intros ([t|t|t oks|w ok] & He & E) Hi; cbn [perform enabled] in He, E.
  - by apply (new_call_inv s t StartLock).
  - by apply (new_call_inv s t StopLock).
  - pose proof (call_ok s t oks Hi He) as Hw. unfold wp in Hw. by rewrite E in Hw.
  - pose proof (worker_ok w ok s Hi He) as Hw. unfold wp in Hw. by rewrite E in Hw.
Qed.

Lemma service_reachable_inv s : service_reachable s → service_inv s.
Proof. apply (rtc_ind_r service_inv); [apply start_inv|]. intros s1 s2 _ Hs Hi. by eapply step_inv. Qed.

(** No step is undefined, and a step that waits changes nothing. *)
Lemma perform_ok a s : service_inv s → enabled a s → perform a s ≠ Stuck ∧ ∀ s', perform a s = Blocked s' → s' = s.
Proof.
  intros Hi He. destruct a as [t|t|t oks|w ok]; cbn [perform enabled] in *.
  1,2: unfold new_call; mstep; destruct (calls s !! t) as [[]|]; split; try done; by intros s' [= <-].
  - pose proof (call_ok s t oks Hi He) as Hw. unfold wp in Hw. destruct (call_step t oks s); [done| |done].
    split; [done|]. intros s' [= <-]. by destruct Hw.
  - pose proof (worker_ok w ok s Hi He) as Hw. unfold wp in Hw. destruct (thread_handler w ok s); [done| |done].
    split; [done|]. intros s' [= <-]. by destruct Hw.
Qed.

(** When a call holds the mutex, it or the thread can take a step, unless the thread
    waits in the event task. *)
Lemma holder_progress s t oks :
  service_inv s → mutex s = Some t →
  (∃ s', perform (Call t oks) s = Val tt s') ∨ (∃ w s', perform (Work w true) s = Val tt s') ∨ main (sync s) = MainEventRead.
Proof.
  intros Hi Hm. destruct (iv_mutex _ Hi _ Hm) as (pc & Ht & Hin). cbn [perform].
  assert (is_Some (calls s !! t)) as He by by exists pc. pose proof (call_ok s t oks Hi He) as Hw. unfold wp in Hw.
  destruct (call_step t oks s) as [[] s1|s1|]; [left; by exists s1| |done]. right. destruct Hw as [_ Hwhy].
  assert (is_Some (current s)) as Hc.
  { destruct Hwhy as [(t' & E & Hne)|[Ha|[d E]]]; [congruence| |by exists (Worker WorkerFree d)]. by destruct (current s) as [x|]; [exists x|]. }
  pose proof (worker_ok (work_thread s) true s Hi Hc) as Hww. unfold wp in Hww.
  destruct (thread_handler (work_thread s) true s) as [[] s2|s2|] eqn:E; [|right; by destruct Hww|done].
  left. by exists (work_thread s), s2.
Qed.

(** C36: Starting and stopping is safe in every interleaving of calls, threads and the
    tunnel. No step is undefined: a thread is joined once and only when it exists, no
    memory is freed twice, the mutex is given back by its holder. There is at most one
    thread, so the tunnel's code never runs twice at a time, what the tunnel's state
    can become here is what [TunnelSync] allows, and at most one call is in
    [hev_socks5_tunnel_stop]. When no call holds the mutex, [native_is_running] tells
    whether the thread may still be in the tunnel, and a thread that was not joined is
    the one that the next call will join. All memory is that of the thread's data, until
    the thread has freed it, or of the call that will start it, and no Java string is
    held. Nobody waits for ever but for the tunnel: while a call holds the mutex, it or
    the thread can take a step, or the thread waits in the event task. *)
Theorem service_safe s (Hs : service_reachable s) :
  (∀ a, enabled a s → perform a s ≠ Stuck) ∧
  (∀ w w', is_Some (workers s !! w) → is_Some (workers s !! w') → w = w') ∧
  reachable (sync s) ∧ (main (sync s) ≠ MainIdle → ∃ w d, workers s !! w = Some (Worker WorkerTunnel d)) ∧
  (∀ t t', calls s !! t = Some StopQuit → calls s !! t' = Some StopQuit → t = t') ∧
  (mutex s = None → native_is_running s = active (current s) ∧ (thread_joinable s = 0 ↔ workers s = ∅)) ∧
  (∀ b, b ∈ blocks s → (∃ w x, workers s !! w = Some x ∧ b ∈ worker_blocks (Some x)) ∨
    (∃ t pc, calls s !! t = Some pc ∧ b ∈ call_blocks (Some pc))) ∧ pinned s = 0 ∧
  (∀ t oks, mutex s = Some t → (∃ s', perform (Call t oks) s = Val tt s') ∨ (∃ w s', perform (Work w true) s = Val tt s') ∨
    main (sync s) = MainEventRead).
Proof.
  pose proof (service_reachable_inv _ Hs) as Hi. pose proof Hi as []. split_and!.
  - intros a He. by apply perform_ok.
  - intros w w' [x Hx] [x' Hx']. transitivity (work_thread s); [by eapply iv_one0|symmetry; by eapply iv_one0].
  - done.
  - intros Hm. destruct (iv_main0 Hm) as [d Hd]. by exists (work_thread s), d.
  - intros t t' Ht Ht'. pose proof (iv_inside0 _ _ Ht eq_refl). pose proof (iv_inside0 _ _ Ht' eq_refl). congruence.
  - intros Hm. assert (held s = None) as Hh by (unfold held; by rewrite Hm). rewrite Hh in *.
    rewrite orb_false_r in iv_running0. cbn in iv_knows0. unfold native_is_running.
    split; [rewrite iv_running0; by destruct (active _)|]. rewrite iv_knows0. destruct (current s) as [x|] eqn:Hc.
    + split; [done|]. intros E. unfold current in Hc. by rewrite E, lookup_empty in Hc.
    + split; [|done]. intros _. apply map_empty. intros w. destruct (workers s !! w) eqn:E; [|done].
      pose proof (iv_one0 _ _ E) as ->. unfold current in Hc. congruence.
  - intros b. rewrite iv_blocks0, elem_of_list_to_set, elem_of_app. intros [Hb|Hb].
    + left. destruct (current s) as [x|] eqn:Hc; [|by apply elem_of_nil in Hb]. by exists (work_thread s), x.
    + right. unfold held in Hb. destruct (mutex s) as [t|]; [|by apply elem_of_nil in Hb]. cbn in Hb.
      destruct (calls s !! t) as [pc|] eqn:Ht; [|by apply elem_of_nil in Hb]. by exists t, pc.
  - done.
  - intros t oks. by apply holder_progress.
Qed.

(** A run of the actions in turn. *)
Fixpoint perform_all (l : list action) : M service unit :=
  match l with [] => mret tt | a :: l => perform a;; perform_all l end.

Fixpoint all_enabled (l : list action) (s : service) : bool :=
  match l with
  | [] => true
  | a :: l =>
      match a with Call t _ => bool_decide (is_Some (calls s !! t)) | Work w _ => bool_decide (is_Some (workers s !! w)) | _ => true end &&
      match perform a s with Val _ s' => all_enabled l s' | _ => false end
  end.

Lemma perform_all_reachable l s s' : all_enabled l s = true → perform_all l s = Val tt s' → rtc service_step s s'.
Proof.
  revert s. induction l as [|a l IH]; intros s He E; cbn in He, E; [injection E as <-; by apply rtc_refl|].
  apply andb_true_iff in He as [He Hl]. unfold mbind, M_bind in E. destruct (perform a s) as [[] s1| |] eqn:Ea; [|done..].
  eapply rtc_l; [exists a; split; [|exact Ea]|by apply IH]. destruct a; cbn; try done; by apply bool_decide_eq_true in He.
Qed.

Definition fine_oks : outcomes := Oks true true true true.

(** A second start, while the thread is in the tunnel. *)
Definition start_twice : list action :=
  Start 0 :: replicate 8 (Call 0 fine_oks) ++ [Work 0 true; Work 0 true; Start 1; Call 1 fine_oks; Call 1 fine_oks; Call 1 fine_oks].

Lemma service_safe_witness :
  ∃ s, perform_all start_twice service_start = Val tt s ∧
    calls s !! 0%nat = Some (Returned true) ∧ calls s !! 1%nat = Some (Returned false) ∧
    native_is_running s = true ∧ ∃ w d, workers s !! w = Some (Worker WorkerTunnel d).
Proof.
  destruct (perform_all start_twice service_start) as [[] s| |] eqn:E; [|vm_compute in E; done..].
  exists s. split; [done|].
  pose proof (service_safe s (perform_all_reachable start_twice service_start s ltac:(vm_compute; reflexivity) E)) as (_ & _ & _ & Hmain & _ & Hrun & _).
  vm_compute in E. injection E as <-. split_and!; [done|done|by rewrite (proj1 (Hrun eq_refl))|by apply Hmain].
Defined.
