(* ===== verification/ServiceStop.v ===== *)
(** * ServiceStop: what stopping the engine achieves

    A stop of an engine that runs ends it and returns when the thread is gone; and two
    races in which it does not do what it should. *)
From S2P Require Import Prelude TunnelSync Service ServiceSafe.

(** ** The tunnel's thread, once it is woken *)

Lemma event_read_val s n :
  main s = MainEventRead → events s = Some n → 0 < n → main_step true s = Val MainEventClear (set_events (Some (n - Z.min n 4)) s).
Proof.
  intros Hm He Hn. unfold main_step, event_task_entry. mstep. rewrite Hm. mstep. rewrite Hm, He. cbn.
  by rewrite (proj2 (Z.eqb_neq n 0)) by lia.
Qed.

Lemma event_clear_val s :
  main s = MainEventClear → main_step true s = Val MainFini (set_tsync (Z.land (tsync s) (Z.lnot SYNC_SENT)) s).
Proof. intros Hm. unfold main_step, event_task_entry. mstep. rewrite Hm. mstep. by rewrite Hm. Qed.

Lemma fini_val s :
  main s = MainFini → has SYNC_WAIT (tsync s) = false →
  main_step true s = Val MainClose (set_tsync (Z.land (tsync s) (Z.lnot (Z.lor SYNC_SEND SYNC_SENT))) s).
Proof.
  intros Hm Hw. unfold main_step, TunnelSync.hev_socks5_tunnel_fini, atomic_fetch_and. mstep. rewrite Hm. mstep. rewrite Hm. mstep.
  unfold has in Hw. by rewrite Hw.
Qed.

Lemma close_val s : main s = MainClose → main_step true s = Val MainIdle (set_events None s).
Proof. intros Hm. unfold main_step, TunnelSync.hev_socks5_tunnel_fini. mstep. rewrite Hm. mstep. by rewrite Hm. Qed.

(** ** Steps of one call and of the thread *)

(** [t] stops, and [w] is the thread; nobody else moves. *)
Definition turn (t w : nat) (s s' : service) : Prop :=
  ∃ a, (a = Stop t ∨ a = Call t fine_oks ∨ a = Work w true) ∧ enabled a s ∧ perform a s = Val tt s'.

Lemma call_turn t w s pc pc' s1 :
  calls s !! t = Some pc → call_body t fine_oks pc s = Val pc' s1 → turn t w s (set_calls (<[t := pc']> (calls s1)) s1).
Proof.
  intros Ht E. exists (Call t fine_oks). split; [auto|]. split; [by exists pc|]. cbn [perform]. unfold call_step.
  erewrite bind_val by reflexivity. rewrite Ht. erewrite bind_val by reflexivity. by erewrite bind_val by exact E.
Qed.

(** The thread's step in the tunnel. *)
Lemma tunnel_turn t w s d pc sy :
  workers s !! w = Some (Worker WorkerTunnel d) → main_step true (sync s) = Val pc sy →
  turn t w s (set_workers (<[w := Worker (match pc with MainIdle => WorkerStore | _ => WorkerTunnel end) d]> (workers s))
    (set_sync (set_main pc sy) s)).
Proof.
  intros Hw E. exists (Work w true). split; [auto|]. split; [by eexists|]. cbn [perform]. unfold thread_handler.
  erewrite bind_val by reflexivity. rewrite Hw. erewrite bind_val by reflexivity. cbn [w_pc w_data]. rewrite bind_assoc.
  erewrite bind_val by (unfold zoom; by rewrite E). rewrite bind_assoc. erewrite bind_val by reflexivity.
  by erewrite bind_val by reflexivity.
Qed.

(** The same steps of the tunnel, whatever is known of its calls. *)
Definition with_stops (m : gmap nat stop_pc) (s : tunnel) : tunnel := Tunnel (tsync s) (events s) (main s) m.

Lemma stop_with_stops m pc pc' s s' :
  hev_socks5_tunnel_stop pc s = Val pc' s' → hev_socks5_tunnel_stop pc (with_stops m s) = Val pc' (with_stops m s').
Proof.
  unfold hev_socks5_tunnel_stop, atomic_fetch_or, atomic_fetch_and, of_option, with_stops. destruct s as [a b c e].
  destruct pc; mstep; intros E; cbn in *; repeat case_match; simplify_eq/=; try done; congruence.
Qed.

(** What the steps of [hev_socks5_tunnel_quit] leave alone. *)
Record quitting (s s' : service) (m : gmap nat stop_pc) (sy : tunnel) : Prop := {
  qt_running : is_running s' = is_running s; qt_joinable : thread_joinable s' = thread_joinable s;
  qt_thread : work_thread s' = work_thread s; qt_mutex : mutex s' = mutex s; qt_workers : workers s' = workers s;
  qt_blocks : blocks s' = blocks s; qt_sync : sync s' = with_stops m sy
}.

Lemma quit_phase n t w p m sy sy' s :
  calls s !! t = Some StopQuit → stops (sync s) !! t = Some p → p ≠ StopReturned → sync s = with_stops m sy →
  stop_steps n p sy = Val StopReturned sy' →
  ∃ s' m', rtc (turn t w) s s' ∧ calls s' !! t = Some StopJoin ∧ quitting s s' m' sy'.
Proof.
  revert p m sy s. induction n as [|n IH]; intros p m sy s Ht Hp Hr Hs E; cbn [stop_steps] in E; [injection E as -> _; done|].
  destruct (hev_socks5_tunnel_stop p sy) as [p' sy1| |] eqn:E1; unfold mbind, M_bind in E; rewrite E1 in E; [|done..].
  set (s1 := set_sync (set_stop t p' (with_stops m sy1)) s).
  assert (call_body t fine_oks StopQuit s = Val (match p' with StopReturned => StopJoin | _ => StopQuit end) s1) as Eb.
  { cbn [call_body native_stop_service]. erewrite bind_val by reflexivity. rewrite Hp. erewrite bind_val by reflexivity.
    erewrite bind_val; [|unfold zoom; rewrite Hs, (stop_with_stops m _ _ _ _ E1); reflexivity]. by erewrite bind_val by reflexivity. }
  pose proof (call_turn t w _ _ _ _ Ht Eb) as Hturn.
  assert (sync s1 = with_stops (<[t := p']> m) sy1) as Hs1 by done.
  destruct (decide (p' = StopReturned)) as [-> |Hne].
  - assert (∀ k sy2, stop_steps k StopReturned sy1 = Val StopReturned sy2 → sy2 = sy1) as Hend.
    { clear. induction k as [|k IH]; cbn; intros sy2 E; [by injection E|by apply IH]. }
    rewrite (Hend _ _ E). eexists _, (<[t := StopReturned]> m). split; [by apply rtc_once|]. split; [apply lookup_insert_eq|]. by split.
  - set (s2 := set_calls _ s1) in Hturn.
    destruct (IH p' (<[t := p']> m) sy1 s2) as (s' & m' & Hrtc & Hc & []); [cbn; rewrite lookup_insert_eq; by destruct p'|..|done|].
    + cbn. apply lookup_insert_eq.
    + done.
    + done.
    + exists s', m'. split; [by eapply rtc_l|]. split; [done|]. by split.
Qed.

(** Once woken the thread leaves the tunnel and ends. *)
Lemma thread_ends t w s d n :
  workers s !! w = Some (Worker WorkerTunnel d) → main (sync s) = MainEventRead → events (sync s) = Some n → 0 < n →
  has SYNC_WAIT (tsync (sync s)) = false → NoDup (data_blocks d) → blocks s = list_to_set (data_blocks d) →
  ∃ s', rtc (turn t w) s s' ∧ workers s' = <[w := Worker WorkerEnded d]> (workers s) ∧ blocks s' = ∅ ∧ is_running s' = 0 ∧
    mutex s' = mutex s ∧ calls s' = calls s ∧ thread_joinable s' = thread_joinable s ∧ work_thread s' = work_thread s ∧
    events (sync s') = None.
Proof.
  intros Hw Hm He Hn Hwait Hnd Hb.
  set (sy1 := set_main MainEventClear (set_events (Some (n - Z.min n 4)) (sync s))).
  set (sy2 := set_main MainFini (set_tsync (Z.land (tsync sy1) (Z.lnot SYNC_SENT)) sy1)).
  set (sy3 := set_main MainClose (set_tsync (Z.land (tsync sy2) (Z.lnot (Z.lor SYNC_SEND SYNC_SENT))) sy2)).
  set (sy4 := set_main MainIdle (set_events None sy3)).
  assert (has SYNC_WAIT (tsync sy2) = false) as Hwait2 by (cbn; by rewrite has_and_not, Hwait).
  eexists. split.
  { eapply rtc_l; [apply (tunnel_turn t w s d MainEventClear); [done|by apply event_read_val]|]. fold sy1.
    eapply rtc_l; [apply (tunnel_turn t w _ d MainFini); [apply lookup_insert_eq|by apply event_clear_val]|]. cbn [sync set_workers set_sync workers]. fold sy2.
    eapply rtc_l; [apply (tunnel_turn t w _ d MainClose); [apply lookup_insert_eq|by apply fini_val]|]. cbn [sync set_workers set_sync workers]. fold sy3.
    eapply rtc_l; [apply (tunnel_turn t w _ d MainIdle); [apply lookup_insert_eq|by apply close_val]|]. cbn [sync set_workers set_sync workers]. fold sy4.
    eapply rtc_l.
    { exists (Work w true). split; [auto|]. split; [cbn; rewrite lookup_insert_eq; by eexists|]. cbn [perform]. unfold thread_handler.
      erewrite bind_val by reflexivity. cbn [workers set_workers]. rewrite lookup_insert_eq. reflexivity. }
    apply rtc_once. exists (Work w true). split; [auto|]. split; [cbn; rewrite lookup_insert_eq; by eexists|]. cbn [perform]. unfold thread_handler.
    erewrite bind_val by reflexivity. cbn [workers set_workers]. rewrite lookup_insert_eq. erewrite bind_val by reflexivity. cbn [w_pc w_data].
    assert (∀ s', blocks s' = list_to_set (data_blocks d) →
      (free (t_path d);; free (t_data d);; mret WorkerEnded) s' = Val WorkerEnded (set_blocks ∅ s')) as Hfree.
    { intros s' Hb'. destruct (wp_never_val (free (t_path d);; free (t_data d);; mret WorkerEnded) (λ a s'', a = WorkerEnded ∧ s'' = set_blocks ∅ s') s')
        as (a & s'' & E & -> & ->); [by apply free_both; [..|by apply wp_ret]|done]. }
    erewrite bind_val by (by apply Hfree). reflexivity. }
  cbn. rewrite !insert_insert_eq. by split_and!.
Qed.

(** A call up to [hev_socks5_tunnel_quit], when an engine runs. *)
Lemma stop_begins t w s :
  calls s !! t = None ∨ (∃ r, calls s !! t = Some (Returned r)) → mutex s = None → thread_joinable s = 1 → is_running s = 1 →
  ∃ s', rtc (turn t w) s s' ∧ calls s' !! t = Some StopQuit ∧ mutex s' = Some t ∧ workers s' = workers s ∧
    work_thread s' = work_thread s ∧ blocks s' = blocks s ∧
    sync s' = with_stops (<[t := StopRetry]> (stops (sync s))) (sync s).
Proof.
  intros Hcall Hm Hj Hr.
  set (s1 := set_calls (<[t := StopLock]> (calls s)) s). set (m1 := set_mutex (Some t) s1).
  set (s2 := set_calls (<[t := StopLoad]> (calls m1)) m1). set (m2 := set_sync (set_stop t StopRetry (sync s2)) s2).
  exists (set_calls (<[t := StopQuit]> (calls m2)) m2). split; [|by split_and!; try apply lookup_insert_eq].
  eapply rtc_l with s1; [|eapply rtc_l with s2; [|apply rtc_once]].
  - exists (Stop t). split; [auto|]. split; [done|]. cbn [perform]. unfold new_call. mstep. by destruct Hcall as [-> | [r ->]].
  - refine (call_turn t w s1 StopLock StopLoad m1 _ _); [apply lookup_insert_eq|]. cbn [call_body native_stop_service].
    erewrite bind_val; [|unfold pthread_mutex_lock; mstep; cbn; by rewrite Hm]. mstep. cbn. by rewrite Hj.
  - refine (call_turn t w s2 StopLoad StopQuit m2 _ _); [apply lookup_insert_eq|]. cbn [call_body native_stop_service].
    erewrite bind_val by reflexivity. cbn [is_running s2 m1 s1 set_calls set_mutex]. by rewrite Hr.
Qed.

(** The rest of the call, when the thread has ended. *)
Lemma stop_finishes t w s d :
  calls s !! t = Some StopJoin → mutex s = Some t → work_thread s = w → workers s !! w = Some (Worker WorkerEnded d) →
  ∃ s', rtc (turn t w) s s' ∧ calls s' !! t = Some (Returned true) ∧ workers s' = delete w (workers s) ∧ blocks s' = blocks s ∧
    is_running s' = 0 ∧ thread_joinable s' = 0 ∧ mutex s' = None ∧ sync s' = sync s.
Proof.
  intros Ht Hm Hwt Hw. set (m1 := set_thread_joinable 0 (set_workers (delete w (workers s)) s)).
  set (s1 := set_calls (<[t := StopStore]> (calls m1)) m1). set (m2 := set_is_running 0 s1).
  set (s2 := set_calls (<[t := Unlock true]> (calls m2)) m2). set (m3 := set_mutex None s2).
  exists (set_calls (<[t := Returned true]> (calls m3)) m3). split; [|by split_and!; try apply lookup_insert_eq].
  eapply rtc_l with s1; [|eapply rtc_l with s2; [|apply rtc_once]].
  - refine (call_turn t w s StopJoin StopStore m1 Ht _). cbn [call_body native_stop_service]. erewrite bind_val by reflexivity.
    rewrite Hwt. erewrite bind_val; [|unfold pthread_join; mstep; by rewrite Hw]. done.
  - refine (call_turn t w s1 StopStore (Unlock true) m2 _ _); [apply lookup_insert_eq|done].
  - refine (call_turn t w s2 (Unlock true) (Returned true) m3 _ _); [apply lookup_insert_eq|]. cbn [call_body].
    unfold pthread_mutex_unlock. mstep. cbn. by rewrite Hm, bool_decide_eq_true_2.
Qed.

(** No call holds SYNC_WAIT when none holds the mutex. *)
Lemma unlocked_wait s : service_inv s → mutex s = None → has SYNC_WAIT (tsync (sync s)) = false.
Proof.
  intros [] Hm. destruct (has SYNC_WAIT (tsync (sync s))) eqn:E; [|done]. destruct (wait_owned _ iv_sync E) as (t & p & Hp & Ho).
  specialize (iv_stops _ _ Hp ltac:(by intros ->)). specialize (iv_inside _ _ iv_stops eq_refl). congruence.
Qed.

(** A state that [turn]s reach from one that is reachable is reachable. *)
Lemma turns_steps t w s s' : rtc (turn t w) s s' → rtc service_step s s'.
Proof.
  induction 1 as [|s1 s2 s3 (a & _ & He & E) _ IH]; [by apply rtc_refl|]. eapply rtc_l; [by exists a|done].
Qed.

(** C37: Stopping works. In every reachable state in which no call holds the mutex and
    the thread of the engine waits for something to do, a call of [native_stop_service],
    with the thread's own steps and nobody else's, returns TRUE; then the thread has
    left the tunnel, closed its event sockets, ended and been joined, its memory is
    free, [is_running] and [thread_joinable] are reset and the mutex is free, so that
    the engine can be started again. *)
Theorem service_stop_ends s t
    (Hs : service_reachable s) (Hmutex : mutex s = None) (Hwaits : main (sync s) = MainEventRead)
    (Hcall : calls s !! t = None ∨ ∃ r, calls s !! t = Some (Returned r)) :
  ∃ s', rtc (turn t (work_thread s)) s s' ∧ service_reachable s' ∧ calls s' !! t = Some (Returned true) ∧
    workers s' = ∅ ∧ blocks s' = ∅ ∧ native_is_running s' = false ∧ thread_joinable s' = 0 ∧ mutex s' = None ∧
    events (sync s') = None.
Proof.
  pose proof (service_reachable_inv _ Hs) as Hi. pose proof (unlocked_wait _ Hi Hmutex) as Hwait. destruct Hi.
  assert (held s = None) as Hh by (unfold held; by rewrite Hmutex). rewrite Hh in *.
  destruct (iv_main ltac:(by rewrite Hwaits)) as [d Hc]. rewrite Hc in *. set (w := work_thread s).
  rewrite app_nil_r in iv_nodup, iv_blocks. pose proof (reachable_inv _ iv_sync) as Hsi.
  destruct (stop_alone _ Hsi Hwait) as (sy & E & Hm & Hw & He).
  rewrite (si_waiting _ Hsi), Hwaits in He by by rewrite Hwaits. destruct (He eq_refl) as (n & Hev & Hn).
  destruct (stop_begins t w s Hcall Hmutex iv_knows iv_running) as (s1 & T1 & C1 & M1 & W1 & K1 & B1 & S1).
  destruct (quit_phase 4 t w StopRetry (<[t := StopRetry]> (stops (sync s))) (sync s) sy s1) as (s2 & m2 & T2 & C2 & []);
    [done|rewrite S1; apply lookup_insert_eq|done|done|done|].
  destruct (thread_ends t w s2 d n) as (s3 & T3 & W3 & B3 & R3 & M3 & C3 & J3 & K3 & V3);
    [by rewrite qt_workers0, W1|by rewrite qt_sync0; cbn; rewrite Hm|by rewrite qt_sync0|done|by rewrite qt_sync0|done|by rewrite qt_blocks0, B1|].
  destruct (stop_finishes t w s3 d) as (s4 & T4 & C4 & W4 & B4 & R4 & J4 & M4 & V4);
    [by rewrite C3|by rewrite M3, qt_mutex0|by rewrite K3, qt_thread0|rewrite W3; apply lookup_insert_eq|].
  assert (rtc (turn t w) s s4) as T by (by do 3 (etransitivity; [eassumption|])).
  exists s4. split; [done|]. split; [unfold service_reachable; etransitivity; [exact Hs|by eapply turns_steps]|].
  split; [done|]. split; [|unfold native_is_running; rewrite B4, R4, V4; by split_and!].
  rewrite W4, W3, delete_insert_eq, qt_workers0, W1. apply map_empty. intros w'.
  destruct (decide (w' = w)) as [-> |Hne]; [apply lookup_delete_eq|].
  rewrite lookup_delete_ne by done. destruct (workers s !! w') eqn:E'; [|done]. by specialize (iv_one _ _ E').
Qed.

(** An engine that was started and waits. *)
Definition calling (t n : nat) : list action := replicate n (Call t fine_oks).
Definition working (n : nat) : list action := replicate n (Work 0 true).
Definition started : list action := Start 0 :: calling 0 8.
Definition waiting_engine : list action := started ++ working 5.

Lemma service_stop_ends_witness :
  ∃ s s', perform_all waiting_engine service_start = Val tt s ∧ rtc (turn 1 (work_thread s)) s s' ∧
    calls s' !! 1%nat = Some (Returned true) ∧ workers s' = ∅.
Proof.
  destruct (perform_all waiting_engine service_start) as [[] s| |] eqn:E; [|vm_compute in E; done..].
  pose proof (perform_all_reachable waiting_engine service_start s ltac:(vm_compute; reflexivity) E) as Hr.
  edestruct (service_stop_ends s 1 Hr) as (s' & T & _ & Hc & Hw & _);
    [vm_compute in E; by injection E as <-|vm_compute in E; by injection E as <-|left; vm_compute in E; by injection E as <-|].
  by exists s, s'.
Defined.

(** ** Two races *)

(** Call 1 has stopped the engine, holds the mutex, and waits for a thread that waits
    for a byte. *)
Record hung (s : service) : Prop := {
  hg_mutex : mutex s = Some 1%nat; hg_call : calls s !! 1%nat = Some StopJoin; hg_thread : work_thread s = 0%nat;
  hg_worker : ∃ d, workers s = {[ 0%nat := Worker WorkerTunnel d ]};
  hg_tunnel : main (sync s) = MainEventRead ∧ events (sync s) = Some 0;
  hg_others : ∀ t pc, t ≠ 1%nat → calls s !! t = Some pc → inside pc = false
}.

Lemma hung_new_call t pc s s' : hung s → inside pc = false → new_call t pc s = Val tt s' → hung s'.
Proof.
  intros [] Hpc E. unfold new_call in E. mstep. assert (t ≠ 1%nat) as Hne by (intros ->; rewrite hg_call0 in E; done).
  assert (s' = set_calls (<[t := pc]> (calls s)) s) as -> by (by destruct (calls s !! t) as [[]|]; simplify_eq).
  split; cbn; try done; [by rewrite lookup_insert_ne|]. intros t' pc' Hne' [[<- <-]|[_ Ht']]%lookup_insert_Some; eauto.
Qed.

Lemma hung_call t oks s s' : hung s → is_Some (calls s !! t) → call_step t oks s = Val tt s' → hung s'.
Proof.
  intros Hg [pc Ht] E. pose proof Hg as []. unfold call_step in E. erewrite bind_val in E by reflexivity. rewrite Ht in E.
  erewrite bind_val in E by reflexivity. destruct (decide (t = 1%nat)) as [-> |Hne].
  - assert (pc = StopJoin) as -> by congruence. destruct hg_worker0 as [d Hd]. exfalso. cbn [call_body native_stop_service] in E. unfold pthread_join in E.
    mstep. rewrite hg_thread0, Hd, lookup_singleton_eq in E. cbn in E. done.
  - pose proof (hg_others0 _ _ Hne Ht) as Hpc. destruct pc; try done; cbn [call_body native_start_service native_stop_service] in E;
      unfold pthread_mutex_lock in E; mstep; rewrite ?hg_mutex0 in E; try done.
    injection E as <-. split; cbn; try done; [by rewrite lookup_insert_ne|].
    intros t' pc' Hne' [[<- <-]|[_ Ht']]%lookup_insert_Some; eauto.
Qed.

Lemma hung_worker w ok s s' : hung s → is_Some (workers s !! w) → thread_handler w ok s = Val tt s' → hung s'.
Proof.
  intros [] [x Hw] E. destruct hg_worker0 as [d Hd]. rewrite Hd in Hw. apply lookup_singleton_Some in Hw as [<- <-].
  destruct hg_tunnel0 as [Hm He]. exfalso. unfold thread_handler in E. erewrite bind_val in E by reflexivity.
  rewrite Hd, lookup_singleton_eq in E. erewrite bind_val in E by reflexivity. cbn [w_pc] in E.
  assert (main_step ok (sync s) = Blocked (sync s)) as Eb.
  { unfold main_step, event_task_entry. mstep. rewrite Hm. mstep. by rewrite Hm, He. }
  unfold zoom, mbind, M_bind in E. by rewrite Eb in E.
Qed.

Lemma hung_step s s' : hung s → service_step s s' → hung s'.
Proof.
  intros Hg ([t|t|t oks|w ok] & He & E); cbn [perform enabled] in He, E.
  - by apply (hung_new_call t StartLock s).
  - by apply (hung_new_call t StopLock s).
  - by apply (hung_call t oks s).
  - by apply (hung_worker w ok s).
Qed.

(** The first: the call finds the tunnel in its initialisation and takes its second step
    when the tunnel waits. The second: the call finds a run whose initialisation fails. *)
Definition late_stop : list action := started ++ working 1 ++ Stop 1 :: calling 1 3 ++ working 4 ++ calling 1 2.
Definition stop_of_failure : list action :=
  started ++ working 1 ++ [Work 0 false] ++ Stop 1 :: calling 1 5 ++ working 4 ++ calling 1 3.
Definition restart : list action := Start 0 :: calling 0 8 ++ working 9.

(** Where the thread is in the tunnel after every action. *)
Fixpoint ever (f : service → bool) (l : list action) (s : service) : bool :=
  f s || match l with [] => false | a :: l => match perform a s with Val _ s' => ever f l s' | _ => false end end.
Definition waits (s : service) : bool := match main (sync s) with MainEventRead => true | _ => false end.

Lemma all_enabled_val l s : all_enabled l s = true → ∃ s', perform_all l s = Val tt s'.
Proof.
  revert s. induction l as [|a l IH]; intros s He; [by exists s|]. cbn in He. apply andb_true_iff in He as [_ He].
  cbn [perform_all]. unfold mbind, M_bind. destruct (perform a s) as [[] s1| |]; [by apply IH|done..].
Qed.

Lemma reached (l : list action) :
  all_enabled l service_start = true → ∃ s, perform_all l service_start = Val tt s ∧ service_reachable s.
Proof. intros He. destruct (all_enabled_val _ _ He) as [s E]. exists s. split; [done|]. by apply (perform_all_reachable l). Qed.

(** C38: Two races of stopping. There is a reachable state from which, whatever happens,
    a call of [native_stop_service] never returns: it has told the tunnel to stop, holds
    the mutex and joins a thread that waits in the event task, so that every later call
    waits for the mutex. And there is a reachable state without a thread and without a
    call in progress, after a stop that returned TRUE, in which the next start is in
    vain: [native_start_service] returns TRUE and everything succeeds, but without any
    stop the thread ends before it has run a task, because the stop of a run that failed
    has left SYNC_STOP behind. *)
Theorem service_stop_races :
  (∃ s, service_reachable s ∧
    ∀ s', rtc service_step s s' → calls s' !! 1%nat = Some StopJoin ∧ mutex s' = Some 1%nat ∧ main (sync s') = MainEventRead) ∧
  (∃ s s', service_reachable s ∧ mutex s = None ∧ workers s = ∅ ∧ calls s !! 1%nat = Some (Returned true) ∧
    (∀ a, a ∈ restart → a = Start 0 ∨ a = Call 0 fine_oks ∨ a = Work 0 true) ∧
    perform_all restart s = Val tt s' ∧ calls s' !! 0%nat = Some (Returned true) ∧
    native_is_running s' = false ∧ ever waits restart s = false ∧ ∃ d, workers s' !! 0%nat = Some (Worker WorkerEnded d)).
Proof.
  split.
  - destruct (reached late_stop) as (s & E & Hr); [vm_compute; reflexivity|].
    exists s. split; [done|]. assert (hung s) as Hg.
    { vm_compute in E. injection E as <-. split; try done; [by eexists|].
      change (calls _) with (<[1%nat := StopJoin]> {[ 0%nat := Returned true ]} : gmap nat call_pc).
      by intros t pc Hne [[<- _]|[_ [_ <-]%lookup_singleton_Some]]%lookup_insert_Some. }
    intros s' T. assert (hung s') as [] by (clear -Hg T; induction T; eauto using hung_step). by destruct hg_tunnel0.
  - destruct (reached stop_of_failure) as (s & E & Hr); [vm_compute; reflexivity|].
    assert (mutex s = None ∧ workers s = ∅ ∧ calls s !! 1%nat = Some (Returned true) ∧ ever waits restart s = false) as (Hm & Hw & Hc & Hev)
      by (vm_compute in E; injection E as <-; vm_compute; split_and!; reflexivity).
    destruct (perform_all restart s) as [[] s'| |] eqn:E'; [|vm_compute in E; injection E as <-; vm_compute in E'; discriminate E'..].
    assert (calls s' !! 0%nat = Some (Returned true) ∧ native_is_running s' = false ∧ ∃ d, workers s' !! 0%nat = Some (Worker WorkerEnded d))
      as (Hc' & Hr' & Hw').
    { vm_compute in E. injection E as <-. vm_compute in E'. injection E' as <-. vm_compute. split_and!; [reflexivity..|eexists; reflexivity]. }
    exists s, s'. do 4 (split; [assumption|]). split; [|by do 4 (split; [assumption|])].
    intros a. unfold restart, calling, working. rewrite elem_of_cons, elem_of_app.
    intros [-> |[[-> _]%elem_of_replicate|[-> _]%elem_of_replicate]]; auto.
Qed.
