(* ===== verification/SessionSet.v ===== *)
(** * SessionSet: the sessions of the tunnel, src/hev-socks5-tunnel.c and
    [hev_socks5_session_terminate] of src/hev-socks5-session.c

    The tunnel keeps its sessions on a list in the order of their last activity, and
    terminates the first one when there are as many as the configuration allows. A
    session is known by the address of its node ([container_of]); of the session
    itself its timeout matters here, and that its task is woken. *)
From S2P Require Import Prelude Bytes HevList.

Record sessions := Sessions { session_set : listmem; session_count : Z; timeouts : gmap Z Z; wakeups : list Z }.

Definition on_set {A} (m : M listmem A) : M sessions A :=
  zoom session_set (λ l s, Sessions l (session_count s) (timeouts s) (wakeups s)) m.

Definition set_count (v : Z) : M sessions unit :=
  modify (λ s, Sessions (session_set s) v (timeouts s) (wakeups s)).

(** [hev_socks5_set_timeout] with 0, and [hev_task_wakeup]. *)
Definition hev_socks5_session_terminate (self : Z) : M sessions unit :=
  ts ← gets timeouts;
  t ← of_option (ts !! self);
  when (truthy t) (modify (λ s, Sessions (session_set s) (session_count s) (<[self := 0]> (timeouts s)) (wakeups s)));;
  modify (λ s, Sessions (session_set s) (session_count s) (timeouts s) (wakeups s ++ [self])).

Definition hev_socks5_tunnel_insert_session (max_session_count node : Z) : M sessions unit :=
  on_set (hev_list_add_tail node);;
  c ← gets session_count;
  set_count (i32 (c + 1));;
  c ← gets session_count;
  if negb (truthy max_session_count) || (c <? max_session_count) then mret tt else
  node ← on_set hev_list_first;
  hev_socks5_session_terminate node.

Definition hev_socks5_tunnel_delete_session (node : Z) : M sessions unit :=
  on_set (hev_list_del node);;
  c ← gets session_count;
  set_count (i32 (c - 1)).

Definition hev_socks5_tunnel_update_session (max_session_count node : Z) : M sessions unit :=
  if negb (truthy max_session_count) then mret tt else
  on_set (hev_list_del node);;
  on_set (hev_list_add_tail node).

(** ** The specification

    The sessions, the one that was active last at the end; an operation returns the
    one it terminates. *)
Inductive session_op := InsertSession (a : Z) | DeleteSession (a : Z) | UpdateSession (a : Z).

Definition remove (a : Z) (l : list Z) : list Z := filter (λ x, x ≠ a) l.

Definition spec_session (max : Z) (op : session_op) (l : list Z) : option (list Z * option Z) :=
  match op with
  | InsertSession a =>
      if bool_decide (a ∈ l) || (2147483647 <=? zlen l) then None else
      Some (l ++ [a], if (max =? 0) || (zlen l + 1 <? max) then None else hd_error (l ++ [a]))
  | DeleteSession a => if bool_decide (a ∈ l) then Some (remove a l, None) else None
  | UpdateSession a =>
      if bool_decide (a ∈ l) then Some (if max =? 0 then l else remove a l ++ [a], None) else None
  end.

Definition session_step (max : Z) (op : session_op) : M sessions unit :=
  match op with
  | InsertSession a => hev_socks5_tunnel_insert_session max a
  | DeleteSession a => hev_socks5_tunnel_delete_session a
  | UpdateSession a => hev_socks5_tunnel_update_session max a
  end.

Fixpoint spec_sessions (max : Z) (ops : list session_op) (l : list Z) : option (list Z * list Z) :=
  match ops with
  | [] => Some (l, [])
  | op :: ops =>
      '(l, e) ← spec_session max op l;
      '(l, es) ← spec_sessions max ops l;
      Some (l, option_list e ++ es)
  end.

Fixpoint session_run (max : Z) (ops : list session_op) : M sessions unit :=
  match ops with
  | [] => mret tt
  | op :: ops => session_step max op;; session_run max ops
  end.

(** ** Refinement *)

(** Sessions have nodes, and are known to the model. *)
Definition known (s : sessions) (a : Z) : Prop :=
  a ≠ 0 ∧ a ∈ dom (lnodes (session_set s)) ∧ a ∈ dom (timeouts s).

#[export] Instance known_dec s a : Decision (known s a).
Proof. apply _. Defined.

Record sessions_rep (s : sessions) (l : list Z) : Prop := {
  sr_list : list_rep (session_set s) l;
  sr_count : session_count s = zlen l;
  sr_small : zlen l < 2147483648;
  sr_known : Forall (known s) l
}.

Definition same_domains (s s' : sessions) : Prop :=
  dom (lnodes (session_set s')) = dom (lnodes (session_set s)) ∧ dom (timeouts s') = dom (timeouts s).

Lemma known_same s s' a : same_domains s s' → known s a → known s' a.
Proof. intros [H1 H2] (? & ? & ?). split_and!; [done|by rewrite H1|by rewrite H2]. Qed.

Lemma same_domains_trans s1 s2 s3 : same_domains s1 s2 → same_domains s2 s3 → same_domains s1 s3.
Proof. unfold same_domains. intros [-> ->] [-> ->]. done. Qed.

Lemma remove_middle a xs ys : NoDup (xs ++ a :: ys) → remove a (xs ++ a :: ys) = xs ++ ys.
Proof.
  intros Hnd. nodup_sat. unfold remove.
  assert (Hk : ∀ l : list Z, a ∉ l → filter (λ x, x ≠ a) l = l).
  { induction l as [|x l IH]; intros Hl; [done|]. nodup_sat. rewrite filter_cons_True by congruence. by rewrite IH. }
  rewrite filter_app, filter_cons_False, !Hk by naive_solver. done.
Qed.

Lemma i32_small z : -2147483648 <= z < 2147483648 → i32 z = z.
Proof. intros Hz. unfold i32. rewrite Z.mod_small by lia. lia. Qed.

Lemma terminate_spec s a :
  a ∈ dom (timeouts s) →
  ∃ s', hev_socks5_session_terminate a s = Val tt s' ∧ session_set s' = session_set s ∧
    session_count s' = session_count s ∧ timeouts s' = <[a := 0]> (timeouts s) ∧ wakeups s' = wakeups s ++ [a].
Proof.
  intros [t Ht]%elem_of_dom. unfold hev_socks5_session_terminate, truthy. mstep. rewrite Ht. cbn.
  destruct (Z.eqb_spec t 0) as [->|Hne]; cbn; eexists; split; try done.
  split_and!; try done. cbn. by rewrite insert_id.
Qed.

(** What an operation leaves. *)
Definition session_post (s s' : sessions) (l' : list Z) (e : list Z) : Prop :=
  sessions_rep s' l' ∧ same_domains s s' ∧
  wakeups s' = wakeups s ++ e ∧ timeouts s' = foldl (λ ts x, <[x := 0]> ts) (timeouts s) e.

Lemma insert_session_spec max s l a l' e :
  sessions_rep s l → known s a → spec_session max (InsertSession a) l = Some (l', e) →
  ∃ s', hev_socks5_tunnel_insert_session max a s = Val tt s' ∧ session_post s s' l' (option_list e).
Proof.
  intros [Hl Hc Hs Hk] Ha. pose proof Ha as (Ha0 & [n0 Hn]%elem_of_dom & Hat). cbn [spec_session].
  case_bool_decide as Hin; [done|]. destruct (Z.leb_spec 2147483647 (zlen l)); [done|]. intros [= <- <-].
  destruct (hev_list_add_tail_spec _ _ _ _ Hl Hn Ha0 Hin) as (t & Ht & Hrep & Hdom).
  unfold hev_socks5_tunnel_insert_session, on_set, set_count. mstep. rewrite Ht. cbn [session_count].
  pose proof (zlen_nonneg l). rewrite Hc, i32_small by lia.
  set (s1 := Sessions t (zlen l + 1) (timeouts s) (wakeups s)).
  assert (same_domains s s1) as Hd1 by done.
  assert (sessions_rep s1 (l ++ [a])) as Hr1.
  { split; [done|cbn; by rewrite zlen_snoc|rewrite zlen_snoc; lia|].
    apply Forall_app. split; [eapply Forall_impl; [done|]; intros ?; by apply known_same|].
    apply Forall_singleton. by apply (known_same s). }
  cbn -[hev_socks5_session_terminate]. assert (truthy max = negb (max =? 0)) as -> by done. rewrite negb_involutive.
  destruct ((max =? 0) || (zlen l + 1 <? max)); cbn -[hev_socks5_session_terminate]; [exists s1; split; [done|]|].
  { split_and!; try done. by rewrite app_nil_r. }
  assert (HevList.head t = default 0 (hd_error (l ++ [a]))) as -> by (destruct Hrep as (-> & _); by destruct l).
  destruct (hd_error (l ++ [a])) as [x|] eqn:Hx; [|by destruct l].
  assert (known s1 x) as (_ & _ & Hxt).
  { eapply Forall_forall; [exact (sr_known _ _ Hr1)|]. destruct l; cbn in *; set_solver. }
  change (default 0 (Some x)) with x. fold s1.
  destruct (terminate_spec s1 x Hxt) as (s2 & -> & H1 & H2 & H3 & H4). exists s2.
  assert (same_domains s1 s2) as Hd2.
  { split; [by rewrite H1|]. rewrite H3, dom_insert_L. set_solver. }
  split; [done|]. split; [|split_and!; [by eapply same_domains_trans|by rewrite H4|by rewrite H3]].
  destruct Hr1. split; [by rewrite H1|by rewrite H2|done|]. eapply Forall_impl; [done|]. intros ?. by apply known_same.
Qed.

Lemma update_session_spec max s l a l' e :
  sessions_rep s l → spec_session max (UpdateSession a) l = Some (l', e) →
  ∃ s', hev_socks5_tunnel_update_session max a s = Val tt s' ∧ session_post s s' l' (option_list e).
Proof.
  intros [Hl Hc Hs Hk]. cbn [spec_session]. case_bool_decide as Hin; [|done]. intros [= <- <-].
  unfold hev_socks5_tunnel_update_session. assert (truthy max = negb (max =? 0)) as -> by done.
  rewrite negb_involutive. destruct (max =? 0).
  { exists s. split; [done|]. split_and!; try done. by rewrite app_nil_r. }
  apply list_elem_of_split in Hin as (xs & ys & ->).
  destruct (list_touch_spec _ _ _ _ Hl) as (t1 & t2 & H1 & H2 & Hr & Hd).
  unfold on_set. mstep. rewrite H1. cbn [session_set session_count timeouts wakeups]. rewrite H2.
  eexists. split; [done|]. rewrite remove_middle by apply Hl.
  assert (known_eq : ∀ x, known s x → known (Sessions t2 (session_count s) (timeouts s) (wakeups s)) x)
    by (intros x; by apply known_same).
  split_and!; try done; [|cbn; by rewrite app_nil_r].
  split; cbn [session_set session_count].
  - by rewrite <- app_assoc.
  - rewrite Hc. rewrite !zlen_app, !zlen_cons. change (zlen []) with 0. lia.
  - rewrite !zlen_app, !zlen_cons in *. change (zlen []) with 0. lia.
  - rewrite !Forall_app, !Forall_cons in *. destruct Hk as (? & ? & ?).
    split_and!; try (eapply Forall_impl; eassumption); auto.
Qed.

Lemma delete_session_spec max s l a l' e :
  sessions_rep s l → spec_session max (DeleteSession a) l = Some (l', e) →
  ∃ s', hev_socks5_tunnel_delete_session a s = Val tt s' ∧ session_post s s' l' (option_list e).
Proof.
  intros [Hl Hc Hs Hk]. cbn [spec_session]. case_bool_decide as Hin; [|done]. intros [= <- <-].
  apply list_elem_of_split in Hin as (xs & ys & ->).
  destruct (hev_list_del_spec _ _ _ _ Hl) as (t & H1 & Hr & Hd).
  unfold hev_socks5_tunnel_delete_session, on_set, set_count. mstep. rewrite H1.
  eexists. split; [done|]. rewrite remove_middle by apply Hl.
  pose proof (zlen_nonneg xs). pose proof (zlen_nonneg ys). rewrite zlen_app, zlen_cons in *.
  cbn. rewrite Hc, i32_small by lia.
  split_and!; try done; [|cbn; by rewrite app_nil_r].
  split; cbn [session_set session_count]; rewrite ?zlen_app; [done|lia|lia|].
  rewrite !Forall_app, !Forall_cons in *. destruct Hk as (? & _ & ?).
  split; (eapply Forall_impl; [eassumption|]); intros ?; by apply known_same.
Qed.

Definition inserts (ops : list session_op) : list Z :=
  omap (λ op, match op with InsertSession a => Some a | _ => None end) ops.

(** C24: the list of sessions is a queue ordered by activity: from any well-formed
    state, for every sequence of insertions, removals and updates that makes sense
    (a new node is inserted, one on the list removed or updated), the code's list and
    count follow the abstract queue, and the sessions that it terminates - sets their
    timeout to 0 and wakes them - are exactly the ones that were idle longest when
    the count reached the limit; no other session's timeout changes. The new session
    counts: with a limit of [n], the [n]-th terminates the oldest. *)
Theorem session_set_refines max ops s l l' es :
  sessions_rep s l → Forall (known s) (inserts ops) → spec_sessions max ops l = Some (l', es) →
  ∃ s', session_run max ops s = Val tt s' ∧ sessions_rep s' l' ∧ session_count s' = zlen l' ∧
    wakeups s' = wakeups s ++ es ∧ timeouts s' = foldl (λ ts x, <[x := 0]> ts) (timeouts s) es.
Proof.
  revert s l l' es. induction ops as [|op ops IH]; intros s l l' es Hr Hin.
  { intros [= <- <-]. exists s. rewrite app_nil_r. split_and!; try done. apply Hr. }
  cbn [spec_sessions session_run]. destruct (spec_session max op l) as [[l1 e]|] eqn:Hop; [|done].
  cbn. destruct (spec_sessions max ops l1) as [[l2 es2]|] eqn:Hops; [|done]. intros [= <- <-].
  assert (∃ s1, session_step max op s = Val tt s1 ∧ session_post s s1 l1 (option_list e)) as (s1 & H1 & Hp).
  { destruct op; cbn [session_step].
    - apply Forall_cons in Hin as [Ha _]. by eapply insert_session_spec.
    - by eapply delete_session_spec.
    - by eapply update_session_spec. }
  destruct Hp as (Hr1 & Hd & Hw & Ht).
  destruct (IH s1 l1 l2 es2 Hr1) as (s2 & H2 & Hr2 & Hc2 & Hw2 & Ht2); [|done|].
  { assert (Forall (known s) (inserts ops)) as Hin' by (destruct op; [by apply Forall_cons in Hin as [_ ?]|done..]).
    eapply Forall_impl; [done|]. intros x. by apply known_same. }
  exists s2. mstep. rewrite H1, H2. split_and!; try done.
  - by rewrite Hw2, Hw, app_assoc.
  - by rewrite Ht2, Ht, foldl_app.
Qed.

(** With a limit of 3: the third session terminates the first; after the second one
    was active, and the first has ended, the fourth terminates the third. *)
Lemma session_set_refines_witness :
  let node := LNode 0 0 in
  let s := Sessions (ListMem 0 0 {[16 := node; 32 := node; 48 := node; 64 := node]}) 0
    {[16 := -1; 32 := -1; 48 := -1; 64 := -1]} [] in
  let ops := [InsertSession 16; InsertSession 32; InsertSession 48; UpdateSession 32; DeleteSession 16; InsertSession 64] in
  ∃ s', session_run 3 ops s = Val tt s' ∧ sessions_rep s' [48; 32; 64] ∧ session_count s' = 3 ∧
    wakeups s' = [16; 48] ∧ timeouts s' = {[16 := 0; 32 := -1; 48 := 0; 64 := -1]}.
Proof.
  cbv zeta. pose proof (session_set_refines 3
    [InsertSession 16; InsertSession 32; InsertSession 48; UpdateSession 32; DeleteSession 16; InsertSession 64]
    (Sessions (ListMem 0 0 {[16 := LNode 0 0; 32 := LNode 0 0; 48 := LNode 0 0; 64 := LNode 0 0]}) 0
    {[16 := -1; 32 := -1; 48 := -1; 64 := -1]} []) [] [48; 32; 64] [16; 48]) as H.
  destruct H as (s' & Hs & Hr & Hc & Hw & Ht).
  - split; [apply list_rep_nil|done|done|constructor].
  - apply (bool_decide_unpack _). by vm_compute.
  - done.
  - exists s'. by split_and!.
Defined.
