(* ===== verification/SessionTCP.v ===== *)
(** * SessionTCP: a TCP session of the tunnel, src/hev-socks5-session-tcp.c

    A session relays between a connection of the local TCP/IP stack (lwIP), its
    [pcb], and the connection to the SOCKS server. What the stack received waits in a
    chain of buffers; what the server sent is handed to the stack by reference to the
    session's ring buffer, and stays there until the stack reports that it was
    acknowledged.

    The stack calls the session back while the session's task waits: when it yields,
    and when it takes the mutex. Which calls these are is data of the state, like the
    outcomes of system calls ([events]); so is what [tcp_write] and [tcp_output]
    answer. Of the stack the model keeps what its documentation promises: it reports
    only what it received within its window, acknowledges only what it was given, and
    reads what it was given from the memory it was pointed to. *)
From S2P Require Import Prelude Bytes HevList RingBuffer TaskIO Socks5 UDP Client SessionSet.

(** ** The state *)

(** A chain of buffers of the stack is the list of their contents; none is NULL. *)
Record HevSocks5SessionTCP := SessionTCP {
  stcp : HevSocks5ClientTCP; node : Z; queue : list bytes; pcb : bool;
  buffer : option HevRingBuffer; pcb_eof : bool
}.

(** What happens in callbacks: the stack received a chain of buffers, or the end of
    the stream (no buffers); [n] bytes were acknowledged; the connection failed.
    Besides, other sessions come, go and are active, and may terminate this one. *)
Inductive event :=
| TcpRecv (p : list bytes) | TcpSent (n : Z) | TcpErr | SessionsChange (t : sessions) | Terminate.

(** The stack's side of the connection: the callbacks and the answers to come; its
    receive window; the cells of the ring buffer it refers to; and what it was handed,
    what of it was acknowledged, what it received, whether it refused a write, and
    whether its direction was closed. *)
Record lwip := Lwip {
  events : list (list event); answers : list Z; rcv_wnd : Z; refs : list Z;
  handed : bytes; acked : bytes; received : bytes; refused : bool; tx_closed : bool
}.

Record session := Session { sess : HevSocks5SessionTCP; lw : lwip; tunnel : sessions }.

Definition set_stcp v o := SessionTCP v (node o) (queue o) (pcb o) (buffer o) (pcb_eof o).
Definition set_queue v o := SessionTCP (stcp o) (node o) v (pcb o) (buffer o) (pcb_eof o).
Definition set_pcb v o := SessionTCP (stcp o) (node o) (queue o) v (buffer o) (pcb_eof o).
Definition set_buffer v o := SessionTCP (stcp o) (node o) (queue o) (pcb o) v (pcb_eof o).
Definition set_pcb_eof v o := SessionTCP (stcp o) (node o) (queue o) (pcb o) (buffer o) v.
Definition set_sess v s := Session v (lw s) (tunnel s).
Definition set_lw v s := Session (sess s) v (tunnel s).
Definition set_tunnel v s := Session (sess s) (lw s) v.

Definition set_events v l := Lwip v (answers l) (rcv_wnd l) (refs l) (handed l) (acked l) (received l) (refused l) (tx_closed l).
Definition set_answers v l := Lwip (events l) v (rcv_wnd l) (refs l) (handed l) (acked l) (received l) (refused l) (tx_closed l).
Definition set_rcv_wnd v l := Lwip (events l) (answers l) v (refs l) (handed l) (acked l) (received l) (refused l) (tx_closed l).
Definition set_refs v l := Lwip (events l) (answers l) (rcv_wnd l) v (handed l) (acked l) (received l) (refused l) (tx_closed l).
Definition set_handed v l := Lwip (events l) (answers l) (rcv_wnd l) (refs l) v (acked l) (received l) (refused l) (tx_closed l).
Definition set_acked v l := Lwip (events l) (answers l) (rcv_wnd l) (refs l) (handed l) v (received l) (refused l) (tx_closed l).
Definition set_received v l := Lwip (events l) (answers l) (rcv_wnd l) (refs l) (handed l) (acked l) v (refused l) (tx_closed l).
Definition set_refused v l := Lwip (events l) (answers l) (rcv_wnd l) (refs l) (handed l) (acked l) (received l) v (tx_closed l).
Definition set_tx_closed v l := Lwip (events l) (answers l) (rcv_wnd l) (refs l) (handed l) (acked l) (received l) (refused l) v.

#[export] Program Instance session_IsSocks5 : IsSocks5 session :=
  {| base o := base (stcp (sess o)); set_base b o := set_sess (set_stcp (set_base b (stcp (sess o))) (sess o)) o |}.
Solve All Obligations with
  by intros; repeat match goal with o : session |- _ => destruct o as [[[[]]] ? ?] end.

Definition get_sess : M (st session) HevSocks5SessionTCP := gets (λ s, sess (self s)).
Definition upd_sess (f : HevSocks5SessionTCP → HevSocks5SessionTCP) : M (st session) unit :=
  modify (λ s, St (set_sess (f (sess (self s))) (self s)) (io s)).
Definition get_lw : M (st session) lwip := gets (λ s, lw (self s)).
Definition upd_lw (f : lwip → lwip) : M (st session) unit :=
  modify (λ s, St (set_lw (f (lw (self s))) (self s)) (io s)).
Definition get_buffer : M (st session) HevRingBuffer := o ← get_sess; of_option (buffer o).
Definition put_buffer (r : HevRingBuffer) : M (st session) unit := upd_sess (set_buffer (Some r)).

(** ** Callbacks *)

(** A failure code is returned to the stack by no handler. *)
Definition tcp_recv_handler (p : list bytes) : M (st session) unit :=
  self ← get_sess;
  match p with
  | [] => upd_sess (set_pcb_eof true)
  | _ => upd_sess (set_queue (queue self ++ p))
  end.

Definition tcp_sent_handler (len : Z) : M (st session) unit :=
  r ← get_buffer;
  put_buffer (hev_ring_buffer_read_release len r).

Definition session_terminate : M (st session) unit := hev_socks5_set_timeout 0.

Definition tcp_err_handler : M (st session) unit :=
  upd_sess (set_pcb false);;
  session_terminate.

(** The stack reads the bytes at the first [n] cells it refers to, and forgets the
    cells. *)
Definition acknowledge (n : Z) : M (st session) Z :=
  l ← get_lw;
  let cells := take (Z.to_nat n) (refs l) in
  match cells with
  | [] => mret 0
  | _ =>
      r ← get_buffer;
      bs ← of_option (mapM (zget (data r)) cells);
      upd_lw (λ l, set_acked (acked l ++ bs) (set_refs (drop (Z.to_nat n) (refs l)) l));;
      mret (zlen cells)
  end.

Definition callback (e : event) : M (st session) unit :=
  self ← get_sess;
  l ← get_lw;
  match e with
  | TcpRecv p =>
      let n := zlen (mjoin p) in
      when (pcb self && (n <=? rcv_wnd l)) (
        upd_lw (λ l, set_received (received l ++ mjoin p) (set_rcv_wnd (rcv_wnd l - n) l));;
        tcp_recv_handler p)
  | TcpSent n =>
      when (pcb self) (
        n ← acknowledge n;
        when (truthy n) (tcp_sent_handler n))
  | TcpErr => when (pcb self) (upd_lw (set_refs []);; tcp_err_handler)
  | SessionsChange t => modify (λ s, St (set_tunnel t (TaskIO.self s)) (io s))
  | Terminate => session_terminate
  end.

Fixpoint run_callbacks (es : list event) : M (st session) unit :=
  match es with
  | [] => mret tt
  | e :: es => callback e;; run_callbacks es
  end.

Definition callbacks : M (st session) unit :=
  l ← get_lw;
  match events l with
  | [] => mret tt
  | es :: ess => upd_lw (set_events ess);; run_callbacks es
  end.

(** Taking the mutex may wait for another task, and the stack runs meanwhile. *)
Definition hev_task_mutex_lock : M (st session) unit := callbacks.

(** ** The stack's functions *)

Definition ERR_OK : Z := 0.
Definition TCP_SND_BUF : Z := 8 * 8191.

Definition answer : M (st session) Z :=
  l ← get_lw;
  match answers l with
  | [] => mret ERR_OK
  | a :: answers => upd_lw (set_answers answers);; mret a
  end.

(** [len] has 16 bits; nothing is copied. *)
Definition tcp_write (off len : Z) : M (st session) Z :=
  let len := u16 len in
  err ← answer;
  if err =? ERR_OK then
    r ← get_buffer;
    let cells := seqZ off len in
    bs ← of_option (mapM (zget (data r)) cells);
    upd_lw (λ l, set_handed (handed l ++ bs) (set_refs (refs l ++ cells) l));;
    mret err
  else upd_lw (set_refused true);; mret err.

Definition tcp_output : M (st session) Z := answer.
Definition tcp_recved (len : Z) : M (st session) unit := upd_lw (λ l, set_rcv_wnd (rcv_wnd l + u16 len) l).
Definition tcp_shutdown : M (st session) unit := upd_lw (set_tx_closed true).

Fixpoint free_header (q : list bytes) (free_left : Z) : list bytes :=
  match q with
  | [] => []
  | p :: q' =>
      if free_left =? 0 then q
      else if zlen p <=? free_left then free_header q' (u16 (free_left - zlen p))
      else drop (Z.to_nat free_left) p :: q'
  end.
Definition pbuf_free_header (q : list bytes) (size : Z) : list bytes := free_header q (u16 size).

(** ** The session *)

(** Reading into the segments of the ring buffer, which must lie inside of it. *)
Definition inside (r : HevRingBuffer) (iov : list iovec) : bool :=
  forallb (λ v, (0 <=? iov_off v) && (0 <=? iov_len v) && (iov_off v + iov_len v <=? zlen (data r))) iov.

Definition readv (fd : Z) (iov : list iovec) : M (st session) Z :=
  r ← get_buffer;
  if negb (inside r iov) then stuck else
  '(s, bs) ← recv fd (iov_total iov);
  r ← get_buffer;
  put_buffer (Ring (rp r) (wp r) (rda_size r) (use_size r) (max_size r) (scatter (data r) iov bs));;
  mret s.

Definition tcp_splice_f : M (st session) Z :=
  self ← get_sess;
  b ← get_base;
  let iov := take 64 (queue self) in
  let res :=
    match queue self with
    | [] => if pcb_eof self then -1 else 0
    | _ => 1
    end in
  if truthy (zlen iov) then
    s ← send (fd b) (mjoin iov);
    if s <=? 0 then
      e ← get_errno;
      mret (if (s <? 0) && (e =? EAGAIN) then 0 else -1)
    else
      hev_task_mutex_lock;;
      upd_sess (λ self, set_queue (pbuf_free_header (queue self) s) self);;
      self ← get_sess;
      when (pcb self) (tcp_recved s);;
      mret 1
  else if res <? 0 then
    shutdown (fd b);;
    mret res
  else mret res.

(** The loop that hands the segments to the stack: the errors, or-ed, and the sum of
    the lengths. *)
Fixpoint tcp_writes (iov : list iovec) (err s : Z) : M (st session) (Z * Z) :=
  match iov with
  | [] => mret (err, s)
  | v :: iov =>
      e ← tcp_write (iov_off v) (iov_len v);
      tcp_writes iov (Z.lor err e) (u64 (s + iov_len v))
  end.

(** From the server into the ring buffer, as far as there is room. *)
Definition read_server (fd : Z) : M (st session) Z :=
  r ← get_buffer;
  let iov := hev_ring_buffer_writing r in
  if truthy (zlen iov) then
    s ← readv fd iov;
    if s <=? 0 then
      e ← get_errno;
      mret (if (s <? 0) && (e =? EAGAIN) then 0 else -1)
    else
      r ← get_buffer;
      put_buffer (hev_ring_buffer_write_finish s r);;
      mret 1
  else mret 0.

(** From the ring buffer to the stack. *)
Definition write_stack (res : Z) : M (st session) (Z * Z) :=
  r ← get_buffer;
  let iov := hev_ring_buffer_reading r in
  if truthy (zlen iov) then
    '(err, s) ← tcp_writes iov ERR_OK 0;
    r ← get_buffer;
    put_buffer (hev_ring_buffer_read_finish s r);;
    e ← tcp_output;
    mret (1, Z.lor err e)
  else if res <? 0 then tcp_shutdown;; mret (res, ERR_OK)
  else mret (res, ERR_OK).

Definition tcp_splice_b : M (st session) Z :=
  b ← get_base;
  res ← read_server (fd b);
  hev_task_mutex_lock;;
  self ← get_sess;
  '(res, err) ← (if pcb self then write_stack res else mret (res, ERR_OK));
  self ← get_sess;
  if negb (pcb self) || negb (err =? ERR_OK) then mret (-1) else mret res.

(** [max_session_count]: the configuration's limit. *)
Section Session.
Context (max_session_count : Z).

Definition task_io_yielder (type : HevTaskYieldType) : M (st session) Z :=
  res ← hev_socks5_task_io_yielder type;
  callbacks;;
  self ← get_sess;
  zoom (λ s, tunnel (TaskIO.self s)) (λ t s, St (set_tunnel t (TaskIO.self s)) (io s))
    (hev_socks5_tunnel_update_session max_session_count (node self));;
  mret res.

(** Every round moves a byte that is there or to come, or uses up a wake. *)
Definition event_bytes (e : event) : nat := match e with TcpRecv p => length (mjoin p) | _ => 0 end.
Definition session_fuel (s : st session) : nat :=
  let o := TaskIO.self s in
  match chans (io s) !! fd (base o) with Some c => length (stream (rxq c)) | None => 0 end +
  match buffer (sess o) with Some r => Z.to_nat (rda_size r) | None => 0 end +
  length (mjoin (queue (sess o))) + list_sum (event_bytes <$> mjoin (events (lw o))) + length (wakes (io s)).

Fixpoint splice_rounds (fuel : nat) (res_f res_b : Z) : M (st session) unit :=
  match fuel with
  | O => stuck
  | S fuel =>
      res_f ← (if 0 <=? res_f then tcp_splice_f else mret res_f);
      res_b ← (if 0 <=? res_b then tcp_splice_b else mret res_b);
      match (if (0 <? res_f) || (0 <? res_b) then Some HEV_TASK_YIELD
             else if Z.land res_f res_b =? 0 then Some HEV_TASK_WAITIO
             else None) with
      | None => mret tt
      | Some type =>
          r ← task_io_yielder type;
          if r <? 0 then mret tt else splice_rounds fuel res_f res_b
      end
  end.

Fixpoint drain (fuel : nat) : M (st session) unit :=
  match fuel with
  | O => stuck
  | S fuel =>
      self ← get_sess;
      if pcb self then
        r ← get_buffer;
        if hev_ring_buffer_get_use_size r =? 0 then mret tt else
        res ← task_io_yielder HEV_TASK_WAITIO;
        if res <? 0 then mret tt else drain fuel
      else mret tt
  end.

(** [mem]: what the stack frame held at the new buffer, [tcp_buffer_size] bytes. *)
Definition hev_socks5_session_tcp_splice (mem : bytes) : M (st session) unit :=
  self ← get_sess;
  if negb (pcb self) then mret tt else
  upd_sess (set_buffer (Some (hev_ring_buffer_alloca mem)));;
  fuel ← gets (λ s, S (session_fuel s));
  splice_rounds fuel 1 1;;
  fuel ← gets (λ s, S (length (wakes (io s))));
  drain fuel.
End Session.
