(* ===== verification/SessionTCPSpec.v ===== *)
(** * SessionTCPSpec: a TCP session relays faithfully under any interleaving

    The invariant [rep] relates a session at any moment - also in between the
    callbacks of the stack - to the history of the two streams: what came from the
    stack is what was sent to the server and what waits in the queue; what came from
    the server is what was acknowledged, what is in flight, what waits in the ring
    buffer and what is still to come. *)
From S2P Require Import Prelude Bytes HevList RingBuffer TaskIO TaskIOSpec Socks5 Socks5Spec Splice SpliceSpec UDP Client.
From S2P Require Import SessionSet SessionTCP.

(** ** The invariant *)

Section Relay.
(** The server's descriptor, the session's node, the receive window, the bytes that
    the server was going to send, and those that had been sent to it before. *)
Context (d a W : Z) (S0 T0 : bytes).

(** The other sessions keep this one on the list. *)
Definition listed (t : sessions) : Prop := ∃ xs ys, list_rep (session_set t) (xs ++ a :: ys).
Definition event_ok (e : event) : Prop := match e with SessionsChange t => listed t | _ => True end.

(** The stack's view of the ring buffer: as it should be; after it refused a write;
    after the connection failed. *)
Inductive flow (r : HevRingBuffer) (base : Z) (f u rest : bytes) : bool → lwip → Prop :=
| flow_exact l :
    refused l = false → refs l = ring_cells (max_size r) base (zlen f) →
    handed l = acked l ++ f → S0 = handed l ++ u ++ rest → flow r base f u rest true l
| flow_refused l t :
    refused l = true → zlen (refs l) <= zlen f →
    Forall2 (λ c b, zget (data r) c = Some b) (refs l) t → handed l = acked l ++ t → flow r base f u rest true l
| flow_dead l :
    refs l = [] → acked l `prefix_of` handed l → (refused l = false → handed l `prefix_of` S0) →
    flow r base f u rest false l.

(** [k] bytes of the queue have been sent already. *)
Record rep (k : Z) (s : st session) (c : chan) (r : HevRingBuffer) (base : Z) (f u : bytes) : Prop := {
  re_fd : fd (Socks5.base (self s)) = d;
  re_node : node (sess (self s)) = a;
  re_chan : chans (io s) !! d = Some c;
  re_buf : buffer (sess (self s)) = Some r;
  re_ring : ring_rep r base f u;
  re_max : max_size r <= TCP_SND_BUF;
  re_up : ∃ up, tx c = T0 ++ up ++ take (Z.to_nat k) (mjoin (queue (sess (self s)))) ∧
    received (lw (self s)) = up ++ mjoin (queue (sess (self s)));
  re_k : 0 <= k <= zlen (mjoin (queue (sess (self s))));
  re_wnd : zlen (mjoin (queue (sess (self s)))) <= W <= 65535 ∧
    (pcb (sess (self s)) = true →
     0 <= rcv_wnd (lw (self s)) ∧ rcv_wnd (lw (self s)) + zlen (mjoin (queue (sess (self s)))) = W);
  re_flow : flow r base f u (stream (rxq c)) (pcb (sess (self s))) (lw (self s));
  re_list : listed (tunnel (self s));
  re_events : Forall (Forall event_ok) (events (lw (self s)))
}.

Definition inv (k : Z) (s : st session) : Prop := ∃ c r base f u, rep k s c r base f u.

(** What a callback, or code that lets callbacks run, leaves alone; [n] bounds by how
    much the work that is left may grow. *)
Record after (n : nat) (s s' : st session) : Prop := {
  af_wakes : wakes (io s') = wakes (io s);
  af_refused : refused (lw (self s')) = refused (lw (self s));
  af_fuel : (session_fuel s' <= session_fuel s + n)%nat
}.

Ltac fuel := unfold session_fuel; cbn -[list_sum]; lia.

Lemma after_refl s : after 0 s s.
Proof. split; [done|done|lia]. Qed.

Lemma after_trans n m s1 s2 s3 : after n s1 s2 → after m s2 s3 → after (n + m) s1 s3.
Proof. intros [Hw1 Hr1 Hf1] [Hw2 Hr2 Hf2]. split; [congruence|congruence|lia]. Qed.

(** ** Callbacks *)

(** No callback consumes unread bytes. *)
Definition unread_size (s : st session) : option Z := rda_size <$> buffer (sess (self s)).
Definition quiet (s s' : st session) : Prop :=
  events (lw (self s')) = events (lw (self s)) ∧ unread_size s' = unread_size s.

Definition total {A} (m : M (st session) A) (n : nat) (k : Z) (s : st session) : Prop :=
  ∃ v s', m s = Val v s' ∧ inv k s' ∧ after n s s' ∧ quiet s s'.

Lemma total_here k n s s' (m : M (st session) unit) :
  m s = Val tt s' → inv k s' → after n s s' → quiet s s' → total m n k s.
Proof. intros. by exists tt, s'. Qed.

Lemma total_nothing k n s : inv k s → total (mret tt) n k s.
Proof. intros. exists tt, s. split_and!; try done. split; [done|done|lia]. Qed.

Lemma terminate_total k s : inv k s → total session_terminate 0 k s.
Proof.
  intros (c & r & base & f & u & R). eapply total_here; [apply set_timeout_val|..]; destruct s as [[o l t] i];
    destruct (truthy _); try done; try apply after_refl; try (by exists c, r, base, f, u).
  - exists c, r, base, f, u. destruct R. by split.
  - split; [done|done|]. fuel.
Qed.

(** Runs code up to a test that is decided by [H]. *)
Ltac run H :=
  unfold callback, tcp_recv_handler, tcp_err_handler, get_sess, get_lw, upd_sess, upd_lw; mstep; cbn [self sess lw io];
  rewrite H; reflexivity.

(** A chain of buffers, or the end, within the window. *)
Lemma recv_total k p s : inv k s → total (callback (TcpRecv p)) (length (mjoin p)) k s.
Proof.
  intros (c & r & base & f & u & R). destruct s as [[o l t] i].
  destruct (pcb o && (zlen (mjoin p) <=? rcv_wnd l)) eqn:Hb.
  2: { eapply total_here; [run Hb|by exists c, r, base, f, u|split; [done|done|lia]|done]. }
  pose proof Hb as [Hp Hn%Z.leb_le]%andb_true_iff.
  destruct R as [Rfd Rnode Rc Rb Rr Rm (up & Ht & Hr) Rk [Hq Hw] Rf Rl Re]. cbn [self sess lw io tunnel] in *.
  specialize (Hw Hp) as [Hw0 Hw]. pose proof (zlen_nonneg (mjoin p)).
  assert (∀ q e, mjoin q = mjoin (queue o) ++ mjoin p →
    inv k (St (Session (set_pcb_eof e (set_queue q o)) (set_received (received l ++ mjoin p) (set_rcv_wnd (rcv_wnd l - zlen (mjoin p)) l)) t) i)) as Hinv.
  { intros q e Hq'. exists c, r, base, f, u. split; cbn [self sess lw io tunnel set_pcb_eof set_queue node buffer queue
      set_received set_rcv_wnd received rcv_wnd events pcb stcp]; try done.
    - exists up. rewrite Hq', Hr, take_app_le by (unfold zlen in *; lia). by rewrite <- app_assoc.
    - rewrite Hq', zlen_app. lia.
    - rewrite Hq', zlen_app. lia.
    - destruct Rf; econstructor; done. }
  destruct p as [|b p].
  - eapply total_here; [run Hb| |split; [done|done|]|done].
    + destruct o as [? ? q ? ? ?]. apply (Hinv q true). by rewrite app_nil_r.
    + fuel.
  - eapply total_here; [run Hb| |split; [done|done|]|done].
    + destruct o as [? ? q ? ? e]. apply (Hinv (q ++ b :: p) e). by rewrite join_app.
    + unfold session_fuel. cbn -[list_sum mjoin]. rewrite join_app, length_app. lia.
Qed.

(** What the stack refers to is what it was handed and has not acknowledged. *)
Lemma flow_refs r base f u rest l :
  ring_rep r base f u → flow r base f u rest true l →
  ∃ t, Forall2 (λ c b, zget (data r) c = Some b) (refs l) t ∧ handed l = acked l ++ t ∧ zlen (refs l) <= zlen f.
Proof.
  intros R F. inversion F as [l' _ Hrefs Hh _|l' t _ Hle Ht Hh|]; subst l'; [|by exists t].
  exists f. split; [|split; [done|]].
  - rewrite Hrefs. pose proof (ring_cells_hold _ _ _ _ R) as Hc.
    rewrite zlen_app, ring_cells_app in Hc by (sizes; lia).
    apply Forall2_app_inv in Hc as [Hc _]; [done|]. sizes.
    pose proof (zlen_ring_cells (max_size r) base (zlen f)). unfold zlen in *. lia.
  - rewrite Hrefs, zlen_ring_cells by (sizes; lia). lia.
Qed.

(** The first [n] cells are acknowledged and released. *)
Lemma flow_acknowledge r base f u rest l n t1 :
  ring_rep r base f u → flow r base f u rest true l → 0 < n <= zlen (refs l) →
  Forall2 (λ c b, zget (data r) c = Some b) (take (Z.to_nat n) (refs l)) t1 →
  ∃ base', ring_rep (hev_ring_buffer_read_release n r) base' (drop (Z.to_nat n) f) u ∧
    flow (hev_ring_buffer_read_release n r) base' (drop (Z.to_nat n) f) u rest true
      (set_acked (acked l ++ t1) (set_refs (drop (Z.to_nat n) (refs l)) l)).
Proof.
  intros R F Hn H1. destruct (flow_refs _ _ _ _ _ _ R F) as (t & Ht & Hh & Hle).
  assert (t1 = take (Z.to_nat n) t) as ->.
  { eapply Forall2_unique; [exact H1|by apply Forall2_take|]. congruence. }
  pose proof R as R'. rewrite <- (take_drop (Z.to_nat n) f) in R'.
  apply read_release_rep in R' as (base' & Hb & Hd & Hm & R').
  rewrite zlen_take in Hb, Hd, Hm, R' by lia. exists base'. split; [done|].
  inversion F as [l' Hrf Hrefs Hh' HS|l' t' Hrf _ _ _|]; subst l'.
  - apply flow_exact; cbn [refused refs handed acked set_acked set_refs].
    + done.
    + rewrite Hm, Hrefs, zlen_drop by lia. destruct Hb as [->|Hf0].
      * rewrite ring_cells_mod by (pose proof (rr_max _ _ _ _ R); lia).
        replace (zlen f) with (n + (zlen f - n)) at 1 by lia. rewrite ring_cells_app by lia.
        apply drop_app_length'. pose proof (zlen_ring_cells (max_size r) base n). unfold zlen in *. lia.
      * assert (zlen f - n = 0) as -> by (apply (f_equal zlen) in Hf0; rewrite zlen_drop in Hf0 by lia; done).
        apply drop_ge. pose proof (zlen_ring_cells (max_size r) base (zlen f)).
        apply (f_equal zlen) in Hf0. rewrite zlen_drop in Hf0 by lia. change (zlen []) with 0 in Hf0.
        unfold zlen in *. lia.
    + assert (t = f) as -> by (rewrite Hh' in Hh; by apply app_inv_head in Hh).
      by rewrite Hh', <- app_assoc, take_drop.
    + done.
  - apply flow_refused with (drop (Z.to_nat n) t); cbn [refused refs handed acked set_acked set_refs].
    + done.
    + rewrite !zlen_drop by lia. lia.
    + rewrite Hd. by apply Forall2_drop.
    + by rewrite Hh, <- app_assoc, take_drop.
Qed.

(** Taking what there is of a prefix. *)
Lemma taken {A} n (l k : list A) :
  take n l = k → k ≠ [] →
  take (Z.to_nat (zlen k)) l = k ∧ drop n l = drop (Z.to_nat (zlen k)) l ∧ 0 < zlen k <= zlen l.
Proof.
  intros <- Hne. unfold zlen. rewrite Nat2Z.id, length_take.
  destruct (decide (n <= length l)%nat).
  - rewrite Nat.min_l by lia. split; [done|split; [done|]]. destruct n; [by rewrite take_0 in Hne|lia].
  - rewrite Nat.min_r, !take_ge, !drop_ge by lia. rewrite take_ge in Hne by lia.
    split; [done|split; [done|]]. destruct l; [done|cbn; lia].
Qed.

Lemma sent_total k n s : inv k s → total (callback (TcpSent n)) 0 k s.
Proof.
  intros (c & r & base & f & u & R). destruct s as [[o l t] i].
  destruct (pcb o) eqn:Hp.
  2: { eapply total_here; [run Hp|by exists c, r, base, f, u|apply after_refl|done]. }
  pose proof R as [Rfd Rnode Rc Rb Rr Rm Ru Rk [Hq Hw] Rf Rl Re]. cbn [self sess lw io tunnel] in *.
  rewrite Hp in Rf. destruct (flow_refs _ _ _ _ _ _ Rr Rf) as (t0 & Ht0 & _ & _).
  destruct (take (Z.to_nat n) (refs l)) as [|c0 cs] eqn:Hcs.
  { eapply total_here; [|by exists c, r, base, f, u|apply after_refl|done].
    unfold callback, acknowledge, get_sess, get_lw. mstep. cbn [self sess lw]. rewrite Hp. mstep. cbn [self lw].
    by rewrite Hcs. }
  set (n' := zlen (c0 :: cs)).
  destruct (taken (Z.to_nat n) (refs l) (c0 :: cs) Hcs) as (Hcs' & Hdr & Hn'); [done|]. fold n' in Hcs', Hdr, Hn'.
  assert (Forall2 (λ c b, zget (data r) c = Some b) (c0 :: cs) (take (Z.to_nat n') t0)) as Hrd.
  { rewrite <- Hcs'. by apply Forall2_take. }
  rewrite <- Hcs' in Hrd at 1.
  destruct (flow_acknowledge _ _ _ _ _ _ _ _ Rr Rf Hn' Hrd) as (base' & Rr' & Rf').
  rewrite Hcs' in Hrd. apply mapM_Some in Hrd.
  eapply total_here.
  - unfold callback, acknowledge, tcp_sent_handler, get_buffer, put_buffer, get_sess, get_lw, upd_sess, upd_lw, of_option.
    mstep. cbn [self sess lw io]. rewrite Hp. mstep. cbn [self sess lw io]. rewrite Hcs. mstep. cbn [self sess lw io].
    rewrite Rb. mstep. rewrite Hrd. mstep. cbn [self sess lw io set_lw set_sess]. fold n'.
    unfold truthy. destruct (Z.eqb_spec n' 0); [lia|]. cbn [negb sess self set_lw]. rewrite Rb. reflexivity.
  - exists c, (hev_ring_buffer_read_release n' r), base', (drop (Z.to_nat n') f), u.
    split; cbn [self sess lw io tunnel set_sess set_lw set_buffer node buffer queue pcb stcp]; try done.
    + unfold hev_ring_buffer_read_release. by destruct (negb _).
    + by rewrite Hp, Hdr.
  - split; [done|done|]. unfold session_fuel. cbn -[list_sum hev_ring_buffer_read_release Z.to_nat].
    replace (rda_size (hev_ring_buffer_read_release n' r)) with (rda_size r)
      by (unfold hev_ring_buffer_read_release; by destruct (negb _)). rewrite Rb. lia.
  - split; [done|]. unfold unread_size. cbn -[hev_ring_buffer_read_release]. rewrite Rb. cbn.
    unfold hev_ring_buffer_read_release. by destruct (negb _).
Qed.

Lemma err_total k s : inv k s → total (callback TcpErr) 0 k s.
Proof.
  intros (c & r & base & f & u & R). destruct s as [[o l t] i].
  destruct (pcb o) eqn:Hp.
  2: { eapply total_here; [run Hp|by exists c, r, base, f, u|apply after_refl|done]. }
  destruct (terminate_total k (St (Session (set_pcb false o) (set_refs [] l) t) i)) as ([] & s' & Hs' & Hi & Ha & He).
  { exists c, r, base, f, u. destruct R as [Rfd Rnode Rc Rb Rr Rm Ru Rk [Hq Hw] Rf Rl Re]. cbn [self sess lw io tunnel] in *.
    split; try done. cbn [self sess lw set_pcb pcb]. rewrite Hp in Rf.
    destruct (flow_refs _ _ _ _ _ _ Rr Rf) as (t0 & _ & Hh & _).
    apply flow_dead; [done|by exists t0|]. intros Hrf. cbn in Hrf.
    inversion Rf as [l' _ _ _ HS| |]; subst; [|congruence]. by eexists. }
  exists tt, s'. split_and!; [|done| |done].
  - unfold callback, tcp_err_handler, get_sess, get_lw, upd_sess, upd_lw. mstep. cbn [self sess lw io].
    rewrite Hp. exact Hs'.
  - destruct Ha as [Hw Hr Hf]. split; [done|done|]. etrans; [exact Hf|]. fuel.
Qed.

Lemma change_total k t s : inv k s → listed t → total (callback (SessionsChange t)) 0 k s.
Proof.
  intros (c & r & base & f & u & R) Ht. destruct s as [[o l t0] i].
  eapply total_here; [reflexivity| |split; [done|done|fuel]|done].
  exists c, r, base, f, u. destruct R. by split.
Qed.

Lemma callback_total k e s : inv k s → event_ok e → total (callback e) (event_bytes e) k s.
Proof.
  intros Hi He. destruct e as [p|n| |t|]; cbn [event_bytes].
  - by apply recv_total.
  - by apply sent_total.
  - by apply err_total.
  - by apply change_total.
  - by apply terminate_total.
Qed.

Lemma run_callbacks_total k es s :
  inv k s → Forall event_ok es → total (run_callbacks es) (list_sum (event_bytes <$> es)) k s.
Proof.
  intros Hi He. revert s Hi. induction He as [|e es He _ IH]; intros s Hi.
  { apply total_nothing. done. }
  destruct (callback_total k e s Hi He) as ([] & s1 & H1 & Hi1 & Ha1 & He1).
  destruct (IH s1 Hi1) as ([] & s2 & H2 & Hi2 & Ha2 & He2).
  eapply total_here; [cbn [run_callbacks]; erewrite bind_val by exact H1; exact H2|done|by eapply after_trans|].
  destruct He1, He2. split; congruence.
Qed.

(** Letting callbacks run only uses up what they bring. *)
Lemma callbacks_spec k s :
  inv k s → ∃ s', callbacks s = Val tt s' ∧ inv k s' ∧ after 0 s s' ∧ unread_size s' = unread_size s.
Proof.
  intros Hi. pose proof Hi as (c & r & base & f & u & R). pose proof (re_events _ _ _ _ _ _ _ R) as He.
  unfold callbacks, get_lw. mstep. destruct s as [[o l t] i]. cbn [self lw] in *.
  destruct (events l) as [|es ess] eqn:Hev.
  { eexists. split; [reflexivity|]. split; [done|split; [apply after_refl|done]]. }
  apply Forall_cons in He as [He Hess].
  destruct (run_callbacks_total k es (St (Session o (set_events ess l) t) i)) as ([] & s' & Hs' & Hi' & Ha & _ & Hu); [|done|].
  { exists c, r, base, f, u. destruct R as [? ? ? ? ? ? ? ? ? Rf ? ?]. split; try done.
    cbn [self sess lw] in *. destruct Rf; econstructor; done. }
  exists s'. split; [exact Hs'|]. split; [done|]. destruct Ha as [Hw Hr Hf]. split; [|done]. split; [done|done|].
  etrans; [exact Hf|]. unfold session_fuel. cbn -[list_sum mjoin]. rewrite Hev. change (mjoin (es :: ess)) with (es ++ mjoin ess).
  rewrite fmap_app, list_sum_app. lia.
Qed.

(** ** Towards the server *)

Lemma mjoin_free_header q n : 0 <= n <= 65535 → mjoin (free_header q n) = drop (Z.to_nat n) (mjoin q).
Proof.
  revert n. induction q as [|p q IH]; intros n Hn; [cbn; by rewrite drop_nil|]. cbn [free_header].
  destruct (Z.eqb_spec n 0) as [->|Hne]; [done|]. pose proof (zlen_nonneg p).
  change (mjoin (p :: q)) with (p ++ mjoin q).
  destruct (Z.leb_spec (zlen p) n).
  - assert (u16 (n - zlen p) = n - zlen p) as -> by (apply Z.mod_small; lia).
    rewrite IH by lia. rewrite drop_app_ge by (unfold zlen in *; lia). f_equal. unfold zlen. lia.
  - change (mjoin (drop (Z.to_nat n) p :: q)) with (drop (Z.to_nat n) p ++ mjoin q).
    by rewrite drop_app_le by (unfold zlen in *; lia).
Qed.

Lemma send_part buf c (s : st session) :
  chans (io s) !! d = Some c →
  ∃ r k q i', send d buf s = Val r (St (self s) i') ∧ wakes i' = wakes (io s) ∧
    chans i' = <[d := set_tx q (tx c ++ take k buf) c]> (chans (io s)) ∧
    (0 < r ∧ r = Z.of_nat k ∧ (k <= length buf)%nat ∨ r <= 0 ∧ k = 0%nat).
Proof.
  intros Hc. destruct (decide (buf = [])) as [->|Hne].
  - unfold send, on_chan, on_io, zoom. rewrite Hc. destruct (txq c) as [|[n| |e] q];
      (eexists _, 0%nat, _, _; split; [reflexivity|]; split; [by destruct (io s)|]; split; [cbn [take]; rewrite ?app_nil_r; by destruct (io s)|right; split; done]).
  - destruct (send_left d buf c s Hc) as (r & k & q & [o i'] & Hv & Hs & Hw & Hch & Hk & Hr & _).
    { destruct buf; [done|rewrite zlen_cons; pose proof (zlen_nonneg buf); lia]. }
    cbn [self io] in *. subst o. exists r, k, q, i'. split_and!; try done. destruct Hr; [left|right]; intuition.
Qed.

(** The state after [n] bytes of the queue were sent. *)
Lemma rep_sent s c r base f u q n i' :
  rep 0 s c r base f u → wakes i' = wakes (io s) → 0 <= n <= zlen (mjoin (queue (sess (self s)))) →
  chans i' = <[d := set_tx q (tx c ++ take (Z.to_nat n) (mjoin (queue (sess (self s))))) c]> (chans (io s)) →
  inv n (St (self s) i') ∧ after 0 s (St (self s) i').
Proof.
  intros R Hw Hn Hch. pose proof R as [Rfd Rnode Rc Rb Rr Rm (up & Ht & Hr) Rk Rw Rf Rl Re]. split.
  - exists (set_tx q (tx c ++ take (Z.to_nat n) (mjoin (queue (sess (self s))))) c), r, base, f, u.
    split; cbn [self io]; try done.
    + rewrite Hch. apply lookup_insert_eq.
    + exists up. cbn [tx set_tx]. rewrite Ht, take_0, app_nil_r, <- app_assoc. done.
  - split; [done|done|]. unfold session_fuel. cbn [self io]. rewrite Hch, Rfd, lookup_insert_eq, Rc, Hw.
    destruct c. cbn -[list_sum]. lia.
Qed.

Lemma prefix_join {A} k (q : list (list A)) : mjoin (take k q) `prefix_of` mjoin q.
Proof. exists (mjoin (drop k q)). by rewrite <- join_app, take_drop. Qed.

(** What was sent leaves the queue, and the window opens. *)
Lemma free_sent n s :
  inv n s → 0 < n →
  ∃ s', (upd_sess (λ self, set_queue (pbuf_free_header (queue self) n) self);;
         self ← get_sess; when (pcb self) (tcp_recved n);; mret 1) s = Val 1 s' ∧
    inv 0 s' ∧ wakes (io s') = wakes (io s) ∧ refused (lw (self s')) = refused (lw (self s)) ∧
    (session_fuel s' < session_fuel s)%nat.
Proof.
  intros (c & r & base & f & u & R) Hn.
  pose proof R as [Rfd Rnode Rc Rb Rr Rm (up & Ht & Hr) Rk [Hq Hw] Rf Rl Re]. destruct s as [[o l t] i].
  cbn [self sess lw io tunnel] in *.
  assert (u16 n = n) as Hu by (apply Z.mod_small; lia).
  assert (mjoin (pbuf_free_header (queue o) n) = drop (Z.to_nat n) (mjoin (queue o))) as Hj.
  { unfold pbuf_free_header. rewrite Hu. apply mjoin_free_header. lia. }
  eexists. split.
  { unfold get_sess, upd_sess. mstep. cbn [self sess set_sess set_queue pcb lw tunnel].
    unfold when, tcp_recved, upd_lw. instantiate (1 := St (Session (set_queue (pbuf_free_header (queue o) n) o)
      (if pcb o then set_rcv_wnd (rcv_wnd l + u16 n) l else l) t) i). by destruct (pcb o). }
  split; [|split; [done|split; [by destruct (pcb o)|]]].
  - exists c, r, base, f, u. split; cbn [self sess lw io tunnel set_queue queue node buffer pcb stcp]; try done.
    + exists (up ++ take (Z.to_nat n) (mjoin (queue o))). rewrite Hj, take_0, app_nil_r. split; [done|].
      rewrite <- app_assoc, take_drop. by destruct (pcb o).
    + rewrite Hj, zlen_drop by lia. lia.
    + rewrite Hj, zlen_drop by lia. split; [lia|]. intros Hp. specialize (Hw Hp). rewrite Hp. cbn. rewrite Hu. lia.
    + destruct (pcb o); [|done]. inversion Rf; econstructor; done.
    + by destruct (pcb o).
  - unfold session_fuel. cbn -[list_sum pbuf_free_header mjoin]. rewrite Hj, length_drop. destruct (pcb o);
      cbn -[list_sum mjoin]; unfold zlen in *; lia.
Qed.

Definition step_result (r : Z) : Prop := r = -1 ∨ r = 0 ∨ r = 1.

Lemma splice_f_spec s :
  inv 0 s →
  ∃ r s', tcp_splice_f s = Val r s' ∧ inv 0 s' ∧ after 0 s s' ∧ step_result r ∧
    (r = 1 → (session_fuel s' < session_fuel s)%nat).
Proof.
  intros (c & r & base & f & u & R). pose proof R as [Rfd _ Rc _ _ _ _ _ _ _ _ _].
  unfold tcp_splice_f, get_sess, get_base. mstep. rewrite Rfd.
  destruct (queue (sess (self s))) as [|b q] eqn:Hq.
  - cbn [take zlen length]. change (truthy (zlen [])) with false. cbv iota. destruct (pcb_eof _); cbn [Z.ltb Z.compare].
    + unfold shutdown, on_chan, on_io, zoom. mstep. rewrite Rc.
      eexists _, _. split; [reflexivity|]. split; [|split; [split; [by destruct s as [? []]|done|]|split; [by left|done]]].
      * exists (set_shut true c), r, base, f, u. destruct R as [? ? ? ? ? ? ? ? ? ? ? ?]. destruct s as [o i].
        split; try done; [destruct i; apply lookup_insert_eq|by destruct c..].
      * unfold session_fuel. destruct s as [o i]. cbn [self io] in *. rewrite Rfd. unfold put_chan.
        replace (chans (set_chans (<[d:=set_shut true c]> (chans i)) i)) with (<[d:=set_shut true c]> (chans i)) by (by destruct i).
        rewrite lookup_insert_eq, Rc. destruct c, i. cbn -[list_sum]. lia.
    + exists 0, s. split; [done|]. split; [by exists c, r, base, f, u|]. split; [apply after_refl|]. split; [by right; left|done].
  - assert (truthy (zlen (take 64 (b :: q))) = true) as ->.
    { apply truthy_ne. cbn [take]. rewrite zlen_cons. pose proof (zlen_nonneg (take 63 q)). lia. }
    destruct (send_part (mjoin (take 64 (b :: q))) c s Rc) as (n & k & tq & i' & -> & Hw & Hch & Hn). cbv beta iota.
    destruct (prefix_join 64 (b :: q)) as [z Hz]. rewrite <- Hq in Hz at 1.
    assert (take k (mjoin (take 64 (b :: q))) = take (Z.to_nat (Z.of_nat k)) (mjoin (queue (sess (self s))))) as Htk.
    { rewrite Nat2Z.id, Hz. rewrite take_app_le; [done|]. destruct Hn as [(_ & _ & ?)|[_ ->]]; lia. }
    rewrite Htk in Hch.
    destruct (rep_sent s c r base f u tq (Z.of_nat k) i' R Hw) as [Hi1 Ha1]; [|done|].
    { rewrite Hz, zlen_app. pose proof (zlen_nonneg z). unfold zlen. destruct Hn as [(_ & _ & ?)|[_ ->]]; lia. }
    destruct (Z.leb_spec n 0) as [Hle|Hpos].
    + destruct Hn as [?|[_ ->]]; [lia|]. eexists _, _. split; [reflexivity|]. split; [done|]. split; [done|].
      destruct (_ && _); split; try done; [by right; left|by left].
    + destruct Hn as [(_ & -> & _)|?]; [|lia].
      destruct (callbacks_spec _ _ Hi1) as (s2 & Hs2 & Hi2 & Ha2 & _). unfold hev_task_mutex_lock. rewrite Hs2.
      destruct (free_sent _ _ Hi2 Hpos) as (s3 & Hs3 & Hi3 & Hw3 & Hr3 & Hf3). exists 1, s3.
      split; [exact Hs3|]. split; [done|]. pose proof (after_trans _ _ _ _ _ Ha1 Ha2) as [Hw4 Hr4 Hf4].
      split; [split; [congruence|congruence|lia]|]. split; [by right; right|]. lia.
Qed.

(** ** From the server *)

Lemma scatter_nil dat iov : scatter dat iov [] = dat.
Proof. induction iov as [|v iov IH]; [done|]. cbn [scatter]. by rewrite take_nil, drop_nil, overwrite_nil. Qed.

Lemma inside_true r iov : zlen (data r) = max_size r → Forall (iov_ok (max_size r)) iov → inside r iov = true.
Proof.
  intros Hl. unfold inside. induction 1 as [|v iov (H1 & H2 & H3) _ IH]; [done|]. cbn [forallb]. rewrite <- Hl in H3.
  rewrite IH, andb_true_r. by rewrite !andb_true_iff, !Z.leb_le.
Qed.

Lemma flow_fill r base f u bs rest p l :
  flow r base f u (bs ++ rest) p l → refused l = false → flow (ring_write bs r) base f (u ++ bs) rest p l.
Proof.
  intros F Hrf. destruct F as [l _ Hrefs Hh HS|l t' Hrf' _ _ _|l Hrefs Hp HS].
  - apply flow_exact; try done. by rewrite HS, <- app_assoc.
  - congruence.
  - by apply flow_dead.
Qed.

(** The bytes that were read are in the buffer. *)
Lemma write_finish_ring r base f u bs :
  ring_rep r base f u → zlen bs <= iov_total (hev_ring_buffer_writing r) →
  hev_ring_buffer_write_finish (zlen bs) (Ring (rp r) (wp r) (rda_size r) (use_size r) (max_size r)
    (scatter (data r) (hev_ring_buffer_writing r) bs)) = ring_write bs r ∧ ring_rep (ring_write bs r) base f (u ++ bs).
Proof.
  intros R Hb. split.
  - unfold ring_write. by rewrite (take_ge bs) by (unfold zlen in *; lia).
  - pose proof (ring_write_rep _ _ _ _ bs R) as R'. rewrite (writing_total _ _ _ _ R) in Hb.
    by rewrite (take_ge bs) in R' by (unfold zlen in *; lia).
Qed.

Lemma rda_write bs r base f u : ring_rep r base f u → ring_rep (ring_write bs r) base f (u ++ bs) →
  Z.to_nat (rda_size (ring_write bs r)) = (Z.to_nat (rda_size r) + length bs)%nat.
Proof. intros R R'. rewrite (rr_rda _ _ _ _ R), (rr_rda _ _ _ _ R'). rewrite zlen_app. unfold zlen. lia. Qed.

Lemma read_server_spec s :
  inv 0 s → refused (lw (self s)) = false →
  ∃ r s', read_server d s = Val r s' ∧ inv 0 s' ∧ after 0 s s' ∧
    step_result r ∧ (r = 1 → ∃ n, unread_size s' = Some n ∧ 0 < n).
Proof.
  intros (c & r & base & f & u & R) Hrf. pose proof R as [Rfd Rnode Rc Rb Rr Rm Ru Rk Rw Rf Rl Re].
  pose proof (writing_inside _ _ _ _ Rr) as Hin. pose proof (writing_total _ _ _ _ Rr) as Htot.
  unfold read_server, readv, get_buffer, get_sess, of_option. mstep. rewrite Rb.
  destruct (hev_ring_buffer_writing r) as [|v iov] eqn:Hwr.
  { exists 0, s. split; [done|]. split; [by exists c, r, base, f, u|]. split; [apply after_refl|split; [by right; left|done]]. }
  rewrite truthy_ne by (rewrite zlen_cons; pose proof (zlen_nonneg iov); lia). rewrite Rb.
  rewrite inside_true by (try done; apply Rr). cbn [negb].
  assert (0 < iov_total (v :: iov)) as Hpos.
  { revert Hwr. unfold hev_ring_buffer_writing. rewrite Htot. destruct (Z.eqb_spec (use_size r) (max_size r)); [done|].
    rewrite (rr_use _ _ _ _ Rr) in *. pose proof (rr_fit _ _ _ _ Rr). lia. }
  destruct (recv_left d (iov_total (v :: iov)) c s Rc Hpos)
    as (n & bs & q & [o i'] & -> & Hs & Hw & Hch & Hst & Hlen & Hn & _). cbn [self io] in *. subst o. mstep. cbn [self].
  rewrite Rb. unfold put_buffer, upd_sess. mstep. cbn [self io].
  destruct s as [[o l t] i]. cbn [self io sess lw tunnel set_sess] in *.
  destruct (Z.leb_spec n 0) as [Hle|Hgt].
  - destruct Hn as [?|[_ ->]]; [lia|]. rewrite scatter_nil. eexists _, _. split; [reflexivity|].
    replace (Ring (rp r) (wp r) (rda_size r) (use_size r) (max_size r) (data r)) with r by (by destruct r).
    split; [|split; [|split]].
    + exists (set_rxq q c), r, base, f, u. split; cbn [self io sess lw tunnel set_buffer node buffer queue pcb stcp]; try done.
      * rewrite Hch. apply lookup_insert_eq.
      * rewrite Hst in Rf. by destruct c.
    + split; [done|done|]. unfold session_fuel. cbn -[list_sum]. cbn in Rfd. rewrite Rfd, Hch, lookup_insert_eq, Rc, Rb, Hw.
      rewrite Hst. destruct c. cbn -[list_sum]. lia.
    + destruct (_ && _); [by right; left|by left].
    + by destruct (_ && _).
  - destruct Hn as [[_ ->]|?]; [|lia]. rewrite <- Hwr in Hlen |- *.
    destruct (write_finish_ring _ _ _ _ bs Rr Hlen) as [Hfin Rr'].
    cbn [buffer set_buffer sess set_sess self]. mstep. rewrite Hfin.
    eexists _, _. split; [reflexivity|]. split; [|split; [|split; [by right; right|]]].
    + exists (set_rxq q c), (ring_write bs r), base, f, (u ++ bs).
      split; cbn [self io sess lw tunnel set_buffer node buffer queue pcb stcp]; try done.
      * rewrite Hch. apply lookup_insert_eq.
      * rewrite Hst in Rf. apply flow_fill; [by destruct c|done].
    + split; [done|done|]. unfold session_fuel. cbn -[list_sum ring_write Z.to_nat]. cbn in Rfd.
      rewrite Rfd, Hch, lookup_insert_eq, Rc, Rb, Hw, Hst, (rda_write _ _ _ _ _ Rr Rr'), length_app.
      destruct c. cbn -[list_sum Z.to_nat]. lia.
    + intros _. eexists. split; [reflexivity|]. rewrite (rr_rda _ _ _ _ Rr'), zlen_app. pose proof (zlen_nonneg u). lia.
Qed.

(** ** To the stack *)

(** The stack's side after writes: the answers that are left, the cells and bytes it
    took, and the errors. *)
Definition wrote (an : list Z) (cs : list Z) (bs : bytes) (e : Z) (l : lwip) : lwip :=
  Lwip (events l) an (rcv_wnd l) (refs l ++ cs) (handed l ++ bs) (acked l) (received l)
    (refused l || negb (e =? 0)) (tx_closed l).

Lemma wrote_wrote an1 an2 cs1 cs2 bs1 bs2 e1 e2 l :
  wrote an2 cs2 bs2 e2 (wrote an1 cs1 bs1 e1 l) = wrote an2 (cs1 ++ cs2) (bs1 ++ bs2) (Z.lor e1 e2) l.
Proof.
  unfold wrote. cbn. f_equal; [by rewrite <- app_assoc|by rewrite <- app_assoc|].
  rewrite <- orb_assoc, <- negb_andb. do 2 f_equal.
  destruct (Z.eqb_spec (Z.lor e1 e2) 0) as [[-> ->]%Z.lor_eq_0_iff|Hne]; [done|].
  destruct (Z.eqb_spec e1 0) as [->|], (Z.eqb_spec e2 0) as [->|]; done.
Qed.

Lemma cells_readable (dat : bytes) cs : Forall (λ c, 0 <= c < zlen dat) cs → ∃ bs, mapM (zget dat) cs = Some bs.
Proof.
  intros Hc. apply mapM_is_Some. eapply Forall_impl; [exact Hc|]. intros c ?. by apply zget_is_Some.
Qed.

Lemma tcp_write_spec off len s r :
  buffer (sess (self s)) = Some r → zlen (data r) <= 65535 → iov_ok (zlen (data r)) (Iov off len) →
  ∃ e cs bs an, tcp_write off len s = Val e (St (set_lw (wrote an cs bs e (lw (self s))) (self s)) (io s)) ∧
    Forall2 (λ c b, zget (data r) c = Some b) cs bs ∧ zlen cs <= len ∧ (e = 0 → cs = seqZ off len).
Proof.
  intros Hb Hmax Hok. pose proof Hok as (H1 & H2 & H3). cbn [iov_off iov_len] in *.
  unfold tcp_write. assert (u16 len = len) as -> by (apply Z.mod_small; lia).
  destruct (cells_readable (data r) (seqZ off len)) as [bs Hbs].
  { apply Forall_forall. intros x Hx%elem_of_seqZ. lia. }
  assert (∀ an i o, buffer (sess o) = Some r → ∃ cs bs', (
      r ← get_buffer;
      bs ← of_option (mapM (zget (data r)) (seqZ off len));
      upd_lw (λ l, set_handed (handed l ++ bs) (set_refs (refs l ++ seqZ off len) l));; mret 0)
      (St (set_lw (set_answers an (lw o)) o) i) = Val 0 (St (set_lw (wrote an cs bs' 0 (lw o)) o) i) ∧
      Forall2 (λ c b, zget (data r) c = Some b) cs bs' ∧ zlen cs <= len ∧ cs = seqZ off len) as Hwrite.
  { intros an i o Ho. exists (seqZ off len), bs. split.
    - unfold get_buffer, get_sess, upd_lw, of_option. mstep. cbn [self sess set_lw]. rewrite Ho. mstep. rewrite Hbs. cbn.
      unfold wrote. by rewrite orb_false_r.
    - split; [by apply mapM_Some|]. split; [|done]. unfold zlen. rewrite length_seqZ. lia. }
  unfold answer, get_lw, upd_lw. mstep. destruct s as [o i]. cbn [self io] in *.
  destruct (answers (lw o)) as [|e an] eqn:Han.
  - cbn [Z.eqb ERR_OK]. destruct (Hwrite [] i o Hb) as (cs & bs' & Hv & Hrd & Hl & Hcs).
    exists 0, cs, bs', []. split; [|done]. rewrite <- Hv.
    replace (set_lw (set_answers [] (lw o)) o) with o; [done|]. destruct o as [? [] ?]. cbn in Han. by subst.
  - destruct (Z.eqb_spec e ERR_OK) as [->|Hne].
    + destruct (Hwrite an i o Hb) as (cs & bs' & Hv & Hrd & Hl & Hcs). exists 0, cs, bs', an. split; [|done]. rewrite <- Hv. done.
    + exists e, [], [], an. split; [|split; [constructor|split; [done|done]]].
      do 2 f_equal. unfold wrote, set_lw. cbn. rewrite !app_nil_r. destruct (Z.eqb_spec e 0); [done|].
      by rewrite orb_true_r.
Qed.

Lemma tcp_writes_spec iov e0 s0 s r :
  buffer (sess (self s)) = Some r → zlen (data r) <= 65535 → Forall (iov_ok (zlen (data r))) iov →
  0 <= s0 → s0 + iov_total iov < 18446744073709551616 →
  ∃ e cs bs an,
    tcp_writes iov e0 s0 s = Val (Z.lor e0 e, s0 + iov_total iov) (St (set_lw (wrote an cs bs e (lw (self s))) (self s)) (io s)) ∧
    Forall2 (λ c b, zget (data r) c = Some b) cs bs ∧ zlen cs <= iov_total iov ∧ (e = 0 → cs = iov_cells iov).
Proof.
  intros Hb Hmax Hok. revert e0 s0 s Hb. induction Hok as [|v iov Hv Hok IH]; intros e0 s0 s Hb Hs0 Hs.
  - exists 0, [], [], (answers (lw (self s))). split; [|done]. cbn. rewrite Z.lor_0_r, Z.add_0_r. do 2 f_equal.
    destruct s as [[o [] t] i]. cbn. unfold wrote, set_lw. cbn. by rewrite !app_nil_r, orb_false_r.
  - cbn [tcp_writes]. destruct v as [off len].
    destruct (tcp_write_spec off len s r Hb Hmax Hv) as (e & cs & bs & an & Hw & Hrd & Hl & Hcs).
    assert (0 <= len ∧ 0 <= iov_total iov) as [Hl0 Hl1].
    { split; [by destruct Hv as (? & ? & ?)|]. clear -Hok. induction Hok as [|v iov (? & ? & ?) _ IH]; cbn; [done|]. fold (iov_total iov). lia. }
    cbn [iov_total foldr iov_len] in Hs. fold (iov_total iov) in Hs.
    assert (u64 (s0 + len) = s0 + len) as Hu by (apply u64_small; lia).
    destruct (IH (Z.lor e0 e) (s0 + len) (St (set_lw (wrote an cs bs e (lw (self s))) (self s)) (io s)))
      as (e2 & cs2 & bs2 & an2 & Hw2 & Hrd2 & Hl2 & Hcs2); [done|lia|lia|].
    exists (Z.lor e e2), (cs ++ cs2), (bs ++ bs2), an2. split; [|split; [|split]].
    + erewrite bind_val by exact Hw. cbn [iov_len]. rewrite Hu, Hw2. cbn [iov_total foldr iov_len]. fold (iov_total iov).
      rewrite Z.lor_assoc, Z.add_assoc. f_equal. f_equal. cbn [self lw set_lw sess tunnel]. unfold set_lw at 1. cbn [sess tunnel lw].
      by rewrite wrote_wrote.
    + by apply Forall2_app.
    + rewrite zlen_app. cbn [iov_total foldr iov_len]. fold (iov_total iov). lia.
    + intros [-> ->]%Z.lor_eq_0_iff. rewrite Hcs, Hcs2 by done. done.
Qed.

(** The unread bytes, as far as the stack took them, are in flight. *)
Lemma flow_write r base f u rest l an cs bs e :
  ring_rep r base f u → flow r base f u rest true l → refused l = false →
  Forall2 (λ c b, zget (data r) c = Some b) cs bs → zlen cs <= zlen u →
  (e = 0 → cs = ring_cells (max_size r) (base + zlen f) (zlen u)) →
  flow (hev_ring_buffer_read_finish (zlen u) r) base (f ++ u) [] rest true (wrote an cs bs e l).
Proof.
  intros R F Hrf Hrd Hlen Hcs. inversion F as [l' _ Hrefs Hh HS|l' t Hrf' _ _ _|]; subst l'; [|congruence].
  pose proof (ring_cells_hold _ _ _ _ R) as Hc. sizes.
  rewrite zlen_app, ring_cells_app in Hc by lia.
  apply Forall2_app_inv in Hc as [Hc1 Hc2].
  2: { pose proof (zlen_ring_cells (max_size r) base (zlen f)). unfold zlen in *. lia. }
  destruct (Z.eqb_spec e 0) as [->|Hne].
  - specialize (Hcs eq_refl). rewrite <- Hcs in Hc2.
    assert (bs = u) as -> by (eapply Forall2_unique; [exact Hrd|exact Hc2|congruence]).
    apply flow_exact; cbn [refused refs handed acked wrote max_size hev_ring_buffer_read_finish].
    + by rewrite Hrf.
    + rewrite Hrefs, zlen_app, ring_cells_app by lia. by rewrite Hcs.
    + by rewrite Hh, app_assoc.
    + by rewrite HS, <- app_assoc.
  - apply flow_refused with (f ++ bs); cbn [refused refs handed acked wrote data hev_ring_buffer_read_finish].
    + rewrite Hrf. by destruct (Z.eqb_spec e 0).
    + rewrite Hrefs, !zlen_app, zlen_ring_cells by lia. lia.
    + rewrite Hrefs. by apply Forall2_app.
    + by rewrite Hh, app_assoc.
Qed.

Lemma reading_nil r base f u : ring_rep r base f u → u ≠ [] → truthy (zlen (hev_ring_buffer_reading r)) = true.
Proof.
  intros R Hu. apply truthy_ne. intros Hz%zlen_0. destruct (reading_cells _ _ _ _ R) as (_ & _ & Ht).
  rewrite Hz in Ht. cbn in Ht. symmetry in Ht. by apply zlen_0 in Ht.
Qed.

Lemma tcp_output_spec s : ∃ e an, tcp_output s = Val e (St (set_lw (set_answers an (lw (self s))) (self s)) (io s)).
Proof.
  unfold tcp_output, answer, get_lw, upd_lw. mstep. destruct s as [[o [ev an w rf h ac rc rd tc] t] i]. cbn.
  destruct an as [|a0 an]; eauto.
Qed.

Lemma write_stack_spec res s :
  inv 0 s → pcb (sess (self s)) = true → refused (lw (self s)) = false → step_result res →
  (res = 1 → ∃ n, unread_size s = Some n ∧ 0 < n) →
  ∃ r err s', write_stack res s = Val (r, err) s' ∧ inv 0 s' ∧ wakes (io s') = wakes (io s) ∧ step_result r ∧
    pcb (sess (self s')) = true ∧ (session_fuel s' <= session_fuel s)%nat ∧
    (r = 1 → (session_fuel s' < session_fuel s)%nat) ∧ (err = 0 → refused (lw (self s')) = false).
Proof.
  intros (c & r & base & f & u & R) Hp Hrf Hres Hone. pose proof R as [Rfd Rnode Rc Rb Rr Rm Ru Rk Rw Rf Rl Re].
  rewrite Hp in Rf. destruct s as [[o l t] i]. cbn [self sess lw io tunnel] in *.
  unfold write_stack. erewrite bind_val by (unfold get_buffer, get_sess; mstep; cbn [self sess]; rewrite Rb; reflexivity).
  cbv beta zeta. destruct (decide (u = [])) as [->|Hu].
  - assert (hev_ring_buffer_reading r = []) as ->.
    { unfold hev_ring_buffer_reading. by rewrite (rr_rda _ _ _ _ Rr). }
    assert (res ≠ 1) as Hn1.
    { intros H1. destruct (Hone H1) as (n & Hn & Hpos). unfold unread_size in Hn. cbn in Hn. rewrite Rb in Hn.
      cbn in Hn. rewrite (rr_rda _ _ _ _ Rr) in Hn. injection Hn as <-. done. }
    change (truthy (zlen [])) with false. cbv iota. destruct (Z.ltb_spec res 0).
    + eexists res, ERR_OK, _. split; [reflexivity|]. split.
      * exists c, r, base, f, []. split; try done. cbn [self sess lw set_lw pcb]. rewrite Hp. inversion Rf; econstructor; done.
      * split; [done|split; [done|split; [done|split; [fuel|split; [done|done]]]]].
    + eexists res, ERR_OK, _. split; [reflexivity|].
      split; [by exists c, r, base, f, []|split; [done|split; [done|split; [done|split; [lia|split; [done|done]]]]]].
  - rewrite (reading_nil _ _ _ _ Rr Hu). destruct (reading_cells _ _ _ _ Rr) as (Hcells & Hok & Htot).
    pose proof (rr_len _ _ _ _ Rr) as Hlen. rewrite <- Hlen in Hok. sizes.
    assert (zlen u <= max_size r) as Hum by (pose proof (rr_fit _ _ _ _ Rr); lia). unfold TCP_SND_BUF in Rm.
    destruct (tcp_writes_spec (hev_ring_buffer_reading r) ERR_OK 0 (St (Session o l t) i) r Rb)
      as (e & cs & bs & an & Hv & Hrd & Hl & Hcs); [lia|done|lia|lia|].
    rewrite Htot, Z.add_0_l in *. rewrite Hcells in Hcs. erewrite bind_val by exact Hv. cbv beta iota.
    erewrite bind_val by (unfold get_buffer, get_sess; mstep; cbn [self sess set_lw]; rewrite Rb; reflexivity).
    erewrite bind_val by reflexivity. cbv beta.
    set (s1 := St _ _). destruct (tcp_output_spec s1) as (e1 & an1 & Hout).
    erewrite bind_val by exact Hout. cbv beta.
    eexists 1, _, _. split; [reflexivity|]. split; [|split; [done|split; [by right; right|split; [done|]]]].
    + exists c, (hev_ring_buffer_read_finish (zlen u) r), base, (f ++ u), [].
      split; cbn [self sess lw io tunnel s1 set_lw set_sess set_buffer node buffer queue pcb stcp]; try done.
      * apply read_finish_rep. by rewrite app_nil_r.
      * rewrite Hp. eapply (flow_write _ _ _ _ _ _ an1) in Hrd; [|done|done|done|done|done].
        inversion Hrd; econstructor; done.
    + assert (session_fuel (St (set_lw (set_answers an1 (lw (self s1))) (self s1)) (io s1)) < session_fuel (St (Session o l t) i))%nat.
      { unfold session_fuel, s1. cbn -[list_sum Z.to_nat hev_ring_buffer_read_finish]. rewrite Rb.
        cbn -[list_sum Z.to_nat]. rewrite (rr_rda _ _ _ _ Rr), Z.sub_diag.
        assert (0 < length u)%nat by (destruct u; [done|cbn; lia]). change (Z.to_nat (u64 0)) with 0%nat.
        unfold zlen. rewrite Nat2Z.id. lia. }
      split; [lia|split; [done|]]. intros [He _]%Z.lor_eq_0_iff. apply Z.lor_eq_0_iff in He as [_ ->]. cbn. by rewrite Hrf.
Qed.

Lemma splice_b_spec s :
  inv 0 s → refused (lw (self s)) = false →
  ∃ r s', tcp_splice_b s = Val r s' ∧ inv 0 s' ∧ wakes (io s') = wakes (io s) ∧ step_result r ∧
    (session_fuel s' <= session_fuel s)%nat ∧ (r = 1 → (session_fuel s' < session_fuel s)%nat) ∧
    (refused (lw (self s')) = true → r = -1).
Proof.
  intros Hi Hrf. pose proof Hi as (c & r & base & f & u & R). pose proof (re_fd _ _ _ _ _ _ _ R) as Hfd.
  unfold tcp_splice_b. unfold get_base. erewrite bind_val by reflexivity. rewrite Hfd.
  destruct (read_server_spec s Hi Hrf) as (r1 & s1 & H1 & Hi1 & [Hw1 Hr1 Hf1] & Hres & Hone).
  erewrite bind_val by exact H1.
  destruct (callbacks_spec _ _ Hi1) as (s2 & H2 & Hi2 & [Hw2 Hr2 Hf2] & Hu2).
  unfold hev_task_mutex_lock. erewrite bind_val by exact H2. unfold get_sess. erewrite bind_val by reflexivity. cbv beta.
  assert (refused (lw (self s2)) = false) as Hrf2 by congruence.
  destruct (pcb (sess (self s2))) eqn:Hp.
  - destruct (write_stack_spec r1 s2 Hi2 Hp Hrf2 Hres) as (r3 & err & s3 & H3 & Hi3 & Hw3 & Hres3 & Hp3 & Hf3 & Hlt & Hrf3).
    { intros H. rewrite Hu2. auto. }
    erewrite bind_val by exact H3. cbv beta iota. erewrite bind_val by reflexivity. rewrite Hp3. cbn [negb orb].
    destruct (Z.eqb_spec err ERR_OK) as [He|He]; eexists _, s3; (split; [reflexivity|]; split; [done|]; split; [congruence|]).
    + split; [done|]. split; [lia|]. split; [intros; specialize (Hlt ltac:(done)); lia|]. intros H. rewrite Hrf3 in H; done.
    + split; [by left|]. split; [lia|]. done.
  - erewrite bind_val by reflexivity. cbv beta iota. erewrite bind_val by reflexivity. rewrite Hp. cbn [negb orb].
    eexists _, s2. split; [reflexivity|]. split; [done|]. split; [congruence|]. split; [by left|]. split; [lia|]. done.
Qed.

(** ** Rounds *)

Context (max : Z).

(** The session becomes the one that was active last. *)
Lemma update_spec t :
  listed t → ∃ t', hev_socks5_tunnel_update_session max a t = Val tt t' ∧ listed t'.
Proof.
  intros (xs & ys & Hl). unfold hev_socks5_tunnel_update_session. destruct (negb (truthy max)).
  { exists t. split; [done|]. by exists xs, ys. }
  destruct (list_touch_spec _ _ _ _ Hl) as (t1 & t2 & H1 & H2 & Hr & _).
  unfold on_set. mstep. rewrite H1. cbn [session_set session_count timeouts wakeups]. rewrite H2.
  eexists. split; [done|]. exists (xs ++ ys), []. by rewrite <- app_assoc.
Qed.

Lemma inv_wakes k s w : inv k s → inv k (St (self s) (set_wakes w (io s))).
Proof.
  intros (c & r & base & f & u & R). exists c, r, base, f, u. destruct R. split; try done.
Qed.

Lemma yielder_result type (s s' : st session) r :
  hev_socks5_task_io_yielder type s = Val r s' → r = 0 ∨ r = -1.
Proof.
  unfold hev_socks5_task_io_yielder, get_base, hev_task_yield, hev_task_sleep, on_io. destruct type; mstep; [naive_solver|].
  repeat case_match; naive_solver.
Qed.

(** After the base yielder: the callbacks and the update of the list. *)
Lemma after_yield r s :
  inv 0 s →
  ∃ s', (callbacks;; self ← get_sess;
         zoom (λ s, tunnel (TaskIO.self s)) (λ t s, St (set_tunnel t (TaskIO.self s)) (io s))
           (hev_socks5_tunnel_update_session max (node self));; mret r : M (st session) Z) s = Val r s' ∧ inv 0 s' ∧ after 0 s s'.
Proof.
  intros Hi. destruct (callbacks_spec _ _ Hi) as (s1 & H1 & (c & r1 & base & f & u & R) & Ha & _).
  pose proof R as [? Rnode ? ? ? ? ? ? ? ? Rl ?]. destruct (update_spec _ Rl) as (t' & Ht & Hl').
  eexists. split; [|split].
  - erewrite bind_val by exact H1. unfold get_sess. erewrite bind_val by reflexivity. rewrite Rnode.
    erewrite bind_val by (unfold zoom; rewrite Ht; reflexivity). reflexivity.
  - exists c, r1, base, f, u. destruct s1 as [[o l t] i]. by split.
  - destruct Ha as [Hw Hr Hf]. split; [done|done|]. etrans; [|exact Hf]. fuel.
Qed.

Lemma task_yield s : inv 0 s → ∃ s', task_io_yielder max HEV_TASK_YIELD s = Val 0 s' ∧ inv 0 s' ∧ after 0 s s'.
Proof.
  intros Hi. destruct (after_yield 0 s Hi) as (s' & Hs' & ?). exists s'. split; [|done]. rewrite <- Hs'.
  unfold task_io_yielder. erewrite bind_val; [reflexivity|]. by destruct s.
Qed.

Lemma fuel_wakes s w : (length w < length (wakes (io s)) → session_fuel (St (self s) (set_wakes w (io s))) < session_fuel s)%nat.
Proof. intros Hw. destruct s as [o i]. unfold session_fuel. destruct i. cbn -[list_sum] in *. lia. Qed.

Lemma task_wait s :
  inv 0 s →
  task_io_yielder max HEV_TASK_WAITIO s = Blocked s ∨
  ∃ r s', task_io_yielder max HEV_TASK_WAITIO s = Val r s' ∧ inv 0 s' ∧ refused (lw (self s')) = refused (lw (self s)) ∧
    (r < 0 ∨ (session_fuel s' < session_fuel s)%nat ∧ (length (wakes (io s')) < length (wakes (io s)))%nat).
Proof.
  intros Hi. unfold task_io_yielder. destruct (yielder_waits s) as [Hy|(r & w & Hy & Hr)].
  { left. unfold mbind, M_bind. by rewrite Hy. }
  right. pose proof (yielder_result _ _ _ _ Hy) as Hr01.
  destruct (after_yield r _ (inv_wakes 0 s w Hi)) as (s' & Hs' & Hi' & [Hw Hrf Hf]).
  exists r, s'. erewrite bind_val by exact Hy. split; [exact Hs'|split; [done|split; [done|]]].
  destruct Hr01 as [->| ->]; [right|left; lia]. specialize (Hr eq_refl). pose proof (fuel_wakes s w Hr).
  rewrite Hw. cbn [io]. split; [lia|]. by destruct (io s).
Qed.

Lemma rounds_spec fuel rf rb s :
  inv 0 s → (session_fuel s < fuel)%nat → step_result rf → step_result rb → (refused (lw (self s)) = true → rb = -1) →
  Prelude.wp (splice_rounds max fuel rf rb) (λ _ s', inv 0 s') (inv 0) s.
Proof.
  revert rf rb s. induction fuel as [|fuel IH]; intros rf rb s Hi Hfuel Hrf Hrb Href; [lia|]. cbn [splice_rounds].
  assert (∃ rf1 s1, (if 0 <=? rf then tcp_splice_f else mret rf) s = Val rf1 s1 ∧ inv 0 s1 ∧ after 0 s s1 ∧
    step_result rf1 ∧ (rf1 = 1 → (session_fuel s1 < session_fuel s)%nat)) as (rf1 & s1 & H1 & Hi1 & [Hw1 Hr1 Hf1] & Hrf1 & Hlt1).
  { destruct (Z.leb_spec 0 rf); [by apply splice_f_spec|]. exists rf, s. split; [done|].
    split; [done|]. split; [apply after_refl|]. split; [done|lia]. }
  eapply wp_bind_val; [exact H1|].
  assert (∃ rb1 s2, (if 0 <=? rb then tcp_splice_b else mret rb) s1 = Val rb1 s2 ∧ inv 0 s2 ∧
    step_result rb1 ∧ (session_fuel s2 <= session_fuel s1)%nat ∧ (rb1 = 1 → (session_fuel s2 < session_fuel s1)%nat) ∧
    (refused (lw (self s2)) = true → rb1 = -1)) as (rb1 & s2 & H2 & Hi2 & Hrb1 & Hf2 & Hlt2 & Href2).
  { destruct (Z.leb_spec 0 rb).
    - destruct (splice_b_spec s1 Hi1) as (r & s' & ? & ? & ? & ? & ? & ? & ?); [|by exists r, s'].
      rewrite Hr1. destruct (refused _); [|done]. specialize (Href eq_refl). lia.
    - exists rb, s1. split; [done|]. split; [done|]. split; [done|]. split; [lia|]. split; [lia|]. by rewrite Hr1. }
  eapply wp_bind_val; [exact H2|]. fold (next_yield rf1 rb1).
  destruct (next_yield_spec rf1 rb1 Hrf1 Hrb1) as [[-> Hor]|[[-> _]|[-> _]]]; [| |done].
  - destruct (task_yield s2 Hi2) as (s3 & H3 & Hi3 & [Hw3 Hr3 Hf3]). eapply wp_bind_val; [exact H3|]. cbn [Z.ltb Z.compare].
    apply IH; try done; [|by rewrite Hr3]. unfold step_result in *. lia.
  - destruct (task_wait s2 Hi2) as [H3|(r & s3 & H3 & Hi3 & Hr3 & Hlt)].
    { unfold Prelude.wp, mbind, M_bind. by rewrite H3. }
    eapply wp_bind_val; [exact H3|]. destruct (Z.ltb_spec r 0); [done|].
    apply IH; try done; [lia|by rewrite Hr3].
Qed.

Lemma drain_spec fuel s :
  inv 0 s → (length (wakes (io s)) < fuel)%nat → Prelude.wp (drain max fuel) (λ _ s', inv 0 s') (inv 0) s.
Proof.
  revert s. induction fuel as [|fuel IH]; intros s Hi Hfuel; [lia|]. cbn [drain].
  pose proof Hi as (c & r & base & f & u & R). unfold get_sess. eapply wp_bind_val; [reflexivity|].
  destruct (pcb _); [|done]. unfold get_buffer, get_sess.
  eapply wp_bind_val; [mstep; rewrite (re_buf _ _ _ _ _ _ _ R); reflexivity|]. cbv beta.
  destruct (_ =? 0); [done|].
  destruct (task_wait s Hi) as [H3|(r3 & s3 & H3 & Hi3 & _ & Hlt)].
  { unfold Prelude.wp, mbind, M_bind. by rewrite H3. }
  eapply wp_bind_val; [exact H3|]. destruct (Z.ltb_spec r3 0); [done|]. apply IH; [done|lia].
Qed.
End Relay.

(** ** The relay *)

(** A session whose connections are open: the stack is alive, within its window of
    [W] bytes, refers to nothing and has been handed nothing yet; what it received
    waits in the queue, and nothing of it was sent. *)
Record session_ready (d a W : Z) (c : chan) (s : st session) : Prop := {
  sn_fd : fd (base (self s)) = d;
  sn_node : node (sess (self s)) = a;
  sn_chan : chans (io s) !! d = Some c;
  sn_pcb : pcb (sess (self s)) = true;
  sn_queue : received (lw (self s)) = mjoin (queue (sess (self s)));
  sn_wnd : 0 <= rcv_wnd (lw (self s)) ∧ rcv_wnd (lw (self s)) + zlen (mjoin (queue (sess (self s)))) = W ∧ W <= 65535;
  sn_lw : refs (lw (self s)) = [] ∧ handed (lw (self s)) = [] ∧ acked (lw (self s)) = [] ∧ refused (lw (self s)) = false;
  sn_list : listed a (tunnel (self s));
  sn_events : Forall (Forall (event_ok a)) (events (lw (self s)))
}.

(** What holds whenever the session waits, and when it ends; [c] is the server's
    descriptor at the start. *)
Definition relayed_so_far (d W : Z) (c : chan) (s : st session) : Prop :=
  let o := sess (self s) in
  let l := lw (self s) in
  ∃ c' r up,
    chans (io s) !! d = Some c' ∧ buffer o = Some r ∧
    (* to the server: all that the stack received, in order, sent or waiting *)
    tx c' = tx c ++ up ∧ received l = up ++ mjoin (queue o) ∧
    (pcb o = true → rcv_wnd l = W - zlen (mjoin (queue o))) ∧
    (* from the server: what is in flight is still in place *)
    acked l `prefix_of` handed l ∧
    (pcb o = true → ∃ t, mapM (zget (data r)) (refs l) = Some t ∧ handed l = acked l ++ t) ∧
    (* and in order, unless the stack refused a write *)
    (refused l = false → handed l `prefix_of` stream (rxq c)).

Lemma inv_relayed d a W c s : inv d a W (stream (rxq c)) (tx c) 0 s → relayed_so_far d W c s.
Proof.
  intros (c' & r & base & f & u & [Rfd Rnode Rc Rb Rr Rm (up & Ht & Hr) Rk [Hq Hw] Rf Rl Re]).
  exists c', r, up. rewrite take_0, app_nil_r in Ht. split; [done|split; [done|split; [done|split; [done|split]]]].
  { intros Hp. specialize (Hw Hp). lia. }
  destruct (pcb (sess (self s))) eqn:Hp.
  - destruct (flow_refs _ _ _ _ _ _ _ Rr Rf) as (t & Hrd & Hh & _). split; [by exists t|]. split.
    + intros _. exists t. split; [by apply mapM_Some|done].
    + intros Hrf. inversion Rf as [l' _ _ _ HS|l' t' Hrf' _ _ _|]; subst l'; [by eexists|congruence].
  - inversion Rf as [| |l' _ Hpre HS]; subst l'. split; [done|]. split; [done|]. done.
Qed.

(** C25: a TCP session relays faithfully, whatever happens: for every sequence of
    callbacks in between (data and the end from the stack, acknowledgements, errors,
    other sessions and termination), every outcome of the reads and writes, every
    answer of the stack and every order of them, the session's code never gets stuck -
    its rounds and its last wait end, or it waits for ever, and no access is out of the
    ring buffer - and at any time it waits, and when it ends: what was sent to the
    server and what waits in the queue is exactly what the stack received, in order,
    and the window is opened by exactly what was sent; the bytes the stack was given by
    reference are the bytes at these places of the ring buffer until they are
    acknowledged, although the buffer is reused; and as long as the stack refused no
    write, what it was given is a prefix of what the server sent. *)
Theorem session_relay_safe max d a W c s mem :
  session_ready d a W c s → 0 < zlen mem <= TCP_SND_BUF →
  Prelude.wp (hev_socks5_session_tcp_splice max mem)
    (λ _ s', relayed_so_far d W c s') (relayed_so_far d W c) s.
Proof.
  intros [Hfd Hnode Hc Hp Hq (Hw0 & Hw & HW) (Hrefs & Hh & Ha & Hrf) Hl He] Hmem.
  unfold hev_socks5_session_tcp_splice, get_sess. eapply wp_bind_val; [reflexivity|]. rewrite Hp. cbn [negb].
  eapply wp_bind_val; [reflexivity|]. set (s1 := St _ _).
  assert (inv d a W (stream (rxq c)) (tx c) 0 s1) as Hi.
  { exists c, (hev_ring_buffer_alloca mem), 0, [], []. pose proof (zlen_nonneg (mjoin (queue (sess (self s))))).
    split; cbn [s1 self io sess lw tunnel set_sess set_buffer node buffer queue pcb stcp]; try done.
    - apply alloca_rep. unfold TCP_SND_BUF in Hmem. lia.
    - cbn. lia.
    - exists []. by rewrite app_nil_r.
    - lia.
    - rewrite Hp. apply flow_exact; [done|by rewrite Hrefs|by rewrite Hh, Ha|by rewrite Hh]. }
  eapply wp_bind_val; [reflexivity|]. apply wp_bind.
  eapply wp_mono; [apply (rounds_spec d a W (stream (rxq c)) (tx c) max); try done; try lia; try (by right; right)| |].
  - cbn. by rewrite Hrf.
  - intros [] s2 Hi2. eapply wp_bind_val; [reflexivity|].
    eapply wp_mono; [apply (drain_spec d a W (stream (rxq c)) (tx c) max); [done|lia]| |].
    + intros [] s3 Hi3. by eapply inv_relayed.
    + intros s3 Hi3. by eapply inv_relayed.
  - intros s2 Hi2. by eapply inv_relayed.
Qed.

(** A session on descriptor 5: the server sends 13 bytes in two segments; the stack
    acknowledges five bytes, then sends three, and after the rest was acknowledged the
    session is terminated. *)
Definition session0 (ans : list Z) : st session :=
  St (Session
       (SessionTCP (ClientTCP (Client (Socks5 5 (-1) HEV_SOCKS5_TYPE_TCP false 0) None None) 0) 16 [[65]; [66; 67]] true None false)
       (Lwip [[]; []; [TcpSent 5]; []; [TcpRecv [[68]]]; []; [TcpSent 6]; []; [TcpSent 9; Terminate]] ans 1000 [] [] [] [65; 66; 67] false false)
       (Sessions (ListMem 16 16 {[16 := LNode 0 0]}) 1 ∅ []))
     (World 0 [1; 1; 1; 1; 1; 1]
       {[5 := Chan [RxData 1 [2; 3; 4; 5; 6]; RxAgain; RxData 7 [8; 9; 10; 11; 12; 13]] [] [] [] [] false]}
       [] [] [] [] ∅ ∅ (Globals 1 1 1 1 1 1)).
Definition chan0 : chan := Chan [RxData 1 [2; 3; 4; 5; 6]; RxAgain; RxData 7 [8; 9; 10; 11; 12; 13]] [] [] [] [] false.

Lemma session0_ready ans : session_ready 5 16 1003 chan0 (session0 ans).
Proof.
  split; try done.
  - exists [], []. split; [done|split; [done|split; [by vm_compute|split; [|by repeat constructor]]]].
    apply NoDup_singleton.
  - cbn. repeat constructor.
Qed.

(** What is seen at the end: the bytes the stack's peer got, and the server. *)
Definition outcome_of (o : outcome (st session) unit) : option (bytes * option bytes) :=
  match o with Val _ s' => Some (acked (lw (self s')), tx <$> chans (io s') !! 5) | _ => None end.

Lemma outcome_val o a t : outcome_of o = Some (a, Some t) → ∃ s', o = Val tt s' ∧ acked (lw (self s')) = a ∧ tx <$> chans (io s') !! 5 = Some t.
Proof. destruct o as [[] s'| |]; [|done..]. intros [= <- <-]. by exists s'. Qed.

Lemma session_relay_safe_witness :
  ∃ s', hev_socks5_session_tcp_splice 0 (replicate 8 0) (session0 []) = Val tt s' ∧ relayed_so_far 5 1003 chan0 s' ∧
    acked (lw (self s')) = [1; 2; 3; 4; 5; 6; 7; 8; 9; 10; 11; 12; 13] ∧ tx <$> chans (io s') !! 5 = Some [65; 66; 67; 68].
Proof.
  pose proof (session_relay_safe 0 5 16 1003 chan0 (session0 []) (replicate 8 0)
    (session0_ready []) ltac:(split; [done|by vm_compute])) as H.
  destruct (outcome_val (hev_socks5_session_tcp_splice 0 (replicate 8 0) (session0 []))
    [1; 2; 3; 4; 5; 6; 7; 8; 9; 10; 11; 12; 13] [65; 66; 67; 68]) as (s' & Hs & Ha & Ht); [by vm_compute|].
  unfold Prelude.wp in H. rewrite Hs in H.
  exists s'. split; [exact Hs|split; [exact H|split; [exact Ha|exact Ht]]].
Defined.

(** ** A refused first segment *)

(** The second segment of a buffer that wraps around holds what comes after the first. *)
Lemma second_segment r base f u :
  ring_rep r base f u → max_size r - rp r < zlen u →
  hev_ring_buffer_reading r = [Iov (rp r) (max_size r - rp r); Iov 0 (zlen u - (max_size r - rp r))] ∧
  0 < max_size r - rp r ∧
  mapM (zget (data r)) (seqZ 0 (zlen u - (max_size r - rp r))) = Some (drop (Z.to_nat (max_size r - rp r)) u).
Proof.
  intros R Hwrap. pose proof (rr_max _ _ _ _ R). pose proof (rr_fit _ _ _ _ R). pose proof (zlen_nonneg f).
  assert (0 <= rp r < max_size r) as Hrp by (rewrite (rr_rp _ _ _ _ R); apply Z.mod_pos_bound; lia).
  assert (hev_ring_buffer_reading r = [Iov (rp r) (max_size r - rp r); Iov 0 (zlen u - (max_size r - rp r))]) as Hrd.
  { unfold hev_ring_buffer_reading. rewrite (rr_rda _ _ _ _ R), (u64_small (max_size r - rp r)) by lia.
    destruct (Z.eqb_spec 0 (zlen u)); [lia|]. destruct (Z.leb_spec (zlen u) (max_size r - rp r)); [lia|].
    by rewrite u64_small by lia. }
  split; [done|split; [lia|]]. apply mapM_Some.
  destruct (reading_cells _ _ _ _ R) as (Hcells & _ & _). pose proof (ring_cells_hold _ _ _ _ R) as Hc.
  rewrite zlen_app, ring_cells_app in Hc by (pose proof (zlen_nonneg u); lia).
  apply Forall2_app_inv in Hc as [_ Hc].
  2: { pose proof (zlen_ring_cells (max_size r) base (zlen f)). unfold zlen in *. lia. }
  rewrite <- Hcells, Hrd in Hc. unfold iov_cells in Hc. cbn in Hc. rewrite ?app_nil_r in Hc.
  apply Forall2_app_inv_l in Hc as (u1 & u2 & Hu1 & Hu2 & ->).
  apply Forall2_length in Hu1. rewrite length_seqZ in Hu1. by rewrite Hu1, drop_app_length.
Qed.

(** Two writes: the first is refused, the second taken. *)
Lemma refused_then_taken s r off1 len1 off2 len2 bs e an :
  buffer (sess (self s)) = Some r → answers (lw (self s)) = e :: ERR_OK :: an → e ≠ ERR_OK →
  0 <= len1 → 0 <= len2 <= 65535 → len1 + len2 <= 131072 →
  mapM (zget (data r)) (seqZ off2 len2) = Some bs →
  tcp_writes [Iov off1 len1; Iov off2 len2] ERR_OK 0 s =
    Val (e, len1 + len2)
      (St (set_lw (wrote an (seqZ off2 len2) bs e (lw (self s))) (self s)) (io s)).
Proof.
  intros Hb Han He Hl1 Hl2 Hl Hm.
  destruct s as [[[c nd q pc bf eof] [ev ans w rf h ac rc rd tc] t] i]. cbn in Hb, Han. subst bf ans.
  cbn [tcp_writes]. erewrite bind_val.
  2: { unfold tcp_write. erewrite bind_val by reflexivity. destruct (Z.eqb_spec e ERR_OK); [done|reflexivity]. }
  cbn [iov_off iov_len]. erewrite bind_val.
  2: { unfold tcp_write. erewrite bind_val by reflexivity. change (ERR_OK =? ERR_OK) with true. cbv iota.
       erewrite bind_val by reflexivity. cbv zeta. assert (u16 len2 = len2) as -> by (apply Z.mod_small; lia).
       erewrite bind_val by (unfold of_option; rewrite Hm; reflexivity).
       reflexivity. }
  unfold wrote. cbn -[u64 Z.lor seqZ]. rewrite !u64_small by (rewrite ?u64_small; lia).
  destruct (Z.eqb_spec e 0); [done|]. by rewrite Z.lor_0_l, Z.lor_0_r, Z.add_0_l, orb_true_r.
Qed.

(** C26: a round of the splice in which the unread bytes [u] wrap around the end of the
    ring buffer and the stack refuses the first of the two segments but takes the
    second: the second segment is handed over right after what was handed before, the
    [n] bytes of the first are skipped, and the buffer counts both as sent. *)
Theorem refused_write_leaves_hole (s s1 s2 : st session) res r start f u e an :
  read_server (fd (base (self s))) s = Val res s1 → hev_task_mutex_lock s1 = Val tt s2 →
  pcb (sess (self s2)) = true → buffer (sess (self s2)) = Some r → ring_rep r start f u → max_size r <= 65535 →
  max_size r - rp r < zlen u → answers (lw (self s2)) = e :: ERR_OK :: an → e ≠ ERR_OK →
  let n := max_size r - rp r in
  ∃ s' r', tcp_splice_b s = Val (-1) s' ∧ 0 < n ∧
    handed (lw (self s')) = handed (lw (self s2)) ++ drop (Z.to_nat n) u ∧
    refused (lw (self s')) = true ∧
    buffer (sess (self s')) = Some r' ∧ ring_rep r' start (f ++ u) [].
Proof.
  intros Hread Hlock Hp Hb R Hmax Hwrap Han He n. subst n.
  destruct (second_segment _ _ _ _ R Hwrap) as (Hrd & Hn & Hm).
  pose proof (rr_max _ _ _ _ R). pose proof (rr_fit _ _ _ _ R). pose proof (zlen_nonneg f).
  pose proof (zlen_nonneg u). epose proof (refused_then_taken s2 r (rp r) (max_size r - rp r) 0
    (zlen u - (max_size r - rp r)) _ e an Hb Han He ltac:(lia) ltac:(lia) ltac:(lia) Hm) as Hw.
  replace (max_size r - rp r + _) with (zlen u) in Hw by lia.
  set (l := wrote an _ _ e _) in Hw.
  destruct (tcp_output_spec (St (set_sess (set_buffer (Some (hev_ring_buffer_read_finish (zlen u) r)) (sess (self s2)))
    (set_lw l (self s2))) (io s2))) as (e' & an' & Hout).
  eexists _, (hev_ring_buffer_read_finish (zlen u) r). split; [|split; [exact Hn|split; [|split; [|split]]]].
  - unfold tcp_splice_b, get_base, get_sess. erewrite bind_val by reflexivity.
    erewrite bind_val by exact Hread. erewrite bind_val by exact Hlock. erewrite bind_val by reflexivity. rewrite Hp.
    erewrite bind_val.
    2: { unfold write_stack. erewrite bind_val by (unfold get_buffer, get_sess; mstep; rewrite Hb; reflexivity).
         cbv zeta. rewrite Hrd. change (truthy (zlen [_; _])) with true. cbv iota.
         erewrite bind_val by exact Hw. cbv beta iota.
         erewrite bind_val by (unfold get_buffer, get_sess; mstep; cbn [self sess set_lw]; rewrite Hb; reflexivity).
         erewrite bind_val by reflexivity. erewrite bind_val by exact Hout. reflexivity. }
    cbv beta iota. erewrite bind_val by reflexivity. cbn [self sess set_lw set_sess set_buffer pcb]. rewrite Hp.
    destruct (Z.eqb_spec (Z.lor e e') ERR_OK) as [[??]%Z.lor_eq_0_iff|]; [done|reflexivity].
  - done.
  - cbn. destruct (Z.eqb_spec e 0); [done|]. apply orb_true_r.
  - done.
  - apply read_finish_rep. by rewrite app_nil_r.
Qed.

(** A full buffer of 8 bytes whose reader stands at its seventh cell. *)
Definition wrapped_ring : HevRingBuffer := Ring 6 6 8 8 8 [9; 10; 11; 12; 13; 14; 7; 8].
Definition wrapped_session : st session :=
  let s := session0 [-1; 0; 0] in St (set_sess (set_buffer (Some wrapped_ring) (sess (self s))) (self s)) (io s).

Lemma wrapped_ring_rep : ring_rep wrapped_ring 6 [] [7; 8; 9; 10; 11; 12; 13; 14].
Proof.
  split; cbn; try done; try lia. intros i Hi. unfold zlen in Hi. cbn in Hi.
  assert (i = 0 ∨ i = 1 ∨ i = 2 ∨ i = 3 ∨ i = 4 ∨ i = 5 ∨ i = 6 ∨ i = 7) as Hc by lia.
  by repeat destruct Hc as [->|Hc]; subst.
Qed.

(** In a whole session the application gets bytes 9 to 13 right after byte 6, and the
    hole is never filled. *)
Lemma refused_write_leaves_hole_witness :
  (∃ s', tcp_splice_b wrapped_session = Val (-1) s' ∧ handed (lw (self s')) = [9; 10; 11; 12; 13; 14]) ∧
  ∃ s', hev_socks5_session_tcp_splice 0 (replicate 8 0) (session0 [0; 0; -1]) = Val tt s' ∧
    stream (rxq chan0) = [1; 2; 3; 4; 5; 6; 7; 8; 9; 10; 11; 12; 13] ∧
    acked (lw (self s')) = [1; 2; 3; 4; 5; 6; 9; 10; 11; 12; 13].
Proof.
  split.
  - destruct (refused_write_leaves_hole wrapped_session wrapped_session
      (St (set_lw (set_events [[]; [TcpSent 5]; []; [TcpRecv [[68]]]; []; [TcpSent 6]; []; [TcpSent 9; Terminate]]
        (lw (self wrapped_session))) (self wrapped_session)) (io wrapped_session))
      0 wrapped_ring 6 [] _ (-1) [0] ltac:(reflexivity) ltac:(reflexivity) ltac:(reflexivity) ltac:(reflexivity)
      wrapped_ring_rep ltac:(done) ltac:(done) ltac:(reflexivity) ltac:(done)) as (s' & r' & Hs & _ & Hh & _).
    exists s'. split; [exact Hs|exact Hh].
  - destruct (outcome_val (hev_socks5_session_tcp_splice 0 (replicate 8 0) (session0 [0; 0; -1]))
      [1; 2; 3; 4; 5; 6; 9; 10; 11; 12; 13] [65; 66; 67; 68]) as (s' & Hs & Ha & _); [by vm_compute|].
    exists s'. split; [exact Hs|split; [reflexivity|exact Ha]].
Defined.
