(* ===== verification/Session.v ===== *)
(** * Session: what the sessions of the tunnel have in common, src/hev-socks5-session.c

    A session is a SOCKS5 client with a way to relay; the configuration's server is
    the one it connects to. *)
From S2P Require Import Prelude Bytes TaskIO Socks5 UDP Client.

Record HevConfigServer := ConfigServer {
  user : option bytes; pass : option bytes; mark : Z; udp_in_udp : bool; port : Z;
  pipeline : bool; fastopen : bool; udp_addr : bytes; addr : bytes
}.

(** The methods of the session's interface that have code of their own. *)
Class SessionIface (O : Type) := { session_splicer : M (st O) unit }.

Definition set_sock_mark {O} (fd mark : Z) : M (st O) Z := setsockopt fd.
Definition set_sock_tcp_fastopen {O} (fd : Z) (enable : bool) : M (st O) unit :=
  if negb enable then mret tt else setsockopt fd;; mret tt.

Section Session.
Context `{Resolver} (srv : HevConfigServer).

Definition hev_socks5_session_bind {O} (fd : Z) (dest : sockaddr6) : M (st O) Z :=
  (if truthy (mark srv) then
     res ← set_sock_mark fd (mark srv);
     if res <? 0 then mret (-1) else set_sock_tcp_fastopen fd (fastopen srv);; mret 0
   else set_sock_tcp_fastopen fd (fastopen srv);; mret 0).

Definition hev_socks5_session_run {O} `{ClientClass O, !SessionIface O} : M (st O) unit :=
  res ← hev_socks5_client_connect (Session.addr srv) (Session.port srv);
  if res <? 0 then mret tt else
  match user srv, pass srv with
  | Some user, Some pass => hev_socks5_client_set_auth (Some user) (Some pass)
  | _, _ => mret tt
  end;;
  res ← hev_socks5_client_handshake (pipeline srv);
  if res <? 0 then mret tt else
  session_splicer.
End Session.
