(* ===== verification/SessionUDP.v ===== *)
(** * SessionUDP: a UDP session of the tunnel, src/hev-socks5-session-udp.c

    Datagrams that the local stack (lwIP) received wait in a bounded list of frames
    for the SOCKS5 client; those that come back are sent to the application with the
    address it had sent to, when that address was made up for a name, and with the
    address of their sender otherwise.

    The list of frames is [HevList]'s; here it is the list of its containers. The
    address of a frame and the data of its packet buffer are blocks of memory. As for
    [SessionTCP], the stack's callbacks run when the session yields or takes the
    mutex, and its answers are data of the state. Those that run while a call on the
    client's sockets waits are taken to run at its end: such a call neither reads nor
    writes what they change, except that it ends early when the session is terminated
    meanwhile. *)
From S2P Require Import Prelude Bytes HevList MappedDNS TaskIO Socks5 UDP Client LwipAddr SessionSet Session.

Definition UDP_POOL_SIZE : Z := 512.

(** The block of a frame, and of the data of its buffer. *)
Record HevSocks5UDPFrame := UDPFrame { faddr : Z; fdata : Z; flen : Z }.

(** [local_addr] and [local_port]: what the datagrams were sent to, when it was made
    up for a name ([addr] and [port] of the C structure). *)
Record HevSocks5SessionUDP := SessionUDP {
  scu : HevSocks5ClientUDP; unode : Z; frame_list : list HevSocks5UDPFrame; upcb : bool;
  frames : Z; local_addr : bytes; local_port : Z
}.

(** A datagram arrived for an address and a port. It is a chain of buffers: its first
    one, and the others when it came in fragments; no buffers is NULL. *)
Inductive uevent :=
| UdpRecv (ip : ip_addr) (port : Z) (p : option (bytes * list bytes)) | UdpSessionsChange (t : sessions) | UdpTerminate.

(** The stack's side: the local address of the connection, which the stack sets to the
    destination of every datagram; the callbacks to come, whether the next references
    to buffers can be made and the results of sending; and what was sent to the
    application, with its source. *)
Record ulwip := ULwip {
  pcb_ip : ip_addr; pcb_port : Z; uevents : list (list uevent); pbufs : list bool; sent : list Z;
  delivered : list (ip_addr * Z * bytes)
}.

Record usession := USession {
  us : HevSocks5SessionUDP; ul : ulwip; mapped_dns : option dns; utunnel : sessions
}.

Definition set_scu v o := SessionUDP v (unode o) (frame_list o) (upcb o) (frames o) (local_addr o) (local_port o).
Definition set_frames l n o := SessionUDP (scu o) (unode o) l (upcb o) n (local_addr o) (local_port o).
Definition set_upcb v o := SessionUDP (scu o) (unode o) (frame_list o) v (frames o) (local_addr o) (local_port o).
Definition set_local a p o := SessionUDP (scu o) (unode o) (frame_list o) (upcb o) (frames o) a p.
Definition set_us v o := USession v (ul o) (mapped_dns o) (utunnel o).
Definition set_ul v o := USession (us o) v (mapped_dns o) (utunnel o).
Definition set_dns v o := USession (us o) (ul o) v (utunnel o).
Definition set_utunnel v o := USession (us o) (ul o) (mapped_dns o) v.

Definition set_pcb_local ip port l := ULwip ip port (uevents l) (pbufs l) (sent l) (delivered l).
Definition set_uevents v l := ULwip (pcb_ip l) (pcb_port l) v (pbufs l) (sent l) (delivered l).
Definition set_pbufs v l := ULwip (pcb_ip l) (pcb_port l) (uevents l) v (sent l) (delivered l).
Definition set_sent v w l := ULwip (pcb_ip l) (pcb_port l) (uevents l) (pbufs l) v w.

#[export] Program Instance usession_IsSocks5 : IsSocks5 usession :=
  {| base o := base (scu (us o)); set_base b o := set_us (set_scu (set_base b (scu (us o))) (us o)) o |}.
Solve All Obligations with
  by intros; repeat match goal with o : usession |- _ => destruct o as [[[[]]] ? ? ?] end.

#[export] Program Instance usession_IsClient : IsClient usession :=
  {| client o := client (scu (us o)); set_client c o := set_us (set_scu (set_client c (scu (us o))) (us o)) o |}.
Solve All Obligations with done.

Definition get_us : M (st usession) HevSocks5SessionUDP := gets (λ s, us (self s)).
Definition upd_us (f : HevSocks5SessionUDP → HevSocks5SessionUDP) : M (st usession) unit :=
  modify (λ s, St (set_us (f (us (self s))) (self s)) (io s)).
Definition get_ul : M (st usession) ulwip := gets (λ s, ul (self s)).
Definition upd_ul (f : ulwip → ulwip) : M (st usession) unit :=
  modify (λ s, St (set_ul (f (ul (self s))) (self s)) (io s)).

Section Session.
Context `{Resolver} (srv : HevConfigServer) (max_session_count : Z).

(** ** The client below *)

Definition set_udp_fd (v : Z) (o : usession) : usession := set_us (set_scu (set_client_udp_fd v (scu (us o))) (us o)) o.

Definition hev_socks5_addr_get_port (addr : bytes) : option Z :=
  atype ← zget addr 0;
  if atype =? HEV_SOCKS5_ADDR_TYPE_IPV4 then get_le16 (slice addr 5 2)
  else if atype =? HEV_SOCKS5_ADDR_TYPE_IPV6 then get_le16 (slice addr 17 2)
  else if atype =? HEV_SOCKS5_ADDR_TYPE_NAME then len ← zget addr 1; get_le16 (slice addr (2 + len) 2)
  else Some 0.

(** The configuration may name another address for datagrams; its string ends at the
    first NUL. *)
Definition hev_socks5_session_udp_set_upstream_addr (addr : bytes) : M (st usession) Z :=
  addr ←
    (if udp_in_udp srv && negb (zlen (udp_addr srv) =? 0) then
       port ← of_option (hev_socks5_addr_get_port addr);
       '(_, addr) ← of_option (hev_socks5_addr_from_name addr (udp_addr srv) port);
       mret addr
     else mret addr);
  hev_socks5_client_udp_set_upstream_addr set_udp_fd (hev_socks5_session_bind srv) addr.

#[export] Instance usession_class : ClientClass usession := {
  binder := hev_socks5_session_bind srv;
  get_upstream_addr := hev_socks5_client_udp_get_upstream_addr;
  set_upstream_addr := hev_socks5_session_udp_set_upstream_addr
}.

#[export] Instance usession_udp : UDPClass usession :=
  {| udp_get_fd o := hev_socks5_client_udp_get_fd (scu (us o)); udp_binder := hev_socks5_session_bind srv |}.

(** ** Callbacks *)

(** A buffer of the stack; [len] is its own length, not that of the chain. *)
Definition pbuf_alloc (bs : bytes) : M (st usession) Z := stack_alloc bs.
Definition pbuf_free (p : Z) : M (st usession) unit := hev_free p.

Definition session_terminate : M (st usession) unit := hev_socks5_set_timeout 0.

(** [hev_socks5_addr_from_lwip] looks the address up in the DNS cache, when there is
    one. *)
Definition addr_from_lwip (addr : bytes) (ip : ip_addr) (port : Z) : M (st usession) bytes := λ s,
  match mapped_dns (self s) with
  | Some d =>
      match hev_socks5_addr_from_lwip true addr ip port d with
      | Val (_, a) d => Val a (St (set_dns (Some d) (self s)) (io s))
      | Blocked d => Blocked (St (set_dns (Some d) (self s)) (io s))
      | Stuck => Stuck
      end
  | None =>
      match ip_type ip with
      | IPADDR_TYPE_V4 => Val (hev_socks5_addr_from_ipv4 addr (u_addr ip) (htons port)).2 s
      | IPADDR_TYPE_V6 => Val (hev_socks5_addr_from_ipv6 addr (u_addr ip) (htons port)).2 s
      | IPADDR_TYPE_ANY => Val addr s
      end
  end.

(** The last frame is linked to the new one, so it has to be there. *)
Definition add_frame (f : HevSocks5UDPFrame) : M (st usession) unit :=
  self ← get_us;
  match last (frame_list self) with
  | Some l => load (faddr l, 0) 0;; mret tt
  | None => mret tt
  end;;
  upd_us (λ self, set_frames (frame_list self ++ [f]) (frames self) self).

(** [p] is a chain whose first buffer has [n] bytes, or NULL. *)
Definition udp_recv_handler (p n : Z) : M (st usession) unit :=
  if negb (truthy p) then session_terminate else
  self ← get_us;
  if UDP_POOL_SIZE <? frames self then pbuf_free p else
  frame ← hev_malloc sizeof_HevSocks5Addr addr_undef;
  if negb (truthy frame) then pbuf_free p else
  l ← get_ul;
  a ← addr_from_lwip addr_undef (pcb_ip l) (pcb_port l);
  store (frame, 0) a;;
  atype ← of_option (zget a 0);
  (if atype =? HEV_SOCKS5_ADDR_TYPE_NAME
   then upd_us (set_local (take 4 (u_addr (pcb_ip l))) (pcb_port l)) else mret tt);;
  upd_us (λ self, set_frames (frame_list self) (i32 (frames self + 1)) self);;
  add_frame (UDPFrame frame p n).

Definition ucallback (e : uevent) : M (st usession) unit :=
  self ← get_us;
  match e with
  | UdpRecv ip port p =>
      when (upcb self) (
        upd_ul (set_pcb_local ip port);;
        match p with
        | None => udp_recv_handler 0 0
        | Some (bs, _) => p ← pbuf_alloc bs; udp_recv_handler p (zlen bs)
        end)
  | UdpSessionsChange t => modify (λ s, St (set_utunnel t (TaskIO.self s)) (io s))
  | UdpTerminate => session_terminate
  end.

Fixpoint run_ucallbacks (es : list uevent) : M (st usession) unit :=
  match es with
  | [] => mret tt
  | e :: es => ucallback e;; run_ucallbacks es
  end.

Definition ucallbacks : M (st usession) unit :=
  l ← get_ul;
  match uevents l with
  | [] => mret tt
  | es :: ess => upd_ul (set_uevents ess);; run_ucallbacks es
  end.

Definition hev_task_mutex_lock : M (st usession) unit := ucallbacks.

(** ** The stack's functions *)

Definition ERR_OK : Z := 0.

Definition pbuf_alloc_reference : M (st usession) bool :=
  l ← get_ul;
  match pbufs l with
  | [] => mret true
  | ok :: l' => upd_ul (set_pbufs l');; mret ok
  end.

(** The datagram is copied into a packet for the device. *)
Definition udp_sendfrom (bs : bytes) (ip : ip_addr) (port : Z) : M (st usession) Z :=
  l ← get_ul;
  match sent l with
  | [] => upd_ul (set_sent [] (delivered l ++ [(ip, port, bs)]));; mret ERR_OK
  | e :: es =>
      upd_ul (set_sent es (if e =? ERR_OK then delivered l ++ [(ip, port, bs)] else delivered l));; mret e
  end.

(** ** Towards the server *)

Definition frame_msg (f : HevSocks5UDPFrame) : HevSocks5UDPMsg := UDPMsg (Ref (faddr f, 0)) (fdata f, 0) (flen f).

(** The frames that were sent are released; there has to be one for each. *)
Fixpoint free_frames (n : nat) : M (st usession) unit :=
  match n with
  | Datatypes.O => mret tt
  | S n =>
      self ← get_us;
      match frame_list self with
      | [] => stuck
      | f :: l =>
          upd_us (set_frames l (frames self));;
          hev_free (faddr f);;
          pbuf_free (fdata f);;
          upd_us (λ self, set_frames (frame_list self) (i32 (frames self - 1)) self);;
          free_frames n
      end
  end.

Definition hev_socks5_session_udp_fwd_f (num : nat) : M (st usession) Z :=
  self ← get_us;
  let res := frames self in
  if res <=? 0 then mret 0 else
  let res := if Z.of_nat num <? res then Z.of_nat num else res in
  if zlen (frame_list self) <? res then stuck else
  res ← hev_socks5_udp_sendmmsg (frame_msg <$> take (Z.to_nat res) (frame_list self));
  ucallbacks;;
  if res <=? 0 then mret (-1) else
  free_frames (Z.to_nat res);;
  mret 1.

(** ** Towards the application *)

Definition ip_undef : ip_addr := IpAddr (replicate 16 0) IPADDR_TYPE_ANY.

(** The source of the datagrams that come back, unless an address is of no use: what
    the application sent to, if that was made up for a name. *)
Definition datagram_source (p : Z * Z) : M (st usession) (option (ip_addr * Z)) :=
  self ← get_us;
  if negb (forallb (Z.eqb 0) (local_addr self)) && truthy (local_port self) then
    mret (Some (IpAddr (overwrite (u_addr ip_undef) 0 (local_addr self)) IPADDR_TYPE_V4, u16 (local_port self)))
  else
    a ← load_rest (Ref p);
    '(ret, saddr, port) ← of_option (hev_socks5_addr_into_lwip a ip_undef);
    if ret <? 0 then mret None else port ← of_option port; mret (Some (saddr, port)).

Fixpoint deliver (msgv : list HevSocks5UDPMsg) : M (st usession) Z :=
  match msgv with
  | [] => mret 1
  | m :: msgv =>
      match maddr m with
      | Undef => stuck
      | Null => deliver msgv
      | Ref p =>
          if mlen m =? 0 then deliver msgv else
          src ← datagram_source p;
          match src with
          | None => mret (-1)
          | Some (saddr, port) =>
              b ← pbuf_alloc_reference;
              if negb b then mret (-1) else
              hev_task_mutex_lock;;
              bs ← load (mbuf m) (u16 (mlen m));
              err ← udp_sendfrom bs saddr port;
              if negb (err =? ERR_OK) then mret (-1) else deliver msgv
          end
      end
  end.

(** [mem]: what the stack held at the buffers, [UDP_BUF_SIZE] * [num] bytes. *)
Definition hev_socks5_session_udp_fwd_b (mem : bytes) (num : nat) : M (st usession) Z :=
  buf ← stack_alloc mem;
  let msgv := (λ i, UDPMsg Undef (buffer buf i) UDP_BUF_SIZE) <$> seq 0 num in
  '(res, msgv) ← hev_socks5_udp_recvmmsg msgv true;
  e ← get_errno;
  ucallbacks;;
  r ←
    (if res <=? 0 then mret (if (res =? -1) && (e =? EAGAIN) then 0 else -1)
     else deliver (take (Z.to_nat res) msgv));
  stack_free buf;;
  mret r.

(** ** The session *)

Definition task_io_yielder (type : HevTaskYieldType) : M (st usession) Z :=
  b ← get_base;
  ended ←
    (if bool_decide (Socks5.type b = HEV_SOCKS5_TYPE_UDP_IN_UDP) then
       '(res, _) ← recv (Socks5.fd b) 1;
       e ← get_errno;
       mret ((res =? 0) || ((res <? 0) && negb (e =? EAGAIN)))
     else mret false);
  if ended : bool then hev_socks5_set_timeout 0;; mret (-1) else
  res ← hev_socks5_task_io_yielder type;
  ucallbacks;;
  self ← get_us;
  zoom (λ s, utunnel (TaskIO.self s)) (λ t s, St (set_utunnel t (TaskIO.self s)) (io s))
    (hev_socks5_tunnel_update_session max_session_count (unode self));;
  mret res.

(** Every round uses up a frame that is there or to come, something to be received,
    or a wake. *)
Definition session_fuel (s : st usession) : nat :=
  let o := TaskIO.self s in
  length (frame_list (us o)) + length (mjoin (uevents (ul o))) +
  dgram_fuel (udp_get_fd o) s + length (wakes (io s)).

Fixpoint splice_rounds (fuel : nat) (mem : bytes) (num : nat) (res_f res_b : Z) : M (st usession) unit :=
  match fuel with
  | Datatypes.O => stuck
  | S fuel =>
      res_f ← (if 0 <=? res_f then hev_socks5_session_udp_fwd_f num else mret res_f);
      res_b ← (if 0 <=? res_b then hev_socks5_session_udp_fwd_b mem num else mret res_b);
      match (if (0 <? res_f) || (0 <? res_b) then Some HEV_TASK_YIELD
             else if Z.land res_f res_b =? 0 then Some HEV_TASK_WAITIO
             else None) with
      | None => mret tt
      | Some type =>
          r ← task_io_yielder type;
          if truthy r then mret tt else splice_rounds fuel mem num res_f res_b
      end
  end.

(** [num]: the configuration's udp-copy-buffer-nums. *)
Definition hev_socks5_session_udp_splice (mem : bytes) (num : nat) : M (st usession) unit :=
  fd ← hev_socks5_udp_get_fd;
  res ← hev_task_mod_fd fd;
  (if res <? 0 then hev_task_add_fd fd;; mret tt else mret tt);;
  fuel ← gets (λ s, S (session_fuel s));
  splice_rounds fuel mem num 1 1.

#[export] Instance usession_session (mem : bytes) (num : nat) : SessionIface usession :=
  {| session_splicer := hev_socks5_session_udp_splice mem num |}.

(** ** Construction and destruction *)

Definition hev_socks5_session_udp_construct (node : Z) : M (st usession) Z :=
  let type := if udp_in_udp srv then HEV_SOCKS5_TYPE_UDP_IN_UDP else HEV_SOCKS5_TYPE_UDP_IN_TCP in
  upd_us (λ self, set_scu (hev_socks5_client_udp_construct (scu self) type) self);;
  upd_us (λ self, SessionUDP (scu self) node (frame_list self) true (frames self) (local_addr self) (local_port self));;
  mret 0.

Definition session_udp_zero : HevSocks5SessionUDP := SessionUDP client_udp_zero 0 [] false 0 [0; 0; 0; 0] 0.

(** [node]: the new session's place in the tunnel's list. *)
Definition hev_socks5_session_udp_new (node : Z) : M (st usession) bool :=
  o ← get_self;
  ok ← alloc_object (set_us session_udp_zero o);
  if negb ok then mret false else
  res ← hev_socks5_session_udp_construct node;
  mret (negb (res <? 0)).

Fixpoint destroy_frames (l : list HevSocks5UDPFrame) : M (st usession) unit :=
  match l with
  | [] => mret tt
  | f :: l => pbuf_free (fdata f);; hev_free (faddr f);; destroy_frames l
  end.

(** The list's nodes are not unlinked; the stack forgets the session. *)
Definition hev_socks5_session_udp_destruct : M (st usession) unit :=
  self ← get_us;
  destroy_frames (frame_list self);;
  hev_task_mutex_lock;;
  upd_us (set_upcb false);;
  zoom (λ s, St (scu (us (TaskIO.self s))) (io s))
    (λ t s, St (set_us (set_scu (TaskIO.self t) (us (TaskIO.self s))) (TaskIO.self s)) (io t))
    hev_socks5_client_udp_destruct.
End Session.
