(* ===== verification/SessionUDPSpec.v ===== *)
(** * SessionUDPSpec: a UDP session passes datagrams on, in both directions *)
From S2P Require Import Prelude Bytes HevList LRU MappedDNS DNSCache TaskIO TaskIOSpec VectorSpec Socks5 Socks5Spec LwipAddr UDP UDPSpec Client UDPRelay SessionSet Session SessionUDP.

(** ** What calls on a session's connection leave alone

    Over TCP they change neither the object nor what the allocator is going to do. *)
Section Quiet.
Context {O : Type} `{UDPClass O} `{Resolver}.
Implicit Types s : st O.

Definition apart s s' : Prop := self s' = self s ∧ mallocs (io s') = mallocs (io s).
Definition quiet {A} (m : M (st O) A) : Prop :=
  ∀ s, type (base (self s)) = HEV_SOCKS5_TYPE_UDP_IN_TCP → match m s with Val _ s' => apart s s' | _ => True end.

Lemma quiet_ret {A} (a : A) : quiet (mret a).
Proof using Type. done. Qed.
Lemma quiet_stuck {A} : quiet (stuck (A := A)).
Proof using Type. done. Qed.
Lemma quiet_gets {A} (f : st O → A) : quiet (gets f).
Proof using Type. done. Qed.

Lemma quiet_bind {A B} (m : M (st O) A) (f : A → M (st O) B) : quiet m → (∀ a, quiet (f a)) → quiet (m ≫= f).
Proof using Type.
  intros Hm Hf s Ht. specialize (Hm s Ht). unfold mbind, M_bind. destruct (m s) as [a s1| |]; [|done|done].
  destruct Hm as [Hs Hl]. specialize (Hf a s1). rewrite Hs in Hf. specialize (Hf Ht).
  destruct (f a s1) as [b s2| |]; [|done|done]. destruct Hf as [Hs' Hl']. split; congruence.
Qed.

Lemma quiet_val {A} (m : M (st O) A) a s s' :
  quiet m → type (base (self s)) = HEV_SOCKS5_TYPE_UDP_IN_TCP → m s = Val a s' → apart s s'.
Proof using Type. intros Hm Ht Hv. specialize (Hm s Ht). by rewrite Hv in Hm. Qed.

Lemma quiet_option {A} (o : option A) : quiet (of_option o).
Proof using Type. by destruct o. Qed.

(** Code that changes the world only. *)
Lemma quiet_io {A} (m : M world A) :
  (∀ i, match m i with Val _ i' => mallocs i' = mallocs i | _ => True end) → quiet (on_io m).
Proof using Type. intros Hm s _. specialize (Hm (io s)). unfold on_io, zoom. by destruct (m (io s)). Qed.

Lemma quiet_chan {A} fd (bad : A) f :
  (∀ c i, match f c i with Val _ i' => mallocs i' = mallocs i | _ => True end) → quiet (on_chan fd bad f).
Proof using Type. intros Hf. apply quiet_io. intros i. destruct (chans i !! fd); [apply Hf|by destruct i]. Qed.

Lemma quiet_recv fd n : quiet (recv fd n).
Proof using Type. apply quiet_chan. intros c []. by destruct (rxq c) as [|[]]. Qed.
Lemma quiet_send fd buf : quiet (send fd buf).
Proof using Type. apply quiet_chan. intros c []. by destruct (txq c) as [|[]]. Qed.
Lemma quiet_store p bs : quiet (store p bs).
Proof using Type. apply quiet_io. intros []. cbn. destruct (blocks !! p.1); [|done]. by destruct (_ && _). Qed.
Lemma quiet_load p n : quiet (load p n).
Proof using Type. intros s _. unfold load. destruct (_ !! _); [|done]. by destruct (_ && _). Qed.
Lemma quiet_rest r : quiet (load_rest r).
Proof using Type. intros s _. unfold load_rest. destruct r; [done|done|]. destruct (_ !! _); [|done]. by destruct (_ && _). Qed.

Lemma quiet_yielder t : quiet (udp_task_io_yielder t).
Proof using Type.
  intros s Ht. rewrite udp_yielder_tcp by done. revert s Ht. change (quiet (hev_socks5_task_io_yielder t)).
  assert (∀ t', quiet (hev_task_yield t')) as Hy by (intros []; apply quiet_io; intros []; [done|by destruct wakes]).
  assert (∀ n, quiet (hev_task_sleep n)) as Hsl.
  { intros n. apply quiet_io. intros []. cbn. destruct (n =? 0); [done|]. by destruct wakes. }
  destruct t; cbn [hev_socks5_task_io_yielder].
  - apply quiet_bind; [apply Hy|done].
  - apply quiet_bind; [done|intros b]. destruct (_ <? 0); (apply quiet_bind; [auto|]); [done|].
    intros r. by destruct (r <=? 0).
Qed.

Lemma quiet_wait : quiet (wait_io udp_yielder).
Proof using Type. apply quiet_bind; [apply quiet_yielder|done]. Qed.

Create HintDb quiet.
#[local] Hint Resolve quiet_ret quiet_stuck quiet_gets quiet_option quiet_recv quiet_send quiet_store quiet_load quiet_rest quiet_wait : quiet.
#[local] Hint Unfold get_errno get_base hev_socks5_udp_get_fd io_fuel : quiet.

(** Through the code, case by case. *)
Ltac quietly :=
  repeat first
    [ progress auto with quiet
    | match goal with
      | |- quiet (_ ≫= _) => apply quiet_bind; [|intros ?]
      | |- quiet (let '(_, _) := ?p in _) => destruct p
      | |- quiet (if ?b then _ else _) => destruct b
      | |- quiet (match ?b with _ => _ end) => destruct b
      end
    | progress autounfold with quiet ].

Lemma quiet_recv_loop fuel fd len flags size buf : quiet (recv_loop fuel fd len flags udp_yielder size buf).
Proof using Type. revert size buf. induction fuel as [|fuel IH]; intros size buf; cbn [recv_loop]; quietly. Qed.

Lemma quiet_store_iov iov bs : quiet (store_iov iov bs).
Proof using Type. revert bs. induction iov as [|[p n] iov IH]; intros bs; cbn [store_iov]; quietly. Qed.
#[local] Hint Resolve quiet_recv_loop quiet_store_iov : quiet.

Lemma quiet_recvmsg_loop fuel fd iov len flags size : quiet (recvmsg_loop fuel fd iov len flags udp_yielder size).
Proof using Type. revert iov size. induction fuel as [|fuel IH]; intros iov size; cbn [recvmsg_loop]; unfold recvmsg; quietly. Qed.

Lemma quiet_sendmsg_loop fuel fd iov len flags size : quiet (sendmsg_loop fuel fd iov len flags udp_yielder size).
Proof using Type. revert iov size. induction fuel as [|fuel IH]; intros iov size; cbn [sendmsg_loop]; unfold sendmsg; quietly. Qed.
#[local] Hint Resolve quiet_recvmsg_loop quiet_sendmsg_loop : quiet.

Lemma quiet_recvmmsg_tcp fd flags rlen done todo : quiet (recvmmsg_tcp_loop fd flags rlen done todo).
Proof using Type.
  revert rlen done. induction todo as [|m todo IH]; intros rlen done; cbn [recvmmsg_tcp_loop];
    unfold recv_head, hev_task_io_socket_recv, hev_task_io_socket_recvmsg; quietly.
Qed.

Lemma quiet_segments h msgv : quiet (udp_segments h msgv).
Proof using Type. induction msgv as [|m msgv IH]; cbn [udp_segments]; quietly. Qed.
Lemma quiet_read_segments iov : quiet (read_segments iov).
Proof using Type. induction iov as [|[]]; cbn [read_segments read_segment]; quietly. Qed.
#[local] Hint Resolve quiet_recvmmsg_tcp quiet_segments quiet_read_segments : quiet.

Lemma quiet_sendmmsg msgv : quiet (hev_socks5_udp_sendmmsg msgv).
Proof using Type.
  intros s Ht. unfold hev_socks5_udp_sendmmsg. erewrite bind_val by reflexivity. rewrite Ht. revert s Ht.
  change (quiet (hev_socks5_udp_sendmmsg_tcp msgv)). unfold hev_socks5_udp_sendmmsg_tcp, hev_task_io_socket_sendmsg. quietly.
Qed.

Lemma quiet_recvmmsg msgv nb : quiet (hev_socks5_udp_recvmmsg msgv nb).
Proof using Type.
  intros s Ht. unfold hev_socks5_udp_recvmmsg. erewrite bind_val by reflexivity. rewrite Ht. revert s Ht.
  change (quiet (hev_socks5_udp_recvmmsg_tcp msgv nb)). unfold hev_socks5_udp_recvmmsg_tcp. quietly.
Qed.
End Quiet.

(** ** The memory without some blocks *)

Definition without (m : gmap Z bytes) (ps : list Z) : gmap Z bytes := foldr delete m ps.

Lemma lookup_without m ps q : without m ps !! q = if decide (q ∈ ps) then None else m !! q.
Proof.
  induction ps as [|p ps IH]; cbn [without foldr]; [by rewrite decide_False by set_solver|].
  destruct (decide (q = p)) as [->|Hne].
  - rewrite lookup_delete_eq. by rewrite decide_True by set_solver.
  - rewrite lookup_delete_ne by done. fold (without m ps). rewrite IH. destruct (decide (q ∈ ps)), (decide (q ∈ p :: ps)); set_solver.
Qed.

Lemma without_delete m ps p : p ∉ ps → without (delete p m) ps = delete p (without m ps).
Proof.
  intros Hp. apply map_eq. intros q. rewrite lookup_without. destruct (decide (q = p)) as [->|Hne].
  - rewrite !lookup_delete_eq. by destruct (decide _).
  - rewrite !lookup_delete_ne by done. by rewrite lookup_without.
Qed.

Lemma without_insert m ps p b : p ∉ ps → without (<[p := b]> m) ps = <[p := b]> (without m ps).
Proof.
  intros Hp. apply map_eq. intros q. rewrite lookup_without. destruct (decide (q = p)) as [->|Hne].
  - rewrite !lookup_insert_eq. by destruct (decide _).
  - rewrite !lookup_insert_ne by done. by rewrite lookup_without.
Qed.

Lemma without_app m ps qs : without m (ps ++ qs) = without (without m qs) ps.
Proof. apply foldr_app. Qed.

(** ** The frames that wait *)

Definition frame_blocks (f : HevSocks5UDPFrame) : list Z := [faddr f; fdata f].
Definition blocks_of (l : list HevSocks5UDPFrame) : list Z := mjoin (frame_blocks <$> l).

Definition frame_holds (m : gmap Z bytes) (f : HevSocks5UDPFrame) (g : dgram) : Prop :=
  flen f = zlen g.2 ∧ m !! fdata f = Some g.2 ∧ ∃ pad, m !! faddr f = Some (g.1 ++ pad).

(** The frames hold the datagrams [gs], in blocks of their own; the other blocks are [R]. *)
Record pool (R : gmap Z bytes) (o : HevSocks5SessionUDP) (m : gmap Z bytes) (gs : list dgram) : Prop := {
  po_count : frames o = zlen gs;
  po_max : zlen gs <= UDP_POOL_SIZE + 1;
  po_held : Forall2 (frame_holds m) (frame_list o) gs;
  po_nodup : NoDup (blocks_of (frame_list o));
  po_send : Forall sendable gs;
  po_rest : without m (blocks_of (frame_list o)) = R
}.

Lemma blocks_of_app l k : blocks_of (l ++ k) = blocks_of l ++ blocks_of k.
Proof. unfold blocks_of. by rewrite fmap_app, join_app. Qed.

Lemma holds_live m l gs : Forall2 (frame_holds m) l gs → ∀ p, p ∈ blocks_of l → is_Some (m !! p).
Proof.
  induction 1 as [|f g l gs (_ & Hd & pad & Ha) _ IH]; intros p Hp; [by apply elem_of_nil in Hp|].
  change (blocks_of (f :: l)) with (faddr f :: fdata f :: blocks_of l) in Hp.
  apply elem_of_cons in Hp as [->|Hp]; [by eexists|]. apply elem_of_cons in Hp as [->|Hp]; [by eexists|auto].
Qed.

Lemma holds_same m m' l gs :
  Forall2 (frame_holds m) l gs → (∀ p, p ∈ blocks_of l → m' !! p = m !! p) → Forall2 (frame_holds m') l gs.
Proof.
  induction 1 as [|f g l gs (Hl & Hd & pad & Ha) _ IH]; intros Hp; [constructor|].
  change (blocks_of (f :: l)) with (faddr f :: fdata f :: blocks_of l) in Hp. constructor.
  - split; [done|]. rewrite !Hp by set_solver. split; [done|]. by exists pad.
  - apply IH. intros p Hin. apply Hp. set_solver.
Qed.

Lemma pool_block R o m gs p b : pool R o m gs → R !! p = Some b → m !! p = Some b ∧ p ∉ blocks_of (frame_list o).
Proof. intros Hp. rewrite <- (po_rest _ _ _ _ Hp), lookup_without. by destruct (decide _). Qed.

Lemma pool_fresh R o m gs p : pool R o m gs → m !! p = None → R !! p = None ∧ p ∉ blocks_of (frame_list o).
Proof.
  intros Hp Hm. rewrite <- (po_rest _ _ _ _ Hp), lookup_without. split; [by destruct (decide _)|].
  intros Hin. destruct (holds_live _ _ _ (po_held _ _ _ _ Hp) p Hin) as [b Hb]. by rewrite Hb in Hm.
Qed.

(** A block comes and goes. *)
Lemma pool_insert R o m gs p b : pool R o m gs → p ∉ blocks_of (frame_list o) → pool (<[p := b]> R) o (<[p := b]> m) gs.
Proof.
  intros [] Hp. split; try done; [|by rewrite without_insert, po_rest0].
  eapply holds_same; [done|]. intros q Hq. rewrite lookup_insert_ne; [done|]. by intros <-.
Qed.
Lemma pool_delete R o m gs p : pool R o m gs → p ∉ blocks_of (frame_list o) → pool (delete p R) o (delete p m) gs.
Proof.
  intros [] Hp. split; try done; [|by rewrite without_delete, po_rest0].
  eapply holds_same; [done|]. intros q Hq. rewrite lookup_delete_ne; [done|]. by intros <-.
Qed.

(** A frame comes at the end, and goes at the front. *)
Lemma pool_add R o m gs fa fd g pad :
  pool R o m gs → zlen gs <= UDP_POOL_SIZE → sendable g → fa ≠ fd → m !! fa = None → m !! fd = None →
  pool R (set_frames (frame_list o ++ [UDPFrame fa fd (zlen g.2)]) (i32 (frames o + 1)) o)
    (<[fa := g.1 ++ pad]> (<[fd := g.2]> m)) (gs ++ [g]).
Proof.
  intros Hp Hmax Hs Hne Ha Hd. destruct (pool_fresh _ _ _ _ _ Hp Ha) as [Ra Na], (pool_fresh _ _ _ _ _ Hp Hd) as [Rd Nd].
  destruct Hp. pose proof (zlen_nonneg gs). unfold UDP_POOL_SIZE in *. split; cbn [frames frame_list set_frames].
  - rewrite po_count0, zlen_app. change (zlen [g]) with 1. unfold i32. rewrite Z.mod_small by lia. lia.
  - rewrite zlen_app. change (zlen [g]) with 1. unfold UDP_POOL_SIZE. lia.
  - apply Forall2_app.
    + eapply holds_same; [done|]. intros q Hq. rewrite !lookup_insert_ne; [done| |]; by intros <-.
    + constructor; [|constructor]. split; [done|]. cbn. split; [by rewrite lookup_insert_ne, lookup_insert_eq by congruence|].
      exists pad. by rewrite lookup_insert_eq.
  - rewrite blocks_of_app. change (blocks_of [_]) with [fa; fd]. nodup.
  - apply Forall_app. split; [done|by apply Forall_singleton].
  - rewrite blocks_of_app. change (blocks_of [_]) with [fa; fd]. rewrite without_app. cbn [without foldr].
    rewrite delete_insert_ne by done. rewrite !delete_insert_eq. by rewrite !delete_id by (rewrite ?lookup_delete_ne by done; done).
Qed.

Lemma pool_take R o m g gs f l :
  pool R o m (g :: gs) → frame_list o = f :: l →
  m !! faddr f ≠ None ∧ delete (faddr f) m !! fdata f = Some g.2 ∧
  pool R (set_frames l (i32 (frames o - 1)) o) (delete (fdata f) (delete (faddr f) m)) gs.
Proof.
  intros [Hc Hmax Hh Hn Hs Hr] Hl. rewrite Hl in *. change (blocks_of (f :: l)) with (faddr f :: fdata f :: blocks_of l) in *.
  inversion Hh as [|? ? ? ? (Hlen & Hd & pad & Ha) Hh']; subst. apply Forall_cons in Hs as [_ Hs].
  rewrite zlen_cons in *. pose proof (zlen_nonneg gs). unfold UDP_POOL_SIZE in *. nodup_sat.
  split_and!; [by rewrite Ha|by rewrite lookup_delete_ne by done|].
  split; cbn [frames frame_list set_frames]; try done.
  - rewrite Hc. unfold i32. rewrite Z.mod_small by lia. lia.
  - unfold UDP_POOL_SIZE. lia.
  - eapply holds_same; [done|]. intros q Hq. rewrite !lookup_delete_ne; [done| |]; by intros <-.
  - rewrite !without_delete by done. cbn [without foldr]. apply delete_delete.
Qed.

(** ** What the application asked for *)

(** The name that an address was made up for, in a cache with the entries [l]. *)
Definition made_up_for (k : dns) (l : lru) (ip : ip_addr) : option bytes :=
  match ip_type ip, ip4_host (u_addr ip) with
  | IPADDR_TYPE_V4, Some v => (spec_lookup (Z.land (i32 v) (Z.lnot (mask k))) l).1
  | _, _ => None
  end.

(** [nm]: the names that addresses stand for. *)
Definition resolves_by (md : option dns) (nm : ip_addr → option bytes) : Prop :=
  match md with
  | Some k => ∃ l, dns_inv k l ∧ max k <= Z.lnot (mask k) ∧ ∀ ip, nm ip = made_up_for k l ip
  | None => ∀ ip, nm ip = None
  end.

Definition asked (ip : ip_addr) (port : Z) (name : option bytes) : bytes :=
  match name, ip_type ip with
  | Some n, _ => wire_name n (htons port)
  | None, IPADDR_TYPE_V6 => wire_ipv6 (take 16 (u_addr ip)) (htons port)
  | None, _ => wire_ipv4 (take 4 (u_addr ip)) (htons port)
  end.

Definition peer_ok (ip : ip_addr) (port : Z) (name : option bytes) : Prop :=
  16 <= zlen (u_addr ip) ∧ ip_type ip ≠ IPADDR_TYPE_ANY ∧ 0 <= port < 65536 ∧
  match name with Some n => is_str n ∧ zlen n < 256 | None => True end.

Lemma asked_sendable ip port name bs : peer_ok ip port name → sendable (asked ip port name, bs).
Proof.
  intros (Hl & Ht & Hp & Hn). unfold sendable, asked. cbn [fst].
  assert (zlen (take 4 (u_addr ip)) = 4 ∧ zlen (take 16 (u_addr ip)) = 16) as [H4 H16].
  { unfold zlen in *. rewrite !length_take. lia. }
  destruct name as [n|]; [|destruct (ip_type ip)]; [| | |done]; unfold wire_name, wire_ipv4, wire_ipv6;
    rewrite !zlen_cons, !zlen_app; change (zlen (le16 _)) with 2; rewrite ?H4, ?H16; try (by split).
  pose proof (zlen_nonneg n). split; [|lia].
  change (Some (4 + zlen n) = Some (1 + (1 + (zlen n + 2)))). f_equal. lia.
Qed.

(** Looking an address up does not change what it stands for. *)
Lemma find_touch (P : bytes * Z → bool) l : List.find P (touch P l) = List.find P l.
Proof.
  assert (∀ k, List.find P (filter (λ p, P p = false) l ++ k) = List.find P k) as Hf.
  { intros k. induction l as [|p l IH]; [done|]. rewrite filter_cons. destruct (decide (P p = false)) as [Hp|Hp]; [|done].
    cbn [app List.find]. by rewrite Hp. }
  unfold touch. rewrite Hf. clear Hf. induction l as [|p l IH]; [done|]. rewrite filter_cons. cbn [List.find].
  destruct (decide (P p = true)) as [Hp|Hp]; [cbn [List.find]; by rewrite Hp|]. destruct (P p); [done|exact IH].
Qed.

Lemma find_touch_other idx j l : List.find (has_idx j) (touch (has_idx idx) l) = List.find (has_idx j) l.
Proof.
  destruct (decide (j = idx)) as [->|Hne]; [apply find_touch|]. unfold touch.
  induction l as [|p l IH]; [done|]. rewrite !filter_cons. cbn [List.find].
  destruct (has_idx idx p) eqn:Hp.
  - assert (has_idx j p = false) as Hj.
    { unfold has_idx in *. apply bool_decide_eq_true in Hp. apply bool_decide_eq_false. congruence. }
    rewrite Hj, <- IH. rewrite decide_False, decide_True by done.
    set (k := filter (λ p, has_idx idx p = false) l). clearbody k. clear IH. induction k as [|q k IH]; cbn [app List.find].
    + by rewrite Hj.
    + by destruct (has_idx j q).
  - rewrite decide_True, decide_False by done. cbn [app List.find]. by destruct (has_idx j p).
Qed.

Lemma made_up_again k k' idx l ip : mask k' = mask k → made_up_for k' (spec_lookup idx l).2 ip = made_up_for k l ip.
Proof.
  intros Hm. unfold made_up_for, spec_lookup. rewrite Hm. cbn [fst snd]. destruct (ip_type ip); try done.
  destruct (ip4_host (u_addr ip)); [|done]. by rewrite find_touch_other.
Qed.

Lemma take_prefix (a : bytes) n w : take n a = w → ∃ rest, a = w ++ rest.
Proof. intros <-. exists (drop n a). by rewrite take_drop. Qed.

Lemma wire_of_ipv4 ip port :
  16 <= zlen ip → ∃ rest, (hev_socks5_addr_from_ipv4 addr_undef ip (htons port)).2 = wire_ipv4 (take 4 ip) (htons port) ++ rest.
Proof.
  intros Hl. apply (take_prefix _ 7). replace (hev_socks5_addr_from_ipv4 addr_undef ip (htons port))
    with (hev_socks5_addr_from_ipv4 addr_undef (take 4 ip) (htons port)).
  2:{ unfold hev_socks5_addr_from_ipv4. by rewrite take_take. }
  apply from_ipv4_wire; [done|unfold zlen in *; rewrite length_take; lia|apply bswap16_range].
Qed.

Lemma wire_of_ipv6 ip port :
  16 <= zlen ip → ∃ rest, (hev_socks5_addr_from_ipv6 addr_undef ip (htons port)).2 = wire_ipv6 (take 16 ip) (htons port) ++ rest.
Proof.
  intros Hl. apply (take_prefix _ 19). replace (hev_socks5_addr_from_ipv6 addr_undef ip (htons port))
    with (hev_socks5_addr_from_ipv6 addr_undef (take 16 ip) (htons port)).
  2:{ unfold hev_socks5_addr_from_ipv6. by rewrite take_take. }
  apply from_ipv6_wire; [done|unfold zlen in *; rewrite length_take; lia|apply bswap16_range].
Qed.

(** The address keeps the size of its structure. *)
Lemma size_overwrite (l bs : bytes) off n : zlen l = n → 0 <= off → off + zlen bs <= n → zlen (overwrite l off bs) = n.
Proof. intros <-. apply zlen_overwrite. Qed.
Lemma from_ipv4_size ip port : 16 <= zlen ip → zlen (hev_socks5_addr_from_ipv4 addr_undef ip port).2 = sizeof_HevSocks5Addr.
Proof.
  intros Hl. unfold hev_socks5_addr_from_ipv4. cbn [snd]. 
  assert (zlen (take 4 ip) = 4) as H4 by (unfold zlen in *; rewrite length_take; lia).
  repeat apply size_overwrite; rewrite ?H4; done.
Qed.
Lemma from_ipv6_size ip port : 16 <= zlen ip → zlen (hev_socks5_addr_from_ipv6 addr_undef ip port).2 = sizeof_HevSocks5Addr.
Proof.
  intros Hl. unfold hev_socks5_addr_from_ipv6. cbn [snd]. 
  assert (zlen (take 16 ip) = 16) as H16 by (unfold zlen in *; rewrite length_take; lia).
  repeat apply size_overwrite; rewrite ?H16; done.
Qed.
Lemma from_name_size n port r a : hev_socks5_addr_from_name addr_undef n port = Some (r, a) → zlen a = sizeof_HevSocks5Addr.
Proof.
  assert (zlen (strncpy n 256) = 256) as Hs.
  { unfold strncpy. rewrite zlen_app. unfold zlen. rewrite length_replicate, length_take. lia. }
  unfold hev_socks5_addr_from_name. destruct (cstr _) as [k|]; [|done]. intros [= _ <-].
  assert (0 <= u8 (zlen k) < 256) as Hk by (apply Z.mod_pos_bound; lia).
  repeat apply size_overwrite; rewrite ?Hs; try done; [lia|]. change (zlen (le16 _)) with 2. unfold sizeof_HevSocks5Addr. lia.
Qed.

Lemma from_lwip_asked ip port nm s :
  resolves_by (mapped_dns (self s)) nm → peer_ok ip port (nm ip) →
  ∃ md rest, addr_from_lwip addr_undef ip port s =
    Val (asked ip port (nm ip) ++ rest) (St (set_dns md (self s)) (io s)) ∧ resolves_by md nm ∧
    zlen (asked ip port (nm ip) ++ rest) = sizeof_HevSocks5Addr.
Proof.
  intros Hr (Hl & Ht & Hp & Hn). unfold addr_from_lwip, asked in *.
  destruct (wire_of_ipv4 (u_addr ip) port Hl) as (r4 & Hw4), (wire_of_ipv6 (u_addr ip) port Hl) as (r6 & Hw6).
  pose proof (from_ipv4_size (u_addr ip) (htons port) Hl) as Hz4. pose proof (from_ipv6_size (u_addr ip) (htons port) Hl) as Hz6.
  rewrite Hw4 in Hz4. rewrite Hw6 in Hz6.
  assert (set_dns (mapped_dns (self s)) (self s) = self s) as Hid by (by destruct s as [[] ?]).
  destruct (mapped_dns (self s)) as [k|] eqn:Hmd.
  2:{ rewrite (Hr ip). destruct (ip_type ip); [exists None, r4|exists None, r6|done]; rewrite ?Hw4, ?Hw6, Hid; split_and!; try done; by destruct s. }
  destruct Hr as (l & Hi & Hm & Hnm). rewrite (Hnm ip) in *. unfold made_up_for in *. destruct (ip_type ip) eqn:Hty; [| |done].
  2:{ exists (Some k), r6. split_and!; [|by exists l|done].
      unfold hev_socks5_addr_from_lwip. rewrite Hty. cbv beta iota delta [mret M_ret]. by rewrite Hw6. }
  destruct (ip4_host (u_addr ip)) as [v|] eqn:Hv.
  2:{ exfalso. unfold zlen in Hl. revert Hv Hl. clear. destruct (u_addr ip) as [|? [|? [|? [|? ?]]]]; cbn; try done; lia. }
  destruct (lookup_refines k l (i32 v) Hi Hm) as (k' & He & Hi' & (Hmax & _ & Hmask) & _).
  exists (Some k'). unfold hev_socks5_addr_from_lwip. rewrite Hty, bind_assoc. erewrite bind_val by (rewrite Hv; reflexivity).
  erewrite bind_val by exact He.
  assert (resolves_by (Some k') nm) as Hk'.
  { eexists. split; [exact Hi'|]. rewrite Hmax, Hmask. split; [done|]. intros ip'. rewrite Hnm. symmetry. by apply made_up_again. }
  destruct ((spec_lookup (Z.land (i32 v) (Z.lnot (mask k))) l).1) as [n|].
  - destruct Hn as [Hs Hlen]. destruct (from_name_wire addr_undef n (htons port) eq_refl Hs Hlen (bswap16_range port)) as (rest & Hfn).
    exists rest. erewrite bind_val by (rewrite Hfn; reflexivity). split_and!; [done|done|by eapply from_name_size].
  - exists r4. split_and!; [cbv beta iota delta [mret M_ret]; by rewrite Hw4|done|done].
Qed.

(** ** Receiving from the application *)

(** What replies are shown to come from. *)
Definition local_of (o : HevSocks5SessionUDP) : bytes * Z := (local_addr o, local_port o).
Definition has_local (o : HevSocks5SessionUDP) : bool := negb (forallb (Z.eqb 0) (local_addr o)) && truthy (local_port o).

Section Session.
Context `{Resolver} (srv : HevConfigServer).
#[local] Instance udp_class : UDPClass usession := usession_udp srv.
Implicit Types s : st usession.
Context (X : gmap Z chan) (d : Z) (nm : ip_addr → option bytes).

(** Nothing but datagrams, and what other sessions do. *)
Definition calm (e : uevent) : Prop :=
  match e with
  | UdpRecv ip port (Some _) => peer_ok ip port (nm ip)
  | UdpSessionsChange _ => True
  | _ => False
  end.

(** A session over TCP: its connection delivers [i], [o] was sent, the frames that wait
    hold [gs], the other blocks of memory are [R], and addresses stand for names as
    [nm] says. *)
Record session_at (i o : bytes) (R : gmap Z bytes) (gs : list dgram) s : Prop := {
  sa_view : tcp_view X d i o (blocks (io s)) s;
  sa_pool : pool R (us (self s)) (blocks (io s)) gs;
  sa_dns : resolves_by (mapped_dns (self s)) nm;
  sa_local : zlen (local_addr (us (self s))) = 4 ∧ 0 <= local_port (us (self s)) < 65536;
  sa_cb : upcb (us (self s)) = true;
  sa_calm : Forall (Forall calm) (uevents (ul (self s)))
}.

(** The event does not change what replies are shown to come from. *)
Definition same_source (c : bytes * Z) (e : uevent) : Prop :=
  match e with
  | UdpRecv ip port (Some _) => is_Some (nm ip) → c = (take 4 (u_addr ip), port)
  | _ => True
  end.

(** What the events [es] leave as it is. *)
Record steady (es : list uevent) s s' : Prop := {
  st_mallocs : mallocs (io s) = [] → mallocs (io s') = [];
  st_local : Forall (same_source (local_of (us (self s)))) es → local_of (us (self s')) = local_of (us (self s))
}.

Lemma steady_app es es' s s' s'' : steady es s s' → steady es' s' s'' → steady (es ++ es') s s''.
Proof using Type.
  intros [Hm Hl] [Hm' Hl']. split; [auto|]. intros [H1 H2]%Forall_app. rewrite Hl' by (by rewrite Hl). by apply Hl.
Qed.

Lemma view_kept i o m s s' :
  tcp_view X d i o m s → scu (us (self s')) = scu (us (self s)) → chans (io s') = chans (io s) → wakes (io s') = wakes (io s) →
  tcp_view X d i o (blocks (io s')) s'.
Proof using Type.
  intros (Hp & Hd & _ & Hx & c & [] & Hi & Ho) Hs Hc Hw. unfold tcp_view, tcp_session in *. cbn in *.
  unfold hev_socks5_client_udp_get_fd in *. rewrite Hs, Hc. split_and!; try done; [apply Hp|apply Hp|].
  exists c. split_and!; try done. split; congruence.
Qed.

Lemma pool_local R o m gs a p : pool R (set_local a p o) m gs ↔ pool R o m gs.
Proof using Type. split; intros []; by split. Qed.

Lemma stack_alloc_val bs s :
  ∃ p, stack_alloc bs s = Val p (with_blocks (<[p := bs]> (blocks (io s))) s) ∧ p ≠ 0 ∧ blocks (io s) !! p = None.
Proof using Type.
  set (p := fresh (dom (blocks (io s)) ∪ {[0]})). exists p.
  assert (p ∉ dom (blocks (io s)) ∪ {[0]}) as Hp by apply is_fresh. apply not_elem_of_union in Hp as [H1 H2].
  split_and!; [done|set_solver|by apply not_elem_of_dom].
Qed.

Lemma block_free_val p b s : blocks (io s) !! p = Some b → hev_free p s = Val tt (with_blocks (delete p (blocks (io s))) s).
Proof using Type. intros Hb. unfold hev_free, on_io, zoom. by rewrite Hb. Qed.

Lemma malloc_cases n b s :
  0 <= n →
  (∃ ms, hev_malloc n b s = Val 0 (St (self s) (set_mallocs ms (io s))) ∧ mallocs (io s) ≠ []) ∨
  (∃ q ms, hev_malloc n b s = Val q (with_blocks (<[q := b]> (blocks (io s))) (St (self s) (set_mallocs ms (io s)))) ∧
    q ≠ 0 ∧ blocks (io s) !! q = None ∧ (mallocs (io s) = [] → ms = [])).
Proof using Type.
  intros Hn. unfold hev_malloc, on_io, zoom. destruct (Z.ltb_spec n 0); [lia|].
  set (q := fresh (dom (blocks (io s)) ∪ {[0]})).
  assert (q ∉ dom (blocks (io s)) ∪ {[0]}) as Hq by apply is_fresh. apply not_elem_of_union in Hq as [Hq1 Hq2].
  apply not_elem_of_dom in Hq1. assert (q ≠ 0) as Hq0 by (intros ->; by apply Hq2, elem_of_singleton).
  destruct (mallocs (io s)) as [|[] ms] eqn:Hm.
  - right. exists q, []. by split_and!.
  - right. exists q, ms. split_and!; try done. 
  - left. by exists ms.
Qed.

Lemma add_frame_val f l s :
  frame_list (us (self s)) = l → (∀ k, last l = Some k → is_Some (blocks (io s) !! faddr k)) →
  add_frame f s = Val tt (St (set_us (set_frames (l ++ [f]) (frames (us (self s))) (us (self s))) (self s)) (io s)).
Proof using Type.
  intros Hl Hk. unfold add_frame. erewrite bind_val by reflexivity. rewrite Hl. erewrite bind_val.
  - unfold upd_us, modify. rewrite Hl. reflexivity.
  - destruct (last l) as [k|]; [|reflexivity]. destruct (Hk k eq_refl) as [b Hb]. pose proof (zlen_nonneg b).
    unfold load, mbind, M_bind. cbn [fst snd]. rewrite Hb. destruct (Z.leb_spec (0 + 0) (zlen b)); [reflexivity|lia].
Qed.

Definition name_type (n : option bytes) (ip : ip_addr) : Z :=
  match n, ip_type ip with
  | Some _, _ => HEV_SOCKS5_ADDR_TYPE_NAME
  | None, IPADDR_TYPE_V6 => HEV_SOCKS5_ADDR_TYPE_IPV6
  | None, _ => HEV_SOCKS5_ADDR_TYPE_IPV4
  end.
Lemma first_byte ip port n rest : zget (asked ip port n ++ rest) 0 = Some (name_type n ip).
Proof using Type. unfold asked, name_type. by destruct n, (ip_type ip). Qed.

Lemma is_name_type n ip : (name_type n ip =? HEV_SOCKS5_ADDR_TYPE_NAME) = match n with Some _ => true | None => false end.
Proof using Type. unfold name_type. by destruct n, (ip_type ip). Qed.

Lemma store_all q bs b s :
  blocks (io s) !! q = Some b → zlen bs = zlen b → store (q, 0) bs s = Val tt (with_blocks (<[q := bs]> (blocks (io s))) s).
Proof using Type.
  intros Hb Hl. pose proof (overwrite_prefix [] b bs) as Ho. cbn [app] in Ho. change (zlen []) with 0 in Ho.
  unfold store, on_io, zoom. cbn [fst snd]. rewrite Hb, Ho by (unfold zlen in *; lia).
  destruct (Z.leb_spec (0 + zlen bs) (zlen b)); [done|lia].
Qed.

(** The new frame. *)
Lemma accept_spec i o R gs bs p rest md q ms ip port s :
  session_at i o R gs s → zlen gs <= UDP_POOL_SIZE → blocks (io s) !! p = None → blocks (io s) !! q = None → p ≠ q →
  resolves_by md nm → peer_ok ip port (nm ip) → (mallocs (io s) = [] → ms = []) →
  let a := asked ip port (nm ip) in
  let m := <[q := a ++ rest]> (<[p := bs]> (blocks (io s))) in
  ∃ s', (atype ← of_option (zget (a ++ rest) 0);
    (if atype =? HEV_SOCKS5_ADDR_TYPE_NAME then upd_us (set_local (take 4 (u_addr ip)) port) else mret tt);;
    upd_us (λ self, set_frames (frame_list self) (i32 (frames self + 1)) self);;
    add_frame (UDPFrame q p (zlen bs))) (with_blocks m (St (set_dns md (self s)) (set_mallocs ms (io s)))) = Val tt s' ∧
    session_at i o R (gs ++ [(a, bs)]) s' ∧ (∀ r, steady [UdpRecv ip port (Some (bs, r))] s s') ∧ ul (self s') = ul (self s).
Proof using Type.
  intros Hs Hmax Hp Hq Hpq Hmd Hpeer Hms a m. pose proof Hs as [Hv Hpo Hdns Hloc Hcb Hcalm].
  set (o1 := if match nm ip with Some _ => true | None => false end
    then set_local (take 4 (u_addr ip)) port (us (self s)) else us (self s)).
  set (o2 := set_frames (frame_list (us (self s)) ++ [UDPFrame q p (zlen bs)]) (i32 (frames (us (self s)) + 1)) o1).
  exists (with_blocks m (St (set_us o2 (set_dns md (self s))) (set_mallocs ms (io s)))).
  assert (pool R o2 m (gs ++ [(a, bs)])) as Hpo2.
  { pose proof (pool_add R _ _ gs q p (a, bs) rest Hpo Hmax (asked_sendable _ _ _ _ Hpeer) (not_eq_sym Hpq) Hq Hp) as Hadd.
    unfold o2, o1. destruct (nm ip); [|exact Hadd]. eapply pool_local, Hadd. }
  split; [|split; [|split]].
  - erewrite bind_val by (unfold a; rewrite first_byte; reflexivity).
    assert (∀ k, last (frame_list (us (self s))) = Some k → is_Some (m !! faddr k)) as Hlast.
    { intros k [l Hl]%last_Some. destruct (holds_live _ _ _ (po_held _ _ _ _ Hpo2) (faddr k)) as [b Hb]; [|by exists b].
      unfold o2. cbn [frame_list set_frames]. rewrite Hl, !blocks_of_app. set_solver. }
    unfold o2, o1 in *. rewrite is_name_type. destruct (nm ip) as [n|]; (erewrite bind_val by reflexivity); (erewrite bind_val by reflexivity);
      by erewrite add_frame_val.
  - split; try done; cbn.
    + eapply view_kept; [exact Hv|by unfold o2, o1; destruct (nm ip)|done|done].
    + unfold o2, o1. destruct Hpeer as (Hl & _ & Hport & _). destruct (nm ip); [|done]. cbn. split; [|done].
      unfold zlen in *. rewrite length_take. lia.
    + unfold o2, o1. by destruct (nm ip).
  - intros r. split; [done|]. cbn. unfold o2, o1. destruct (nm ip) eqn:Hn; [|done].
    intros [Hf _]%Forall_cons. symmetry. apply Hf. by rewrite Hn.
  - done.
Qed.

Lemma with_blocks_self m s : self (with_blocks m s) = self s.
Proof using Type. done. Qed.

(** Memory that was asked for and given back changes nothing. *)
Lemma dropped i o R gs ms e s :
  session_at i o R gs s → (mallocs (io s) = [] → ms = []) →
  session_at i o R gs (St (self s) (set_mallocs ms (io s))) ∧ steady [e] s (St (self s) (set_mallocs ms (io s))).
Proof using Type.
  intros Hs Hms. split; split; try done; try (by destruct Hs). eapply view_kept; [by destruct Hs|done|done|done].
Qed.

Lemma dropped_free p bs ms s :
  blocks (io s) !! p = None →
  pbuf_free p (with_blocks (<[p := bs]> (blocks (io s))) (St (self s) (set_mallocs ms (io s)))) = Val tt (St (self s) (set_mallocs ms (io s))).
Proof using Type.
  intros Hp. unfold pbuf_free. erewrite block_free_val by (cbn; by rewrite lookup_insert_eq).
  rewrite with_blocks_twice. cbn. rewrite delete_insert_id by done. by destruct s as [? []].
Qed.

(** The datagrams in callbacks, as the application addressed them; of one in several
    buffers it is the first one. *)
Definition arriving (e : uevent) : list dgram :=
  match e with UdpRecv ip port (Some (bs, _)) => [(asked ip port (nm ip), bs)] | _ => [] end.

Definition same_stack (l l' : ulwip) : Prop := pbufs l' = pbufs l ∧ sent l' = sent l ∧ delivered l' = delivered l.

(** What callbacks add to the frames that wait: some of what arrives, and all of it
    when there is room and memory. *)
Definition enqueues (r : outcome (st usession) unit) (i o : bytes) (R : gmap Z bytes) (gs : list dgram) (es : list uevent) s : Prop :=
  ∃ s' new, r = Val tt s' ∧ session_at i o R (gs ++ new) s' ∧ steady es s s' ∧
    same_stack (ul (self s)) (ul (self s')) ∧ uevents (ul (self s')) = uevents (ul (self s)) ∧ new `sublist_of` mjoin (arriving <$> es) ∧
    (mallocs (io s) = [] → zlen gs + zlen (mjoin (arriving <$> es)) <= UDP_POOL_SIZE + 1 → new = mjoin (arriving <$> es)).

Lemma enqueues_bind {A} (m : M (st usession) A) (f : A → M (st usession) unit) a s0 s1 i o R gs es s :
  m s0 = Val a s1 → enqueues (f a s1) i o R gs es s → enqueues ((m ≫= f) s0) i o R gs es s.
Proof using Type. intros Hm. by rewrite (bind_val _ _ _ _ _ Hm). Qed.

(** The stack's side is not the session's. *)
Lemma session_stack i o R gs l s :
  session_at i o R gs s → uevents l = uevents (ul (self s)) → session_at i o R gs (St (set_ul l (self s)) (io s)).
Proof using Type.
  intros Hs He. pose proof (view_kept i o _ s (St (set_ul l (self s)) (io s)) (sa_view _ _ _ _ _ Hs) eq_refl eq_refl eq_refl).
  destruct Hs. split; cbn; rewrite ?He; done.
Qed.

(** One datagram: it is dropped, or waits in a frame of its own. *)
Lemma datagram_step i o R gs ip port bs r s :
  session_at i o R gs s → peer_ok ip port (nm ip) →
  enqueues (ucallback (UdpRecv ip port (Some (bs, r))) s) i o R gs [UdpRecv ip port (Some (bs, r))] s.
Proof using Type.
  intros Hs0 Hpeer. unfold ucallback. eapply enqueues_bind; [reflexivity|]. rewrite (sa_cb _ _ _ _ _ Hs0).
  cbn [when]. eapply enqueues_bind; [reflexivity|]. set (s1 := St _ _).
  assert (session_at i o R gs s1) as Hs by (by apply session_stack).
  assert (pcb_ip (ul (self s1)) = ip ∧ pcb_port (ul (self s1)) = port) as [Hip Hport] by done.
  cut (enqueues ((p ← pbuf_alloc bs; udp_recv_handler p (zlen bs)) s1) i o R gs [UdpRecv ip port (Some (bs, r))] s1).
  { intros (s' & new & H1 & H2 & H3 & H4). exists s', new. split; [exact H1|]. split; [exact H2|]. split; [|exact H4].
    destruct H3. by split. }
  clearbody s1. clear s Hs0. rename s1 into s. subst ip port. set (ip := pcb_ip _) in *. set (port := pcb_port _) in *. pose proof Hs as [_ Hpo Hdns _ _ _].
  destruct (stack_alloc_val bs s) as (p & Hal & Hp0 & Hp). unfold pbuf_alloc. eapply enqueues_bind; [exact Hal|].
  unfold udp_recv_handler. rewrite (truthy_ne p Hp0). cbn [negb]. eapply enqueues_bind; [reflexivity|].
  rewrite with_blocks_self, (po_count _ _ _ _ Hpo).
  destruct (Z.ltb_spec UDP_POOL_SIZE (zlen gs)) as [Hfull|Hroom].
  - destruct (dropped i o R gs (mallocs (io s)) (UdpRecv ip port (Some (bs, r))) s Hs (λ H, H)) as [H1 H2].
    eexists _, []. rewrite app_nil_r. split_and!; [|exact H1|exact H2|done|done|apply sublist_nil_l|].
    + rewrite <- (dropped_free p bs) by done. by destruct s as [? []].
    + intros _. change (zlen (mjoin _)) with 1. lia.
  - destruct (malloc_cases sizeof_HevSocks5Addr addr_undef (with_blocks (<[p := bs]> (blocks (io s))) s)) as [(ms & Hm & Hne)|(q & ms & Hm & Hq0 & Hq & Hms)];
      [done| |]; (eapply enqueues_bind; [exact Hm|]).
    + destruct (dropped i o R gs ms (UdpRecv ip port (Some (bs, r))) s Hs) as [H1 H2]; [done|].
      eexists _, []. rewrite app_nil_r. split_and!; [|exact H1|exact H2|done|done|apply sublist_nil_l|done]. by rewrite <- (dropped_free p bs).
    + cbn in Hq. apply lookup_insert_None in Hq as [Hq Hpq].
      destruct (from_lwip_asked ip port nm (with_blocks (<[q := addr_undef]> (<[p := bs]> (blocks (io s)))) (St (self s) (set_mallocs ms (io s)))) Hdns Hpeer)
        as (md & rest & Hlw & Hmd & Hsz).
      destruct (accept_spec i o R gs bs p rest md q ms ip port s Hs Hroom Hp Hq Hpq Hmd Hpeer Hms) as (s' & Hrun & Hs' & Hst & Hul).
      rewrite (truthy_ne q Hq0). cbn [negb]. eapply enqueues_bind; [reflexivity|]. eapply enqueues_bind.
      { exact Hlw. }
      exists s', [(asked ip port (nm ip), bs)]. rewrite Hul. split_and!; [|exact Hs'|apply Hst|done|done|done|done].
      rewrite <- Hrun. erewrite bind_val; [reflexivity|].
      rewrite (store_all q _ addr_undef) by (cbn; rewrite ?lookup_insert_eq; done).
      cbn [io with_blocks blocks set_blocks]. rewrite insert_insert_eq. by destruct s as [? []].
Qed.

Lemma run_step i o R es gs s :
  session_at i o R gs s → Forall calm es → enqueues (run_ucallbacks es s) i o R gs es s.
Proof using Type.
  revert gs s. induction es as [|e es IH]; intros gs s Hs Hc.
  { exists s, []. rewrite app_nil_r. by split_and!. }
  apply Forall_cons in Hc as [He Hc].
  assert (enqueues (ucallback e s) i o R gs [e] s) as (s1 & new1 & E1 & Hs1 & Hst1 & Hsk1 & Hev1 & Hsub1 & Hall1).
  { destruct e as [ip port [[bs r]|]|t|]; try done; [by apply datagram_step|].
    eexists _, []. rewrite app_nil_r. split_and!; [reflexivity| |by split|done|done|done|done]. split; try (by destruct Hs).
    eapply view_kept; [by destruct Hs|done|done|done]. }
  destruct (IH _ _ Hs1 Hc) as (s2 & new2 & E2 & Hs2 & Hst2 & Hsk2 & Hev2 & Hsub2 & Hall2).
  change (mjoin (arriving <$> [e])) with (arriving e ++ []) in *. rewrite app_nil_r in Hsub1, Hall1.
  exists s2, (new1 ++ new2). cbn [run_ucallbacks]. rewrite (bind_val _ _ _ _ _ E1), app_assoc.
  change (mjoin (arriving <$> e :: es)) with (arriving e ++ mjoin (arriving <$> es)). split_and!.
  - done.
  - done.
  - by eapply (steady_app [e]).
  - destruct Hsk1 as (? & ? & ?), Hsk2 as (? & ? & ?). split_and!; congruence.
  - congruence.
  - by apply sublist_app.
  - intros Hm Hroom. rewrite zlen_app in Hroom. pose proof (zlen_nonneg (mjoin (arriving <$> es))).
    assert (new1 = arriving e) as -> by (apply Hall1; [done|lia]). rewrite Hall2; [done|by apply Hst1|].
    rewrite zlen_app. lia.
Qed.

(** The datagrams to come. *)
Definition coming (u : usession) : list dgram := mjoin (arriving <$> mjoin (uevents (ul u))).

(** What happened to the datagrams to come: some of them wait now, and all that came
    when there is room and memory. *)
Record came (gs new : list dgram) s s' : Prop := {
  ca_mallocs : mallocs (io s) = [] → mallocs (io s') = [];
  ca_local : Forall (same_source (local_of (us (self s)))) (mjoin (uevents (ul (self s)))) → local_of (us (self s')) = local_of (us (self s));
  ca_events : ∃ es, mjoin (uevents (ul (self s))) = es ++ mjoin (uevents (ul (self s')));
  ca_some : (new ++ coming (self s')) `sublist_of` coming (self s);
  ca_all : mallocs (io s) = [] → zlen gs + zlen (coming (self s)) <= UDP_POOL_SIZE + 1 → new ++ coming (self s') = coming (self s)
}.

Lemma came_nil gs s s' :
  (mallocs (io s) = [] → mallocs (io s') = []) → local_of (us (self s')) = local_of (us (self s)) →
  uevents (ul (self s')) = uevents (ul (self s)) → came gs [] s s'.
Proof using Type.
  intros Hm Hl He. assert (coming (self s') = coming (self s)) as Hc by (unfold coming; by rewrite He).
  split; [done|done|exists []; by rewrite He|by rewrite Hc|done].
Qed.

Lemma came_local gs new s s' :
  came gs new s s' → Forall (same_source (local_of (us (self s)))) (mjoin (uevents (ul (self s)))) →
  local_of (us (self s')) = local_of (us (self s)) ∧ Forall (same_source (local_of (us (self s')))) (mjoin (uevents (ul (self s')))).
Proof using Type.
  intros [_ Hl [es He] _ _] Hf. rewrite (Hl Hf). split; [done|]. rewrite He in Hf. by apply Forall_app in Hf as [_ Hf].
Qed.

Lemma came_trans gs new new' s s' s'' :
  came gs new s s' → came (gs ++ new) new' s' s'' → came gs (new ++ new') s s''.
Proof using Type.
  intros H1 H2. pose proof H1 as [Hm Hl [es He] Hs Ha]. pose proof H2 as [Hm' Hl' [es' He'] Hs' Ha']. split.
  - auto.
  - intros Hf. destruct (came_local _ _ _ _ H1 Hf) as [E1 Hf1]. by rewrite Hl', E1.
  - exists (es ++ es'). by rewrite He, He', app_assoc.
  - rewrite <- app_assoc. etrans; [|exact Hs]. by apply sublist_app.
  - intros Hm0 Hr. rewrite <- app_assoc, Ha'; [by apply Ha|by apply Hm|].
    specialize (Ha Hm0 Hr). rewrite <- Ha, zlen_app in Hr. rewrite zlen_app. lia.
Qed.

Lemma came_around gs new s s1 s2 s3 : came gs [] s s1 → came gs new s1 s2 → came (gs ++ new) [] s2 s3 → came gs new s s3.
Proof using Type.
  intros H1 H2 H3. rewrite <- (app_nil_r new). eapply came_trans; [|exact H3].
  apply (came_trans gs [] new s s1 s2); [done|]. by rewrite app_nil_r.
Qed.

(** The next callbacks. *)
Lemma batch_step i o R gs es ess s :
  session_at i o R gs s → uevents (ul (self s)) = es :: ess →
  ∃ s' new, ucallbacks s = Val tt s' ∧ session_at i o R (gs ++ new) s' ∧ steady es s s' ∧
    same_stack (ul (self s)) (ul (self s')) ∧ uevents (ul (self s')) = ess ∧ new `sublist_of` mjoin (arriving <$> es) ∧
    (mallocs (io s) = [] → zlen gs + zlen (mjoin (arriving <$> es)) <= UDP_POOL_SIZE + 1 → new = mjoin (arriving <$> es)).
Proof using Type.
  intros Hs Hev. pose proof (sa_calm _ _ _ _ _ Hs) as Hcalm. rewrite Hev in Hcalm. apply Forall_cons in Hcalm as [Hes Hess].
  set (s0 := St (set_ul (set_uevents ess (ul (self s))) (self s)) (io s)).
  assert (session_at i o R gs s0) as Hs0.
  { split; try (by destruct Hs). eapply view_kept; [by destruct Hs|done|done|done]. }
  destruct (run_step _ _ _ es _ _ Hs0 Hes) as (s' & new & E & Hs' & Hst & Hsk & Hev' & Hsub & Hall).
  exists s', new. unfold ucallbacks. erewrite bind_val by reflexivity. rewrite Hev. erewrite bind_val by reflexivity.
  split; [exact E|]. split; [exact Hs'|]. split; [by destruct Hst|]. by split_and!.
Qed.

Lemma callbacks_step i o R gs s :
  session_at i o R gs s →
  ∃ s' new, ucallbacks s = Val tt s' ∧ session_at i o R (gs ++ new) s' ∧ came gs new s s' ∧ same_stack (ul (self s)) (ul (self s')).
Proof using Type.
  intros Hs. destruct (uevents (ul (self s))) as [|es ess] eqn:Hev.
  - exists s, []. rewrite app_nil_r. unfold ucallbacks. erewrite bind_val by reflexivity. rewrite Hev.
    split_and!; [done|done|by apply came_nil|done].
  - destruct (batch_step _ _ _ _ _ _ _ Hs Hev) as (s' & new & E & Hs' & Hst & Hsk & Hev' & Hsub & Hall).
    exists s', new. split; [exact E|]. split; [exact Hs'|]. split; [|exact Hsk].
    assert (mjoin (uevents (ul (self s))) = es ++ mjoin (uevents (ul (self s')))) as Hms by (by rewrite Hev, Hev').
    assert (coming (self s) = mjoin (arriving <$> es) ++ coming (self s')) as Hc.
    { unfold coming. by rewrite Hms, fmap_app, join_app. }
    split; [apply Hst| |by exists es|rewrite Hc; by apply sublist_app|].
    + intros Hf. apply Hst. rewrite Hms in Hf. by apply Forall_app in Hf as [? _].
    + intros Hm Hr. rewrite Hc in *. rewrite zlen_app in Hr. pose proof (zlen_nonneg (coming (self s'))). by rewrite Hall by (done || lia).
Qed.

(** ** Towards the server *)

Lemma free_step i o R n gs s :
  session_at i o R gs s → (n <= length gs)%nat →
  ∃ s', free_frames n s = Val tt s' ∧ session_at i o R (drop n gs) s' ∧ mallocs (io s') = mallocs (io s) ∧
    local_of (us (self s')) = local_of (us (self s)) ∧ ul (self s') = ul (self s).
Proof using Type.
  revert gs s. induction n as [|n IH]; intros gs s Hs Hn; [by exists s|].
  destruct gs as [|g gs]; [cbn in Hn; lia|]. cbn [free_frames drop]. pose proof (sa_pool _ _ _ _ _ Hs) as Hpo.
  destruct (frame_list (us (self s))) as [|f l] eqn:Hl.
  { pose proof (po_held _ _ _ _ Hpo) as Hh. rewrite Hl in Hh. by inversion Hh. }
  destruct (pool_take _ _ _ _ _ _ _ Hpo Hl) as (Ha & Hd & Hpo').
  destruct (blocks (io s) !! faddr f) as [ab|] eqn:Hab; [|done].
  set (u := set_frames l (i32 (frames (us (self s)) - 1)) (us (self s))) in *.
  set (s1 := with_blocks (delete (fdata f) (delete (faddr f) (blocks (io s)))) (St (set_us u (self s)) (io s))).
  assert (session_at i o R gs s1) as Hs1.
  { split; try (by destruct Hs). eapply view_kept; [by destruct Hs|done|done|done]. }
  destruct (IH gs s1 Hs1) as (s' & E & Hs' & Hst & Hlo & Hev); [cbn in Hn; lia|]. exists s'. split; [|by split_and!].
  erewrite bind_val by reflexivity. rewrite Hl. erewrite bind_val by reflexivity.
  erewrite bind_val by (apply (block_free_val _ ab); done).
  erewrite bind_val by (apply (block_free_val _ g.2); done). exact E.
Qed.

Lemma frame_msgs m l gs : Forall2 (frame_holds m) l gs → Forall2 (carries m) gs (frame_msg <$> l).
Proof using Type.
  induction 1 as [|f g l gs (Hl & Hd & pad & Ha) _ IH]; [constructor|]. constructor; [|exact IH]. split; [|split; [|done]].
  - exists (faddr f, 0). split; [done|]. exists (g.1 ++ pad). cbn [fst snd]. rewrite zlen_app. pose proof (zlen_nonneg pad).
    split_and!; [done|lia|lia|]. unfold slice, zlen. rewrite Nat2Z.id, drop_0. apply take_app_length.
  - exists g.2. cbn [fst snd mbuf frame_msg]. split_and!; [done|lia|lia|]. unfold slice, zlen. rewrite Nat2Z.id, drop_0. apply take_ge. lia.
Qed.

(** What a call on the connection keeps of the session. *)
Lemma session_apart i o i' o' R gs s s' :
  session_at i o R gs s → apart s s' → tcp_view X d i' o' (blocks (io s)) s' → session_at i' o' R gs s' ∧ came gs [] s s' ∧ ul (self s') = ul (self s).
Proof using Type.
  intros Hs [Ho Hm] Hv. assert (blocks (io s') = blocks (io s)) as Hb by (by destruct Hv as (_ & _ & ? & _)).
  split_and!; [|apply came_nil; congruence|congruence]. destruct Hs. by split; rewrite ?Ho, ?Hb.
Qed.

Lemma session_tcp i o R gs s : session_at i o R gs s → type (base (self s)) = HEV_SOCKS5_TYPE_UDP_IN_TCP.
Proof using Type. intros []. destruct sa_view0 as ([_ ?] & _). done. Qed.

Lemma fwd_f_spec i o R gs num s :
  session_at i o R gs s → (0 < num)%nat →
  ∃ s' new, hev_socks5_session_udp_fwd_f srv num s = Val (if decide (gs = []) then 0 else 1) s' ∧
    session_at i (o ++ UDPSpec.frames (take num gs)) R (drop num gs ++ new) s' ∧ came gs new s s' ∧ same_stack (ul (self s)) (ul (self s')).
Proof using Type.
  intros Hs Hnum. pose proof (sa_pool _ _ _ _ _ Hs) as Hpo. unfold hev_socks5_session_udp_fwd_f.
  erewrite bind_val by reflexivity. rewrite (po_count _ _ _ _ Hpo). pose proof (Forall2_length _ _ _ (po_held _ _ _ _ Hpo)) as Hlen.
  destruct (decide (gs = [])) as [->|Hne].
  { exists s, []. rewrite take_nil, drop_nil, !app_nil_r. split_and!; [done|done|by apply came_nil|done]. }
  destruct (Z.leb_spec (zlen gs) 0) as [Hz|Hpos]; [destruct gs; [done|rewrite zlen_cons in Hz; pose proof (zlen_nonneg gs); lia]|].
  set (n := (num `min` length gs)%nat).
  assert ((if Z.of_nat num <? zlen gs then Z.of_nat num else zlen gs) = Z.of_nat n) as ->.
  { unfold n, zlen. destruct (Z.ltb_spec (Z.of_nat num) (Z.of_nat (length gs))); lia. }
  destruct (Z.ltb_spec (zlen (frame_list (us (self s)))) (Z.of_nat n)) as [Hx|_]; [unfold n, zlen in *; lia|]. rewrite Nat2Z.id.
  assert (take num gs = take n gs ∧ drop num gs = drop n gs) as [-> ->].
  { unfold n. destruct (Nat.min_spec num (length gs)) as [[_ ->]|[Hge ->]]; [done|]. by rewrite !take_ge, !drop_ge by lia. }
  assert (length (take n gs) = n) as Htl by (rewrite length_take; unfold n; lia).
  destruct (send_frames X d (take n gs) (frame_msg <$> take n (frame_list (us (self s)))) i o _ s (sa_view _ _ _ _ _ Hs))
    as (s1 & E1 & Hv1).
  { eapply frame_msgs. apply Forall2_take, Hpo. }
  { intros Hnil. rewrite Hnil in Htl. unfold n, zlen in *. cbn [length] in Htl. lia. }
  { apply Forall_take, Hpo. }
  assert (zlen (take n gs) = Z.of_nat n) as Hzn by (unfold zlen; by rewrite Htl). rewrite Hzn in E1.
  pose proof (quiet_val _ _ _ _ (quiet_sendmmsg _) (session_tcp _ _ _ _ _ Hs) E1) as Hap.
  destruct (session_apart _ _ _ _ _ _ _ _ Hs Hap Hv1) as (Hs1 & Hc1 & Hul1).
  destruct (callbacks_step _ _ _ _ _ Hs1) as (s2 & new & E2 & Hs2 & Hc2 & Hsk).
  destruct (free_step _ _ _ n _ _ Hs2) as (s3 & E3 & Hs3 & Hm3 & Hl3 & Hul3); [rewrite length_app; unfold n; lia|].
  exists s3, new. erewrite bind_val by exact E1. erewrite bind_val by exact E2.
  destruct (Z.leb_spec (Z.of_nat n) 0) as [Hz|_]; [unfold n, zlen in *; lia|]. rewrite Nat2Z.id. erewrite bind_val by exact E3.
  rewrite drop_app_le in Hs3 by (unfold n; lia). rewrite Hul3, <- Hul1. split; [by rewrite ?decide_False by done|]. split; [exact Hs3|]. split; [|exact Hsk].
  eapply came_around; [exact Hc1|exact Hc2|]. apply came_nil; [by rewrite Hm3|exact Hl3|by rewrite Hul3].
Qed.

(** ** Towards the application *)

Lemma into_lwip_ipv4 ip port rest :
  zlen ip = 4 → 0 <= port < 65536 →
  hev_socks5_addr_into_lwip (wire_ipv4 ip (htons port) ++ rest) ip_undef = Some (0, IpAddr (ip ++ replicate 12 0) IPADDR_TYPE_V4, Some port).
Proof using Type.
  intros Hi Hp. cells ip Hi 4%nat. destruct ip; [|unfold zlen in Hi; cbn in Hi; lia].
  transitivity (p ← get_le16 (le16 (htons port)); Some (0, IpAddr ([x; x0; x1; x2] ++ replicate 12 0) IPADDR_TYPE_V4, Some (ntohs p)));
    [reflexivity|]. rewrite le16_get by apply bswap16_range. unfold mbind, option_bind. by rewrite ntohs_htons.
Qed.

Lemma into_lwip_ipv6 ip port rest :
  zlen ip = 16 → 0 <= port < 65536 →
  hev_socks5_addr_into_lwip (wire_ipv6 ip (htons port) ++ rest) ip_undef = Some (0, IpAddr ip IPADDR_TYPE_V6, Some port).
Proof using Type.
  intros Hi Hp. cells ip Hi 16%nat. destruct ip; [|unfold zlen in Hi; cbn in Hi; lia].
  transitivity (p ← get_le16 (le16 (htons port)); Some (0, IpAddr [x; x0; x1; x2; x3; x4; x5; x6; x7; x8; x9; x10; x11; x12; x13; x14] IPADDR_TYPE_V6, Some (ntohs p)));
    [reflexivity|]. rewrite le16_get by apply bswap16_range. unfold mbind, option_bind. by rewrite ntohs_htons.
Qed.

(** The source that the application sees: the made-up address that it sent to last, or
    the address of the sender. *)
Definition seen_from (u : HevSocks5SessionUDP) (g : dgram) (src : ip_addr * Z) : Prop :=
  if has_local u then src = (IpAddr (local_addr u ++ replicate 12 0) IPADDR_TYPE_V4, local_port u)
  else ∃ ip port, 0 <= port < 65536 ∧
      (zlen ip = 4 ∧ g.1 = wire_ipv4 ip (htons port) ∧ src = (IpAddr (ip ++ replicate 12 0) IPADDR_TYPE_V4, port) ∨
       zlen ip = 16 ∧ g.1 = wire_ipv6 ip (htons port) ∧ src = (IpAddr ip IPADDR_TYPE_V6, port)).

Definition shown (src : ip_addr * Z) (g : dgram) : ip_addr * Z * bytes := (src, g.2).

Lemma seen_local u u' vs srcs : local_of u' = local_of u → Forall2 (seen_from u) vs srcs → Forall2 (seen_from u') vs srcs.
Proof using Type. intros [= Ha Hp] Hf. eapply Forall2_impl; [exact Hf|]. intros g src. unfold seen_from, has_local. by rewrite Ha, Hp. Qed.

Lemma source_val i o R gs g p src s :
  session_at i o R gs s → held (blocks (io s)) p g.1 → seen_from (us (self s)) g src → datagram_source p s = Val (Some src) s.
Proof using Type.
  intros Hs Hh Hsrc. unfold datagram_source. erewrite bind_val by reflexivity. unfold seen_from in Hsrc.
  fold (has_local (us (self s))). destruct Hs as [_ _ _ [H4 Hp] _ _]. destruct (has_local (us (self s))).
  - rewrite Hsrc. unfold u16. rewrite Z.mod_small by done. unfold overwrite. cbn [ip_undef u_addr]. change (take (Z.to_nat 0) _) with (@nil Z).
    replace (Z.to_nat 0 + length (local_addr (us (self s))))%nat with 4%nat by (unfold zlen in H4; lia). done.
  - destruct (held_rest _ _ _ s Hh eq_refl) as (rest & Hr).
    erewrite bind_val by exact Hr. destruct Hsrc as (ip & port & Hport & [(Hi & -> & ->)|(Hi & -> & ->)]).
    + by erewrite bind_val by (rewrite into_lwip_ipv4 by done; reflexivity).
    + by erewrite bind_val by (rewrite into_lwip_ipv6 by done; reflexivity).
Qed.

(** The stack makes a reference to the buffer, and takes the datagram, or not. *)
Lemma reference_val s :
  ∃ ok l, pbuf_alloc_reference s = Val ok (St (set_ul (set_pbufs l (ul (self s))) (self s)) (io s)) ∧
    (pbufs (ul (self s)) = [] → ok = true ∧ l = []).
Proof using Type.
  unfold pbuf_alloc_reference. erewrite bind_val by reflexivity. destruct (pbufs (ul (self s))) as [|ok l] eqn:Hl.
  - exists true, []. split; [|done]. destruct s as [[? [] ? ?] ?]. cbn in *. by subst.
  - exists ok, l. by split.
Qed.

Lemma sendfrom_val bs ip port s :
  ∃ e l, udp_sendfrom bs ip port s = Val e (St (set_ul (set_sent l (if e =? ERR_OK then delivered (ul (self s)) ++ [(ip, port, bs)]
      else delivered (ul (self s))) (ul (self s))) (self s)) (io s)) ∧
    (sent (ul (self s)) = [] → e = ERR_OK ∧ l = []).
Proof using Type.
  unfold udp_sendfrom. erewrite bind_val by reflexivity. destruct (sent (ul (self s))) as [|e l] eqn:Hl.
  - exists ERR_OK, []. by split.
  - exists e, l. by split.
Qed.

Lemma held_below R o m gs p bs : pool R o m gs → held R p bs → held m p bs.
Proof using Type. intros Hp (b & Hb & Hh). exists b. split; [|done]. by apply (pool_block _ _ _ _ _ _ Hp). Qed.

(** Datagrams in memory that is not the pool's are shown to the application one after
    the other, until the stack refuses one. *)
Lemma deliver_spec i o R vs srcs msgs gs s :
  session_at i o R gs s → Forall2 (carries R) vs msgs → Forall2 (seen_from (us (self s))) vs srcs →
  Forall (λ g : dgram, g.2 ≠ [] ∧ zlen g.2 < 65536) vs →
  Forall (same_source (local_of (us (self s)))) (mjoin (uevents (ul (self s)))) →
  ∃ s' new k, deliver msgs s = Val (if decide (k = length vs) then 1 else -1) s' ∧
    session_at i o R (gs ++ new) s' ∧ came gs new s s' ∧ (k <= length vs)%nat ∧
    delivered (ul (self s')) = delivered (ul (self s)) ++ take k (zip_with shown srcs vs) ∧
    (pbufs (ul (self s)) = [] → sent (ul (self s)) = [] → k = length vs ∧ pbufs (ul (self s')) = [] ∧ sent (ul (self s')) = []).
Proof using Type.
  intros Hs Hc. revert srcs gs s Hs. induction Hc as [|g v vs msgs Hgv Hc IH]; intros srcs gs s Hs Hsrc Hok Hsame.
  { exists s, [], 0%nat. rewrite app_nil_r. split_and!; [done|done|by apply came_nil|done|by rewrite app_nil_r|done]. }
  apply Forall2_cons_inv_l in Hsrc as ([ip port] & srcs' & Hsrc & Hsrcs & ->). apply Forall_cons in Hok as [[Hne Hlen] Hok].
  destruct Hgv as ((p & Hpa & Hha) & Hhd & Hml). cbn [deliver]. rewrite Hpa, Hml.
  destruct (Z.eqb_spec (zlen g.2) 0) as [Hz|_]; [destruct g.2; [done|rewrite zlen_cons in Hz; pose proof (zlen_nonneg l); lia]|].
  erewrite bind_val by (eapply source_val; [exact Hs|by eapply held_below; [apply Hs|]|exact Hsrc]). cbv beta iota.
  destruct (reference_val s) as (ok & l & E1 & Hok1). erewrite bind_val by exact E1. clear E1.
  pose proof (session_stack _ _ _ _ (set_pbufs l (ul (self s))) _ Hs eq_refl) as Hs1.
  set (s1 := St _ _) in *. assert (came gs [] s s1) as Hc1 by (by apply came_nil). destruct ok; cbn [negb].
  2:{ exists s1, [], 0%nat. rewrite app_nil_r. split_and!; [done|done|exact Hc1|lia|by rewrite app_nil_r|]. by intros Hpb; destruct (Hok1 Hpb). }
  destruct (callbacks_step _ _ _ _ _ Hs1) as (s2 & new1 & E2 & Hs2 & Hc2 & Hpb & Hse & Hde).
  unfold hev_task_mutex_lock. erewrite bind_val by exact E2.
  unfold u16. rewrite Z.mod_small by (split; [apply zlen_nonneg|done]).
  erewrite bind_val by (eapply held_load; [eapply held_below; [apply Hs2|exact Hhd]|done]).
  destruct (sendfrom_val g.2 ip port s2) as (e & l2 & E3 & Hok3). erewrite bind_val by exact E3. clear E3.
  pose proof (session_stack _ _ _ _ (set_sent l2 (if e =? ERR_OK then delivered (ul (self s2)) ++ [(ip, port, g.2)] else delivered (ul (self s2)))
    (ul (self s2))) _ Hs2 eq_refl) as Hs3. set (s3 := St _ _) in Hs3 |- *.
  assert (came gs new1 s s3) as Hc13 by (eapply came_around; [exact Hc1|exact Hc2|by apply came_nil]).
  change (pbufs (ul (self s1))) with l in Hpb. change (sent (ul (self s1))) with (sent (ul (self s))) in Hse.
  change (delivered (ul (self s1))) with (delivered (ul (self s))) in Hde.
  destruct (Z.eqb_spec e ERR_OK) as [->|Hbad]; cbn [negb].
  2:{ exists s3, new1, 0%nat. split_and!; [done|exact Hs3|exact Hc13|lia|by rewrite app_nil_r|].
      intros _ Hse0. destruct Hok3; [congruence|done]. }
  destruct (came_local _ _ _ _ Hc13 Hsame) as [Hl3 Hsame3].
  destruct (IH srcs' _ _ Hs3) as (s' & new2 & k & E4 & Hs4 & Hc4 & Hk & Hdel & Hall); [by eapply seen_local|done|done|].
  exists s', (new1 ++ new2), (S k). rewrite app_assoc. split_and!.
  - rewrite E4. by destruct (decide (k = length vs)), (decide (S k = length (g :: vs))); cbn in *; try lia.
  - exact Hs4.
  - eapply came_trans; [exact Hc13|exact Hc4].
  - cbn. lia.
  - rewrite Hdel. cbn [zip_with take]. change (delivered (ul (self s3))) with (delivered (ul (self s2)) ++ [(ip, port, g.2)]).
    by rewrite Hde, <- app_assoc.
  - intros Hp0 Hs0. destruct (Hok1 Hp0) as [_ ->], Hok3 as [_ ->]; [congruence|]. destruct Hall as (-> & ? & ?); [exact Hpb|done|done].
Qed.

(** An array on the stack, with what a call on the connection put into it. *)
Lemma session_array i o i' o' R gs buf b s s' :
  session_at i o R gs s → blocks (io s) !! buf = None → apart s s' →
  tcp_view X d i' o' (<[buf := b]> (blocks (io s))) s' →
  session_at i' o' (<[buf := b]> R) gs s' ∧ R !! buf = None ∧ came gs [] s s' ∧ us (self s') = us (self s) ∧ ul (self s') = ul (self s).
Proof using Type.
  intros Hs Hbuf [Ho Hm] Hv. assert (blocks (io s') = <[buf := b]> (blocks (io s))) as Hb by (by destruct Hv as (_ & _ & ? & _)).
  destruct (pool_fresh _ _ _ _ _ (sa_pool _ _ _ _ _ Hs) Hbuf) as [HR Hin].
  split_and!; [|done|apply came_nil; congruence|congruence|congruence]. destruct Hs. split; rewrite ?Ho, ?Hb; try done. by apply pool_insert.
Qed.

Lemma session_free i o R gs buf b s :
  session_at i o (<[buf := b]> R) gs s → R !! buf = None →
  ∃ s', stack_free buf s = Val tt s' ∧ session_at i o R gs s' ∧ came gs [] s s' ∧ ul (self s') = ul (self s).
Proof using Type.
  intros Hs HR. exists (with_blocks (delete buf (blocks (io s))) s). split_and!; [done| |by apply came_nil|done].
  destruct (pool_block _ _ _ _ buf b (sa_pool _ _ _ _ _ Hs)) as [_ Hin]; [apply lookup_insert_eq|].
  split; try (by destruct Hs); [eapply view_kept; [by destruct Hs|done|done|done]|].
  rewrite <- (delete_insert_id R buf b) by done. apply pool_delete; [apply Hs|done].
Qed.

(** After the call that receives: [n] of the datagrams are in the buffers. *)
Lemma show_received i o R gs vs srcs mem buf n s :
  let res := if decide (n = length vs ∨ n ≠ 0%nat) then Z.of_nat n else -1 in
  let msgs := receiveds buf 0 (take n vs) ++ (slot buf <$> seq n (length vs - n)) in
  session_at i o (<[buf := fill mem 0 (take n vs)]> R) gs s → vs ≠ [] → Forall fits vs → Forall (λ g : dgram, g.2 ≠ []) vs →
  Forall2 (seen_from (us (self s))) vs srcs → Forall (same_source (local_of (us (self s)))) (mjoin (uevents (ul (self s)))) →
  zlen mem = UDP_BUF_SIZE * zlen vs → (n <= length vs)%nat → ((n < length vs)%nat → errno (io s) = EAGAIN) →
  ∃ s2 s' new k, ucallbacks s = Val tt s2 ∧
    (if res <=? 0 then mret (if (res =? -1) && (errno (io s) =? EAGAIN) then 0 else -1)
     else deliver (take (Z.to_nat res) msgs)) s2 = Val (if decide (n = 0%nat) then 0 else if decide (k = n) then 1 else -1) s' ∧
    session_at i o (<[buf := fill mem 0 (take n vs)]> R) (gs ++ new) s' ∧
    came gs new s s' ∧ (k <= n)%nat ∧ delivered (ul (self s')) = delivered (ul (self s)) ++ take k (zip_with shown srcs vs) ∧
    (pbufs (ul (self s)) = [] → sent (ul (self s)) = [] → k = n).
Proof using Type.
  intros res msgs Hs Hne Hf Hd Hsrc Hsame Hmem Hn Her.
  destruct (callbacks_step _ _ _ _ _ Hs) as (s2 & new1 & E2 & Hs2 & Hc2 & Hpb & Hse & Hde).
  exists s2. destruct (decide (n = 0%nat)) as [->|Hn0].
  { exists s2, new1, 0%nat. rewrite app_nil_r. split_and!; try done. unfold res.
    assert (length vs ≠ 0%nat) as Hl by (by destruct vs). rewrite decide_False by lia. cbn [Z.leb Z.compare Z.eqb Pos.eqb andb].
    by rewrite Her by lia. }
  assert (length (take n vs) = n) as Htl by (rewrite length_take; lia).
  assert (length (receiveds buf 0 (take n vs)) = n) as Hrl by (by rewrite receiveds_length).
  unfold res. rewrite decide_True by auto. destruct (Z.leb_spec (Z.of_nat n) 0); [lia|]. rewrite Nat2Z.id.
  unfold msgs. rewrite take_app_length' by done. destruct (came_local _ _ _ _ Hc2 Hsame) as [Hl2 Hsame2].
  destruct (deliver_spec _ _ _ (take n vs) (take n srcs) (receiveds buf 0 (take n vs)) _ _ Hs2)
    as (s' & new2 & k & E3 & Hs3 & Hc3 & Hk & Hdel & Hall).
  { apply (fill_carries _ 0 mem); [by apply fits_small, Forall_take| |apply lookup_insert_eq].
    unfold zlen in *. rewrite Htl, Hmem. unfold UDP_BUF_SIZE. lia. }
  { apply Forall2_take. by eapply seen_local. }
  { apply Forall_take, Forall_and; split; [done|]. eapply Forall_impl; [exact Hf|]. intros g (_ & ? & ?).
    unfold UDP_BUF_SIZE in *. lia. }
  { done. }
  rewrite Htl in *. exists s', (new1 ++ new2), k. rewrite app_assoc. split_and!; [done|exact E3|done|by eapply came_trans|done| |].
  - rewrite Hdel, Hde, <- zip_with_take, take_take. by rewrite Nat.min_l.
  - intros H1 H2. apply Hall; congruence.
Qed.

(** C27: towards the server: in an environment in which the session's connection
    delivers, one call takes the first [num] of the datagrams that wait, sends exactly
    these as frames, in order, each for the destination the application sent it to -
    the name, if the address was made up for one - and releases their memory; the rest
    keep waiting, what arrives meanwhile lines up behind them, no other memory is
    touched, and the result is 1, or 0 when nothing waits. What arrives is dropped only
    when 513 datagrams wait or memory is short. *)
Theorem udp_session_sends i o R gs num s :
  session_at i o R gs s → (0 < num)%nat →
  ∃ s' new, hev_socks5_session_udp_fwd_f srv num s = Val (if decide (gs = []) then 0 else 1) s' ∧
    session_at i (o ++ UDPSpec.frames (take num gs)) R (drop num gs ++ new) s' ∧ came gs new s s' ∧ same_stack (ul (self s)) (ul (self s')).
Proof using Type. apply fwd_f_spec. Qed.

(** C28: towards the application: in an environment in which the session delivers
    frames of datagrams with data, one call shows a run of the first of them to the
    application, whatever the segments of the stream are: exactly their data, in order.
    Once the application has sent to a made-up address all of them seem to come from
    the last of these, whoever sent them; before that each comes from its sender. When
    the stack refuses one the result is -1 and those after it, of the ones that were
    there, are lost; otherwise the result is 1, or 0 when no frame was there yet. The
    buffers are released. *)
Theorem udp_session_shows i o R gs vs srcs mem s :
  session_at (UDPSpec.frames vs ++ i) o R gs s → vs ≠ [] → Forall fits vs → Forall (λ g : dgram, g.2 ≠ []) vs →
  Forall2 (seen_from (us (self s))) vs srcs → Forall (same_source (local_of (us (self s)))) (mjoin (uevents (ul (self s)))) →
  zlen mem = UDP_BUF_SIZE * zlen vs →
  ∃ n k s' new, (k <= n <= length vs)%nat ∧
    hev_socks5_session_udp_fwd_b srv mem (length vs) s = Val (if decide (n = 0%nat) then 0 else if decide (k = n) then 1 else -1) s' ∧
    session_at (UDPSpec.frames (drop n vs) ++ i) o R (gs ++ new) s' ∧ came gs new s s' ∧
    delivered (ul (self s')) = delivered (ul (self s)) ++ take k (zip_with shown srcs vs) ∧
    (pbufs (ul (self s)) = [] → sent (ul (self s)) = [] → k = n).
Proof using Type.
  intros Hs Hne Hf Hd Hsrc Hsame Hmem. destruct (stack_alloc_val mem s) as (buf & Hal & _ & Hbuf).
  set (s0 := with_blocks (<[buf := mem]> (blocks (io s))) s) in *.
  destruct (recv_messages X d true buf vs i o _ mem s0 (with_blocks_view _ _ _ _ _ _ _ (sa_view _ _ _ _ _ Hs)) Hf (lookup_insert_eq _ _ _))
    as (n & s1 & Hn & _ & Her & E1 & Hv1); [by rewrite Hmem|].
  rewrite insert_insert_eq in Hv1.
  assert (apart s s1) as Hap.
  { by apply (quiet_val _ _ s0 s1 (quiet_recvmmsg _ _)) in E1; [|exact (session_tcp _ _ _ _ _ Hs)]. }
  destruct (session_array _ _ _ _ _ _ _ _ _ _ Hs Hbuf Hap Hv1) as (Hs1 & HR & Hc1 & Hus1 & Hul1).
  rewrite <- Hus1, <- Hul1 in *.
  destruct (show_received _ _ _ _ vs srcs mem buf n s1 Hs1) as (s2 & s3 & new & k & E2 & E3 & Hs3 & Hc3 & Hk & Hdel & Hall); try done.
  destruct (session_free _ _ _ _ _ _ _ Hs3 HR) as (s4 & E4 & Hs4 & Hc4 & Hul4).
  exists n, k, s4, new. split_and!; [done|done| |done| |by rewrite Hul4|done].
  - unfold hev_socks5_session_udp_fwd_b. erewrite bind_val by exact Hal.
    change ((λ i0, UDPMsg Undef (buffer buf i0) UDP_BUF_SIZE) <$> seq 0 (length vs)) with (slot buf <$> seq 0 (length vs)).
    erewrite bind_val by exact E1. cbv beta iota. erewrite bind_val by reflexivity. erewrite bind_val by exact E2.
    erewrite bind_val by exact E3. by erewrite bind_val by exact E4.
  - by eapply came_around.
Qed.

(** A datagram that arrives in fragments is cut: when nothing waits and the stack
    hands one to the session as a chain of more than one buffer, the next call sends the
    data of the first buffer as if it were all of it. *)
Theorem fragments_cut i o R ip port bs b rest ess num s :
  session_at i o R [] s → mallocs (io s) = [] → uevents (ul (self s)) = [UdpRecv ip port (Some (bs, b :: rest))] :: ess → (0 < num)%nat →
  ∃ s1 s2 new, ucallbacks s = Val tt s1 ∧ hev_socks5_session_udp_fwd_f srv num s1 = Val 1 s2 ∧
    session_at i (o ++ UDPSpec.frames [(asked ip port (nm ip), bs)]) R new s2 ∧
    new `sublist_of` mjoin (arriving <$> mjoin ess).
Proof using Type.
  intros Hs Hm Hev Hnum. destruct (batch_step _ _ _ _ _ _ _ Hs Hev) as (s1 & new1 & E1 & Hs1 & Hst1 & _ & Hev1 & _ & Hall).
  rewrite (Hall Hm) in Hs1 by done.
  set (g := (asked ip port (nm ip), bs) : dgram). change (session_at i o R [g] s1) in Hs1.
  destruct (fwd_f_spec _ _ _ _ num _ Hs1 Hnum) as (s2 & new & E2 & Hs2 & Hc2 & _).
  assert (∀ g : dgram, take num [g] = [g] ∧ drop num [g] = []) as Htd.
  { intros g'. destruct num as [|num]; [lia|]. cbn [take drop]. by rewrite take_nil, drop_nil. }
  destruct (Htd g) as [Ht Hd]. rewrite Ht, Hd in Hs2. exists s1, s2, new. split_and!; [done|exact E2|exact Hs2|].
  pose proof (ca_some _ _ _ _ Hc2) as Hsub. unfold coming in Hsub at 2. rewrite Hev1 in Hsub. etrans; [|exact Hsub]. apply sublist_inserts_r. done.
Qed.
End Session.

(** ** Witnesses *)

#[local] Instance nameless : Resolver := {| inet_pton _ _ := None; getaddrinfo _ _ := None |}.
Definition srv0 : HevConfigServer := ConfigServer None None 0 false 1080 false false [] [].
Definition peer0 : ip_addr := IpAddr ([10; 0; 0; 9] ++ replicate 12 0) IPADDR_TYPE_V4.
Definition wire0 : bytes := wire_ipv4 [10; 0; 0; 9] (htons 53).
Definition none0 (ip : ip_addr) : option bytes := None.

(** Two datagrams wait, and one more is to come; block 5 is something else. *)
Definition waiting : usession :=
  USession
    (SessionUDP (ClientUDP (Client (Socks5 3 (-1) HEV_SOCKS5_TYPE_UDP_IN_TCP false 0) None None) (-1)) 9
      [UDPFrame 1 2 2; UDPFrame 3 4 1] true 2 [0; 0; 0; 0] 0)
    (ULwip peer0 53 [[UdpRecv peer0 53 (Some ([9; 9; 9], []))]] [] [] []) None (Sessions (ListMem 0 0 ∅) 0 ∅ []).
Definition store0 (w : bytes) : gmap Z bytes :=
  {[1 := w ++ replicate 253 0; 2 := [7; 8]; 3 := w ++ replicate 253 0; 4 := [6]; 5 := [42]]}.
Definition world0 (w : bytes) (q : list rx_event) : world :=
  World 0 [7; 7] {[3 := Chan q [] [] [] [] false]} [] [] [] [] (store0 w) {[3]} (config idle_world).

Lemma world0_view w q u :
  rx_clean q → rx_waits q = 0%nat → scu (us u) = scu (us waiting) →
  tcp_view (H0 := usession_udp srv0) ∅ 3 (stream q) [] (store0 w) (St u (world0 w q)).
Proof.
  intros Hq Hw Hu. unfold tcp_view, tcp_session. cbn. rewrite Hu. split; [done|]. split; [done|]. split; [done|]. split; [reflexivity|].
  exists (Chan q [] [] [] [] false). split; [|done].
  split; [reflexivity|done|repeat constructor|cbn; rewrite Hw; cbn; lia|repeat constructor].
Qed.

Lemma waiting_pool w :
  sendable (w, []) → pool {[5 := [42]]} (us waiting) (store0 w) [(w, [7; 8]); (w, [6])].
Proof.
  intros Hw. split; [done|done| | | |].
  - repeat constructor; try done; cbn; by eexists (replicate 253 0).
  - apply (bool_decide_unpack _). by vm_compute.
  - by constructor; [|constructor; [|constructor]].
  - by vm_compute.
Qed.

(** The destination was made up for "www". *)
Definition dns1 : dns := match hev_mapped_dns_find www dns0 with Val _ k => k | _ => dns0 end.
Definition names1 : ip_addr → option bytes := made_up_for dns1 [(www, 0)].
Definition made_up : ip_addr := IpAddr ([100; 64; 0; 0] ++ replicate 12 0) IPADDR_TYPE_V4.
Definition wire1 : bytes := wire_name www (htons 53).
Definition sending : st usession :=
  St (USession (set_local [100; 64; 0; 0] 53 (us waiting)) (ULwip made_up 53 [[UdpRecv made_up 53 (Some ([9; 9; 9], []))]] [] [] [])
      (Some dns1) (utunnel waiting)) (world0 wire1 []).

Lemma dns1_resolves : resolves_by (Some dns1) names1 ∧ names1 made_up = Some www.
Proof.
  destruct (find_refines dns0 [] www dns0_inv str_www) as (k & He & Hi & (Hmax & _ & Hmask) & _); [done|by right|].
  unfold names1, dns1. rewrite He. split.
  - exists [(www, 0)]. split_and!; [exact Hi|by rewrite Hmax, Hmask|done].
  - unfold made_up_for. by rewrite Hmask.
Qed.

Lemma sending_state : session_at srv0 ∅ 3 names1 [] [] {[5 := [42]]} [(wire1, [7; 8]); (wire1, [6])] sending.
Proof.
  destruct dns1_resolves as [Hr Hn]. split; try done.
  - apply (world0_view wire1 []); [constructor|done|done].
  - by apply pool_local, waiting_pool.
  - by repeat constructor.
Qed.

Lemma udp_session_sends_witness :
  session_at srv0 ∅ 3 names1 [] [] {[5 := [42]]} [(wire1, [7; 8]); (wire1, [6])] sending ∧
  ∃ s' new, hev_socks5_session_udp_fwd_f srv0 1 sending = Val 1 s' ∧
    session_at srv0 ∅ 3 names1 [] [0; 2; 10; 3; 3; 119; 119; 119; 0; 53; 7; 8] {[5 := [42]]} ([(wire1, [6])] ++ new) s' ∧
    came names1 [(wire1, [7; 8]); (wire1, [6])] new sending s' ∧ same_stack (ul (self sending)) (ul (self s')).
Proof.
  split; [exact sending_state|].
  exact (udp_session_sends srv0 ∅ 3 names1 [] [] {[5 := [42]]} [(wire1, [7; 8]); (wire1, [6])] 1 sending sending_state (le_n 1)).
Defined.

(** Frames of two datagrams come in three segments. *)
Definition answers0 : list dgram := [(wire_ipv4 [8; 8; 8; 8] (htons 53), [1; 2; 3]); (wire_ipv4 [8; 8; 4; 4] (htons 53), [4])].
Definition frames0 : list rx_event :=
  [RxData 0 [3; 10; 1]; RxData 8 [8; 8; 8; 0; 53; 1; 2; 3; 0; 1; 10; 1; 8; 8; 4]; RxData 4 [0; 53; 4]].
Definition showing : st usession := St waiting (world0 wire0 frames0).

Lemma showing_state :
  session_at srv0 ∅ 3 none0 (UDPSpec.frames answers0 ++ []) [] {[5 := [42]]} [(wire0, [7; 8]); (wire0, [6])] showing.
Proof.
  split; try done.
  - apply (world0_view wire0 frames0); [repeat constructor|done|done].
  - by apply waiting_pool.
  - by repeat constructor.
Qed.

Lemma udp_session_shows_witness :
  session_at srv0 ∅ 3 none0 (UDPSpec.frames answers0 ++ []) [] {[5 := [42]]} [(wire0, [7; 8]); (wire0, [6])] showing ∧
  ∃ n k s' new, (k <= n <= 2)%nat ∧
    hev_socks5_session_udp_fwd_b srv0 (replicate 3000 0) 2 showing =
      Val (if decide (n = 0%nat) then 0 else if decide (k = n) then 1 else -1) s' ∧
    session_at srv0 ∅ 3 none0 (UDPSpec.frames (drop n answers0) ++ []) [] {[5 := [42]]} ([(wire0, [7; 8]); (wire0, [6])] ++ new) s' ∧
    came none0 [(wire0, [7; 8]); (wire0, [6])] new showing s' ∧
    delivered (ul (self s')) = [] ++ take k
      [(IpAddr ([8; 8; 8; 8] ++ replicate 12 0) IPADDR_TYPE_V4, 53, [1; 2; 3]); (IpAddr ([8; 8; 4; 4] ++ replicate 12 0) IPADDR_TYPE_V4, 53, [4])] ∧
    ([] = ([] : list bool) → [] = ([] : list Z) → k = n).
Proof.
  split; [exact showing_state|].
  apply (udp_session_shows srv0 ∅ 3 none0 [] [] {[5 := [42]]} _ answers0
    [(IpAddr ([8; 8; 8; 8] ++ replicate 12 0) IPADDR_TYPE_V4, 53); (IpAddr ([8; 8; 4; 4] ++ replicate 12 0) IPADDR_TYPE_V4, 53)]
    (replicate 3000 0) showing showing_state); [done| |repeat constructor; done| | |done].
  - repeat constructor; by vm_compute.
  - constructor; [exists [8; 8; 8; 8], 53; split; [done|by left]|]. constructor; [|constructor].
    exists [8; 8; 4; 4], 53. split; [done|by left].
  - repeat constructor. by intros [? [=]].
Defined.

(** A datagram of two fragments. *)
Definition fragmented : st usession :=
  St (USession (SessionUDP (scu (us waiting)) 9 [] true 0 [0; 0; 0; 0] 0)
      (ULwip peer0 53 [[UdpRecv peer0 53 (Some ([1; 2], [[3; 4]]))]] [] [] []) None (utunnel waiting)) (world0 wire0 []).

Lemma fragmented_state : session_at srv0 ∅ 3 none0 [] [] (store0 wire0) [] fragmented.
Proof.
  split; try done.
  - apply (world0_view wire0 []); [constructor|done|done].
  - split; try done; constructor.
  - by repeat constructor.
Qed.

Lemma fragments_cut_witness :
  session_at srv0 ∅ 3 none0 [] [] (store0 wire0) [] fragmented ∧
  ∃ s1 s2 new, ucallbacks fragmented = Val tt s1 ∧ hev_socks5_session_udp_fwd_f srv0 10 s1 = Val 1 s2 ∧
    session_at srv0 ∅ 3 none0 [] [0; 2; 10; 1; 10; 0; 0; 9; 0; 53; 1; 2] (store0 wire0) new s2 ∧ new `sublist_of` [].
Proof.
  split; [exact fragmented_state|].
  apply (fragments_cut srv0 ∅ 3 none0 [] [] (store0 wire0) peer0 53 [1; 2] [3; 4] [] [] 10 fragmented fragmented_state); [done|done|lia].
Defined.
