(* ===== verification/CLib.v ===== *)
(** * CLib: the functions of the C library that read strings

    Comparison without case, the conversions to integers, and arrays of characters
    that are filled with strncpy. *)
From S2P Require Import Prelude Bytes Socks5.

(** The C string at the start of a block that the library closes with a NUL byte. *)
Definition c_string (v : bytes) : bytes := default [] (cstr (v ++ [0])).

Definition tolower (c : Z) : Z := if (65 <=? c) && (c <=? 90) then c + 32 else c.
Definition strcasecmp (s t : bytes) : Z := strcmp (tolower <$> s) (tolower <$> t).

Definition isspace (c : Z) : bool := (c =? 32) || (9 <=? c) && (c <=? 13).

(** The value of a digit or a letter. *)
Definition digit (c : Z) : option Z :=
  if (48 <=? c) && (c <=? 57) then Some (c - 48)
  else if (97 <=? tolower c) && (tolower c <=? 122) then Some (tolower c - 87)
  else None.

Fixpoint skip_space (s : bytes) : bytes :=
  match s with c :: s' => if isspace c then skip_space s' else s | [] => [] end.

(** The value of the longest run of digits, after [acc]; [acc] when there is none. *)
Fixpoint digits (base : Z) (s : bytes) (acc : Z) : Z :=
  match s with
  | c :: s =>
      match digit c with
      | Some d => if d <? base then digits base s (acc * base + d) else acc
      | None => acc
      end
  | [] => acc
  end.

Definition sign (s : bytes) : bool * bytes :=
  match s with
  | c :: s' => if c =? 45 then (true, s') else if c =? 43 then (false, s') else (false, s)
  | [] => (false, [])
  end.

(** Base 0 takes the base from the prefix, "0x" only before a digit; base 10 has
    no prefix. *)
Definition hex_prefix (s : bytes) : option bytes :=
  match s with
  | c :: x :: d :: s =>
      if (c =? 48) && (tolower x =? 120) && match digit d with Some v => v <? 16 | None => false end
      then Some (d :: s) else None
  | _ => None
  end.

Definition prefix (base : Z) (s : bytes) : Z * bytes :=
  if base =? 0 then
    match hex_prefix s with
    | Some s => (16, s)
    | None => (match s with c :: _ => if c =? 48 then 8 else 10 | [] => 10 end, s)
    end
  else (base, s).

Definition ULONG_MAX : Z := 18446744073709551615.
Definition LONG_MAX : Z := 9223372036854775807.
Definition LONG_MIN : Z := -9223372036854775808.

(** The limits are those of a [long] of 64 bits. On the app's 32-bit systems they are
    those of 32 bits, which makes a difference only for numbers above 4294967295: there
    they become the limit, where a [long] of 64 bits is truncated when it is stored.
    Too large a number is [ULONG_MAX], with any sign; a negative one is negated in
    the type of the result. *)
Definition strtoul (s : bytes) (base : Z) : Z :=
  let '(neg, s) := sign (skip_space s) in
  let '(base, s) := prefix base s in
  let v := digits base s 0 in
  if ULONG_MAX <? v then ULONG_MAX else if neg then u64 (- v) else v.

Definition strtol (s : bytes) (base : Z) : Z :=
  let '(neg, s) := sign (skip_space s) in
  let '(base, s) := prefix base s in
  let v := digits base s 0 in
  if neg then Z.max LONG_MIN (- v) else Z.min LONG_MAX v.

(** [strncpy] into an array of characters. *)
Definition strncpy_to (a s : bytes) (n : Z) : bytes := overwrite a 0 (strncpy s n).

(** An array of [n] characters that holds a C string. *)
Definition char_array (n : Z) (a : bytes) : Prop := zlen a = n ∧ zget a (n - 1) = Some 0.

(** The array that holds the first [n - 1] characters of a string. *)
Definition filled (n : Z) (s : bytes) : bytes := strncpy s (n - 1) ++ [0].

Lemma cstr_no_nul p s : cstr p = Some s → 0 ∉ s.
Proof.
  revert s. induction p as [|b p IH]; cbn; intros s; [done|].
  destruct (Z.eqb_spec b 0); [intros [= <-]; apply not_elem_of_nil|].
  destruct (cstr p) as [t|]; cbn; intros [= <-].
  rewrite not_elem_of_cons. split; [done|]. by apply IH.
Qed.

Lemma c_string_no_nul v : 0 ∉ c_string v.
Proof.
  unfold c_string. destruct (cstr (v ++ [0])) as [s|] eqn:E; cbn; [by eapply cstr_no_nul|apply not_elem_of_nil].
Qed.

Lemma strcmp_equal s t : 0 ∉ s → 0 ∉ t → (strcmp s t =? 0) = bool_decide (s = t).
Proof.
  revert t. induction s as [|x s IH]; intros [|y t] Hs Ht; rewrite ?not_elem_of_cons in *; cbn [strcmp].
  - done.
  - rewrite bool_decide_eq_false_2 by done. apply Z.eqb_neq. lia.
  - rewrite bool_decide_eq_false_2 by done. apply Z.eqb_neq. lia.
  - destruct (Z.eqb_spec x y) as [->|Hn].
    + rewrite IH by intuition. apply bool_decide_ext. split; [by intros ->|by intros [=]].
    + rewrite bool_decide_eq_false_2 by congruence. apply Z.eqb_neq. lia.
Qed.

Lemma cstr_nul s r : 0 ∉ s → cstr (s ++ 0 :: r) = Some s.
Proof.
  induction s as [|b s IH]; [done|]. rewrite not_elem_of_cons. intros [Hb Hs]. cbn.
  destruct (Z.eqb_spec b 0); [congruence|]. by rewrite IH.
Qed.

Lemma c_string_self s : 0 ∉ s → c_string s = s.
Proof. intros Hs. unfold c_string. by rewrite cstr_nul. Qed.

Lemma zlen_strncpy s n : 0 <= n → zlen (strncpy s n) = n.
Proof. intros Hn. unfold strncpy, zlen. rewrite length_app, length_replicate, length_take. lia. Qed.

Lemma strncpy_array n a s : 1 <= n → char_array n a → strncpy_to a s (n - 1) = filled n s.
Proof.
  intros Hn [Hl Hz]. pose proof (zlen_strncpy s (n - 1) ltac:(lia)) as Hc.
  unfold strncpy_to, filled. apply zget_ext.
  - rewrite zlen_overwrite, zlen_app, Hc, Hl by lia. change (zlen [0]) with 1. lia.
  - intros i Hi. rewrite zlen_overwrite in Hi by lia. rewrite zget_overwrite by lia.
    rewrite zget_app, Hc, Z.sub_0_r.
    destruct (Z.leb_spec 0 i), (Z.ltb_spec i (0 + (n - 1))), (Z.ltb_spec i (n - 1)); try lia; [done|].
    cbn. replace i with (n - 1) by lia. by rewrite Hz, Z.sub_diag.
Qed.

Lemma filled_array n s : 1 <= n → char_array n (filled n s).
Proof.
  intros Hn. pose proof (zlen_strncpy s (n - 1) ltac:(lia)) as Hc. unfold filled. split.
  - rewrite zlen_app, Hc. change (zlen [0]) with 1. lia.
  - rewrite zget_app, Hc, Z.ltb_irrefl, Z.sub_diag. done.
Qed.

Lemma zeros_array n : 1 <= n → char_array n (replicate (Z.to_nat n) 0).
Proof.
  intros Hn. unfold char_array, zlen, zget. rewrite length_replicate. split; [lia|].
  destruct (Z.leb_spec 0 (n - 1)); [|lia]. apply lookup_replicate_2. lia.
Qed.

Lemma cstr_filled n s : 1 <= n → 0 ∉ s → cstr (filled n s) = Some (take (Z.to_nat (n - 1)) s).
Proof.
  intros Hn Hs. unfold filled, strncpy.
  assert (0 ∉ take (Z.to_nat (n - 1)) s) as Ht by (intros H; apply Hs; rewrite <- (take_drop (Z.to_nat (n - 1)) s), elem_of_app; by left).
  destruct (Z.to_nat (n - 1) - length (take (Z.to_nat (n - 1)) s))%nat; cbn [replicate];
    rewrite <- app_assoc; by apply cstr_nul.
Qed.

Lemma char_array_str n a : char_array n a → is_Some (cstr a).
Proof. intros [_ H]. by eapply cstr_is_Some, zget_elem. Qed.

Lemma cstr_zlen a s : cstr a = Some s → zlen s < zlen a.
Proof.
  revert s. induction a as [|b a IH]; cbn; intros s; [done|].
  destruct (b =? 0); [intros [= <-]; rewrite zlen_cons; pose proof (zlen_nonneg a); unfold zlen; cbn; lia|].
  destruct (cstr a) as [t|]; cbn; intros [= <-]. rewrite !zlen_cons. specialize (IH _ eq_refl). lia.
Qed.

(** ** Results *)

Lemma digit_range c d : digit c = Some d → 0 <= d < 36.
Proof.
  unfold digit. destruct (Z.leb_spec 48 c), (Z.leb_spec c 57); cbn [andb];
    destruct (Z.leb_spec 97 (tolower c)), (Z.leb_spec (tolower c) 122); cbn [andb]; intros; simplify_eq; lia.
Qed.

Lemma digits_nonneg base s acc : 0 <= base → 0 <= acc → 0 <= digits base s acc.
Proof.
  intros Hb. revert acc. induction s as [|c s IH]; intros acc Ha; cbn; [done|].
  destruct (digit c) as [d|] eqn:E; [|done]. apply digit_range in E.
  destruct (d <? base); [apply IH; nia|done].
Qed.

Lemma strtoul_range s base : 0 <= base → 0 <= strtoul s base <= ULONG_MAX.
Proof.
  intros Hb. unfold strtoul. destruct (sign _) as [neg t]. destruct (prefix base t) as [b u] eqn:E.
  assert (0 <= b) as Hb'.
  { revert E. unfold prefix. destruct (base =? 0); [|by intros [= <- _]].
    destruct (hex_prefix t); [by intros [= <- _]|]. destruct t as [|c t]; [by intros [= <- _]|].
    destruct (c =? 48); by intros [= <- _]. }
  pose proof (digits_nonneg b u 0 Hb' ltac:(lia)).
  destruct (Z.ltb_spec ULONG_MAX (digits b u 0)); [unfold ULONG_MAX; lia|].
  destruct neg; [|lia]. unfold u64, ULONG_MAX. pose proof (Z.mod_pos_bound (- digits b u 0) 18446744073709551616). lia.
Qed.
