(* ===== verification/Config.v ===== *)
(** * Config: the configuration of src/hev-config.c

    The settings are global variables: a record for each section of the file. A
    parser walks the document that the YAML library loads, an array of nodes that
    refer to each other by index, and stores what it knows. *)
From S2P Require Import Prelude Bytes Socks5 Session SessionTCP CLib.
From Stdlib Require Ascii String.
Import String.StringSyntax.

(** ** Documents of the YAML library (third-part/yaml/src/yaml.h and api.c) *)

Inductive yaml_node :=
| Scalar (value : bytes)
| Sequence (items : list Z)
| Mapping (pairs : list (Z * Z)).

Abbreviation yaml_document := (list yaml_node).

(** Indices start at 1. *)
Definition yaml_document_get_node (doc : yaml_document) (index : Z) : option yaml_node :=
  if 0 <? index then doc !! Z.to_nat (index - 1) else None.
Definition yaml_document_get_root_node (doc : yaml_document) : option yaml_node := doc !! 0%nat.

(** ** The settings *)

Definition HEV_LOGGER_DEBUG : Z := 0.
Definition HEV_LOGGER_INFO : Z := 1.
Definition HEV_LOGGER_WARN : Z := 2.
Definition HEV_LOGGER_ERROR : Z := 3.

Record tunnel_vars := TunnelVars {
  tun_name : bytes; tun_mtu : Z; multi_queue : Z; icmp : bool;
  tun_ipv4_address : bytes; tun_ipv6_address : bytes;
  tun_post_up_script : bytes; tun_pre_down_script : bytes
}.

(** [srv], with the two arrays that its pointers refer to when they are set. *)
Record srv_vars := SrvVars {
  srv_user : bool; srv_pass : bool; srv_mark : Z; srv_udp_in_udp : bool; srv_port : Z;
  srv_pipeline : bool; srv_fastopen : bool; srv_udp_addr : bytes; srv_addr : bytes;
  _user : bytes; _pass : bytes
}.

Record mapdns_vars := MapdnsVars {
  mapdns_address : Z; mapdns_port : Z; mapdns_network : Z; mapdns_netmask : Z; mapdns_cache_size : Z
}.

Record misc_vars := MiscVars {
  log_file : bytes; pid_file : bytes; max_session_count : Z; task_stack_size : Z;
  tcp_buffer_size : Z; udp_recv_buffer_size : Z; udp_copy_buffer_nums : Z; connect_timeout : Z;
  tcp_read_write_timeout : Z; udp_read_write_timeout : Z; limit_nofile : Z; log_level : Z
}.

Record config := Config {
  tunnel : tunnel_vars; srv : srv_vars; mapdns : mapdns_vars; misc : misc_vars
}.

Definition set_tunnel v c := Config v (srv c) (mapdns c) (misc c).
Definition set_srv v c := Config (tunnel c) v (mapdns c) (misc c).
Definition set_mapdns v c := Config (tunnel c) (srv c) v (misc c).
Definition set_misc v c := Config (tunnel c) (srv c) (mapdns c) v.

Definition set_tun_name v t := TunnelVars v (tun_mtu t) (multi_queue t) (icmp t) (tun_ipv4_address t) (tun_ipv6_address t) (tun_post_up_script t) (tun_pre_down_script t).
Definition set_tun_mtu v t := TunnelVars (tun_name t) v (multi_queue t) (icmp t) (tun_ipv4_address t) (tun_ipv6_address t) (tun_post_up_script t) (tun_pre_down_script t).
Definition set_multi_queue v t := TunnelVars (tun_name t) (tun_mtu t) v (icmp t) (tun_ipv4_address t) (tun_ipv6_address t) (tun_post_up_script t) (tun_pre_down_script t).
Definition set_icmp v t := TunnelVars (tun_name t) (tun_mtu t) (multi_queue t) v (tun_ipv4_address t) (tun_ipv6_address t) (tun_post_up_script t) (tun_pre_down_script t).
Definition set_ipv4 v t := TunnelVars (tun_name t) (tun_mtu t) (multi_queue t) (icmp t) v (tun_ipv6_address t) (tun_post_up_script t) (tun_pre_down_script t).
Definition set_ipv6 v t := TunnelVars (tun_name t) (tun_mtu t) (multi_queue t) (icmp t) (tun_ipv4_address t) v (tun_post_up_script t) (tun_pre_down_script t).
Definition set_post_up v t := TunnelVars (tun_name t) (tun_mtu t) (multi_queue t) (icmp t) (tun_ipv4_address t) (tun_ipv6_address t) v (tun_pre_down_script t).
Definition set_pre_down v t := TunnelVars (tun_name t) (tun_mtu t) (multi_queue t) (icmp t) (tun_ipv4_address t) (tun_ipv6_address t) (tun_post_up_script t) v.

Definition set_address v m := MapdnsVars v (mapdns_port m) (mapdns_network m) (mapdns_netmask m) (mapdns_cache_size m).
Definition set_dns_port v m := MapdnsVars (mapdns_address m) v (mapdns_network m) (mapdns_netmask m) (mapdns_cache_size m).
Definition set_network v m := MapdnsVars (mapdns_address m) (mapdns_port m) v (mapdns_netmask m) (mapdns_cache_size m).
Definition set_netmask v m := MapdnsVars (mapdns_address m) (mapdns_port m) (mapdns_network m) v (mapdns_cache_size m).
Definition set_cache_size v m := MapdnsVars (mapdns_address m) (mapdns_port m) (mapdns_network m) (mapdns_netmask m) v.

Definition set_log_file v m := MiscVars v (pid_file m) (max_session_count m) (task_stack_size m) (tcp_buffer_size m) (udp_recv_buffer_size m) (udp_copy_buffer_nums m) (connect_timeout m) (tcp_read_write_timeout m) (udp_read_write_timeout m) (limit_nofile m) (log_level m).
Definition set_pid_file v m := MiscVars (log_file m) v (max_session_count m) (task_stack_size m) (tcp_buffer_size m) (udp_recv_buffer_size m) (udp_copy_buffer_nums m) (connect_timeout m) (tcp_read_write_timeout m) (udp_read_write_timeout m) (limit_nofile m) (log_level m).
Definition set_max_session_count v m := MiscVars (log_file m) (pid_file m) v (task_stack_size m) (tcp_buffer_size m) (udp_recv_buffer_size m) (udp_copy_buffer_nums m) (connect_timeout m) (tcp_read_write_timeout m) (udp_read_write_timeout m) (limit_nofile m) (log_level m).
Definition set_task_stack_size v m := MiscVars (log_file m) (pid_file m) (max_session_count m) v (tcp_buffer_size m) (udp_recv_buffer_size m) (udp_copy_buffer_nums m) (connect_timeout m) (tcp_read_write_timeout m) (udp_read_write_timeout m) (limit_nofile m) (log_level m).
Definition set_tcp_buffer_size v m := MiscVars (log_file m) (pid_file m) (max_session_count m) (task_stack_size m) v (udp_recv_buffer_size m) (udp_copy_buffer_nums m) (connect_timeout m) (tcp_read_write_timeout m) (udp_read_write_timeout m) (limit_nofile m) (log_level m).
Definition set_udp_recv_buffer_size v m := MiscVars (log_file m) (pid_file m) (max_session_count m) (task_stack_size m) (tcp_buffer_size m) v (udp_copy_buffer_nums m) (connect_timeout m) (tcp_read_write_timeout m) (udp_read_write_timeout m) (limit_nofile m) (log_level m).
Definition set_udp_copy_buffer_nums v m := MiscVars (log_file m) (pid_file m) (max_session_count m) (task_stack_size m) (tcp_buffer_size m) (udp_recv_buffer_size m) v (connect_timeout m) (tcp_read_write_timeout m) (udp_read_write_timeout m) (limit_nofile m) (log_level m).
Definition set_connect_timeout v m := MiscVars (log_file m) (pid_file m) (max_session_count m) (task_stack_size m) (tcp_buffer_size m) (udp_recv_buffer_size m) (udp_copy_buffer_nums m) v (tcp_read_write_timeout m) (udp_read_write_timeout m) (limit_nofile m) (log_level m).
Definition set_tcp_rw v m := MiscVars (log_file m) (pid_file m) (max_session_count m) (task_stack_size m) (tcp_buffer_size m) (udp_recv_buffer_size m) (udp_copy_buffer_nums m) (connect_timeout m) v (udp_read_write_timeout m) (limit_nofile m) (log_level m).
Definition set_udp_rw v m := MiscVars (log_file m) (pid_file m) (max_session_count m) (task_stack_size m) (tcp_buffer_size m) (udp_recv_buffer_size m) (udp_copy_buffer_nums m) (connect_timeout m) (tcp_read_write_timeout m) v (limit_nofile m) (log_level m).
Definition set_limit_nofile v m := MiscVars (log_file m) (pid_file m) (max_session_count m) (task_stack_size m) (tcp_buffer_size m) (udp_recv_buffer_size m) (udp_copy_buffer_nums m) (connect_timeout m) (tcp_read_write_timeout m) (udp_read_write_timeout m) v (log_level m).
Definition set_log_level v m := MiscVars (log_file m) (pid_file m) (max_session_count m) (task_stack_size m) (tcp_buffer_size m) (udp_recv_buffer_size m) (udp_copy_buffer_nums m) (connect_timeout m) (tcp_read_write_timeout m) (udp_read_write_timeout m) (limit_nofile m) v.

(** ** Walks over the pairs of a mapping *)

(** A loop goes on with the next pair, or breaks. *)
Inductive flow (T : Type) : Type := Next (t : T) | Break (t : T).
Arguments Next {T}.
Arguments Break {T}.

Section Walk.
Context {T : Type} (doc : yaml_document).

(** The loop that all parsers share: pairs with an empty side are skipped, a key that
    is no scalar ends it. The body gets the key and the node of the value. *)
Fixpoint for_pairs (body : bytes → option yaml_node → T → flow T) (pairs : list (Z * Z)) (t : T) : T :=
  match pairs with
  | [] => t
  | (key, value) :: pairs =>
      if (key =? 0) || (value =? 0) then for_pairs body pairs t else
      match yaml_document_get_node doc key with
      | Some (Scalar key) =>
          match body (c_string key) (yaml_document_get_node doc value) t with
          | Next t => for_pairs body pairs t
          | Break t => t
          end
      | _ => t
      end
  end.

(** Most parsers want scalars as values, too. *)
Definition scalars_only (body : bytes → bytes → T → T) (key : bytes) (node : option yaml_node) (t : T) : flow T :=
  match node with
  | Some (Scalar value) => Next (body key (c_string value) t)
  | _ => Break t
  end.
End Walk.

(** The strings of the source. *)
Definition lit (s : String.string) : bytes :=
  (λ c, Z.of_nat (Ascii.nat_of_ascii c)) <$> String.list_ascii_of_string s.
Arguments lit s%_string_scope : simpl never.
Definition is_key (key : bytes) (s : String.string) : bool := strcmp key (lit s) =? 0.
Arguments is_key key s%_string_scope.

(** ** Tunnel *)

Definition ipv4_pair (key value : bytes) (t : tunnel_vars) : tunnel_vars :=
  if is_key key "address" then set_ipv4 (strncpy_to (tun_ipv4_address t) value (16 - 1)) t else t.

Definition hev_config_parse_tunnel_ipv4 (doc : yaml_document) (base : option yaml_node) (t : tunnel_vars) : Z * tunnel_vars :=
  match base with
  | Some (Mapping pairs) => (0, for_pairs doc (scalars_only ipv4_pair) pairs t)
  | _ => (-1, t)
  end.

Definition ipv6_pair (key value : bytes) (t : tunnel_vars) : tunnel_vars :=
  if is_key key "address" then set_ipv6 (strncpy_to (tun_ipv6_address t) value (64 - 1)) t else t.

Definition hev_config_parse_tunnel_ipv6 (doc : yaml_document) (base : option yaml_node) (t : tunnel_vars) : Z * tunnel_vars :=
  match base with
  | Some (Mapping pairs) => (0, for_pairs doc (scalars_only ipv6_pair) pairs t)
  | _ => (-1, t)
  end.

Definition tunnel_scalar (key value : bytes) (t : tunnel_vars) : tunnel_vars :=
  if is_key key "name" then set_tun_name (strncpy_to (tun_name t) value (64 - 1)) t
  else if is_key key "mtu" then set_tun_mtu (u32 (strtoul value 10)) t
  else if is_key key "multi-queue" then set_multi_queue (strcasecmp value (lit "false")) t
  else if is_key key "ipv4" then set_ipv4 (strncpy_to (tun_ipv4_address t) value (16 - 1)) t
  else if is_key key "ipv6" then set_ipv6 (strncpy_to (tun_ipv6_address t) value (64 - 1)) t
  else if is_key key "icmp" then set_icmp (strcasecmp value (lit "reply") =? 0) t
  else if is_key key "post-up-script" then set_post_up (strncpy_to (tun_post_up_script t) value (1024 - 1)) t
  else if is_key key "pre-down-script" then set_pre_down (strncpy_to (tun_pre_down_script t) value (1024 - 1)) t
  else t.

Definition tunnel_pair (doc : yaml_document) (key : bytes) (node : option yaml_node) (t : tunnel_vars) : flow tunnel_vars :=
  match node with
  | None => Break t
  | Some (Scalar value) => Next (tunnel_scalar key (c_string value) t)
  | Some node =>
      Next (if is_key key "ipv4" then (hev_config_parse_tunnel_ipv4 doc (Some node) t).2
            else if is_key key "ipv6" then (hev_config_parse_tunnel_ipv6 doc (Some node) t).2
            else t)
  end.

Definition hev_config_parse_tunnel (doc : yaml_document) (base : option yaml_node) (t : tunnel_vars) : Z * tunnel_vars :=
  match base with
  | Some (Mapping pairs) => (0, for_pairs doc (tunnel_pair doc) pairs t)
  | _ => (-1, t)
  end.

(** ** SOCKS5 server *)

(** The local variables of the parser. *)
Record socks5_keys := Socks5Keys {
  k_addr : option bytes; k_port : option bytes; k_udpm : option bytes; k_udpa : option bytes;
  k_user : option bytes; k_pass : option bytes; k_mark : option bytes; k_pipe : option bytes;
  k_tfso : option bytes
}.

Definition no_keys : socks5_keys := Socks5Keys None None None None None None None None None.

Definition socks5_pair (key value : bytes) (k : socks5_keys) : socks5_keys :=
  let '(Socks5Keys addr port udpm udpa user pass mark pipe tfso) := k in
  let v := Some value in
  if is_key key "port" then Socks5Keys addr v udpm udpa user pass mark pipe tfso
  else if is_key key "address" then Socks5Keys v port udpm udpa user pass mark pipe tfso
  else if is_key key "udp" then Socks5Keys addr port v udpa user pass mark pipe tfso
  else if is_key key "udp-address" then Socks5Keys addr port udpm v user pass mark pipe tfso
  else if is_key key "pipeline" then Socks5Keys addr port udpm udpa user pass mark v tfso
  else if is_key key "username" then Socks5Keys addr port udpm udpa v pass mark pipe tfso
  else if is_key key "password" then Socks5Keys addr port udpm udpa user v mark pipe tfso
  else if is_key key "mark" then Socks5Keys addr port udpm udpa user pass v pipe tfso
  else if is_key key "tcp-fastopen" then Socks5Keys addr port udpm udpa user pass mark pipe v
  else k.

Definition is_word (v : option bytes) (s : String.string) : bool :=
  match v with Some v => strcasecmp v (lit s) =? 0 | None => false end.
Arguments is_word v s%_string_scope.

(** What the parser stores of the strings that it found. *)
Definition socks5_store (k : socks5_keys) (addr port : bytes) (s : srv_vars) : srv_vars :=
  let both := match k_user k, k_pass k with Some user, Some pass => Some (user, pass) | _, _ => None end in
  SrvVars
    (if both then true else srv_user s) (if both then true else srv_pass s)
    (match k_mark k with Some mark => u32 (strtoul mark 0) | None => srv_mark s end)
    (if is_word (k_udpm k) "udp" then true else srv_udp_in_udp s)
    (u16 (strtoul port 10))
    (if is_word (k_pipe k) "true" then true else srv_pipeline s)
    (match k_tfso k with Some tfso => strcasecmp tfso (lit "true") =? 0 | None => srv_fastopen s end)
    (match k_udpa k with Some udpa => strncpy_to (srv_udp_addr s) udpa (256 - 1) | None => srv_udp_addr s end)
    (strncpy_to (srv_addr s) addr (256 - 1))
    (match both with Some (user, _) => strncpy_to (_user s) user (256 - 1) | None => _user s end)
    (match both with Some (_, pass) => strncpy_to (_pass s) pass (256 - 1) | None => _pass s end).

Definition hev_config_parse_socks5 (doc : yaml_document) (base : option yaml_node) (s : srv_vars) : Z * srv_vars :=
  match base with
  | Some (Mapping pairs) =>
      let k := for_pairs doc (scalars_only socks5_pair) pairs no_keys in
      match k_port k with
      | None => (-1, s)
      | Some port =>
          match k_addr k with
          | None => (-1, s)
          | Some addr =>
              match k_user k, k_pass k with
              | Some _, None | None, Some _ => (-1, s)
              | _, _ => (0, socks5_store k addr port s)
              end
          end
      end
  | _ => (-1, s)
  end.

(** ** Mapped DNS *)

Definition swap32 (v : Z) : Z :=
  let u := u32 v in
  Z.lor (Z.lor (Z.shiftl (Z.land u 255) 24) (Z.shiftl (Z.land (Z.shiftr u 8) 255) 16))
        (Z.lor (Z.shiftl (Z.land (Z.shiftr u 16) 255) 8) (Z.shiftr u 24)).
Definition ntohl (v : Z) : Z := i32 (swap32 v).

(** The four bytes of an int. *)
Definition int_of_bytes (p : bytes) : Z :=
  match p with [a; b; c; d] => i32 (a + 256 * b + 65536 * c + 16777216 * d) | _ => 0 end.

Section Config.
Context `{Resolver}.

(** [inet_pton] into an int, which stays when the text is no address. *)
Definition inet_pton_int (value : bytes) (v : Z) : Z :=
  match inet_pton AF_INET value with Some p => int_of_bytes p | None => v end.

Definition mapdns_pair (key value : bytes) (m : mapdns_vars) : mapdns_vars :=
  if is_key key "address" then set_address (inet_pton_int value (mapdns_address m)) m
  else if is_key key "port" then set_dns_port (i32 (strtoul value 10)) m
  else if is_key key "network" then set_network (inet_pton_int value (mapdns_network m)) m
  else if is_key key "netmask" then set_netmask (inet_pton_int value (mapdns_netmask m)) m
  else if is_key key "cache-size" then set_cache_size (i32 (strtoul value 10)) m
  else m.

Definition hev_config_parse_mapdns (doc : yaml_document) (base : option yaml_node) (m : mapdns_vars) : Z * mapdns_vars :=
  match base with
  | Some (Mapping pairs) =>
      let m := for_pairs doc (scalars_only mapdns_pair) pairs m in
      let m := set_network (ntohl (mapdns_network m)) m in
      let m := set_netmask (ntohl (mapdns_netmask m)) m in
      (0, m)
  | _ => (-1, m)
  end.

(** ** Miscellaneous *)

Definition hev_config_parse_log_level (value : bytes) : Z :=
  if is_key value "debug" then HEV_LOGGER_DEBUG
  else if is_key value "info" then HEV_LOGGER_INFO
  else if is_key value "error" then HEV_LOGGER_ERROR
  else HEV_LOGGER_WARN.

(** The local variables of the parser. *)
Record timeouts := Timeouts { tcp_rw_timeout : Z; udp_rw_timeout : Z; rw_timeout : Z }.

Definition misc_pair (key value : bytes) (s : misc_vars * timeouts) : misc_vars * timeouts :=
  let '(m, t) := s in
  let int := i32 (strtoul value 10) in
  if is_key key "task-stack-size" then (set_task_stack_size int m, t)
  else if is_key key "tcp-buffer-size" then (set_tcp_buffer_size int m, t)
  else if is_key key "udp-recv-buffer-size" then (set_udp_recv_buffer_size int m, t)
  else if is_key key "udp-copy-buffer-nums" then (set_udp_copy_buffer_nums int m, t)
  else if is_key key "max-session-count" then (set_max_session_count int m, t)
  else if is_key key "connect-timeout" then (set_connect_timeout int m, t)
  else if is_key key "read-write-timeout" then (m, Timeouts (tcp_rw_timeout t) (udp_rw_timeout t) int)
  else if is_key key "tcp-read-write-timeout" then (m, Timeouts int (udp_rw_timeout t) (rw_timeout t))
  else if is_key key "udp-read-write-timeout" then (m, Timeouts (tcp_rw_timeout t) int (rw_timeout t))
  else if is_key key "pid-file" then (set_pid_file (strncpy_to (pid_file m) value (1024 - 1)) m, t)
  else if is_key key "log-file" then (set_log_file (strncpy_to (log_file m) value (1024 - 1)) m, t)
  else if is_key key "log-level" then (set_log_level (hev_config_parse_log_level value) m, t)
  else if is_key key "limit-nofile" then (set_limit_nofile (i32 (strtol value 10)) m, t)
  else s.

Definition hev_config_parse_misc (doc : yaml_document) (base : option yaml_node) (m : misc_vars) : Z * misc_vars :=
  match base with
  | Some (Mapping pairs) =>
      let '(m, t) := for_pairs doc (scalars_only misc_pair) pairs (m, Timeouts (-1) (-1) (-1)) in
      let tcp_rw := if tcp_rw_timeout t <=? 0 then rw_timeout t else tcp_rw_timeout t in
      let udp_rw := if udp_rw_timeout t <=? 0 then rw_timeout t else udp_rw_timeout t in
      let m := if 0 <? tcp_rw then set_tcp_rw tcp_rw m else m in
      let m := if 0 <? udp_rw then set_udp_rw udp_rw m else m in
      (0, m)
  | _ => (-1, m)
  end.

(** ** The document *)

Definition UDP_BUF_SIZE : Z := 1500.
Definition TASK_STACK_SIZE : Z := 20480.

(** The body of the loop: the result of the section's parser and the settings. *)
Definition section_pair (doc : yaml_document) (key : bytes) (node : option yaml_node) (s : Z * config) : flow (Z * config) :=
  let c := s.2 in
  let '(res, c) :=
    if is_key key "tunnel" then let '(res, v) := hev_config_parse_tunnel doc node (tunnel c) in (res, set_tunnel v c)
    else if is_key key "socks5" then let '(res, v) := hev_config_parse_socks5 doc node (srv c) in (res, set_srv v c)
    else if is_key key "mapdns" then let '(res, v) := hev_config_parse_mapdns doc node (mapdns c) in (res, set_mapdns v c)
    else if is_key key "misc" then let '(res, v) := hev_config_parse_misc doc node (misc c) in (res, set_misc v c)
    else (0, c) in
  if res <? 0 then Break (-1, c) else Next (0, c).

(** The sum and the product of ints; overflow has no defined behaviour. *)
Definition int_ok (v : Z) : option Z := if (-2147483648 <=? v) && (v <=? 2147483647) then Some v else None.

Definition check_sizes (m : misc_vars) : option misc_vars :=
  let m := if TCP_SND_BUF <? tcp_buffer_size m then set_tcp_buffer_size TCP_SND_BUF m else m in
  udp_buffer_size ← int_ok (UDP_BUF_SIZE * udp_copy_buffer_nums m);
  min_task_stack_size ←
    (if udp_buffer_size <? tcp_buffer_size m then int_ok (TASK_STACK_SIZE + tcp_buffer_size m)
     else int_ok (TASK_STACK_SIZE + udp_buffer_size));
  Some (if task_stack_size m <? min_task_stack_size then set_task_stack_size min_task_stack_size m else m).

(** [None] when an int overflows. *)
Definition hev_config_parse_doc (doc : yaml_document) (c : config) : option (Z * config) :=
  match yaml_document_get_root_node doc with
  | Some (Mapping pairs) =>
      let '(res, c) := for_pairs doc (section_pair doc) pairs (0, c) in
      if res <? 0 then Some (-1, c) else
      m ← check_sizes (misc c);
      Some (0, set_misc m c)
  | _ => Some (-1, c)
  end.

Definition zeros (n : Z) : bytes := replicate (Z.to_nat n) 0.

(** The arrays of the credentials are not cleared, but nothing points to them. *)
Definition hev_config_reset (c : config) : config :=
  Config
    (TunnelVars (zeros 64) 8500 0 false (zeros 16) (zeros 64) (zeros 1024) (zeros 1024))
    (SrvVars false false 0 false 0 false false (zeros 256) (zeros 256) (_user (srv c)) (_pass (srv c)))
    (MapdnsVars 0 0 0 0 0)
    (MiscVars (zeros 1024) (zeros 1024) 0 86016 65536 524288 10 10000 300000 60000 65535 HEV_LOGGER_WARN).

(** The variables of a program that starts. *)
Definition config_start : config :=
  Config
    (TunnelVars (zeros 64) 0 0 false (zeros 16) (zeros 64) (zeros 1024) (zeros 1024))
    (SrvVars false false 0 false 0 false false (zeros 256) (zeros 256) (zeros 256) (zeros 256))
    (MapdnsVars 0 0 0 0 0) (MiscVars (zeros 1024) (zeros 1024) 0 0 0 0 0 0 0 0 0 0).
End Config.

(** ** Loading *)

(** The files, and what the YAML library makes of a text: a document or an error. *)
Class Loader := {
  fopen : bytes → option bytes;
  yaml_parser_load : bytes → option yaml_document
}.

(** The settings, whether the library can initialise its next parser, and the numbers
    of parsers, documents and files that are in use. *)
Record loading := Loading {
  settings : config; parser_ready : bool; parsers : Z; documents : Z; files : Z
}.

Section Loading.
Context `{Resolver, Loader}.

Definition set_settings v l := Loading v (parser_ready l) (parsers l) (documents l) (files l).
Definition add_parsers d l := Loading (settings l) (parser_ready l) (parsers l + d) (documents l) (files l).
Definition add_documents d l := Loading (settings l) (parser_ready l) (parsers l) (documents l + d) (files l).
Definition add_files d l := Loading (settings l) (parser_ready l) (parsers l) (documents l) (files l + d).

Definition yaml_parser_initialize : M loading bool :=
  ok ← gets parser_ready; if negb ok then mret false else modify (add_parsers 1);; mret true.
Definition yaml_parser_delete : M loading unit := modify (add_parsers (-1)).

(** Loading a text, and the parser of this file on the document. *)
Definition load_text (text : bytes) : M loading Z :=
  match yaml_parser_load text with
  | None => mret (-1)
  | Some doc =>
      modify (add_documents 1);;
      c ← gets settings;
      '(res, c) ← of_option (hev_config_parse_doc doc c);
      modify (set_settings c);;
      modify (add_documents (-1));;
      mret res
  end.

Definition hev_config_init_from_file (config_path : bytes) : M loading Z :=
  modify (λ l : loading, set_settings (hev_config_reset (settings l)) l);;
  ok ← yaml_parser_initialize;
  if negb ok then mret (-1) else
  res ← match fopen config_path with
        | None => mret (-1)
        | Some text =>
            modify (add_files 1);;
            res ← load_text text;
            modify (add_files (-1));;
            mret res
        end;
  yaml_parser_delete;;
  mret res.

Definition hev_config_init_from_str (config_str : bytes) (config_len : Z) : M loading Z :=
  modify (λ l : loading, set_settings (hev_config_reset (settings l)) l);;
  ok ← yaml_parser_initialize;
  if negb ok then mret (-1) else
  res ← (if config_len <=? zlen config_str then load_text (take (Z.to_nat config_len) config_str) else stuck);
  yaml_parser_delete;;
  mret res.
End Loading.

(** ** What the engine asks for *)

(** A string when the array is not empty. *)
Definition str_or_null (a : bytes) : option bytes :=
  c ← zget a 0; if negb (truthy c) then None else cstr a.

Section Getters.
Context (c : config).
Definition hev_config_get_tunnel_name := str_or_null (tun_name (tunnel c)).
Definition hev_config_get_tunnel_mtu := tun_mtu (tunnel c).
Definition hev_config_get_tunnel_multi_queue := multi_queue (tunnel c).
Definition hev_config_get_tunnel_icmp := icmp (tunnel c).
Definition hev_config_get_tunnel_ipv4_address := str_or_null (tun_ipv4_address (tunnel c)).
Definition hev_config_get_tunnel_ipv6_address := str_or_null (tun_ipv6_address (tunnel c)).
Definition hev_config_get_tunnel_post_up_script := str_or_null (tun_post_up_script (tunnel c)).
Definition hev_config_get_tunnel_pre_down_script := str_or_null (tun_pre_down_script (tunnel c)).

(** The server as the sessions read it: strings behind the pointers. *)
Definition hev_config_get_socks5_server : option HevConfigServer :=
  let s := srv c in
  user ← (if srv_user s then Some <$> cstr (_user s) else Some None);
  pass ← (if srv_pass s then Some <$> cstr (_pass s) else Some None);
  udp_addr ← cstr (srv_udp_addr s);
  addr ← cstr (srv_addr s);
  Some (ConfigServer user pass (srv_mark s) (srv_udp_in_udp s) (srv_port s) (srv_pipeline s) (srv_fastopen s) udp_addr addr).

Definition hev_config_get_mapdns_address := mapdns_address (mapdns c).
Definition hev_config_get_mapdns_port := mapdns_port (mapdns c).
Definition hev_config_get_mapdns_network := mapdns_network (mapdns c).
Definition hev_config_get_mapdns_netmask := mapdns_netmask (mapdns c).
Definition hev_config_get_mapdns_cache_size := mapdns_cache_size (mapdns c).
Definition hev_config_get_misc_task_stack_size := task_stack_size (misc c).
Definition hev_config_get_misc_tcp_buffer_size := tcp_buffer_size (misc c).
Definition hev_config_get_misc_udp_recv_buffer_size := udp_recv_buffer_size (misc c).
Definition hev_config_get_misc_udp_copy_buffer_nums := udp_copy_buffer_nums (misc c).
Definition hev_config_get_misc_max_session_count := max_session_count (misc c).
Definition hev_config_get_misc_connect_timeout := connect_timeout (misc c).
Definition hev_config_get_misc_tcp_read_write_timeout := tcp_read_write_timeout (misc c).
Definition hev_config_get_misc_udp_read_write_timeout := udp_read_write_timeout (misc c).
Definition hev_config_get_misc_limit_nofile := limit_nofile (misc c).
Definition hev_config_get_misc_pid_file := str_or_null (pid_file (misc c)).
Definition hev_config_get_misc_log_file : option bytes :=
  file ← str_or_null (log_file (misc c)); if is_key file "null" then None else Some file.
Definition hev_config_get_misc_log_level := log_level (misc c).
End Getters.
