(* ===== verification/ConfigSpec.v ===== *)
(** * ConfigSpec: what a configuration file sets

    The parsers of [Config] are loops that break, skip and overwrite. Here every
    setting is read off the document directly, as the last value of its key, and the
    loops are shown to do the same; what the check of the sizes establishes, and when it
    overflows, is [sizes_ok] and [doc_overflows]. *)
From S2P Require Import Prelude Bytes Socks5 Session SessionTCP CLib Config.
From Stdlib Require Ascii String.
Import String.StringSyntax.

(** ** Walks as lists *)

(** The pairs that a walk visits: up to a key that is no scalar. *)
Fixpoint entries (doc : yaml_document) (pairs : list (Z * Z)) : list (bytes * option yaml_node) :=
  match pairs with
  | [] => []
  | (key, value) :: pairs =>
      if (key =? 0) || (value =? 0) then entries doc pairs else
      match yaml_document_get_node doc key with
      | Some (Scalar key) => (c_string key, yaml_document_get_node doc value) :: entries doc pairs
      | _ => []
      end
  end.

(** The entries before one without a node, and before one that is no scalar. *)
Fixpoint node_entries (es : list (bytes * option yaml_node)) : list (bytes * yaml_node) :=
  match es with (key, Some node) :: es => (key, node) :: node_entries es | _ => [] end.

Fixpoint scalar_entries (es : list (bytes * option yaml_node)) : list (bytes * bytes) :=
  match es with
  | (key, Some (Scalar value)) :: es => (key, c_string value) :: scalar_entries es
  | _ => []
  end.

(** The last value of a key that can be used. *)
Fixpoint last_value {V B} (f : V → option B) (key : bytes) (es : list (bytes * V)) : option B :=
  match es with
  | [] => None
  | (k, v) :: es =>
      match last_value f key es with
      | Some b => Some b
      | None => if bool_decide (k = key) then f v else None
      end
  end.

Definition keys_ok {V} (es : list (bytes * V)) : Prop := Forall (λ e, 0 ∉ e.1) es.

Lemma entries_ok doc pairs : keys_ok (entries doc pairs).
Proof.
  induction pairs as [|[k v] pairs IH]; cbn; [constructor|].
  destruct ((k =? 0) || (v =? 0)); [done|].
  destruct (yaml_document_get_node doc k) as [[key| |]|]; try constructor; [apply c_string_no_nul|done].
Qed.

Lemma node_entries_ok es : keys_ok es → keys_ok (node_entries es).
Proof. induction 1 as [|[k [n|]] es Hk _ IH]; cbn; constructor; done. Qed.

Lemma scalar_entries_ok es : keys_ok es → keys_ok (scalar_entries es).
Proof. induction 1 as [|[k [[v| |]|]] es Hk _ IH]; cbn; constructor; done. Qed.

Lemma for_pairs_nodes {T} doc (body : bytes → option yaml_node → T → flow T) (step : T → bytes * yaml_node → T) pairs t :
  (∀ k t, body k None t = Break t) → (∀ k n t, body k (Some n) t = Next (step t (k, n))) →
  for_pairs doc body pairs t = foldl step t (node_entries (entries doc pairs)).
Proof.
  intros Hb Hn. revert t. induction pairs as [|[k v] pairs IH]; intros t; cbn; [done|].
  destruct ((k =? 0) || (v =? 0)); [done|].
  destruct (yaml_document_get_node doc k) as [[key| |]|]; try done. cbn.
  destruct (yaml_document_get_node doc v); [rewrite Hn; apply IH|by rewrite Hb].
Qed.

Lemma for_pairs_scalars {T} doc (body : bytes → bytes → T → T) pairs t :
  for_pairs doc (scalars_only body) pairs t =
  foldl (λ t e, body e.1 e.2 t) t (scalar_entries (entries doc pairs)).
Proof.
  revert t. induction pairs as [|[k v] pairs IH]; intros t; cbn; [done|].
  destruct ((k =? 0) || (v =? 0)); [done|].
  destruct (yaml_document_get_node doc k) as [[key| |]|]; try done. cbn.
  destruct (yaml_document_get_node doc v) as [[value| |]|]; cbn; [apply IH|done..].
Qed.

Lemma is_key_eq k s : 0 ∉ k → bool_decide (0 ∉ lit s) = true → is_key k s = bool_decide (k = lit s).
Proof. intros Hk Hs%bool_decide_eq_true. by apply strcmp_equal. Qed.

Lemma last_value_fmap {V B C} (g : B → C) (f : V → option B) key es :
  last_value (λ v, g <$> f v) key es = g <$> last_value f key es.
Proof.
  induction es as [|[k v] es IH]; cbn; [done|]. rewrite IH.
  destruct (last_value f key es); cbn; [done|]. by case_bool_decide.
Qed.

(** A field of the result of a walk, given what one step does to it. *)
Section Fold.
Context {T V B : Type} (I : T → Prop) (step : T → bytes * V → T).
Hypothesis step_inv : ∀ t k v, 0 ∉ k → I t → I (step t (k, v)).

Lemma fold_inv es t : keys_ok es → I t → I (foldl step t es).
Proof using step_inv. intros H. revert t. induction H as [|[k v] es Hk _ IH]; cbn; auto. Qed.

Lemma fold_field (π : T → B) key (f : V → option B) es t :
  (∀ t k v, 0 ∉ k → I t → π (step t (k, v)) = if bool_decide (k = key) then default (π t) (f v) else π t) →
  keys_ok es → I t → π (foldl step t es) = default (π t) (last_value f key es).
Proof using step_inv.
  intros Hs H. revert t. induction H as [|[k v] es Hk _ IH]; intros t Ht; cbn; [done|].
  rewrite IH by auto. destruct (last_value f key es); cbn; [done|]. rewrite Hs by auto. by case_bool_decide.
Qed.
End Fold.

(** ** The settings, read off the document *)

Definition scalar (n : yaml_node) : option bytes := match n with Scalar v => Some (c_string v) | _ => None end.
Definition scalars (doc : yaml_document) (pairs : list (Z * Z)) : list (bytes * bytes) :=
  scalar_entries (entries doc pairs).

(** An address is a scalar, or a mapping that has it. *)
Definition address (doc : yaml_document) (n : yaml_node) : option bytes :=
  match n with
  | Scalar v => Some (c_string v)
  | Mapping pairs => last_value Some (lit "address") (scalars doc pairs)
  | Sequence _ => None
  end.

Definition read_tunnel (doc : yaml_document) (pairs : list (Z * Z)) : tunnel_vars :=
  let es := node_entries (entries doc pairs) in
  let str n key := filled n (default [] (last_value scalar key es)) in
  TunnelVars (str 64 (lit "name"))
    (default 8500 (last_value (λ n, (λ v, u32 (strtoul v 10)) <$> scalar n) (lit "mtu") es))
    (default 0 (last_value (λ n, (λ v, strcasecmp v (lit "false")) <$> scalar n) (lit "multi-queue") es))
    (default false (last_value (λ n, (λ v, strcasecmp v (lit "reply") =? 0) <$> scalar n) (lit "icmp") es))
    (filled 16 (default [] (last_value (address doc) (lit "ipv4") es)))
    (filled 64 (default [] (last_value (address doc) (lit "ipv6") es)))
    (str 1024 (lit "post-up-script")) (str 1024 (lit "pre-down-script")).

Definition arrays_ok (t : tunnel_vars) : Prop :=
  char_array 64 (tun_name t) ∧ char_array 16 (tun_ipv4_address t) ∧ char_array 64 (tun_ipv6_address t) ∧
  char_array 1024 (tun_post_up_script t) ∧ char_array 1024 (tun_pre_down_script t).

Definition tunnel_node (doc : yaml_document) (t : tunnel_vars) (e : bytes * yaml_node) : tunnel_vars :=
  match tunnel_pair doc e.1 (Some e.2) t with Next t | Break t => t end.

(** Keys are compared with the strings of the source. *)
Ltac keys :=
  rewrite ?is_key_eq by (done || reflexivity);
  repeat match goal with
  | |- context [bool_decide (?k = lit ?s)] =>
      is_var k; destruct (decide (k = lit s)) as [->|?]; [|rewrite !(bool_decide_eq_false_2 (k = lit s)) by done]
  end;
  repeat match goal with
  | |- context [bool_decide (lit ?a = lit ?b)] =>
      let v := eval vm_compute in (bool_decide (lit a = lit b)) in
      change (bool_decide (lit a = lit b)) with v; cbv iota
  end.

Lemma address_walk n (get : tunnel_vars → bytes) set pair doc pairs t :
  (∀ k v t, pair k v t = if is_key k "address" then set (strncpy_to (get t) v (n - 1)) t else t) →
  (∀ v t, get (set v t) = v) → (∀ v w t, set v (set w t) = set v t) → (∀ t, set (get t) t = t) →
  1 <= n → char_array n (get t) →
  for_pairs doc (scalars_only pair) pairs t =
  set (from_option (filled n) (get t) (last_value Some (lit "address") (scalars doc pairs))) t.
Proof.
  intros Hp Hgs Hss Hsg Hn Ha. rewrite for_pairs_scalars. fold (scalars doc pairs).
  assert (keys_ok (scalars doc pairs)) as Hk by apply scalar_entries_ok, entries_ok.
  revert t Ha. induction Hk as [|[k v] es Hk _ IH]; intros t Ha; cbn; [done|].
  rewrite Hp. cbn in Hk. keys.
  - rewrite strncpy_array, IH by (rewrite ?Hgs; done || by apply filled_array).
    rewrite Hgs, Hss. by destruct (last_value _ _ es).
  - rewrite IH by done. by destruct (last_value _ _ es).
Qed.

Lemma ipv4_node doc pairs t :
  char_array 16 (tun_ipv4_address t) →
  for_pairs doc (scalars_only ipv4_pair) pairs t =
  set_ipv4 (from_option (filled 16) (tun_ipv4_address t) (address doc (Mapping pairs))) t.
Proof. intros Ha. apply (address_walk 16); try done. by intros []. Qed.

Lemma ipv6_node doc pairs t :
  char_array 64 (tun_ipv6_address t) →
  for_pairs doc (scalars_only ipv6_pair) pairs t =
  set_ipv6 (from_option (filled 64) (tun_ipv6_address t) (address doc (Mapping pairs))) t.
Proof. intros Ha. apply (address_walk 64); try done. by intros []. Qed.

Lemma set_array n a o : 1 <= n → char_array n a → char_array n (from_option (filled n) a o).
Proof. intros Hn Ha. destruct o; [by apply filled_array|done]. Qed.

(** One pair of the tunnel's section. *)
Lemma tunnel_node_eq doc t k v :
  0 ∉ k → arrays_ok t →
  tunnel_node doc t (k, v) =
  (let str n key a := from_option (filled n) a (if bool_decide (k = key) then scalar v else None) in
   let num {B} key (f : bytes → B) (d : B) := default d (if bool_decide (k = key) then f <$> scalar v else None) in
   let addr n key a := from_option (filled n) a (if bool_decide (k = key) then address doc v else None) in
   TunnelVars (str 64 (lit "name") (tun_name t)) (num (lit "mtu") (λ v, u32 (strtoul v 10)) (tun_mtu t))
     (num (lit "multi-queue") (λ v, strcasecmp v (lit "false")) (multi_queue t))
     (num (lit "icmp") (λ v, strcasecmp v (lit "reply") =? 0) (icmp t))
     (addr 16 (lit "ipv4") (tun_ipv4_address t)) (addr 64 (lit "ipv6") (tun_ipv6_address t))
     (str 1024 (lit "post-up-script") (tun_post_up_script t)) (str 1024 (lit "pre-down-script") (tun_pre_down_script t))).
Proof.
  intros Hk (H1 & H2 & H3 & H4 & H5). unfold tunnel_node, tunnel_pair, scalar.
  destruct v as [v| |pairs]; cbn [fst snd].
  - unfold tunnel_scalar. keys. all: rewrite ?strncpy_array by done. all: by destruct t.
  - keys. all: by destruct t.
  - keys. all: cbn [hev_config_parse_tunnel_ipv4 hev_config_parse_tunnel_ipv6 snd].
    all: rewrite ?ipv4_node, ?ipv6_node by done. all: by destruct t.
Qed.

Lemma tunnel_node_inv doc t k v : 0 ∉ k → arrays_ok t → arrays_ok (tunnel_node doc t (k, v)).
Proof.
  intros Hk Ht. rewrite tunnel_node_eq by done. destruct Ht as (H1 & H2 & H3 & H4 & H5).
  split_and!; cbn; by apply set_array.
Qed.

Lemma zeros_filled n : 1 <= n → zeros n = filled n [].
Proof.
  intros Hn. unfold zeros, filled, strncpy. rewrite take_nil, Nat.sub_0_r. cbn [app length].
  change [0] with (replicate 1 0). rewrite <- replicate_add. f_equal. lia.
Qed.

Lemma filled_last {V} n (f : V → option bytes) key es a :
  1 <= n → a = zeros n →
  default a (last_value (λ v, filled n <$> f v) key es) = filled n (default [] (last_value f key es)).
Proof.
  intros Hn ->. rewrite last_value_fmap, zeros_filled by done. by destruct (last_value f key es).
Qed.

Lemma from_option_if {V B C} (b : bool) (g : B → C) d (f : V → option B) v :
  from_option g d (if b then f v else None) = if b then default d (g <$> f v) else d.
Proof. by destruct b, (f v). Qed.

Lemma default_if {A} (b : bool) (d : A) o : default d (if b then o else None) = if b then default d o else d.
Proof. by destruct b. Qed.

Definition tunnel_reset : tunnel_vars :=
  TunnelVars (zeros 64) 8500 0 false (zeros 16) (zeros 64) (zeros 1024) (zeros 1024).

Lemma tunnel_eta t :
  t = TunnelVars (tun_name t) (tun_mtu t) (multi_queue t) (icmp t) (tun_ipv4_address t)
        (tun_ipv6_address t) (tun_post_up_script t) (tun_pre_down_script t).
Proof. by destruct t. Qed.

Lemma tunnel_reads doc pairs :
  hev_config_parse_tunnel doc (Some (Mapping pairs)) tunnel_reset = (0, read_tunnel doc pairs).
Proof.
  unfold hev_config_parse_tunnel. f_equal.
  rewrite (for_pairs_nodes _ _ (tunnel_node doc)) by (done || by intros ? [| |]).
  pose proof (node_entries_ok _ (entries_ok doc pairs)) as Hes.
  set (es := node_entries _) in *.
  assert (arrays_ok tunnel_reset) as Hr by (split_and!; by apply zeros_array).
  assert (∀ B (π : tunnel_vars → B) key f,
    (∀ t k v, 0 ∉ k → arrays_ok t → π (tunnel_node doc t (k, v)) = if bool_decide (k = key) then default (π t) (f v) else π t) →
    π (foldl (tunnel_node doc) tunnel_reset es) = default (π tunnel_reset) (last_value f key es)) as F
    by (intros; eapply (fold_field arrays_ok); eauto using tunnel_node_inv).
  rewrite (tunnel_eta (foldl _ _ _)).
  unfold read_tunnel. fold es.
  f_equal; (erewrite F by (intros; rewrite tunnel_node_eq by done; cbn; first [apply default_if|apply from_option_if]));
    [by apply filled_last|done..| | | |]; by apply filled_last.
Qed.

(** ** The other sections *)

Lemma scalars_ok doc pairs : keys_ok (scalars doc pairs).
Proof. apply scalar_entries_ok, entries_ok. Qed.

Definition get (key : String.string) (es : list (bytes * bytes)) : option bytes := last_value Some (lit key) es.
Arguments get key%_string_scope es.

(** A setting that each occurrence of its key overwrites. *)
Lemma walk_get {T B} (I : T → Prop) body (π : T → B) s (g : bytes → B) es t d :
  (∀ t k v, 0 ∉ k → I t → I (body k v t)) →
  (∀ t k v, 0 ∉ k → I t → π (body k v t) = if bool_decide (k = lit s) then g v else π t) →
  keys_ok es → I t → π t = d → π (foldl (λ t e, body e.1 e.2 t) t es) = from_option g d (get s es).
Proof.
  intros Hi Hp Hes Ht <-.
  rewrite (fold_field I (λ t e, body e.1 e.2 t) Hi π (lit s) (λ v, g <$> Some v)), last_value_fmap; try done.
  unfold get. by destruct (last_value _ _ _).
Qed.

(** A number, and the array of a string. *)
Definition number (key : String.string) (d : Z) (es : list (bytes * bytes)) : Z :=
  from_option (λ v, i32 (strtoul v 10)) d (get key es).
Definition str_of (n : Z) (key : String.string) (es : list (bytes * bytes)) : bytes :=
  filled n (default [] (get key es)).
Arguments number key%_string_scope d es.
Arguments str_of n key%_string_scope es.

Lemma str_of_zeros n key es : 1 <= n → from_option (filled n) (zeros n) (get key es) = str_of n key es.
Proof. intros Hn. rewrite zeros_filled by done. unfold str_of. by destruct (get key es). Qed.

(** The server: [None] when the section is refused. The arrays of the credentials are
    those of before unless both are given. *)
Definition read_socks5 (s : srv_vars) (doc : yaml_document) (pairs : list (Z * Z)) : option srv_vars :=
  let es := scalars doc pairs in
  let both := match get "username" es, get "password" es with
              | Some user, Some pass => Some (Some (user, pass)) | None, None => Some None | _, _ => None end in
  port ← get "port" es; addr ← get "address" es; login ← both;
  Some (SrvVars (bool_decide (is_Some login)) (bool_decide (is_Some login))
    (from_option (λ v, u32 (strtoul v 0)) 0 (get "mark" es))
    (is_word (get "udp" es) "udp") (u16 (strtoul port 10)) (is_word (get "pipeline" es) "true")
    (is_word (get "tcp-fastopen" es) "true")
    (str_of 256 "udp-address" es) (filled 256 addr)
    (from_option (λ l, filled 256 l.1) (_user s) login) (from_option (λ l, filled 256 l.2) (_pass s) login)).

Definition socks5_reset (s : srv_vars) : srv_vars :=
  SrvVars false false 0 false 0 false false (zeros 256) (zeros 256) (_user s) (_pass s).

Definition credentials_ok (s : srv_vars) : Prop := char_array 256 (_user s) ∧ char_array 256 (_pass s).

Lemma socks5_pair_eq K k v :
  0 ∉ k →
  socks5_pair k v K =
  (let or key (o : option bytes) := if bool_decide (k = key) then Some v else o in
   Socks5Keys (or (lit "address") (k_addr K)) (or (lit "port") (k_port K)) (or (lit "udp") (k_udpm K))
     (or (lit "udp-address") (k_udpa K)) (or (lit "username") (k_user K)) (or (lit "password") (k_pass K))
     (or (lit "mark") (k_mark K)) (or (lit "pipeline") (k_pipe K)) (or (lit "tcp-fastopen") (k_tfso K))).
Proof. intros Hk. destruct K. unfold socks5_pair. cbn. keys. all: done. Qed.

Lemma socks5_eta K :
  K = Socks5Keys (k_addr K) (k_port K) (k_udpm K) (k_udpa K) (k_user K) (k_pass K) (k_mark K) (k_pipe K) (k_tfso K).
Proof. by destruct K. Qed.

Lemma socks5_walk doc pairs :
  for_pairs doc (scalars_only socks5_pair) pairs no_keys =
  let es := scalars doc pairs in
  Socks5Keys (get "address" es) (get "port" es) (get "udp" es) (get "udp-address" es) (get "username" es)
    (get "password" es) (get "mark" es) (get "pipeline" es) (get "tcp-fastopen" es).
Proof.
  rewrite for_pairs_scalars. fold (scalars doc pairs).
  pose proof (scalars_ok doc pairs) as Hes. set (es := scalars doc pairs) in *.
  rewrite (socks5_eta (foldl _ _ _)).
  f_equal; (etransitivity; [eapply (walk_get (λ _, True) _ _ _ Some); try done; intros; by rewrite socks5_pair_eq by done|]);
    by destruct (get _ _).
Qed.

Lemma socks5_reads doc pairs s :
  credentials_ok s →
  match read_socks5 s doc pairs with
  | Some s' => hev_config_parse_socks5 doc (Some (Mapping pairs)) (socks5_reset s) = (0, s')
  | None => ∃ s', hev_config_parse_socks5 doc (Some (Mapping pairs)) (socks5_reset s) = (-1, s')
  end.
Proof.
  intros [Hu Hp]. unfold read_socks5, hev_config_parse_socks5. rewrite socks5_walk. cbv zeta.
  cbn [k_port k_addr k_user k_pass].
  destruct (get "port" _) as [port|]; cbn; [|by eexists]. destruct (get "address" _) as [addr|]; cbn; [|by eexists].
  destruct (get "username" _) as [user|], (get "password" _) as [pass|]; cbn; try by eexists.
  all: f_equal; unfold socks5_store; cbn.
  all: rewrite !strncpy_array by (done || by apply zeros_array).
  all: rewrite (zeros_filled 256) by done.
  all: f_equal; try done; try (by destruct (is_word _ _)).
  all: unfold str_of; destruct (get "udp-address" _); cbn; [by rewrite strncpy_array by (done || by apply filled_array)|done].
Qed.

(** Miscellaneous settings. A timeout for one protocol that is not positive gives
    way to the common one, and that to the default. *)
Definition read_misc (doc : yaml_document) (pairs : list (Z * Z)) : misc_vars :=
  let es := scalars doc pairs in
  let rw := number "read-write-timeout" (-1) es in
  let first t d := if 0 <? t then t else if 0 <? rw then rw else d in
  MiscVars (str_of 1024 "log-file" es) (str_of 1024 "pid-file" es) (number "max-session-count" 0 es)
    (number "task-stack-size" 86016 es) (number "tcp-buffer-size" 65536 es) (number "udp-recv-buffer-size" 524288 es)
    (number "udp-copy-buffer-nums" 10 es) (number "connect-timeout" 10000 es)
    (first (number "tcp-read-write-timeout" (-1) es) 300000) (first (number "udp-read-write-timeout" (-1) es) 60000)
    (from_option (λ v, i32 (strtol v 10)) 65535 (get "limit-nofile" es))
    (from_option hev_config_parse_log_level HEV_LOGGER_WARN (get "log-level" es)).

Definition misc_reset : misc_vars :=
  MiscVars (zeros 1024) (zeros 1024) 0 86016 65536 524288 10 10000 300000 60000 65535 HEV_LOGGER_WARN.

Definition files_ok (s : misc_vars * timeouts) : Prop :=
  char_array 1024 (log_file s.1) ∧ char_array 1024 (pid_file s.1).
Definition files_kept (s : misc_vars * timeouts) : Prop :=
  files_ok s ∧ tcp_read_write_timeout s.1 = 300000 ∧ udp_read_write_timeout s.1 = 60000.

Lemma misc_pair_eq s k v :
  0 ∉ k → files_ok s →
  misc_pair k v s =
  (let '(m, t) := s in
   let str n key d := if bool_decide (k = key) then filled n v else d in
   let num key d := if bool_decide (k = key) then i32 (strtoul v 10) else d in
   (MiscVars (str 1024 (lit "log-file") (log_file m)) (str 1024 (lit "pid-file") (pid_file m))
      (num (lit "max-session-count") (max_session_count m)) (num (lit "task-stack-size") (task_stack_size m))
      (num (lit "tcp-buffer-size") (tcp_buffer_size m)) (num (lit "udp-recv-buffer-size") (udp_recv_buffer_size m))
      (num (lit "udp-copy-buffer-nums") (udp_copy_buffer_nums m)) (num (lit "connect-timeout") (connect_timeout m))
      (tcp_read_write_timeout m) (udp_read_write_timeout m)
      (if bool_decide (k = lit "limit-nofile") then i32 (strtol v 10) else limit_nofile m)
      (if bool_decide (k = lit "log-level") then hev_config_parse_log_level v else log_level m),
    Timeouts (num (lit "tcp-read-write-timeout") (tcp_rw_timeout t)) (num (lit "udp-read-write-timeout") (udp_rw_timeout t))
      (num (lit "read-write-timeout") (rw_timeout t)))).
Proof.
  intros Hk [Hl Hp]. destruct s as [[] []]. cbn in Hl, Hp. unfold misc_pair. cbn. keys.
  all: rewrite ?strncpy_array by done. all: done.
Qed.

Lemma misc_pair_inv s k v : 0 ∉ k → files_kept s → files_kept (misc_pair k v s).
Proof.
  intros Hk [Hs Ht]. rewrite misc_pair_eq by done. destruct s as [m t]. destruct Hs as (Hl & Hp).
  split; [split; cbn; case_bool_decide; try done; by apply filled_array|done].
Qed.

Lemma misc_eta s :
  s = (MiscVars (log_file s.1) (pid_file s.1) (max_session_count s.1) (task_stack_size s.1) (tcp_buffer_size s.1)
         (udp_recv_buffer_size s.1) (udp_copy_buffer_nums s.1) (connect_timeout s.1) (tcp_read_write_timeout s.1)
         (udp_read_write_timeout s.1) (limit_nofile s.1) (log_level s.1),
       Timeouts (tcp_rw_timeout s.2) (udp_rw_timeout s.2) (rw_timeout s.2)).
Proof. by destruct s as [[] []]. Qed.

(** The walk leaves the timeouts of the protocols for later. *)
Lemma misc_walk doc pairs :
  for_pairs doc (scalars_only misc_pair) pairs (misc_reset, Timeouts (-1) (-1) (-1)) =
  (let es := scalars doc pairs in
   (set_tcp_rw 300000 (set_udp_rw 60000 (read_misc doc pairs)),
    Timeouts (number "tcp-read-write-timeout" (-1) es) (number "udp-read-write-timeout" (-1) es) (number "read-write-timeout" (-1) es))).
Proof.
  rewrite for_pairs_scalars. fold (scalars doc pairs). unfold read_misc, set_tcp_rw, set_udp_rw.
  pose proof (scalars_ok doc pairs) as Hes. set (es := scalars doc pairs) in *. cbv zeta.
  cbn [log_file pid_file max_session_count task_stack_size tcp_buffer_size udp_recv_buffer_size udp_copy_buffer_nums connect_timeout tcp_read_write_timeout udp_read_write_timeout limit_nofile log_level].
  set (r := (misc_reset, Timeouts (-1) (-1) (-1))).
  assert (files_kept r) as Hr by (split_and!; (by apply zeros_array) || done).
  assert (∀ B (π : misc_vars * timeouts → B) s (g : bytes → B) d,
    (∀ t k v, 0 ∉ k → files_kept t → π (misc_pair k v t) = if bool_decide (k = lit s) then g v else π t) →
    π r = d → π (foldl (λ t e, misc_pair e.1 e.2 t) r es) = from_option g d (get s es)) as F
    by (intros; eapply (walk_get files_kept); eauto using misc_pair_inv).
  destruct (fold_inv files_kept (λ t e, misc_pair e.1 e.2 t) misc_pair_inv es r Hes Hr) as (_ & H1 & H2).
  rewrite (misc_eta (foldl _ _ _)), H1, H2.
  repeat f_equal; rewrite <- ?str_of_zeros by done;
    (match goal with
     | |- ?p (foldl _ _ _).1 = _ => apply (F _ (λ s, p s.1))
     | |- ?p (foldl _ _ _).2 = _ => apply (F _ (λ s, p s.2))
     end); try done; intros [] ?? ? []; by rewrite misc_pair_eq by done.
Qed.

Section Reads.
Context `{Resolver}.

Definition read_address (key : bytes) (es : list (bytes * bytes)) : Z :=
  from_option int_of_bytes 0 (last_value (inet_pton AF_INET) key es).

Definition read_mapdns (doc : yaml_document) (pairs : list (Z * Z)) : mapdns_vars :=
  let es := scalars doc pairs in
  MapdnsVars (read_address (lit "address") es)
    (number "port" 0 es)
    (ntohl (read_address (lit "network") es)) (ntohl (read_address (lit "netmask") es))
    (number "cache-size" 0 es).

Lemma mapdns_pair_eq m k v :
  0 ∉ k →
  mapdns_pair k v m =
  (let addr key d := if bool_decide (k = key) then inet_pton_int v d else d in
   let num key d := if bool_decide (k = key) then i32 (strtoul v 10) else d in
   MapdnsVars (addr (lit "address") (mapdns_address m)) (num (lit "port") (mapdns_port m))
     (addr (lit "network") (mapdns_network m)) (addr (lit "netmask") (mapdns_netmask m))
     (num (lit "cache-size") (mapdns_cache_size m))).
Proof. intros Hk. destruct m. unfold mapdns_pair. cbn. keys. all: done. Qed.

Lemma mapdns_eta m :
  m = MapdnsVars (mapdns_address m) (mapdns_port m) (mapdns_network m) (mapdns_netmask m) (mapdns_cache_size m).
Proof. by destruct m. Qed.

Lemma walk_address {T} (I : T → Prop) body (π : T → Z) key es t :
  (∀ t k v, 0 ∉ k → I t → I (body k v t)) →
  (∀ t k v, 0 ∉ k → I t → π (body k v t) = if bool_decide (k = key) then inet_pton_int v (π t) else π t) →
  keys_ok es → I t → π t = 0 → π (foldl (λ t e, body e.1 e.2 t) t es) = read_address key es.
Proof.
  intros Hi Hp Hes Ht H0.
  rewrite (fold_field I (λ t e, body e.1 e.2 t) Hi π key (λ v, int_of_bytes <$> inet_pton AF_INET v)), last_value_fmap, H0; try done.
  - unfold read_address. by destruct (last_value _ _ _).
  - intros ? k v Hk HI. cbn. rewrite Hp by done. case_bool_decide; [|done]. unfold inet_pton_int. by destruct (inet_pton _ _).
Qed.

Lemma mapdns_reads doc pairs :
  hev_config_parse_mapdns doc (Some (Mapping pairs)) (MapdnsVars 0 0 0 0 0) = (0, read_mapdns doc pairs).
Proof.
  unfold hev_config_parse_mapdns. f_equal. rewrite for_pairs_scalars. fold (scalars doc pairs).
  pose proof (scalars_ok doc pairs) as Hes. unfold read_mapdns. set (es := scalars doc pairs) in *. cbv zeta.
  rewrite (mapdns_eta (foldl _ _ _)). unfold set_netmask, set_network. cbn [mapdns_address mapdns_port mapdns_network mapdns_netmask mapdns_cache_size].
  f_equal; try apply (f_equal ntohl);
    (eapply (walk_address (λ _, True)) || eapply (walk_get (λ _, True))); try done; intros; by rewrite mapdns_pair_eq by done.
Qed.
End Reads.

Lemma misc_reads doc pairs :
  hev_config_parse_misc doc (Some (Mapping pairs)) misc_reset = (0, read_misc doc pairs).
Proof.
  unfold hev_config_parse_misc. rewrite misc_walk. cbv zeta. cbn [tcp_rw_timeout udp_rw_timeout rw_timeout].
  f_equal. unfold read_misc. cbv zeta.
  repeat (match goal with |- context [?a <=? 0] => destruct (Z.leb_spec a 0)
          | |- context [0 <? ?a] => destruct (Z.ltb_spec 0 a) end; try lia); reflexivity.
Qed.

(** ** The whole document *)

Section Document.
Context `{Resolver}.

Definition is_mapping (node : option yaml_node) : bool := match node with Some (Mapping _) => true | _ => false end.

(** The parser of a section takes it: it is a mapping, and that of the server has an
    address, a port, and a name with a password or neither. *)
Definition accepts (doc : yaml_document) (e : bytes * option yaml_node) : bool :=
  if bool_decide (e.1 = lit "socks5") then
    match e.2 with
    | Some (Mapping pairs) =>
        let es := scalars doc pairs in
        bool_decide (is_Some (get "port" es)) && bool_decide (is_Some (get "address" es)) &&
        bool_decide (is_Some (get "username" es) ↔ is_Some (get "password" es))
    | _ => false
    end
  else if bool_decide (e.1 ∈ [lit "tunnel"; lit "mapdns"; lit "misc"]) then is_mapping e.2
  else true.

(** The settings after all sections, which are read off one by one. *)
Definition read_section {A} (es : list (bytes * option yaml_node)) (key : bytes) (f : list (Z * Z) → A) (a : A) : A :=
  match last_value id key es with Some (Mapping pairs) => f pairs | _ => a end.

Definition read_config (c0 : config) (doc : yaml_document) (es : list (bytes * option yaml_node)) (c : config) : config :=
  let server pairs := default (socks5_reset (srv c0)) (read_socks5 (srv c0) doc pairs) in
  Config (read_section es (lit "tunnel") (read_tunnel doc) (tunnel c))
    (read_section es (lit "socks5") server (srv c))
    (read_section es (lit "mapdns") (read_mapdns doc) (mapdns c))
    (read_section es (lit "misc") (read_misc doc) (misc c)).

(** The rule for the sizes: the buffer fits into a connection's, and the stack holds
    the larger one of the buffers. *)
Definition sized (m : misc_vars) : option misc_vars :=
  let tcp := Z.min TCP_SND_BUF (tcp_buffer_size m) in
  let nums := udp_copy_buffer_nums m in
  if bool_decide (-1431655 <= nums <= 1431642) then
    Some (set_task_stack_size (Z.max (task_stack_size m) (TASK_STACK_SIZE + Z.max tcp (UDP_BUF_SIZE * nums)))
            (set_tcp_buffer_size tcp m))
  else None.

Lemma int_ok_in v : -2147483648 <= v <= 2147483647 → int_ok v = Some v.
Proof. intros Hv. unfold int_ok. by rewrite (proj2 (andb_true_iff _ _)) by (split; apply Z.leb_le; lia). Qed.

Lemma int_ok_out v : ¬ (-2147483648 <= v <= 2147483647) → int_ok v = None.
Proof.
  intros Hv. unfold int_ok. destruct (Z.leb_spec (-2147483648) v), (Z.leb_spec v 2147483647); try done. lia.
Qed.

Lemma check_sizes_sized m : -2147483648 <= tcp_buffer_size m → check_sizes m = sized m.
Proof.
  intros Ht. unfold check_sizes.
  assert ((if TCP_SND_BUF <? tcp_buffer_size m then set_tcp_buffer_size TCP_SND_BUF m else m) =
    set_tcp_buffer_size (Z.min TCP_SND_BUF (tcp_buffer_size m)) m) as ->.
  { destruct (Z.ltb_spec TCP_SND_BUF (tcp_buffer_size m)); [by rewrite Z.min_l by lia|].
    rewrite Z.min_r by lia. by destruct m. }
  unfold sized, UDP_BUF_SIZE, TASK_STACK_SIZE. set (tcp := Z.min _ _).
  assert (-2147483648 <= tcp <= 65528) as Htcp by (unfold tcp, TCP_SND_BUF; lia). clearbody tcp.
  destruct m as [lf pf ms stack tb ub n ct tr ur ln ll].
  cbn -[Z.mul Z.add Z.max Z.ltb int_ok bool_decide] in *.
  case_bool_decide as Hn.
  - rewrite (int_ok_in (1500 * n)) by lia. cbn -[Z.mul Z.add Z.max Z.ltb int_ok].
    destruct (Z.ltb_spec (1500 * n) tcp); rewrite int_ok_in by lia; cbn -[Z.mul Z.add Z.max Z.ltb int_ok]; f_equal;
      match goal with |- context [?u <? ?v] => destruct (Z.ltb_spec u v) end; 
      unfold set_task_stack_size, set_tcp_buffer_size; cbn -[Z.mul Z.add Z.max]; f_equal; lia.
  - destruct (decide (1500 * n < tcp)); [rewrite (int_ok_out (1500 * n)) by lia; done|].
    destruct (decide (1500 * n <= 2147483647)); [|rewrite (int_ok_out (1500 * n)) by lia; done].
    rewrite (int_ok_in (1500 * n)) by lia. cbn -[Z.mul Z.add Z.max Z.ltb int_ok].
    destruct (Z.ltb_spec (1500 * n) tcp); [lia|].
    by rewrite int_ok_out by lia.
Qed.

(** The walk over the sections: the ones that come are still as they were reset. *)
Definition fresh (c0 c : config) (keys : list bytes) : Prop :=
  (lit "tunnel" ∈ keys → tunnel c = tunnel_reset) ∧ (lit "socks5" ∈ keys → srv c = socks5_reset (srv c0)) ∧
  (lit "mapdns" ∈ keys → mapdns c = MapdnsVars 0 0 0 0 0) ∧ (lit "misc" ∈ keys → misc c = misc_reset).

Lemma read_socks5_accepted s doc pairs :
  accepts doc (lit "socks5", Some (Mapping pairs)) = bool_decide (is_Some (read_socks5 s doc pairs)).
Proof.
  unfold accepts, read_socks5. cbn [fst snd]. rewrite bool_decide_eq_true_2 by done. cbv zeta.
  set (es := scalars doc pairs).
  destruct (get "port" es), (get "address" es), (get "username" es), (get "password" es); try done.
Qed.

Lemma accepts_other doc k n :
  k ≠ lit "tunnel" → k ≠ lit "socks5" → k ≠ lit "mapdns" → k ≠ lit "misc" → accepts doc (k, n) = true.
Proof.
  intros. unfold accepts. cbn [fst snd]. rewrite bool_decide_eq_false_2, bool_decide_eq_false_2; try done.
  rewrite !elem_of_cons, elem_of_nil. naive_solver.
Qed.

Lemma section_step doc c0 c k n :
  0 ∉ k → credentials_ok (srv c0) → fresh c0 c [k] →
  match section_pair doc k n (0, c) with
  | Next t => accepts doc (k, n) = true ∧ t = (0, read_config c0 doc [(k, n)] c)
  | Break t => accepts doc (k, n) = false ∧ t.1 = -1
  end.
Proof.
  intros Hk Hc (Ht & Hs & Hd & Hm). unfold section_pair. cbn [snd].
  unfold read_config, read_section. cbn [last_value]. keys.
  - rewrite Ht by set_solver. destruct n as [[| |pairs]|]; try done. by rewrite tunnel_reads.
  - rewrite Hs by set_solver. destruct n as [[| |pairs]|]; try done.
    pose proof (socks5_reads doc pairs (srv c0) Hc) as E. rewrite (read_socks5_accepted (srv c0)).
    destruct (read_socks5 (srv c0) doc pairs) as [s'|] eqn:Er; [rewrite E|destruct E as [s' ->]]; [|done].
    cbn. by rewrite Er.
  - rewrite Hd by set_solver. destruct n as [[| |pairs]|]; try done. by rewrite mapdns_reads.
  - rewrite Hm by set_solver. destruct n as [[| |pairs]|]; try done. by rewrite misc_reads.
  - cbn. rewrite accepts_other by done. by destruct c.
Qed.

Lemma read_section_cons {A} k n es key (f : list (Z * Z) → A) a :
  NoDup (k :: es.*1) → read_section ((k, n) :: es) key f a = read_section es key f (read_section [(k, n)] key f a).
Proof.
  intros [Hk _]%NoDup_cons. unfold read_section. cbn.
  destruct (last_value id key es) as [v|] eqn:E; [|by repeat case_match].
  assert (key ∈ es.*1) as Hin.
  { clear Hk. induction es as [|[k' n'] es IH]; cbn in *; [done|]. rewrite elem_of_cons.
    destruct (last_value id key es); [right; apply IH; done|]. case_bool_decide; [by left|done]. }
  rewrite bool_decide_eq_false_2 by (intros ->; done). by destruct v.
Qed.

Lemma read_config_cons c0 doc k n es c :
  NoDup (k :: es.*1) → read_config c0 doc ((k, n) :: es) c = read_config c0 doc es (read_config c0 doc [(k, n)] c).
Proof.
  intros Hnd. unfold read_config. by rewrite !(read_section_cons k n es) by done.
Qed.

Lemma read_config_frame c0 doc k n c keys :
  k ∉ keys → fresh c0 c keys → fresh c0 (read_config c0 doc [(k, n)] c) keys.
Proof.
  intros Hk (H1 & H2 & H3 & H4).
  assert (∀ A key (f : list (Z * Z) → A) a, key ∈ keys → read_section [(k, n)] key f a = a) as E.
  { intros A key f a Hin. unfold read_section. cbn. by rewrite bool_decide_eq_false_2 by (by intros ->). }
  unfold fresh, read_config. cbn [tunnel srv mapdns misc]. split_and!; intros Hin; rewrite E; auto.
Qed.

Lemma fresh_cons c0 c k keys : fresh c0 c (k :: keys) ↔ fresh c0 c [k] ∧ fresh c0 c keys.
Proof. unfold fresh. setoid_rewrite elem_of_cons. setoid_rewrite elem_of_nil. naive_solver. Qed.

Lemma sections_walk doc pairs c0 c :
  credentials_ok (srv c0) → NoDup (entries doc pairs).*1 → fresh c0 c (entries doc pairs).*1 →
  let r := for_pairs doc (section_pair doc) pairs (0, c) in
  if forallb (accepts doc) (entries doc pairs) then r = (0, read_config c0 doc (entries doc pairs) c) else r.1 = -1.
Proof.
  intros Hc. revert c. induction pairs as [|[k v] pairs IH]; intros c Hnd Hf; cbn [for_pairs entries] in *.
  { by destruct c. }
  destruct ((k =? 0) || (v =? 0)); [by apply IH|].
  destruct (yaml_document_get_node doc k) as [[key| |]|]; try (by destruct c).
  rewrite fmap_cons in Hnd, Hf. cbn [fst] in Hnd, Hf. set (n := yaml_document_get_node doc v) in *.
  apply fresh_cons in Hf as [Hk Hf].
  pose proof (section_step doc c0 c (c_string key) n (c_string_no_nul key) Hc Hk) as Hs.
  cbn [forallb]. destruct (section_pair doc (c_string key) n (0, c)) as [t|t]; destruct Hs as [Ha Ht]; rewrite Ha; [|done].
  subst t. rewrite (read_config_cons c0 doc _ n (entries doc pairs)) by done. cbn [andb]. apply NoDup_cons in Hnd as [Hn Hnd]. apply IH; [done|].
  by apply read_config_frame.
Qed.

Lemma reset_fresh c keys : fresh c (hev_config_reset c) keys.
Proof. by split_and!. Qed.

Lemma strtoul_int v : -2147483648 <= i32 (strtoul v 10).
Proof. unfold i32. pose proof (Z.mod_pos_bound (strtoul v 10 + 2147483648) 4294967296). lia. Qed.

(** ** Well-formed settings

    Arrays hold C strings, numbers are in the range of their types, and the server's
    credentials are both set or both missing. *)
Definition int32 (v : Z) : Prop := -2147483648 <= v < 2147483648.

Lemma i32_int v : int32 (i32 v).
Proof. unfold int32, i32. pose proof (Z.mod_pos_bound (v + 2147483648) 4294967296). lia. Qed.

Definition tunnel_ok (t : tunnel_vars) : Prop := arrays_ok t ∧ 0 <= tun_mtu t < 4294967296.

Record srv_ok (s : srv_vars) : Prop := {
  so_credentials : credentials_ok s;
  so_addr : char_array 256 (srv_addr s) ∧ char_array 256 (srv_udp_addr s);
  so_both : srv_user s = srv_pass s;
  so_mark : 0 <= srv_mark s < 4294967296;
  so_port : 0 <= srv_port s < 65536
}.

Definition mapdns_ok (m : mapdns_vars) : Prop :=
  Forall int32 [mapdns_address m; mapdns_port m; mapdns_network m; mapdns_netmask m; mapdns_cache_size m].

Record misc_ok (m : misc_vars) : Prop := {
  mo_files : char_array 1024 (log_file m) ∧ char_array 1024 (pid_file m);
  mo_ints : Forall int32 [max_session_count m; task_stack_size m; tcp_buffer_size m; udp_recv_buffer_size m;
    udp_copy_buffer_nums m; connect_timeout m; tcp_read_write_timeout m; udp_read_write_timeout m; limit_nofile m];
  mo_level : HEV_LOGGER_DEBUG <= log_level m <= HEV_LOGGER_ERROR
}.

Record config_ok (c : config) : Prop := {
  co_tunnel : tunnel_ok (tunnel c); co_srv : srv_ok (srv c); co_mapdns : mapdns_ok (mapdns c); co_misc : misc_ok (misc c)
}.

Lemma parse_tunnel_ok doc base t : tunnel_ok t → tunnel_ok (hev_config_parse_tunnel doc base t).2.
Proof.
  intros Ht. unfold hev_config_parse_tunnel. destruct base as [[| |pairs]|]; try done. cbn [snd].
  rewrite (for_pairs_nodes _ _ (tunnel_node doc)) by (done || by intros ? [| |]).
  apply (fold_inv tunnel_ok); [|apply node_entries_ok, entries_ok|done].
  intros u k v Hk [Ha Hm]. split; [by apply tunnel_node_inv|]. rewrite tunnel_node_eq by done. cbn.
  case_bool_decide; cbn; [|done]. destruct (scalar v); cbn; [|done]. apply Z.mod_pos_bound. lia.
Qed.

Lemma parse_socks5_ok doc base s : srv_ok s → srv_ok (hev_config_parse_socks5 doc base s).2.
Proof.
  intros [[Hu Hp] [Ha Hd] Hb Hm Ho]. unfold hev_config_parse_socks5.
  destruct base as [[| |pairs]|]; try by constructor.
  generalize (for_pairs doc (scalars_only socks5_pair) pairs no_keys). intros k.
  destruct (k_port k) as [port|]; [|by constructor]. destruct (k_addr k) as [addr|]; [|by constructor].
  assert (srv_ok (socks5_store k addr port s)) as H'.
  { unfold socks5_store. constructor; cbn.
    - split; cbn; destruct (k_user k), (k_pass k); try done; rewrite strncpy_array by done; by apply filled_array.
    - rewrite strncpy_array by done. split; [by apply filled_array|].
      destruct (k_udpa k); [|done]. rewrite strncpy_array by done. by apply filled_array.
    - by rewrite Hb.
    - destruct (k_mark k); [|done]. apply Z.mod_pos_bound. lia.
    - apply Z.mod_pos_bound. lia. }
  by destruct (k_user k), (k_pass k).
Qed.

Lemma int32_if (b : bool) v d : int32 d → int32 (if b then i32 v else d).
Proof. destruct b; [intros _; apply i32_int|done]. Qed.

Lemma inet_pton_int32 v d : int32 d → int32 (inet_pton_int v d).
Proof.
  unfold inet_pton_int, int_of_bytes. intros Hd. destruct (inet_pton AF_INET v); [|done].
  repeat case_match; try apply i32_int; done.
Qed.

Lemma parse_mapdns_ok doc base m : mapdns_ok m → mapdns_ok (hev_config_parse_mapdns doc base m).2.
Proof.
  intros Hm. unfold hev_config_parse_mapdns. destruct base as [[| |pairs]|]; try done. cbn [snd].
  rewrite for_pairs_scalars.
  assert (mapdns_ok (foldl (λ t e, mapdns_pair e.1 e.2 t) m (scalar_entries (entries doc pairs)))) as H'.
  { apply (fold_inv mapdns_ok); [|apply scalar_entries_ok, entries_ok|done].
    intros u k v Hk Hu. cbn. rewrite mapdns_pair_eq by done. unfold mapdns_ok in *. rewrite !Forall_cons in *.
    cbn. intuition; auto using int32_if; case_bool_decide; auto using inet_pton_int32. }
  unfold mapdns_ok in *. rewrite !Forall_cons in *. cbn. intuition; apply i32_int.
Qed.
Lemma parse_misc_ok doc base m : misc_ok m → misc_ok (hev_config_parse_misc doc base m).2.
Proof.
  intros Hm. unfold hev_config_parse_misc. destruct base as [[| |pairs]|]; try done.
  rewrite for_pairs_scalars. set (start := (m, Timeouts (-1) (-1) (-1))).
  set (ok := λ s : misc_vars * timeouts,
    misc_ok s.1 ∧ int32 (tcp_rw_timeout s.2) ∧ int32 (udp_rw_timeout s.2) ∧ int32 (rw_timeout s.2)).
  assert (ok (foldl (λ t e, misc_pair e.1 e.2 t) start (scalar_entries (entries doc pairs)))) as H'.
  { apply (fold_inv ok); [|apply scalar_entries_ok, entries_ok|by split_and!].
    intros [u t] k v Hk ([Hf Hi Hl] & Ht). cbn [fst snd] in *. rewrite misc_pair_eq by done.
    split; [|cbn; destruct Ht as (? & ? & ?); auto using int32_if]. cbn. constructor; cbn.
    - destruct Hf. split; case_bool_decide; try done; by apply filled_array.
    - rewrite !Forall_cons in *. intuition; auto using int32_if.
    - case_bool_decide; [|done]. unfold hev_config_parse_log_level. by repeat case_match. }
  destruct (foldl _ _ _) as [u t]. destruct H' as ([Hf Hi Hl] & H1 & H2 & H3). cbn [snd fst] in *.
  rewrite !Forall_cons in Hi. repeat case_match; constructor; cbn; try done; rewrite !Forall_cons; intuition.
Qed.

Lemma sections_ok doc pairs c : config_ok c → config_ok (for_pairs doc (section_pair doc) pairs (0, c)).2.
Proof.
  revert c. induction pairs as [|[k v] pairs IH]; intros c Hc; cbn [for_pairs]; [done|].
  destruct ((k =? 0) || (v =? 0)); [by apply IH|].
  destruct (yaml_document_get_node doc k) as [[key| |]|]; try done. set (n := yaml_document_get_node doc v).
  destruct Hc as [H1 H2 H3 H4].
  pose proof (parse_tunnel_ok doc n _ H1). pose proof (parse_socks5_ok doc n _ H2).
  pose proof (parse_mapdns_ok doc n _ H3). pose proof (parse_misc_ok doc n _ H4).
  unfold section_pair. cbn [snd].
  destruct (hev_config_parse_tunnel _ _ _), (hev_config_parse_socks5 _ _ _), (hev_config_parse_mapdns _ _ _), (hev_config_parse_misc _ _ _).
  repeat case_match; simplify_eq; try apply IH; by constructor.
Qed.

(** C39: what a configuration file means. For every document whose sections have
    different names, the parser refuses it exactly when one of the sections that it
    knows is not acceptable; otherwise every setting is the last usable value of its
    key in its section, or the default, and then the sizes are adjusted, which fails
    only for a number of buffers whose size overflows an int. *)
Theorem config_reads doc pairs c :
  yaml_document_get_root_node doc = Some (Mapping pairs) →
  NoDup (entries doc pairs).*1 → credentials_ok (srv c) →
  let es := entries doc pairs in
  let read := read_config c doc es (hev_config_reset c) in
  if forallb (accepts doc) es
  then hev_config_parse_doc doc (hev_config_reset c) = (λ m, (0, set_misc m read)) <$> sized (misc read)
  else ∃ c', hev_config_parse_doc doc (hev_config_reset c) = Some (-1, c').
Proof.
  intros Hroot Hnd Hc es read. unfold hev_config_parse_doc. rewrite Hroot.
  pose proof (sections_walk doc pairs c (hev_config_reset c) Hc Hnd (reset_fresh c _)) as Hw.
  cbv zeta in Hw. fold es in Hw. destruct (forallb _ es).
  - rewrite Hw. cbn [Z.ltb Z.compare]. fold read. rewrite check_sizes_sized.
    + by destruct (sized (misc read)).
    + unfold read, read_config. cbn [misc]. unfold read_section. repeat case_match; try done.
      cbn. unfold number. destruct (get _ _); cbn; [apply strtoul_int|done].
  - destruct (for_pairs _ _ _ _) as [res c']. cbn in Hw. subst res. by eexists.
Qed.
End Document.

(** ** Loading *)

(** What the arrays of a UDP session take on the stack while it receives [n] datagrams
    (hev_socks5_session_udp_fwd_b and, below it, hev_socks5_udp_recvmmsg_udp): for each
    a buffer, a HevSocks5UDPMsg, a struct mmsghdr and a struct iovec, with their sizes
    where pointers have 64 bits. *)
Definition udp_arrays (n : Z) : Z := n * (UDP_BUF_SIZE + 24 + 64 + 16).

(** The sizes that the engine allocates by: the buffer of a TCP session fits into the
    one of its connection; a task's stack is larger, by TASK_STACK_SIZE, than the buffer
    of a TCP session and than those of a UDP session; and it holds the arrays of a UDP
    session of up to 196 datagrams. The sizes may be negative. *)
Record sizes_ok (m : misc_vars) : Prop := {
  sz_tcp : tcp_buffer_size m <= TCP_SND_BUF;
  sz_udp : int32 (UDP_BUF_SIZE * udp_copy_buffer_nums m);
  sz_stack_tcp : tcp_buffer_size m + TASK_STACK_SIZE <= task_stack_size m;
  sz_stack_udp : UDP_BUF_SIZE * udp_copy_buffer_nums m + TASK_STACK_SIZE <= task_stack_size m;
  sz_arrays : udp_copy_buffer_nums m <= 196 → udp_arrays (udp_copy_buffer_nums m) <= task_stack_size m
}.

(** The server as the sessions read it: terminated strings in their bounds, and
    credentials that are complete or absent. *)
Record server_ok (s : HevConfigServer) : Prop := {
  sv_addr : zlen (Session.addr s) < 256;
  sv_udp : zlen (Session.udp_addr s) < 256;
  sv_port : 0 <= Session.port s < 65536;
  sv_login : match Session.user s, Session.pass s with
             | Some u, Some p => zlen u < 256 ∧ zlen p < 256 | None, None => True | _, _ => False end
}.

Lemma server_read c : srv_ok (srv c) → ∃ s, hev_config_get_socks5_server c = Some s ∧ server_ok s.
Proof.
  intros [[Hu Hp] [Ha Hd] Hb _ Ho]. unfold hev_config_get_socks5_server.
  assert (∀ a, char_array 256 a → ∃ s, cstr a = Some s ∧ zlen s < 256) as R.
  { intros a Hc. destruct (char_array_str _ _ Hc) as [s Hs]. exists s. split; [done|].
    apply cstr_zlen in Hs. destruct Hc. lia. }
  destruct (R _ Hu) as (u & -> & Hlu), (R _ Hp) as (w & -> & Hlp), (R _ Ha) as (a & -> & Hla), (R _ Hd) as (d & -> & Hld).
  rewrite Hb. destruct (srv_pass (srv c)); cbn; eexists; (split; [reflexivity|]); by constructor.
Qed.

Section Load.
Context `{Resolver, Loader}.

Lemma sized_ok m m' : misc_ok m → sized m = Some m' → misc_ok m' ∧ sizes_ok m'.
Proof.
  intros [Hf Hi Hl]. unfold sized. case_bool_decide as Hn; [|done]. intros [= <-].
  rewrite !Forall_cons in Hi. unfold int32, UDP_BUF_SIZE, TASK_STACK_SIZE, TCP_SND_BUF in *.
  split; constructor; cbn -[Z.mul Z.add Z.max Z.min]; try done; unfold udp_arrays, int32, UDP_BUF_SIZE, TASK_STACK_SIZE, TCP_SND_BUF; try lia.
  rewrite !Forall_cons. unfold int32. intuition lia.
Qed.

(** What the sections of a document set, when all of them are acceptable. *)
Definition sections_of (doc : yaml_document) (c : config) : option config :=
  match yaml_document_get_root_node doc with
  | Some (Mapping pairs) =>
      let '(res, c) := for_pairs doc (section_pair doc) pairs (0, c) in if res <? 0 then None else Some c
  | _ => None
  end.

(** The numbers of datagrams for which the computation of the sizes overflows an int. *)
Definition too_many (n : Z) : Prop := ¬ (-1431655 <= n <= 1431642).
Definition doc_overflows (doc : yaml_document) (c : config) : Prop :=
  ∃ c', sections_of doc c = Some c' ∧ too_many (udp_copy_buffer_nums (misc c')).

Lemma parse_doc_ok doc c :
  config_ok c →
  match hev_config_parse_doc doc c with
  | Some (res, c') => config_ok c' ∧ (res = -1 ∨ res = 0 ∧ sizes_ok (misc c')) ∧ ¬ doc_overflows doc c
  | None => doc_overflows doc c
  end.
Proof.
  intros Hc. unfold hev_config_parse_doc, doc_overflows, sections_of.
  destruct (yaml_document_get_root_node doc) as [[| |pairs]|]; try (split_and!; [done|by left|by intros (? & ? & _)]).
  pose proof (sections_ok doc pairs c Hc) as Hs. destruct (for_pairs _ _ _ _) as [r d]. cbn in Hs.
  destruct (r <? 0); [split_and!; [done|by left|by intros (? & ? & _)]|]. destruct Hs as [H1 H2 H3 H4].
  rewrite check_sizes_sized by (destruct H4 as [_ Hi _]; rewrite !Forall_cons in Hi; unfold int32 in Hi; lia).
  destruct (sized (misc d)) as [m|] eqn:E; cbn.
  - destruct (sized_ok _ _ H4 E). split_and!; [by constructor|by right|]. intros (c' & [= <-] & Hm).
    unfold sized in E. case_bool_decide; [|done]. by destruct Hm.
  - exists d. split; [done|]. unfold sized in E. by case_bool_decide.
Qed.

Lemma reset_ok c : credentials_ok (srv c) → config_ok (hev_config_reset c).
Proof.
  intros Hc. constructor; cbn.
  - split; [split_and!; by apply zeros_array|done].
  - by constructor.
  - unfold mapdns_ok, int32. rewrite !Forall_cons. cbn. by auto with lia.
  - constructor; cbn; [split; by apply zeros_array| |by unfold HEV_LOGGER_DEBUG, HEV_LOGGER_ERROR, HEV_LOGGER_WARN].
    unfold int32. rewrite !Forall_cons. by auto 20 with lia.
Qed.

(** After loading: the settings are well formed, nothing of the library is in use that
    was not before, and success means that the sizes are right. *)
Record loaded (l l' : loading) (res : Z) : Prop := {
  ld_config : config_ok (settings l');
  ld_server : ∃ s, hev_config_get_socks5_server (settings l') = Some s ∧ server_ok s;
  ld_handles : parsers l' = parsers l ∧ documents l' = documents l ∧ files l' = files l;
  ld_result : res = -1 ∨ res = 0 ∧ sizes_ok (misc (settings l'))
}.

(** The one way in which the code has no defined behaviour, from settings [c]. *)
Definition overflows (text : bytes) (c : config) : Prop :=
  ∃ doc, yaml_parser_load text = Some doc ∧ doc_overflows doc (hev_config_reset c).

Lemma load_text_ok t l :
  config_ok (settings l) →
  match load_text t l with
  | Val res l' => config_ok (settings l') ∧ parsers l' = parsers l ∧ documents l' = documents l ∧ files l' = files l ∧
      (res = -1 ∨ res = 0 ∧ sizes_ok (misc (settings l'))) ∧ (∀ doc, yaml_parser_load t = Some doc → ¬ doc_overflows doc (settings l))
  | Blocked _ => False
  | Stuck => ∃ doc, yaml_parser_load t = Some doc ∧ doc_overflows doc (settings l)
  end.
Proof.
  intros Hc. unfold load_text. destruct (yaml_parser_load t) as [doc|] eqn:E; [|cbn; split_and!; by auto].
  cbn. pose proof (parse_doc_ok doc _ Hc) as Hd.
  destruct (hev_config_parse_doc doc (settings l)) as [[res c']|] eqn:Ep; cbn; [|by exists doc].
  destruct Hd as (? & ? & ?). split_and!; try done; try lia. by intros ? [= <-].
Qed.

Lemma loaded_intro l res l' :
  config_ok (settings l') → parsers l' = parsers l → documents l' = documents l → files l' = files l →
  (res = -1 ∨ res = 0 ∧ sizes_ok (misc (settings l'))) → loaded l l' res.
Proof. intros. constructor; try done. by apply server_read, co_srv. Qed.

Lemma add_files_0 l : add_files 0 l = l.
Proof. destruct l. unfold add_files. cbn. by rewrite Z.add_0_r. Qed.

(** Where the settings come from: a file, or the first [n] bytes of a text. *)
Inductive input := FromFile (path : bytes) | FromStr (text : bytes) (n : Z).

Definition init_from (i : input) : M loading Z :=
  match i with FromFile path => hev_config_init_from_file path | FromStr text n => hev_config_init_from_str text n end.
Definition text_of (i : input) : option bytes :=
  match i with FromFile path => fopen path | FromStr text n => Some (take (Z.to_nat n) text) end.

(** The parser is reached, and what it reads overflows. *)
Definition init_overflows (i : input) (l : loading) : Prop :=
  parser_ready l = true ∧ ∃ t, text_of i = Some t ∧ overflows t (settings l).

(** C40: loading from any file or text, whether or not the library works: the settings
    are well formed afterwards (integers in their ranges, arrays of their lengths that
    hold terminated strings, credentials complete or absent), the parser, the document
    and the file are released, the result is -1 or 0, and 0 means that the buffer of a
    TCP session fits into a connection's and that a task's stack is larger by
    TASK_STACK_SIZE than the buffer and than the datagrams of a session, so that it also
    holds the other arrays of a UDP session of up to 196 datagrams. There is one
    exception, and it occurs exactly when the sections are acceptable and the configured
    udp-copy-buffer-nums is below -1431655 or above 1431642: then an int overflows. *)
Theorem parsed_config_ok l i :
  credentials_ok (srv (settings l)) → (match i with FromFile _ => True | FromStr text n => n <= zlen text end) →
  match init_from i l with
  | Val res l' => loaded l l' res ∧ ¬ init_overflows i l
  | Blocked _ => False
  | Stuck => init_overflows i l
  end.
Proof.
  intros Hc Hinit. pose proof (reset_ok _ Hc) as Hr. unfold init_overflows, overflows.
  assert (∀ t d, match load_text t (add_files d (add_parsers 1 (set_settings (hev_config_reset (settings l)) l))) with
    | Val res l' => loaded l (add_parsers (-1) (add_files (- d) l')) res ∧ ¬ overflows t (settings l)
    | Blocked _ => False | Stuck => overflows t (settings l) end) as Ht.
  { intros t d. set (l1 := add_files _ _). pose proof (load_text_ok t l1 Hr) as H'.
    destruct (load_text t l1) as [res l'| |]; [|done|exact H'].
    destruct H' as (? & Hp & Hd & Hf & ? & Ho). split; [apply loaded_intro; try done; cbn in *; lia|].
    intros (doc & E & Hov). by apply (Ho doc). }
  destruct l as [c ready ps ds fs]. unfold overflows in Ht. destruct i as [path|text n]; cbn [init_from text_of].
  - unfold hev_config_init_from_file. destruct ready; cbn; [|by split; [apply loaded_intro; auto|intros [? _]]].
    destruct (fopen path) as [text|]; cbn; [|split; [apply loaded_intro; cbn; auto; lia|by intros (_ & ? & ? & _)]].
    specialize (Ht text 1). cbn in Ht. unfold mbind, M_bind, modify at 1. destruct (load_text _ _); [|done|by eauto].
    destruct Ht as [? Ht]. split; [done|]. intros (_ & t & [= <-] & ?). by apply Ht.
  - unfold hev_config_init_from_str. destruct ready; cbn; [|by split; [apply loaded_intro; auto|intros [? _]]].
    destruct (Z.leb_spec n (zlen text)); [|lia].
    specialize (Ht (take (Z.to_nat n) text) 0). rewrite add_files_0 in Ht. cbn in Ht. unfold mbind, M_bind.
    destruct (load_text _ _) as [res l'| |]; [|done|by eauto]. rewrite add_files_0 in Ht.
    destruct Ht as [? Ht]. split; [done|]. intros (_ & t & [= <-] & ?). by apply Ht.
Qed.
End Load.

(** The file that the application writes (makeHevConf in Utility.kt), as the library
    loads it. *)
Definition app_document : yaml_document := [
  Mapping [(2, 3); (10, 11); (22, 23)];
  Scalar (lit "tunnel"); Mapping [(4, 5); (6, 7); (8, 9)];
  Scalar (lit "name"); Scalar (lit "tun0"); Scalar (lit "mtu"); Scalar (lit "1500");
  Scalar (lit "ipv4"); Scalar (lit "10.10.10.2");
  Scalar (lit "socks5"); Mapping [(12, 13); (14, 15); (16, 17); (18, 19); (20, 21)];
  Scalar (lit "port"); Scalar (lit "1080"); Scalar (lit "address"); Scalar (lit "127.0.0.1");
  Scalar (lit "udp"); Scalar (lit "udp"); Scalar (lit "username"); Scalar (lit "me");
  Scalar (lit "password"); Scalar (lit "secret");
  Scalar (lit "misc"); Mapping [(24, 25); (26, 27); (28, 29); (30, 31)];
  Scalar (lit "log-level"); Scalar (lit "info"); Scalar (lit "log-file"); Scalar (lit "/data/hev.log");
  Scalar (lit "connect-timeout"); Scalar (lit "10000"); Scalar (lit "udp-read-write-timeout"); Scalar (lit "60000")
].

Definition no_names : Resolver := {| inet_pton _ _ := None; getaddrinfo _ _ := None |}.
Definition app_files : Loader :=
  {| fopen path := if bool_decide (path = lit "hev.yml") then Some [] else None;
     yaml_parser_load _ := Some app_document |}.

Lemma start_credentials : credentials_ok (srv config_start).
Proof. split; by apply zeros_array. Qed.

Lemma app_sections : NoDup (entries app_document [(2, 3); (10, 11); (22, 23)]).*1.
Proof. apply (bool_decide_eq_true_1 (NoDup _)). vm_compute. reflexivity. Qed.

Lemma config_reads_witness :
  ∃ c, hev_config_parse_doc (H := no_names) app_document (hev_config_reset config_start) = Some (0, c) ∧
    hev_config_get_socks5_server c =
      Some (ConfigServer (Some (lit "me")) (Some (lit "secret")) 0 true 1080 false false [] (lit "127.0.0.1")) ∧
    hev_config_get_tunnel_mtu c = 1500 ∧ hev_config_get_tunnel_name c = Some (lit "tun0") ∧
    hev_config_get_misc_log_level c = HEV_LOGGER_INFO ∧ hev_config_get_misc_tcp_buffer_size c = TCP_SND_BUF.
Proof.
  pose proof (config_reads (H := no_names) app_document [(2, 3); (10, 11); (22, 23)] config_start eq_refl
    app_sections start_credentials) as E.
  eexists. split; [exact E|]. vm_compute. repeat split.
Defined.

Lemma parsed_config_ok_witness :
  ∃ l, hev_config_init_from_file (H := no_names) (H0 := app_files) (lit "hev.yml") (Loading config_start true 0 0 0) = Val 0 l ∧
    loaded (Loading config_start true 0 0 0) l 0.
Proof.
  pose proof (parsed_config_ok (H := no_names) (H0 := app_files) (Loading config_start true 0 0 0)
    (FromFile (lit "hev.yml")) start_credentials I) as E.
  eexists. split; [vm_compute; reflexivity|exact (proj1 E)].
Defined.
