(* ===== verification/Flows.v ===== *)
(** * Flows: new connections of the tunnel, src/hev-socks5-tunnel.c

    The local stack calls the tunnel for every new connection, and for the first
    datagram of every socket of an application; the tunnel makes a session and a task
    for it, or answers a DNS request on the spot. When its task ends the session is
    taken from the list and destroyed. Here is who owns what: control blocks of lwIP,
    sessions, tasks and packet buffers have addresses, using one that was released is
    [Stuck], and the calls of lwIP around the handlers are part of the model
    ([tcp_established], [udp_input]). What a session does in between is [SessionTCP]'s
    and [SessionUDP]'s. *)
From S2P Require Import Prelude Bytes HevList MappedDNS LwipAddr Config SessionSet.

(** ** State *)

(** The receive callback of a control block for datagrams. *)
Inductive urecv := RecvNone | RecvDns | RecvSession (self : Z).

Record udp_pcb := UdpPcb { u_remote : bytes * Z; u_local : ip_addr * Z; u_recv : urecv }.

(** A session: its control block, its kind, its task, the references to it, and the
    packet buffers that it holds. *)
Record flow_session := FlowSession {
  f_pcb : Z; f_udp : bool; f_task : Z; f_refs : Z; f_frames : list Z
}.

(** [tcp_pcbs]: the connections, with the session their callbacks belong to, or 0;
    [udp_pcbs]: those of lwIP's list that are connected; [tasks]: the session that a
    task runs, or 0; [dns_replies]: what was sent, with its source and destination;
    [allocs] and [task_allocs]: whether the next ones succeed; [undef]: what a fresh
    buffer holds; [timer]: whether the timer's task was woken; [locked]: lwIP's mutex. *)
Record tun := Tun {
  run : bool; tcp_pcbs : gmap Z Z; udp_pcbs : list (Z * udp_pcb); objects : gmap Z flow_session;
  tasks : gmap Z Z; sset : sessions; mdns : option dns; pbufs : gmap Z bytes;
  dns_replies : list (ip_addr * Z * (bytes * Z) * bytes);
  allocs : list bool; task_allocs : list bool; next_id : Z; undef : bytes; timer : bool;
  locked : bool
}.

Definition set_run v s := Tun v (tcp_pcbs s) (udp_pcbs s) (objects s) (tasks s) (sset s) (mdns s) (pbufs s) (dns_replies s) (allocs s) (task_allocs s) (next_id s) (undef s) (timer s) (locked s).
Definition set_tcp_pcbs v s := Tun (run s) v (udp_pcbs s) (objects s) (tasks s) (sset s) (mdns s) (pbufs s) (dns_replies s) (allocs s) (task_allocs s) (next_id s) (undef s) (timer s) (locked s).
Definition set_udp_pcbs v s := Tun (run s) (tcp_pcbs s) v (objects s) (tasks s) (sset s) (mdns s) (pbufs s) (dns_replies s) (allocs s) (task_allocs s) (next_id s) (undef s) (timer s) (locked s).
Definition set_objects v s := Tun (run s) (tcp_pcbs s) (udp_pcbs s) v (tasks s) (sset s) (mdns s) (pbufs s) (dns_replies s) (allocs s) (task_allocs s) (next_id s) (undef s) (timer s) (locked s).
Definition set_tasks v s := Tun (run s) (tcp_pcbs s) (udp_pcbs s) (objects s) v (sset s) (mdns s) (pbufs s) (dns_replies s) (allocs s) (task_allocs s) (next_id s) (undef s) (timer s) (locked s).
Definition set_sset v s := Tun (run s) (tcp_pcbs s) (udp_pcbs s) (objects s) (tasks s) v (mdns s) (pbufs s) (dns_replies s) (allocs s) (task_allocs s) (next_id s) (undef s) (timer s) (locked s).
Definition set_mdns v s := Tun (run s) (tcp_pcbs s) (udp_pcbs s) (objects s) (tasks s) (sset s) v (pbufs s) (dns_replies s) (allocs s) (task_allocs s) (next_id s) (undef s) (timer s) (locked s).
Definition set_pbufs v s := Tun (run s) (tcp_pcbs s) (udp_pcbs s) (objects s) (tasks s) (sset s) (mdns s) v (dns_replies s) (allocs s) (task_allocs s) (next_id s) (undef s) (timer s) (locked s).
Definition set_dns_replies v s := Tun (run s) (tcp_pcbs s) (udp_pcbs s) (objects s) (tasks s) (sset s) (mdns s) (pbufs s) v (allocs s) (task_allocs s) (next_id s) (undef s) (timer s) (locked s).
Definition set_allocs v w s := Tun (run s) (tcp_pcbs s) (udp_pcbs s) (objects s) (tasks s) (sset s) (mdns s) (pbufs s) (dns_replies s) v w (next_id s) (undef s) (timer s) (locked s).
Definition set_next_id v s := Tun (run s) (tcp_pcbs s) (udp_pcbs s) (objects s) (tasks s) (sset s) (mdns s) (pbufs s) (dns_replies s) (allocs s) (task_allocs s) v (undef s) (timer s) (locked s).
Definition set_timer v s := Tun (run s) (tcp_pcbs s) (udp_pcbs s) (objects s) (tasks s) (sset s) (mdns s) (pbufs s) (dns_replies s) (allocs s) (task_allocs s) (next_id s) (undef s) v (locked s).
Definition set_locked v s := Tun (run s) (tcp_pcbs s) (udp_pcbs s) (objects s) (tasks s) (sset s) (mdns s) (pbufs s) (dns_replies s) (allocs s) (task_allocs s) (next_id s) (undef s) (timer s) v.

(** ** Resources *)

Definition alloc : M tun bool := λ s,
  match allocs s with [] => Val true s | ok :: l => Val ok (set_allocs l (task_allocs s) s) end.
Definition task_alloc : M tun bool := λ s,
  match task_allocs s with [] => Val true s | ok :: l => Val ok (set_allocs (allocs s) l s) end.
Definition new_id : M tun Z := λ s, Val (next_id s) (set_next_id (next_id s + 1) s).

Definition on_sessions {A} (m : M sessions A) : M tun A := zoom sset set_sset m.

Definition get_session (self : Z) : M tun flow_session := m ← gets objects; of_option (m !! self).
Definition put_session (self : Z) (o : flow_session) : M tun unit :=
  modify (λ s, set_objects (<[self := o]> (objects s)) s).

(** A task that finds the mutex taken waits until it is free. One task runs at a time
    and none of them yields while it has the mutex, so the one that has it is the one
    that waits: it waits forever. *)
Definition wait_forever : M tun unit := λ s, Blocked s.
Definition hev_task_mutex_lock : M tun unit :=
  taken ← gets locked; if (taken : bool) then wait_forever else modify (set_locked true).
Definition hev_task_mutex_unlock : M tun unit := modify (set_locked false).

(** A packet buffer; 0 when there is no memory. *)
Definition pbuf_alloc (bs : bytes) : M tun Z :=
  ok ← alloc;
  if negb ok then mret 0 else
  p ← new_id; modify (λ s, set_pbufs (<[p := bs]> (pbufs s)) s);; mret p.
Definition pbuf_payload (p : Z) : M tun bytes := m ← gets pbufs; of_option (m !! p).
Definition pbuf_free (p : Z) : M tun unit :=
  m ← gets pbufs; _ ← of_option (m !! p); modify (set_pbufs (delete p m)).

Definition udp_find (pcb : Z) (l : list (Z * udp_pcb)) : option udp_pcb :=
  snd <$> List.find (λ e, e.1 =? pcb) l.
Definition udp_recv (pcb : Z) (r : urecv) : M tun unit :=
  l ← gets udp_pcbs;
  _ ← of_option (udp_find pcb l);
  modify (set_udp_pcbs ((λ e : Z * udp_pcb, if e.1 =? pcb then (e.1, UdpPcb (u_remote e.2) (u_local e.2) r) else e) <$> l)).
Definition udp_remove (pcb : Z) : M tun unit :=
  l ← gets udp_pcbs;
  _ ← of_option (udp_find pcb l);
  modify (set_udp_pcbs (filter (λ e, e.1 ≠ pcb) l)).

(** ** Sessions *)

Definition hev_socks5_session_terminate (self : Z) : M tun unit := on_sessions (hev_socks5_session_terminate self).

Definition tcp_err_handler (self : Z) : M tun unit :=
  o ← get_session self;
  put_session self (FlowSession 0 (f_udp o) (f_task o) (f_refs o) (f_frames o));;
  hev_socks5_session_terminate self.

(** [tcp_arg] and the callbacks of a connection. *)
Definition tcp_arg (pcb self : Z) : M tun unit :=
  m ← gets tcp_pcbs; _ ← of_option (m !! pcb); modify (set_tcp_pcbs (<[pcb := self]> m)).

(** The connection is reset and released; a session that it still knows is told. *)
Definition tcp_abort (pcb : Z) : M tun unit :=
  m ← gets tcp_pcbs;
  self ← of_option (m !! pcb);
  modify (set_tcp_pcbs (delete pcb m));;
  when (truthy self) (tcp_err_handler self).

(** An object with one reference, its node, and a timeout that is not set. *)
Definition new_session (pcb : Z) (udp : bool) : M tun Z :=
  self ← new_id;
  put_session self (FlowSession pcb udp 0 1 []);;
  on_sessions (modify (λ t,
    Sessions (ListMem (head (session_set t)) (tail (session_set t)) (<[self := LNode 0 0]> (lnodes (session_set t))))
      (session_count t) (<[self := -1]> (timeouts t)) (wakeups t)));;
  mret self.

Definition free_session (self : Z) : M tun unit :=
  modify (λ s, set_objects (delete self (objects s)) s);;
  on_sessions (modify (λ t,
    Sessions (ListMem (head (session_set t)) (tail (session_set t)) (delete self (lnodes (session_set t))))
      (session_count t) (delete self (timeouts t)) (wakeups t))).

(** Memory may run out for the object, and for the address of the request. *)
Definition hev_socks5_session_tcp_new (pcb : Z) : M tun Z :=
  ok ← alloc;
  if negb ok then mret 0 else
  ok ← alloc;
  if negb ok then mret 0 else
  self ← new_session pcb false;
  tcp_arg pcb self;;
  mret self.

Definition hev_socks5_session_udp_new (pcb : Z) : M tun Z :=
  ok ← alloc;
  if negb ok then mret 0 else
  self ← new_session pcb true;
  udp_recv pcb (RecvSession self);;
  mret self.

Fixpoint free_pbufs (l : list Z) : M tun unit :=
  match l with [] => mret tt | p :: l => pbuf_free p;; free_pbufs l end.

Definition hev_socks5_session_tcp_destruct (self : Z) : M tun unit :=
  o ← get_session self;
  hev_task_mutex_lock;;
  when (truthy (f_pcb o)) (tcp_arg (f_pcb o) 0;; tcp_abort (f_pcb o));;
  free_pbufs (f_frames o);;
  hev_task_mutex_unlock.

Definition hev_socks5_session_udp_destruct (self : Z) : M tun unit :=
  o ← get_session self;
  free_pbufs (f_frames o);;
  hev_task_mutex_lock;;
  when (truthy (f_pcb o)) (udp_recv (f_pcb o) RecvNone;; udp_remove (f_pcb o));;
  hev_task_mutex_unlock.

Definition session_destruct (self : Z) : M tun unit :=
  o ← get_session self;
  if f_udp o then hev_socks5_session_udp_destruct self else hev_socks5_session_tcp_destruct self.

Definition hev_object_unref (self : Z) : M tun unit :=
  o ← get_session self;
  let refs := f_refs o - 1 in
  put_session self (FlowSession (f_pcb o) (f_udp o) (f_task o) refs (f_frames o));;
  if truthy refs then mret tt else session_destruct self;; free_session self.

(** ** Tasks *)

Definition hev_task_new : M tun Z :=
  ok ← task_alloc;
  if negb ok then mret 0 else
  t ← new_id; modify (λ s, set_tasks (<[t := 0]> (tasks s)) s);; mret t.
Definition hev_task_run (task self : Z) : M tun unit :=
  m ← gets tasks; _ ← of_option (m !! task); modify (set_tasks (<[task := self]> m)).
Definition hev_socks5_session_set_task (self task : Z) : M tun unit :=
  o ← get_session self; put_session self (FlowSession (f_pcb o) (f_udp o) task (f_refs o) (f_frames o)).

(** What remains of a task when its session's run is over; then it is released. *)
Definition session_task_end (self : Z) : M tun unit :=
  o ← get_session self;
  on_sessions (hev_socks5_tunnel_delete_session self);;
  hev_object_unref self;;
  modify (λ s, set_tasks (delete (f_task o) (tasks s)) s).

(** ** The handlers *)

Definition ERR_OK : Z := 0.
Definition ERR_MEM : Z := -1.
Definition ERR_ABRT : Z := -13.
Definition ERR_RST : Z := -14.

Section Handlers.
Context (cfg : config).

Definition hev_socks5_tunnel_insert_session (node : Z) : M tun unit :=
  on_sessions (hev_socks5_tunnel_insert_session (hev_config_get_misc_max_session_count cfg) node).

(** What both handlers do with a new session and its task. *)
Definition start_session (self task : Z) : M tun unit :=
  hev_socks5_session_set_task self task;;
  hev_socks5_tunnel_insert_session self;;
  hev_task_run task self;;
  modify (set_timer true).

Definition tcp_accept_handler (pcb err : Z) : M tun Z :=
  if negb (err =? ERR_OK) then mret err else
  r ← gets run;
  if negb r then mret ERR_RST else
  tcp ← hev_socks5_session_tcp_new pcb;
  if negb (truthy tcp) then mret ERR_MEM else
  task ← hev_task_new;
  if negb (truthy task) then hev_object_unref tcp;; mret ERR_MEM else
  start_session tcp task;;
  mret ERR_OK.

(** [hev_mapped_dns_handle] on the first buffer of the datagram and a fresh one. *)
Definition dns_handle (q b : Z) : M tun Z := λ s,
  match mdns s, pbufs s !! q, pbufs s !! b with
  | Some d, Some req, Some buf =>
      match hev_mapped_dns_handle (zlen req) (zlen buf) (Exchange d req buf) with
      | Val r e => Val r (set_mdns (Some (server e)) (set_pbufs (<[q := rb e]> (<[b := sb e]> (pbufs s))) s))
      | Blocked _ => Blocked s
      | Stuck => Stuck
      end
  | _, _, _ => Stuck
  end.

(** The reply goes to the peer, from the address that was asked. *)
Definition udp_sendfrom (pcb b res : Z) : M tun unit :=
  bs ← pbuf_payload b;
  l ← gets udp_pcbs;
  u ← of_option (udp_find pcb l);
  modify (λ s, set_dns_replies (dns_replies s ++ [(u_local u, u_remote u, take (Z.to_nat res) bs)]) s).

Definition dns_recv_handler (pcb p : Z) : M tun unit :=
  u ← gets undef;
  b ← pbuf_alloc u;
  (if negb (truthy b) then mret tt else
     res ← dns_handle p b;
     when (negb (res <? 0)) (udp_sendfrom pcb b res);;
     pbuf_free b);;
  pbuf_free p;;
  udp_recv pcb RecvNone;;
  udp_remove pcb.

(** Whether a datagram is for the DNS server. *)
Definition to_mapdns (addr : ip_addr) (port : Z) : bool :=
  match ip_type addr with
  | IPADDR_TYPE_V4 =>
      (hev_config_get_mapdns_port cfg =? port) &&
      (hev_config_get_mapdns_address cfg =? int_of_bytes (take 4 (u_addr addr)))
  | _ => false
  end.

(** The callback of the listening control block. *)
Definition udp_recv_handler (pcb : Z) (addr : ip_addr) (port : Z) : M tun unit :=
  r ← gets run;
  if negb r then udp_remove pcb else
  dns ← gets mdns;
  if bool_decide (is_Some dns) && to_mapdns addr port then udp_recv pcb RecvDns else
  udp ← hev_socks5_session_udp_new pcb;
  if negb (truthy udp) then udp_remove pcb else
  task ← hev_task_new;
  if negb (truthy task) then hev_object_unref udp else
  start_session udp task.

(** ** The calls of lwIP *)

(** A connection is established (tcp_process of tcp_in.c): one that is not accepted
    is aborted, unless the handler did so. *)
Definition tcp_established (pcb : Z) : M tun unit :=
  modify (λ s, set_tcp_pcbs (<[pcb := 0]> (tcp_pcbs s)) s);;
  err ← tcp_accept_handler pcb ERR_OK;
  when (negb (err =? ERR_OK) && negb (err =? ERR_ABRT)) (tcp_abort pcb).

(** A connection was reset by its peer, or timed out: lwIP releases it and tells the
    session. *)
Definition tcp_reset (pcb : Z) : M tun unit := tcp_abort pcb.

(** The most datagrams that a session keeps. *)
Definition UDP_POOL_SIZE : Z := 512.

(** The session's callback keeps the buffer, or drops it when there are too many or no
    memory is left for the frame ([SessionUDP]). *)
Definition session_recv_handler (self p : Z) : M tun unit :=
  o ← get_session self;
  if UDP_POOL_SIZE <? zlen (f_frames o) then pbuf_free p else
  ok ← alloc;
  if negb ok then pbuf_free p else
  put_session self (FlowSession (f_pcb o) (f_udp o) (f_task o) (f_refs o) (f_frames o ++ [p])).

Definition udp_deliver (pcb p : Z) (u : udp_pcb) : M tun unit :=
  match u_recv u with
  | RecvNone => pbuf_free p
  | RecvDns => dns_recv_handler pcb p
  | RecvSession self => session_recv_handler self p
  end.

(** A session has sent the first datagram that waits. *)
Definition session_forward (self : Z) : M tun unit :=
  o ← get_session self;
  match f_frames o with
  | [] => mret tt
  | p :: ps => put_session self (FlowSession (f_pcb o) (f_udp o) (f_task o) (f_refs o) ps);; pbuf_free p
  end.

Definition udp_match (src : bytes * Z) (l : list (Z * udp_pcb)) : option (Z * udp_pcb) :=
  List.find (λ e, bool_decide (u_remote e.2 = src)) l.

(** The addresses of the tunnel's interface, as [gateway_init] sets them: 127.0.0.1 and
    ::1. *)
Definition for_us (dst : ip_addr) : bool :=
  match ip_type dst with
  | IPADDR_TYPE_V4 => bool_decide (take 4 (u_addr dst) = [127; 0; 0; 1])
  | IPADDR_TYPE_V6 => bool_decide (u_addr dst = replicate 15 0 ++ [1])
  | IPADDR_TYPE_ANY => false
  end.

(** [udp_input] of udp.c on a datagram in the buffer [p], from the search for its
    control block on: a connected one that has the peer gets it; without one, a datagram
    for the interface itself is dropped (its sender is told by ICMP), and for any other
    a new one is offered to the listener, and the search starts again. (The listener has
    no peer; it is not among them, so nothing comes from the port 0 of the address 0.
    Checksums are not checked, by lwipopts.h.) *)
Fixpoint udp_input (fuel : nat) (src : bytes * Z) (dst : ip_addr * Z) (p : Z) : M tun unit :=
  match fuel with
  | Datatypes.O => stuck
  | S fuel =>
      l ← gets udp_pcbs;
      match udp_match src l with
      | Some (pcb, u) =>
          let u := UdpPcb (u_remote u) dst (u_recv u) in
          modify (set_udp_pcbs ((λ e : Z * udp_pcb, if e.1 =? pcb then (e.1, u) else e) <$> l));;
          udp_deliver pcb p u
      | None =>
          if for_us dst.1 then pbuf_free p else
          ok ← alloc;
          if negb ok then pbuf_free p else
          pcb ← new_id;
          modify (set_udp_pcbs ((pcb, UdpPcb src (IpAddr (replicate 16 0) IPADDR_TYPE_ANY, 0) RecvNone) :: l));;
          udp_recv_handler pcb dst.1 dst.2;;
          udp_input fuel src dst p
      end
  end.

(** A datagram arrives in a new buffer. *)
Definition datagram (fuel : nat) (src : bytes * Z) (dst : ip_addr * Z) (bs : bytes) : M tun unit :=
  p ← new_id;
  modify (λ s, set_pbufs (<[p := bs]> (pbufs s)) s);;
  udp_input fuel src dst p.

(** ** Stopping: the event task after its read *)

Fixpoint terminate_from (fuel : nat) (node : Z) : M tun unit :=
  if negb (truthy node) then mret tt else
  match fuel with
  | Datatypes.O => stuck
  | S fuel =>
      hev_socks5_session_terminate node;;
      node ← on_sessions (on_set (hev_list_node_next node));
      terminate_from fuel node
  end.

Definition event_task_stop : M tun unit :=
  modify (set_run false);;
  node ← on_sessions (on_set hev_list_first);
  fuel ← gets (λ s, size (lnodes (session_set (sset s))));
  terminate_from fuel node.
End Handlers.

(** ** Everything that happens to the tunnel

    One event runs to its end before the next one starts: those of lwIP have its mutex
    ([lwip_io_task_entry], [lwip_timer_task_entry]), and tasks only yield without it. *)
Inductive flow_event :=
  | TcpEstablished (pcb : Z)
  | TcpReset (pcb : Z)
  | Datagram (src : bytes * Z) (dst : ip_addr * Z) (bs : bytes)
  | Forward (self : Z)
  | SessionEnd (self : Z)
  | Stop.

Definition lwip (m : M tun unit) : M tun unit := hev_task_mutex_lock;; m;; hev_task_mutex_unlock.

(** Every attempt for a datagram but the last two uses up one of the failures to come. *)
Definition attempts (s : tun) : nat := length (allocs s) + 2.

Definition flow_event_run (cfg : config) (e : flow_event) : M tun unit :=
  match e with
  | TcpEstablished pcb => lwip (tcp_established cfg pcb)
  | TcpReset pcb => lwip (tcp_reset pcb)
  | Datagram src dst bs => fuel ← gets attempts; lwip (datagram cfg fuel src dst bs)
  | Forward self => session_forward self
  | SessionEnd self => session_task_end self
  | Stop => event_task_stop
  end.
