(* ===== verification/FlowsOwn.v ===== *)
(** * FlowsOwn: who owns what in the tunnel

    Sessions own connections, tasks, and packet buffers. [flows_ok extra s] is the
    invariant of [Flows] while the buffers [extra] are being handled; here are the
    lemmas on each kind of ownership, on the list of sessions, and on the operations
    that release a session or make one. *)
From S2P Require Import Prelude Bytes HevList MappedDNS LRU DNSCache DNSHandle LwipAddr Config SessionSet Flows.

(** ** The list of sessions *)

(** The sessions that exist are [D]; [l] are those on the list. *)
Record set_rep (t : sessions) (l : list Z) (D : gset Z) : Prop := {
  st_rep : sessions_rep t l;
  st_nodes : dom (lnodes (session_set t)) = D;
  st_timeouts : dom (SessionSet.timeouts t) = D
}.

Lemma set_rep_sub t l D x : set_rep t l D → x ∈ l → x ∈ D ∧ x ≠ 0.
Proof.
  intros [[_ _ _ Hk] Hn _] Hx. eapply Forall_forall in Hk as (H0 & H1 & _); [|done]. split; [by rewrite <- Hn|done].
Qed.

(** Changes outside of the list. *)
Lemma set_rep_frame t t' l D D' :
  set_rep t l D → HevList.head (session_set t') = HevList.head (session_set t) → tail (session_set t') = tail (session_set t) →
  session_count t' = session_count t → dom (lnodes (session_set t')) = D' → dom (SessionSet.timeouts t') = D' →
  (∀ x, x ∈ l → x ∈ D' ∧ lnodes (session_set t') !! x = lnodes (session_set t) !! x) →
  set_rep t' l D'.
Proof.
  intros [[Hr Hc Hs Hk] Hn Ht] Hh Htl Hc' Hn' Ht' Hf. split; [split|done|done].
  - eapply list_rep_frame; [exact Hh|exact Htl| |exact Hr]. intros x Hx. by apply Hf.
  - by rewrite Hc'.
  - done.
  - apply Forall_forall. intros x Hx. eapply Forall_forall in Hk as (H0 & _); [|done].
    destruct (Hf x Hx) as [HD _]. split_and!; [done|by rewrite Hn'|by rewrite Ht'].
Qed.

(** Operations on the list, as they run in the tunnel's state. *)
Definition only_set (s s' : tun) : Prop := ∃ t, s' = set_sset t s.

Lemma set_insert max t l D a :
  set_rep t l D → a ∈ D → a ≠ 0 → a ∉ l → zlen l < 2147483647 →
  ∃ t', SessionSet.hev_socks5_tunnel_insert_session max a t = Val tt t' ∧ set_rep t' (l ++ [a]) D.
Proof.
  intros [Hr Hn Ht] Ha H0 Hl Hz.
  destruct (insert_session_spec max t l a (l ++ [a]) (if (max =? 0) || (zlen l + 1 <? max) then None else hd_error (l ++ [a])))
    as (t' & He & Hr' & [Hn' Ht'] & _).
  - done.
  - split_and!; [done|by rewrite Hn|by rewrite Ht].
  - cbn. rewrite bool_decide_eq_false_2 by done. by destruct (Z.leb_spec 2147483647 (zlen l)); [lia|].
  - exists t'. split; [done|]. split; [done|by rewrite Hn'|by rewrite Ht'].
Qed.

Lemma set_delete t l D a :
  set_rep t l D → a ∈ l →
  ∃ t', SessionSet.hev_socks5_tunnel_delete_session a t = Val tt t' ∧ set_rep t' (remove a l) D.
Proof.
  intros [Hr Hn Ht] Ha.
  destruct (delete_session_spec 0 t l a (remove a l) None) as (t' & He & Hr' & [Hn' Ht'] & _); [done| |].
  - cbn. by rewrite bool_decide_eq_true_2.
  - exists t'. split; [done|]. split; [done|by rewrite Hn'|by rewrite Ht'].
Qed.

Lemma set_terminate t l D a :
  set_rep t l D → a ∈ D →
  ∃ t', SessionSet.hev_socks5_session_terminate a t = Val tt t' ∧ set_rep t' l D ∧ session_set t' = session_set t ∧
    SessionSet.timeouts t' = <[a := 0]> (SessionSet.timeouts t) ∧ wakeups t' = wakeups t ++ [a].
Proof.
  intros Hs Ha. pose proof Hs as [_ Hn Ht]. rewrite <- Ht in Ha.
  destruct (terminate_spec t a Ha) as (t' & He & H1 & H2 & H3 & H4). exists t'. split; [done|]. split; [|done].
  eapply set_rep_frame; [done|by rewrite H1..|done|by rewrite H1| |].
  - rewrite H3, dom_insert_L, Ht. rewrite Ht in Ha. set_solver.
  - intros x Hx. split; [by apply (set_rep_sub _ _ _ _ Hs)|by rewrite H1].
Qed.

Definition set_add (a : Z) (t : sessions) : sessions :=
  Sessions (ListMem (HevList.head (session_set t)) (tail (session_set t)) (<[a := LNode 0 0]> (lnodes (session_set t))))
    (session_count t) (<[a := -1]> (SessionSet.timeouts t)) (wakeups t).
Definition set_drop (a : Z) (t : sessions) : sessions :=
  Sessions (ListMem (HevList.head (session_set t)) (tail (session_set t)) (delete a (lnodes (session_set t))))
    (session_count t) (delete a (SessionSet.timeouts t)) (wakeups t).

Lemma set_add_rep t l D a : set_rep t l D → a ∉ D → set_rep (set_add a t) l ({[a]} ∪ D).
Proof.
  intros Hs Ha. pose proof Hs as [_ Hn Ht]. eapply set_rep_frame; [done..| | |]; cbn.
  - by rewrite dom_insert_L, Hn.
  - by rewrite dom_insert_L, Ht.
  - intros x Hx. destruct (set_rep_sub _ _ _ _ Hs Hx). split; [set_solver|]. apply lookup_insert_ne. by intros ->.
Qed.

Lemma set_drop_rep t l D a : set_rep t l D → a ∉ l → set_rep (set_drop a t) l (D ∖ {[a]}).
Proof.
  intros Hs Ha. pose proof Hs as [_ Hn Ht]. eapply set_rep_frame; [done..| | |]; cbn.
  - by rewrite dom_delete_L, Hn.
  - by rewrite dom_delete_L, Ht.
  - intros x Hx. destruct (set_rep_sub _ _ _ _ Hs Hx). split; [set_solver|]. apply lookup_delete_ne. by intros ->.
Qed.

(** What callers of a handler count on. *)
Definition mode (s : tun) : bool * bool := (run s, locked s).

(** ** Ownership *)

Abbreviation sessions_map := (gmap Z flow_session).

(** A connection belongs to the session that has it. *)
Definition tcp_owned (objs : sessions_map) (T : gmap Z Z) : Prop :=
  ∀ p x, T !! p = Some x ↔ p ≠ 0 ∧ ∃ o, objs !! x = Some o ∧ f_udp o = false ∧ f_pcb o = p.

Definition callbacks (l : list (Z * udp_pcb)) : list (Z * urecv) := (λ e, (e.1, u_recv e.2)) <$> l.

Definition udp_owned (objs : sessions_map) (L : list (Z * urecv)) : Prop :=
  NoDup L.*1 ∧
  ∀ p r, (p, r) ∈ L ↔ ∃ x o, r = RecvSession x ∧ objs !! x = Some o ∧ f_udp o = true ∧ f_pcb o = p.

Definition tasks_owned (objs : sessions_map) (K : gmap Z Z) : Prop :=
  ∀ t x, K !! t = Some x ↔ ∃ o, objs !! x = Some o ∧ f_task o = t.

Definition frames_of (objs : sessions_map) : list Z := mjoin ((λ e : Z * flow_session, f_frames e.2) <$> map_to_list objs).

(** The packet buffers wait in the sessions; [extra] are the ones being handled. *)
Definition frames_owned (objs : sessions_map) (extra : list Z) (B : gmap Z bytes) : Prop :=
  NoDup (extra ++ frames_of objs) ∧ ∀ p, p ∈ extra ++ frames_of objs ↔ p ∈ dom B.

Record ids_ok (n x : Z) (o : flow_session) : Prop := {
  id_self : 0 < x < n; id_refs : f_refs o = 1; id_task : 0 < f_task o < n;
  id_pcb : f_udp o = true → 0 < f_pcb o < n;
  id_frames : Forall (λ p, 0 < p < n) (f_frames o)
}.

Record flows_ok (extra : list Z) (s : tun) : Prop := {
  fo_next : 0 < next_id s;
  fo_set : ∃ l, set_rep (sset s) l (dom (objects s)) ∧ ∀ x, x ∈ l ↔ x ∈ dom (objects s);
  fo_ids : map_Forall (ids_ok (next_id s)) (objects s);
  fo_extra : Forall (λ p, 0 < p < next_id s) extra;
  fo_tcp : tcp_owned (objects s) (tcp_pcbs s);
  fo_udp : udp_owned (objects s) (callbacks (udp_pcbs s));
  fo_tasks : tasks_owned (objects s) (tasks s);
  fo_frames : frames_owned (objects s) extra (pbufs s);
  fo_dns : ∀ d, mdns s = Some d → (∃ l, dns_inv d l) ∧ 0 < MappedDNS.max d;
  fo_undef : zlen (undef s) = 1500;
  fo_bytes : map_Forall (λ _ bs, Forall is_byte bs ∧ zlen bs < 65536) (pbufs s)
}.
Abbreviation flows_inv := (flows_ok []).

Lemma fst_inj {A B} (l : list (A * B)) k a b : NoDup l.*1 → (k, a) ∈ l → (k, b) ∈ l → a = b.
Proof.
  intros Hnd Ha Hb. apply list_elem_of_lookup in Ha as [i Hi], Hb as [j Hj].
  assert (i = j) as ->; [|congruence]. eapply (NoDup_lookup l.*1); [done|..]; rewrite list_lookup_fmap;
    [by rewrite Hi|by rewrite Hj].
Qed.

Section Owned.
Context (objs : sessions_map).

(** Sessions with a property, when one is added, changed or removed. *)
Lemma ex_add (φ : flow_session → Prop) x o y :
  objs !! x = None →
  (∃ o', <[x := o]> objs !! y = Some o' ∧ φ o') ↔ (y = x ∧ φ o) ∨ (∃ o', objs !! y = Some o' ∧ φ o').
Proof.
  intros Hx. setoid_rewrite lookup_insert_Some. split.
  - intros (o' & [[<- <-]|[_ Ho]] & Hp); [by left|right; by exists o'].
  - intros [[-> Hp]|(o' & Ho & Hp)]; [exists o; by split; [left|]|exists o'; split; [right|done]].
    split; [congruence|done].
Qed.

Lemma ex_same (φ : flow_session → Prop) x o o2 y :
  objs !! x = Some o → (φ o2 ↔ φ o) →
  (∃ o', <[x := o2]> objs !! y = Some o' ∧ φ o') ↔ (∃ o', objs !! y = Some o' ∧ φ o').
Proof.
  intros Hx Hp. setoid_rewrite lookup_insert_Some. split.
  - intros (o' & [[<- <-]|[_ Ho]] & H); [exists o; split; [done|by apply Hp]|by exists o'].
  - intros (o' & Ho & H). destruct (decide (x = y)) as [<-|Hne]; [|exists o'; by split; [right|]].
    exists o2. split; [by left|]. simplify_eq. by apply Hp.
Qed.

Lemma ex_change (φ : flow_session → Prop) x o2 y :
  ¬ φ o2 → (∃ o', <[x := o2]> objs !! y = Some o' ∧ φ o') ↔ y ≠ x ∧ (∃ o', objs !! y = Some o' ∧ φ o').
Proof.
  intros Hp. setoid_rewrite lookup_insert_Some. split.
  - intros (o' & [[<- <-]|[Hne Ho]] & H); [done|]. split; [done|by exists o'].
  - intros (Hne & o' & Ho & H). exists o'. split; [right; split; [congruence|done]|done].
Qed.

Lemma ex_del (φ : flow_session → Prop) x y :
  (∃ o', delete x objs !! y = Some o' ∧ φ o') ↔ y ≠ x ∧ (∃ o', objs !! y = Some o' ∧ φ o').
Proof.
  setoid_rewrite lookup_delete_Some. split.
  - intros (o' & [Hne Ho] & H). split; [congruence|by exists o'].
  - intros (Hne & o' & Ho & H). exists o'. split; [split; [congruence|done]|done].
Qed.

Lemma tcp_add T x o :
  tcp_owned objs T → objs !! x = None → f_udp o = false → f_pcb o ≠ 0 → T !! f_pcb o = None →
  tcp_owned (<[x := o]> objs) (<[f_pcb o := x]> T).
Proof.
  intros H Hx Hu Hp HT p y. rewrite lookup_insert_Some, (H p y), ex_add by done.
  assert (p = f_pcb o → ∀ o', objs !! y = Some o' ∧ f_udp o' = false ∧ f_pcb o' = p → False).
  { intros -> o' Ho. assert (T !! f_pcb o = Some y) by (apply H; eauto). congruence. }
  naive_solver.
Qed.

Lemma tcp_add_udp T x o : tcp_owned objs T → objs !! x = None → f_udp o = true → tcp_owned (<[x := o]> objs) T.
Proof. intros H Hx Hu p y. rewrite (H p y), ex_add by done. intuition congruence. Qed.

Lemma tcp_same T x o o' :
  tcp_owned objs T → objs !! x = Some o → f_udp o' = f_udp o → f_pcb o' = f_pcb o → tcp_owned (<[x := o']> objs) T.
Proof. intros H Hx Hu Hp p y. rewrite (H p y), (ex_same _ x o o') by (done || by rewrite Hu, Hp). done. Qed.

Lemma tcp_reset_owned T x o o' :
  tcp_owned objs T → objs !! x = Some o → f_udp o = false → f_pcb o ≠ 0 → f_pcb o' = 0 →
  tcp_owned (<[x := o']> objs) (delete (f_pcb o) T).
Proof.
  intros H Hx Hu Hp Hp' p y. assert (T !! f_pcb o = Some x) as HT by (apply H; eauto).
  rewrite lookup_delete_Some, (H p y). split.
  - intros (Hne & Hp0 & Ho). split; [done|]. rewrite ex_change by (intros [_ ?]; congruence). split; [|done].
    intros ->. destruct Ho as (o2 & ? & ? & ?). congruence.
  - intros (Hp0 & Ho). rewrite ex_change in Ho by (intros [_ ?]; congruence). destruct Ho as [Hne Ho]. split; [|done].
    intros <-. assert (T !! f_pcb o = Some y) by (apply H; eauto). congruence.
Qed.

Lemma tcp_del T x o :
  tcp_owned objs T → objs !! x = Some o → (f_udp o = true ∨ f_pcb o = 0) → tcp_owned (delete x objs) T.
Proof.
  intros H Hx Hu p y. rewrite (H p y), ex_del. split; [|intuition].
  intros (Hp & o2 & Ho2 & Hu2 & Hp2). split; [done|]. split; [|by eauto]. intros ->. destruct Hu; congruence.
Qed.

Lemma udp_add L x o p :
  udp_owned objs L → objs !! x = None → f_udp o = true → f_pcb o = p → p ∉ L.*1 →
  udp_owned (<[x := o]> objs) ((p, RecvSession x) :: L).
Proof.
  intros [Hnd H] Hx Hu Hp HL. split; [by constructor|]. intros q r. rewrite elem_of_cons, H.
  split.
  - intros [[= -> ->]|(y & Ho)]; [exists x; setoid_rewrite lookup_insert_eq; eauto 10|].
    destruct Ho as (o2 & -> & Ho & ?). exists y, o2. split; [done|]. rewrite lookup_insert_ne by congruence. done.
  - intros (y & o2 & -> & Ho & Hu2 & Hp2). apply lookup_insert_Some in Ho as [[<- <-]|[Hne Ho]]; [left; congruence|right; eauto 10].
Qed.

Lemma udp_step L objs' :
  udp_owned objs L → NoDup L.*1 →
  (∀ y p, (∃ o, objs' !! y = Some o ∧ f_udp o = true ∧ f_pcb o = p) ↔ (∃ o, objs !! y = Some o ∧ f_udp o = true ∧ f_pcb o = p)) →
  udp_owned objs' L.
Proof.
  intros [_ H] Hnd He. split; [done|]. intros q r. rewrite H.
  split; intros (y & o & -> & Ho); exists y.
  - destruct (proj2 (He y q)) as (o2 & ?); [by exists o|]. by exists o2.
  - destruct (proj1 (He y q)) as (o2 & ?); [by exists o|]. by exists o2.
Qed.

Lemma udp_add_tcp L x o : udp_owned objs L → objs !! x = None → f_udp o = false → udp_owned (<[x := o]> objs) L.
Proof. intros H Hx Hu. apply udp_step; [done|apply H|]. intros y p. rewrite ex_add by done. intuition congruence. Qed.

Lemma udp_same L x o o' :
  udp_owned objs L → objs !! x = Some o → f_udp o' = f_udp o → (f_udp o = true → f_pcb o' = f_pcb o) → udp_owned (<[x := o']> objs) L.
Proof.
  intros H Hx Hu Hp. apply udp_step; [done|apply H|]. intros y p. apply ex_same with o; [done|]. rewrite Hu.
  split; intros [? ?]; rewrite Hp in * by done; done.
Qed.

Lemma udp_del_tcp L x o : udp_owned objs L → objs !! x = Some o → f_udp o = false → udp_owned (delete x objs) L.
Proof.
  intros H Hx Hu. apply udp_step; [done|apply H|]. intros y p. rewrite ex_del. split; [tauto|].
  intros Ho. split; [|done]. intros ->. destruct Ho as (o2 & ? & ? & ?). congruence.
Qed.

Lemma udp_del L x o :
  udp_owned objs L → objs !! x = Some o → f_udp o = true →
  udp_owned (delete x objs) (filter (λ e, e.1 ≠ f_pcb o) L).
Proof.
  intros [Hnd H] Hx Hu. split.
  { eapply sublist_NoDup; [exact Hnd|]. apply fmap_sublist, sublist_filter. }
  intros q r. rewrite list_elem_of_filter, H. cbn. split.
  - intros (Hne & y & o2 & -> & Ho & Hu2 & <-). exists y, o2. split; [done|].
    rewrite lookup_delete_ne by (intros ->; congruence). done.
  - intros (y & o2 & -> & [Hne Ho]%lookup_delete_Some & Hu2 & <-). split; [|by eauto 10].
    intros E. assert ((f_pcb o, RecvSession y) ∈ L) as H1 by (apply H; eauto 10).
    assert ((f_pcb o, RecvSession x) ∈ L) as H2 by (apply H; eauto 10).
    pose proof (fst_inj _ _ _ _ Hnd H1 H2). congruence.
Qed.

Lemma task_add K x o :
  tasks_owned objs K → objs !! x = None → K !! f_task o = None → tasks_owned (<[x := o]> objs) (<[f_task o := x]> K).
Proof.
  intros H Hx HK t y. rewrite lookup_insert_Some, (H t y), ex_add by done.
  assert (t = f_task o → ∀ o', objs !! y = Some o' ∧ f_task o' = t → False).
  { intros -> o' Ho. assert (K !! f_task o = Some y) by (apply H; eauto). congruence. }
  naive_solver.
Qed.

Lemma task_same K x o o' :
  tasks_owned objs K → objs !! x = Some o → f_task o' = f_task o → tasks_owned (<[x := o']> objs) K.
Proof. intros H Hx Ht t y. rewrite (H t y), (ex_same _ x o o') by (done || by rewrite Ht). done. Qed.

Lemma task_del K x o :
  tasks_owned objs K → objs !! x = Some o → tasks_owned (delete x objs) (delete (f_task o) K).
Proof.
  intros H Hx t y. assert (K !! f_task o = Some x) as HK by (apply H; eauto).
  rewrite lookup_delete_Some, (H t y), ex_del. split.
  - intros (Hne & Ho). split; [|done]. intros ->. destruct Ho as (o2 & ? & ?). congruence.
  - intros (Hne & Ho). split; [|done]. intros <-. assert (K !! f_task o = Some y) by (apply H; eauto). congruence.
Qed.

Lemma frames_add x o : objs !! x = None → frames_of (<[x := o]> objs) ≡ₚ f_frames o ++ frames_of objs.
Proof. intros Hx. unfold frames_of. by rewrite map_to_list_insert. Qed.

Lemma frames_del x o : objs !! x = Some o → frames_of objs ≡ₚ f_frames o ++ frames_of (delete x objs).
Proof. intros Hx. unfold frames_of. by rewrite <- (map_to_list_delete objs x o). Qed.

Lemma frames_change x o o' :
  objs !! x = Some o → frames_of (<[x := o']> objs) ≡ₚ f_frames o' ++ frames_of (delete x objs).
Proof.
  intros Hx. rewrite <- (insert_delete_eq objs x). unfold frames_of. by rewrite map_to_list_insert by apply lookup_delete_eq.
Qed.
End Owned.

Lemma frames_of_owner objs p : p ∈ frames_of objs → ∃ x o, objs !! x = Some o ∧ p ∈ f_frames o.
Proof.
  unfold frames_of. rewrite list_elem_of_join. intros (fs & Hp & ([x o] & -> & Hin)%list_elem_of_fmap).
  exists x, o. split; [by apply elem_of_map_to_list|done].
Qed.

Lemma frames_equiv objs objs' extra extra' B :
  extra' ++ frames_of objs' ≡ₚ extra ++ frames_of objs → frames_owned objs extra B → frames_owned objs' extra' B.
Proof. intros Hp [Hnd H]. split; [by rewrite Hp|]. intros p. by rewrite Hp. Qed.

Lemma frames_new objs extra B p bs :
  frames_owned objs extra B → p ∉ dom B → frames_owned objs (p :: extra) (<[p := bs]> B).
Proof.
  intros [Hnd H] Hp. split; [constructor; [by rewrite H|done]|]. intros q. rewrite dom_insert_L. cbn.
  rewrite elem_of_cons, H. set_solver.
Qed.

Lemma frames_free objs extra B p :
  frames_owned objs (p :: extra) B → is_Some (B !! p) ∧ frames_owned objs extra (delete p B).
Proof.
  intros [[Hp Hnd]%NoDup_cons H]. split; [apply elem_of_dom, H; by left|]. split; [done|]. intros q.
  rewrite dom_delete_L, elem_of_difference, <- H, not_elem_of_singleton. cbn. rewrite elem_of_cons.
  split; [|tauto]. intros Hq. split; [by right|]. by intros ->.
Qed.

(** ** Running the handlers *)

Lemma alloc_val s :
  ∃ b l, alloc s = Val b (set_allocs l (task_allocs s) s) ∧ (length l ≤ length (allocs s))%nat ∧
    (b = false → length l < length (allocs s))%nat.
Proof.
  unfold alloc. destruct (allocs s) as [|b l] eqn:E.
  - exists true, []. split; [|done]. rewrite <- E. by destruct s.
  - exists b, l. cbn. split_and!; [done|lia|lia].
Qed.

Lemma task_alloc_val s :
  ∃ b l, task_alloc s = Val b (set_allocs (allocs s) l s) ∧ (length l ≤ length (task_allocs s))%nat ∧
    (b = false → length l < length (task_allocs s))%nat.
Proof.
  unfold task_alloc. destruct (task_allocs s) as [|b l] eqn:E.
  - exists true, []. split; [|done]. rewrite <- E. by destruct s.
  - exists b, l. cbn. split_and!; [done|lia|lia].
Qed.

Definition del_all (l : list Z) (B : gmap Z bytes) : gmap Z bytes := foldr delete B l.

Lemma free_pbufs_val objs l extra s :
  frames_owned objs (l ++ extra) (pbufs s) →
  ∃ B, free_pbufs l s = Val tt (set_pbufs B s) ∧ frames_owned objs extra B ∧ B ⊆ pbufs s.
Proof.
  revert s. induction l as [|p l IH]; intros s H; cbn.
  - exists (pbufs s). split_and!; [by destruct s|done|done].
  - destruct (frames_free _ _ _ _ H) as [[bs Hp] H']. unfold pbuf_free at 1. mstep. rewrite Hp. cbn.
    destruct (IH (set_pbufs (delete p (pbufs s)) s) H') as (B & He & HB & Hs). mstep. rewrite He.
    exists B. split_and!; [done|done|]. etrans; [exact Hs|]. cbn. apply delete_subseteq.
Qed.

Lemma udp_find_some pcb l r : (pcb, r) ∈ callbacks l → ∃ u, udp_find pcb l = Some u.
Proof.
  unfold callbacks, udp_find. intros (e & Hr & He)%list_elem_of_fmap. inversion Hr; subst.
  destruct (List.find (λ e', e'.1 =? e.1) l) as [e'|] eqn:E; [by eexists|].
  apply List.find_none with (x := e) in E; [|by apply list_elem_of_In]. cbn in E. by rewrite Z.eqb_refl in E.
Qed.

Lemma callbacks_filter pcb l : callbacks (filter (λ e, e.1 ≠ pcb) l) = filter (λ e, e.1 ≠ pcb) (callbacks l).
Proof.
  unfold callbacks. induction l as [|[q u] l IH]; [done|]. rewrite filter_cons. cbn [fmap list_fmap].
  rewrite filter_cons. cbn. destruct (decide (q ≠ pcb)); cbn; by rewrite IH.
Qed.

(** Setting the callback of a control block, and removing it. *)
Definition recv_at (pcb : Z) (r : urecv) (l : list (Z * udp_pcb)) : list (Z * udp_pcb) :=
  (λ e : Z * udp_pcb, if e.1 =? pcb then (e.1, UdpPcb (u_remote e.2) (u_local e.2) r) else e) <$> l.

Lemma udp_recv_val pcb r r0 s :
  (pcb, r0) ∈ callbacks (udp_pcbs s) → udp_recv pcb r s = Val tt (set_udp_pcbs (recv_at pcb r (udp_pcbs s)) s).
Proof. intros (u & Hu)%udp_find_some. unfold udp_recv. mstep. by rewrite Hu. Qed.

Lemma udp_remove_val pcb r0 s :
  (pcb, r0) ∈ callbacks (udp_pcbs s) → udp_remove pcb s = Val tt (set_udp_pcbs (filter (λ e, e.1 ≠ pcb) (udp_pcbs s)) s).
Proof. intros (u & Hu)%udp_find_some. unfold udp_remove. mstep. by rewrite Hu. Qed.

Lemma callbacks_at pcb r l : callbacks (recv_at pcb r l) = (λ e : Z * urecv, if e.1 =? pcb then (e.1, r) else e) <$> callbacks l.
Proof. unfold callbacks, recv_at. rewrite <- !list_fmap_compose. apply list_fmap_ext. intros _ [q u] _. cbn. by destruct (q =? pcb). Qed.

Lemma remove_at pcb r l : filter (λ e, e.1 ≠ pcb) (recv_at pcb r l) = filter (λ e, e.1 ≠ pcb) l.
Proof.
  unfold recv_at. induction l as [|[q u] l IH]; [done|]. rewrite fmap_cons, !filter_cons. cbn.
  destruct (Z.eqb_spec q pcb) as [->|]; cbn; rewrite IH; [|done].
  by rewrite !decide_False by tauto.
Qed.

(** The end of a session: what it had is released. *)
Record owned (objs : sessions_map) (extra : list Z) (T : gmap Z Z) (U : list (Z * udp_pcb)) (B : gmap Z bytes) : Prop := {
  ow_tcp : tcp_owned objs T; ow_udp : udp_owned objs (callbacks U); ow_frames : frames_owned objs extra B
}.

Definition with_pcbs (T : gmap Z Z) (U : list (Z * udp_pcb)) (B : gmap Z bytes) (s : tun) : tun :=
  set_pbufs B (set_udp_pcbs U (set_tcp_pcbs T s)).

Lemma lock_val s : locked s = false → hev_task_mutex_lock s = Val tt (set_locked true s).
Proof. intros Hl. unfold hev_task_mutex_lock. mstep. by rewrite Hl. Qed.

Lemma session_destruct_val x o extra s :
  objects s !! x = Some o → owned (objects s) extra (tcp_pcbs s) (udp_pcbs s) (pbufs s) →
  (f_udp o = true → f_pcb o ≠ 0) → locked s = false →
  ∃ T U B, session_destruct x s = Val tt (with_pcbs T U B s) ∧ owned (delete x (objects s)) extra T U B ∧ B ⊆ pbufs s.
Proof.
  intros Ho [Ht Hu Hf] Hp Hlk.
  assert (frames_owned (delete x (objects s)) (f_frames o ++ extra) (pbufs s)) as Hf'.
  { eapply frames_equiv; [|exact Hf]. rewrite (frames_del _ x o Ho). solve_Permutation. }
  unfold session_destruct, hev_socks5_session_udp_destruct, hev_socks5_session_tcp_destruct, get_session.
  mstep. rewrite Ho. cbn [of_option]. mstep. destruct (f_udp o) eqn:Eu; mstep; rewrite Ho; cbn [of_option]; mstep.
  - destruct (free_pbufs_val _ _ _ _ Hf') as (B & -> & HB & Hs).
    set (s1 := set_locked true (set_pbufs B s)). rewrite (lock_val (set_pbufs B s)) by done. fold s1.
    assert (∃ r, (f_pcb o, r) ∈ callbacks (udp_pcbs s1)) as [r Hin] by (exists (RecvSession x); apply Hu; eauto 10).
    unfold truthy. rewrite (proj2 (Z.eqb_neq _ _)) by auto. cbn [negb].
    rewrite (udp_recv_val _ RecvNone r) by done.
    rewrite (udp_remove_val (f_pcb o) RecvNone) by (cbn [udp_pcbs set_udp_pcbs]; rewrite callbacks_at; apply list_elem_of_fmap; exists (f_pcb o, r); by rewrite Z.eqb_refl).
    cbn [udp_pcbs set_udp_pcbs]. rewrite remove_at. exists (tcp_pcbs s), (filter (λ e, e.1 ≠ f_pcb o) (udp_pcbs s)), B.
    split; [by destruct s; cbn in *; subst|]. split; [|done].
    split; [eapply tcp_del; eauto|rewrite callbacks_filter; by apply udp_del|done].
  - rewrite lock_val by done. unfold truthy. destruct (Z.eqb_spec (f_pcb o) 0) as [E0|E0]; cbn [negb].
    + destruct (free_pbufs_val _ _ _ (set_locked true s) Hf') as (B & -> & HB & Hs).
      exists (tcp_pcbs s), (udp_pcbs s), B. split; [by destruct s; cbn in *; subst|]. split; [|done].
      split; [eapply tcp_del; eauto|by eapply udp_del_tcp|done].
    + assert (tcp_pcbs s !! f_pcb o = Some x) as HT by (apply Ht; eauto).
      unfold tcp_arg, tcp_abort. mstep. cbn. rewrite HT. cbn. rewrite lookup_insert_eq. cbn. rewrite delete_insert_eq.
      destruct (free_pbufs_val _ _ _ (set_tcp_pcbs (delete (f_pcb o) (tcp_pcbs s)) (set_locked true s)) Hf') as (B & He & HB & Hs).
      exists (delete (f_pcb o) (tcp_pcbs s)), (udp_pcbs s), B.
      split; [|split; [|done]].
      { match goal with |- context [free_pbufs (f_frames o) ?st] => change (free_pbufs (f_frames o) st) with
          (free_pbufs (f_frames o) (set_tcp_pcbs (delete (f_pcb o) (tcp_pcbs s)) (set_locked true s))) end.
        rewrite He. by destruct s; cbn in *; subst. }
      split; [|by eapply udp_del_tcp|done].
      set (o' := FlowSession 0 false (f_task o) (f_refs o) (f_frames o)).
      rewrite <- (delete_insert_eq (objects s) x o').
      apply (tcp_del _ _ _ o'); [|by rewrite lookup_insert_eq|by right]. by apply (tcp_reset_owned _ _ _ o).
Qed.

Lemma owned_same objs extra T U B x o o' :
  objs !! x = Some o → f_udp o' = f_udp o → f_pcb o' = f_pcb o → f_frames o' = f_frames o →
  owned objs extra T U B → owned (<[x := o']> objs) extra T U B.
Proof.
  intros Ho Hu Hp Hf [H1 H2 H3]. split; [by eapply tcp_same|by eapply udp_same|].
  eapply frames_equiv; [|exact H3]. rewrite (frames_change _ x o o' Ho), (frames_del _ x o Ho). by rewrite Hf.
Qed.

Definition without (x : Z) (T : gmap Z Z) (U : list (Z * udp_pcb)) (B : gmap Z bytes) (s : tun) : tun :=
  set_sset (set_drop x (sset s)) (set_objects (delete x (objects s)) (with_pcbs T U B s)).

Lemma unref_val x o extra s :
  objects s !! x = Some o → f_refs o = 1 → owned (objects s) extra (tcp_pcbs s) (udp_pcbs s) (pbufs s) →
  (f_udp o = true → f_pcb o ≠ 0) → locked s = false →
  ∃ T U B, hev_object_unref x s = Val tt (without x T U B s) ∧ owned (delete x (objects s)) extra T U B ∧ B ⊆ pbufs s.
Proof.
  intros Ho Hr How Hp Hlk. set (o0 := FlowSession (f_pcb o) (f_udp o) (f_task o) 0 (f_frames o)).
  set (s1 := set_objects (<[x := o0]> (objects s)) s).
  destruct (session_destruct_val x o0 extra s1) as (T & U & B & He & How' & Hs).
  - cbn. by rewrite lookup_insert_eq.
  - by apply (owned_same _ _ _ _ _ _ o).
  - done.
  - done.
  - exists T, U, B. split; [|split; [|done]].
    + unfold hev_object_unref, get_session, put_session. mstep. rewrite Ho. cbn [of_option]. mstep.
      rewrite Hr. change (1 - 1) with 0. cbn [truthy]. fold o0 s1. change (truthy 0) with false. cbn beta iota.
      rewrite He. unfold free_session, on_sessions, modify. mstep. cbn. by rewrite delete_insert_eq.
    + cbn in How'. by rewrite delete_insert_eq in How'.
Qed.

Lemma flows_ok_without extra s x o t l K T U B :
  flows_ok extra s → objects s !! x = Some o → owned (delete x (objects s)) extra T U B → B ⊆ pbufs s →
  set_rep t l (dom (delete x (objects s))) → (∀ y, y ∈ l ↔ y ∈ dom (delete x (objects s))) →
  K = delete (f_task o) (tasks s) →
  flows_ok extra (set_tasks K (set_sset t (set_objects (delete x (objects s)) (with_pcbs T U B s)))).
Proof.
  intros [] Ho [H1 H2 H3] HB Ht Hl ->. split; try done.
  - by exists l.
  - by apply map_Forall_delete.
  - cbn. by eapply task_del.
  - intros p bs Hb. cbn in Hb. eapply lookup_weaken in Hb; [|exact HB]. by apply (fo_bytes0 p bs).
Qed.

(** The end of a session's task. *)
Lemma session_task_end_ok x o s :
  flows_inv s → objects s !! x = Some o → locked s = false →
  ∃ s', session_task_end x s = Val tt s' ∧ flows_inv s' ∧ objects s' = delete x (objects s) ∧ mode s' = mode s.
Proof.
  intros Hs Ho Hlk. pose proof Hs as []. destruct fo_set0 as (l & Hl & Hd).
  assert (x ∈ l) as Hx by (apply Hd; by eapply elem_of_dom_2).
  destruct (set_delete _ _ _ _ Hl Hx) as (t & He & Ht).
  pose proof (fo_ids0 x o Ho) as [].
  destruct (unref_val x o [] (set_sset t s) Ho) as (T & U & B & He2 & How & HB); try done.
  { intros Hu. specialize (id_pcb0 Hu). lia. }
  unfold session_task_end, get_session, on_sessions. mstep. rewrite Ho. cbn [of_option]. mstep.
  rewrite He, He2. eexists. split; [reflexivity|]. split; [|done].
  apply (flows_ok_without [] s x o (set_drop x t) (remove x l)); try done.
  - rewrite dom_delete_L. apply set_drop_rep; [done|]. unfold remove. rewrite list_elem_of_filter. tauto.
  - intros y. unfold remove. rewrite list_elem_of_filter, Hd, dom_delete_L. set_solver.
Qed.

(** ** New sessions *)

Lemma ids_mono n n' x o : n <= n' → ids_ok n x o → ids_ok n' x o.
Proof.
  intros Hn []. split; try lia; [intros Hu; specialize (id_pcb0 Hu); lia|].
  eapply Forall_impl; [done|]. cbn. lia.
Qed.

(** What the invariant does not look at. *)
Lemma flows_ok_ext extra s s' :
  tcp_pcbs s' = tcp_pcbs s → callbacks (udp_pcbs s') = callbacks (udp_pcbs s) → objects s' = objects s → tasks s' = tasks s →
  sset s' = sset s → mdns s' = mdns s → pbufs s' = pbufs s → undef s' = undef s → next_id s <= next_id s' →
  flows_ok extra s → flows_ok extra s'.
Proof.
  intros H1 H2 H3 H4 H5 H6 H7 H8 Hn []. split; rewrite ?H1, ?H2, ?H3, ?H4, ?H5, ?H6, ?H7, ?H8; try done; [lia| |].
  - intros x o Ho. eapply ids_mono; [exact Hn|]. by apply (fo_ids0 x o).
  - eapply Forall_impl; [exact fo_extra0|]. cbn. lia.
Qed.

Lemma flows_fresh extra s x : flows_ok extra s → next_id s <= x → objects s !! x = None ∧ tasks s !! x = None.
Proof.
  intros [] Hx. split.
  - destruct (objects s !! x) as [o|] eqn:E; [|done]. destruct (fo_ids0 x o E). lia.
  - destruct (tasks s !! x) as [y|] eqn:E; [|done]. apply fo_tasks0 in E as (o & Ho & <-). destruct (fo_ids0 y o Ho). lia.
Qed.

Lemma flows_ok_new extra s x o t l T U K n :
  flows_ok extra s → objects s !! x = None → next_id s <= n → ids_ok n x o → f_frames o = [] →
  tcp_owned (<[x := o]> (objects s)) T → udp_owned (<[x := o]> (objects s)) (callbacks U) →
  tasks s !! f_task o = None → K = <[f_task o := x]> (tasks s) →
  set_rep t l (dom (<[x := o]> (objects s))) → (∀ y, y ∈ l ↔ y ∈ dom (<[x := o]> (objects s))) →
  flows_ok extra (set_next_id n (set_tasks K (set_sset t (set_objects (<[x := o]> (objects s)) (set_udp_pcbs U (set_tcp_pcbs T s)))))).
Proof.
  intros [] Hx Hn Ho Hf HT HU HK -> Ht Hl. split; try done; cbn.
  - lia.
  - by exists l.
  - apply map_Forall_insert_2; [done|]. intros y o' Hy. eapply ids_mono; [exact Hn|]. by apply (fo_ids0 y o').
  - eapply Forall_impl; [exact fo_extra0|]. cbn. lia.
  - by apply task_add.
  - eapply frames_equiv; [|exact fo_frames0]. by rewrite (frames_add _ x o Hx), Hf.
Qed.

Lemma set_length t l objs : set_rep t l (dom (objs : sessions_map)) → (∀ x, x ∈ l ↔ x ∈ dom objs) → zlen l = Z.of_nat (size objs).
Proof.
  intros [[Hr _ _ _] _ _] Hd. destruct Hr as (_ & _ & _ & Hnd & _).
  unfold zlen. f_equal. rewrite <- size_dom, <- (size_list_to_set (C := gset Z) l) by done. f_equal.
  apply leibniz_equiv. intros x. by rewrite elem_of_list_to_set, Hd.
Qed.

