(* ===== verification/FlowsSpec.v ===== *)
(** * FlowsSpec: what the handlers of the tunnel do

    One lemma per handler and per call of lwIP: from a state with the invariant it
    runs to its end, and what it leaves has the invariant, or there was no memory for a
    session's task ([hangs]) or for a copy of a name ([undefined_dns]). *)
From S2P Require Import Prelude Bytes HevList MappedDNS LRU DNSCache DNSHandle LwipAddr Config SessionSet Flows FlowsOwn.

(** A session that is given up while its caller has the mutex. *)
Lemma bind_waits {A B} (m : M tun A) (f : A → M tun B) s s' : m s = Blocked s' → (m ≫= f) s = Blocked s'.
Proof. unfold mbind, M_bind. by intros ->. Qed.

Lemma lock_waits s : locked s = true → hev_task_mutex_lock s = Blocked s.
Proof. intros Hl. unfold hev_task_mutex_lock. mstep. by rewrite Hl. Qed.

Lemma get_session_val x o s : objects s !! x = Some o → get_session x s = Val o s.
Proof. intros Ho. unfold get_session. mstep. by rewrite Ho. Qed.

Lemma abandon_waits x o s :
  objects s !! x = Some o → f_refs o = 1 → f_frames o = [] → locked s = true →
  ∃ s', hev_object_unref x s = Blocked s' ∧ locked s' = true.
Proof.
  intros Ho Hr Hf Hl. set (o' := FlowSession (f_pcb o) (f_udp o) (f_task o) 0 []).
  set (s1 := set_objects (<[x := o']> (objects s)) s). exists s1. split; [|done].
  unfold hev_object_unref. rewrite (bind_val _ _ _ _ _ (get_session_val _ _ _ Ho)).
  rewrite (bind_val (put_session _ _) _ s tt s1) by (unfold s1, o'; by rewrite Hr, Hf).
  rewrite Hr. change (truthy (1 - 1)) with false. cbn iota. apply bind_waits.
  assert (get_session x s1 = Val o' s1) as Eg by (apply get_session_val; cbn; by rewrite lookup_insert_eq).
  unfold session_destruct, hev_socks5_session_udp_destruct, hev_socks5_session_tcp_destruct. rewrite (bind_val _ _ _ _ _ Eg).
  destruct (f_udp o') eqn:Eu; rewrite (bind_val _ _ _ _ _ Eg); cbn [f_frames o' free_pbufs]; [rewrite (bind_val (mret tt) _ s1 tt s1) by done|];
    apply bind_waits, lock_waits; done.
Qed.

Section Handlers.
Context (cfg : config).

Lemma start_session_val self task o l D s :
  objects s !! self = Some o → tasks s !! task = Some 0 → set_rep (sset s) l D → self ∈ D → self ≠ 0 → self ∉ l →
  zlen l < 2147483647 →
  ∃ t, start_session cfg self task s =
    Val tt (set_timer true (set_tasks (<[task := self]> (tasks s)) (set_sset t (set_objects
      (<[self := FlowSession (f_pcb o) (f_udp o) task (f_refs o) (f_frames o)]> (objects s)) s)))) ∧
    set_rep t (l ++ [self]) D.
Proof.
  intros Ho Ht Hl HD H0 Hn Hz.
  destruct (set_insert (hev_config_get_misc_max_session_count cfg) _ _ _ _ Hl HD H0 Hn Hz) as (t & He & Hr).
  exists t. split; [|done]. unfold start_session, hev_socks5_session_set_task, get_session, put_session, hev_socks5_tunnel_insert_session, on_sessions, hev_task_run.
  mstep. rewrite Ho. cbn [of_option]. mstep. cbn [sset set_objects]. rewrite He. cbn. by rewrite Ht.
Qed.

(** A new session, before it has a task. *)
Definition with_session (pcb : Z) (udp : bool) (al : list bool) (s : tun) : tun :=
  set_sset (set_add (next_id s) (sset s)) (set_objects (<[next_id s := FlowSession pcb udp 0 1 []]> (objects s))
    (set_next_id (next_id s + 1) (set_allocs al (task_allocs s) s))).

Lemma new_session_val pcb udp al s :
  new_session pcb udp (set_allocs al (task_allocs s) s) = Val (next_id s) (with_session pcb udp al s).
Proof. done. Qed.

Lemma tcp_new_val pcb y s :
  tcp_pcbs s !! pcb = Some y →
  ∃ al, (length al ≤ length (allocs s))%nat ∧
    (hev_socks5_session_tcp_new pcb s = Val 0 (set_allocs al (task_allocs s) s) ∨
     hev_socks5_session_tcp_new pcb s =
       Val (next_id s) (set_tcp_pcbs (<[pcb := next_id s]> (tcp_pcbs s)) (with_session pcb false al s))).
Proof.
  intros Hp. unfold hev_socks5_session_tcp_new. destruct (alloc_val s) as (b & al & He & Hl & _).
  erewrite bind_val by exact He. destruct b; [|exists al; split; [done|by left]]. cbn [negb].
  destruct (alloc_val (set_allocs al (task_allocs s) s)) as (b & al' & He' & Hl' & _). cbn in Hl'.
  erewrite bind_val by exact He'. exists al'. split; [lia|]. destruct b; [right|by left]. cbn [negb].
  unfold tcp_arg. change (task_allocs (set_allocs al (task_allocs s) s)) with (task_allocs s).
  change (set_allocs al' (task_allocs s) (set_allocs al (task_allocs s) s)) with (set_allocs al' (task_allocs s) s).
  erewrite bind_val by exact (new_session_val pcb false al' s). mstep. cbn. by rewrite Hp.
Qed.

Lemma udp_new_val pcb r s :
  (pcb, r) ∈ callbacks (udp_pcbs s) →
  ∃ al, (length al ≤ length (allocs s))%nat ∧
    (hev_socks5_session_udp_new pcb s = Val 0 (set_allocs al (task_allocs s) s) ∧ (length al < length (allocs s))%nat ∨
     hev_socks5_session_udp_new pcb s =
       Val (next_id s) (set_udp_pcbs (recv_at pcb (RecvSession (next_id s)) (udp_pcbs s)) (with_session pcb true al s))).
Proof.
  intros Hp. unfold hev_socks5_session_udp_new. destruct (alloc_val s) as (b & al & He & Hl & Hlt).
  erewrite bind_val by exact He. exists al. split; [done|]. destruct b; [right|left; by auto]. cbn [negb].
  erewrite bind_val by exact (new_session_val pcb true al s).
  pose proof (udp_recv_val pcb (RecvSession (next_id s)) r (with_session pcb true al s) Hp) as E.
  erewrite bind_val by exact E. done.
Qed.

Lemma task_new_val s :
  (∃ tl, hev_task_new s = Val 0 (set_allocs (allocs s) tl s) ∧ (length tl < length (task_allocs s))%nat ∧ hd true (task_allocs s) = false) ∨
  (∃ tl, hev_task_new s = Val (next_id s)
     (set_tasks (<[next_id s := 0]> (tasks s)) (set_next_id (next_id s + 1) (set_allocs (allocs s) tl s))) ∧
     (length tl ≤ length (task_allocs s))%nat).
Proof.
  unfold hev_task_new, task_alloc. destruct (task_allocs s) as [|[] l] eqn:E; [right|right|left].
  - exists []. split; [|done]. mstep. assert (set_allocs (allocs s) [] s = s) as Es by (rewrite <- E; by destruct s). by rewrite E, Es.
  - exists l. split; [mstep; by rewrite E|cbn; lia].
  - exists l. split; [mstep; by rewrite E|]. split; [cbn; lia|done].
Qed.

(** From a new session and its task to the next good state. *)
Lemma start_ok extra s0 pcb udp al tl T U x task s :
  flows_ok extra s0 → next_id s0 <= x → x < task → Z.of_nat (size (objects s0)) < 2147483647 →
  (udp = true → 0 < pcb <= task) →
  let o := FlowSession pcb udp task 1 [] in
  tcp_owned (<[x := o]> (objects s0)) T → udp_owned (<[x := o]> (objects s0)) (callbacks U) →
  s = set_tasks (<[task := 0]> (tasks s0)) (set_next_id (task + 1) (set_udp_pcbs U (set_tcp_pcbs T (set_allocs al tl
        (set_sset (set_add x (sset s0)) (set_objects (<[x := FlowSession pcb udp 0 1 []]> (objects s0)) s0)))))) →
  ∃ s', start_session cfg x task s = Val tt s' ∧ flows_ok extra s' ∧ objects s' = <[x := o]> (objects s0) ∧
    mode s' = mode s0 ∧ udp_pcbs s' = U ∧ pbufs s' = pbufs s0 ∧ allocs s' = al ∧ task_allocs s' = tl.
Proof.
  intros Hs Hx Htask Hsz Hpcb o HT HU ->. pose proof Hs as []. destruct fo_set as (l & Hl & Hd).
  destruct (flows_fresh _ _ x Hs Hx) as [Hxo _]. destruct (flows_fresh _ _ task Hs ltac:(lia)) as [_ Htk].
  assert (x ∉ dom (objects s0)) as Hxd by (by apply not_elem_of_dom).
  assert (x ∉ l) as Hxl by (by rewrite Hd).
  pose proof (set_add_rep _ _ _ _ Hl Hxd) as Hadd.
  destruct (start_session_val x task (FlowSession pcb udp 0 1 []) l ({[x]} ∪ dom (objects s0))
    (set_tasks (<[task := 0]> (tasks s0)) (set_next_id (task + 1) (set_udp_pcbs U (set_tcp_pcbs T (set_allocs al tl
        (set_sset (set_add x (sset s0)) (set_objects (<[x := FlowSession pcb udp 0 1 []]> (objects s0)) s0)))))))) as (t & He & Ht);
    [cbn; by rewrite lookup_insert_eq|cbn; by rewrite lookup_insert_eq|done|set_solver|lia|done|by rewrite (set_length _ _ _ Hl Hd)|].
  eexists. split; [exact He|]. cbn. rewrite !insert_insert_eq. split_and!; try done.
  eapply (flows_ok_ext extra (set_next_id (task + 1) (set_tasks (<[task := x]> (tasks s0)) (set_sset t
    (set_objects (<[x := o]> (objects s0)) (set_udp_pcbs U (set_tcp_pcbs T s0))))))); try done.
  eapply (flows_ok_new extra s0 x o t (l ++ [x])); try done.
  - lia.
  - split; cbn; try lia; [|done]. intros Hu. specialize (Hpcb Hu). lia.
  - by rewrite dom_insert_L.
  - intros y. rewrite elem_of_app, list_elem_of_singleton, Hd, dom_insert_L. set_solver.
Qed.

(** Without memory for a task, a handler waits for the mutex that its caller has. *)
Definition hangs {A} (m : M tun A) (s : tun) : Prop :=
  hd true (task_allocs s) = false ∧ ∃ s', m s = Blocked s' ∧ locked s' = true.

(** The handler refuses a connection and leaves it alone, or makes a session of it:
    unless memory for the task runs out. *)
Lemma tcp_accept_ok pcb s :
  flows_inv s → locked s = true → pcb ≠ 0 → tcp_pcbs s !! pcb = None →
  Z.of_nat (size (objects s)) < 2147483647 →
  let s1 := set_tcp_pcbs (<[pcb := 0]> (tcp_pcbs s)) s in
  hangs (tcp_accept_handler cfg pcb ERR_OK) s1 ∨
  ∃ err s2, tcp_accept_handler cfg pcb ERR_OK s1 = Val err s2 ∧
    ((err = ERR_MEM ∨ err = ERR_RST) ∧ (∃ al, s2 = set_allocs al (task_allocs s) s1) ∨
     err = ERR_OK ∧ flows_inv s2 ∧ run s = true ∧ mode s2 = mode s ∧
     ∃ x o, f_pcb o = pcb ∧ objects s !! x = None ∧ objects s2 = <[x := o]> (objects s)).
Proof.
  intros Hs Hlk Hp Hnew Hsz s1. unfold hangs, tcp_accept_handler. cbn [Z.eqb ERR_OK negb].
  rewrite (bind_val (gets run) _ s1 (run s) s1) by done.
  destruct (run s) eqn:Er; cbn [negb].
  2: { right. exists ERR_RST, s1. split; [done|]. left. split; [by right|]. exists (allocs s). unfold s1. by destruct s. }
  destruct (tcp_new_val pcb 0 s1 (lookup_insert_eq _ _ _)) as (al & Hal & [He|He]).
  { right. erewrite bind_val by exact He. exists ERR_MEM. eexists. split; [done|]. left. split; [by left|]. by exists al. }
  erewrite bind_val by exact He. destruct (flows_fresh _ _ (next_id s) Hs ltac:(done)) as [Hx _].
  assert (truthy (next_id s) = true) as Ht by (unfold truthy; destruct Hs; by rewrite (proj2 (Z.eqb_neq _ _)) by lia).
  change (next_id s1) with (next_id s) in *. rewrite Ht. cbn [negb].
  match goal with |- context [(hev_task_new ≫= _) ?st] => set (s2 := st) end.
  destruct (task_new_val s2) as [(tl & He2 & _ & Hf)|(tl & He2 & Htl)].
  { left. split; [done|]. erewrite bind_val by exact He2. change (truthy 0) with false. cbn [negb].
    destruct (abandon_waits (next_id s) (FlowSession pcb false 0 1 []) (set_allocs (allocs s2) tl s2)) as (s' & E & Hs');
      [cbn; by rewrite lookup_insert_eq|done..|]. exists s'. split; [|done]. by apply bind_waits. }
  right. erewrite bind_val by exact He2. change (next_id s2) with (next_id s + 1).
  assert (truthy (next_id s + 1) = true) as -> by (unfold truthy; destruct Hs; by rewrite (proj2 (Z.eqb_neq _ _)) by lia).
  cbn [negb]. set (o := FlowSession pcb false (next_id s + 1) 1 []).
  destruct (start_ok [] s pcb false al tl (<[pcb := next_id s]> (tcp_pcbs s)) (udp_pcbs s) (next_id s) (next_id s + 1)
    (set_tasks (<[next_id s + 1 := 0]> (tasks s2)) (set_next_id (next_id s + 1 + 1) (set_allocs (allocs s2) tl s2))))
    as (s3 & He3 & Hs3 & Ho3 & Hr3 & _); try done.
  - lia.
  - by apply (tcp_add _ _ (next_id s) o); [apply Hs|..].
  - by apply udp_add_tcp; [apply Hs|..].
  - unfold s2. cbn. by rewrite insert_insert_eq.
  - erewrite bind_val by exact He3. exists ERR_OK, s3. split; [done|]. right. split_and!; try done.
    by exists (next_id s), o.
Qed.

(** A connection that lwIP has established. *)
Lemma tcp_established_ok pcb s :
  flows_inv s → locked s = true → pcb ≠ 0 → tcp_pcbs s !! pcb = None →
  Z.of_nat (size (objects s)) < 2147483647 →
  hangs (tcp_established cfg pcb) s ∨
  ∃ s', tcp_established cfg pcb s = Val tt s' ∧ flows_inv s' ∧ mode s' = mode s ∧
    (objects s' = objects s ∧ tcp_pcbs s' = tcp_pcbs s ∨
     run s = true ∧ ∃ x o, f_pcb o = pcb ∧ objects s !! x = None ∧ objects s' = <[x := o]> (objects s)).
Proof.
  intros Hs Hlk Hp Hnew Hsz. unfold hangs, tcp_established. erewrite bind_val by reflexivity.
  destruct (tcp_accept_ok pcb s Hs Hlk Hp Hnew Hsz)
    as [(Hno & s' & E & Hl)|(err & s2 & He & [[Herr [al ->]]|(-> & Hs2 & Hr & Hr2 & Ho)])]; [left|right..].
  - split; [done|]. exists s'. split; [by apply bind_waits|done].
  - erewrite bind_val by exact He. exists (set_allocs al (task_allocs s) s).
    split; [|split; [by eapply flows_ok_ext with s|by split; [|left]]].
    assert ((negb (err =? ERR_OK) && negb (err =? ERR_ABRT)) = true) as -> by (by destruct Herr as [->| ->]).
    cbn [when]. unfold tcp_abort. mstep. cbn. rewrite lookup_insert_eq. cbn. rewrite delete_insert_id by done. by destruct s.
  - erewrite bind_val by exact He. exists s2. split; [done|]. split; [done|]. split; [congruence|]. by right.
Qed.

(** ** Connections that end, and sessions that go on *)

(** A session changes, but neither what it owns nor its place. *)
Lemma flows_ok_change extra extra' s x o o' t T B :
  flows_ok extra s → objects s !! x = Some o → f_udp o' = f_udp o → f_task o' = f_task o → ids_ok (next_id s) x o' →
  (f_udp o = true → f_pcb o' = f_pcb o) → tcp_owned (<[x := o']> (objects s)) T →
  frames_owned (<[x := o']> (objects s)) extra' B → Forall (λ p, 0 < p < next_id s) extra' → B ⊆ pbufs s →
  (∀ l D, set_rep (sset s) l D → x ∈ D → set_rep t l D) →
  flows_ok extra' (set_pbufs B (set_sset t (set_objects (<[x := o']> (objects s)) (set_tcp_pcbs T s)))).
Proof.
  intros [] Ho Hu Ht Hi Hp HT HB He Hsub Hset. destruct fo_set as (l & Hl & Hd).
  assert (dom (<[x := o']> (objects s)) = dom (objects s)) as Hdom
    by (rewrite dom_insert_L; apply elem_of_dom_2 in Ho; set_solver).
  split; try done; cbn.
  - exists l. rewrite Hdom. split; [|done]. apply Hset; [done|]. by eapply elem_of_dom_2.
  - by apply map_Forall_insert_2.
  - by eapply udp_same.
  - by eapply task_same.
  - intros q bs Hb. eapply lookup_weaken in Hb; [|exact Hsub]. by apply (fo_bytes q bs).
Qed.

Lemma tcp_reset_ok pcb x s :
  flows_inv s → tcp_pcbs s !! pcb = Some x →
  ∃ s', tcp_reset pcb s = Val tt s' ∧ flows_inv s' ∧ dom (objects s') = dom (objects s) ∧ mode s' = mode s.
Proof.
  intros Hs Hx. pose proof Hs as []. destruct (proj1 (fo_tcp pcb x) Hx) as (Hp & o & Ho & Hu & Hpo).
  destruct (fo_ids x o Ho). destruct fo_set as (l & Hl & Hd).
  assert (truthy x = true) as Htx by (unfold truthy; by rewrite (proj2 (Z.eqb_neq _ _)) by lia).
  set (o' := FlowSession 0 (f_udp o) (f_task o) (f_refs o) (f_frames o)).
  destruct (set_terminate _ _ _ x Hl) as (t & He & _ & _); [by eapply elem_of_dom_2|].
  eexists. split.
  - unfold tcp_reset, tcp_abort. mstep. rewrite Hx. cbn [of_option]. mstep. rewrite Htx. cbn [when].
    unfold tcp_err_handler, get_session, put_session, hev_socks5_session_terminate, on_sessions. mstep.
    cbn -[SessionSet.hev_socks5_session_terminate]. rewrite Ho. cbn -[SessionSet.hev_socks5_session_terminate].
    rewrite He. reflexivity.
  - split; [|split; [cbn; rewrite dom_insert_L; apply elem_of_dom_2 in Ho; set_solver|done]].
    apply (flows_ok_ext [] (set_pbufs (pbufs s) (set_sset t (set_objects (<[x := o']> (objects s)) (set_tcp_pcbs (delete pcb (tcp_pcbs s)) s))))); try done.
    apply (flows_ok_change [] [] s x o o'); try done.
    + split; try done. cbn. congruence.
    + congruence.
    + rewrite <- Hpo. apply tcp_reset_owned; try done. congruence.
    + eapply frames_equiv; [|exact fo_frames]. by rewrite (frames_change _ x o o' Ho), (frames_del _ x o Ho).
    + intros l' D' Hl' HD'. destruct (set_terminate _ _ _ x Hl' HD') as (t' & He' & Hr & _). congruence.
Qed.

Lemma session_forward_ok x s :
  flows_inv s → is_Some (objects s !! x) →
  ∃ s', session_forward x s = Val tt s' ∧ flows_inv s' ∧ dom (objects s') = dom (objects s) ∧ mode s' = mode s.
Proof.
  intros Hs [o Ho]. pose proof Hs as []. unfold session_forward, get_session. mstep. rewrite Ho. cbn [of_option]. mstep.
  destruct (f_frames o) as [|p ps] eqn:Ef; [by exists s|].
  set (o' := FlowSession (f_pcb o) (f_udp o) (f_task o) (f_refs o) ps).
  assert (frames_owned (<[x := o']> (objects s)) [p] (pbufs s)) as Hf.
  { eapply frames_equiv; [|exact fo_frames]. rewrite (frames_change _ x o o' Ho), (frames_del _ x o Ho), Ef. done. }
  destruct (frames_free _ _ _ _ Hf) as [[bs Hb] Hf'].
  unfold put_session, pbuf_free. mstep. cbn. rewrite Hb. cbn. eexists. split; [reflexivity|].
  split; [|split; [cbn; rewrite dom_insert_L; apply elem_of_dom_2 in Ho; set_solver|done]].
  apply (flows_ok_ext [] (set_pbufs (delete p (pbufs s)) (set_sset (sset s) (set_objects (<[x := o']> (objects s)) (set_tcp_pcbs (tcp_pcbs s) s)))));
    try done.
  destruct (fo_ids x o Ho). apply (flows_ok_change [] [] s x o o'); try done.
  - split; try done. rewrite Ef in *. by apply Forall_cons in id_frames as [_ ?].
  - by apply (tcp_same _ _ x o).
  - apply delete_subseteq.
Qed.

(** Stopping: every session is terminated. *)
Lemma terminate_from_ok xs ys D fuel s :
  set_rep (sset s) (xs ++ ys) D → (length ys ≤ fuel)%nat →
  ∃ t, terminate_from fuel (List.hd 0 ys) s = Val tt (set_sset t s) ∧ set_rep t (xs ++ ys) D ∧
    (∀ y, y ∈ ys ∨ SessionSet.timeouts (sset s) !! y = Some 0 → SessionSet.timeouts t !! y = Some 0) ∧
    wakeups t = wakeups (sset s) ++ ys.
Proof.
  revert xs fuel s. induction ys as [|y ys IH]; intros xs fuel s Hs Hf.
  { exists (sset s). split; [destruct fuel; cbn; by destruct s|]. split; [done|]. rewrite app_nil_r. set_solver. }
  destruct (set_rep_sub _ _ _ y Hs) as [HyD Hy0]; [set_solver|].
  destruct fuel as [|fuel]; [cbn in Hf; lia|]. cbn [List.hd terminate_from].
  unfold truthy. rewrite (proj2 (Z.eqb_neq _ _)) by done. cbn [negb].
  destruct (set_terminate _ _ _ y Hs HyD) as (t & He & Ht & Hn & Hto & Hw).
  unfold hev_socks5_session_terminate, on_sessions. mstep. rewrite He. mstep. cbn [sset set_sset].
  assert (lnodes (session_set t) !! y = Some (LNode (List.hd 0 ys) (List.last xs 0))) as Hlk.
  { destruct Ht as [[(_ & _ & Hseg & _) _ _ _] _ _]. apply lseg_app in Hseg as [_ [Hseg _]]. exact Hseg. }
  unfold on_set, hev_list_node_next, get_lnode. mstep. rewrite Hlk. cbn [next].
  destruct (IH (xs ++ [y]) fuel (set_sset t s)) as (t' & He' & Ht' & Hto' & Hw');
    [by rewrite <- app_assoc|cbn in Hf; lia|].
  exists t'. rewrite <- app_assoc in Ht'. cbn in Hto', Hw'. split; [|split_and!; [done| |by rewrite Hw', Hw, <- app_assoc]].
  2: { intros z Hz. apply Hto'. rewrite Hto. destruct (decide (z = y)) as [->|Hne]; [right; apply lookup_insert_eq|].
    rewrite lookup_insert_ne by done. set_solver. }
  replace (set_sset (Sessions (session_set t) (session_count t) (SessionSet.timeouts t) (wakeups t)) (set_sset t s)) with (set_sset t s) by (by destruct t).
  rewrite He'. done.
Qed.

Lemma event_task_stop_ok s :
  flows_inv s → ∃ s', event_task_stop s = Val tt s' ∧ flows_inv s' ∧ objects s' = objects s ∧ mode s' = (false, locked s) ∧
    (∀ x, x ∈ dom (objects s) → SessionSet.timeouts (sset s') !! x = Some 0 ∧ x ∈ wakeups (sset s')).
Proof.
  intros Hs. pose proof Hs as []. destruct fo_set as (l & Hl & Hd).
  unfold event_task_stop, on_sessions, on_set, hev_list_first. mstep. cbn [sset set_run].
  assert (HevList.head (session_set (sset s)) = List.hd 0 l) as -> by (destruct Hl as [[(Hh & _) _ _ _] _ _]; exact Hh).
  destruct (terminate_from_ok [] l (dom (objects s)) (size (lnodes (session_set (sset s)))) (set_run false s)) as (t & He & Ht & Hto & Hw).
  - done.
  - pose proof (set_length _ _ _ Hl Hd) as Hz. unfold zlen in Hz. destruct Hl as [_ Hn _].
    rewrite <- (size_dom (D := gset Z) (lnodes _)), Hn, size_dom. lia.
  - exists (set_sset t (set_run false s)). split; [|split].
    + rewrite <- He. by destruct s as [? ? ? ? ? []].
    + split; try done. by exists l.
    + split; [done|]. split; [done|]. cbn in *. rewrite Hw. intros x Hx%Hd. split; [apply Hto; by left|].
      apply elem_of_app. by right.
Qed.

(** ** Datagrams *)

Lemma pbuf_free_ok p extra s :
  flows_ok (p :: extra) s →
  pbuf_free p s = Val tt (set_pbufs (delete p (pbufs s)) s) ∧ flows_ok extra (set_pbufs (delete p (pbufs s)) s).
Proof.
  intros []. destruct (frames_free _ _ _ _ fo_frames) as [[bs Hp] Hf]. split.
  { unfold pbuf_free. mstep. by rewrite Hp. }
  apply Forall_cons in fo_extra as [_ He]. split; try done. by apply map_Forall_delete.
Qed.

Lemma udp_match_in src l e : udp_match src l = Some e → e ∈ l ∧ u_remote e.2 = src.
Proof.
  intros H. unfold udp_match in H. apply List.find_some in H as [Hin He]. split; [by apply list_elem_of_In|].
  by apply bool_decide_eq_true in He.
Qed.

(** The datagram is for a session. *)
Lemma udp_input_known fuel src dst p e s :
  flows_ok [p] s → udp_match src (udp_pcbs s) = Some e →
  ∃ s', udp_input cfg (S fuel) src dst p s = Val tt s' ∧ flows_inv s' ∧ dom (objects s') = dom (objects s) ∧ mode s' = mode s.
Proof.
  intros Hs He. pose proof Hs as []. destruct (udp_match_in _ _ _ He) as [Hin _]. destruct e as [pcb u].
  assert ((pcb, u_recv u) ∈ callbacks (udp_pcbs s)) as Hcb by (apply list_elem_of_fmap; by exists (pcb, u)).
  apply fo_udp in Hcb as (x & o & Hr & Ho & Hu & Hp).
  cbn [udp_input]. rewrite (bind_val (gets udp_pcbs) _ s (udp_pcbs s) s), He by done.
  erewrite bind_val by reflexivity. unfold udp_deliver. cbn [u_recv]. rewrite Hr. unfold session_recv_handler.
  match goal with |- context [get_session x ≫= _] => idtac end.
  set (l' := (λ e : Z * udp_pcb, if e.1 =? pcb then (e.1, UdpPcb (u_remote u) dst (RecvSession x)) else e) <$> udp_pcbs s).
  assert (callbacks l' = callbacks (udp_pcbs s)) as Hl'.
  { unfold callbacks, l'. rewrite <- list_fmap_compose. apply list_fmap_ext. intros i [q v] Hi. cbn.
    destruct (Z.eqb_spec q pcb) as [->|]; [|done]. cbn. rewrite <- Hr. f_equal.
    apply (fst_inj (callbacks (udp_pcbs s)) pcb); [apply fo_udp|..]; apply list_elem_of_fmap;
      [by exists (pcb, u)|exists (pcb, v); split; [done|by eapply list_elem_of_lookup_2]]. }
  set (s1 := set_udp_pcbs l' s). assert (flows_ok [p] s1) as Hs1 by (by eapply flows_ok_ext with s).
  unfold get_session. rewrite (bind_val _ _ s1 o s1) by (mstep; cbn; by rewrite Ho).
  destruct (UDP_POOL_SIZE <? zlen (f_frames o)).
  { destruct (pbuf_free_ok _ _ _ Hs1) as [E Hok]. by exists (set_pbufs (delete p (pbufs s)) s1). }
  destruct (alloc_val s1) as (b & al & Ea & _). erewrite bind_val by exact Ea.
  assert (flows_ok [p] (set_allocs al (task_allocs s1) s1)) as Hs2 by (by eapply flows_ok_ext with s1).
  destruct b; cbn [negb].
  2: { destruct (pbuf_free_ok _ _ _ Hs2) as [E Hok]. by eexists. }
  set (o' := FlowSession (f_pcb o) (f_udp o) (f_task o) (f_refs o) (f_frames o ++ [p])).
  eexists. split; [reflexivity|]. split; [|split; [cbn; rewrite dom_insert_L; apply elem_of_dom_2 in Ho; set_solver|done]].
  apply (flows_ok_ext [] (set_pbufs (pbufs s1) (set_sset (sset s1) (set_objects (<[x := o']> (objects s1)) (set_tcp_pcbs (tcp_pcbs s1) s1)))));
    try done.
  destruct (fo_ids x o Ho). apply (flows_ok_change [p] [] s1 x o o'); try done.
  - split; try done. cbn. apply Forall_app. split; [done|exact fo_extra].
  - by apply (tcp_same _ _ x o).
  - eapply frames_equiv; [|exact fo_frames]. cbn [objects set_udp_pcbs s1].
    rewrite (frames_change _ x o o' Ho), (frames_del _ x o Ho). cbn. solve_Permutation.
Qed.

(** The control block of the request goes away. *)
Lemma udp_drop_val pcb u l s :
  udp_pcbs s = (pcb, u) :: l → pcb ∉ (callbacks l).*1 →
  (udp_recv pcb RecvNone;; udp_remove pcb) s = Val tt (set_udp_pcbs l s) ∧ udp_remove pcb s = Val tt (set_udp_pcbs l s).
Proof.
  intros Hl Hn. assert ((pcb, u_recv u) ∈ callbacks (udp_pcbs s)) as Hin by (rewrite Hl; left).
  assert (filter (λ e : Z * udp_pcb, e.1 ≠ pcb) (udp_pcbs s) = l) as Hf.
  { rewrite Hl, filter_cons. rewrite decide_False by (cbn; tauto).
    clear -Hn. induction l as [|[q v] l IH]; [done|]. cbn in Hn. rewrite not_elem_of_cons in Hn. destruct Hn as [Hq Hn].
    rewrite filter_cons, decide_True by (cbn; congruence). by rewrite IH. }
  split; [|by rewrite (udp_remove_val _ _ _ Hin), Hf].
  rewrite (bind_val _ _ _ _ _ (udp_recv_val pcb RecvNone _ _ Hin)).
  rewrite (udp_remove_val _ RecvNone); [cbn; by rewrite remove_at, Hf|].
  cbn [udp_pcbs set_udp_pcbs]. rewrite callbacks_at. apply list_elem_of_fmap. exists (pcb, u_recv u). by rewrite Z.eqb_refl.
Qed.

Lemma flows_ok_dns extra s d :
  flows_ok extra s → (∃ l, dns_inv d l) → 0 < MappedDNS.max d → flows_ok extra (set_mdns (Some d) s).
Proof. intros [] Hd Hm. split; try done. cbn. by intros ? [= <-]. Qed.

(** What the DNS server [d] makes of a request, and what it sends. *)
Definition dns_outcome (d : dns) (u : udp_pcb) (req : bytes) (s s' : tun) : Prop :=
  ∃ r e, hev_mapped_dns_handle (zlen req) 1500 (Exchange d req (undef s)) = Val r e ∧ mdns s' = Some (server e) ∧
    dns_replies s' = dns_replies s ++ (if r <? 0 then [] else [(u_local u, u_remote u, take (Z.to_nat r) (sb e))]).

(** A request for which the DNS server is undefined. *)
Definition undefined_dns {A} (d : dns) (m : M tun A) (s : tun) : Prop := m s = Stuck ∧ ¬ strdup_ok (heap d).

(** The request is answered, or not; its buffer stays for now, and the one of the
    answer is released. *)
Lemma dns_answer_ok pcb p u l d req s :
  flows_ok [p] (set_udp_pcbs l s) → udp_pcbs s = (pcb, u) :: l → mdns s = Some d → pbufs s !! p = Some req →
  let m := u ← gets undef; b ← pbuf_alloc u;
         if negb (truthy b) then mret tt else
           res ← dns_handle p b; when (negb (res <? 0)) (udp_sendfrom pcb b res);; pbuf_free b in
  undefined_dns d m s ∨
  ∃ s', m s = Val tt s' ∧
    flows_ok [p] (set_udp_pcbs l s') ∧ udp_pcbs s' = udp_pcbs s ∧ objects s' = objects s ∧ mode s' = mode s ∧
    (allocs s = [] → dns_outcome d u req s s').
Proof.
  intros Hs Hl Hd Hp m. unfold undefined_dns, m. clear m. pose proof Hs as []. cbn [objects next_id pbufs mdns undef set_udp_pcbs] in *.
  rewrite (bind_val (gets undef) _ s (undef s) s) by done.
  destruct (alloc_val s) as (b & al & Ea & _). unfold pbuf_alloc. rewrite bind_assoc. erewrite bind_val by exact Ea.
  destruct b; cbn [negb].
  2: { right. eexists. split; [reflexivity|]. split; [by eapply flows_ok_ext with (set_udp_pcbs l s)|]. split_and!; [done..|].
    intros Hal. unfold alloc in Ea. by rewrite Hal in Ea. }
  set (b := next_id s).
  assert (p ≠ b) as Hne by (apply Forall_cons in fo_extra as [? _]; unfold b; lia).
  assert (pbufs s !! b = None) as Hb.
  { apply not_elem_of_dom. rewrite <- (proj2 fo_frames). cbn. rewrite not_elem_of_cons. split; [congruence|].
    intros (x & o & Ho & Hin)%frames_of_owner. destruct (fo_ids x o Ho).
    eapply Forall_forall in id_frames; [|done]. unfold b in *. lia. }
  destruct (fo_dns d Hd) as [Hinv Hmax]. destruct (fo_bytes p req Hp) as [Hbytes Hlen].
  set (s1 := set_pbufs (<[b := undef s]> (pbufs s)) (set_next_id (b + 1) (set_allocs al (task_allocs s) s))).
  destruct Hinv as [dl Hinv].
  destruct (handle_outcome (Exchange d req (undef s)) dl Hinv Hmax Hbytes ltac:(cbn; lia))
    as [(r & e & He & _ & Hb' & Hq' & _ & Hinv' & Hmax')|[He Hbad]]; cbn [rb sb server] in *.
  2: { left. split; [|done]. unfold new_id. mstep. fold b. cbn [next_id pbufs set_next_id set_allocs]. fold b.
    change (pbufs (set_next_id (b + 1) (set_allocs al (task_allocs s) s))) with (pbufs s). fold s1.
    unfold truthy. rewrite (proj2 (Z.eqb_neq b 0)) by (unfold b; lia). cbn [negb].
    unfold dns_handle, s1. cbn -[hev_mapped_dns_handle]. by rewrite Hd, lookup_insert_ne, Hp, lookup_insert_eq, He by done. }
  right.
  assert (dns_handle p b s1 = Val r (set_mdns (Some (server e)) (set_pbufs (<[p := rb e]> (<[b := sb e]> (pbufs s1))) s1))) as E1.
  { unfold dns_handle, s1. cbn -[hev_mapped_dns_handle]. rewrite Hd, lookup_insert_ne, Hp, lookup_insert_eq, He by done. done. }
  set (s2 := set_mdns (Some (server e)) (set_pbufs (<[p := rb e]> (<[b := sb e]> (pbufs s1))) s1)) in E1.
  assert (pbufs s2 !! b = Some (sb e)) as Hb2 by (cbn; by rewrite lookup_insert_ne, lookup_insert_eq).
  set (R := dns_replies s ++ (if r <? 0 then [] else [(u_local u, u_remote u, take (Z.to_nat r) (sb e))])).
  assert ((when (negb (r <? 0)) (udp_sendfrom pcb b r)) s2 = Val tt (set_dns_replies R s2)) as E2.
  { unfold R. destruct (r <? 0); cbn [negb when]; [rewrite app_nil_r; by destruct s|].
    unfold udp_sendfrom, pbuf_payload. mstep. rewrite Hb2. cbn [of_option]. mstep. cbn. rewrite Hl.
    unfold udp_find. cbn. rewrite Z.eqb_refl. done. }
  eexists. split.
  { unfold new_id. mstep. fold b. cbn [next_id pbufs set_next_id set_allocs]. fold b.
    change (pbufs (set_next_id (b + 1) (set_allocs al (task_allocs s) s))) with (pbufs s). fold s1.
    unfold truthy. rewrite (proj2 (Z.eqb_neq b 0)) by (unfold b; lia). cbn [negb]. rewrite E1.
    unfold when in E2. rewrite E2. unfold pbuf_free. mstep. cbn [pbufs set_dns_replies]. by rewrite Hb2. }
  split; [|split_and!; [done..|]].
  2: { intros _. exists r, e. split; [by rewrite <- fo_undef|done]. }
  assert (delete b (<[p := rb e]> (<[b := sb e]> (<[b := undef s]> (pbufs s)))) = <[p := rb e]> (pbufs s)) as HB.
  { rewrite insert_insert_eq, delete_insert_ne, delete_insert_id by done. done. }
  cbn. rewrite HB. eapply flows_ok_ext with
    (set_mdns (Some (server e)) (set_pbufs (<[p := rb e]> (pbufs s)) (set_udp_pcbs l s))); try done.
  { cbn. unfold b. lia. }
  apply flows_ok_dns; [|done|by rewrite Hmax']. split; try done; cbn.
  - split; [apply fo_frames|]. intros q. rewrite (proj2 fo_frames), dom_insert_L. apply elem_of_dom_2 in Hp. set_solver.
  - apply map_Forall_insert_2; [|done]. split; [done|]. by rewrite Hq'.
Qed.

Lemma at_fresh (f : Z * udp_pcb → Z * udp_pcb) pcb l :
  pcb ∉ (callbacks l).*1 → (λ e : Z * udp_pcb, if e.1 =? pcb then f e else e) <$> l = l.
Proof.
  intros H. induction l as [|[q u] l IH]; [done|]. cbn in H. apply not_elem_of_cons in H as [Hq H]. rewrite fmap_cons, IH by done.
  cbn. by rewrite (proj2 (Z.eqb_neq q pcb)) by congruence.
Qed.

Lemma dns_recv_ok pcb p u l d req s :
  flows_ok [p] (set_udp_pcbs l s) → udp_pcbs s = (pcb, u) :: l → pcb ∉ (callbacks l).*1 →
  mdns s = Some d → pbufs s !! p = Some req →
  undefined_dns d (dns_recv_handler pcb p) s ∨
  ∃ s', dns_recv_handler pcb p s = Val tt s' ∧ flows_inv s' ∧ udp_pcbs s' = l ∧ objects s' = objects s ∧ mode s' = mode s ∧
    (allocs s = [] → dns_outcome d u req s s').
Proof.
  intros Hs Hl Hn Hd Hreq. unfold undefined_dns, dns_recv_handler.
  destruct (dns_answer_ok _ _ _ _ _ _ _ Hs Hl Hd Hreq) as [[He Hbad]|(s1 & He & Hs1 & Hl1 & Ho1 & Hr1 & Hout)]; [left|right].
  { split; [|done]. unfold mbind, M_bind, gets in *. cbv beta iota in *.
    destruct (pbuf_alloc (undef s) s) as [b s'| |]; [|done..]. by rewrite He. }
  destruct (pbuf_free_ok _ _ _ Hs1) as [Ef Hs2].
  assert (pbuf_free p s1 = Val tt (set_pbufs (delete p (pbufs s1)) s1)) as Ef1.
  { destruct (frames_free _ _ _ _ (fo_frames _ _ Hs1)) as [[bs Hp] _]. unfold pbuf_free. mstep. cbn in Hp. by rewrite Hp. }
  destruct (udp_drop_val pcb u l (set_pbufs (delete p (pbufs s1)) s1)) as [Er _]; [cbn; by rewrite Hl1|done|].
  exists (set_udp_pcbs l (set_pbufs (delete p (pbufs s1)) s1)). split; [|done].
  rewrite <- Er.
  unfold mbind, M_bind, gets in *. cbv beta iota in *.
  destruct (pbuf_alloc (undef s) s) as [b s'| |]; [|done..]. by rewrite He, Ef1.
Qed.

Lemma fresh_pcb extra s : flows_ok extra s → next_id s ∉ (callbacks (udp_pcbs s)).*1.
Proof.
  intros [] ([q r] & Hq & Hin)%list_elem_of_fmap. cbn in Hq. subst q. apply fo_udp in Hin as (x & o & -> & Ho & Hu & Hp).
  destruct (fo_ids x o Ho). specialize (id_pcb Hu). lia.
Qed.

(** A buffer arrives. *)
Lemma flows_ok_buffer s bs :
  flows_inv s → Forall is_byte bs → zlen bs < 65536 →
  flows_ok [next_id s] (set_pbufs (<[next_id s := bs]> (pbufs s)) (set_next_id (next_id s + 1) s)).
Proof.
  intros [] Hb Hz.
  assert (next_id s ∉ dom (pbufs s)) as Hp.
  { rewrite <- (proj2 fo_frames). cbn. intros (x & o & Ho & Hin)%frames_of_owner. destruct (fo_ids x o Ho).
    eapply Forall_forall in id_frames; [|done]. lia. }
  split; try done; cbn.
  - lia.
  - intros y o Ho. eapply ids_mono; [|by apply (fo_ids y o)]. lia.
  - constructor; [lia|done].
  - by apply frames_new.
  - by apply map_Forall_insert_2.
Qed.

(** A new control block as the listener gets it. *)
Definition offered (u : udp_pcb) (al : list bool) (s : tun) : tun :=
  set_udp_pcbs ((next_id s, u) :: udp_pcbs s) (set_next_id (next_id s + 1) (set_allocs al (task_allocs s) s)).

(** The listener makes the control block the DNS server's, drops it, or makes a
    session for it. *)
Lemma udp_recv_handler_ok extra s u al addr port :
  flows_ok extra s → run s = true → locked s = true → Z.of_nat (size (objects s)) < 2147483647 →
  (length al ≤ length (allocs s))%nat →
  let v r := UdpPcb (u_remote u) (u_local u) r in
  hangs (udp_recv_handler cfg (next_id s) addr port) (offered u al s) ∨
  ∃ s', udp_recv_handler cfg (next_id s) addr port (offered u al s) = Val tt s' ∧ mode s' = mode s ∧
    (is_Some (mdns s) ∧ to_mapdns cfg addr port = true ∧ s' = offered (v RecvDns) al s ∨
     flows_ok extra s' ∧ objects s' = objects s ∧ mdns s' = mdns s ∧ task_allocs s' = task_allocs s ∧ (length (allocs s') < length (allocs s))%nat ∨
     ∃ x o, flows_ok extra s' ∧ udp_pcbs s' = (next_id s, v (RecvSession x)) :: udp_pcbs s ∧
       objects s !! x = None ∧ objects s' = <[x := o]> (objects s)).
Proof.
  intros Hs Hrun Hlk Hsz Hal v. unfold hangs. set (pcb := next_id s). pose proof (fresh_pcb _ _ Hs) as Hfresh. fold pcb in Hfresh.
  set (s1 := offered u al s). pose proof Hs as [Hn _ _ _ _ _ _ _ _ _ _].
  assert ((pcb, u_recv u) ∈ callbacks (udp_pcbs s1)) as Hin by left.
  assert (∀ r, recv_at pcb r (udp_pcbs s1) = (pcb, v r) :: udp_pcbs s) as Hat.
  { intros r. unfold recv_at. cbn. by rewrite Z.eqb_refl, (at_fresh (λ e, (e.1, UdpPcb (u_remote e.2) (u_local e.2) r))). }
  unfold udp_recv_handler. rewrite (bind_val (gets run) _ s1 true s1) by (by rewrite <- Hrun). cbn [negb].
  rewrite (bind_val (gets mdns) _ s1 (mdns s) s1) by done.
  destruct (bool_decide (is_Some (mdns s)) && to_mapdns cfg addr port) eqn:Ed.
  { apply andb_true_iff in Ed as [Ed1%bool_decide_eq_true Ed2]. rewrite (udp_recv_val _ _ _ _ Hin), Hat.
    right. eexists. split; [reflexivity|]. split; [done|]. by left. }
  destruct (udp_new_val pcb _ s1 Hin) as (al' & Hal' & [[He Hlt]|He]); erewrite bind_val by exact He.
  { cbn [truthy negb Z.eqb]. change (truthy 0) with false. cbn [negb].
    destruct (udp_drop_val pcb u (udp_pcbs s) (set_allocs al' (task_allocs s1) s1) eq_refl Hfresh) as [_ Er].
    rewrite Er. right. eexists. split; [reflexivity|]. split; [done|]. right. left. split_and!; [|done|done|done|cbn in *; lia].
    eapply flows_ok_ext with s; try done. cbn. lia. }
  rewrite Hat. change (next_id s1) with (pcb + 1) in *.
  assert (∀ y, pcb <= y → truthy y = true) as Htr by (intros y Hy; unfold truthy; by rewrite (proj2 (Z.eqb_neq y 0)) by lia).
  rewrite Htr by lia. cbn [negb].
  match goal with |- context [(hev_task_new ≫= _) ?st] => set (s2 := st) end.
  destruct (task_new_val s2) as [(tl & He2 & _ & Hno)|(tl & He2 & Htl)].
  { left. split; [done|]. erewrite bind_val by exact He2. change (truthy 0) with false. cbn [negb].
    destruct (abandon_waits (pcb + 1) (FlowSession pcb true 0 1 []) (set_allocs (allocs s2) tl s2)) as (s' & E & Hs');
      [cbn; by rewrite lookup_insert_eq|done..|]. by exists s'. }
  right. erewrite bind_val by exact He2.
  change (next_id s2) with (pcb + 1 + 1). rewrite Htr by lia. cbn [negb].
  set (o := FlowSession pcb true (pcb + 1 + 1) 1 []).
  destruct (flows_fresh _ _ (pcb + 1) Hs ltac:(lia)) as [Hx _].
  destruct (start_ok extra s pcb true al' tl (tcp_pcbs s) ((pcb, v (RecvSession (pcb + 1))) :: udp_pcbs s) (pcb + 1) (pcb + 1 + 1)
    (set_tasks (<[pcb + 1 + 1 := 0]> (tasks s2)) (set_next_id (pcb + 1 + 1 + 1) (set_allocs (allocs s2) tl s2))))
    as (s3 & He3 & Hs3 & Ho3 & Hr3 & Hu3 & _); try done; try lia.
  - by apply tcp_add_udp; [apply Hs|..].
  - by apply (udp_add _ _ (pcb + 1) o pcb); [apply Hs|..].
  - exists s3. split; [done|]. split; [done|]. right. right. by exists (pcb + 1), o.
Qed.

(** A new control block that is the DNS server's answers the datagram and is gone. *)
Lemma udp_input_dns fuel src dst p al d req s :
  flows_ok [p] s → mdns s = Some d → pbufs s !! p = Some req →
  let s1 := offered (UdpPcb src (IpAddr (replicate 16 0) IPADDR_TYPE_ANY, 0) RecvDns) al s in
  undefined_dns d (udp_input cfg (S fuel) src dst p) s1 ∨
  ∃ s', udp_input cfg (S fuel) src dst p s1 = Val tt s' ∧
    flows_inv s' ∧ udp_pcbs s' = udp_pcbs s ∧ objects s' = objects s ∧ mode s' = mode s ∧
    (al = [] → dns_outcome d (UdpPcb src dst RecvDns) req s s').
Proof.
  intros Hs Hd Hp s1. unfold undefined_dns. cbn [udp_input]. unfold s1, offered.
  erewrite bind_val by reflexivity. unfold udp_match. cbn [List.find udp_pcbs set_udp_pcbs snd u_remote].
  rewrite bool_decide_eq_true_2 by done. erewrite bind_val by reflexivity. cbn [udp_deliver u_recv].
  match goal with |- context [dns_recv_handler _ _ ?st] =>
    destruct (dns_recv_ok (next_id s) p (UdpPcb src dst RecvDns) (udp_pcbs s) d req st) as [[Ed Hbad]|(s' & Ed & Hs' & Hu & Ho & Hr & Hout)] end;
    [..|by left|right; by exists s'].
  - eapply flows_ok_ext with s; try done. cbn. lia.
  - cbn. rewrite Z.eqb_refl. by rewrite (at_fresh (λ e, (e.1, UdpPcb src dst RecvDns))) by (by eapply fresh_pcb).
  - by eapply fresh_pcb.
  - done.
  - done.
Qed.

(** A datagram is kept by a session, answered by the DNS server, or dropped: unless a
    task or the copy of a name cannot be had. *)
Lemma udp_input_ok fuel src dst p s :
  flows_ok [p] s → run s = true → locked s = true → Z.of_nat (size (objects s)) < 2147483647 →
  (attempts s ≤ fuel)%nat →
  hangs (udp_input cfg fuel src dst p) s ∨
  (∃ d, mdns s = Some d ∧ to_mapdns cfg dst.1 dst.2 = true ∧ undefined_dns d (udp_input cfg fuel src dst p) s) ∨
  ∃ s', udp_input cfg fuel src dst p s = Val tt s' ∧ flows_inv s' ∧ mode s' = mode s ∧
    (dom (objects s') = dom (objects s) ∨ ∃ x, dom (objects s') = {[x]} ∪ dom (objects s)).
Proof.
  revert s. unfold attempts. induction fuel as [|fuel IH]; intros s Hs Hrun Hlk Hsz Hf; [lia|].
  destruct (udp_match src (udp_pcbs s)) as [e|] eqn:Em.
  { destruct (udp_input_known fuel src dst p e s Hs Em) as (s' & He & Hs' & Hd & Hr). right. right. exists s'.
    split_and!; [done|done|done|by left]. }
  unfold hangs, undefined_dns. cbn [udp_input]. rewrite (bind_val (gets udp_pcbs) _ s (udp_pcbs s) s), Em by done.
  destruct (for_us dst.1).
  { destruct (pbuf_free_ok _ _ _ Hs) as [Ef Hok]. right. right. eexists. split; [exact Ef|]. split_and!; [done|done|by left]. }
  destruct (alloc_val s) as (b & al & Ea & Hal & _). erewrite bind_val by exact Ea.
  assert (flows_ok [p] (set_allocs al (task_allocs s) s)) as Hs1 by (by eapply flows_ok_ext with s).
  destruct b; cbn [negb].
  2: { destruct (pbuf_free_ok _ _ _ Hs1) as [Ef Hok]. right. right. eexists. split; [exact Ef|]. split_and!; [done|done|by left]. }
  erewrite bind_val by reflexivity. erewrite bind_val by reflexivity.
  destruct (udp_recv_handler_ok [p] s (UdpPcb src (IpAddr (replicate 16 0) IPADDR_TYPE_ANY, 0) RecvNone) al dst.1 dst.2
    Hs Hrun Hlk Hsz Hal) as [(Hno & s' & E & Hl)|(s2 & He & Hr2 & Hcase)]; cbn [u_remote u_local] in *.
  { left. split; [done|]. exists s'. split; [by apply bind_waits|done]. }
  erewrite bind_val by exact He.
  destruct Hcase as [(Hd & Hdst & ->)|[(Hs2 & Ho2 & Hd2 & Ht2 & Hb2)|(x & o & Hs2 & Hu2 & Hx & Ho2)]].
  - destruct fuel as [|fuel]; [lia|]. destruct Hd as [d Hd]. right.
    assert (is_Some (pbufs s !! p)) as [req Hp] by (apply elem_of_dom, (fo_frames _ _ Hs); by left).
    destruct (udp_input_dns fuel src dst p al d req s Hs Hd Hp) as [Hbad|(s' & Ed & Hs' & _ & Ho & Hr & _)];
      [left; by exists d|right].
    exists s'. split; [exact Ed|]. split_and!; [done|done|]. left. by rewrite Ho.
  - rewrite <- Ho2, <- Hr2, <- Ht2, <- Hd2. injection Hr2 as Er2 El2.
    apply IH; [done|by rewrite Er2|by rewrite El2|by rewrite Ho2|lia].
  - destruct fuel as [|fuel]; [lia|]. right. right.
    destruct (udp_input_known fuel src dst p (next_id s, UdpPcb src (IpAddr (replicate 16 0) IPADDR_TYPE_ANY, 0) (RecvSession x)) s2 Hs2)
      as (s' & He' & Hs' & Hd & Hr).
    + rewrite Hu2. unfold udp_match. cbn. by rewrite bool_decide_eq_true_2.
    + exists s'. split_and!; [done|done|congruence|]. right. exists x. by rewrite Hd, Ho2, dom_insert_L.
Qed.
End Handlers.
