(* ===== verification/FlowsReach.v ===== *)
(** * FlowsReach: the tunnel from its start to its end

    In every reachable state each connection belongs to one session, each session is
    on the tunnel's list and has one task, and every packet buffer waits in one
    session; nothing is used after its release, and after a stop nothing is left. What
    happens without memory is here too. *)
From S2P Require Import Prelude Bytes HevList MappedDNS LRU DNSCache DNSHandle LwipAddr Config ConfigSpec SessionSet Flows FlowsOwn FlowsSpec.

(** ** Reachable states *)

Section Reachable.
Context (cfg : config).

(** What the rest of lwIP and the tasks guarantee for an event: a new connection has
    an address of its own, only what exists is reset, goes on or ends, datagrams come
    while the tunnel runs and fit into a packet, and sessions can be counted. *)
Definition flow_enabled (s : tun) (e : flow_event) : Prop :=
  match e with
  | TcpEstablished pcb =>
      pcb ≠ 0 ∧ tcp_pcbs s !! pcb = None ∧ Z.of_nat (size (objects s)) < 2147483647
  | TcpReset pcb => is_Some (tcp_pcbs s !! pcb)
  | Datagram _ _ bs =>
      run s = true ∧ Forall is_byte bs ∧ zlen bs < 65536 ∧ Z.of_nat (size (objects s)) < 2147483647
  | Forward self | SessionEnd self => is_Some (objects s !! self)
  | Stop => True
  end.

(** An event that may need a session's task, when there is no memory for it. *)
Definition lacks_task (s : tun) (e : flow_event) : Prop :=
  match e with
  | TcpEstablished _ | Datagram _ _ _ => hd true (task_allocs s) = false
  | _ => False
  end.

(** A DNS request while the copy of a name will fail. *)
Definition lacks_name (s : tun) (e : flow_event) : Prop :=
  match e with
  | Datagram _ dst _ => to_mapdns cfg dst.1 dst.2 = true ∧ ∃ d, mdns s = Some d ∧ ¬ strdup_ok (heap d)
  | _ => False
  end.

(** The tunnel before its first packet. *)
Definition flow_start (d : option dns) (al tl : list bool) (n : Z) (u : bytes) : tun :=
  Tun true ∅ [] ∅ ∅ (Sessions (ListMem 0 0 ∅) 0 ∅ []) d ∅ [] al tl n u false false.

Inductive flow_reachable : tun → Prop :=
  | reach_start d al tl n u :
      (∀ d', d = Some d' → (∃ l, dns_inv d' l) ∧ 0 < MappedDNS.max d') → 0 < n → zlen u = 1500 →
      flow_reachable (flow_start d al tl n u)
  | reach_event s e s' :
      flow_reachable s → flow_enabled s e → flow_event_run cfg e s = Val tt s' → flow_reachable s'.

Lemma flow_start_ok d al tl n u :
  (∀ d', d = Some d' → (∃ l, dns_inv d' l) ∧ 0 < MappedDNS.max d') → 0 < n → zlen u = 1500 →
  flows_inv (flow_start d al tl n u).
Proof.
  intros Hd Hn Hu. split; try done; cbn.
  - exists []. split; [|set_solver]. split; [split; try done|by rewrite !dom_empty_L..]. by repeat constructor.
  - intros p x. rewrite lookup_empty. split; [done|]. intros (_ & o & Ho & _). by rewrite lookup_empty in Ho.
  - split; [constructor|]. intros p r. cbn. rewrite elem_of_nil. split; [done|]. intros (x & o & _ & Ho & _). by rewrite lookup_empty in Ho.
  - intros t x. rewrite lookup_empty. split; [done|]. intros (o & Ho & _). by rewrite lookup_empty in Ho.
  - split; [constructor|]. intros p. by rewrite dom_empty_L, elem_of_nil, elem_of_empty.
Qed.

Lemma lwip_val m s s' :
  locked s = false → m (set_locked true s) = Val tt s' → lwip m s = Val tt (set_locked false s').
Proof. intros Hl He. unfold lwip. erewrite bind_val by by apply lock_val. by erewrite bind_val by exact He. Qed.

Lemma lwip_waits m s s' :
  locked s = false → m (set_locked true s) = Blocked s' → lwip m s = Blocked s'.
Proof. intros Hl He. unfold lwip. erewrite bind_val by by apply lock_val. by apply bind_waits. Qed.

Lemma lwip_stuck m s : locked s = false → m (set_locked true s) = Stuck → lwip m s = Stuck.
Proof. intros Hl He. unfold lwip. erewrite bind_val by by apply lock_val. unfold mbind, M_bind. by rewrite He. Qed.

(** What an event does: it may lack a task, or a name, or it runs to its end. *)
Lemma flow_event_ok s e :
  flows_inv s → locked s = false → flow_enabled s e →
  (lacks_task s e ∧ ∃ s', flow_event_run cfg e s = Blocked s' ∧ locked s' = true) ∨
  (lacks_name s e ∧ flow_event_run cfg e s = Stuck) ∨
  ∃ s', flow_event_run cfg e s = Val tt s' ∧ flows_inv s' ∧ locked s' = false.
Proof.
  intros Hs Hlk He. assert (flows_inv (set_locked true s)) as Hs1 by (by eapply flows_ok_ext with s).
  assert (∀ s2, flows_inv s2 → flows_inv (set_locked false s2)) as Hun by (intros s2 H; by eapply flows_ok_ext with s2).
  destruct e as [pcb|pcb|src dst bs|x|x|]; cbn [flow_enabled flow_event_run] in *.
  - destruct He as (Hp & Hn & Hz).
    destruct (tcp_established_ok cfg pcb _ Hs1 eq_refl Hp Hn Hz) as [(Hno & s' & E & Hl)|(s' & E & ? & _)].
    { left. split; [done|]. exists s'. split; [by apply lwip_waits|done]. }
    right. right. eexists. split; [by apply lwip_val|]. auto.
  - right. right. destruct He as [x Hx]. destruct (tcp_reset_ok pcb x _ Hs1 Hx) as (s' & ? & ? & _). eexists. split; [by apply lwip_val|]. auto.
  - destruct He as (Hr & Hb & Hz & Hsz).
    rewrite (bind_val (gets attempts) _ s (attempts s) s) by done.
    destruct (udp_input_ok cfg (attempts s) src dst (next_id s)
      (set_pbufs (<[next_id s := bs]> (pbufs s)) (set_next_id (next_id s + 1) (set_locked true s))))
      as [(Hno & s' & E & Hl)|[(d & Hd & Hdst & E & Hbad)|(s' & E & ? & _)]];
      [by apply (flows_ok_buffer (set_locked true s))|done..| | |].
    + left. split; [done|]. exists s'. split; [by apply lwip_waits|done].
    + right. left. split; [split; [done|by exists d]|by apply lwip_stuck].
    + right. right. eexists. split; [by apply lwip_val|]. auto.
  - right. right. destruct (session_forward_ok x s Hs He) as (s' & ? & ? & _ & Hm). exists s'. split; [done|]. split; [done|]. by injection Hm as _ ->.
  - right. right. destruct He as [o Ho]. destruct (session_task_end_ok x o s Hs Ho Hlk) as (s' & ? & ? & _ & Hm).
    exists s'. split; [done|]. split; [done|]. by injection Hm as _ ->.
  - right. right. destruct (event_task_stop_ok s Hs) as (s' & ? & ? & _ & Hm & _). exists s'. split; [done|]. split; [done|]. by injection Hm as _ ->.
Qed.

Lemma flow_reachable_ok s : flow_reachable s → flows_inv s ∧ locked s = false.
Proof.
  induction 1 as [d al tl n u Hd Hn Hu|s e s' Hs [IH Hlk] He Hr]; [split; [by apply flow_start_ok|done]|].
  destruct (flow_event_ok s e IH Hlk He) as [(_ & s2 & E & _)|[[_ E]|(s2 & E & Hs2)]]; congruence.
Qed.

(** Without sessions nothing else is left. *)
Lemma flows_empty s :
  flows_inv s → objects s = ∅ → tcp_pcbs s = ∅ ∧ udp_pcbs s = [] ∧ tasks s = ∅ ∧ pbufs s = ∅.
Proof.
  intros [] Ho. rewrite Ho in *. split_and!.
  - apply map_eq. intros p. rewrite lookup_empty. destruct (tcp_pcbs s !! p) as [x|] eqn:E; [|done].
    apply fo_tcp in E as (_ & o & E & _). by rewrite lookup_empty in E.
  - destruct (udp_pcbs s) as [|[p u] l]; [done|]. assert ((p, u_recv u) ∈ callbacks ((p, u) :: l)) as E by left.
    apply fo_udp in E as (x & o & _ & E & _). by rewrite lookup_empty in E.
  - apply map_eq. intros p. rewrite lookup_empty. destruct (tasks s !! p) as [x|] eqn:E; [|done].
    apply fo_tasks in E as (o & E & _). by rewrite lookup_empty in E.
  - apply map_eq. intros p. rewrite lookup_empty. destruct (pbufs s !! p) as [x|] eqn:E; [|done].
    apply elem_of_dom_2, fo_frames in E. cbn in E. by apply elem_of_nil in E.
Qed.
End Reachable.

Definition flow_events_run (cfg : config) (es : list flow_event) : M tun unit :=
  foldr (λ e m, flow_event_run cfg e;; m) (mret tt) es.

(** Nothing is allocated. *)
Definition all_released (s : tun) : Prop := tcp_pcbs s = ∅ ∧ udp_pcbs s = [] ∧ objects s = ∅ ∧ tasks s = ∅ ∧ pbufs s = ∅.

(** The end of all the sessions, in any order. *)
Lemma sessions_end cfg l s :
  flows_inv s → locked s = false → NoDup l → (∀ x, x ∈ l ↔ x ∈ dom (objects s)) →
  ∃ s', flow_events_run cfg (SessionEnd <$> l) s = Val tt s' ∧ all_released s'.
Proof.
  revert s. induction l as [|x l IH]; intros s Hs Hlk Hnd Hl.
  - exists s. split; [done|]. assert (objects s = ∅) as E by (apply (dom_empty_inv_L (D := gset Z)); set_solver).
    destruct (flows_empty s Hs E) as (? & ? & ? & ?). done.
  - apply NoDup_cons in Hnd as [Hx Hnd]. assert (is_Some (objects s !! x)) as [o Ho] by (apply elem_of_dom, Hl; by left).
    destruct (session_task_end_ok x o s Hs Ho Hlk) as (s1 & He & Hs1 & Ho1 & Hm).
    destruct (IH s1 Hs1) as (s' & He' & Hrel); [by injection Hm as _ ->|done| |].
    { intros y. rewrite Ho1, dom_delete_L, elem_of_difference, <- Hl, elem_of_cons, not_elem_of_singleton. set_solver. }
    exists s'. split; [|done]. cbn [fmap list_fmap flow_events_run foldr flow_event_run]. by erewrite bind_val by exact He.
Qed.

(** Tasks that cannot be made. *)
Lemma no_task_val s tl : task_allocs s = false :: tl → hev_task_new s = Val 0 (set_allocs (allocs s) tl s).
Proof. intros Ht. unfold hev_task_new, task_alloc. mstep. by rewrite Ht. Qed.

Lemma alloc_none s : allocs s = [] → alloc s = Val true s.
Proof. unfold alloc. by intros ->. Qed.

Lemma new_session_none pcb udp s : new_session pcb udp s = Val (next_id s) (with_session pcb udp (allocs s) s).
Proof. by destruct s. Qed.

Lemma truthy_pos x : 0 < x → truthy x = true.
Proof. intros H. unfold truthy. by rewrite (proj2 (Z.eqb_neq x 0)) by lia. Qed.

Lemma accept_waits cfg pcb tl s :
  run s = true → allocs s = [] → task_allocs s = false :: tl → 0 < next_id s → locked s = true →
  tcp_pcbs s !! pcb = Some 0 → ∃ s', tcp_accept_handler cfg pcb ERR_OK s = Blocked s' ∧ locked s' = true.
Proof.
  intros Hrun Hal Htl Hn Hl Hp. unfold tcp_accept_handler. cbn [Z.eqb ERR_OK negb].
  rewrite (bind_val (gets run) _ s true s) by (by rewrite <- Hrun). cbn [negb].
  unfold hev_socks5_session_tcp_new. rewrite bind_assoc.
  rewrite (bind_val _ _ _ _ _ (alloc_none s Hal)). cbn [negb]. rewrite bind_assoc, (bind_val _ _ _ _ _ (alloc_none s Hal)). cbn [negb].
  rewrite bind_assoc, (bind_val _ _ _ _ _ (new_session_none pcb false s)).
  set (s1 := with_session pcb false (allocs s) s). set (s2 := set_tcp_pcbs (<[pcb := next_id s]> (tcp_pcbs s)) s1).
  assert (tcp_arg pcb (next_id s) s1 = Val tt s2) as Ea by (unfold tcp_arg; mstep; cbn; by rewrite Hp).
  rewrite bind_assoc, (bind_val _ _ _ _ _ Ea), (bind_val (mret (next_id s)) _ s2 (next_id s) s2) by done.
  rewrite truthy_pos by done. cbn [negb].
  rewrite (bind_val _ _ _ _ _ (no_task_val s2 tl Htl)). change (truthy 0) with false. cbn [negb].
  destruct (abandon_waits (next_id s) (FlowSession pcb false 0 1 []) (set_allocs (allocs s2) tl s2)) as (s' & E & Hs'); [|done..|].
  { cbn. by rewrite lookup_insert_eq. }
  exists s'. split; [|done]. by apply bind_waits.
Qed.

Lemma recv_waits cfg u tl addr port s :
  run s = true → allocs s = [] → task_allocs s = false :: tl → 0 < next_id s → locked s = true → to_mapdns cfg addr port = false →
  ∃ s', udp_recv_handler cfg (next_id s) addr port (offered u [] s) = Blocked s' ∧ locked s' = true.
Proof.
  intros Hrun Hal Htl Hn Hl Hd. set (s1 := offered u [] s). unfold udp_recv_handler.
  rewrite (bind_val (gets run) _ s1 true s1) by (by rewrite <- Hrun). cbn [negb].
  rewrite (bind_val (gets mdns) _ s1 (mdns s) s1) by done. rewrite Hd, andb_false_r.
  unfold hev_socks5_session_udp_new. rewrite bind_assoc, (bind_val _ _ _ _ _ (alloc_none s1 eq_refl)). cbn [negb].
  rewrite bind_assoc, (bind_val _ _ _ _ _ (new_session_none (next_id s) true s1)).
  set (s2 := with_session _ _ _ s1). set (x := next_id s1).
  assert ((next_id s, u_recv u) ∈ callbacks (udp_pcbs s2)) as Hin by left.
  rewrite bind_assoc, (bind_val _ _ _ _ _ (udp_recv_val _ (RecvSession x) _ s2 Hin)). set (s3 := set_udp_pcbs _ s2).
  rewrite (bind_val (mret x) _ s3 x s3) by done. rewrite truthy_pos by (unfold x; cbn; lia). cbn [negb].
  rewrite (bind_val _ _ _ _ _ (no_task_val s3 tl Htl)). change (truthy 0) with false. cbn [negb].
  apply (abandon_waits x (FlowSession (next_id s) true 0 1 [])); [|done..]. cbn. by rewrite lookup_insert_eq.
Qed.

(** A round of [udp_input] without a control block for the datagram. *)
Definition fresh_pcb_for (src : bytes * Z) : udp_pcb :=
  UdpPcb src (IpAddr (replicate 16 0) IPADDR_TYPE_ANY, 0) RecvNone.

Lemma udp_input_offer cfg fuel src dst p al s :
  udp_match src (udp_pcbs s) = None → for_us dst.1 = false → alloc s = Val true (set_allocs al (task_allocs s) s) →
  udp_input cfg (S fuel) src dst p s =
    (udp_recv_handler cfg (next_id s) dst.1 dst.2;; udp_input cfg fuel src dst p) (offered (fresh_pcb_for src) al s).
Proof.
  intros Hm Hu Ha. cbn [udp_input]. rewrite (bind_val (gets udp_pcbs) _ s (udp_pcbs s) s), Hm, Hu by done.
  by rewrite (bind_val _ _ _ _ _ Ha).
Qed.

Lemma recv_dns_val cfg u al addr port s :
  next_id s ∉ (callbacks (udp_pcbs s)).*1 → run s = true → is_Some (mdns s) → to_mapdns cfg addr port = true →
  udp_recv_handler cfg (next_id s) addr port (offered u al s) =
    Val tt (offered (UdpPcb (u_remote u) (u_local u) RecvDns) al s).
Proof.
  intros Hf Hrun Hd Hm. set (s1 := offered u al s). unfold udp_recv_handler.
  rewrite (bind_val (gets run) _ s1 true s1) by (by rewrite <- Hrun). cbn [negb].
  rewrite (bind_val (gets mdns) _ s1 (mdns s) s1), Hm, bool_decide_eq_true_2 by done. cbn [andb].
  rewrite (udp_recv_val _ RecvDns (u_recv u)) by left. unfold recv_at. cbn. rewrite Z.eqb_refl.
  by rewrite (at_fresh (λ e, (e.1, UdpPcb (u_remote e.2) (u_local e.2) RecvDns))).
Qed.

(** An attempt that fails leaves things as they were. *)
Lemma refused_once cfg u al addr port s :
  next_id s ∉ (callbacks (udp_pcbs s)).*1 → to_mapdns cfg addr port = false →
  udp_recv_handler cfg (next_id s) addr port (offered u (if run s then false :: al else al) s) =
    Val tt (set_next_id (next_id s + 1) (set_allocs al (task_allocs s) s)).
Proof.
  intros Hf Hd. set (s1 := offered _ _ s). unfold udp_recv_handler.
  rewrite (bind_val (gets run) _ s1 (run s) s1) by done.
  assert (∀ s2, udp_pcbs s2 = udp_pcbs s1 → udp_remove (next_id s) s2 = Val tt (set_udp_pcbs (udp_pcbs s) s2)) as Hrm.
  { intros s2 H2. by apply (udp_drop_val _ u). }
  destruct (run s) eqn:Er; cbn [negb]; [|by rewrite Hrm].
  rewrite (bind_val (gets mdns) _ s1 (mdns s) s1), Hd, andb_false_r by done.
  unfold hev_socks5_session_udp_new. rewrite bind_assoc.
  rewrite (bind_val alloc _ s1 false (set_allocs al (task_allocs s) s1)) by done. cbn [negb].
  rewrite (bind_val (mret 0) _ _ 0 (set_allocs al (task_allocs s) s1)) by done. change (truthy 0) with false. cbn [negb].
  by rewrite Hrm.
Qed.

Section Properties.
Context (cfg : config).


(** C30: stopping tells every session: its timeout is 0 and its task is woken; when
    their tasks have ended, in whatever order, nothing is left of the sessions, their
    tasks, connections, and buffers. *)
Theorem shutdown_releases s l :
  flow_reachable cfg s → NoDup l → (∀ x, x ∈ l ↔ x ∈ dom (objects s)) →
  ∃ s1 s2, flow_event_run cfg Stop s = Val tt s1 ∧ run s1 = false ∧
    (∀ x, x ∈ l → SessionSet.timeouts (sset s1) !! x = Some 0 ∧ x ∈ wakeups (sset s1)) ∧
    flow_events_run cfg (SessionEnd <$> l) s1 = Val tt s2 ∧ all_released s2.
Proof.
  intros Hr Hnd Hl. destruct (flow_reachable_ok cfg s Hr) as [Hs Hlk].
  destruct (event_task_stop_ok s Hs) as (s1 & He & Hs1 & Ho & Hm & Hto). injection Hm as Hrun Hl1.
  destruct (sessions_end cfg l s1 Hs1) as (s2 & He2 & Hrel); [congruence|done|by rewrite Ho|].
  exists s1, s2. split_and!; try done. intros x Hx. by apply Hto, Hl.
Qed.

(** C32: when there is no memory for the task of a new session, the handler's call that
    releases the session waits for lwIP's mutex, which its caller has: the task that
    reads the tunnel waits forever, and the mutex stays taken. (lwIP drops datagrams for
    the interface itself, and the DNS server answers its own.) *)
Theorem no_task_waits_forever s tl e :
  flow_reachable cfg s → run s = true → allocs s = [] → task_allocs s = false :: tl →
  match e with
  | TcpEstablished pcb => True
  | Datagram src dst bs => udp_match src (udp_pcbs s) = None ∧ for_us dst.1 = false ∧ to_mapdns cfg dst.1 dst.2 = false
  | _ => False
  end →
  ∃ s', flow_event_run cfg e s = Blocked s' ∧ locked s' = true.
Proof.
  intros Hr Hrun Hal Htl He. destruct (flow_reachable_ok cfg s Hr) as [Hs Hlk]. pose proof (fo_next _ _ Hs) as Hn.
  assert (∀ m, (∃ s', m (set_locked true s) = Blocked s' ∧ locked s' = true) → ∃ s', lwip m s = Blocked s' ∧ locked s' = true) as Hw.
  { intros m (s' & E & Hl). exists s'. split; [|done]. unfold lwip. rewrite (bind_val _ _ _ _ _ (lock_val s Hlk)). by apply bind_waits. }
  destruct e as [pcb| |src dst bs| | |]; try done; cbn [flow_event_run].
  - apply Hw. unfold tcp_established. erewrite bind_val by reflexivity.
    destruct (accept_waits cfg pcb tl (set_tcp_pcbs (<[pcb := 0]> (tcp_pcbs s)) (set_locked true s))) as (s' & E & Hl); try done.
    { cbn. by rewrite lookup_insert_eq. }
    exists s'. split; [|done]. by apply bind_waits.
  - destruct He as (Hm & Hus & Hd). rewrite (bind_val (gets attempts) _ s 2%nat s) by (unfold gets, attempts; by rewrite Hal).
    apply Hw. unfold datagram. do 2 (erewrite bind_val by reflexivity). set (p := next_id (set_locked true s)).
    set (s1 := set_pbufs _ _).
    rewrite (udp_input_offer cfg 1 src dst p [] s1 Hm Hus) by (rewrite alloc_none by done; unfold set_allocs; by rewrite <- Hal).
    destruct (recv_waits cfg (fresh_pcb_for src) tl dst.1 dst.2 s1) as (s' & E & Hl); [done|done|done|cbn; lia|done|done|].
    exists s'. split; [|done]. by apply bind_waits.
Qed.

(** a datagram whose session cannot be made is offered again, by the [goto again]
    of lwIP, for as long as that fails: after any number of failures the search is
    where it was, with the same datagram and no attempt less to come. *)
Theorem refused_datagram_offered_again s src dst p n fuel al :
  flows_ok [p] s → udp_match src (udp_pcbs s) = None → for_us dst.1 = false → to_mapdns cfg dst.1 dst.2 = false →
  allocs s = mjoin (replicate n (if run s then [true; false] else [true])) ++ al →
  udp_input cfg (n + fuel) src dst p s =
    udp_input cfg fuel src dst p (set_next_id (next_id s + Z.of_nat n) (set_allocs al (task_allocs s) s)).
Proof.
  revert s. induction n as [|n IH]; intros s Hs Hm Hus Hd Hal.
  { cbn in Hal. subst al. rewrite Z.add_0_r. by destruct s. }
  set (al' := mjoin (replicate n (if run s then [true; false] else [true])) ++ al) in *.
  assert (allocs s = true :: if run s then false :: al' else al') as Hal'.
  { rewrite Hal. unfold al'. by destruct (run s). }
  cbn [Nat.add]. rewrite (udp_input_offer cfg (n + fuel) src dst p (if run s then false :: al' else al') s Hm Hus)
    by (unfold alloc; by rewrite Hal').
  pose proof (refused_once cfg (fresh_pcb_for src) al' dst.1 dst.2 s (fresh_pcb _ _ Hs) Hd) as E.
  rewrite (bind_val _ _ _ _ _ E), IH; [|by eapply flows_ok_ext with s; try done; cbn; lia|done..].
  f_equal. cbn. unfold set_next_id, set_allocs. f_equal. cbn. lia.
Qed.

End Properties.

(** ** Witnesses

    A tunnel with the settings of the start, and with a DNS server at 198.18.0.2:53. *)
Definition dns_config : config :=
  set_mapdns (MapdnsVars (int_of_bytes [198; 18; 0; 2]) 53 0 0 2) config_start.
Definition app_addr : bytes * Z := ([10; 0; 0; 2], 4000).
Definition dns_addr : ip_addr * Z := (IpAddr ([198; 18; 0; 2] ++ replicate 12 0) IPADDR_TYPE_V4, 53).
Definition web_addr : ip_addr * Z := (IpAddr ([1; 2; 3; 4] ++ replicate 12 0) IPADDR_TYPE_V4, 443).

Definition start_with (d : option dns) (al tl : list bool) : tun := flow_start d al tl 1 (replicate 1500 0).
Definition after (e : flow_event) (s : tun) : tun :=
  match flow_event_run dns_config e s with Val _ s' => s' | _ => s end.

Lemma start_reachable d al tl : d = None ∨ d = Some dns0 → flow_reachable dns_config (start_with d al tl).
Proof.
  intros Hd. apply reach_start; [|done|done]. intros d' ->. destruct Hd as [|[= ->]]; [done|]. split; [|done].
  exists []. exact dns0_inv.
Qed.

Lemma one_connection : flow_reachable dns_config (after (TcpEstablished 7) (start_with None [] [])).
Proof.
  apply reach_event with (start_with None [] []) (TcpEstablished 7); [apply start_reachable; by left| |vm_compute; reflexivity].
  split_and!; done.
Qed.


Lemma shutdown_releases_witness :
  let s := after (TcpEstablished 7) (start_with None [] []) in
  ∃ s1 s2, flow_event_run dns_config Stop s = Val tt s1 ∧ SessionSet.timeouts (sset s1) !! 1 = Some 0 ∧
    flow_events_run dns_config [SessionEnd 1] s1 = Val tt s2 ∧ all_released s2.
Proof.
  intros s. destruct (shutdown_releases dns_config s [1] one_connection) as (s1 & s2 & He & _ & Ht & He2 & Hr).
  - repeat constructor. set_solver.
  - intros x. assert (objects s = {[1 := FlowSession 7 false 2 1 []]}) as -> by (vm_compute; reflexivity).
    rewrite dom_singleton_L. set_solver.
  - exists s1, s2. split; [exact He|]. split; [apply Ht; set_solver|]. split; [exact He2|exact Hr].
Defined.

Lemma no_task_waits_forever_witness :
  ∃ s', flow_event_run dns_config (TcpEstablished 7) (start_with None [] [false]) = Blocked s' ∧ locked s' = true.
Proof.
  apply (no_task_waits_forever dns_config (start_with None [] [false]) [] (TcpEstablished 7)); try reflexivity.
  apply start_reachable. by left.
Defined.

Lemma refused_datagram_offered_again_witness :
  let s := set_pbufs {[1 := [5]]} (set_next_id 2 (start_with None [true; false; true; false] [])) in
  udp_input dns_config 2 app_addr web_addr 1 s =
    udp_input dns_config 0 app_addr web_addr 1 (set_next_id 4 (set_allocs [] [] s)).
Proof.
  apply (refused_datagram_offered_again dns_config (set_pbufs {[1 := [5]]} (set_next_id 2 (start_with None [true; false; true; false] [])))
    app_addr web_addr 1 2 0 []); try reflexivity.
  apply (flows_ok_buffer (start_with None [true; false; true; false] []) [5]).
  - by apply flow_start_ok.
  - repeat constructor; unfold is_byte; lia.
  - reflexivity.
Defined.

