(* ===== verification/TunIO.v ===== *)
(** * TunIO: the tasks that read, write and keep time, src/hev-tunnel.h and
    src/hev-socks5-tunnel.c

    One task reads packets from the device and gives them to lwIP, lwIP writes packets
    to it, and one task calls lwIP's timers. A step is one test of a loop, one system
    call, or one call of lwIP; a task gives up the processor only where it yields, and
    only then [run] can change. What the device, the allocator and lwIP answer is the
    class [Packets]. *)
From S2P Require Import Prelude Bytes.

(** ** The environment *)

(** What the device has for a [read]: a packet, nothing yet, or an error. *)
Inductive dev_read := Packet (b : bytes) | NoPacket | ReadFails (errno : Z).

(** How it takes a packet: whole, not now, or not at all. *)
Inductive dev_write := Written | WouldBlock | WriteFails (errno : Z).

(** The answers to the [n]-th request of each kind; [run_after]: the value of [run]
    when the task goes on after its [n]-th yield; [sessions_at]: whether there are
    sessions after the [n]-th call of the timers. *)
Class Packets := {
  read_at : nat → dev_read;
  write_at : nat → dev_write;
  memory_at : nat → bool;
  accepts_at : nat → bool;
  run_after : nat → Z;
  sessions_at : nat → bool
}.

Inductive lwip_timer := TcpTmr | IpReassTmr | Nd6Tmr | Ip6ReassTmr.

(** How a task waits: for its descriptor or a wake, or for a time. *)
Inductive pause := WaitIO | Sleep (milliseconds : Z).

(** [n_reads] and the like count the requests; [buffers]: those that the task has;
    [passed]: what lwIP was given, and whether it took it; [sent]: the packets that the
    device took; [ticks] and [pauses]: the calls of the timers and the waits. *)
Record tunio := TunIO {
  run : Z; errno : Z; n_reads : nat; n_writes : nat; n_allocs : nat; n_inputs : nat; n_yields : nat;
  buffers : Z; passed : list (bytes * bool); sent : list bytes; ticks : list lwip_timer; pauses : list pause;
  stat_tx_packets : Z; stat_tx_bytes : Z; stat_rx_packets : Z; stat_rx_bytes : Z
}.

Definition set_run v s := TunIO v (errno s) (n_reads s) (n_writes s) (n_allocs s) (n_inputs s) (n_yields s) (buffers s) (passed s) (sent s) (ticks s) (pauses s) (stat_tx_packets s) (stat_tx_bytes s) (stat_rx_packets s) (stat_rx_bytes s).
Definition set_errno v s := TunIO (run s) v (n_reads s) (n_writes s) (n_allocs s) (n_inputs s) (n_yields s) (buffers s) (passed s) (sent s) (ticks s) (pauses s) (stat_tx_packets s) (stat_tx_bytes s) (stat_rx_packets s) (stat_rx_bytes s).
Definition set_n_reads v s := TunIO (run s) (errno s) v (n_writes s) (n_allocs s) (n_inputs s) (n_yields s) (buffers s) (passed s) (sent s) (ticks s) (pauses s) (stat_tx_packets s) (stat_tx_bytes s) (stat_rx_packets s) (stat_rx_bytes s).
Definition set_n_writes v s := TunIO (run s) (errno s) (n_reads s) v (n_allocs s) (n_inputs s) (n_yields s) (buffers s) (passed s) (sent s) (ticks s) (pauses s) (stat_tx_packets s) (stat_tx_bytes s) (stat_rx_packets s) (stat_rx_bytes s).
Definition set_n_allocs v s := TunIO (run s) (errno s) (n_reads s) (n_writes s) v (n_inputs s) (n_yields s) (buffers s) (passed s) (sent s) (ticks s) (pauses s) (stat_tx_packets s) (stat_tx_bytes s) (stat_rx_packets s) (stat_rx_bytes s).
Definition set_n_inputs v s := TunIO (run s) (errno s) (n_reads s) (n_writes s) (n_allocs s) v (n_yields s) (buffers s) (passed s) (sent s) (ticks s) (pauses s) (stat_tx_packets s) (stat_tx_bytes s) (stat_rx_packets s) (stat_rx_bytes s).
Definition set_n_yields v s := TunIO (run s) (errno s) (n_reads s) (n_writes s) (n_allocs s) (n_inputs s) v (buffers s) (passed s) (sent s) (ticks s) (pauses s) (stat_tx_packets s) (stat_tx_bytes s) (stat_rx_packets s) (stat_rx_bytes s).
Definition set_buffers v s := TunIO (run s) (errno s) (n_reads s) (n_writes s) (n_allocs s) (n_inputs s) (n_yields s) v (passed s) (sent s) (ticks s) (pauses s) (stat_tx_packets s) (stat_tx_bytes s) (stat_rx_packets s) (stat_rx_bytes s).
Definition set_passed v s := TunIO (run s) (errno s) (n_reads s) (n_writes s) (n_allocs s) (n_inputs s) (n_yields s) (buffers s) v (sent s) (ticks s) (pauses s) (stat_tx_packets s) (stat_tx_bytes s) (stat_rx_packets s) (stat_rx_bytes s).
Definition set_sent v s := TunIO (run s) (errno s) (n_reads s) (n_writes s) (n_allocs s) (n_inputs s) (n_yields s) (buffers s) (passed s) v (ticks s) (pauses s) (stat_tx_packets s) (stat_tx_bytes s) (stat_rx_packets s) (stat_rx_bytes s).
Definition set_ticks v s := TunIO (run s) (errno s) (n_reads s) (n_writes s) (n_allocs s) (n_inputs s) (n_yields s) (buffers s) (passed s) (sent s) v (pauses s) (stat_tx_packets s) (stat_tx_bytes s) (stat_rx_packets s) (stat_rx_bytes s).
Definition set_pauses v s := TunIO (run s) (errno s) (n_reads s) (n_writes s) (n_allocs s) (n_inputs s) (n_yields s) (buffers s) (passed s) (sent s) (ticks s) v (stat_tx_packets s) (stat_tx_bytes s) (stat_rx_packets s) (stat_rx_bytes s).
Definition set_stat_tx v w s := TunIO (run s) (errno s) (n_reads s) (n_writes s) (n_allocs s) (n_inputs s) (n_yields s) (buffers s) (passed s) (sent s) (ticks s) (pauses s) v w (stat_rx_packets s) (stat_rx_bytes s).
Definition set_stat_rx v w s := TunIO (run s) (errno s) (n_reads s) (n_writes s) (n_allocs s) (n_inputs s) (n_yields s) (buffers s) (passed s) (sent s) (ticks s) (pauses s) (stat_tx_packets s) (stat_tx_bytes s) v w.

Definition EAGAIN : Z := 11.

Section TunIO.
Context `{Packets}.

(** ** Reading *)

(** Other tasks run until this one is woken. *)
Definition yield (p : pause) : M tunio unit :=
  modify (λ s, set_pauses (pauses s ++ [p]) s);;
  modify (λ s, set_run (run_after (n_yields s)) s);;
  modify (λ s, set_n_yields (S (n_yields s)) s).

Definition task_io_yielder : M tunio Z :=
  yield WaitIO;;
  r ← gets run;
  mret (if truthy r then 0 else -1).

(** [pbuf_alloc (PBUF_RAW, mtu, PBUF_RAM)]: the length is a 16-bit number. *)
Definition pbuf_alloc_raw (mtu : Z) : M tunio (option Z) :=
  n ← gets n_allocs;
  modify (set_n_allocs (S n));;
  if negb (memory_at n) then mret None else
  modify (λ s, set_buffers (buffers s + 1) s);;
  mret (Some (u16 mtu)).
Definition pbuf_free : M tunio unit := modify (λ s, set_buffers (buffers s - 1) s).

(** A [read] of at most [len] bytes; of a longer packet the rest is lost. *)
Definition read (len : Z) : M tunio (Z * bytes) :=
  n ← gets n_reads;
  modify (set_n_reads (S n));;
  match read_at n with
  | Packet b => let b := take (Z.to_nat len) b in mret (zlen b, b)
  | NoPacket => modify (set_errno EAGAIN);; mret (-1, [])
  | ReadFails e => modify (set_errno e);; mret (-1, [])
  end.

(** Where the task is: at the test of [run]; in [hev_tunnel_read], with a buffer of
    [len] bytes; with a packet that was read; and after the loop. *)
Inductive io_pc := IoLoop | IoRead (len : Z) | IoInput (b : bytes) | IoDone.

(** The next step of [hev_task_io_read] in [hev_tunnel_read]. *)
Definition hev_tunnel_read (len : Z) : M tunio io_pc :=
  r ← read len;
  e ← gets errno;
  if (r.1 <? 0) && (e =? EAGAIN) then
    y ← task_io_yielder;
    if truthy y then pbuf_free;; mret IoLoop else mret (IoRead len)
  else if r.1 <=? 0 then pbuf_free;; mret IoLoop
  else mret (IoInput r.2).

(** [netif->input]: a packet that lwIP does not take is freed here. *)
Definition netif_input (b : bytes) : M tunio unit :=
  n ← gets n_inputs;
  modify (set_n_inputs (S n));;
  modify (λ s, set_passed (passed s ++ [(b, accepts_at n)]) s);;
  if accepts_at n then modify (λ s, set_buffers (buffers s - 1) s) else pbuf_free.

(** The next step of [lwip_io_task_entry]. *)
Definition lwip_io_task_entry (mtu : Z) (pc : io_pc) : M tunio io_pc :=
  match pc with
  | IoLoop =>
      r ← gets run;
      if negb (truthy r) then mret IoDone else
      b ← pbuf_alloc_raw mtu;
      match b with None => mret IoLoop | Some len => mret (IoRead len) end
  | IoRead len => hev_tunnel_read len
  | IoInput b =>
      modify (λ s, set_stat_tx (u64 (stat_tx_packets s + 1)) (u64 (stat_tx_bytes s + zlen b)) s);;
      netif_input b;;
      mret IoLoop
  | IoDone => mret IoDone
  end.

(** ** Writing *)

(** A [write] or [writev] of the segments. *)
Definition write (segs : list bytes) : M tunio Z :=
  n ← gets n_writes;
  modify (set_n_writes (S n));;
  match write_at n with
  | Written => modify (λ s, set_sent (sent s ++ [concat segs]) s);; mret (zlen (concat segs))
  | WouldBlock => modify (set_errno EAGAIN);; mret (-1)
  | WriteFails e => modify (set_errno e);; mret (-1)
  end.

(** [p]: the contents of the buffers of the chain, of which there is one at least. *)
Definition hev_tunnel_write (p : list bytes) : M tunio Z :=
  match p with [b] => write [b] | _ => write (take 512 p) end.

Definition ERR_OK : Z := 0.
Definition ERR_WOULDBLOCK : Z := -7.
Definition ERR_IF : Z := -12.

Definition netif_output_handler (p : list bytes) : M tunio Z :=
  s ← hev_tunnel_write p;
  if s <=? 0 then
    e ← gets errno;
    if e =? EAGAIN then mret ERR_WOULDBLOCK else mret ERR_IF
  else
  modify (λ st, set_stat_rx (u64 (stat_rx_packets st + 1)) (u64 (stat_rx_bytes st + s)) st);;
  mret ERR_OK.

(** ** The timers *)

Definition TCP_TMR_INTERVAL : Z := 250.

Definition tick (t : lwip_timer) : M tunio unit := modify (λ s, set_ticks (ticks s ++ [t]) s).

(** One round of [lwip_timer_task_entry]; [i] is its counter, [None] is the end. *)
Definition lwip_timer_task_entry (i : Z) : M tunio (option Z) :=
  r ← gets run;
  if negb (truthy r) then mret None else
  tick TcpTmr;;
  when (Z.land i 3 =? 0) (tick IpReassTmr;; tick Nd6Tmr;; tick Ip6ReassTmr);;
  n ← gets n_yields;
  (if sessions_at n then yield (Sleep TCP_TMR_INTERVAL) else yield WaitIO);;
  mret (Some (u32 (i + 1))).

(** ** The counters *)

(** [hev_socks5_tunnel_stats]; each is asked for or not. *)
Definition hev_socks5_tunnel_stats (tx_packets tx_bytes rx_packets rx_bytes : bool) (s : tunio) : list Z :=
  (if tx_packets then [stat_tx_packets s] else []) ++
  (if tx_bytes then [stat_tx_bytes s] else []) ++
  (if rx_packets then [stat_rx_packets s] else []) ++
  (if rx_bytes then [stat_rx_bytes s] else []).

(** [n] steps of the reading task. *)
Fixpoint io_steps (n : nat) (mtu : Z) (pc : io_pc) : M tunio io_pc :=
  match n with
  | Datatypes.O => mret pc
  | S n => pc ← lwip_io_task_entry mtu pc; io_steps n mtu pc
  end.
End TunIO.
