(* ===== verification/TunIOSpec.v ===== *)
(** * TunIOSpec: every packet once, in order

    What the reading task of [TunIO] has done after any number of steps, what is
    written, when the timers are called, and that a device that fails for good keeps
    the task busy for ever. *)
From S2P Require Import Prelude Bytes TunIO.

Section Spec.
Context `{Packets} (mtu : Z).

(** What the [n]-th request reads, cut to the buffer; nothing when there is no packet. *)
Definition packet_read (n : nat) : option bytes :=
  match read_at n with
  | Packet b => match take (Z.to_nat (u16 mtu)) b with [] => None | b => Some b end
  | _ => None
  end.
Definition packets_read (n m : nat) : list bytes := omap packet_read (seq n (m - n)).
#[local] Arguments packets_read : simpl never.

(** A packet on its way, and a buffer of the task. *)
Definition pending (pc : io_pc) : list bytes := match pc with IoInput b => [b] | _ => [] end.
Definition holding (pc : io_pc) : Z := match pc with IoRead _ | IoInput _ => 1 | _ => 0 end.

(** The request fails, and not because it has to wait. *)
Definition failing (n : nat) : Prop := packet_read n = None ∧ read_at n ≠ NoPacket ∧ read_at n ≠ ReadFails EAGAIN.

(** The length of a buffer that is read into, and that the task reads only while it is
    to run. *)
Definition pc_ok (pc : io_pc) (s : tunio) : Prop :=
  match pc with IoRead len => len = u16 mtu ∧ truthy (run s) = true | IoDone => truthy (run s) = false | _ => True end.

Definition bytes_of (l : list (bytes * bool)) : Z := foldr (λ p n, zlen p.1 + n) 0 l.

Record went_on (pc : io_pc) (s : tunio) (pc' : io_pc) (s' : tunio) : Prop := {
  wo_reads : (n_reads s <= n_reads s')%nat;
  wo_passed : (passed s').*1 ++ pending pc' = ((passed s).*1 ++ pending pc) ++ packets_read (n_reads s) (n_reads s');
  wo_buffers : buffers s' - holding pc' = buffers s - holding pc;
  wo_stats : ∃ l, passed s' = passed s ++ l ∧ stat_tx_packets s' = u64 (stat_tx_packets s + zlen l) ∧
    stat_tx_bytes s' = u64 (stat_tx_bytes s + bytes_of l);
  wo_pc : pc_ok pc' s';
  wo_failing : (∀ n, (n_reads s <= n)%nat → failing n) → truthy (run s) = true → pc' ≠ IoDone ∧ n_yields s' = n_yields s ∧ run s' = run s
}.

Lemma packets_read_trans n1 n2 n3 :
  (n1 <= n2)%nat → (n2 <= n3)%nat → packets_read n1 n3 = packets_read n1 n2 ++ packets_read n2 n3.
Proof.
  intros H1 H2. unfold packets_read. rewrite <- omap_app. f_equal.
  replace (n3 - n1)%nat with ((n2 - n1) + (n3 - n2))%nat by lia. rewrite seq_app. do 2 f_equal. lia.
Qed.

Lemma packets_read_refl n : packets_read n n = [].
Proof. unfold packets_read. by rewrite Nat.sub_diag. Qed.

Lemma packets_read_one n : packets_read n (S n) = match packet_read n with Some b => [b] | None => [] end.
Proof. unfold packets_read. replace (S n - n)%nat with 1%nat by lia. cbn. by destruct (packet_read n). Qed.

Lemma u64_u64 a b : u64 (u64 a + b) = u64 (a + b).
Proof. unfold u64. by rewrite Zplus_mod_idemp_l. Qed.

Lemma bytes_of_app l k : bytes_of (l ++ k) = bytes_of l + bytes_of k.
Proof. induction l as [|p l IH]; cbn [bytes_of foldr app]; [done|]. fold (bytes_of (l ++ k)) (bytes_of l). rewrite IH. lia. Qed.

Lemma went_on_trans pc1 s1 pc2 s2 pc3 s3 : went_on pc1 s1 pc2 s2 → went_on pc2 s2 pc3 s3 → went_on pc1 s1 pc3 s3.
Proof.
  intros [R1 P1 B1 (l1 & L1 & Sp1 & Sb1) _ F1] [R2 P2 B2 (l2 & L2 & Sp2 & Sb2) Pc F2]. split; [lia| |lia| |done|].
  - rewrite P2, P1, (packets_read_trans (n_reads s1) (n_reads s2) (n_reads s3)) by done. by rewrite <- app_assoc.
  - exists (l1 ++ l2). rewrite L2, L1, Sp2, Sp1, Sb2, Sb1, !u64_u64, zlen_app, bytes_of_app, app_assoc. split_and!; [done|f_equal; lia|f_equal; lia].
  - intros Hf Hr. destruct (F1 Hf Hr) as (_ & Y1 & E1). destruct F2 as (? & Y2 & E2); [intros n Hn; apply Hf; lia|by rewrite E1|].
    split_and!; [done|congruence..].
Qed.

Lemma went_on_refl pc s :
  pc_ok pc s → 0 <= stat_tx_packets s < 2 ^ 64 → 0 <= stat_tx_bytes s < 2 ^ 64 → went_on pc s pc s.
Proof.
  intros Hpc Hp Hb. split; [done|by rewrite packets_read_refl, app_nil_r|done| |done|].
  - exists []. unfold u64. cbn. rewrite app_nil_r, !Z.add_0_r, !Z.mod_small by lia. done.
  - intros _ Hr. split; [|done]. intros ->. cbn in Hpc. congruence.
Qed.

(** The counters stay in their range. *)
Definition stats_ok (s : tunio) : Prop := 0 <= stat_tx_packets s < 2 ^ 64 ∧ 0 <= stat_tx_bytes s < 2 ^ 64.

(** A step that passes nothing on and reads at most once. *)
Lemma went_on_quiet pc s pc' s' :
  stats_ok s → passed s' = passed s → stat_tx_packets s' = stat_tx_packets s → stat_tx_bytes s' = stat_tx_bytes s →
  (n_reads s <= n_reads s')%nat → pending pc' = pending pc ++ packets_read (n_reads s) (n_reads s') →
  buffers s' - holding pc' = buffers s - holding pc → pc_ok pc' s' →
  ((∀ n, (n_reads s <= n)%nat → failing n) → truthy (run s) = true → pc' ≠ IoDone ∧ n_yields s' = n_yields s ∧ run s' = run s) →
  went_on pc s pc' s'.
Proof.
  intros [Hp Hb] E1 E2 E3 Hr Hpend Hbuf Hpc Hf. split; try done.
  - by rewrite E1, Hpend, app_assoc.
  - exists []. unfold u64. cbn. rewrite E1, E2, E3, app_nil_r, !Z.add_0_r, !Z.mod_small by lia. done.
Qed.

Lemma take_nonempty (k : nat) (b : bytes) : 0 < zlen (take k b) → ∃ x l, take k b = x :: l.
Proof. destruct (take k b) as [|x l]; [unfold zlen; cbn; lia|by exists x, l]. Qed.

#[local] Ltac quiet := apply went_on_quiet; cbn; rewrite ?packets_read_refl; try done; try lia; auto with lia;
  try (by match goal with Hone : packets_read _ _ = _ |- _ => rewrite Hone end);
  try (by match goal with Hfail : (∀ n, _) → _ |- _ => intros Hf; destruct (Hfail Hf) as (? & ? & ?) end).

Lemma io_step_ok pc s :
  pc_ok pc s → stats_ok s → wp (lwip_io_task_entry mtu pc) (λ pc' s', went_on pc s pc' s' ∧ stats_ok s') never s.
Proof.
  intros Hpc Hst. destruct pc as [|len|b|]; cbn [lwip_io_task_entry].
  - apply wp_bind, wp_gets. destruct (truthy (run s)) eqn:Er; cbn [negb].
    + apply wp_bind, wp_bind, wp_gets, wp_bind, wp_modify. apply wp_if; intros _.
      * apply wp_ret, wp_ret. split; [|done]. quiet.
      * apply wp_bind, wp_modify, wp_ret, wp_ret. split; [|done]. quiet.
    + apply wp_ret. split; [|done]. quiet. intros _ E. congruence.
  - destruct Hpc as [-> Hr]. unfold hev_tunnel_read, read. apply wp_bind, wp_bind, wp_gets, wp_bind, wp_modify.
    pose proof (packets_read_one (n_reads s)) as Hone. unfold packet_read in Hone.
    assert ((∀ n, (n_reads s <= n)%nat → failing n) → failing (n_reads s)) as Hfail by eauto.
    unfold failing at 2, packet_read in Hfail.
    destruct (read_at (n_reads s)) as [b| |e] eqn:Eread.
    + apply wp_ret, wp_bind, wp_gets. set (c := take _ b) in *. cbn [fst snd]. pose proof (zlen_nonneg c).
      rewrite (proj2 (Z.ltb_ge (zlen c) 0)) by done. cbn [andb]. apply wp_if; intros Hc.
      * assert (c = []) as Ec by (apply Z.leb_le in Hc; destruct c; [done|unfold zlen in *; cbn in *; lia]).
        apply wp_bind, wp_modify, wp_ret. split; [|done]. rewrite Ec in Hone. quiet.
      * apply Z.leb_gt in Hc. destruct (take_nonempty (Z.to_nat (u16 mtu)) b) as (x & l & Ec); [done|]. apply wp_ret. split; [|done].
        fold c in Ec. rewrite Ec in *. quiet.
    + apply wp_bind, wp_modify, wp_ret, wp_bind, wp_gets. cbn [fst snd errno set_errno]. change ((-1 <? 0) && (EAGAIN =? EAGAIN)) with true. cbn iota.
      unfold task_io_yielder, yield. apply wp_bind, wp_bind, wp_bind, wp_modify, wp_bind, wp_modify, wp_modify, wp_bind, wp_gets, wp_ret.
      cbn [run set_n_yields set_run]. destruct (truthy (run_after _)) eqn:Ey; cbn [truthy negb Z.eqb].
      * apply wp_ret. split; [|done]. quiet.
      * apply wp_bind, wp_modify, wp_ret. split; [|done]. quiet.
    + apply wp_bind, wp_modify, wp_ret, wp_bind, wp_gets. cbn [fst snd errno set_errno]. change (-1 <? 0) with true. cbn [andb]. apply wp_if; intros He.
      * apply Z.eqb_eq in He as ->. unfold task_io_yielder, yield. apply wp_bind, wp_bind, wp_bind, wp_modify, wp_bind, wp_modify, wp_modify, wp_bind, wp_gets, wp_ret.
        cbn [run set_n_yields set_run]. destruct (truthy (run_after _)) eqn:Ey; cbn [truthy negb Z.eqb].
        -- apply wp_ret. split; [|done]. quiet.
        -- apply wp_bind, wp_modify, wp_ret. split; [|done]. quiet.
      * change (-1 <=? 0) with true. cbn iota. apply wp_bind, wp_modify, wp_ret. split; [|done]. quiet.
  - apply wp_bind, wp_modify. unfold netif_input. apply wp_bind, wp_bind, wp_gets, wp_bind, wp_modify, wp_bind, wp_modify.
    set (ok := accepts_at _). set (s1 := set_passed _ _).
    apply wp_mono with (Q := λ _ s', s' = set_buffers (buffers s1 - 1) s1) (Bl := never); [by destruct ok|intros [] s' ->|done].
    apply wp_ret. split; [|split; cbn; unfold u64; apply Z.mod_pos_bound; lia].
    split; cbn; rewrite ?packets_read_refl, ?app_nil_r; try done.
    + by rewrite fmap_app.
    + lia.
    + exists [(b, ok)]. split_and!; [done..|]. cbn. do 2 f_equal. lia.
  - apply wp_ret. split; [|done]. quiet. intros _ E. cbn in Hpc. congruence.
Qed.

Lemma io_steps_ok n pc s :
  pc_ok pc s → stats_ok s → wp (io_steps n mtu pc) (λ pc' s', went_on pc s pc' s' ∧ stats_ok s') never s.
Proof.
  revert pc s. induction n as [|n IH]; intros pc s Hpc Hst; cbn [io_steps].
  - apply wp_ret. split; [|done]. destruct Hst. by apply went_on_refl.
  - apply wp_bind. eapply wp_mono; [by apply io_step_ok| |done]. intros pc1 s1 [H1 Hs1].
    eapply wp_mono; [apply IH; [apply H1|done]| |done]. intros pc2 s2 [H2 Hs2]. split; [|done]. by eapply went_on_trans.
Qed.

(** With [run] reset the task ends. *)
Lemma io_ends pc s : pc_ok pc s → truthy (run s) = false → ∃ s', io_steps 2 mtu pc s = Val IoDone s'.
Proof.
  intros Hpc Hr. destruct pc as [|len|b|]; cbn [io_steps].
  - exists s. cbn [lwip_io_task_entry]. mstep. by rewrite Hr.
  - destruct Hpc. congruence.
  - cbn [lwip_io_task_entry]. unfold netif_input. mstep. cbn. unfold pbuf_free. destruct (accepts_at _); cbn; unfold mbind, M_bind; cbn; rewrite Hr; by eexists.
  - by exists s.
Qed.

(** ** Writing *)

(** A packet of up to 512 buffers that the device takes is written whole and counted; one
    that it does not take is not counted, and lwIP learns whether to try again. *)
Lemma output_whole p s :
  write_at (n_writes s) = Written → (length p <= 512)%nat → 0 < zlen (concat p) →
  ∃ s', netif_output_handler p s = Val ERR_OK s' ∧ sent s' = sent s ++ [concat p] ∧
    stat_rx_packets s' = u64 (stat_rx_packets s + 1) ∧ stat_rx_bytes s' = u64 (stat_rx_bytes s + zlen (concat p)).
Proof.
  intros Hw Hl Hp. assert (hev_tunnel_write p = write p) as E.
  { unfold hev_tunnel_write. rewrite take_ge by done. by destruct p as [|b [|c p]]. }
  unfold netif_output_handler. rewrite E. unfold write. erewrite bind_val; [|erewrite bind_val by reflexivity; erewrite bind_val by reflexivity; rewrite Hw; reflexivity].
  rewrite (proj2 (Z.leb_gt _ _)) by done. by eexists.
Qed.

Lemma output_refused p s e :
  write_at (n_writes s) = (if bool_decide (e = EAGAIN) then WouldBlock else WriteFails e) →
  ∃ s', netif_output_handler p s = Val (if bool_decide (e = EAGAIN) then ERR_WOULDBLOCK else ERR_IF) s' ∧
    sent s' = sent s ∧ stat_rx_packets s' = stat_rx_packets s ∧ stat_rx_bytes s' = stat_rx_bytes s.
Proof.
  intros Hw. unfold netif_output_handler, hev_tunnel_write.
  assert (∀ q, ∃ s1, write q s = Val (-1) s1 ∧ TunIO.errno s1 = e ∧ sent s1 = sent s ∧ stat_rx_packets s1 = stat_rx_packets s ∧ stat_rx_bytes s1 = stat_rx_bytes s) as Hq.
  { intros q. unfold write. mstep. rewrite Hw. case_bool_decide as He; [rewrite He|]; by eexists. }
  assert (∃ s1, match p with [b] => write [b] | _ => write (take 512 p) end s = Val (-1) s1 ∧ TunIO.errno s1 = e ∧ sent s1 = sent s ∧
    stat_rx_packets s1 = stat_rx_packets s ∧ stat_rx_bytes s1 = stat_rx_bytes s) as (s1 & E & <- & ? & ? & ?) by (destruct p as [|? []]; apply Hq).
  exists s1. erewrite bind_val by exact E. cbn [Z.leb Z.compare]. mstep.
  destruct (Z.eqb_spec (TunIO.errno s1) EAGAIN); case_bool_decide; done.
Qed.

(** ** The timers *)

(** A round calls the timer of TCP, in every fourth round the others, and waits. *)
Lemma timer_round i s :
  0 <= i → truthy (run s) = true →
  ∃ s', lwip_timer_task_entry i s = Val (Some (u32 (i + 1))) s' ∧
    ticks s' = ticks s ++ TcpTmr :: (if i mod 4 =? 0 then [IpReassTmr; Nd6Tmr; Ip6ReassTmr] else []) ∧
    pauses s' = pauses s ++ [if sessions_at (n_yields s) then Sleep TCP_TMR_INTERVAL else WaitIO] ∧
    n_yields s' = S (n_yields s) ∧ run s' = run_after (n_yields s).
Proof.
  intros Hi Hr. unfold lwip_timer_task_entry. erewrite bind_val by reflexivity. rewrite Hr. cbn [negb].
  replace (Z.land i 3) with (i mod 4) by (symmetry; apply (Z.land_ones i 2); lia).
  unfold tick, yield. mstep. destruct (i mod 4 =? 0); cbn; destruct (sessions_at (n_yields s)); cbn; eexists; (split; [reflexivity|]); cbn; rewrite <- ?app_assoc; done.
Qed.
End Spec.

(** C33: The task that reads the device. After any number of its steps, whatever the
    device, the allocator and lwIP answer, and however it is interleaved with others:
    lwIP was given exactly the packets that were read, each once, in order, and cut to
    the MTU as a 16-bit number, but for one that may be on its way; both counters say
    how many packets and bytes that were, modulo 2^64; the task has a buffer exactly
    while it reads or has a packet, and every other was given to lwIP or freed. Once
    [run] is reset it ends within two steps. But a device that fails for good, or that
    has packets while the MTU is a multiple of 65536, keeps it busy: it neither ends nor yields, so no
    other task, the one that would reset [run] included, ever runs again. *)
Theorem device_task_exact `{Packets} (mtu : Z) (n : nat) (s : tunio) (Hstats : stats_ok s) :
  ∃ pc' s', io_steps n mtu IoLoop s = Val pc' s' ∧
    (passed s').*1 ++ pending pc' = (passed s).*1 ++ packets_read mtu (n_reads s) (n_reads s') ∧
    (∃ l, passed s' = passed s ++ l ∧ stat_tx_packets s' = u64 (stat_tx_packets s + zlen l) ∧
      stat_tx_bytes s' = u64 (stat_tx_bytes s + bytes_of l)) ∧
    buffers s' = buffers s + holding pc' ∧
    (truthy (run s') = false → ∃ s'', io_steps 2 mtu pc' s' = Val IoDone s'') ∧
    ((∀ k, (n_reads s <= k)%nat → failing mtu k) → truthy (run s) = true →
      pc' ≠ IoDone ∧ n_yields s' = n_yields s ∧ run s' = run s).
Proof.
  destruct (wp_never_val _ _ _ (io_steps_ok mtu n IoLoop s I Hstats)) as (pc' & s' & E & [] & _).
  exists pc', s'. cbn in wo_passed0, wo_buffers0. rewrite app_nil_r in wo_passed0. split; [done|]. split; [done|]. split; [done|].
  split; [lia|]. split; [|done]. intros Hr. by apply io_ends.
Qed.

(** Two packets, the first too long, and a stop while the task waits for a third. *)
#[local] Instance two_packets : Packets := {|
  read_at n := match n with 0%nat => Packet [1; 2; 3; 4] | 2%nat => Packet [5] | _ => NoPacket end;
  write_at _ := Written; memory_at n := negb (n =? 1)%nat; accepts_at _ := true;
  run_after n := if (n =? 0)%nat then 1 else 0; sessions_at _ := false
|}.
Definition idle_task : tunio := TunIO 1 0 0 0 0 0 0 0 [] [] [] [] 0 0 0 0.

Lemma device_task_exact_witness :
  ∃ s', io_steps 12 3 IoLoop idle_task = Val IoDone s' ∧
    (passed s').*1 = [[1; 2; 3]; [5]] ∧ stat_tx_packets s' = 2 ∧ stat_tx_bytes s' = 4 ∧ buffers s' = 0.
Proof.
  destruct (device_task_exact 3 12 idle_task ltac:(by vm_compute)) as (pc' & s' & E & Hp & (l & Hl & Hsp & Hsb) & Hb & _).
  vm_compute in E. injection E as <- <-. eexists. split; [vm_compute; reflexivity|].
  rewrite Hsp, Hsb, Hb. vm_compute in Hl. subst l. rewrite <- (app_nil_r (_.*1)). split; [exact Hp|]. split_and!; vm_compute; reflexivity.
Defined.
