(* ===== verification/Device.v ===== *)
(** * Device: the TUN device on Linux, src/hev-tunnel-linux.c

    Descriptors of the process are numbers, and a new one is the lowest that is free;
    what the device of the kernel is asked to do is the list of requests. How system
    calls answer is data of the state; what the kernel says about interfaces is the
    class [Interfaces]. *)
From S2P Require Import Prelude Bytes Socks5 CLib.

(** ** The kernel *)

(** What a descriptor stands for; [Other] is one that the engine did not open. *)
Inductive file := TunDevice | InetSocket (family : Z) | Pair | LogFile | PidFile | Other.

Inductive answer := Fine | Fails (errno : Z).

Inductive request :=
  | TUNSETIFF (name : bytes) (flags : Z)
  | SIOCSIFMTU (name : bytes) (mtu : Z)
  | SIOCGIFFLAGS (name : bytes)
  | SIOCSIFFLAGS (name : bytes) (flags : Z)
  | SIOCSIFADDR (name : bytes) (addr : bytes)
  | SIOCSIFNETMASK (name : bytes) (addr : bytes)
  | SIOCGIFINDEX (name : bytes)
  | SIOCSIFADDR6 (index : Z) (addr : bytes) (prefixlen : Z)
  | FIONBIO.

(** [answers]: those of the calls to come, all fine when there are none left;
    [tun_name]: the static variable. *)
Record device := Dev {
  fds : gmap Z file; answers : list answer; requests : list request; errno : Z; tun_name : bytes
}.

Definition set_fds v d := Dev v (answers d) (requests d) (errno d) (tun_name d).
Definition set_answers v d := Dev (fds d) v (requests d) (errno d) (tun_name d).
Definition set_requests v d := Dev (fds d) (answers d) v (errno d) (tun_name d).
Definition set_errno v d := Dev (fds d) (answers d) (requests d) v (tun_name d).
Definition set_tun_name v d := Dev (fds d) (answers d) (requests d) (errno d) v.

(** The name that TUNSETIFF gives, the flags and the number of an interface. *)
Class Interfaces := {
  given_name : bytes → bytes;
  interface_flags : bytes → Z;
  interface_index : bytes → Z
}.

Definition EEXIST : Z := 17.
Definition EBADF : Z := 9.

Definition fail (e : Z) : M device Z := modify (set_errno e);; mret (-1).

Definition syscall : M device Z := λ d,
  match answers d with
  | [] => Val 0 d
  | Fine :: l => Val 0 (set_answers l d)
  | Fails e :: l => Val (-1) (set_errno e (set_answers l d))
  end.

(** The lowest number that is free; one more than there are descriptors is enough. *)
Fixpoint lowest (fuel : nat) (n : Z) (m : gmap Z file) : Z :=
  match fuel with
  | Datatypes.O => n
  | S fuel => if bool_decide (is_Some (m !! n)) then lowest fuel (n + 1) m else n
  end.
Definition new_fd (m : gmap Z file) : Z := lowest (size m) 0 m.

Definition install (f : file) : M device Z :=
  m ← gets fds;
  modify (set_fds (<[new_fd m := f]> m));;
  mret (new_fd m).

(** [open], [socket] and [dup]. *)
Definition open_fd (f : file) : M device Z :=
  res ← syscall;
  if res <? 0 then mret (-1) else install f.

Definition close (fd : Z) : M device unit := m ← gets fds; modify (set_fds (delete fd m)).

Definition ioctl (fd : Z) (r : request) : M device Z :=
  m ← gets fds;
  if bool_decide (is_Some (m !! fd)) then
    modify (λ d, set_requests (requests d ++ [r]) d);;
    syscall
  else fail EBADF.

(** ** The device *)

Definition IFNAMSIZ : Z := 16.
Definition IFF_UP : Z := 1.
Definition IFF_TUN : Z := 1.
Definition IFF_NO_PI : Z := 4096.
Definition IFF_MULTI_QUEUE : Z := 256.

Section Device.
Context `{Interfaces} `{Resolver}.

Definition hev_tunnel_open (name : option bytes) (multi_queue : Z) : M device Z :=
  fd ← open_fd TunDevice;
  if fd <? 0 then mret (-1) else
  let flags := Z.lor IFF_TUN IFF_NO_PI in
  let flags := if truthy multi_queue then Z.lor flags IFF_MULTI_QUEUE else flags in
  let ifr_name := replicate (Z.to_nat IFNAMSIZ) 0 in
  let ifr_name := match name with Some name => strncpy_to ifr_name name (IFNAMSIZ - 1) | None => ifr_name end in
  res ← ioctl fd (TUNSETIFF ifr_name flags);
  if res <? 0 then close fd;; mret res else
  modify (set_tun_name (given_name ifr_name));;
  mret fd.

Definition hev_tunnel_close (fd : Z) : M device unit := close fd.

(** The frame of the calls below: a socket that every path closes. *)
Definition with_socket (family : Z) (body : Z → M device Z) : M device Z :=
  fd ← open_fd (InetSocket family);
  if fd <? 0 then mret (-1) else
  res ← body fd;
  close fd;;
  mret res.

Definition hev_tunnel_set_mtu (mtu : Z) : M device Z :=
  with_socket AF_INET (λ fd,
    name ← gets tun_name;
    ioctl fd (SIOCSIFMTU name mtu)).

Definition hev_tunnel_set_state (state : Z) : M device Z :=
  with_socket AF_INET (λ fd,
    name ← gets tun_name;
    res ← ioctl fd (SIOCGIFFLAGS name);
    if res <? 0 then mret res else
    let flags := interface_flags name in
    let flags := if truthy state then Z.lor flags IFF_UP else Z.land flags (Z.lnot IFF_UP) in
    ioctl fd (SIOCSIFFLAGS name flags)).

(** The mask of a prefix, in network order; shifting by 32 or more is undefined. *)
Definition netmask (prefix : Z) : M device bytes :=
  if (1 <=? prefix) && (prefix <=? 32) then
    let m := u32 (Z.shiftl 4294967295 (32 - prefix)) in
    mret [Z.shiftr m 24; u8 (Z.shiftr m 16); u8 (Z.shiftr m 8); u8 m]
  else stuck.

(** [res ← e] after a failed request: an address or mask that is there already is fine. *)
Definition exists_ok (res : Z) : M device Z :=
  e ← gets errno; mret (if (res <? 0) && (e =? EEXIST) then 0 else res).

Definition hev_tunnel_set_ipv4 (addr : bytes) (prefix : Z) : M device Z :=
  with_socket AF_INET (λ fd,
    name ← gets tun_name;
    match inet_pton AF_INET addr with
    | None => mret 0
    | Some a =>
        res ← ioctl fd (SIOCSIFADDR name a);
        if res <? 0 then mret res else
        mask ← netmask prefix;
        res ← ioctl fd (SIOCSIFNETMASK name mask);
        exists_ok res
    end).

Definition hev_tunnel_set_ipv6 (addr : bytes) (prefix : Z) : M device Z :=
  with_socket AF_INET6 (λ fd,
    name ← gets tun_name;
    res ← ioctl fd (SIOCGIFINDEX name);
    if res <? 0 then mret res else
    match inet_pton AF_INET6 addr with
    | None => mret 0
    | Some a =>
        res ← ioctl fd (SIOCSIFADDR6 (interface_index name) a prefix);
        exists_ok res
    end).
End Device.

(** ** Specifications *)

(** Descriptors are not negative. *)
Definition fds_ok (m : gmap Z file) : Prop := ∀ fd, is_Some (m !! fd) → 0 <= fd.

(** A number below the result is taken. *)
Lemma lowest_spec fuel n m :
  n <= lowest fuel n m ∧ (∀ i, n <= i < lowest fuel n m → is_Some (m !! i)) ∧
  (lowest fuel n m < n + Z.of_nat fuel → m !! lowest fuel n m = None) ∧ lowest fuel n m <= n + Z.of_nat fuel.
Proof.
  revert n. induction fuel as [|fuel IH]; intros n; cbn [lowest]; [split_and!; intros; lia|].
  destruct (bool_decide (is_Some (m !! n))) eqn:E.
  - apply bool_decide_eq_true in E. destruct (IH (n + 1)) as (H1 & H2 & H3 & H4). split_and!; try lia.
    + intros i Hi. destruct (decide (i = n)) as [->|]; [done|apply H2; lia].
    + intros Hl. apply H3. lia.
  - apply bool_decide_eq_false in E. split_and!; try lia. intros _. by apply eq_None_not_Some.
Qed.

Lemma new_fd_is_free m : 0 <= new_fd m ∧ m !! new_fd m = None ∧ ∀ i, 0 <= i < new_fd m → is_Some (m !! i).
Proof.
  unfold new_fd. destruct (lowest_spec (size m) 0 m) as (H1 & H2 & H3 & H4). split_and!; [done| |done].
  destruct (decide (lowest (size m) 0 m < 0 + Z.of_nat (size m))) as [Hlt|Hge]; [auto|].
  assert (lowest (size m) 0 m = Z.of_nat (size m)) as E by lia. rewrite E in *.
  destruct (m !! Z.of_nat (size m)) as [f|] eqn:Ef; [|done]. exfalso.
  assert (list_to_set (seqZ 0 (Z.of_nat (size m) + 1)) ⊆ (dom m : gset Z)) as Hsub.
  { intros i. rewrite elem_of_list_to_set, elem_of_seqZ. intros Hi. apply elem_of_dom.
    destruct (decide (i = Z.of_nat (size m))) as [->|]; [by eexists|]. apply H2. lia. }
  apply subseteq_size in Hsub. rewrite size_list_to_set, length_seqZ, size_dom in Hsub by apply NoDup_seqZ. lia.
Qed.

(** A call that leaves the descriptors and the name of the device alone. *)
Definition untouched (d d' : device) : Prop := fds d' = fds d ∧ tun_name d' = tun_name d.

Lemma untouched_refl d : untouched d d.
Proof. done. Qed.

Lemma wp_syscall Q d :
  (∀ r d', untouched d d' → requests d' = requests d → r = 0 ∨ r = -1 → Q r d') → wp syscall Q never d.
Proof. intros H. unfold wp, syscall. destruct (answers d) as [|[] l]; (apply H; [done|done|auto]). Qed.

Lemma wp_ioctl fd q Q d :
  (∀ r d', untouched d d' → r = 0 ∨ r = -1 → Q r d') → wp (ioctl fd q) Q never d.
Proof.
  intros H. apply wp_bind, wp_gets, wp_if; intros _; [|apply H; [done|auto]].
  apply wp_bind, wp_modify, wp_syscall. intros r d' [? ?] _ ?. by apply H.
Qed.

Lemma wp_open_fd f Q d :
  (∀ d', untouched d d' → Q (-1) d') →
  (∀ fd d', 0 <= fd → fds d !! fd = None → fds d' = <[fd := f]> (fds d) → tun_name d' = tun_name d → Q fd d') →
  wp (open_fd f) Q never d.
Proof.
  intros Hn Hs. apply wp_bind, wp_syscall. intros r d' [Hf Ht] _ [-> | ->]; [|by apply wp_ret, Hn].
  cbn [Z.ltb Z.compare]. apply wp_bind, wp_gets, wp_bind, wp_modify, wp_ret.
  destruct (new_fd_is_free (fds d')) as (? & ? & _). apply Hs; rewrite ?Hf in *; try done; cbn; by rewrite Hf.
Qed.

Section DeviceSpec.
Context `{Interfaces} `{Resolver}.

(** The result of a call: 0, or -1 for an error. *)
Definition quiet (d : device) (r : Z) (d' : device) : Prop := untouched d d' ∧ (r = 0 ∨ r = -1).

Lemma wp_exists_ok r Q d : r = 0 ∨ r = -1 → (∀ r', r' = 0 ∨ r' = -1 → Q r' d) → wp (exists_ok r) Q never d.
Proof. intros Hr HQ. apply wp_bind, wp_gets, wp_ret, HQ. destruct ((r <? 0) && _); auto. Qed.

Lemma with_socket_quiet family body d :
  (∀ fd d1, tun_name d1 = tun_name d → wp (body fd) (quiet d1) never d1) → wp (with_socket family body) (quiet d) never d.
Proof.
  intros Hb. apply wp_bind, wp_open_fd; [intros d' Hd; apply wp_ret; split; auto|].
  intros fd d' Hfd Hfree He Ht. rewrite (proj2 (Z.ltb_ge _ _)) by done. apply wp_bind.
  eapply wp_mono; [by apply Hb| |done]. intros r d2 [[Hf2 Ht2] Hr].
  apply wp_bind, wp_bind, wp_gets, wp_modify, wp_ret. split; [split|done]; cbn.
  - by rewrite Hf2, He, delete_insert_id.
  - congruence.
Qed.

Lemma set_mtu_quiet mtu d : wp (hev_tunnel_set_mtu mtu) (quiet d) never d.
Proof.
  apply with_socket_quiet. intros fd d1 _. apply wp_bind, wp_gets, wp_ioctl. by split.
Qed.

Lemma set_state_quiet state d : wp (hev_tunnel_set_state state) (quiet d) never d.
Proof.
  apply with_socket_quiet. intros fd d1 _. apply wp_bind, wp_gets, wp_bind, wp_ioctl. intros r d2 [? ?] Hr.
  apply wp_if; intros _; [apply wp_ret; by split|]. apply wp_ioctl. intros r2 d3 [? ?] ?. split; [|done]. split; congruence.
Qed.

Lemma set_ipv4_quiet addr prefix d : 1 <= prefix <= 32 → wp (hev_tunnel_set_ipv4 addr prefix) (quiet d) never d.
Proof.
  intros Hp. apply with_socket_quiet. intros fd d1 _. apply wp_bind, wp_gets.
  destruct (inet_pton AF_INET addr) as [a|]; [|by apply wp_ret; split; [|left]].
  apply wp_bind, wp_ioctl. intros r d2 [? ?] Hr. apply wp_if; intros _; [apply wp_ret; by split|].
  apply wp_bind. unfold netmask. rewrite (proj2 (Z.leb_le 1 _)), (proj2 (Z.leb_le prefix _)) by lia. cbn [andb]. apply wp_ret.
  apply wp_bind, wp_ioctl. intros r2 d3 [? ?] Hr2. apply wp_exists_ok; [done|]. intros r3 Hr3. split; [split; congruence|done].
Qed.

Lemma set_ipv6_quiet addr prefix d : wp (hev_tunnel_set_ipv6 addr prefix) (quiet d) never d.
Proof.
  apply with_socket_quiet. intros fd d1 _. apply wp_bind, wp_gets, wp_bind, wp_ioctl. intros r d2 [? ?] Hr.
  apply wp_if; intros _; [apply wp_ret; by split|].
  destruct (inet_pton AF_INET6 addr) as [a|]; [|by apply wp_ret; split; [|left]].
  apply wp_bind, wp_ioctl. intros r2 d3 [? ?] Hr2. apply wp_exists_ok; [done|]. intros r3 Hr3. split; [split; congruence|done].
Qed.

(** Opening the device leaves exactly its descriptor, or nothing. *)
Lemma open_device name mq d :
  wp (hev_tunnel_open name mq) (λ fd d',
    fd = -1 ∧ fds d' = fds d ∨ 0 <= fd ∧ fds d !! fd = None ∧ fds d' = <[fd := TunDevice]> (fds d)) never d.
Proof.
  apply wp_bind, wp_open_fd; [intros d' [Hf _]; apply wp_ret; by left|]. intros fd d1 Hfd Hfree He _.
  rewrite (proj2 (Z.ltb_ge _ _)) by done. apply wp_bind, wp_ioctl. intros r d2 [Hf2 _] Hr.
  apply wp_if; intros Hlt.
  - apply wp_bind, wp_bind, wp_gets, wp_modify, wp_ret. left. split; [destruct Hr as [-> | ->]; done|].
    cbn. by rewrite Hf2, He, delete_insert_id.
  - apply wp_bind, wp_modify, wp_ret. right. split_and!; [done|done|]. cbn. congruence.
Qed.

(** ** When nothing fails *)

Definition ask (l : list request) (d : device) : device := set_requests (requests d ++ l) d.

Lemma ask_ask l l' d : ask l' (ask l d) = ask (l ++ l') d.
Proof. unfold ask, set_requests. cbn. by rewrite app_assoc. Qed.

Lemma ioctl_val fd q d : answers d = [] → is_Some (fds d !! fd) → ioctl fd q d = Val 0 (ask [q] d).
Proof.
  intros Ha Hf. unfold ioctl. mstep. rewrite bool_decide_eq_true_2 by done. unfold syscall. cbn. by rewrite Ha.
Qed.

Lemma open_fd_val f d : answers d = [] → open_fd f d = Val (new_fd (fds d)) (set_fds (<[new_fd (fds d) := f]> (fds d)) d).
Proof. intros Ha. unfold open_fd, syscall. mstep. by rewrite Ha. Qed.

Lemma with_socket_val family body l d :
  answers d = [] →
  (∀ fd d1, answers d1 = [] → is_Some (fds d1 !! fd) → tun_name d1 = tun_name d → body fd d1 = Val 0 (ask l d1)) →
  with_socket family body d = Val 0 (ask l d).
Proof.
  intros Ha Hb. destruct (new_fd_is_free (fds d)) as (Hpos & Hfree & _). unfold with_socket.
  erewrite bind_val by by apply open_fd_val. rewrite (proj2 (Z.ltb_ge _ _)) by done.
  erewrite bind_val by (apply Hb; [done|cbn; rewrite lookup_insert_eq; by eexists|done]).
  unfold close, ask. mstep. cbn. rewrite delete_insert_id by done. by destruct d.
Qed.

Lemma set_mtu_val mtu d : answers d = [] → hev_tunnel_set_mtu mtu d = Val 0 (ask [SIOCSIFMTU (tun_name d) mtu] d).
Proof.
  intros Ha. apply with_socket_val; [done|]. intros fd d1 Ha1 Hfd Hn. erewrite bind_val by reflexivity.
  rewrite Hn. by apply ioctl_val.
Qed.

Lemma set_state_up d :
  answers d = [] →
  hev_tunnel_set_state 1 d =
    Val 0 (ask [SIOCGIFFLAGS (tun_name d); SIOCSIFFLAGS (tun_name d) (Z.lor (interface_flags (tun_name d)) IFF_UP)] d).
Proof.
  intros Ha. apply with_socket_val; [done|]. intros fd d1 Ha1 Hfd Hn. erewrite bind_val by reflexivity. rewrite Hn.
  erewrite bind_val by by apply ioctl_val. cbn [Z.ltb Z.compare truthy negb Z.eqb]. change (truthy 1) with true. cbn iota.
  rewrite ioctl_val by done. by rewrite ask_ask.
Qed.

(** What is asked for an address: nothing at all when it is not one. *)
Definition ipv4_requests (name addr : bytes) : list request :=
  match inet_pton AF_INET addr with
  | Some a => [SIOCSIFADDR name a; SIOCSIFNETMASK name [255; 255; 255; 255]]
  | None => []
  end.
Definition ipv6_requests (name addr : bytes) : list request :=
  SIOCGIFINDEX name ::
  match inet_pton AF_INET6 addr with Some a => [SIOCSIFADDR6 (interface_index name) a 128] | None => [] end.

Lemma exists_ok_val d : exists_ok 0 d = Val 0 d.
Proof. done. Qed.

Lemma ask_nil d : ask [] d = d.
Proof. unfold ask, set_requests. rewrite app_nil_r. by destruct d. Qed.

Lemma set_ipv4_val addr d : answers d = [] → hev_tunnel_set_ipv4 addr 32 d = Val 0 (ask (ipv4_requests (tun_name d) addr) d).
Proof.
  intros Ha. apply with_socket_val; [done|]. intros fd d1 Ha1 Hfd Hn. erewrite bind_val by reflexivity. rewrite Hn.
  unfold ipv4_requests. destruct (inet_pton AF_INET addr) as [a|]; [|by rewrite ask_nil].
  erewrite bind_val by by apply ioctl_val. cbn [Z.ltb Z.compare]. erewrite bind_val by reflexivity.
  erewrite bind_val by by apply ioctl_val. by rewrite exists_ok_val, ask_ask.
Qed.

Lemma set_ipv6_val addr d : answers d = [] → hev_tunnel_set_ipv6 addr 128 d = Val 0 (ask (ipv6_requests (tun_name d) addr) d).
Proof.
  intros Ha. apply with_socket_val; [done|]. intros fd d1 Ha1 Hfd Hn. erewrite bind_val by reflexivity. rewrite Hn.
  unfold ipv6_requests. erewrite bind_val by by apply ioctl_val. cbn [Z.ltb Z.compare].
  destruct (inet_pton AF_INET6 addr) as [a|]; [|done].
  erewrite bind_val by by apply ioctl_val. by rewrite exists_ok_val, ask_ask.
Qed.
End DeviceSpec.
