(* ===== verification/Setup.v ===== *)
(** * Setup: from the start of the engine to its end, src/hev-main.c and the
    initialisation and tear-down in src/hev-socks5-tunnel.c

    The engine's static variables name what it has allocated: descriptors, control
    blocks of lwIP, the network interface, tasks with their counts of references, and
    the DNS server. Every call that may fail does so as the state says. Using a task
    or an object after its release is [Stuck]. While the engine runs the scheduler
    decides what happens, which is data of a run: when the stop arrives, when tasks
    start and end. If a task never ends the run waits for ever ([Blocked]). What the
    tasks do is the subject of [Flows]; how threads stop them, of [TunnelSync]. *)
From S2P Require Import Prelude Bytes HevList HevRBTree MappedDNS Socks5 CLib Config Device.

(** ** State *)

Inductive pcb := TcpBound | TcpListen | UdpBound.

(** [lw]: control blocks; [netif_added]: whether lwIP has the interface; [dnss]: the
    DNS servers that exist; [task_system]: whether there is one. *)
Record heap := Heap {
  lw : gmap Z pcb; netif_added : bool; tasks : gmap Z Z; dnss : gset Z; task_system : bool;
  allocs : list bool; listens : list bool; next_id : Z
}.

(** The static variables of hev-socks5-tunnel.c and of the two logs, the globals of
    hev-socks5-misc.c, the scripts that were run, and the counters of packets and bytes. Pointers are 0 when they are
    NULL. *)
Record engine := Engine {
  dev : device; mem : heap;
  tun_fd : Z; tun_fd_local : Z; netif : bool; tcp : Z; udp : Z; event_fds : Z * Z;
  task_event : Z; task_lwip_io : Z; task_lwip_timer : Z; mapped : Z;
  log_fd : Z; socks5_log_fd : Z; timeouts : Z * Z * Z; udp_recv_buffer : Z;
  scripts : list (bytes * bytes * Z); stats : Z * Z * Z * Z
}.

Definition set_dev v s := Engine v (mem s) (tun_fd s) (tun_fd_local s) (netif s) (tcp s) (udp s) (event_fds s) (task_event s) (task_lwip_io s) (task_lwip_timer s) (mapped s) (log_fd s) (socks5_log_fd s) (timeouts s) (udp_recv_buffer s) (scripts s) (stats s).
Definition set_mem v s := Engine (dev s) v (tun_fd s) (tun_fd_local s) (netif s) (tcp s) (udp s) (event_fds s) (task_event s) (task_lwip_io s) (task_lwip_timer s) (mapped s) (log_fd s) (socks5_log_fd s) (timeouts s) (udp_recv_buffer s) (scripts s) (stats s).
Definition set_tun v w s := Engine (dev s) (mem s) v w (netif s) (tcp s) (udp s) (event_fds s) (task_event s) (task_lwip_io s) (task_lwip_timer s) (mapped s) (log_fd s) (socks5_log_fd s) (timeouts s) (udp_recv_buffer s) (scripts s) (stats s).
Definition set_netif v s := Engine (dev s) (mem s) (tun_fd s) (tun_fd_local s) v (tcp s) (udp s) (event_fds s) (task_event s) (task_lwip_io s) (task_lwip_timer s) (mapped s) (log_fd s) (socks5_log_fd s) (timeouts s) (udp_recv_buffer s) (scripts s) (stats s).
Definition set_tcp v s := Engine (dev s) (mem s) (tun_fd s) (tun_fd_local s) (netif s) v (udp s) (event_fds s) (task_event s) (task_lwip_io s) (task_lwip_timer s) (mapped s) (log_fd s) (socks5_log_fd s) (timeouts s) (udp_recv_buffer s) (scripts s) (stats s).
Definition set_udp v s := Engine (dev s) (mem s) (tun_fd s) (tun_fd_local s) (netif s) (tcp s) v (event_fds s) (task_event s) (task_lwip_io s) (task_lwip_timer s) (mapped s) (log_fd s) (socks5_log_fd s) (timeouts s) (udp_recv_buffer s) (scripts s) (stats s).
Definition set_event_fds v s := Engine (dev s) (mem s) (tun_fd s) (tun_fd_local s) (netif s) (tcp s) (udp s) v (task_event s) (task_lwip_io s) (task_lwip_timer s) (mapped s) (log_fd s) (socks5_log_fd s) (timeouts s) (udp_recv_buffer s) (scripts s) (stats s).
Definition set_tasks3 a b c s := Engine (dev s) (mem s) (tun_fd s) (tun_fd_local s) (netif s) (tcp s) (udp s) (event_fds s) a b c (mapped s) (log_fd s) (socks5_log_fd s) (timeouts s) (udp_recv_buffer s) (scripts s) (stats s).
Definition set_mapped v s := Engine (dev s) (mem s) (tun_fd s) (tun_fd_local s) (netif s) (tcp s) (udp s) (event_fds s) (task_event s) (task_lwip_io s) (task_lwip_timer s) v (log_fd s) (socks5_log_fd s) (timeouts s) (udp_recv_buffer s) (scripts s) (stats s).
Definition set_logs v w s := Engine (dev s) (mem s) (tun_fd s) (tun_fd_local s) (netif s) (tcp s) (udp s) (event_fds s) (task_event s) (task_lwip_io s) (task_lwip_timer s) (mapped s) v w (timeouts s) (udp_recv_buffer s) (scripts s) (stats s).
Definition set_globals v w s := Engine (dev s) (mem s) (tun_fd s) (tun_fd_local s) (netif s) (tcp s) (udp s) (event_fds s) (task_event s) (task_lwip_io s) (task_lwip_timer s) (mapped s) (log_fd s) (socks5_log_fd s) v w (scripts s) (stats s).
Definition set_scripts v s := Engine (dev s) (mem s) (tun_fd s) (tun_fd_local s) (netif s) (tcp s) (udp s) (event_fds s) (task_event s) (task_lwip_io s) (task_lwip_timer s) (mapped s) (log_fd s) (socks5_log_fd s) (timeouts s) (udp_recv_buffer s) v (stats s).
Definition set_stats v s := Engine (dev s) (mem s) (tun_fd s) (tun_fd_local s) (netif s) (tcp s) (udp s) (event_fds s) (task_event s) (task_lwip_io s) (task_lwip_timer s) (mapped s) (log_fd s) (socks5_log_fd s) (timeouts s) (udp_recv_buffer s) (scripts s) v.

Definition on_dev {A} (m : M device A) : M engine A := zoom dev set_dev m.
Definition on_mem {A} (m : M heap A) : M engine A := zoom mem set_mem m.

(** ** Allocation *)

Definition set_lw v h := Heap v (netif_added h) (tasks h) (dnss h) (task_system h) (allocs h) (listens h) (next_id h).
Definition set_netif_added v h := Heap (lw h) v (tasks h) (dnss h) (task_system h) (allocs h) (listens h) (next_id h).
Definition set_tasks v h := Heap (lw h) (netif_added h) v (dnss h) (task_system h) (allocs h) (listens h) (next_id h).
Definition set_dnss v h := Heap (lw h) (netif_added h) (tasks h) v (task_system h) (allocs h) (listens h) (next_id h).
Definition set_task_system v h := Heap (lw h) (netif_added h) (tasks h) (dnss h) v (allocs h) (listens h) (next_id h).
Definition set_next_id v h := Heap (lw h) (netif_added h) (tasks h) (dnss h) (task_system h) (allocs h) (listens h) v.

Definition alloc : M heap bool := λ h,
  match allocs h with
  | [] => Val true h
  | ok :: l => Val ok (Heap (lw h) (netif_added h) (tasks h) (dnss h) (task_system h) l (listens h) (next_id h))
  end.
Definition can_listen : M heap bool := λ h,
  match listens h with
  | [] => Val true h
  | ok :: l => Val ok (Heap (lw h) (netif_added h) (tasks h) (dnss h) (task_system h) (allocs h) l (next_id h))
  end.
Definition new_id : M heap Z := λ h, Val (next_id h) (set_next_id (next_id h + 1) h).

(** A new control block, or 0. *)
Definition pcb_new (k : pcb) : M heap Z :=
  ok ← alloc;
  if negb ok then mret 0 else
  p ← new_id; modify (λ h, set_lw (<[p := k]> (lw h)) h);; mret p.
Definition pcb_free (p : Z) : M heap unit :=
  m ← gets lw; _ ← of_option (m !! p); modify (set_lw (delete p m)).

(** A listening block takes the place of the one that is bound, if there is memory. *)
Definition tcp_listen (p : Z) : M heap Z :=
  m ← gets lw;
  _ ← of_option (m !! p);
  ok ← can_listen;
  if negb ok then mret 0 else
  q ← new_id;
  modify (set_lw (<[q := TcpListen]> (delete p m)));;
  mret q.

Definition hev_task_new : M heap Z :=
  ok ← alloc;
  if negb ok then mret 0 else
  t ← new_id; modify (λ h, set_tasks (<[t := 1]> (tasks h)) h);; mret t.
Definition hev_task_ref (t : Z) : M heap unit :=
  m ← gets tasks; n ← of_option (m !! t); modify (set_tasks (<[t := n + 1]> m)).
Definition hev_task_unref (t : Z) : M heap unit :=
  m ← gets tasks; n ← of_option (m !! t);
  modify (set_tasks (if n - 1 =? 0 then delete t m else <[t := n - 1]> m)).

(** The DNS server, whose constructor refuses a size that the mask has no room for. For
    a negative size the block is smaller than the object that is then written to it. *)
Definition hev_mapped_dns_new (net mask max : Z) : M heap Z :=
  if max <? 0 then stuck else
  ok ← alloc;
  match MappedDNS.hev_mapped_dns_new net mask max ok [] with
  | None => mret 0
  | Some _ => d ← new_id; modify (λ h, set_dnss ({[d]} ∪ dnss h) h);; mret d
  end.
Definition hev_object_unref (d : Z) : M heap unit :=
  m ← gets dnss; if bool_decide (d ∈ m) then modify (set_dnss (m ∖ {[d]})) else stuck.

(** ** While the engine runs *)

(** The flag [run], which of the engine's tasks have not ended, and the tasks of the
    sessions. *)
Record running := Running { run : bool; event_runs : bool; io_runs : bool; timer_runs : bool; sessions : list Z }.

Definition runs (r : running) : bool := event_runs r || io_runs r || timer_runs r || negb (bool_decide (sessions r = [])).

(** What may happen: the event task reads the byte that a stop wrote and clears [run];
    the three tasks end; the task of a session is made by the I/O task, and ends. *)
Inductive moment := StopRead | IoEnds | TimerEnds | EventEnds | SessionStarts | SessionEnds (i : nat).

(** The two loops end when [run] is cleared; the event task joins both. *)
Definition can_happen (m : moment) (r : running) : bool :=
  match m with
  | StopRead => event_runs r
  | IoEnds => io_runs r && negb (run r)
  | TimerEnds => timer_runs r && negb (run r)
  | EventEnds => event_runs r && negb (run r) && negb (io_runs r) && negb (timer_runs r)
  | SessionStarts => io_runs r && run r
  | SessionEnds i => bool_decide (is_Some (sessions r !! i))
  end.

(** Every task runs with a reference of its own, which the scheduler drops when the
    task has ended; of the task of a session there is no other. When there is no memory
    for that the I/O task waits for ever for a mutex that it has itself ([FlowsReach]). *)
Definition next_moment (event io timer : Z) (m : moment) (r : running) : M heap running :=
  if negb (can_happen m r) then mret r else
  match m with
  | StopRead => mret (Running false (event_runs r) (io_runs r) (timer_runs r) (sessions r))
  | IoEnds => hev_task_unref io;; mret (Running (run r) (event_runs r) false (timer_runs r) (sessions r))
  | TimerEnds => hev_task_unref timer;; mret (Running (run r) (event_runs r) (io_runs r) false (sessions r))
  | EventEnds => hev_task_unref event;; mret (Running (run r) false (io_runs r) (timer_runs r) (sessions r))
  | SessionStarts =>
      t ← hev_task_new;
      if negb (truthy t) then blocked else
      mret (Running (run r) (event_runs r) (io_runs r) (timer_runs r) (t :: sessions r))
  | SessionEnds i =>
      t ← of_option (sessions r !! i);
      hev_task_unref t;;
      mret (Running (run r) (event_runs r) (io_runs r) (timer_runs r) (delete i (sessions r)))
  end.

(** The scheduler returns when no task is left; when nothing more happens before, it
    does not. *)
Fixpoint hev_task_system_run (event io timer : Z) (l : list moment) (r : running) : M heap unit :=
  if negb (runs r) then mret tt else
  match l with
  | [] => blocked
  | m :: l => r ← next_moment event io timer m r; hev_task_system_run event io timer l r
  end.

(** ** The device *)

Section Engine.
Context `{Interfaces} `{Resolver} (cfg : config).

(** [hev_exec_run] starts the script in a child process, if there can be one. *)
Definition hev_exec_run (script_path : bytes) (wait : Z) : M engine unit :=
  pid ← on_dev syscall;
  if pid <? 0 then mret tt else
  d ← gets dev; modify (λ s, set_scripts (scripts s ++ [(script_path, tun_name d, wait)]) s).

(** The optional steps of [tunnel_init]: 0 when there is nothing to do. *)
Definition when_some {A} (o : option A) (f : A → M engine Z) : M engine Z :=
  match o with Some a => f a | None => mret 0 end.

Definition tunnel_init (extern_tun_fd : Z) : M engine Z :=
  if 0 <=? extern_tun_fd then
    res ← on_dev (ioctl extern_tun_fd FIONBIO);
    if res <? 0 then mret (-1) else
    modify (λ s, set_tun extern_tun_fd (tun_fd_local s) s);;
    mret 0
  else
  modify (λ s, set_tun (tun_fd s) 1 s);;
  fd ← on_dev (hev_tunnel_open (hev_config_get_tunnel_name cfg) (hev_config_get_tunnel_multi_queue cfg));
  modify (λ s, set_tun fd (tun_fd_local s) s);;
  if fd <? 0 then mret (-1) else
  res ← on_dev (hev_tunnel_set_mtu (hev_config_get_tunnel_mtu cfg));
  if res <? 0 then mret (-1) else
  res ← when_some (hev_config_get_tunnel_ipv4_address cfg) (λ ipv4, on_dev (hev_tunnel_set_ipv4 ipv4 32));
  if res <? 0 then mret (-1) else
  res ← when_some (hev_config_get_tunnel_ipv6_address cfg) (λ ipv6, on_dev (hev_tunnel_set_ipv6 ipv6 128));
  if res <? 0 then mret (-1) else
  res ← on_dev (hev_tunnel_set_state 1);
  if res <? 0 then mret (-1) else
  when_some (hev_config_get_tunnel_post_up_script cfg) (λ path, hev_exec_run path 0;; mret 0).

Definition tunnel_fini : M engine unit :=
  s ← gets (λ s, s);
  if negb (truthy (tun_fd_local s)) then mret tt else
  when_some (hev_config_get_tunnel_pre_down_script cfg) (λ path, hev_exec_run path 1;; mret 0);;
  when (0 <=? tun_fd s) (on_dev (hev_tunnel_close (tun_fd s));; modify (set_tun (-1) 0)).

(** ** The stack *)

Definition gateway_init : M engine Z :=
  ok ← on_mem alloc;
  modify (set_netif ok);;
  if negb ok then mret (-1) else
  modify (λ s, set_mem (set_netif_added true (mem s)) s);;
  p ← on_mem (pcb_new TcpBound);
  modify (set_tcp p);;
  if negb (truthy p) then mret (-1) else
  p ← on_mem (tcp_listen p);
  modify (set_tcp p);;
  p ← on_mem (pcb_new UdpBound);
  modify (set_udp p);;
  if negb (truthy p) then mret (-1) else
  mret 0.

Definition gateway_fini : M engine unit :=
  s ← gets (λ s, s);
  when (truthy (udp s)) (on_mem (pcb_free (udp s));; modify (set_udp 0));;
  when (truthy (tcp s)) (on_mem (pcb_free (tcp s));; modify (set_tcp 0));;
  when (netif s) (modify (λ s, set_mem (set_netif_added false (mem s)) s);; modify (set_netif false)).

(** ** The tasks *)

Definition event_task_init : M engine Z :=
  res ← on_dev syscall;
  if res <? 0 then mret (-1) else
  a ← on_dev (install Pair);
  b ← on_dev (install Pair);
  modify (set_event_fds (a, b));;
  res ← on_dev (ioctl a FIONBIO);
  if res <? 0 then mret (-1) else
  t ← on_mem hev_task_new;
  modify (λ s, set_tasks3 t (task_lwip_io s) (task_lwip_timer s) s);;
  if negb (truthy t) then mret (-1) else mret 0.

Definition event_task_fini : M engine unit :=
  s ← gets (λ s, s);
  when (truthy (task_event s)) (on_mem (hev_task_unref (task_event s));; modify (λ s, set_tasks3 0 (task_lwip_io s) (task_lwip_timer s) s));;
  when (0 <=? (event_fds s).1) (on_dev (close (event_fds s).1);; modify (λ s, set_event_fds (-1, (event_fds s).2) s));;
  when (0 <=? (event_fds s).2) (on_dev (close (event_fds s).2);; modify (λ s, set_event_fds ((event_fds s).1, -1) s)).

Definition lwip_io_task_init : M engine Z :=
  t ← on_mem hev_task_new;
  modify (λ s, set_tasks3 (task_event s) t (task_lwip_timer s) s);;
  if negb (truthy t) then mret (-1) else mret 0.

Definition lwip_io_task_fini : M engine unit :=
  s ← gets (λ s, s);
  when (truthy (task_lwip_io s)) (on_mem (hev_task_unref (task_lwip_io s));; modify (λ s, set_tasks3 (task_event s) 0 (task_lwip_timer s) s)).

Definition lwip_timer_task_init : M engine Z :=
  t ← on_mem hev_task_new;
  modify (λ s, set_tasks3 (task_event s) (task_lwip_io s) t s);;
  if negb (truthy t) then mret (-1) else mret 0.

Definition lwip_timer_task_fini : M engine unit :=
  s ← gets (λ s, s);
  when (truthy (task_lwip_timer s)) (on_mem (hev_task_unref (task_lwip_timer s));; modify (λ s, set_tasks3 (task_event s) (task_lwip_io s) 0 s)).

(** ** The DNS server *)

Definition mapped_dns_init : M engine Z :=
  let network := hev_config_get_mapdns_network cfg in
  let netmask := hev_config_get_mapdns_netmask cfg in
  let cache_size := hev_config_get_mapdns_cache_size cfg in
  if negb (truthy cache_size) then mret 0 else
  d ← on_mem (hev_mapped_dns_new network netmask cache_size);
  if negb (truthy d) then mret (-1) else
  modify (set_mapped d);;
  mret 0.

Definition mapped_dns_fini : M engine unit :=
  d ← gets mapped;
  when (truthy d) (on_mem (hev_object_unref d);; modify (set_mapped 0)).

(** ** The tunnel *)

Definition hev_socks5_tunnel_fini : M engine unit :=
  mapped_dns_fini;;
  lwip_timer_task_fini;;
  lwip_io_task_fini;;
  event_task_fini;;
  gateway_fini;;
  tunnel_fini;;
  modify (set_stats (0, 0, 0, 0)).

(** The steps of the initialisation, up to the first that fails. *)
Fixpoint in_turn (l : list (M engine Z)) : M engine Z :=
  match l with
  | [] => mret 0
  | m :: l => res ← m; if res <? 0 then mret (-1) else in_turn l
  end.

Definition hev_socks5_tunnel_init (tun_fd : Z) : M engine Z :=
  res ← in_turn [tunnel_init tun_fd; gateway_init; event_task_init; lwip_io_task_init; lwip_timer_task_init; mapped_dns_init];
  if res <? 0 then hev_socks5_tunnel_fini;; mret (-1) else mret 0.

(** [stopped]: whether there was a stop before ([TunnelSync]); [happens]: what happens
    during the run. *)
Definition hev_socks5_tunnel_run (stopped : bool) (happens : list moment) : M engine unit :=
  if stopped then mret tt else
  s ← gets (λ s, s);
  on_mem (
    hev_task_ref (task_event s);;
    hev_task_ref (task_lwip_io s);;
    hev_task_ref (task_lwip_timer s);;
    hev_task_system_run (task_event s) (task_lwip_io s) (task_lwip_timer s) happens (Running true true true true [])).

(** ** The logs *)

(** The file is opened, or a standard descriptor duplicated; without a path the
    variable keeps its value. *)
Definition hev_logger_init (path : option bytes) : M engine Z :=
  match path with
  | None => mret 0
  | Some _ =>
      fd ← on_dev (open_fd LogFile);
      modify (λ s, set_logs fd (socks5_log_fd s) s);;
      mret (if fd <? 0 then -1 else 0)
  end.
Definition hev_logger_fini : M engine unit :=
  fd ← gets log_fd; when (0 <=? fd) (on_dev (close fd)).

Definition hev_socks5_logger_init (path : option bytes) : M engine Z :=
  match path with
  | None => mret 0
  | Some _ =>
      fd ← on_dev (open_fd LogFile);
      modify (λ s, set_logs (log_fd s) fd s);;
      mret (if fd <? 0 then -1 else 0)
  end.
Definition hev_socks5_logger_fini : M engine unit :=
  fd ← gets socks5_log_fd; when (0 <=? fd) (on_dev (close fd)).

(** ** The whole *)

Definition hev_task_system_init : M heap Z :=
  ok ← alloc;
  if negb ok then mret (-1) else modify (set_task_system true);; mret 0.
Definition hev_task_system_fini : M heap unit := modify (set_task_system false).

(** [set_limit_nofile]: the first call that fails ends it. *)
Definition set_limit_nofile : M device Z :=
  res ← syscall;
  if res <? 0 then mret (-1) else
  res ← syscall;
  if res <? 0 then mret (-1) else
  syscall.

(** The file with the process's number; becoming a daemon changes no state of ours. *)
Definition run_as_daemon : M device unit :=
  fd ← open_fd PidFile;
  if fd <? 0 then mret tt else close fd.

(** The part that runs with the logs open. *)
Definition run_logged (tun_fd : Z) (stopped : bool) (happens : list moment) : M engine Z :=
  on_dev set_limit_nofile;;
  when (bool_decide (is_Some (hev_config_get_misc_pid_file cfg))) (on_dev run_as_daemon);;
  res ← on_mem hev_task_system_init;
  if res <? 0 then mret res else
  res ← hev_socks5_tunnel_init tun_fd;
  when (negb (res <? 0)) (hev_socks5_tunnel_run stopped happens;; hev_socks5_tunnel_fini);;
  on_mem hev_task_system_fini;;
  mret res.

Definition hev_socks5_tunnel_main_inner (tun_fd : Z) (stopped : bool) (happens : list moment) : M engine Z :=
  modify (set_globals (hev_config_get_misc_connect_timeout cfg, hev_config_get_misc_tcp_read_write_timeout cfg,
      hev_config_get_misc_udp_read_write_timeout cfg) (hev_config_get_misc_udp_recv_buffer_size cfg));;
  res ← hev_logger_init (hev_config_get_misc_log_file cfg);
  if res <? 0 then mret res else
  res ← hev_socks5_logger_init (hev_config_get_misc_log_file cfg);
  if res <? 0 then hev_logger_fini;; mret res else
  res ← run_logged tun_fd stopped happens;
  hev_socks5_logger_fini;;
  hev_logger_fini;;
  mret res.
End Engine.
