(* ===== verification/SetupSpec.v ===== *)
(** * SetupSpec: the engine gives back what it took

    [owns] relates a state to the one that the engine found: what was added since is
    what its static variables name. Every step of the initialisation keeps it, also
    when it fails, and the tear-down releases all of it. A run of the scheduler keeps it
    too, if it ends ([system_run_ok]). The control block that a failed [tcp_listen]
    leaves to nobody becomes part of what was found ([stray]). *)
From S2P Require Import Prelude Bytes Socks5 CLib Config Device Setup.

(** ** Maps with additions *)

(** [m] is [m0] and new entries at [own]. *)
Definition holds {A} (m0 m : gmap Z A) (own : list Z) : Prop :=
  NoDup own ∧ (∀ k, k ∈ own → m0 !! k = None ∧ is_Some (m !! k)) ∧ (∀ k, k ∉ own → m !! k = m0 !! k).

Lemma holds_refl {A} (m : gmap Z A) : holds m m [].
Proof. split_and!; [constructor| |done]. intros k Hk. by apply elem_of_nil in Hk. Qed.

Lemma holds_nil {A} (m0 m : gmap Z A) : holds m0 m [] → m = m0.
Proof. intros (_ & _ & H). apply map_eq. intros k. apply H. apply not_elem_of_nil. Qed.

Lemma holds_add {A} (m0 m : gmap Z A) own k v : holds m0 m own → m !! k = None → holds m0 (<[k := v]> m) (k :: own).
Proof.
  intros (Hnd & Hin & Hout) Hk. assert (k ∉ own) as Hn by (intros E; destruct (Hin k E) as [_ [? ?]]; congruence).
  split_and!; [by constructor| |].
  - intros j [-> |Hj]%elem_of_cons; [rewrite lookup_insert_eq; split; [|by eexists]; by rewrite <- (Hout k Hn)|].
    rewrite lookup_insert_ne by congruence. auto.
  - intros j [? ?]%not_elem_of_cons. rewrite lookup_insert_ne by done. auto.
Qed.

Lemma holds_del {A} (m0 m : gmap Z A) own k : holds m0 m (k :: own) → holds m0 (delete k m) own.
Proof.
  intros ([Hn Hnd]%NoDup_cons & Hin & Hout). split_and!; [done| |].
  - intros j Hj. rewrite lookup_delete_ne by congruence. apply Hin. by right.
  - intros j Hj. destruct (decide (j = k)) as [-> |Hne].
    + rewrite lookup_delete_eq. symmetry. apply Hin. by left.
    + rewrite lookup_delete_ne by done. apply Hout. by apply not_elem_of_cons.
Qed.

Lemma holds_set {A} (m0 m : gmap Z A) own k v : holds m0 m own → k ∈ own → holds m0 (<[k := v]> m) own.
Proof.
  intros (Hnd & Hin & Hout) Hk. split_and!; [done| |].
  - intros j Hj. split; [by apply Hin|]. destruct (decide (j = k)) as [-> |]; [rewrite lookup_insert_eq; by eexists|].
    rewrite lookup_insert_ne by done. by apply Hin.
  - intros j Hj. rewrite lookup_insert_ne by congruence. auto.
Qed.

Lemma holds_stray {A} (m0 m : gmap Z A) own k v : holds m0 m (k :: own) → m !! k = Some v → holds (<[k := v]> m0) m own.
Proof.
  intros ([Hn Hnd]%NoDup_cons & Hin & Hout) Hk. split_and!; [done| |].
  - intros j Hj. rewrite lookup_insert_ne by congruence. apply Hin. by right.
  - intros j Hj. destruct (decide (j = k)) as [-> |Hne]; [by rewrite lookup_insert_eq|].
    rewrite lookup_insert_ne by done. apply Hout. by apply not_elem_of_cons.
Qed.

Lemma holds_perm {A} (m0 m : gmap Z A) own own' : own ≡ₚ own' → holds m0 m own → holds m0 m own'.
Proof.
  intros Hp (Hnd & Hin & Hout). split_and!; [by rewrite <- Hp| |]; intros k; rewrite <- Hp; auto.
Qed.

(** ** The heap *)

Definition in_use (h : heap) (k : Z) : Prop := k ∈ dom (lw h) ∨ k ∈ dom (tasks h) ∨ k ∈ dnss h.

(** The heap [h] is [h0] with the control blocks [ps], the tasks [ts], each with one
    reference, the DNS server [d] unless that is 0, and the interface when [n]. *)
Record heap_owns (h0 h : heap) (ps ts : list Z) (d : Z) (n : bool) : Prop := {
  ho_next : 0 < next_id h; ho_ids : ∀ k, in_use h k → 0 < k < next_id h;
  ho_lw : holds (lw h0) (lw h) ps;
  ho_tasks : holds (tasks h0) (tasks h) ts; ho_refs : ∀ t, t ∈ ts → tasks h !! t = Some 1;
  ho_dnss : dnss h = (if truthy d then {[d]} else ∅) ∪ dnss h0; ho_new : d ∉ dnss h0;
  ho_netif : netif_added h = n
}.

(** What none of the operations on the heap changes but those that are for it. *)
Definition heap_keeps (h h' : heap) : Prop := task_system h' = task_system h ∧ listens h' = listens h.

Section Heap.
Context (h0 : heap).

Lemma fresh_id h ps ts d n k : heap_owns h0 h ps ts d n → next_id h <= k → ¬ in_use h k.
Proof. intros [] Hk Hu. specialize (ho_ids0 _ Hu). lia. Qed.

Lemma wp_alloc h ps ts d n (Q : bool → heap → Prop) :
  heap_owns h0 h ps ts d n → (∀ ok h', heap_owns h0 h' ps ts d n → heap_keeps h h' → Q ok h') → wp alloc Q never h.
Proof. intros [] HQ. unfold wp, alloc. destruct (allocs h) as [|ok l]; by apply HQ. Qed.

Lemma truthy_next h ps ts d n : heap_owns h0 h ps ts d n → truthy (next_id h) = true ∧ next_id h ≠ 0.
Proof. intros []. unfold truthy. rewrite (proj2 (Z.eqb_neq _ _)) by lia. split; [done|lia]. Qed.

Lemma wp_pcb_new k h ps ts d n Q :
  heap_owns h0 h ps ts d n →
  (∀ h', heap_owns h0 h' ps ts d n → heap_keeps h h' → Q 0 h') →
  (∀ p h', p ≠ 0 → heap_owns h0 h' (p :: ps) ts d n → lw h' !! p = Some k → heap_keeps h h' → Q p h') →
  wp (pcb_new k) Q never h.
Proof.
  intros Hh H0 H1. apply wp_bind, (wp_alloc _ _ _ _ _ _ Hh). intros ok h' Hh' Hk.
  apply wp_if; intros _; [by apply wp_ret, H0|]. apply wp_bind. unfold wp, new_id. cbn beta iota.
  apply wp_bind, wp_modify, wp_ret. destruct (truthy_next _ _ _ _ _ Hh') as [_ Hn0]. apply H1; [done| |apply lookup_insert_eq|by destruct Hk].
  pose proof (fresh_id _ _ _ _ _ (next_id h') Hh' ltac:(done)) as Hfr. destruct Hh'. split; cbn; try done.
  - lia.
  - unfold in_use in *. cbn. rewrite dom_insert_L. intros j Hj.
    destruct (decide (j = next_id h')) as [-> |Hne]; [lia|]. specialize (ho_ids0 j). set_solver by lia.
  - apply holds_add; [done|]. apply not_elem_of_dom. unfold in_use in Hfr. tauto.
Qed.

Lemma wp_pcb_free p h ps ts d n (Q : unit → heap → Prop) :
  heap_owns h0 h (p :: ps) ts d n → (∀ h', heap_owns h0 h' ps ts d n → heap_keeps h h' → Q tt h') → wp (pcb_free p) Q never h.
Proof.
  intros [] HQ. assert (is_Some (lw h !! p)) as [k Hk] by (apply ho_lw0; by left).
  apply wp_bind, wp_gets, wp_bind. rewrite Hk. apply wp_ret, wp_modify, HQ; [|done]. split; cbn; try done.
  - unfold in_use in *. cbn. rewrite dom_delete_L. intros j Hj. apply ho_ids0. set_solver.
  - by apply holds_del.
Qed.

Lemma wp_can_listen h ps ts d n (Q : bool → heap → Prop) :
  heap_owns h0 h ps ts d n →
  (∀ h', heap_owns h0 h' ps ts d n → lw h' = lw h → task_system h' = task_system h → Q (hd true (listens h)) h') →
  wp can_listen Q never h.
Proof. intros [] HQ. unfold wp, can_listen. destruct (listens h) as [|ok l]; by apply HQ. Qed.

(** When [tcp_listen] fails the bound control block [p], that nobody names any more, is
    one of those that are there. *)
Definition stray (p : Z) (k : pcb) : heap := set_lw (<[p := k]> (lw h0)) h0.

Lemma owns_stray p k h ps ts d n :
  heap_owns h0 h (p :: ps) ts d n → lw h !! p = Some k → heap_owns (stray p k) h ps ts d n.
Proof. intros [] Hp. split; try done. by apply holds_stray. Qed.

Lemma wp_tcp_listen p k h ps ts d n Q :
  heap_owns h0 h (p :: ps) ts d n → lw h !! p = Some k →
  (∀ q h', q ≠ 0 → heap_owns h0 h' (q :: ps) ts d n → task_system h' = task_system h → Q q h') →
  (∀ h', hd true (listens h) = false → lw h0 !! p = None → heap_owns (stray p k) h' ps ts d n →
    task_system h' = task_system h → Q 0 h') →
  wp (tcp_listen p) Q never h.
Proof.
  intros Hh Hk HQ H0. apply wp_bind, wp_gets, wp_bind. rewrite Hk. apply wp_ret.
  apply wp_bind, (wp_can_listen _ _ _ _ _ _ Hh). intros h' Hh' Hlw Hts. rewrite <- Hlw in Hk |- *.
  apply wp_if; intros Hl.
  { apply wp_ret, H0; [by destruct (hd _ _)| | |done]; [apply Hh'; by left|by apply owns_stray]. }
  pose proof Hh' as []. apply wp_bind. unfold wp at 1, new_id. cbn beta iota. apply wp_bind, wp_modify, wp_ret.
  destruct (truthy_next _ _ _ _ _ Hh') as [_ Hn0].
  pose proof (fresh_id _ _ _ _ _ (next_id h') Hh' ltac:(done)) as Hfr.
  apply HQ; [done| |done]. split; cbn; try done.
  - lia.
  - unfold in_use in *. cbn. rewrite dom_insert_L, dom_delete_L. intros j Hj.
    destruct (decide (j = next_id h')) as [-> |Hne]; [lia|]. specialize (ho_ids0 j). set_solver by lia.
  - apply holds_add; [by apply holds_del|]. apply not_elem_of_dom. rewrite dom_delete_L. unfold in_use in Hfr. set_solver.
Qed.

Lemma wp_task_new h ps ts d n Q :
  heap_owns h0 h ps ts d n →
  (∀ h', heap_owns h0 h' ps ts d n → heap_keeps h h' → Q 0 h') →
  (∀ t h', t ≠ 0 → heap_owns h0 h' ps (t :: ts) d n → heap_keeps h h' → Q t h') →
  wp hev_task_new Q never h.
Proof.
  intros Hh H0 H1. apply wp_bind, (wp_alloc _ _ _ _ _ _ Hh). intros ok h' Hh' Hk.
  apply wp_if; intros _; [by apply wp_ret, H0|]. apply wp_bind. unfold wp at 1, new_id. cbn beta iota.
  apply wp_bind, wp_modify, wp_ret. destruct (truthy_next _ _ _ _ _ Hh') as [_ Hn0]. apply H1; [done| |by destruct Hk].
  pose proof (fresh_id _ _ _ _ _ (next_id h') Hh' ltac:(done)) as Hfr. destruct Hh'. split; cbn; try done.
  - lia.
  - unfold in_use in *. cbn. rewrite dom_insert_L. intros j Hj.
    destruct (decide (j = next_id h')) as [-> |Hne]; [lia|]. specialize (ho_ids0 j). set_solver by lia.
  - apply holds_add; [done|]. apply not_elem_of_dom. unfold in_use in Hfr. tauto.
  - intros t Ht. destruct (decide (t = next_id h')) as [-> |Hne]; [by rewrite lookup_insert_eq|].
    rewrite lookup_insert_ne by done. apply ho_refs0. set_solver.
Qed.

Lemma wp_task_unref t h ps ts d n (Q : unit → heap → Prop) :
  heap_owns h0 h ps (t :: ts) d n → (∀ h', heap_owns h0 h' ps ts d n → heap_keeps h h' → Q tt h') →
  wp (hev_task_unref t) Q never h.
Proof.
  intros [] HQ. assert (tasks h !! t = Some 1) as Hk by (apply ho_refs0; by left).
  apply wp_bind, wp_gets, wp_bind. rewrite Hk. apply wp_ret, wp_modify, HQ; [|done].
  change (1 - 1 =? 0) with true. cbn iota. split; cbn; try done.
  - unfold in_use in *. cbn. rewrite dom_delete_L. intros j Hj. apply ho_ids0. set_solver.
  - by apply holds_del.
  - intros t' Ht'. destruct ho_tasks0 as ([Hn _]%NoDup_cons & _). rewrite lookup_delete_ne by congruence. apply ho_refs0. by right.
Qed.

Lemma wp_dns_new net mask max h ps ts n Q :
  heap_owns h0 h ps ts 0 n → 0 <= max →
  (∀ h', heap_owns h0 h' ps ts 0 n → heap_keeps h h' → Q 0 h') →
  (∀ d h', d ≠ 0 → heap_owns h0 h' ps ts d n → heap_keeps h h' → Q d h') →
  wp (hev_mapped_dns_new net mask max) Q never h.
Proof.
  intros Hh Hmax H0 H1. unfold hev_mapped_dns_new. rewrite (proj2 (Z.ltb_ge _ _)) by done.
  apply wp_bind, (wp_alloc _ _ _ _ _ _ Hh). intros ok h' Hh' Hk.
  destruct (MappedDNS.hev_mapped_dns_new net mask max ok []); [|by apply wp_ret, H0].
  apply wp_bind. unfold wp at 1, new_id. cbn beta iota.
  apply wp_bind, wp_modify, wp_ret. destruct (truthy_next _ _ _ _ _ Hh') as [Ht Hn0]. apply H1; [done| |by destruct Hk].
  pose proof (fresh_id _ _ _ _ _ (next_id h') Hh' ltac:(done)) as Hfr. destruct Hh'. unfold in_use in *.
  change (truthy 0) with false in ho_dnss0. cbn iota in ho_dnss0. split; cbn; try done.
  - lia.
  - unfold in_use. cbn. intros j Hj. destruct (decide (j = next_id h')) as [-> |Hne]; [lia|]. specialize (ho_ids0 j). set_solver by lia.
  - rewrite Ht, ho_dnss0. set_solver.
  - rewrite ho_dnss0 in Hfr. set_solver.
Qed.

Lemma wp_object_unref d h ps ts n (Q : unit → heap → Prop) :
  heap_owns h0 h ps ts d n → d ≠ 0 → 0 ∉ dnss h0 → (∀ h', heap_owns h0 h' ps ts 0 n → heap_keeps h h' → Q tt h') →
  wp (hev_object_unref d) Q never h.
Proof.
  intros [] Hd H0 HQ. assert (truthy d = true) as Ht by (unfold truthy; by rewrite (proj2 (Z.eqb_neq _ _))).
  rewrite Ht in ho_dnss0. apply wp_bind, wp_gets. rewrite bool_decide_eq_true_2 by set_solver.
  apply wp_modify, HQ; [|done]. split; cbn; try done.
  - unfold in_use in *. cbn. intros j Hj. apply ho_ids0. set_solver.
  - change (truthy 0) with false. cbn iota. set_solver.
Qed.

Lemma task_ref_val t n h : tasks h !! t = Some n → hev_task_ref t h = Val tt (set_tasks (<[t := n + 1]> (tasks h)) h).
Proof. intros Ht. unfold hev_task_ref. mstep. by rewrite Ht. Qed.

Lemma task_unref_val t h : tasks h !! t = Some 2 → hev_task_unref t h = Val tt (set_tasks (<[t := 1]> (tasks h)) h).
Proof. intros Ht. unfold hev_task_unref. mstep. by rewrite Ht. Qed.

(** The references of the three tasks [te], [ti] and [tm] while they run. *)
Definition up (te ti tm : Z) (r : running) (m : gmap Z Z) : gmap Z Z :=
  let m := if timer_runs r then <[tm := 2]> m else m in
  let m := if io_runs r then <[ti := 2]> m else m in
  if event_runs r then <[te := 2]> m else m.

Lemma task_unref_last t h : tasks h !! t = Some 1 → hev_task_unref t h = Val tt (set_tasks (delete t (tasks h)) h).
Proof. intros Ht. unfold hev_task_unref. mstep. by rewrite Ht. Qed.

(** A task that is not one of those before [h0] has not ended. *)
Definition unfinished (te ti tm : Z) (h : heap) : Prop :=
  ∃ t, tasks h0 !! t = None ∧ (tasks h !! t = Some 2 ∨ (t ∉ [te; ti; tm]) ∧ is_Some (tasks h !! t)).

Lemma owns_perm h ps ts ts' d n : ts ≡ₚ ts' → heap_owns h0 h ps ts d n → heap_owns h0 h ps ts' d n.
Proof.
  intros Hp []. split; try done; [by eapply holds_perm|]. intros t. rewrite <- Hp. auto.
Qed.

Section Scheduler.
Context (te ti tm : Z) (ps : list Z) (d : Z) (n : bool).

(** The state in a run: [h1] is the same with one reference to each of the three. *)
Definition in_run (r : running) (h h1 : heap) : Prop :=
  heap_owns h0 h1 ps (sessions r ++ [tm; ti; te]) d n ∧ h = set_tasks (up te ti tm r (tasks h1)) h1.

(** What is known of the three and of the sessions. *)
Lemma owned_distinct ss h1 :
  heap_owns h0 h1 ps (ss ++ [tm; ti; te]) d n →
  te ≠ ti ∧ te ≠ tm ∧ ti ≠ tm ∧ (∀ t, t ∈ ss → t ≠ te ∧ t ≠ ti ∧ t ≠ tm).
Proof.
  intros [? ? ? [Hnd _] _ _ _ _]. apply NoDup_app in Hnd as (_ & Hss & Hnd).
  apply NoDup_cons in Hnd as [Hn1 [Hn2 _]%NoDup_cons].
  rewrite !not_elem_of_cons in *. destruct Hn1 as (? & ? & _), Hn2 as [? _].
  split_and!; [congruence..|]. intros t Ht. specialize (Hss t Ht). rewrite !not_elem_of_cons in Hss. tauto.
Qed.

Lemma owned_refs ss h1 t :
  heap_owns h0 h1 ps (ss ++ [tm; ti; te]) d n → t ∈ ss ++ [tm; ti; te] →
  tasks h0 !! t = None ∧ tasks h1 !! t = Some 1 ∧ t < next_id h1.
Proof.
  intros [? Hids ? (_ & Hin & _) Hrefs _ _ _] Ht. destruct (Hin t Ht) as [? _]. specialize (Hrefs t Ht).
  split_and!; [done|done|]. assert (in_use h1 t) as Hu by (right; left; by apply elem_of_dom). specialize (Hids _ Hu). lia.
Qed.

#[local] Ltac picks := rewrite ?elem_of_cons; tauto.
#[local] Ltac maps := apply map_eq; intros k; unfold up; cbn; rewrite ?lookup_insert, ?lookup_delete;
  repeat (case_decide || case_match); rewrite ?lookup_insert, ?lookup_delete; repeat case_decide; try congruence.

(** One of the three ends. *)
Lemma base_ends t r r' h1 :
  heap_owns h0 h1 ps (sessions r ++ [tm; ti; te]) d n → sessions r' = sessions r → t ∈ [tm; ti; te] →
  up te ti tm r (tasks h1) !! t = Some 2 → <[t := 1]> (up te ti tm r (tasks h1)) = up te ti tm r' (tasks h1) →
  wp (hev_task_unref t;; mret r') (λ r' h', ∃ h1', in_run r' h' h1' ∧ task_system h1' = task_system h1)
    (unfinished te ti tm) (set_tasks (up te ti tm r (tasks h1)) h1).
Proof.
  intros Ho Hs Ht Hu Hn. eapply wp_bind_val; [by apply task_unref_val|]. apply wp_ret. cbn [tasks set_tasks]. rewrite Hn.
  exists h1. split; [|done]. split; [by rewrite Hs|done].
Qed.

(** A session's task is made, if there is memory. *)
Lemma session_starts r h1 :
  heap_owns h0 h1 ps (sessions r ++ [tm; ti; te]) d n → tasks h0 !! ti = None → io_runs r = true → te ≠ ti →
  te < next_id h1 → ti < next_id h1 → tm < next_id h1 →
  wp (t ← hev_task_new; if negb (truthy t) then blocked else
      mret (Running (run r) (event_runs r) (io_runs r) (timer_runs r) (t :: sessions r)))
    (λ r' h', ∃ h1', in_run r' h' h1' ∧ task_system h1' = task_system h1)
    (unfinished te ti tm) (set_tasks (up te ti tm r (tasks h1)) h1).
Proof.
  intros Ho Hn Hio Dei L1 L2 L3. set (M := up _ _ _ _ _).
  assert (M !! ti = Some 2) as Hti.
  { unfold M, up. rewrite Hio. destruct (event_runs r); rewrite ?lookup_insert; repeat case_decide; congruence. }
  assert (wp hev_task_new (λ t h', t ≠ 0 → heap_owns h0 h' ps (t :: sessions r ++ [tm; ti; te]) d n ∧
    task_system h' = task_system h1) never h1) as Hnew.
  { apply (wp_task_new _ _ _ _ _ _ Ho); [done|]. intros t h' _ ? [] _. by split. }
  pose proof (ho_next _ _ _ _ _ _ Ho). apply wp_bind. unfold wp, hev_task_new, alloc in Hnew |- *. mstep.
  cbn [allocs set_tasks]. destruct (allocs h1) as [|[] l]; cbn in Hnew |- *; [| |by exists ti; split; [|left]];
    rewrite truthy_ne by lia; destruct Hnew as [Ho' Hts]; try lia; eexists; (split; [split; [exact Ho'|]|done]);
    unfold set_tasks, set_next_id; cbn; f_equal; unfold M; maps; lia.
Qed.

Lemma next_moment_ok m r h h1 :
  in_run r h h1 →
  wp (next_moment te ti tm m r) (λ r' h', ∃ h1', in_run r' h' h1' ∧ task_system h1' = task_system h1) (unfinished te ti tm) h.
Proof.
  intros [Ho ->]. pose proof (owned_distinct _ _ Ho) as (D1 & D2 & D3 & Dss).
  assert (∀ t, t ∈ [tm; ti; te] → tasks h0 !! t = None ∧ tasks h1 !! t = Some 1 ∧ t < next_id h1) as Hb.
  { intros t Ht. apply (owned_refs (sessions r)); [done|]. apply elem_of_app. by right. }
  destruct (Hb te) as (_ & R1 & L1); [picks|]. destruct (Hb ti) as (N2 & R2 & L2); [picks|].
  destruct (Hb tm) as (_ & R3 & L3); [picks|].
  unfold next_moment. apply wp_if; intros Hc.
  { apply wp_ret. exists h1. by split. }
  apply negb_false_iff in Hc. destruct r as [run e io tmr ss]. destruct m as [| | | | |i]; cbn in Hc.
  - apply wp_ret. exists h1. by split.
  - destruct io; [|done]. apply base_ends; try done; [picks|unfold up; cbn; destruct e; rewrite ?lookup_insert; repeat case_decide; congruence|maps].
  - destruct tmr; [|done]. apply base_ends; try done; [picks|unfold up; cbn; destruct e, io; rewrite ?lookup_insert; repeat case_decide; congruence|maps].
  - destruct e; [|done]. apply base_ends; try done; [picks|unfold up; cbn; rewrite ?lookup_insert; repeat case_decide; congruence|maps].
  - apply andb_true_iff in Hc as [-> Hr]. by apply session_starts.
  - cbn [sessions] in *. destruct (ss !! i) as [t|] eqn:Et; [|done]. apply wp_bind, wp_ret. cbn beta.
    assert (t ∈ ss) as Hin by (by eapply list_elem_of_lookup_2). destruct (Dss t Hin) as (? & ? & ?).
    assert (ss ++ [tm; ti; te] ≡ₚ t :: delete i ss ++ [tm; ti; te]) as Hp.
    { by rewrite (delete_Permutation ss i t Et) at 1. }
    destruct (owned_refs _ _ t Ho) as (_ & Rt & _); [apply elem_of_app; by left|].
    pose proof (wp_task_unref t h1 ps _ d n (λ _ h', heap_owns h0 h' ps (delete i ss ++ [tm; ti; te]) d n ∧ task_system h' = task_system h1)
      (owns_perm _ _ _ _ _ _ Hp Ho)) as Hun.
    assert (up te ti tm (Running run e io tmr ss) (tasks h1) !! t = Some 1) as Hu.
    { unfold up. cbn. destruct e, io, tmr; rewrite ?lookup_insert; repeat case_decide; congruence. }
    eapply wp_bind_val; [by apply task_unref_last|]. apply wp_ret.
    unfold wp in Hun. rewrite (task_unref_last t h1) in Hun by done. destruct Hun as [Ho' Hts]; [intros h' ? []; by split|].
    eexists. split; [split; [exact Ho'|]|done]. cbn. unfold set_tasks. cbn. f_equal. maps.
Qed.

(** The three tasks get their references. *)
Lemma start_tasks h :
  heap_owns h0 h ps [tm; ti; te] d n →
  ∃ h', (∀ (l : M heap unit) Q Bl, wp l Q Bl h' → wp (hev_task_ref te;; hev_task_ref ti;; hev_task_ref tm;; l) Q Bl h) ∧
    in_run (Running true true true true []) h' h.
Proof.
  intros Ho. pose proof (owned_distinct [] _ Ho) as (D1 & D2 & D3 & _).
  assert (∀ t, t ∈ [tm; ti; te] → tasks h !! t = Some 1) as Hb by (intros t Ht; by apply (owned_refs [] h t)).
  eexists. split; [|split; [exact Ho|reflexivity]]. intros l Q Bl Hl.
  eapply wp_bind_val; [apply task_ref_val, Hb; picks|]. cbn [tasks set_tasks].
  eapply wp_bind_val; [apply task_ref_val; cbn; rewrite lookup_insert_ne by done; apply Hb; picks|]. cbn [tasks set_tasks].
  eapply wp_bind_val; [apply task_ref_val; cbn; rewrite !lookup_insert_ne by done; apply Hb; picks|]. cbn [tasks set_tasks].
  match goal with |- wp _ _ _ ?h1 => match type of Hl with wp _ _ _ ?h2 => replace h1 with h2; [done|] end end.
  unfold set_tasks. cbn. f_equal. maps; done.
Qed.

(** The run ends with every reference back, or a task goes on for ever. *)
Lemma system_run_ok l r h h1 :
  in_run r h h1 →
  wp (hev_task_system_run te ti tm l r) (λ _ h', heap_owns h0 h' ps [tm; ti; te] d n ∧ task_system h' = task_system h1)
    (unfinished te ti tm) h.
Proof.
  revert r h h1. induction l as [|m l IH]; intros r h h1 Hr; cbn [hev_task_system_run]; (apply wp_if; intros Hruns).
  1, 3: destruct Hr as [Ho ->], r as [run [] [] [] []]; try done; by apply wp_ret; destruct h1.
  - destruct Hr as [Ho ->]. apply negb_false_iff in Hruns. unfold wp, blocked, unfinished. cbn [tasks set_tasks].
    assert (∀ t, t ∈ sessions r ++ [tm; ti; te] → tasks h0 !! t = None) as H0 by (intros t Ht; by apply (owned_refs (sessions r) h1)).
    pose proof (owned_distinct _ _ Ho) as (D1 & D2 & D3 & Dss). setoid_rewrite elem_of_app in H0. unfold runs in Hruns.
    destruct (sessions r) as [|t ss] eqn:Es.
    + destruct (event_runs r) eqn:Ee; [exists te|destruct (io_runs r) eqn:Ei; [exists ti|destruct (timer_runs r) eqn:Em; [exists tm|done]]];
        (split; [apply H0; right; picks|]); left; unfold up; rewrite Ee, ?Ei, ?Em; repeat case_match; rewrite ?lookup_insert; repeat case_decide; congruence.
    + destruct (Dss t) as (? & ? & ?); [by left|]. exists t. split; [apply H0; left; by left|]. right. split; [rewrite !not_elem_of_cons; split_and!; [done..|apply not_elem_of_nil]|].
      destruct (owned_refs (t :: ss) h1 t Ho) as (_ & Ht & _); [by left|]. exists 1.
      unfold up. repeat case_match; rewrite ?lookup_insert; repeat case_decide; congruence.
  - apply wp_bind. eapply wp_mono; [by apply next_moment_ok| |done]. intros r' h' (h1' & Hr' & Hts).
    eapply wp_mono; [by eapply IH| |done]. intros [] h2 [? ?]. split; [done|congruence].
Qed.
End Scheduler.
End Heap.

(** ** The engine *)

Definition nz (x : Z) : list Z := if truthy x then [x] else [].
Definition pos (fd : Z) : list Z := if 0 <=? fd then [fd] else [].
Definition local_fd (s : engine) : list Z := if truthy (tun_fd_local s) then pos (tun_fd s) else [].

Lemma nz_ne x : x ≠ 0 → nz x = [x].
Proof. intros H. unfold nz, truthy. by rewrite (proj2 (Z.eqb_neq _ _)). Qed.

Lemma pos_ge fd : 0 <= fd → pos fd = [fd].
Proof. intros H. unfold pos. by rewrite (proj2 (Z.leb_le _ _)). Qed.

(** The engine found the heap [h0] and the descriptors [f0]. *)
Record owns (h0 : heap) (f0 : gmap Z file) (s : engine) : Prop := {
  es_heap : heap_owns h0 (mem s) (nz (udp s) ++ nz (tcp s)) (nz (task_lwip_timer s) ++ nz (task_lwip_io s) ++ nz (task_event s))
    (mapped s) (netif s);
  es_fds : holds f0 (fds (dev s)) (pos (event_fds s).1 ++ pos (event_fds s).2 ++ local_fd s);
  es_events : -1 <= (event_fds s).1 ∧ -1 <= (event_fds s).2
}.

(** What the results of the initialisation's steps may be. *)
Definition result (r : Z) : Prop := r = 0 ∨ r = -1.

Section Steps.
Context `{Interfaces} `{Resolver} (cfg : config) (h0 : heap) (f0 : gmap Z file).

Lemma wp_on_dev {A} (m : M device A) Q s : wp m (λ a d, Q a (set_dev d s)) never (dev s) → wp (on_dev m) Q never s.
Proof. intros Hw. apply wp_zoom. eapply wp_mono; [exact Hw|done|done]. Qed.

Lemma wp_on_mem {A} (m : M heap A) Q s : wp m (λ a h, Q a (set_mem h s)) never (mem s) → wp (on_mem m) Q never s.
Proof. intros Hw. apply wp_zoom. eapply wp_mono; [exact Hw|done|done]. Qed.

Lemma owns_dev s d : owns h0 f0 s → fds d = fds (dev s) → owns h0 f0 (set_dev d s).
Proof. intros [] Hd. split; cbn; [done| |done]. by rewrite Hd. Qed.

(** A step of the device's configuration: it leaves what the engine owns alone. *)
Lemma wp_quiet m (Q : Z → engine → Prop) s :
  (∀ d, wp m (quiet d) never d) → owns h0 f0 s →
  (∀ r d, result r → owns h0 f0 (set_dev d s) → Q r (set_dev d s)) → wp (on_dev m) Q never s.
Proof.
  intros Hm Hs HQ. apply wp_on_dev. eapply wp_mono; [apply Hm| |done]. intros r d [[Hf _] Hr]. by apply HQ, owns_dev.
Qed.

Definition device_state (tf tl : Z) (d : device) (sc : list (bytes * bytes * Z)) (s : engine) : engine :=
  set_scripts sc (set_tun tf tl (set_dev d s)).

Lemma tunnel_init_extern ext s :
  owns h0 f0 s → tun_fd_local s = 0 → 0 <= ext →
  wp (tunnel_init cfg ext) (λ r s', result r ∧ owns h0 f0 s' ∧
    ∃ tf d, s' = device_state tf 0 d (scripts s) s) never s.
Proof.
  intros Hs Hl He. unfold tunnel_init. rewrite (proj2 (Z.leb_le _ _)) by done.
  apply wp_bind, wp_on_dev, wp_ioctl. intros r d [Hd _] Hr. pose proof (owns_dev _ _ Hs Hd) as Hs1.
  apply wp_if; intros _.
  - apply wp_ret. split; [by right|]. split; [done|]. exists (tun_fd s), d. rewrite <- Hl. by destruct s.
  - apply wp_bind, wp_modify, wp_ret. split; [by left|]. split; [|exists ext, d; rewrite <- Hl; by destruct s].
    destruct Hs1 as [Hh Hf He']. split; [done| |done]. cbn in *. unfold local_fd in *. cbn in *. by rewrite Hl in *.
Qed.

Lemma wp_when_some {A} (o : option A) (f : A → M engine Z) Q s :
  (∀ a, o = Some a → wp (f a) Q never s) → (o = None → Q 0 s) → wp (when_some o f) Q never s.
Proof. destruct o; cbn; auto. Qed.

(** A script is started or not. *)
Lemma exec_run_ok path wait (Q : unit → engine → Prop) s :
  owns h0 f0 s → (∀ d sc, owns h0 f0 (set_scripts sc (set_dev d s)) → Q tt (set_scripts sc (set_dev d s))) →
  wp (hev_exec_run path wait) Q never s.
Proof.
  intros Hs HQ. apply wp_bind, wp_on_dev, wp_syscall. intros r d [Hd _] _ _. pose proof (owns_dev _ _ Hs Hd) as Ho.
  apply wp_if; intros _.
  - apply wp_ret. specialize (HQ d (scripts s)). destruct s. by apply HQ.
  - apply wp_bind, wp_gets, wp_modify, HQ. by destruct Ho; split.
Qed.

(** The device that was opened is set up. *)
Lemma configure_device s1 :
  owns h0 f0 s1 →
  wp (res ← on_dev (hev_tunnel_set_mtu (hev_config_get_tunnel_mtu cfg));
      if res <? 0 then mret (-1) else
      res ← when_some (hev_config_get_tunnel_ipv4_address cfg) (λ ipv4, on_dev (hev_tunnel_set_ipv4 ipv4 32));
      if res <? 0 then mret (-1) else
      res ← when_some (hev_config_get_tunnel_ipv6_address cfg) (λ ipv6, on_dev (hev_tunnel_set_ipv6 ipv6 128));
      if res <? 0 then mret (-1) else
      res ← on_dev (hev_tunnel_set_state 1);
      if res <? 0 then mret (-1) else
      when_some (hev_config_get_tunnel_post_up_script cfg) (λ path, hev_exec_run path 0;; mret 0))
    (λ r s', result r ∧ owns h0 f0 s' ∧ ∃ d' sc, s' = set_scripts sc (set_dev d' s1)) never s1.
Proof.
  intros Hs1. set (K := λ (r : Z) (s' : engine), _).
  assert (∀ r d, result r → owns h0 f0 (set_dev d s1) → K r (set_dev d s1)) as Hend.
  { intros r d Hr Ho. split; [done|]. split; [done|]. exists d, (scripts s1). by destruct s1. }
  apply wp_bind, wp_quiet; [intros; apply set_mtu_quiet|done|]. intros r1 d1 _ Ho1.
  apply wp_if; intros _; [by apply wp_ret, Hend; [right|]|].
  apply wp_bind, wp_mono with (Q := λ _ s', ∃ d, s' = set_dev d s1 ∧ owns h0 f0 s') (Bl := never); [|intros r2 s2 (d2 & -> & Ho2)|done].
  { apply wp_when_some; [intros a _|eauto]. apply wp_quiet; [intros; by apply set_ipv4_quiet|done|eauto]. }
  apply wp_if; intros _; [by apply wp_ret, Hend; [right|]|].
  apply wp_bind, wp_mono with (Q := λ _ s', ∃ d, s' = set_dev d s1 ∧ owns h0 f0 s') (Bl := never); [|intros r3 s3 (d3 & -> & Ho3)|done].
  { apply wp_when_some; [intros a _|eauto]. apply wp_quiet; [intros; by apply set_ipv6_quiet|done|eauto]. }
  apply wp_if; intros _; [by apply wp_ret, Hend; [right|]|].
  apply wp_bind, wp_quiet; [intros; apply set_state_quiet|done|]. intros r4 d4 _ Ho4.
  apply wp_if; intros _; [by apply wp_ret, Hend; [right|]|].
  apply wp_when_some; [intros path _|intros _; apply Hend; [by left|done]].
  apply wp_bind, (exec_run_ok _ _ _ _ Ho4). intros d5 sc Ho5. apply wp_ret. split; [by left|]. split; [done|]. by eexists d5, _.
Qed.

Lemma tunnel_init_local ext s :
  owns h0 f0 s → tun_fd_local s = 0 → ext < 0 →
  wp (tunnel_init cfg ext) (λ r s', result r ∧ owns h0 f0 s' ∧
    ∃ tf d sc, s' = device_state tf 1 d sc s ∧ (0 <= tf ∨ tf = -1 ∧ r = -1)) never s.
Proof.
  intros Hs Hl He. unfold tunnel_init. rewrite (proj2 (Z.leb_gt _ _)) by done.
  apply wp_bind, wp_modify, wp_bind, wp_on_dev. cbn [dev set_tun].
  eapply wp_mono; [apply open_device| |done]. cbn beta. intros fd d Hd.
  apply wp_bind, wp_modify. set (s1 := set_tun fd _ _).
  destruct Hd as [[-> Hd]|(Hfd & Hfree & Hd)].
  { cbn [Z.ltb Z.compare]. apply wp_ret. split; [by right|]. split; [|exists (-1), d, (scripts s); split; [by destruct s|by right]].
    destruct Hs as [Hh Hf He']. split; [done| |done]. unfold local_fd in *. cbn in *. rewrite Hl in Hf. cbn in Hf. by rewrite Hd. }
  rewrite (proj2 (Z.ltb_ge _ _)) by done.
  assert (owns h0 f0 s1) as Hs1.
  { destruct Hs as [Hh Hf He']. split; [done| |done]. unfold local_fd in *. cbn in *. rewrite Hl in Hf. change (truthy 0) with false in Hf.
    change (truthy 1) with true. cbn in Hf |- *. rewrite app_nil_r in Hf. rewrite (pos_ge fd), Hd by done.
    eapply holds_perm; [|by apply holds_add]. solve_Permutation. }
  apply wp_mono with (Q := λ r s', result r ∧ owns h0 f0 s' ∧ ∃ d' sc, s' = set_scripts sc (set_dev d' s1)) (Bl := never); [|
    intros r s' (Hr & Ho & d' & sc & ->); split; [done|]; split; [done|]; exists fd, d', sc; by split; [destruct s|left]|done].
  apply (configure_device s1 Hs1).
Qed.

(** The stack. When the listener could not be made its control block is left behind. *)
Definition left_behind (ok : bool) (h0' : heap) : Prop :=
  h0' = h0 ∨ ok = false ∧ ∃ p, lw h0 !! p = None ∧ h0' = stray h0 p TcpBound.

Lemma gateway_init_ok s :
  owns h0 f0 s → netif s = false → tcp s = 0 → udp s = 0 →
  wp gateway_init (λ r s', result r ∧ ∃ h0', left_behind (hd true (listens (mem s))) h0' ∧ owns h0' f0 s' ∧
    ∃ h n t u, s' = set_udp u (set_tcp t (set_netif n (set_mem h s))) ∧ task_system h = task_system (mem s)) never s.
Proof.
  destruct s as [dv hp tf tl nf tc ud ev te ti tm mp lf sf to ub sc]. intros [Hh Hf He'] Hn Ht Hu. cbn in Hh, Hf, He', Hn, Ht, Hu. subst.
  change (nz 0 ++ nz 0) with (@nil Z) in Hh. set (s := Engine _ _ _ _ _ _ _ _ _ _ _ _ _ _ _ _ _ _) in *.
  set (K := λ (r : Z) (s' : engine), _).
  assert (∀ h0' r h n t u, left_behind (hd true (listens hp)) h0' → result r → heap_owns h0' h (nz u ++ nz t) (nz (task_lwip_timer s) ++ nz (task_lwip_io s) ++ nz (task_event s))
    (mapped s) n → task_system h = task_system (mem s) → K r (set_udp u (set_tcp t (set_netif n (set_mem h s))))) as Hend.
  { intros h0' r h n t u Hlb Hr Ho Hts. split; [done|]. exists h0'. split; [done|]. split; [by split|]. by exists h, n, t, u. }
  pose proof (or_introl eq_refl : left_behind (hd true (listens hp)) h0) as Hlb.
  unfold gateway_init. apply wp_bind, wp_on_mem, (wp_alloc _ _ _ _ _ _ _ Hh). intros ok h1 Hh1 [Hk1 Hl1].
  apply wp_bind, wp_modify, wp_if; intros Hok.
  { apply wp_ret. destruct ok; [done|]. by apply (Hend h0 (-1) h1 false 0 0); [|right|..]. }
  destruct ok; [|done]. apply wp_bind, wp_modify. set (h2 := set_netif_added true h1).
  assert (heap_owns h0 h2 [] (nz (task_lwip_timer s) ++ nz (task_lwip_io s) ++ nz (task_event s)) (mapped s) true) as Hh2
    by (by destruct Hh1; split).
  apply wp_bind, wp_on_mem, (wp_pcb_new _ _ _ _ _ _ _ _ Hh2).
  { intros h3 Hh3 [Hk3 _]. apply wp_bind, wp_modify. cbn [truthy negb Z.eqb]. change (truthy 0) with false. cbn [negb].
    apply wp_ret, (Hend h0 (-1) h3 true 0 0); [done|by right|done|]. cbn in *. congruence. }
  intros p h3 Hp Hh3 Hpk [Hk3 Hl3]. apply wp_bind, wp_modify.
  rewrite (truthy_ne p) by done. cbn [negb].
  assert (∀ h0' q h4, left_behind (hd true (listens hp)) h0' → heap_owns h0' h4 (nz q) (nz (task_lwip_timer s) ++ nz (task_lwip_io s) ++ nz (task_event s))
    (mapped s) true → task_system h4 = task_system h3 →
    wp (p ← on_mem (pcb_new UdpBound); modify (set_udp p);; if negb (truthy p) then mret (-1) else mret 0) K never
      (set_tcp q (set_mem h4 (set_tcp p (set_mem h3 (set_mem h2 (set_netif true (set_mem h1 s)))))))) as Hudp.
  { intros h0' q h4 Hlb' Hh4 Hk4. apply wp_bind, wp_on_mem, (wp_pcb_new _ _ _ _ _ _ _ _ Hh4).
    - intros h5 Hh5 [Hk5 _]. apply wp_bind, wp_modify. change (truthy 0) with false. cbn [negb]. apply wp_ret.
      apply (Hend h0' (-1) h5 true q 0); [done|by right|done|cbn in *; congruence].
    - intros u h5 Hu5 Hh5 _ [Hk5 _]. apply wp_bind, wp_modify. rewrite truthy_ne by done. cbn [negb]. apply wp_ret.
      apply (Hend h0' 0 h5 true q u); [done|by left| |cbn in *; congruence]. by rewrite (nz_ne u). }
  apply wp_bind, wp_on_mem, (wp_tcp_listen _ _ _ _ _ _ _ _ _ Hh3 Hpk).
  - intros q h4 Hq Hh4 Hk4. apply wp_bind, wp_modify, (Hudp h0 q h4); [done| |done]. by rewrite nz_ne.
  - intros h4 Hl Hp0 Hh4 Hk4. apply wp_bind, wp_modify, (Hudp (stray h0 p TcpBound) 0 h4); [|done|done].
    right. split; [cbn in *; congruence|by exists p].
Qed.

(** A new task, as the steps below make one. *)
Lemma wp_new_task (Q : Z → engine → Prop) s ps ts d n :
  heap_owns h0 (mem s) ps ts d n →
  (∀ t h, heap_owns h0 h ps (nz t ++ ts) d n → task_system h = task_system (mem s) → Q t (set_mem h s)) →
  wp (on_mem hev_task_new) Q never s.
Proof.
  intros Hh HQ. apply wp_on_mem, (wp_task_new _ _ _ _ _ _ _ Hh).
  - intros h Hh' [Hk _]. by apply HQ.
  - intros t h Ht Hh' [Hk _]. apply HQ; [by rewrite nz_ne|done].
Qed.

Lemma wp_install f (Q : Z → device → Prop) d :
  (∀ fd d', 0 <= fd → fds d !! fd = None → fds d' = <[fd := f]> (fds d) → Q fd d') → wp (install f) Q never d.
Proof.
  intros HQ. apply wp_bind, wp_gets, wp_bind, wp_modify, wp_ret.
  destruct (new_fd_is_free (fds d)) as (? & ? & _). by apply HQ.
Qed.

Lemma task_result (t : Z) (Q : Z → engine → Prop) s :
  (∀ r, result r → (r = 0 → t ≠ 0) → Q r s) → wp (if negb (truthy t) then mret (-1) else mret 0) Q never s.
Proof.
  intros HQ. unfold truthy. destruct (Z.eqb_spec t 0); apply wp_ret, HQ; [by right|done|by left|done].
Qed.

Lemma event_task_init_ok s :
  owns h0 f0 s → event_fds s = (-1, -1) → task_event s = 0 → task_lwip_io s = 0 → task_lwip_timer s = 0 →
  wp event_task_init (λ r s', result r ∧ owns h0 f0 s' ∧
    ∃ d e h t, s' = set_tasks3 t 0 0 (set_mem h (set_event_fds e (set_dev d s))) ∧ task_system h = task_system (mem s) ∧ (r = 0 → t ≠ 0)) never s.
Proof.
  destruct s as [dv hp tf tl nf tc ud ev te ti tm mp lf sf to ub sc]. intros [Hh Hf He'] He Ht1 Ht2 Ht3. cbn in Hh, He, Ht1, Ht2, Ht3. subst.
  set (s := Engine _ _ _ _ _ _ _ _ _ _ _ _ _ _ _ _ _ _) in *.
  change (holds f0 (fds dv) (local_fd s)) in Hf. change (nz 0 ++ nz 0 ++ nz 0) with (@nil Z) in Hh.
  set (K := λ (r : Z) (s' : engine), _).
  assert (∀ r d e h t, result r → holds f0 (fds d) (pos e.1 ++ pos e.2 ++ local_fd s) →
    heap_owns h0 h (nz ud ++ nz tc) (nz t) mp nf → task_system h = task_system hp → -1 <= e.1 ∧ -1 <= e.2 →
    (r = 0 → t ≠ 0) → K r (set_tasks3 t 0 0 (set_mem h (set_event_fds e (set_dev d s))))) as Hend.
  { intros r d e h t Hr Hfd Ho Hts He Hrt. split; [done|]. split; [by split|]. by exists d, e, h, t. }
  unfold event_task_init. apply wp_bind, wp_on_dev, wp_syscall. intros r d1 [Hd1 _] _ Hr. change (fds (dev s)) with (fds dv) in Hd1. rewrite <- Hd1 in Hf.
  apply wp_if; intros Hlt; [by apply wp_ret, (Hend (-1) d1 (-1, -1) hp 0); [right|done..|cbn; lia|]|].
  apply wp_bind, wp_on_dev, wp_install. intros a d2 Ha Hfa Hd2. apply wp_bind, wp_on_dev, wp_install. intros b d3 Hb Hfb Hd3.
  assert (holds f0 (fds d3) (pos a ++ pos b ++ local_fd s)) as Hf3.
  { cbn [dev set_dev] in *. rewrite (pos_ge a), (pos_ge b), Hd3, Hd2 by done. rewrite Hd2 in Hfb.
    eapply holds_perm; [|apply holds_add; [by apply holds_add|done]]. solve_Permutation. }
  apply wp_bind, wp_modify, wp_bind, wp_on_dev, wp_ioctl. intros r2 d4 [Hd4 _] Hr2. cbn in Hd4. rewrite <- Hd4 in Hf3.
  apply wp_if; intros _; [by apply wp_ret, (Hend (-1) d4 (a, b) hp 0); [right|done..|cbn; lia|]|].
  apply wp_bind, (wp_new_task _ _ (nz ud ++ nz tc) [] mp nf); [exact Hh|].
  intros t h Hh' Hts. apply wp_bind, wp_modify, task_result. intros r3 Hr3 Hrt. apply (Hend r3 d4 (a, b) h t); try done; [by rewrite app_nil_r in Hh'|cbn; lia].
Qed.

Lemma lwip_io_task_init_ok s :
  owns h0 f0 s → task_lwip_io s = 0 → task_lwip_timer s = 0 →
  wp lwip_io_task_init (λ r s', result r ∧ owns h0 f0 s' ∧
    ∃ h t, s' = set_tasks3 (task_event s) t 0 (set_mem h s) ∧ task_system h = task_system (mem s) ∧ (r = 0 → t ≠ 0)) never s.
Proof.
  intros [Hh Hf He'] Ht1 Ht2. rewrite Ht1, Ht2 in Hh. unfold lwip_io_task_init.
  apply wp_bind, (wp_new_task _ _ _ _ _ _ Hh). intros t h Hh' Hts. apply wp_bind, wp_modify, task_result.
  intros r Hr Hrt. split; [done|]. split; [split; [|done..]|exists h, t; by destruct s; cbn in *; subst]. cbn. by rewrite Ht2.
Qed.

Lemma lwip_timer_task_init_ok s :
  owns h0 f0 s → task_lwip_timer s = 0 →
  wp lwip_timer_task_init (λ r s', result r ∧ owns h0 f0 s' ∧
    ∃ h t, s' = set_tasks3 (task_event s) (task_lwip_io s) t (set_mem h s) ∧ task_system h = task_system (mem s) ∧ (r = 0 → t ≠ 0)) never s.
Proof.
  intros [Hh Hf He'] Ht. rewrite Ht in Hh. unfold lwip_timer_task_init.
  apply wp_bind, (wp_new_task _ _ _ _ _ _ Hh). intros t h Hh' Hts. apply wp_bind, wp_modify, task_result.
  intros r Hr Hrt. split; [done|]. split; [by split|by exists h, t].
Qed.

Lemma mapped_dns_init_ok s :
  owns h0 f0 s → mapped s = 0 → 0 <= hev_config_get_mapdns_cache_size cfg →
  wp (mapped_dns_init cfg) (λ r s', result r ∧ owns h0 f0 s' ∧
    ∃ h d, s' = set_mapped d (set_mem h s) ∧ task_system h = task_system (mem s)) never s.
Proof.
  intros Ho Hm Hsize. pose proof Ho as [Hh Hf He']. rewrite Hm in Hh. unfold mapped_dns_init. apply wp_if; intros _.
  { apply wp_ret. split; [by left|]. split; [done|]. exists (mem s), 0. rewrite <- Hm. by destruct s. }
  apply wp_bind, wp_on_mem, (wp_dns_new _ _ _ _ _ _ _ _ _ Hh Hsize).
  - intros h Hh' [Hk _]. change (truthy 0) with false. cbn [negb]. apply wp_ret. split; [by right|].
    split; [split; cbn; by rewrite ?Hm|]. exists h, 0. rewrite <- Hm. by destruct s.
  - intros d h Hd Hh' [Hk _]. unfold truthy. rewrite (proj2 (Z.eqb_neq _ _)) by done. cbn [negb].
    apply wp_bind, wp_modify, wp_ret. split; [by left|]. split; [by split|]. by exists h, d.
Qed.

(** ** The tear-down *)

Lemma truthy_true x : truthy x = true → x ≠ 0.
Proof. unfold truthy. destruct (Z.eqb_spec x 0); [done|done]. Qed.

Lemma truthy_0 x : truthy x = false → x = 0.
Proof. unfold truthy. destruct (Z.eqb_spec x 0); [done|done]. Qed.

Lemma wp_when (b : bool) (m : M engine unit) (Q : unit → engine → Prop) s :
  (b = true → wp m Q never s) → (b = false → Q tt s) → wp (when b m) Q never s.
Proof. destruct b; cbn; auto. Qed.

Lemma mapped_dns_fini_ok s :
  owns h0 f0 s → 0 ∉ dnss h0 →
  wp mapped_dns_fini (λ _ s', owns h0 f0 s' ∧ ∃ h, s' = set_mapped 0 (set_mem h s) ∧ task_system h = task_system (mem s)) never s.
Proof.
  intros Ho H0'. pose proof Ho as [Hh Hf He]. apply wp_bind, wp_gets, wp_when; [intros Ht%truthy_true|intros Ht%truthy_0].
  - apply wp_bind, wp_on_mem, (wp_object_unref _ _ _ _ _ _ _ Hh); [done..|]. intros h Hh' [Hk _]. apply wp_modify.
    split; [by split|by exists h].
  - split; [done|]. exists (mem s). rewrite <- Ht. by destruct s.
Qed.

Lemma lwip_timer_task_fini_ok s :
  owns h0 f0 s →
  wp lwip_timer_task_fini (λ _ s', owns h0 f0 s' ∧
    ∃ h, s' = set_tasks3 (task_event s) (task_lwip_io s) 0 (set_mem h s) ∧ task_system h = task_system (mem s)) never s.
Proof.
  intros Ho. pose proof Ho as [Hh Hf He]. apply wp_bind, wp_gets, wp_when; [intros Ht%truthy_true|intros Ht%truthy_0].
  - rewrite (nz_ne (task_lwip_timer s)) in Hh by done.
    apply wp_bind, wp_on_mem, (wp_task_unref _ _ _ _ _ _ _ _ Hh). intros h Hh' [Hk _]. apply wp_modify.
    split; [by split|by exists h].
  - split; [done|]. exists (mem s). rewrite <- Ht. by destruct s.
Qed.

Lemma lwip_io_task_fini_ok s :
  owns h0 f0 s → task_lwip_timer s = 0 →
  wp lwip_io_task_fini (λ _ s', owns h0 f0 s' ∧
    ∃ h, s' = set_tasks3 (task_event s) 0 0 (set_mem h s) ∧ task_system h = task_system (mem s)) never s.
Proof.
  intros Ho Htm. pose proof Ho as [Hh Hf He]. apply wp_bind, wp_gets, wp_when; [intros Ht%truthy_true|intros Ht%truthy_0].
  - rewrite Htm, (nz_ne (task_lwip_io s)) in Hh by done.
    apply wp_bind, wp_on_mem, (wp_task_unref _ _ _ _ _ _ _ _ Hh). intros h Hh' [Hk _]. apply wp_modify.
    destruct s; cbn in *; subst. split; [by split|by exists h].
  - split; [done|]. exists (mem s). destruct s; cbn in *; by subst.
Qed.

Lemma wp_close fd own (Q : unit → device → Prop) d :
  holds f0 (fds d) (fd :: own) → (∀ d', holds f0 (fds d') own → Q tt d') → wp (close fd) Q never d.
Proof. intros Hh HQ. apply wp_bind, wp_gets, wp_modify, HQ. by apply holds_del. Qed.

Lemma event_task_fini_ok s :
  owns h0 f0 s → task_lwip_timer s = 0 → task_lwip_io s = 0 →
  wp event_task_fini (λ _ s', owns h0 f0 s' ∧
    ∃ h d, s' = set_event_fds (-1, -1) (set_tasks3 0 0 0 (set_mem h (set_dev d s))) ∧ task_system h = task_system (mem s)) never s.
Proof.
  destruct s as [dv hp tf tl nf tc ud [e1 e2] te ti tm mp lf sf to ub sc]. intros [Hh Hf He] Htm Hti. cbn in Hh, He, Htm, Hti. subst.
  set (s := Engine _ _ _ _ _ _ _ _ _ _ _ _ _ _ _ _ _ _) in *. change (holds f0 (fds dv) (pos e1 ++ pos e2 ++ local_fd s)) in Hf.
  set (K := λ (r : unit) (s' : engine), _).
  assert (∀ h d, holds f0 (fds d) (local_fd s) → heap_owns h0 h (nz ud ++ nz tc) [] mp nf → task_system h = task_system hp →
    K tt (set_event_fds (-1, -1) (set_tasks3 0 0 0 (set_mem h (set_dev d s))))) as Hend.
  { intros h d Hfd Hho Hts. split; [by split|by exists h, d]. }
  apply wp_bind, wp_gets, wp_bind.
  apply wp_mono with (Q := λ _ s', ∃ h, s' = set_tasks3 0 0 0 (set_mem h s) ∧ heap_owns h0 h (nz ud ++ nz tc) [] mp nf ∧
    task_system h = task_system hp) (Bl := never); [|intros _ s1 (h & -> & Hh1 & Hk1)|done].
  { apply wp_when; cbn [task_event s]; [intros Ht%truthy_true|intros Ht%truthy_0].
    - rewrite (nz_ne te) in Hh by done. apply wp_bind, wp_on_mem, (wp_task_unref _ _ _ _ _ _ _ _ Hh). intros h Hh' [Hk _].
      apply wp_modify. by exists h.
    - exists hp. unfold s in *. by subst. }
  apply wp_bind.
  apply wp_mono with (Q := λ _ s', ∃ d, s' = set_event_fds (-1, e2) (set_tasks3 0 0 0 (set_mem h (set_dev d s))) ∧
    holds f0 (fds d) (pos e2 ++ local_fd s)) (Bl := never); [|intros _ s2 (d & -> & Hf2)|done].
  { apply wp_when; cbn [event_fds s fst]; intros Hl.
    - apply Z.leb_le in Hl. rewrite (pos_ge e1) in Hf by done.
      apply wp_bind, wp_on_dev. eapply wp_close; [exact Hf|]. intros d Hd. apply wp_modify. by exists d.
    - assert (e1 = -1) as -> by (apply Z.leb_gt in Hl; lia). by exists dv. }
  apply wp_when; cbn [event_fds s snd]; intros Hl.
  - apply Z.leb_le in Hl. rewrite (pos_ge e2) in Hf2 by done.
    apply wp_bind, wp_on_dev. eapply wp_close; [exact Hf2|]. intros d' Hd'. apply wp_modify. by apply (Hend h d').
  - assert (e2 = -1) as -> by (apply Z.leb_gt in Hl; lia). by apply (Hend h d).
Qed.

Lemma gateway_fini_ok s :
  owns h0 f0 s →
  wp gateway_fini (λ _ s', owns h0 f0 s' ∧
    ∃ h, s' = set_netif false (set_tcp 0 (set_udp 0 (set_mem h s))) ∧ task_system h = task_system (mem s)) never s.
Proof.
  destruct s as [dv hp tf tl nf tc ud ev te ti tm mp lf sf to ub sc]. intros [Hh Hf He]. cbn in Hh.
  set (s := Engine _ _ _ _ _ _ _ _ _ _ _ _ _ _ _ _ _ _) in *. set (ts := nz tm ++ _) in Hh.
  apply wp_bind, wp_gets, wp_bind.
  apply wp_mono with (Q := λ _ s', ∃ h, s' = set_udp 0 (set_mem h s) ∧ heap_owns h0 h (nz tc) ts mp nf ∧
    task_system h = task_system hp) (Bl := never); [|intros _ s1 (h1 & -> & Hh1 & Hk1)|done].
  { apply wp_when; cbn [udp s]; [intros Ht%truthy_true|intros Ht%truthy_0].
    - rewrite (nz_ne ud) in Hh by done. apply wp_bind, wp_on_mem, (wp_pcb_free _ _ _ _ _ _ _ _ Hh). intros h Hh' [Hk _].
      apply wp_modify. by exists h.
    - exists hp. unfold s in *. by subst. }
  apply wp_bind.
  apply wp_mono with (Q := λ _ s', ∃ h, s' = set_tcp 0 (set_udp 0 (set_mem h s)) ∧ heap_owns h0 h [] ts mp nf ∧
    task_system h = task_system hp) (Bl := never); [|intros _ s2 (h2 & -> & Hh2 & Hk2)|done].
  { apply wp_when; cbn [tcp s]; [intros Ht%truthy_true|intros Ht%truthy_0].
    - rewrite (nz_ne tc) in Hh1 by done. apply wp_bind, wp_on_mem. cbn [mem set_udp set_mem].
      apply (wp_pcb_free _ _ _ _ _ _ _ _ Hh1). intros h Hh' [Hk _]. apply wp_modify. exists h. split_and!; [done|done|congruence].
    - exists h1. unfold s in *. by subst. }
  apply wp_when; cbn [netif s]; intros Hn.
  - apply wp_bind, wp_modify, wp_modify. split; [|by exists (set_netif_added false h2)]. split; [|done..]. by destruct Hh2; split.
  - subst nf. split; [by split|by exists h2].
Qed.

Lemma tunnel_fini_ok s :
  owns h0 f0 s →
  wp (tunnel_fini cfg) (λ _ s', owns h0 f0 s' ∧
    ∃ d tf tl sc, s' = device_state tf tl d sc s ∧ local_fd s' = [] ∧
      (tun_fd_local s = 0 → tl = 0 ∧ sc = scripts s) ∧ (tl = 0 ∨ tf < 0 ∧ tf = tun_fd s ∧ tl = tun_fd_local s)) never s.
Proof.
  destruct s as [dv hp tf tl nf tc ud ev te ti tm mp lf sf to ub sc]. intros [Hh Hf He].
  set (s := Engine _ _ _ _ _ _ _ _ _ _ _ _ _ _ _ _ _ _) in *. unfold tunnel_fini. apply wp_bind, wp_gets.
  cbn [tun_fd_local s]. apply wp_if; intros Hl.
  { apply negb_true_iff, truthy_0 in Hl. subst tl. apply wp_ret. split; [by split|]. exists dv, tf, 0, sc. split_and!; auto. }
  apply negb_false_iff in Hl. apply wp_bind.
  apply wp_mono with (Q := λ _ s', ∃ d sc', s' = set_scripts sc' (set_dev d s) ∧ owns h0 f0 s') (Bl := never);
    [|intros r s1 (d0 & sc' & -> & [_ Hf0 _])|done].
  { apply wp_when_some; [intros path _|intros _; exists dv, sc; split; [done|by split]].
    apply wp_bind, exec_run_ok; [by split|]. intros d sc' Ho. apply wp_ret. by exists d, sc'. }
  assert (local_fd s = pos tf) as Hlf by (unfold local_fd; cbn; by rewrite Hl).
  change (holds f0 (fds d0) (pos ev.1 ++ pos ev.2 ++ local_fd s)) in Hf0. rewrite Hlf in Hf0.
  apply wp_when; cbn [tun_fd s]; intros Hfd.
  - apply Z.leb_le in Hfd. rewrite (pos_ge tf) in Hf0 by done. apply wp_bind, wp_on_dev. cbn [dev set_scripts set_dev s].
    apply (wp_close tf (pos ev.1 ++ pos ev.2)); [eapply holds_perm; [|exact Hf0]; solve_Permutation|].
    intros d Hd. apply wp_modify. split.
    + split; [done| |done]. cbn. change (local_fd _) with (@nil Z). by rewrite app_nil_r.
    + exists d, (-1), 0, sc'. split_and!; [done|done| |by left]. intros ->. done.
  - apply Z.leb_gt in Hfd. split.
    + split; [done| |done]. cbn. rewrite <- Hlf in Hf0. exact Hf0.
    + exists d0, tf, tl, sc'. split_and!; [done| | |by right].
      * unfold local_fd. cbn. rewrite Hl. unfold pos. by rewrite (proj2 (Z.leb_gt _ _)).
      * intros ->. done.
Qed.
End Steps.
