(* ===== verification/SetupRun.v ===== *)
(** * SetupRun: a run of the engine from its start to its end

    Whatever fails, and wherever, the engine goes on or ends with what it found:
    [engine_balanced].
    What a run does when nothing fails is in [SetupOk]. *)
From S2P Require Import Prelude Bytes Socks5 CLib Config ConfigSpec Device Setup SetupSpec.

(** The engine is not running: nothing is allocated, no device of its own is open. *)
Record idle (s : engine) : Prop := {
  id_local : tun_fd_local s = 0; id_netif : netif s = false; id_tcp : tcp s = 0; id_udp : udp s = 0;
  id_events : event_fds s = (-1, -1); id_event : task_event s = 0; id_io : task_lwip_io s = 0;
  id_timer : task_lwip_timer s = 0; id_mapped : mapped s = 0;
  id_added : netif_added (mem s) = false
}.

(** Addresses of what exists are not NULL, and new ones are new. *)
Definition heap_ok (h : heap) : Prop := 0 < next_id h ∧ ∀ k, in_use h k → 0 < k < next_id h.

(** What a run leaves: [d] and [h], and [tf] and [tl] for the device. *)
Definition ended (d : device) (h : heap) (tf tl : Z) (sc : list (bytes * bytes * Z)) (s : engine) : engine :=
  Engine d h tf tl false 0 0 (-1, -1) 0 0 0 0 (log_fd s) (socks5_log_fd s) (timeouts s) (udp_recv_buffer s) sc (0, 0, 0, 0).

Section Run.
Context `{Interfaces} `{Resolver} (cfg : config).

Lemma idle_owns s : idle s → heap_ok (mem s) → owns (mem s) (fds (dev s)) s.
Proof.
  intros [] [Hn Hids]. split.
  - rewrite id_tcp0, id_udp0, id_event0, id_io0, id_timer0, id_mapped0, id_netif0. split; try done.
    + apply holds_refl.
    + apply holds_refl.
    + intros t Ht. by apply elem_of_nil in Ht.
    + change (truthy 0) with false. set_solver.
    + intros E. assert (in_use (mem s) 0) as Hu by (right; by right). specialize (Hids _ Hu). lia.
  - rewrite id_events0. unfold local_fd. rewrite id_local0. apply holds_refl.
  - by rewrite id_events0.
Qed.

Section Owned.
Context (h0 : heap) (f0 : gmap Z file).

(** What the tear-down leaves. *)
Definition released (s s' : engine) : Prop :=
  ∃ d h tf tl sc, s' = ended d h tf tl sc s ∧ fds d = f0 ∧ heap_owns h0 h [] [] 0 false ∧
    task_system h = task_system (mem s) ∧ (tun_fd_local s = 0 → tl = 0 ∧ sc = scripts s) ∧ (tl = 0 ∨ tf < 0).

Lemma fini_ok s : owns h0 f0 s → 0 ∉ dnss h0 → wp (hev_socks5_tunnel_fini cfg) (λ _, released s) never s.
Proof.
  intros Hs H0'. unfold hev_socks5_tunnel_fini.
  apply wp_bind. eapply wp_mono; [by apply (mapped_dns_fini_ok h0 f0)| |done]. intros _ s1 (Hs1 & h1 & -> & Hk1).
  apply wp_bind. eapply wp_mono; [by apply (lwip_timer_task_fini_ok h0 f0)| |done]. intros _ s2 (Hs2 & h2 & -> & Hk2).
  apply wp_bind. eapply wp_mono; [by apply (lwip_io_task_fini_ok h0 f0)| |done]. intros _ s3 (Hs3 & h3 & -> & Hk3).
  apply wp_bind. eapply wp_mono; [by apply (event_task_fini_ok h0 f0)| |done]. intros _ s4 (Hs4 & h4 & d4 & -> & Hk4).
  apply wp_bind. eapply wp_mono; [by apply (gateway_fini_ok h0 f0)| |done]. intros _ s5 (Hs5 & h5 & -> & Hk5).
  apply wp_bind. eapply wp_mono; [by apply (tunnel_fini_ok cfg h0 f0)| |done]. intros _ s6 (Hs6 & d6 & tf & tl & sc & -> & Hlf & Hl0 & Hl1).
  destruct Hs6 as [Hh6 Hf6 _]. rewrite Hlf in Hf6. cbn in Hh6, Hf6. apply holds_nil in Hf6.
  apply wp_modify.
  exists d6, h5, tf, tl, sc. split_and!; [by destruct s|done|done| |done|].
  - cbn in *. congruence.
  - destruct Hl1 as [?|(? & _)]; auto.
Qed.

(** What the initialisation leaves. *)
Record set_up (ext : Z) (s : engine) (r : Z) (s' : engine) : Prop := {
  su_result : result r; su_owns : owns h0 f0 s'; su_logs : log_fd s' = log_fd s ∧ socks5_log_fd s' = socks5_log_fd s;
  su_globals : timeouts s' = timeouts s ∧ udp_recv_buffer s' = udp_recv_buffer s;
  su_system : task_system (mem s') = task_system (mem s);
  su_extern : 0 <= ext → tun_fd_local s' = 0 ∧ scripts s' = scripts s;
  su_tasks : r = 0 → task_event s' ≠ 0 ∧ task_lwip_io s' ≠ 0 ∧ task_lwip_timer s' ≠ 0
}.

(** The steps after the stack. *)
Lemma task_steps_ok ext s tf tl d sc h n t u :
  let s2 := set_udp u (set_tcp t (set_netif n (set_mem h (device_state tf tl d sc s)))) in
  owns h0 f0 s2 → idle s → 0 <= hev_config_get_mapdns_cache_size cfg →
  (0 <= ext → tl = 0 ∧ sc = scripts s) → task_system h = task_system (mem s) →
  wp (in_turn [event_task_init; lwip_io_task_init; lwip_timer_task_init; mapped_dns_init cfg]) (set_up ext s) never s2.
Proof.
  intros s2 Hs2 [] Hsize Hext Hk2. cbn [in_turn].
  apply wp_bind. eapply wp_mono; [by apply (event_task_init_ok h0 f0)| |done].
  intros r3 s3 (Hr3 & Hs3 & d3 & e & h3 & t1 & -> & Hk3 & Ht1).
  cbn [mem set_mem set_netif set_tcp set_udp device_state set_scripts set_tun set_dev s2] in Hk2, Hk3.
  apply wp_if; intros Hlt3; [apply wp_ret; split; try done; [by right|cbn; congruence]|].
  apply wp_bind. eapply wp_mono; [by apply (lwip_io_task_init_ok h0 f0)| |done].
  intros r4 s4 (Hr4 & Hs4 & h4 & t2 & -> & Hk4 & Ht2). cbn [mem set_mem set_tasks3] in Hk4.
  apply wp_if; intros Hlt4; [apply wp_ret; split; try done; [by right|cbn; congruence]|].
  apply wp_bind. eapply wp_mono; [by apply (lwip_timer_task_init_ok h0 f0)| |done].
  intros r5 s5 (Hr5 & Hs5 & h5 & t3 & -> & Hk5 & Ht3). cbn [mem set_mem set_tasks3] in Hk5.
  apply wp_if; intros Hlt5; [apply wp_ret; split; try done; [by right|cbn; congruence]|].
  apply wp_bind. eapply wp_mono; [by apply (mapped_dns_init_ok cfg h0 f0)| |done].
  intros r6 s6 (Hr6 & Hs6 & h6 & d6 & -> & Hk6). cbn [mem set_mem set_tasks3] in Hk6.
  assert (∀ r, result r → r <? 0 = false → r = 0) as Hz by (intros r [-> | ->]; done).
  apply wp_if; intros Hlt6; apply wp_ret; split; try done; [by right|cbn; congruence|by left|cbn; congruence|].
  intros _. cbn. split_and!; auto.
Qed.

(** A run that ends changes nothing but the answers of the allocations. *)
Lemma run_ok stopped happens s :
  owns h0 f0 s → task_event s ≠ 0 → task_lwip_io s ≠ 0 → task_lwip_timer s ≠ 0 →
  wp (hev_socks5_tunnel_run stopped happens)
    (λ _ s', owns h0 f0 s' ∧ ∃ h, s' = set_mem h s ∧ task_system h = task_system (mem s))
    (λ s', unfinished h0 (task_event s') (task_lwip_io s') (task_lwip_timer s') (mem s')) s.
Proof.
  intros Ho H1 H2 H3. unfold hev_socks5_tunnel_run. apply wp_if; intros _.
  { apply wp_ret. split; [done|]. exists (mem s). split; [by destruct s|done]. }
  apply wp_bind, wp_gets. destruct Ho as [Hh Hf He]. rewrite (nz_ne (task_event s)), (nz_ne (task_lwip_io s)), (nz_ne (task_lwip_timer s)) in Hh by done.
  apply wp_zoom. destruct (start_tasks _ _ _ _ _ _ _ _ Hh) as (h & Hs & Hr). apply Hs.
  eapply wp_mono; [by eapply system_run_ok| |done]. intros [] h' [Hh' Hts].
  split; [|by exists h']. split; [|exact Hf|exact He]. cbn. rewrite (nz_ne (task_event s)), (nz_ne (task_lwip_io s)), (nz_ne (task_lwip_timer s)) by done. exact Hh'.
Qed.
End Owned.

Lemma init_steps_ok ext s h0 f0 :
  owns h0 f0 s → idle s → 0 <= hev_config_get_mapdns_cache_size cfg →
  wp (in_turn [tunnel_init cfg ext; gateway_init; event_task_init; lwip_io_task_init; lwip_timer_task_init; mapped_dns_init cfg])
    (λ r s', ∃ h0', left_behind h0 (hd true (listens (mem s))) h0' ∧ set_up h0' f0 ext s r s') never s.
Proof.
  intros Hs Hi Hsize. pose proof Hi as []. set (rest := [event_task_init; _; _; _]). cbn [in_turn].
  apply wp_bind, wp_mono with (Q := λ r s', result r ∧ owns h0 f0 s' ∧ ∃ tf tl d sc, s' = device_state tf tl d sc s ∧
    (0 <= ext → tl = 0 ∧ sc = scripts s)) (Bl := never); [|intros r1 s1 (_ & Hs1 & tf & tl & d & sc & -> & Hext)|done].
  { destruct (decide (0 <= ext)).
    - eapply wp_mono; [by apply tunnel_init_extern| |done]. intros r s' (Hr & Ho & tf & d & ->).
      split_and!; [done|done|]. by exists tf, 0, d, (scripts s).
    - eapply wp_mono; [apply tunnel_init_local; [done|done|lia]| |done]. intros r s' (Hr & Ho & tf & d & sc & -> & _).
      split_and!; [done|done|]. by exists tf, 1, d, sc. }
  apply wp_if; intros _; [apply wp_ret; exists h0; split; [by left|]; split; try done; by right|].
  apply wp_bind. eapply wp_mono; [by apply (gateway_init_ok h0 f0)| |done].
  intros r2 s2 (_ & h0' & Hlb & Hs2 & h2 & n & t & u & -> & Hk2).
  apply wp_if; intros _; [apply wp_ret; exists h0'; split; [done|]; split; try done; by right|].
  eapply wp_mono; [by apply (task_steps_ok h0' f0)| |done]. intros r s' Hu. by exists h0'.
Qed.

(** The control blocks after a run: those of before and, when [tcp_listen] failed, the
    block that was bound and that nobody removes. *)
Definition lw_kept (listened : bool) (m m' : gmap Z pcb) : Prop :=
  m' = m ∨ listened = false ∧ ∃ p, m !! p = None ∧ m' = <[p := TcpBound]> m.

(** A run that does not return: a task that it started has not ended. *)
Definition goes_on (s s' : engine) : Prop :=
  unfinished (mem s) (task_event s') (task_lwip_io s') (task_lwip_timer s') (mem s').

(** What a run changes, besides the answers that are used up. *)
Record clean (ext : Z) (s s' : engine) : Prop := {
  cl_fds : fds (dev s') = fds (dev s); cl_lw : lw_kept (hd true (listens (mem s))) (lw (mem s)) (lw (mem s')); cl_tasks : tasks (mem s') = tasks (mem s);
  cl_dnss : dnss (mem s') = dnss (mem s); cl_heap : heap_ok (mem s'); cl_logs : log_fd s' = log_fd s ∧ socks5_log_fd s' = socks5_log_fd s;
  cl_extern : 0 <= ext → tun_fd_local s' = 0 ∧ scripts s' = scripts s;
  cl_idle : tun_fd_local s' = 0 ∨ tun_fd s' < 0; cl_system : task_system (mem s') = task_system (mem s);
  cl_rest : netif s' = false ∧ tcp s' = 0 ∧ udp s' = 0 ∧ event_fds s' = (-1, -1) ∧ task_event s' = 0 ∧ task_lwip_io s' = 0 ∧
    task_lwip_timer s' = 0 ∧ mapped s' = 0 ∧ netif_added (mem s') = false
}.

Lemma released_clean ext s r s1 s2 h0 :
  left_behind (mem s) (hd true (listens (mem s))) h0 →
  set_up h0 (fds (dev s)) ext s r s1 → released h0 (fds (dev s)) s1 s2 → clean ext s s2.
Proof.
  intros Hlb [] (d & h & tf & tl & sc & -> & Hfd & [] & Hk & Hl0 & Hl). apply holds_nil in ho_lw, ho_tasks.
  assert (tasks h0 = tasks (mem s) ∧ dnss h0 = dnss (mem s)) as [Et Ed] by (by destruct Hlb as [->|(_ & p & _ & ->)]).
  change (truthy 0) with false in ho_dnss. split; cbn; try done; try congruence.
  - rewrite ho_lw. destruct Hlb as [->|(? & p & Hp & ->)]; [by left|right]. split; [done|]. by exists p.
  - set_solver.
  - intros He. destruct (su_extern0 He) as [E1 E2]. destruct (Hl0 E1) as [-> ->]. by split.
Qed.

Lemma wp_total {S A} (m : M S A) Q Bl s : wp m Q never s → wp m Q Bl s.
Proof. intros Hm. by eapply wp_mono; [exact Hm| |intros ? []]. Qed.

Lemma wp_outcome {S A} (m : M S A) Q Bl s :
  wp m Q Bl s → (∃ s', m s = Blocked s' ∧ Bl s') ∨ ∃ a s', m s = Val a s' ∧ Q a s'.
Proof. unfold wp. destruct (m s) as [a s'|s'|]; [right; by exists a, s'|left; by exists s'|done]. Qed.

(** The tunnel from its initialisation on. *)
Lemma tunnel_ok ext stopped happens s :
  idle s → heap_ok (mem s) → 0 <= hev_config_get_mapdns_cache_size cfg →
  wp (res ← hev_socks5_tunnel_init cfg ext;
      when (negb (res <? 0)) (hev_socks5_tunnel_run stopped happens;; hev_socks5_tunnel_fini cfg);;
      mret res) (λ r s', result r ∧ clean ext s s') (goes_on s) s.
Proof.
  intros Hi Hh Hsize. pose proof (idle_owns s Hi Hh) as Ho.
  assert (0 ∉ dnss (mem s)) as Hz by (intros E; destruct Hh as [_ Hids]; specialize (Hids 0 (or_intror (or_intror E))); lia).
  apply wp_bind, wp_bind, wp_total. eapply wp_mono; [by apply init_steps_ok| |done]. intros r s1 (h0 & Hlb & Hs1).
  assert (0 ∉ dnss h0) as H0' by (by destruct Hlb as [->|(_ & p & _ & ->)]).
  pose proof (su_owns _ _ _ _ _ _ Hs1) as Ho1. apply wp_if; intros Hlt.
  - apply wp_bind, wp_total. eapply wp_mono; [by apply (fini_ok h0 (fds (dev s)))| |done]. intros [] s2 Hs2. apply wp_ret. cbn [Z.ltb Z.compare negb when].
    apply wp_bind, wp_ret, wp_ret. split; [by right|]. by eapply released_clean.
  - apply wp_ret. cbn [Z.ltb Z.compare negb when].
    assert (r = 0) as -> by (by destruct (su_result _ _ _ _ _ _ Hs1) as [-> | ->]).
    destruct (su_tasks _ _ _ _ _ _ Hs1 eq_refl) as (? & ? & ?).
    apply wp_bind, wp_bind. eapply wp_mono; [by apply (run_ok h0 (fds (dev s)) stopped happens s1)| |].
    + intros [] s2 (Ho2 & h & -> & Hts). apply wp_total.
      eapply wp_mono; [by apply (fini_ok h0 (fds (dev s)))| |done]. intros [] s3 Hs3. apply wp_ret. split; [by left|].
      eapply released_clean; [done| |exact Hs3]. destruct Hs1. by split; cbn; try congruence.
    + intros s2 Hu. unfold goes_on. by destruct Hlb as [->|(_ & p & _ & ->)].
Qed.

(** ** The logs and the rest *)

(** The device's part changed, but not the descriptors. *)
Lemma limit_nofile_ok d : wp set_limit_nofile (λ _ d', fds d' = fds d) never d.
Proof.
  apply wp_bind, wp_syscall. intros r1 d1 [E1 _] _ _. apply wp_if; intros _; [by apply wp_ret|].
  apply wp_bind, wp_syscall. intros r2 d2 [E2 _] _ _. apply wp_if; intros _; [apply wp_ret; congruence|].
  apply wp_syscall. intros r3 d3 [E3 _] _ _. congruence.
Qed.

Lemma daemon_ok d : wp run_as_daemon (λ _ d', fds d' = fds d) never d.
Proof.
  apply wp_bind, wp_open_fd; [intros d' [E _]; by apply wp_ret|]. intros fd d' Hfd Hfree He _.
  rewrite (proj2 (Z.ltb_ge _ _)) by done. apply wp_bind, wp_gets, wp_modify. cbn. by rewrite He, delete_insert_id.
Qed.

(** From the limits on, with the logs open. *)
Lemma middle_ok ext stopped happens s :
  idle s → heap_ok (mem s) → 0 <= hev_config_get_mapdns_cache_size cfg → task_system (mem s) = false →
  wp (run_logged cfg ext stopped happens) (λ r s', result r ∧ clean ext s s') (goes_on s) s.
Proof.
  intros Hi Hh Hsize Ht.
  assert (∀ d, idle (set_dev d s)) as Hid by (intros d; by destruct Hi).
  apply wp_bind, wp_total, wp_on_dev. eapply wp_mono; [apply limit_nofile_ok| |done]. intros r1 d1 E1.
  apply wp_bind, wp_total, wp_mono with (Q := λ _ s', ∃ d, s' = set_dev d s ∧ fds d = fds (dev s)) (Bl := never); [|intros [] s2 (d2 & -> & E2)|done].
  { apply wp_when; intros _; [|by exists d1]. apply wp_on_dev. eapply wp_mono; [apply daemon_ok| |done].
    intros [] d2 E2. exists d2. split; [done|]. cbn in E2. congruence. }
  unfold hev_task_system_init. apply wp_bind, wp_total, wp_on_mem. cbn [mem set_dev].
  assert (∃ ok h, alloc (mem s) = Val ok h ∧ lw h = lw (mem s) ∧ tasks h = tasks (mem s) ∧ dnss h = dnss (mem s) ∧
    listens h = listens (mem s) ∧ next_id h = next_id (mem s) ∧ netif_added h = netif_added (mem s) ∧ task_system h = task_system (mem s))
    as (ok & h & Ea & K1 & K2 & K3 & K4 & K5 & K6 & K7).
  { unfold alloc. destruct (allocs (mem s)) as [|ok l]; by eexists _, _. }
  eapply wp_bind_val; [exact Ea|]. apply wp_if; intros Hok.
  { apply wp_ret. cbn [Z.ltb Z.compare]. apply wp_ret. split; [by right|]. destruct Hi. split; cbn; try congruence; [by left| |by split|by split|by left|split_and!; congruence].
    destruct Hh as [Hn Hids]. unfold heap_ok, in_use in *. rewrite K1, K2, K3, K5. by split. }
  apply wp_bind, wp_modify, wp_ret. cbn [Z.ltb Z.compare]. set (s3 := set_mem _ _).
  assert (idle s3) as Hi3 by (destruct Hi; split; cbn; try done; congruence).
  assert (heap_ok (mem s3)) as Hh3.
  { destruct Hh as [Hn Hids]. unfold heap_ok, in_use in *. cbn. rewrite K1, K2, K3, K5. by split. }
  pose proof (tunnel_ok ext stopped happens s3 Hi3 Hh3 Hsize) as Hw.
  assert (∀ s', goes_on s3 s' → goes_on s s') as Hgo by (intros s'; unfold goes_on, unfinished; cbn; by rewrite K2).
  unfold wp in Hw |- *. unfold mbind, M_bind in *.
  destruct (hev_socks5_tunnel_init cfg ext s3) as [r s4|s4|]; [|by apply Hgo|done].
  destruct (when (negb (r <? 0)) _ s4) as [u s5|s5|]; [|by apply Hgo|done].
  destruct Hw as [Hr []]. cbn. split; [done|]. cbn in *. rewrite K4 in *. split; cbn; try done; try congruence.
Qed.

(** Without a path nothing is opened, and the descriptors of an earlier run are what
    will be closed. *)
Definition log_ready (s : engine) : Prop :=
  hev_config_get_misc_log_file cfg = None → log_fd s = -1 ∧ socks5_log_fd s = -1.

Definition close_if (fd : Z) (m : gmap Z file) : gmap Z file := if 0 <=? fd then delete fd m else m.

Lemma logs_ended ext s s1 F r (Q : Z → engine → Prop) :
  clean ext s s1 → result r → close_if (log_fd s1) (close_if (socks5_log_fd s1) (fds (dev s1))) = F →
  (∀ s', fds (dev s') = F → lw_kept (hd true (listens (mem s))) (lw (mem s)) (lw (mem s')) → tasks (mem s') = tasks (mem s) → dnss (mem s') = dnss (mem s) →
    heap_ok (mem s') → task_system (mem s') = task_system (mem s) → (0 <= ext → idle s' ∧ scripts s' = scripts s) →
    (idle s' ∨ tun_fd s' < 0) → (log_fd s' = log_fd s ∧ socks5_log_fd s' = socks5_log_fd s) → Q r s') →
  wp (hev_socks5_logger_fini;; hev_logger_fini;; mret r) Q never s1.
Proof.
  intros [] Hr HF HQ.
  assert (∀ d, tun_fd_local s1 = 0 → idle (set_dev d s1)) as Hid by (intros d E; destruct cl_rest0 as (?&?&?&?&?&?&?&?&?); by split).
  apply wp_bind, wp_mono with (Q := λ _ s', s' = set_dev (set_fds (close_if (socks5_log_fd s1) (fds (dev s1))) (dev s1)) s1) (Bl := never);
    [|intros [] s2 ->|done].
  { apply wp_bind, wp_gets. unfold close_if. destruct (0 <=? socks5_log_fd s1); [|apply wp_ret; by destruct s1 as [[]]].
    by apply wp_on_dev, wp_bind, wp_gets, wp_modify. }
  apply wp_bind, wp_mono with (Q := λ _ s', s' = set_dev (set_fds F (dev s1)) s1) (Bl := never); [|intros [] s2 ->|done].
  { apply wp_bind, wp_gets. cbn [log_fd set_dev]. unfold close_if at 1 in HF. destruct (0 <=? log_fd s1); [|by apply wp_ret; rewrite <- HF].
    apply wp_on_dev, wp_bind, wp_gets, wp_modify. by rewrite <- HF. }
  apply wp_ret, HQ; cbn; try done.
  - intros He. destruct (cl_extern0 He). auto.
  - destruct cl_idle0; auto.
Qed.

Lemma main_inner_ok ext stopped happens s :
  idle s → heap_ok (mem s) → 0 <= hev_config_get_mapdns_cache_size cfg → task_system (mem s) = false → log_ready s →
  wp (hev_socks5_tunnel_main_inner cfg ext stopped happens) (λ r s', result r ∧ fds (dev s') = fds (dev s) ∧
    lw_kept (hd true (listens (mem s))) (lw (mem s)) (lw (mem s')) ∧
    tasks (mem s') = tasks (mem s) ∧ dnss (mem s') = dnss (mem s) ∧ task_system (mem s') = false ∧ heap_ok (mem s') ∧ log_ready s' ∧
    (0 <= ext → idle s' ∧ scripts s' = scripts s) ∧ (idle s' ∨ tun_fd s' < 0)) (goes_on s) s.
Proof.
  intros Hi Hh Hsize Ht Hlog. unfold hev_socks5_tunnel_main_inner. apply wp_bind, wp_modify. set (s0 := set_globals _ _ s).
  assert (idle s0) as Hi0 by (by destruct Hi). unfold log_ready in *.
  destruct (hev_config_get_misc_log_file cfg) as [path|] eqn:Epath; cbn [hev_logger_init hev_socks5_logger_init].
  2: { destruct (Hlog eq_refl) as [E1 E2]. do 2 apply wp_bind, wp_ret. cbn [Z.ltb Z.compare].
    apply wp_bind. eapply wp_mono; [by apply (middle_ok ext stopped happens s0)| |done]. intros r s1 [Hr Hc].
    apply wp_total, (logs_ended ext s0 s1 (fds (dev s))); [done|done| |].
    - destruct (cl_logs _ _ _ Hc) as [-> ->]. cbn. by rewrite E1, E2, (cl_fds _ _ _ Hc).
    - intros s' ?????? Hidle ? [L1 L2]. split_and!; try done; [cbn in *; congruence|]. intros _. by rewrite L1, L2. }
  apply wp_bind, wp_total, wp_bind, wp_on_dev, wp_open_fd.
  { intros d1 [E1 _]. apply wp_bind, wp_modify, wp_ret. cbn [Z.ltb Z.compare]. apply wp_ret. split_and!; [by right|done|by left|done..| |].
    - intros _. split; [by destruct Hi|done].
    - left. by destruct Hi. }
  intros lf d1 Hlf Hfree1 E1 _. apply wp_bind, wp_modify, wp_ret. rewrite (proj2 (Z.ltb_ge lf 0)) by done. cbn [Z.ltb Z.compare].
  apply wp_bind, wp_total, wp_bind, wp_on_dev, wp_open_fd.
  { intros d2 [E2 _]. apply wp_bind, wp_modify, wp_ret. cbn [Z.ltb Z.compare]. apply wp_total, wp_bind, wp_bind, wp_gets, wp_when.
    - intros _. apply wp_on_dev, wp_bind, wp_gets, wp_modify, wp_ret. split_and!; [by right| |by left|done..| |].
      + cbn in E1, E2 |- *. by rewrite E2, E1, delete_insert_id.
      + intros _. split; [by destruct Hi|done].
      + left. by destruct Hi.
    - cbn. intros Hx. apply Z.leb_gt in Hx. lia. }
  intros sf d2 Hsf Hfree2 E2 _. apply wp_bind, wp_modify, wp_ret. rewrite (proj2 (Z.ltb_ge sf 0)) by done. cbn [Z.ltb Z.compare].
  set (s2 := set_logs _ sf _). assert (idle s2) as Hi2 by (by destruct Hi).
  apply wp_bind. eapply wp_mono; [by apply (middle_ok ext stopped happens s2)| |done]. intros r s3 [Hr Hc].
  apply wp_total, (logs_ended ext s2 s3 (fds (dev s))); [done|done| |].
  2: { intros s' ?????? Hidle ? _. split_and!; try done. cbn in *; congruence. }
  destruct (cl_logs _ _ _ Hc) as [-> ->]. cbn [log_fd socks5_log_fd s2 set_logs set_dev]. rewrite (cl_fds _ _ _ Hc).
  cbn in E1, E2, Hfree1, Hfree2 |- *. rewrite E2, E1.
  unfold close_if. rewrite (proj2 (Z.leb_le 0 _)), (proj2 (Z.leb_le 0 _)) by done. rewrite E1 in Hfree2.
  rewrite delete_insert_id by done. by rewrite delete_insert_id.
Qed.
End Run.


(** ** An example

    The process has its standard descriptors, and the device of the app as 3. *)
Definition example_interfaces : Interfaces := {| given_name := λ name, name; interface_flags := λ _, 0; interface_index := λ _, 1 |}.

#[local] Instance nameless : Resolver := {| inet_pton _ _ := None; getaddrinfo _ _ := None |}.

(** The configuration that the app writes. *)
Definition app_config : config :=
  match hev_config_parse_doc app_document (hev_config_reset config_start) with Some (_, c) => c | None => config_start end.

Definition app_fds : gmap Z file := list_to_map ((λ i, (i, Other)) <$> [0; 1; 2; 3]).
Definition before (answers : list answer) (allocs : list bool) : engine :=
  Engine (Dev app_fds answers [] 0 []) (Heap ∅ false ∅ ∅ false allocs [] 1)
    (-1) 0 false 0 0 (-1, -1) 0 0 0 0 (-1) (-1) (0, 0, 0) 0 [] (0, 0, 0, 0).

Lemma before_idle ans al : idle (before ans al) ∧ heap_ok (mem (before ans al)).
Proof. split; [done|]. split; [done|]. intros k. unfold in_use. cbn. rewrite !dom_empty_L. set_solver. Qed.

