(* ===== verification/SetupOk.v ===== *)
(** * SetupOk: a run of the engine in which nothing fails

    [SetupRun] shows that a run leaves nothing behind; here it is shown what it does
    when every call answers: it asks the kernel for exactly the device that the
    configuration describes, in order, around the two scripts, and it succeeds if the
    DNS cache fits its network ([dns_fits]) and its tasks end ([ends]). *)
From S2P Require Import Prelude Bytes HevList HevRBTree MappedDNS Socks5 CLib Config Device Setup SetupSpec SetupRun.
From Stdlib Require Ascii String.
Import String.StringSyntax.

(** A call that is defined returns, and what it returns satisfies [Q]. That it is
    defined is known from [SetupRun]. *)
Definition sure {S A} (m : M S A) (Q : A → S → Prop) (s : S) : Prop := wp_or True m Q never s.

Section Sure.
Context {S : Type}.

Lemma sure_ret {A} (a : A) Q (s : S) : Q a s → sure (mret a) Q s.
Proof. apply wp_or_ret. Qed.

Lemma sure_bind {A B} (m : M S A) (k : A → M S B) Q s : sure m (λ a, sure (k a) Q) s → sure (m ≫= k) Q s.
Proof. apply wp_or_bind. Qed.

Lemma sure_gets {A} (f : S → A) Q s : Q (f s) s → sure (gets f) Q s.
Proof. apply wp_or_gets. Qed.

Lemma sure_modify (f : S → S) Q s : Q tt (f s) → sure (modify f) Q s.
Proof. done. Qed.

Lemma sure_some {A} (o : option A) Q (s : S) : (∀ a, o = Some a → Q a s) → sure (of_option o) Q s.
Proof. destruct o; [|done]. intros HQ. by apply HQ. Qed.

Lemma sure_mono {A} (m : M S A) (P Q : A → S → Prop) s : sure m P s → (∀ a s', P a s' → Q a s') → sure m Q s.
Proof. unfold sure, wp_or. destruct (m s); auto. Qed.

Lemma sure_val {A} (m : M S A) (Q : A → S → Prop) s a s' : m s = Val a s' → Q a s' → sure m Q s.
Proof. apply wp_or_val. Qed.

Lemma sure_when (b : bool) (m : M S unit) (Q : unit → S → Prop) s : (b = true → sure m Q s) → (b = false → Q tt s) → sure (when b m) Q s.
Proof. destruct b; cbn; [auto|]. intros _ HQ. by apply sure_ret, HQ. Qed.
End Sure.

(** ** Everything answers *)

Definition heap_fine (h : heap) : Prop := allocs h = [] ∧ listens h = [] ∧ 0 < next_id h.
Definition fine (s : engine) : Prop := answers (dev s) = [] ∧ heap_fine (mem s).

Lemma sure_alloc Q h : heap_fine h → Q true h → sure alloc Q h.
Proof. intros (Ha & _) HQ. unfold sure, wp_or, alloc. by rewrite Ha. Qed.

Lemma sure_new_id (Q : Z → heap → Prop) h : heap_fine h → (∀ h', heap_fine h' → Q (next_id h) h') → sure new_id Q h.
Proof. intros (Ha & Hl & Hn) HQ. apply HQ. split_and!; cbn; [done|done|lia]. Qed.

Lemma pcb_new_sure k h : heap_fine h → sure (pcb_new k) (λ p h', p ≠ 0 ∧ heap_fine h') h.
Proof.
  intros Hf. apply sure_bind, sure_alloc; [done|]. apply sure_bind, sure_new_id; [done|]. intros h' Hf'.
  apply sure_bind, sure_modify, sure_ret. destruct Hf as (_ & _ & ?). split; [lia|exact Hf'].
Qed.

Lemma tcp_listen_sure p h : heap_fine h → sure (tcp_listen p) (λ _, heap_fine) h.
Proof.
  intros Hf. apply sure_bind, sure_gets, sure_bind, sure_some. intros k _. apply sure_bind.
  apply sure_val with true h; [unfold can_listen; by rewrite (proj1 (proj2 Hf))|]. apply sure_bind, sure_new_id; [done|]. intros h' Hf'.
  by apply sure_bind, sure_modify, sure_ret.
Qed.

Lemma pcb_free_sure p h : heap_fine h → sure (pcb_free p) (λ _, heap_fine) h.
Proof. intros Hf. apply sure_bind, sure_gets, sure_bind, sure_some. intros k _. by apply sure_modify. Qed.

Lemma task_new_sure h : heap_fine h → sure hev_task_new (λ t h', t ≠ 0 ∧ heap_fine h') h.
Proof.
  intros Hf. apply sure_bind, sure_alloc; [done|]. apply sure_bind, sure_new_id; [done|]. intros h' Hf'.
  apply sure_bind, sure_modify, sure_ret. destruct Hf as (_ & _ & ?). split; [lia|exact Hf'].
Qed.

Lemma task_ref_sure t h : heap_fine h → sure (hev_task_ref t) (λ _, heap_fine) h.
Proof. intros Hf. apply sure_bind, sure_gets, sure_bind, sure_some. intros k _. by apply sure_modify. Qed.

Lemma task_unref_sure t h : heap_fine h → sure (hev_task_unref t) (λ _, heap_fine) h.
Proof. intros Hf. apply sure_bind, sure_gets, sure_bind, sure_some. intros k _. by apply sure_modify. Qed.

Lemma dns_new_sure net mask max h :
  heap_fine h → sure (hev_mapped_dns_new net mask max) (λ d h', (d =? 0) = (Z.lnot mask <? max) ∧ heap_fine h') h.
Proof.
  intros Hf. unfold hev_mapped_dns_new. destruct (max <? 0); [done|]. apply sure_bind, sure_alloc; [done|].
  unfold MappedDNS.hev_mapped_dns_new, hev_mapped_dns_construct. cbn [negb]. destruct (Z.lnot mask <? max) eqn:E; cbn [Z.ltb Z.compare].
  - by apply sure_ret.
  - apply sure_bind, sure_new_id; [done|]. intros h' Hf'. apply sure_bind, sure_modify, sure_ret.
    destruct Hf as (_ & _ & ?). split; [apply Z.eqb_neq; lia|exact Hf'].
Qed.

Lemma object_unref_sure d h : heap_fine h → sure (hev_object_unref d) (λ _, heap_fine) h.
Proof.
  intros Hf. apply sure_bind, sure_gets. destruct (bool_decide _); [by apply sure_modify|done].
Qed.

(** ** Steps that only use the heap, close descriptors or ask for [l] *)

Record went (l : list request) (s s' : engine) : Prop := {
  we_fine : fine s'; we_requests : requests (dev s') = requests (dev s) ++ l; we_scripts : scripts s' = scripts s;
  we_local : tun_fd_local s' = tun_fd_local s; we_name : tun_name (dev s') = tun_name (dev s);
  we_globals : timeouts s' = timeouts s ∧ udp_recv_buffer s' = udp_recv_buffer s
}.

Lemma went_trans l1 l2 s1 s2 s3 : went l1 s1 s2 → went l2 s2 s3 → went (l1 ++ l2) s1 s3.
Proof.
  intros [] []. destruct we_globals0, we_globals1. split; try congruence; [|by split; congruence].
  rewrite app_assoc. congruence.
Qed.

Lemma went_refl s : fine s → went [] s s.
Proof. intros Hf. split; try done. by rewrite app_nil_r. Qed.

(** A part of the engine's state that none of the above reads. *)
Lemma went_same l s s' s'' :
  went l s s' → dev s'' = dev s' → mem s'' = mem s' → scripts s'' = scripts s' → tun_fd_local s'' = tun_fd_local s' →
  timeouts s'' = timeouts s' → udp_recv_buffer s'' = udp_recv_buffer s' → went l s s''.
Proof.
  intros [[] ? ? ? ? []] Hd Hm ????. split; try congruence; [|by split; congruence]. split; congruence.
Qed.

Lemma sure_mem {A} (m : M heap A) (P : A → Prop) (Q : A → engine → Prop) s :
  fine s → sure m (λ a h, P a ∧ heap_fine h) (mem s) → (∀ a s', P a → went [] s s' → fine s' → Q a s') → sure (on_mem m) Q s.
Proof.
  intros [Hd Hh] Hm HQ. apply wp_or_zoom. eapply sure_mono; [exact Hm|]. intros a h [HP Hh'].
  apply HQ; [done| |by split]. split; cbn; try done. by rewrite app_nil_r.
Qed.

Lemma sure_mem_unit (m : M heap unit) (Q : unit → engine → Prop) s :
  fine s → sure m (λ _, heap_fine) (mem s) → (∀ s', went [] s s' → fine s' → Q tt s') → sure (on_mem m) Q s.
Proof.
  intros Hs Hm HQ. apply sure_mem with (λ _, True); [done| |by intros [] s' _; apply HQ].
  eapply sure_mono; [exact Hm|done].
Qed.

Lemma sure_close fd (Q : unit → engine → Prop) s : fine s → (∀ s', went [] s s' → fine s' → Q tt s') → sure (on_dev (close fd)) Q s.
Proof.
  intros [Ha Hh] HQ. apply HQ; [|by split]. split; cbn; try done. by rewrite app_nil_r.
Qed.

(** ** The tear-down *)

(** A step of the tear-down: nothing is asked, no script is run. *)
Lemma sure_when_went (b : bool) (m : M engine unit) s :
  fine s → sure m (λ _, went [] s) s → sure (when b m) (λ _, went [] s) s.
Proof. intros Hs Hm. apply sure_when; [done|]. intros _. by apply went_refl. Qed.

Lemma sure_then (m k : M engine unit) s :
  sure m (λ _, went [] s) s → (∀ s', fine s' → sure k (λ _, went [] s') s') → sure (m;; k) (λ _, went [] s) s.
Proof.
  intros Hm Hk. apply sure_bind. eapply sure_mono; [exact Hm|]. intros [] s1 Hw1.
  eapply sure_mono; [by apply Hk, (we_fine _ _ _ Hw1)|]. intros [] s2 Hw2. by apply (went_trans [] [] s s1 s2).
Qed.

(** Something is released and the variable that named it reset. *)
Lemma sure_release (m : M heap unit) f s :
  fine s → (∀ h, heap_fine h → sure m (λ _, heap_fine) h) →
  (∀ s', dev (f s') = dev s' ∧ mem (f s') = mem s' ∧ scripts (f s') = scripts s' ∧ tun_fd_local (f s') = tun_fd_local s' ∧
    timeouts (f s') = timeouts s' ∧ udp_recv_buffer (f s') = udp_recv_buffer s') →
  sure (on_mem m;; modify f) (λ _, went [] s) s.
Proof.
  intros Hs Hm Hf. apply sure_bind, sure_mem_unit; [done|apply Hm, Hs|]. intros s' Hw _. apply sure_modify.
  destruct (Hf s') as (?&?&?&?&?&?). by apply went_same with s'.
Qed.

Lemma sure_release_fd fd f s :
  fine s →
  (∀ s', dev (f s') = dev s' ∧ mem (f s') = mem s' ∧ scripts (f s') = scripts s' ∧ tun_fd_local (f s') = tun_fd_local s' ∧
    timeouts (f s') = timeouts s' ∧ udp_recv_buffer (f s') = udp_recv_buffer s') →
  sure (on_dev (close fd);; modify f) (λ _, went [] s) s.
Proof.
  intros Hs Hf. apply sure_bind, sure_close; [done|]. intros s' Hw _. apply sure_modify.
  destruct (Hf s') as (?&?&?&?&?&?). by apply went_same with s'.
Qed.

Create HintDb setup.
#[local] Hint Resolve pcb_free_sure task_unref_sure task_ref_sure object_unref_sure : setup.
#[local] Ltac releases :=
  first [ apply sure_release; [done|by auto with setup|by intros []]
        | apply sure_release_fd; [done|by intros []] ].

Lemma mapped_dns_fini_sure s : fine s → sure mapped_dns_fini (λ _, went [] s) s.
Proof. intros Hs. apply sure_bind, sure_gets, sure_when_went; [done|]. releases. Qed.

Lemma lwip_timer_task_fini_sure s : fine s → sure lwip_timer_task_fini (λ _, went [] s) s.
Proof. intros Hs. apply sure_bind, sure_gets, sure_when_went; [done|]. releases. Qed.

Lemma lwip_io_task_fini_sure s : fine s → sure lwip_io_task_fini (λ _, went [] s) s.
Proof. intros Hs. apply sure_bind, sure_gets, sure_when_went; [done|]. releases. Qed.

Lemma event_task_fini_sure s : fine s → sure event_task_fini (λ _, went [] s) s.
Proof.
  intros Hs. apply sure_bind, sure_gets, sure_then; [apply sure_when_went; [done|releases]|].
  intros s1 Hs1. apply sure_then; [apply sure_when_went; [done|releases]|].
  intros s2 Hs2. apply sure_when_went; [done|releases].
Qed.

Lemma gateway_fini_sure s : fine s → sure gateway_fini (λ _, went [] s) s.
Proof.
  intros Hs. apply sure_bind, sure_gets, sure_then; [apply sure_when_went; [done|releases]|].
  intros s1 Hs1. apply sure_then; [apply sure_when_went; [done|releases]|].
  intros s2 Hs2. apply sure_when_went; [done|]. apply sure_bind, sure_modify, sure_modify.
  split; try done. cbn. by rewrite app_nil_r.
Qed.

Section Ok.
Context `{Interfaces} `{Resolver} (cfg : config).

(** The script for a path, with the name of the device. *)
Definition script (path : option bytes) (name : bytes) (wait : Z) : list (bytes * bytes * Z) :=
  match path with Some path => [(path, name, wait)] | None => [] end.

Record ended_ok (s s' : engine) : Prop := {
  eo_requests : requests (dev s') = requests (dev s); eo_name : tun_name (dev s') = tun_name (dev s);
  eo_scripts : scripts s' = scripts s ++
    (if truthy (tun_fd_local s) then script (hev_config_get_tunnel_pre_down_script cfg) (tun_name (dev s)) 1 else []);
  eo_globals : timeouts s' = timeouts s ∧ udp_recv_buffer s' = udp_recv_buffer s
}.

Lemma syscall_fine d : answers d = [] → syscall d = Val 0 d.
Proof. intros Ha. unfold syscall. by rewrite Ha. Qed.

(** A script that is configured is started. *)
Lemma scripts_val (o : option bytes) wait s :
  answers (dev s) = [] →
  when_some o (λ path, hev_exec_run path wait;; mret 0) s =
    Val 0 (set_scripts (scripts s ++ script o (tun_name (dev s)) wait) s).
Proof.
  intros Ha. destruct o as [path|]; cbn.
  - unfold hev_exec_run, on_dev, zoom. mstep. rewrite syscall_fine by done. by destruct s.
  - rewrite app_nil_r. by destruct s.
Qed.

Lemma tunnel_fini_sure s : fine s → sure (tunnel_fini cfg) (λ _, ended_ok s) s.
Proof.
  intros [Ha _]. apply sure_bind, sure_gets. destruct (truthy (tun_fd_local s)) eqn:El.
  2: { apply sure_ret. split; try done. by rewrite El, app_nil_r. }
  cbn [negb]. apply sure_bind.
  apply sure_val with 0 (set_scripts (scripts s ++ script (hev_config_get_tunnel_pre_down_script cfg) (tun_name (dev s)) 1) s).
  { by apply scripts_val. }
  apply sure_when; intros _; [|by split; try done; rewrite El].
  apply sure_bind, (sure_val _ _ _ tt (set_dev (set_fds (delete (tun_fd s) (fds (dev s))) (dev s)) (set_scripts (scripts s ++ script (hev_config_get_tunnel_pre_down_script cfg) (tun_name (dev s)) 1) s))); [done|].
  apply sure_modify. split; try done. by rewrite El.
Qed.

Lemma fini_sure s : fine s → sure (hev_socks5_tunnel_fini cfg) (λ _, ended_ok s) s.
Proof.
  intros Hs. unfold hev_socks5_tunnel_fini.
  apply sure_bind. eapply sure_mono; [by apply mapped_dns_fini_sure|]. intros [] s1 Hw1. pose proof (we_fine _ _ _ Hw1).
  apply sure_bind. eapply sure_mono; [by apply lwip_timer_task_fini_sure|]. intros [] s2 Hw2. pose proof (we_fine _ _ _ Hw2).
  apply sure_bind. eapply sure_mono; [by apply lwip_io_task_fini_sure|]. intros [] s3 Hw3. pose proof (we_fine _ _ _ Hw3).
  apply sure_bind. eapply sure_mono; [by apply event_task_fini_sure|]. intros [] s4 Hw4. pose proof (we_fine _ _ _ Hw4).
  apply sure_bind. eapply sure_mono; [by apply gateway_fini_sure|]. intros [] s5 Hw5.
  assert (went [] s s5) as [] by (eapply (went_trans [] [] s s1); [done|]; eapply (went_trans [] [] s1 s2); [done|];
    eapply (went_trans [] [] s2 s3); [done|]; by eapply (went_trans [] [] s3 s4)).
  apply sure_bind. eapply sure_mono; [by apply tunnel_fini_sure|]. intros [] s6 []. apply sure_modify.
  rewrite app_nil_r in we_requests0. destruct we_globals0, eo_globals0.
  split; cbn; try congruence; [|by split; congruence]. by rewrite eo_scripts0, we_local0, we_name0, we_scripts0.
Qed.

(** ** The initialisation *)

(** A step of the initialisation that succeeds and asks for [l]. *)
Notation succeeds l m := (∀ s, fine s → sure m (λ r s', r = 0 ∧ went l s s') s).

Lemma gateway_init_sure : succeeds [] gateway_init.
Proof.
  intros s Hs. unfold gateway_init. apply sure_bind, sure_mem with (λ ok, ok = true); [done|by apply sure_alloc; [apply Hs|split; [|apply Hs]]|].
  intros ok s1 -> Hw1 Hs1. apply sure_bind, sure_modify. cbn [negb]. apply sure_bind, sure_modify.
  set (s2 := set_mem _ _). assert (fine s2) as Hs2 by (by destruct Hs1).
  assert (went [] s s2) as Hw2. { destruct Hw1 as [??????]. by split. }
  clearbody s2. clear s1 Hw1 Hs1. apply sure_bind, sure_mem with (λ p, p ≠ 0); [done|by apply pcb_new_sure, Hs2|].
  intros p s3 Hp Hw3 _. apply sure_bind, sure_modify. rewrite (truthy_ne p) by done. cbn [negb].
  assert (went [] s (set_tcp p s3)) as Hw by (by eapply (went_trans [] [] s s2); [|apply went_same with s3]).
  apply sure_bind, sure_mem with (λ _, True); [by destruct Hw| |].
  { eapply sure_mono; [apply tcp_listen_sure, (we_fine _ _ _ Hw)|done]. }
  intros q s4 _ Hw4 _. apply sure_bind, sure_modify.
  assert (went [] s (set_tcp q s4)) as Hw' by (by eapply (went_trans [] [] s _); [exact Hw|apply went_same with s4]).
  apply sure_bind, sure_mem with (λ p, p ≠ 0); [by destruct Hw'|apply pcb_new_sure, (we_fine _ _ _ Hw')|].
  intros u s5 Hu Hw5 _. apply sure_bind, sure_modify. rewrite (truthy_ne u) by done. apply sure_ret. split; [done|].
  eapply (went_trans [] [] s _); [exact Hw'|by apply went_same with s5].
Qed.

Lemma new_task_sure (k : Z → engine → engine) :
  (∀ t s', dev (k t s') = dev s' ∧ mem (k t s') = mem s' ∧ scripts (k t s') = scripts s' ∧ tun_fd_local (k t s') = tun_fd_local s' ∧
    timeouts (k t s') = timeouts s' ∧ udp_recv_buffer (k t s') = udp_recv_buffer s') →
  succeeds [] (t ← on_mem hev_task_new; modify (k t);; if negb (truthy t) then mret (-1) else mret 0).
Proof.
  intros Hk s Hs. apply sure_bind, sure_mem with (λ t, t ≠ 0); [done|apply task_new_sure, Hs|]. intros t s1 Ht Hw _.
  apply sure_bind, sure_modify. rewrite truthy_ne by done. apply sure_ret. split; [done|].
  destruct (Hk t s1) as (?&?&?&?&?&?). by apply went_same with s1.
Qed.

Lemma lwip_io_task_init_sure : succeeds [] lwip_io_task_init.
Proof. by apply (new_task_sure (λ t s, set_tasks3 (task_event s) t (task_lwip_timer s) s)). Qed.

Lemma lwip_timer_task_init_sure : succeeds [] lwip_timer_task_init.
Proof. by apply (new_task_sure (λ t s, set_tasks3 (task_event s) (task_lwip_io s) t s)). Qed.

Lemma event_task_init_sure : succeeds [FIONBIO] event_task_init.
Proof.
  intros s [Ha Hh]. unfold event_task_init.
  apply sure_bind, (sure_val _ _ _ 0 s); [unfold on_dev, zoom, syscall; rewrite Ha; by destruct s|]. cbn [Z.ltb Z.compare].
  set (a := new_fd (fds (dev s))). apply sure_bind, (sure_val _ _ _ a (set_dev (set_fds (<[a := Pair]> (fds (dev s))) (dev s)) s)); [done|].
  set (d1 := set_fds _ _). set (b := new_fd (fds d1)).
  apply sure_bind, (sure_val _ _ _ b (set_dev (set_fds (<[b := Pair]> (fds d1)) d1) s)); [done|].
  set (d2 := set_fds _ d1). apply sure_bind, sure_modify, sure_bind.
  assert (ioctl a FIONBIO d2 = Val 0 (ask [FIONBIO] d2)) as E.
  { apply ioctl_val; [done|]. cbn. destruct (decide (b = a)) as [-> |]; [rewrite lookup_insert_eq; by eexists|].
    rewrite lookup_insert_ne, lookup_insert_eq by done. by eexists. }
  apply sure_val with 0 (set_event_fds (a, b) (set_dev (ask [FIONBIO] d2) s)).
  { unfold on_dev, zoom. cbn [dev set_event_fds set_dev]. by rewrite E. }
  cbn [Z.ltb Z.compare]. set (s1 := set_event_fds _ _). assert (went [FIONBIO] s s1) as Hw by (by split).
  eapply sure_mono; [apply (new_task_sure (λ t s, set_tasks3 t (task_lwip_io s) (task_lwip_timer s) s)); [done|apply Hw]|].
  intros r s2 [-> Hw2]. split; [done|]. by apply (went_trans [FIONBIO] [] s s1).
Qed.

(** There is room for the configured number of names, or none is configured. *)
Definition dns_fits : bool :=
  (hev_config_get_mapdns_cache_size cfg =? 0) ||
  (hev_config_get_mapdns_cache_size cfg <=? Z.lnot (hev_config_get_mapdns_netmask cfg)).

Lemma mapped_dns_init_sure s :
  fine s → sure (mapped_dns_init cfg) (λ r s', r = (if dns_fits then 0 else -1) ∧ went [] s s') s.
Proof.
  intros Hs. unfold mapped_dns_init, truthy, dns_fits. destruct (_ =? 0) eqn:E0; cbn [negb orb].
  { apply sure_ret. split; [done|by apply went_refl]. }
  rewrite Z.leb_antisym. apply sure_bind. eapply sure_mem; [done|apply dns_new_sure, Hs|].
  intros t s1 Ht Hw _. rewrite <- Ht. unfold truthy. destruct (t =? 0); cbn [negb].
  - by apply sure_ret.
  - apply sure_bind, sure_modify, sure_ret. split; [done|]. by apply went_same with s1.
Qed.

(** What the kernel is asked for a device of one's own, and its name. *)
Definition requested_name : bytes :=
  let ifr_name := replicate (Z.to_nat IFNAMSIZ) 0 in
  match hev_config_get_tunnel_name cfg with Some name => strncpy_to ifr_name name (IFNAMSIZ - 1) | None => ifr_name end.

Definition device_requests : list request :=
  let name := given_name requested_name in
  let flags := Z.lor IFF_TUN IFF_NO_PI in
  [TUNSETIFF requested_name (if truthy (hev_config_get_tunnel_multi_queue cfg) then Z.lor flags IFF_MULTI_QUEUE else flags);
   SIOCSIFMTU name (hev_config_get_tunnel_mtu cfg)] ++
  match hev_config_get_tunnel_ipv4_address cfg with Some a => ipv4_requests name a | None => [] end ++
  match hev_config_get_tunnel_ipv6_address cfg with Some a => ipv6_requests name a | None => [] end ++
  [SIOCGIFFLAGS name; SIOCSIFFLAGS name (Z.lor (interface_flags name) IFF_UP)].

Lemma open_val d :
  answers d = [] →
  hev_tunnel_open (hev_config_get_tunnel_name cfg) (hev_config_get_tunnel_multi_queue cfg) d =
    Val (new_fd (fds d)) (set_tun_name (given_name requested_name) (ask (take 1 device_requests) (set_fds (<[new_fd (fds d) := TunDevice]> (fds d)) d))).
Proof.
  intros Ha. destruct (new_fd_is_free (fds d)) as (Hpos & _ & _). unfold hev_tunnel_open.
  erewrite bind_val by (by apply open_fd_val). rewrite (proj2 (Z.ltb_ge _ _)) by done.
  erewrite bind_val by (apply ioctl_val; [done|cbn; rewrite lookup_insert_eq; by eexists]). done.
Qed.

Lemma on_dev_val {A} (m : M device A) a d' s : m (dev s) = Val a d' → on_dev m s = Val a (set_dev d' s).
Proof. intros E. unfold on_dev, zoom. by rewrite E. Qed.

Lemma when_some_val {A} (o : option A) (f : A → M engine Z) l s :
  (∀ a, o = Some a → f a s = Val 0 (set_dev (ask (l a) (dev s)) s)) →
  when_some o f s = Val 0 (set_dev (ask (match o with Some a => l a | None => [] end) (dev s)) s).
Proof. destruct o as [a|]; cbn; [auto|]. intros _. rewrite ask_nil. by destruct s. Qed.

(** The device is open and set up. *)
Lemma tunnel_init_val ext s :
  ext < 0 → answers (dev s) = [] →
  ∃ d fd, tunnel_init cfg ext s =
      Val 0 (set_scripts (scripts s ++ script (hev_config_get_tunnel_post_up_script cfg) (given_name requested_name) 0) (set_tun fd 1 (set_dev d s))) ∧
    fd = new_fd (fds (dev s)) ∧ fds d = <[fd := TunDevice]> (fds (dev s)) ∧ answers d = [] ∧
    requests d = requests (dev s) ++ device_requests ∧ tun_name d = given_name requested_name.
Proof.
  intros He Ha. destruct (new_fd_is_free (fds (dev s))) as (Hpos & _ & _). unfold tunnel_init. rewrite (proj2 (Z.leb_gt _ _)) by done.
  erewrite bind_val by reflexivity. erewrite bind_val by (apply on_dev_val, open_val, Ha). cbn [dev set_tun set_dev].
  erewrite bind_val by reflexivity. rewrite (proj2 (Z.ltb_ge _ _)) by done. set (fd := new_fd _) in *.
  set (d := set_tun_name _ _).
  assert (answers d = []) as Hd by done. assert (tun_name d = given_name requested_name) as Hn by done.
  erewrite bind_val by (apply on_dev_val, set_mtu_val; exact Hd). cbn [Z.ltb Z.compare dev set_tun set_dev].
  erewrite bind_val by (apply (when_some_val _ _ (ipv4_requests (given_name requested_name))); intros a _; by apply on_dev_val, set_ipv4_val).
  cbn [Z.ltb Z.compare dev set_tun set_dev]. rewrite ask_ask.
  erewrite bind_val by (apply (when_some_val _ _ (ipv6_requests (given_name requested_name))); intros a _; by apply on_dev_val, set_ipv6_val).
  cbn [Z.ltb Z.compare dev set_tun set_dev]. rewrite ask_ask.
  erewrite bind_val by (apply on_dev_val, set_state_up; exact Hd).
  cbn [Z.ltb Z.compare dev set_tun set_dev]. rewrite ask_ask.
  eexists (ask _ d), fd. split.
  - rewrite scripts_val by exact Hd. reflexivity.
  - split_and!; [done..| |done]. cbn. rewrite <- !app_assoc. done.
Qed.

(** ** The run *)

(** What the kernel is asked in a run, which scripts run, and under what name. *)
Definition run_requests (ext : Z) : list request :=
  (if 0 <=? ext then [FIONBIO] else device_requests) ++ [FIONBIO].
Definition run_scripts (ext : Z) : list (bytes * bytes * Z) :=
  if 0 <=? ext then [] else
  script (hev_config_get_tunnel_post_up_script cfg) (given_name requested_name) 0 ++
  script (hev_config_get_tunnel_pre_down_script cfg) (given_name requested_name) 1.

(** The device of the caller must be there. *)
Definition device_there (ext : Z) (d : device) : Prop := 0 <= ext → is_Some (fds d !! ext).

(** What the first step leaves, with [post] for the script after it. *)
Record tunnel_up (ext : Z) (s s' : engine) : Prop := {
  tu_fine : fine s'; tu_requests : requests (dev s') = requests (dev s) ++ (if 0 <=? ext then [FIONBIO] else device_requests);
  tu_scripts : scripts s' = scripts s ++
    (if 0 <=? ext then [] else script (hev_config_get_tunnel_post_up_script cfg) (given_name requested_name) 0);
  tu_local : truthy (tun_fd_local s') = negb (0 <=? ext); tu_name : ext < 0 → tun_name (dev s') = given_name requested_name;
  tu_globals : timeouts s' = timeouts s ∧ udp_recv_buffer s' = udp_recv_buffer s
}.

Lemma tunnel_init_sure ext s :
  fine s → tun_fd_local s = 0 → device_there ext (dev s) → sure (tunnel_init cfg ext) (λ r s', r = 0 ∧ tunnel_up ext s s') s.
Proof.
  intros [Ha Hh] Hl Hd. destruct (Z.leb_spec 0 ext) as [He|He].
  - unfold tunnel_init. rewrite (proj2 (Z.leb_le _ _)) by done.
    apply sure_bind, (sure_val _ _ _ 0 (set_dev (ask [FIONBIO] (dev s)) s)); [by apply on_dev_val, ioctl_val; auto|].
    cbn [Z.ltb Z.compare]. apply sure_bind, sure_modify, sure_ret. split; [done|].
    split; cbn; rewrite ?(proj2 (Z.leb_le 0 ext)) by done; try done; [by rewrite app_nil_r|by rewrite Hl|lia].
  - destruct (tunnel_init_val ext s He Ha) as (d & fd & E & Hfd & _ & Hd1 & Hd2 & Hd3). eapply sure_val; [exact E|]. split; [done|].
    split; cbn; rewrite ?(proj2 (Z.leb_gt 0 ext)) by done; try done.
Qed.

Lemma sure_in_turn (m : M engine Z) (l : list (M engine Z)) (Q : Z → engine → Prop) s :
  sure m (λ r s', r = 0 ∧ sure (in_turn l) Q s') s → sure (in_turn (m :: l)) Q s.
Proof. intros Hm. apply sure_bind. eapply sure_mono; [exact Hm|]. by intros r s' [-> Hl]. Qed.

Lemma sure_in_turn_went (m : M engine Z) l k (x : Z) (ms : list (M engine Z)) s :
  fine s → succeeds l m → (∀ s', fine s' → sure (in_turn ms) (λ r s'', r = x ∧ went k s' s'') s') →
  sure (in_turn (m :: ms)) (λ r s'', r = x ∧ went (l ++ k) s s'') s.
Proof.
  intros Hs Hm Hms. apply sure_in_turn. eapply sure_mono; [by apply Hm|]. intros r s' [-> Hw]. split; [done|].
  eapply sure_mono; [apply Hms, Hw|]. intros r s'' [-> Hw']. split; [done|]. by eapply went_trans.
Qed.

(** The end of an initialisation that succeeds, and of one that has no room for names. *)
Definition initialised (ext : Z) (s : engine) (r : Z) (s' : engine) : Prop :=
  r = (if dns_fits then 0 else -1) ∧ ∃ s1, tunnel_up ext s s1 ∧ went [FIONBIO] s1 s'.

Lemma init_steps_sure ext s :
  fine s → tun_fd_local s = 0 → device_there ext (dev s) →
  sure (in_turn [tunnel_init cfg ext; gateway_init; event_task_init; lwip_io_task_init; lwip_timer_task_init; mapped_dns_init cfg])
    (initialised ext s) s.
Proof.
  intros Hs Hl Hd. apply sure_in_turn. eapply sure_mono; [by apply tunnel_init_sure|]. intros r s1 [-> Hup]. split; [done|].
  eapply sure_mono with (P := λ r s', r = (if dns_fits then 0 else -1) ∧ went [FIONBIO] s1 s'); [|intros r s' [-> Hw]; split; [done|by exists s1]].
  apply (sure_in_turn_went _ [] [FIONBIO]); [apply Hup|apply gateway_init_sure|]. intros s2 Hs2.
  apply (sure_in_turn_went _ [FIONBIO] []); [done|apply event_task_init_sure|]. intros s3 Hs3.
  apply (sure_in_turn_went _ [] []); [done|apply lwip_io_task_init_sure|]. intros s4 Hs4.
  apply (sure_in_turn_went _ [] []); [done|apply lwip_timer_task_init_sure|]. intros s5 Hs5.
  apply sure_bind. eapply sure_mono; [by apply mapped_dns_init_sure|]. intros r s6 [-> Hw].
  destruct dns_fits; by apply sure_ret.
Qed.

Lemma heap_then_sure (m : M heap unit) {A} (k : M heap A) (Q : A → heap → Prop) h :
  sure m (λ _, heap_fine) h → (∀ h', heap_fine h' → sure k Q h') → sure (m;; k) Q h.
Proof. intros Hm Hk. apply sure_bind. eapply sure_mono; [exact Hm|]. intros []. apply Hk. Qed.

(** *** The tasks *)

(** What is left of the tasks after a moment, whatever the tasks of sessions are
    called, and whether a run ends. *)
Definition outline (m : moment) (r : running) : running :=
  if negb (can_happen m r) then r else
  match m with
  | StopRead => Running false (event_runs r) (io_runs r) (timer_runs r) (sessions r)
  | IoEnds => Running (run r) (event_runs r) false (timer_runs r) (sessions r)
  | TimerEnds => Running (run r) (event_runs r) (io_runs r) false (sessions r)
  | EventEnds => Running (run r) false (io_runs r) (timer_runs r) (sessions r)
  | SessionStarts => Running (run r) (event_runs r) (io_runs r) (timer_runs r) (0 :: sessions r)
  | SessionEnds i => Running (run r) (event_runs r) (io_runs r) (timer_runs r) (delete i (sessions r))
  end.

Fixpoint ends (l : list moment) (r : running) : bool :=
  negb (runs r) || match l with [] => false | m :: l => ends l (outline m r) end.

(** The state of the tasks when a run starts. *)
Definition at_start : running := Running true true true true [].

Definition alike (r r' : running) : Prop :=
  run r = run r' ∧ event_runs r = event_runs r' ∧ io_runs r = io_runs r' ∧ timer_runs r = timer_runs r' ∧
  length (sessions r) = length (sessions r').

Lemma alike_lookup r r' i : alike r r' → is_Some (sessions r !! i) ↔ is_Some (sessions r' !! i).
Proof. intros (_ & _ & _ & _ & Hl). by rewrite !lookup_lt_is_Some, Hl. Qed.

Lemma alike_same r r' m : alike r r' → runs r = runs r' ∧ can_happen m r = can_happen m r'.
Proof.
  intros Ha. pose proof (alike_lookup r r') as Hl. destruct Ha as (E1 & E2 & E3 & E4 & E5). split.
  - unfold runs. rewrite E2, E3, E4. do 2 f_equal. apply bool_decide_ext. by rewrite <- !length_zero_iff_nil, E5.
  - destruct m; cbn; try congruence. apply bool_decide_ext, Hl. by split_and!.
Qed.

Lemma next_moment_sure te ti tm m r r' h :
  heap_fine h → alike r r' → sure (next_moment te ti tm m r) (λ r2 h', heap_fine h' ∧ alike r2 (outline m r')) h.
Proof.
  intros Hf Ha. destruct (alike_same r r' m Ha) as [_ Ec]. pose proof (alike_lookup r r') as Hl.
  unfold next_moment, outline. rewrite <- Ec. destruct (can_happen m r) eqn:Hc; cbn [negb]; [|by apply sure_ret].
  destruct Ha as (E1 & E2 & E3 & E4 & E5). destruct m as [| | | | |i].
  1: apply sure_ret; split; [done|by split_and!].
  1-3: (apply heap_then_sure; [by apply task_unref_sure|]; intros h' Hf'; apply sure_ret; split; [done|by split_and!]).
  - apply sure_bind. eapply sure_mono; [by apply task_new_sure|]. intros t h' [Ht Hf']. rewrite truthy_ne by done.
    apply sure_ret. split; [done|]. split_and!; cbn; congruence.
  - cbn in Hc. apply bool_decide_eq_true in Hc. pose proof (proj1 (Hl i ltac:(by split_and!)) Hc) as Hc'.
    apply sure_bind, sure_some. intros t _. apply heap_then_sure; [by apply task_unref_sure|]. intros h' Hf'. apply sure_ret.
    split; [done|]. split_and!; cbn; try done. destruct Hc as [? Hc], Hc' as [? Hc']. by rewrite !length_delete, E5 by eauto.
Qed.

Lemma system_run_sure te ti tm l r r' h :
  heap_fine h → alike r r' → ends l r' = true → sure (hev_task_system_run te ti tm l r) (λ _, heap_fine) h.
Proof.
  revert r r' h. induction l as [|m l IH]; intros r r' h Hf Ha He; cbn in *; destruct (alike_same r r' StopRead Ha) as [-> _];
    (destruct (runs r'); cbn in *; [|by apply sure_ret]); [done|].
  apply sure_bind. eapply sure_mono; [by apply next_moment_sure|]. intros r2 h2 [Hf2 Ha2]. by eapply IH.
Qed.

Lemma run_sure stopped happens s :
  fine s → stopped = true ∨ ends happens at_start = true → sure (hev_socks5_tunnel_run stopped happens) (λ _, went [] s) s.
Proof.
  intros Hs He. unfold hev_socks5_tunnel_run. destruct stopped; [by apply sure_ret, went_refl|].
  destruct He as [?|He]; [done|].
  apply sure_bind, sure_gets, sure_mem_unit; [done| |by intros s' Hw _].
  destruct Hs as [_ Hh]. do 3 (apply heap_then_sure; [by auto with setup|intros ??]).
  eapply system_run_sure; [done| |exact He]. by split_and!.
Qed.

Lemma ended_run ext s s1 s2 s3 :
  tunnel_up ext s s1 → went [FIONBIO] s1 s2 → ended_ok s2 s3 →
  requests (dev s3) = requests (dev s) ++ run_requests ext ∧
  scripts s3 = scripts s ++ run_scripts ext ∧ timeouts s3 = timeouts s ∧ udp_recv_buffer s3 = udp_recv_buffer s.
Proof.
  intros [] [] []. destruct tu_globals0, we_globals0, eo_globals0. split_and!; [|clear eo_requests0|congruence..].
  - rewrite eo_requests0, we_requests0, tu_requests0. unfold run_requests. by rewrite app_assoc.
  - rewrite eo_scripts0, we_scripts0, we_local0, tu_local0, tu_scripts0, we_name0. unfold run_scripts.
    destruct (Z.leb_spec 0 ext); cbn [negb]; [by rewrite !app_nil_r|]. rewrite tu_name0 by done. by rewrite app_assoc.
Qed.

Lemma tunnel_sure ext stopped happens s :
  fine s → tun_fd_local s = 0 → device_there ext (dev s) →
  (dns_fits = true → stopped = true ∨ ends happens at_start = true) →
  sure (res ← hev_socks5_tunnel_init cfg ext;
        when (negb (res <? 0)) (hev_socks5_tunnel_run stopped happens;; hev_socks5_tunnel_fini cfg);;
        mret res) (λ r s', r = (if dns_fits then 0 else -1) ∧ requests (dev s') = requests (dev s) ++ run_requests ext ∧
          scripts s' = scripts s ++ run_scripts ext ∧ timeouts s' = timeouts s ∧ udp_recv_buffer s' = udp_recv_buffer s) s.
Proof.
  intros Hs Hl Hd He. apply sure_bind, sure_bind. eapply sure_mono; [by apply init_steps_sure|]. intros r s2 (-> & s1 & Hup & Hw2).
  destruct dns_fits; cbn [Z.ltb Z.compare].
  - apply sure_ret. cbn [Z.ltb Z.compare negb when]. apply sure_bind, sure_bind.
    eapply sure_mono; [apply run_sure; [apply Hw2|by apply He]|]. intros [] s3 Hw3.
    eapply sure_mono; [apply fini_sure, Hw3|]. intros [] s4 Hend. apply sure_ret. split; [done|].
    eapply ended_run; [done| |exact Hend]. by eapply (went_trans [FIONBIO] []).
  - apply sure_bind. eapply sure_mono; [apply fini_sure, Hw2|]. intros [] s3 Hend. apply sure_ret. cbn [Z.ltb Z.compare negb when].
    apply sure_bind, sure_ret, sure_ret. split; [done|]. by eapply ended_run.
Qed.

(** Before that, descriptors of the engine's own come and go. *)
Record preparing (s s' : engine) : Prop := {
  pr_fine : fine s'; pr_requests : requests (dev s') = requests (dev s); pr_scripts : scripts s' = scripts s;
  pr_local : tun_fd_local s' = tun_fd_local s; pr_there : ∀ ext, device_there ext (dev s) → device_there ext (dev s');
  pr_globals : timeouts s' = timeouts s ∧ udp_recv_buffer s' = udp_recv_buffer s
}.

Lemma preparing_trans s1 s2 s3 : preparing s1 s2 → preparing s2 s3 → preparing s1 s3.
Proof. intros [] []. destruct pr_globals0, pr_globals1. split; try congruence; [auto|by split; congruence]. Qed.

Lemma preparing_refl s : fine s → preparing s s.
Proof. by split. Qed.

Lemma there_insert ext fd f d : device_there ext d → device_there ext (set_fds (<[fd := f]> (fds d)) d).
Proof. intros Hd He. cbn. destruct (decide (fd = ext)) as [-> |]; [rewrite lookup_insert_eq; by eexists|]. rewrite lookup_insert_ne by done. by apply Hd. Qed.

Lemma open_log_sure (k : Z → engine → engine) s :
  (∀ t s', dev (k t s') = dev s' ∧ mem (k t s') = mem s' ∧ scripts (k t s') = scripts s' ∧ tun_fd_local (k t s') = tun_fd_local s' ∧
    timeouts (k t s') = timeouts s' ∧ udp_recv_buffer (k t s') = udp_recv_buffer s') →
  fine s → sure (fd ← on_dev (open_fd LogFile); modify (k fd);; mret (if fd <? 0 then -1 else 0)) (λ r s', r = 0 ∧ preparing s s') s.
Proof.
  intros Hk [Ha Hh]. destruct (new_fd_is_free (fds (dev s))) as (Hpos & _ & _).
  apply sure_bind. eapply sure_val; [by apply on_dev_val, open_fd_val|]. apply sure_bind, sure_modify, sure_ret.
  rewrite (proj2 (Z.ltb_ge _ _)) by done. split; [done|]. set (s1 := set_dev _ s).
  destruct (Hk (new_fd (fds (dev s))) s1) as (E1 & E2 & E3 & E4 & E5 & E6).
  split; rewrite ?E1, ?E3, ?E4, ?E5, ?E6; try done.
  - split; by rewrite ?E1, ?E2.
  - intros ext. apply there_insert.
Qed.

Lemma loggers_sure path s :
  fine s → sure (hev_logger_init path) (λ r s', r = 0 ∧ preparing s s') s ∧ sure (hev_socks5_logger_init path) (λ r s', r = 0 ∧ preparing s s') s.
Proof.
  intros Hs. destruct path; [|split; (apply sure_ret; split; [done|by apply preparing_refl])].
  split; [by apply (open_log_sure (λ fd s, set_logs fd (socks5_log_fd s) s))|by apply (open_log_sure (λ fd s, set_logs (log_fd s) fd s))].
Qed.

Lemma limit_sure s : fine s → sure (on_dev set_limit_nofile) (λ _, preparing s) s.
Proof.
  intros [Ha Hh]. eapply sure_val; [|by apply preparing_refl]. rewrite (on_dev_val _ 0 (dev s)); [by destruct s|].
  unfold set_limit_nofile. do 2 (erewrite bind_val by (by apply syscall_fine); cbn [Z.ltb Z.compare]). by apply syscall_fine.
Qed.

Lemma daemon_sure s : fine s → sure (on_dev run_as_daemon) (λ _, preparing s) s.
Proof.
  intros [Ha Hh]. destruct (new_fd_is_free (fds (dev s))) as (Hpos & Hfree & _).
  eapply sure_val; [|by apply preparing_refl]. rewrite (on_dev_val _ tt (dev s)); [by destruct s|].
  unfold run_as_daemon. erewrite bind_val by (by apply open_fd_val). rewrite (proj2 (Z.ltb_ge _ _)) by done.
  unfold close. mstep. cbn. rewrite delete_insert_id by done. by destruct (dev s).
Qed.

Lemma run_logged_sure ext stopped happens s :
  fine s → tun_fd_local s = 0 → device_there ext (dev s) →
  (dns_fits = true → stopped = true ∨ ends happens at_start = true) →
  sure (run_logged cfg ext stopped happens) (λ r s', r = (if dns_fits then 0 else -1) ∧ requests (dev s') = requests (dev s) ++ run_requests ext ∧
    scripts s' = scripts s ++ run_scripts ext ∧ timeouts s' = timeouts s ∧ udp_recv_buffer s' = udp_recv_buffer s) s.
Proof.
  intros Hs Hl Hd He. apply sure_bind. eapply sure_mono; [by apply limit_sure|]. intros _r s1 Hp1.
  apply sure_bind. eapply sure_mono with (P := λ _, preparing s).
  { apply sure_when; intros _; [|done]. eapply sure_mono; [apply daemon_sure, Hp1|]. intros [] s2. by apply preparing_trans. }
  intros [] s2 []. clear Hp1. apply sure_bind.
  apply (sure_val _ _ _ 0 (set_mem (set_task_system true (mem s2)) s2)).
  { unfold on_mem, zoom, hev_task_system_init. erewrite bind_val; [|unfold alloc; by rewrite (proj1 (proj2 pr_fine0))]. done. }
  cbn [Z.ltb Z.compare]. set (s3 := set_mem _ _).
  assert (fine s3) as Hs3 by (by destruct pr_fine0).
  pose proof (tunnel_sure ext stopped happens s3 Hs3 ltac:(cbn; congruence) (pr_there0 ext Hd) He) as Hsure.
  destruct pr_globals0 as [G1 G2]. unfold sure, wp_or in *. unfold mbind, M_bind in *.
  destruct (hev_socks5_tunnel_init cfg ext s3) as [r1 s4| |]; [|done..].
  destruct (when (negb (r1 <? 0)) _ s4) as [u s6| |]; [|done..].
  destruct Hsure as (-> & Hr1 & Hr2 & Hr3 & Hr4). cbn in *. split_and!; congruence.
Qed.

Lemma main_inner_sure ext stopped happens s :
  fine s → tun_fd_local s = 0 → device_there ext (dev s) →
  (dns_fits = true → stopped = true ∨ ends happens at_start = true) →
  sure (hev_socks5_tunnel_main_inner cfg ext stopped happens) (λ r s', r = (if dns_fits then 0 else -1) ∧
    requests (dev s') = requests (dev s) ++ run_requests ext ∧ scripts s' = scripts s ++ run_scripts ext ∧
    timeouts s' = (hev_config_get_misc_connect_timeout cfg, hev_config_get_misc_tcp_read_write_timeout cfg, hev_config_get_misc_udp_read_write_timeout cfg) ∧
    udp_recv_buffer s' = hev_config_get_misc_udp_recv_buffer_size cfg) s.
Proof.
  intros Hs Hl Hd He. apply sure_bind, sure_modify. set (s0 := set_globals _ _ s). assert (fine s0) as Hs0 by (by destruct Hs).
  apply sure_bind. eapply sure_mono; [by apply loggers_sure|]. intros r s1 [-> Hp1]. cbn [Z.ltb Z.compare].
  apply sure_bind. eapply sure_mono; [apply loggers_sure, Hp1|]. intros r s2 [-> Hp2]. cbn [Z.ltb Z.compare].
  pose proof (preparing_trans _ _ _ Hp1 Hp2) as []. apply sure_bind.
  eapply sure_mono; [apply run_logged_sure; [done|by rewrite pr_local0|by apply pr_there0|done]|]. intros r s3 (-> & R1 & R2 & R3 & R4).
  assert (∀ fd s', sure (when (0 <=? fd) (on_dev (close fd))) (λ _ s'', requests (dev s'') = requests (dev s') ∧ scripts s'' = scripts s' ∧
    timeouts s'' = timeouts s' ∧ udp_recv_buffer s'' = udp_recv_buffer s') s') as Hcl.
  { intros fd s'. by apply sure_when. }
  apply sure_bind, sure_bind, sure_gets. eapply sure_mono; [apply Hcl|]. intros [] s4 (? & ? & ? & ?).
  apply sure_bind, sure_bind, sure_gets. eapply sure_mono; [apply Hcl|]. intros [] s5 (? & ? & ? & ?).
  apply sure_ret. destruct pr_globals0. cbn in *. split_and!; congruence.
Qed.
End Ok.


(** The app's configuration with a script, when no device is passed. *)
#[local] Instance dotted : Resolver :=
  {| inet_pton _ name := if bool_decide (name = lit "10.10.10.2") then Some [10; 10; 10; 2] else None; getaddrinfo _ _ := None |}.
Definition own_device : config := set_tunnel (set_post_up (lit "up.sh" ++ [0]) (tunnel app_config)) app_config.

(** The same with names to be cached, but no netmask. *)
Definition no_netmask : config := set_mapdns (set_cache_size 100 (set_netmask 0 (mapdns own_device))) own_device.

(** What the kernel is asked for in both. *)
Definition tun0 : bytes := lit "tun0" ++ replicate 12 0.
Definition tun0_requests : list request :=
  [TUNSETIFF tun0 (Z.lor IFF_TUN IFF_NO_PI); SIOCSIFMTU tun0 1500; SIOCSIFADDR tun0 [10; 10; 10; 2];
   SIOCSIFNETMASK tun0 [255; 255; 255; 255]; SIOCGIFFLAGS tun0; SIOCSIFFLAGS tun0 IFF_UP; FIONBIO].

