(* ===== verification/Server.v ===== *)
(** * Server: the SOCKS5 server of src/core/src/hev-socks5-server.c

    A server owns its connection, up to two descriptors for the service, and a
    counted reference to an authenticator or, once a client has authenticated, to
    its user. Authenticators live in a store of objects; the users of an
    authenticator are the memory of [Auth]. *)
From S2P Require Import Prelude Bytes HevRBTree Auth TaskIO Socks5 Splice UDP.

(** ** Objects *)

(** The union of the C structure: no object, an authenticator or one of its users. *)
Inductive object := NoObject | AuthObject (a : Z) | UserObject (a u : Z).

(** An authenticator that was destroyed is not live; its users that are still
    referenced stay in its memory. *)
Record authenticator := Authenticator { refs : Z; alive : bool; memory : auth }.

Record HevSocks5Server := Server { sbase : HevSocks5; fds0 : Z; fds1 : Z; obj : object }.

Record system := System { server : HevSocks5Server; auths : gmap Z authenticator }.

#[export] Program Instance system_IsSocks5 : IsSocks5 system :=
  {| base o := sbase (server o);
     set_base b o := System (Server b (fds0 (server o)) (fds1 (server o)) (obj (server o))) (auths o) |}.
Solve All Obligations with by intros; repeat match goal with o : system |- _ => destruct o as [[]] end.

Definition get_server : M (st system) HevSocks5Server := gets (λ s, server (self s)).
Definition put_server (v : HevSocks5Server) : M (st system) unit :=
  modify (λ s, St (System v (auths (self s))) (io s)).
Definition set_fds0 (v : Z) : M (st system) unit :=
  self ← get_server; put_server (Server (sbase self) v (fds1 self) (obj self)).
Definition set_fds1 (v : Z) : M (st system) unit :=
  self ← get_server; put_server (Server (sbase self) (fds0 self) v (obj self)).
Definition set_obj (v : object) : M (st system) unit :=
  self ← get_server; put_server (Server (sbase self) (fds0 self) (fds1 self) v).

Definition get_auth (a : Z) : M (st system) authenticator := λ s,
  match auths (self s) !! a with Some v => Val v s | None => Stuck end.
Definition put_auth (a : Z) (v : authenticator) : M (st system) unit :=
  modify (λ s, St (System (server (self s)) (<[a := v]> (auths (self s)))) (io s)).

(** Running code of [Auth] on the memory of an authenticator. *)
Definition on_auth {A} (a : Z) (m : M auth A) : M (st system) A :=
  v ← get_auth a;
  match m (memory v) with
  | Val x mem => put_auth a (Authenticator (refs v) (alive v) mem);; mret x
  | _ => stuck
  end.

Definition object_ref (o : object) : M (st system) unit :=
  match o with
  | NoObject => stuck
  | AuthObject a =>
      v ← get_auth a;
      if alive v then put_auth a (Authenticator (u32 (refs v + 1)) true (memory v)) else stuck
  | UserObject a u => on_auth a (Auth.hev_object_ref u)
  end.

Definition object_unref (o : object) : M (st system) unit :=
  match o with
  | NoObject => stuck
  | AuthObject a =>
      v ← get_auth a;
      if negb (alive v) then stuck else
      if 1 <? refs v then put_auth a (Authenticator (u32 (refs v - 1)) true (memory v))
      else on_auth a hev_socks5_authenticator_destruct;;
           v ← get_auth a;
           put_auth a (Authenticator 0 false (memory v))
  | UserObject a u => on_auth a (Auth.hev_object_unref u)
  end.

Section Server.
Context `{Resolver}.

(** The methods of the class: how an outgoing socket is bound to an interface,
    and the socket of a UDP association to an address. *)
Class ServerClass := {
  sk_binder : Z → sockaddr6 → M (st system) Z;
  ss_binder : Z → sockaddr6 → M (st system) (Z * sockaddr6)
}.
Context `{ServerClass}.

Definition yielder : HevTaskIOYielder (O := system) := Some hev_socks5_task_io_yielder.

Definition hev_socks5_server_set_auth (auth : object) : M (st system) unit :=
  self ← get_server;
  match obj self with NoObject => mret tt | o => object_unref o end;;
  object_ref auth;;
  set_obj auth.

(** ** Authentication *)

Definition hev_socks5_server_read_auth_method : M (st system) Z :=
  b ← get_base;
  '(res, auth) ← hev_task_io_socket_recv (fd b) 2 MSG_WAITALL yielder;
  if negb (res =? 2) then mret (-1) else
  ver ← of_option (zget auth 0);
  if negb (ver =? HEV_SOCKS5_VERSION_5) then mret (-1) else
  method_len ← of_option (zget auth 1);
  b ← get_base;
  '(res, methods) ← hev_task_io_socket_recv (fd b) method_len MSG_WAITALL yielder;
  if negb (res =? method_len) then mret (-1) else
  self ← get_server;
  let method :=
    match obj self with NoObject => HEV_SOCKS5_AUTH_METHOD_NONE | _ => HEV_SOCKS5_AUTH_METHOD_USER end in
  mret (if bool_decide (method ∈ methods) then method else -1).

Definition hev_socks5_server_write_auth_method (auth_method : Z) : M (st system) Z :=
  b ← get_base;
  res ← hev_task_io_socket_send (fd b) [HEV_SOCKS5_VERSION_5; u8 auth_method] MSG_WAITALL yielder;
  if res <=? 0 then mret (-1) else mret 0.

(** The union is read as an authenticator. *)
Definition hev_socks5_server_read_auth_user : M (st system) Z :=
  b ← get_base;
  '(res, head) ← hev_task_io_socket_recv (fd b) 2 MSG_WAITALL yielder;
  if negb (res =? 2) then mret (-1) else
  ver ← of_option (zget head 0);
  if negb (ver =? 1) then mret (-1) else
  nlen ← of_option (zget head 1);
  if nlen =? 0 then mret (-1) else
  '(res, name) ← hev_task_io_socket_recv (fd b) (nlen + 1) MSG_WAITALL yielder;
  if negb (res =? nlen + 1) then mret (-1) else
  plen ← of_option (zget name nlen);
  if plen =? 0 then mret (-1) else
  '(res, pass) ← hev_task_io_socket_recv (fd b) plen MSG_WAITALL yielder;
  if negb (res =? plen) then mret (-1) else
  self ← get_server;
  match obj self with
  | AuthObject a =>
      v ← get_auth a;
      if negb (alive v) then stuck else
      user ← on_auth a (hev_socks5_authenticator_get name nlen);
      if negb (truthy user) then mret (-1) else
      res ← on_auth a (hev_socks5_user_check user pass plen);
      if res <? 0 then mret (-1) else
      object_ref (UserObject a user);;
      object_unref (AuthObject a);;
      set_obj (UserObject a user);;
      mret 0
  | _ => stuck
  end.

Definition hev_socks5_server_write_auth_user (auth_res : Z) : M (st system) Z :=
  b ← get_base;
  res ← hev_task_io_socket_send (fd b) [1; u8 auth_res] MSG_WAITALL yielder;
  if res <=? 0 then mret (-1) else mret 0.

Definition hev_socks5_server_auth : M (st system) Z :=
  method ← hev_socks5_server_read_auth_method;
  res ← hev_socks5_server_write_auth_method method;
  if res <? 0 then mret (-1) else
  if method =? HEV_SOCKS5_AUTH_METHOD_NONE then mret 0
  else if method =? HEV_SOCKS5_AUTH_METHOD_USER then
    res ← hev_socks5_server_read_auth_user;
    w ← hev_socks5_server_write_auth_user res;
    if Z.lor res w <? 0 then mret (-1) else mret 0
  else mret (-1).

(** ** The request *)

Definition addr_zero : sockaddr6 := Sockaddr6 0 0 (replicate 16 0).

(** The result, the reply code, the command when it was set, and the address. *)
Definition hev_socks5_server_read_request : M (st system) (Z * Z * option Z * sockaddr6) :=
  b ← get_base;
  '(res, req) ← hev_task_io_socket_recv (fd b) 5 MSG_WAITALL yielder;
  if negb (res =? 5) then mret (-1, HEV_SOCKS5_RES_REP_SUCC, None, addr_zero) else
  ver ← of_option (zget req 0);
  if negb (ver =? HEV_SOCKS5_VERSION_5) then mret (0, HEV_SOCKS5_RES_REP_FAIL, None, addr_zero) else
  atype ← of_option (zget req 3);
  len ← of_option (zget req 4);
  let addrlen :=
    if atype =? HEV_SOCKS5_ADDR_TYPE_IPV4 then Some 5
    else if atype =? HEV_SOCKS5_ADDR_TYPE_IPV6 then Some 17
    else if atype =? HEV_SOCKS5_ADDR_TYPE_NAME then Some (2 + len)
    else None in
  match addrlen with
  | None => mret (0, HEV_SOCKS5_RES_REP_ADDR, None, addr_zero)
  | Some addrlen =>
      '(res, bs) ← hev_task_io_socket_recv (fd b) addrlen MSG_WAITALL yielder;
      if negb (res =? addrlen) then mret (0, HEV_SOCKS5_RES_REP_ADDR, None, addr_zero) else
      let addr := overwrite (overwrite addr_undef 0 [atype; len]) 2 bs in
      addr_family ← hev_socks5_get_addr_family;
      '(res, saddr, addr_family) ← of_option (hev_socks5_addr_into_sockaddr6 addr addr_zero addr_family);
      if res <? 0 then mret (0, HEV_SOCKS5_RES_REP_ADDR, None, saddr) else
      hev_socks5_set_addr_family addr_family;;
      cmd ← of_option (zget req 1);
      mret (0, HEV_SOCKS5_RES_REP_SUCC, Some cmd, saddr)
  end.

Definition hev_socks5_server_write_response (rep : Z) (addr : sockaddr6) : M (st system) Z :=
  b ← get_base;
  let '(len, a) := hev_socks5_addr_from_sockaddr6 addr_undef addr in
  ret ← hev_task_io_socket_send (fd b) ([HEV_SOCKS5_VERSION_5; u8 rep; 0] ++ take (Z.to_nat len) a) MSG_WAITALL yielder;
  if ret <=? 0 then mret (-1) else mret 0.

Definition hev_socks5_server_connect (addr : sockaddr6) : M (st system) Z :=
  fd ← hev_socks5_socket SOCK_STREAM;
  if fd <? 0 then mret (-1) else
  res ← sk_binder fd addr;
  if res <? 0 then drop_fd fd;; mret (-1) else
  timeout ← hev_socks5_get_connect_timeout;
  hev_socks5_set_timeout timeout;;
  res ← hev_task_io_socket_connect fd addr yielder;
  if res <? 0 then drop_fd fd;; mret (-1) else
  timeout ← hev_socks5_get_tcp_timeout;
  hev_socks5_set_timeout timeout;;
  set_fds0 fd;;
  mret 0.

(** The address that the socket was bound to is passed back. *)
Definition hev_socks5_server_bind (addr : option sockaddr6) : M (st system) (Z * option sockaddr6) :=
  fd ← hev_socks5_socket SOCK_DGRAM;
  if fd <? 0 then mret (-1, addr) else
  set_fds0 fd;;
  match addr with
  | None => mret (0, addr)
  | Some a =>
      fd ← hev_socks5_socket SOCK_DGRAM;
      if fd <? 0 then mret (-1, addr) else
      res ← setsockopt fd;
      if res <? 0 then drop_fd fd;; mret (-1, addr) else
      '(res, a) ← ss_binder fd a;
      if res <? 0 then drop_fd fd;; mret (-1, Some a) else
      set_fds1 fd;;
      mret (0, Some a)
  end.

Definition hev_socks5_server_udp_bind (sock : Z) (src : sockaddr6) : M (st system) (Z * sockaddr6) :=
  b ← get_base;
  '(res, src) ← getsockname (fd b) src;
  if res <? 0 then mret (-1, src) else
  let src := Sockaddr6 (sin6_family src) 0 (sin6_addr src) in
  res ← bind sock src;
  if res <? 0 then mret (-1, src) else
  '(res, src) ← getsockname sock src;
  if res <? 0 then mret (-1, src) else mret (0, src).

(** What the command does: the reply code and the address of the response. *)
Definition handshake_command (cmd : Z) (addr : sockaddr6) : M (st system) (Z * sockaddr6) :=
  if cmd =? HEV_SOCKS5_REQ_CMD_CONNECT then
    res ← hev_socks5_server_connect addr;
    upd_base (set_type HEV_SOCKS5_TYPE_TCP);;
    mret (if res <? 0 then HEV_SOCKS5_RES_REP_HOST else HEV_SOCKS5_RES_REP_SUCC, addr)
  else if cmd =? HEV_SOCKS5_REQ_CMD_UDP_ASC then
    '(res, a) ← hev_socks5_server_bind (Some addr);
    upd_base (set_type HEV_SOCKS5_TYPE_UDP_IN_UDP);;
    mret (if res <? 0 then HEV_SOCKS5_RES_REP_FAIL else HEV_SOCKS5_RES_REP_SUCC, default addr a)
  else if cmd =? HEV_SOCKS5_REQ_CMD_FWD_UDP then
    '(res, _) ← hev_socks5_server_bind None;
    upd_base (set_type HEV_SOCKS5_TYPE_UDP_IN_TCP);;
    mret (if res <? 0 then HEV_SOCKS5_RES_REP_FAIL else HEV_SOCKS5_RES_REP_SUCC, addr)
  else mret (HEV_SOCKS5_RES_REP_IMPL, addr).

Definition hev_socks5_server_handshake : M (st system) Z :=
  timeout ← hev_socks5_get_tcp_timeout;
  hev_socks5_set_timeout timeout;;
  res ← hev_socks5_server_auth;
  if res <? 0 then mret (-1) else
  '(res, rep, cmd, addr) ← hev_socks5_server_read_request;
  if res <? 0 then mret (-1) else
  '(rep, addr) ←
    (if rep =? HEV_SOCKS5_RES_REP_SUCC then cmd ← of_option cmd; handshake_command cmd addr
     else mret (rep, addr));
  res ← hev_socks5_server_write_response rep addr;
  if (res <? 0) || negb (rep =? HEV_SOCKS5_RES_REP_SUCC) then mret (-1) else mret 0.

(** ** The service *)

Definition hev_socks5_server_get_fd (self : HevSocks5Server) : Z :=
  match type (sbase self) with
  | HEV_SOCKS5_TYPE_UDP_IN_TCP => fd (sbase self)
  | HEV_SOCKS5_TYPE_UDP_IN_UDP => fds1 self
  | _ => -1
  end.

#[export] Instance system_udp : UDPClass system :=
  {| udp_get_fd o := hev_socks5_server_get_fd (server o); udp_binder := sk_binder |}.

Definition hev_socks5_server_service : M (st system) Z :=
  self ← get_server;
  match type (sbase self) with
  | HEV_SOCKS5_TYPE_TCP => hev_socks5_tcp_splice (fds0 self);; mret 0
  | HEV_SOCKS5_TYPE_UDP_IN_UDP | HEV_SOCKS5_TYPE_UDP_IN_TCP =>
      timeout ← hev_socks5_get_udp_timeout;
      hev_socks5_set_timeout timeout;;
      hev_socks5_udp_splice (fds0 self);;
      mret 0
  | HEV_SOCKS5_TYPE_NONE => mret (-1)
  end.

Definition hev_socks5_server_run : M (st system) Z :=
  b ← get_base;
  res ← hev_task_add_fd (fd b);
  (if res <? 0 then hev_task_mod_fd (fd b);; mret tt else mret tt);;
  res ← hev_socks5_server_handshake;
  if res <? 0 then mret (-1) else
  res ← hev_socks5_server_service;
  if res <? 0 then mret (-1) else mret 0.

(** ** Construction and destruction *)

Definition hev_socks5_server_construct (self : HevSocks5Server) (fd : Z) : HevSocks5Server :=
  Server (set_fd fd (Socks5.hev_socks5_construct (sbase self) HEV_SOCKS5_TYPE_NONE)) (-1) (-1) (obj self).

Definition server_zero : HevSocks5Server := Server socks5_zero 0 0 NoObject.

(** Memory for the new object is zeroed, or not available. *)
Definition hev_socks5_server_new (fd : Z) : M (st system) bool := λ s,
  match mallocs (io s) with
  | false :: ms => Val false (St (self s) (set_mallocs ms (io s)))
  | ms =>
      Val true (St (System (hev_socks5_server_construct server_zero fd) (auths (self s)))
        (set_mallocs (tl ms) (io s)))
  end.

Definition hev_socks5_server_destruct : M (st system) unit :=
  self ← get_server;
  (if 0 <=? fds0 self then drop_fd (fds0 self) else mret tt);;
  (if 0 <=? fds1 self then drop_fd (fds1 self) else mret tt);;
  match obj self with NoObject => mret tt | o => object_unref o end;;
  hev_socks5_destruct.
End Server.

(** The class of the server itself. *)
#[export] Instance HevSocks5Server_class : ServerClass :=
  {| sk_binder := hev_socks5_bind; ss_binder := hev_socks5_server_udp_bind |}.
