(* ===== verification/ServerSpec.v ===== *)
(** * ServerSpec: whom the server serves, and what it leaves behind

    Admission rests on the authenticator's map of [AuthMap]. The books of descriptors
    and the token that a server holds, a reference to its authenticator and later to
    the user, are followed through every step of the handshake to the destructor. *)
From S2P Require Import Prelude Bytes Auth AuthMap TaskIO TaskIOSpec Socks5 Socks5Spec SocketSpec Splice UDP Server.

(** A class whose binders only ask the system. *)
Class ServerLaws `{ServerClass} := {
  sk_law : ∀ d a s, wp (sk_binder d a) (λ _ s', calm s s') (λ _, True) s;
  ss_law : ∀ d a s, wp (ss_binder d a) (λ _ s', calm s s') (λ _, True) s
}.

Section Login.
Implicit Types s : st system.

(** ** The connection of the client *)

Definition sview (d : Z) (i o : bytes) s : Prop :=
  fd (base (self s)) = d ∧ ∃ c, chans (io s) !! d = Some c ∧ stream (rxq c) = i ∧ tx c = o.

(** Reading and writing on the connection changes nothing else. *)
Definition still s s' : Prop :=
  self s' = self s ∧ dom (chans (io s')) = dom (chans (io s)) ∧ polled (io s') = polled (io s).

Lemma still_trans s s' s'' : still s s' → still s' s'' → still s s''.
Proof using Type. unfold still. intuition congruence. Qed.

Lemma evolve_still d c c' s s' : chans (io s) !! d = Some c → evolve d c' s s' → still s s'.
Proof using Type.
  intros Hc (w & e & ->). destruct s as [o []]. unfold still, io_upd, put_chan, set_chans, set_wakes, set_errno.
  cbn in *. split_and!; [done| |done]. rewrite dom_insert_L. apply elem_of_dom_2 in Hc. set_solver.
Qed.

Lemma srv_recv d i o len s :
  sview d i o s → 0 <= len →
  wp (hev_task_io_socket_recv d len MSG_WAITALL yielder)
    (λ '(r, b) s', ∃ i', i = b ++ i' ∧ sview d i' o s' ∧ (r = len → zlen b = len) ∧ still s s') (λ _, True) s.
Proof using Type.
  intros (Hd & c & Hc & Hi & Ho) Hl.
  eapply wp_mono; [by apply (recv_any _ _ _ _ len c s yielder_polite)|intros [r b] s'|done].
  intros (q & He & Hst & _ & Hn). exists (stream q). split_and!; [congruence| |done|by eapply evolve_still].
  split; [by rewrite (evolve_self _ _ _ _ He)|]. exists (set_rxq q c). split_and!; [by eapply evolve_chan|done|done].
Qed.

Lemma srv_send d i o buf s :
  sview d i o s →
  wp (hev_task_io_socket_send d buf MSG_WAITALL yielder)
    (λ r s', ∃ n, sview d i (o ++ take n buf) s' ∧ still s s') (λ _, True) s.
Proof using Type.
  intros (Hd & c & Hc & Hi & Ho).
  eapply wp_mono; [by apply (send_any _ _ _ _ buf c s yielder_polite)|intros r s'|done].
  intros (q & n & He & _). exists n. split; [|by eapply evolve_still].
  split; [by rewrite (evolve_self _ _ _ _ He)|]. eexists. split_and!; [by eapply evolve_chan|done|cbn; congruence].
Qed.

(** Cells that are there. *)
Lemma zget_lt (l : bytes) k : 0 <= k < zlen l → ∃ v, zget l k = Some v.
Proof using Type.
  intros Hk. unfold zget. destruct (Z.leb_spec 0 k); [|lia]. apply lookup_lt_is_Some_2. unfold zlen in Hk. lia.
Qed.

Lemma zget_byte (l : bytes) k v : Forall is_byte l → zget l k = Some v → is_byte v.
Proof using Type.
  unfold zget. intros Hl. destruct (0 <=? k); [|done]. intros Hv. by eapply Forall_lookup_1 in Hl.
Qed.

(** ** Authentication *)

(** The list of methods that the stream begins with. *)
Definition offers (i : bytes) (m : Z) (i' : bytes) : Prop :=
  ∃ ms, i = [5; zlen ms] ++ ms ++ i' ∧ m ∈ ms.

Definition method_of (o : object) : Z :=
  match o with NoObject => HEV_SOCKS5_AUTH_METHOD_NONE | _ => HEV_SOCKS5_AUTH_METHOD_USER end.

Lemma read_method_srv d i o s :
  sview d i o s → Forall is_byte i →
  wp hev_socks5_server_read_auth_method (λ r s', still s s' ∧ ∃ b i', i = b ++ i' ∧ sview d i' o s' ∧
    (r = -1 ∨ r = method_of (obj (server (self s))) ∧ offers i r i')) (λ _, True) s.
Proof using Type.
  intros Hs Hby. unfold hev_socks5_server_read_auth_method. eapply wp_bind_val; [reflexivity|]. rewrite (proj1 Hs).
  apply wp_bind. eapply wp_mono; [by apply srv_recv|intros [r b] s1|done]. intros (i1 & -> & Hs1 & Hn & Hst1).
  destruct (Z.eqb_spec r 2) as [->|]; cbn [negb]; [|apply wp_ret; split; [done|exists b, i1; by auto]].
  specialize (Hn eq_refl). destruct b as [|v [|n [|? b]]]; try (unfold zlen in Hn; cbn in Hn; lia).
  cbn [of_option zget Z.leb Z.compare Z.to_nat]. apply wp_bind, wp_ret.
  destruct (Z.eqb_spec v HEV_SOCKS5_VERSION_5) as [->|]; cbn [negb];
    [|apply wp_ret; split; [done|by eexists _, i1; auto]].
  apply wp_bind, wp_ret. eapply wp_bind_val; [reflexivity|]. rewrite (proj1 Hs1).
  assert (is_byte n) as Hnb by (apply Forall_app in Hby as [Hby _]; by apply Forall_cons in Hby as [_ [? _]%Forall_cons]).
  apply wp_bind. eapply wp_mono; [apply srv_recv; [done|unfold is_byte in Hnb; lia]|intros [r b] s2|done].
  intros (i2 & -> & Hs2 & Hn2 & Hst2). pose proof (still_trans _ _ _ Hst1 Hst2) as Hst.
  destruct (Z.eqb_spec r n) as [->|]; cbn [negb];
    [|apply wp_ret; split; [done|]; exists ([HEV_SOCKS5_VERSION_5; n] ++ b), i2; by rewrite <- app_assoc; auto].
  specialize (Hn2 eq_refl). subst n. eapply wp_bind_val; [reflexivity|]. apply wp_ret. split; [done|].
  exists ([HEV_SOCKS5_VERSION_5; zlen b] ++ b), i2. rewrite <- app_assoc. split_and!; [done|done|].
  rewrite (proj1 Hst). fold (method_of (obj (server (self s)))). case_bool_decide as Hin; [right|by left].
  split; [done|]. by exists b.
Qed.

(** The user, the password and what the server knows. *)
Definition knows (σ : spec) (name pass : bytes) : Prop :=
  ∃ u e, table σ !! name = Some u ∧ AuthMap.live σ !! u = Some e ∧ e_pass e = pass.

Definition credentials (σ : spec) (i i' : bytes) : Prop :=
  ∃ name pass, i = [1; zlen name] ++ name ++ [zlen pass] ++ pass ++ i' ∧ knows σ name pass.

(** An authenticator whose users have room for another reference. *)
Definition holds (σ : spec) (a : Z) (s : st system) : Prop :=
  obj (server (self s)) = AuthObject a ∧ ∃ v, auths (self s) !! a = Some v ∧ alive v = true ∧ auth_inv (memory v) σ ∧
    ∀ u e, AuthMap.live σ !! u = Some e → e_refs e < 4294967295.

(** Whose counted reference the server has, in a store that was [m0]: none, the
    authenticator's, or, after a login, that of one of its users, for which it gave
    the authenticator's back; if that was the last one, the authenticator is gone. *)
Definition token (g : option (Z * spec)) (m0 : gmap Z authenticator) (o : object) (m : gmap Z authenticator) : Prop :=
  match g with
  | None => o = NoObject ∧ m = m0
  | Some (a, σ) => ∃ v0 v, m0 !! a = Some v0 ∧ m = <[a := v]> m0 ∧
      (o = AuthObject a ∧ v = v0 ∧ alive v0 = true ∧ auth_inv (memory v0) σ ∨
       ∃ u e, o = UserObject a u ∧ AuthMap.live σ !! u = Some e ∧ table σ !! e_name e = Some u ∧ 1 <= e_refs e ∧
         if 1 <? refs v0
         then refs v = u32 (refs v0 - 1) ∧ alive v = true ∧ auth_inv (memory v) (set_refs u (e_refs e + 1) σ)
         else alive v = false ∧ refs v = 0 ∧ auth_inv (memory v) (spec_clear (set_refs u (e_refs e + 1) σ)))
  end.

Definition has_token (g : option (Z * spec)) (m0 : gmap Z authenticator) (s : st system) : Prop :=
  token g m0 (obj (server (self s))) (auths (self s)).

Lemma holds_token σ a s : holds σ a s → has_token (Some (a, σ)) (auths (self s)) s.
Proof using Type.
  intros (Ho & v & Hv & Hal & Hi & _). exists v, v. split_and!; [done|by rewrite insert_id|left]. done.
Qed.

Lemma token_self g m0 s s' : has_token g m0 s → self s' = self s → has_token g m0 s'.
Proof using Type. unfold has_token. by intros H ->. Qed.

Lemma on_auth_val {A} a (m : M auth A) s v x mem :
  auths (self s) !! a = Some v → m (memory v) = Val x mem →
  on_auth a m s = Val x (St (System (server (self s)) (<[a := Authenticator (refs v) (alive v) mem]> (auths (self s)))) (io s)).
Proof using Type.
  intros Hv Hm. unfold on_auth, get_auth, mbind, M_bind. rewrite Hv, Hm. done.
Qed.

(** What authenticating may change of the server: its object and the store. *)
Definition same_server s s' : Prop :=
  base (self s') = base (self s) ∧ fds0 (server (self s')) = fds0 (server (self s)) ∧
  fds1 (server (self s')) = fds1 (server (self s)) ∧ io s' = io s.

(** Looking the user up, checking the password, and exchanging the references. *)
Lemma login_spec σ a name y pass s :
  holds σ a s →
  wp (self ← get_server;
      match obj self with
      | AuthObject a =>
          v ← get_auth a;
          if negb (alive v) then stuck else
          user ← on_auth a (hev_socks5_authenticator_get (name ++ y) (zlen name));
          if negb (truthy user) then mret (-1) else
          res ← on_auth a (hev_socks5_user_check user pass (zlen pass));
          if res <? 0 then mret (-1) else
          object_ref (UserObject a user);;
          object_unref (AuthObject a);;
          set_obj (UserObject a user);;
          mret 0
      | _ => stuck
      end) (λ r s', same_server s s' ∧ has_token (Some (a, σ)) (auths (self s)) s' ∧
             (r = -1 ∧ ¬ knows σ name pass ∨ r = 0 ∧ knows σ name pass)) never s.
Proof using Type.
  intros Hh. pose proof (holds_token _ _ _ Hh) as Htok. destruct Hh as (Ho & v & Hv & Hal & [ts R] & Hrefs).
  eapply wp_bind_val; [reflexivity|]. rewrite Ho.
  eapply wp_bind_val; [unfold get_auth; by rewrite Hv|]. rewrite Hal. cbn [negb].
  eapply wp_bind_val; [eapply on_auth_val; [exact Hv|apply get_refines; by exists ts]|].
  set (s1 := St _ _). assert (s1 = s) as Hs1.
  { unfold s1. destruct v as [r l m]. cbn [refs alive memory]. rewrite insert_id by done. by destruct s as [[]]. }
  rewrite Hs1. clear s1 Hs1. destruct (table σ !! name) as [u|] eqn:Hu; cbn [default from_option id].
  2: { change (negb (truthy 0)) with true. cbv iota. apply wp_ret. split; [done|]. split; [done|]. left. split; [done|]. intros (u & e & Hu' & _). congruence. }
  destruct (in_table _ _ _ _ _ R Hu) as (Hu0 & us & vs & e & Hts & He & Hen). rewrite truthy_ne by done. cbn [negb].
  eapply wp_bind_val.
  { eapply on_auth_val; [exact Hv|]. rewrite <- (app_nil_r pass) at 1. by eapply check_refines. }
  set (s1 := St _ _). assert (s1 = s) as Hs1.
  { unfold s1. destruct v as [r l m]. cbn [refs alive memory]. rewrite insert_id by done. by destruct s as [[]]. }
  rewrite Hs1. clear s1 Hs1. unfold spec_check. rewrite He. case_bool_decide as Hp; cbn [Z.ltb Z.compare].
  2: { apply wp_ret. split; [done|]. split; [done|]. left. split; [done|]. intros (u' & e' & Hu' & He' & Hp'). congruence. }
  destruct (ref_rep _ _ _ _ _ R He (Hrefs _ _ He)) as (m1 & Hm1 & R1 & _).
  eapply wp_bind_val; [by apply (on_auth_val _ _ _ v)|]. set (v1 := Authenticator _ _ m1).
  assert (∀ s', base (self s') = base (self s) → fds0 (server (self s')) = fds0 (server (self s)) →
    fds1 (server (self s')) = fds1 (server (self s)) → io s' = io s →
    token (Some (a, σ)) (auths (self s)) (UserObject a u) (auths (self s')) →
    wp (set_obj (UserObject a u);; mret 0) (λ r s', same_server s s' ∧ has_token (Some (a, σ)) (auths (self s)) s' ∧
      (r = -1 ∧ ¬ knows σ name pass ∨ r = 0 ∧ knows σ name pass)) never s') as Hfin.
  { intros s' H1 H2 H3 H4 H5. cbn. split; [by split_and!|]. split; [exact H5|]. right. split; [done|]. by exists u, e. }
  set (s1 := St _ _). assert (auths (self s1) !! a = Some v1) as Hv1 by apply lookup_insert_eq.
  apply wp_bind. cbn [object_unref]. eapply wp_bind_val; [unfold get_auth; by rewrite Hv1|].
  change (alive v1) with (alive v). rewrite Hal. cbn [negb]. change (refs v1) with (refs v). apply wp_if; intros Hlast.
  - apply Hfin; try done. exists v, (Authenticator (u32 (refs v - 1)) true m1). split_and!; [done|cbn; by rewrite insert_insert_eq|].
    right. exists u, e. rewrite Hen, Hlast. split_and!; try done; [apply (a_refs _ _ _ R u e He)|by exists ts].
  - destruct (clear_refines _ _ _ R1) as (m2 & Hm2 & R2 & _).
    eapply wp_bind_val; [by apply (on_auth_val _ _ _ v1)|]. eapply wp_bind_val; [unfold get_auth; cbn; by rewrite lookup_insert_eq|].
    apply Hfin; try done. exists v, (Authenticator 0 false m2).
    split_and!; [done|cbn; by rewrite !insert_insert_eq|].
    right. exists u, e. rewrite Hen, Hlast. split_and!; try done; [apply (a_refs _ _ _ R u e He)|by exists []].
Qed.
(** Everything but the object and the store is as before. *)
Definition kept s s' : Prop :=
  base (self s') = base (self s) ∧ fds0 (server (self s')) = fds0 (server (self s)) ∧
  fds1 (server (self s')) = fds1 (server (self s)) ∧
  dom (chans (io s')) = dom (chans (io s)) ∧ polled (io s') = polled (io s).

Lemma kept_refl s : kept s s.
Proof using Type. done. Qed.

Lemma kept_trans s s' s'' : kept s s' → kept s' s'' → kept s s''.
Proof using Type. unfold kept. intuition congruence. Qed.

Lemma still_kept s s' : still s s' → kept s s'.
Proof using Type. intros (H1 & H2 & H3). unfold kept. by rewrite H1. Qed.

Lemma same_kept s s' : same_server s s' → kept s s'.
Proof using Type. intros (H1 & H2 & H3 & H4). unfold kept. by rewrite H1, H4. Qed.

Lemma holds_still σ a s s' : holds σ a s → still s s' → holds σ a s'.
Proof using Type. unfold holds. by intros Hh (-> & _). Qed.

Lemma sview_same d i o s s' : sview d i o s → same_server s s' → sview d i o s'.
Proof using Type. intros (Hd & Hc) (H1 & _ & _ & H4). split; [by rewrite H1|]. by rewrite H4. Qed.

Lemma read_user_srv σ a d i o s :
  sview d i o s → Forall is_byte i → holds σ a s →
  wp hev_socks5_server_read_auth_user (λ r s', (kept s s' ∧ has_token (Some (a, σ)) (auths (self s)) s') ∧ ∃ i', sview d i' o s' ∧ Forall is_byte i' ∧
    (r = -1 ∨ r = 0 ∧ credentials σ i i')) (λ _, True) s.
Proof using Type.
  intros Hs Hby Hh. unfold hev_socks5_server_read_auth_user. eapply wp_bind_val; [reflexivity|]. rewrite (proj1 Hs).
  apply wp_bind. eapply wp_mono; [by apply srv_recv|intros [r b] s1|done]. intros (i1 & -> & Hs1 & Hn & Hst1).
  apply Forall_app in Hby as [Hb Hby]. pose proof (still_kept _ _ Hst1) as Hk1.
  assert (∀ s', still s s' → kept s s' ∧ has_token (Some (a, σ)) (auths (self s)) s') as Hst0.
  { intros s' Hst. split; [by apply still_kept|]. eapply token_self; [by apply holds_token|apply Hst]. }
  destruct (Z.eqb_spec r 2) as [->|]; cbn [negb]; [|apply wp_ret; split; [by apply Hst0|by exists i1; auto]].
  specialize (Hn eq_refl). destruct b as [|v [|n [|? b]]]; try (unfold zlen in Hn; cbn in Hn; lia).
  cbn [of_option zget Z.leb Z.compare Z.to_nat]. apply wp_bind, wp_ret.
  destruct (Z.eqb_spec v 1) as [->|]; cbn [negb]; [|apply wp_ret; split; [by apply Hst0|by exists i1; auto]].
  apply wp_bind, wp_ret. apply wp_if; intros Hn0; [apply wp_ret; split; [by apply Hst0|by exists i1; auto]|].
  apply Forall_cons in Hb as [_ [Hnb _]%Forall_cons]. unfold is_byte in Hnb.
  apply wp_bind. eapply wp_mono; [apply srv_recv; [done|lia]|intros [r b] s2|done].
  intros (i2 & -> & Hs2 & Hn2 & Hst2). apply Forall_app in Hby as [Hb Hby].
  pose proof (still_trans _ _ _ Hst1 Hst2) as Hst. pose proof (still_kept _ _ Hst) as Hk2.
  destruct (Z.eqb_spec r (n + 1)) as [->|]; cbn [negb]; [|apply wp_ret; split; [by apply Hst0|by exists i2; auto]].
  specialize (Hn2 eq_refl). destruct (zget_lt b n ltac:(lia)) as [p Hp].
  eapply wp_bind_val; [by rewrite Hp|]. apply wp_if; intros Hp0; [apply wp_ret; split; [by apply Hst0|by exists i2; auto]|].
  pose proof (zget_byte _ _ _ Hb Hp) as Hpb. unfold is_byte in Hpb.
  apply wp_bind. eapply wp_mono; [apply srv_recv; [done|lia]|intros [r c] s3|done].
  intros (i3 & -> & Hs3 & Hn3 & Hst3). apply Forall_app in Hby as [_ Hby].
  pose proof (still_trans _ _ _ Hst Hst3) as Hst'. pose proof (still_kept _ _ Hst') as Hk3.
  destruct (Z.eqb_spec r p) as [->|]; cbn [negb]; [|apply wp_ret; split; [by apply Hst0|by exists i3; auto]].
  specialize (Hn3 eq_refl). subst p.
  assert (∃ name, b = name ++ [zlen c] ∧ zlen name = n) as (name & -> & <-).
  { exists (take (Z.to_nat n) b). assert (zlen (take (Z.to_nat n) b) = n) as Hz by (unfold zlen in *; rewrite length_take; lia).
    split; [|done]. rewrite <- (take_drop (Z.to_nat n) b) at 1. f_equal. unfold zget in Hp. destruct (0 <=? n); [|done].
    assert (length (drop (Z.to_nat n) b) = 1%nat) as Hd1 by (rewrite length_drop; unfold zlen in *; lia).
    destruct (drop (Z.to_nat n) b) as [|x [|? l]] eqn:Hd; try done. f_equal.
    rewrite <- (take_drop (Z.to_nat n) b), lookup_app_r, Hd in Hp by (rewrite length_take; lia).
    replace (Z.to_nat n - _)%nat with 0%nat in Hp by (rewrite length_take; unfold zlen in *; lia). by injection Hp. }
  eapply wp_mono; [apply (login_spec σ a name [zlen c] c s3); by eapply holds_still|intros r s4 (Hsame & Htok & Hr)|by intros ? []].
  split; [split; [eapply kept_trans; [exact Hk3|by apply same_kept]|by rewrite (proj1 Hst') in Htok]|]. exists i3. split_and!; [by eapply sview_same|done|].
  destruct Hr as [[-> _]|[-> Hkn]]; [by left|right]. split; [done|]. exists name, c. split; [|done]. by rewrite <- !app_assoc.
Qed.

(** What admits a client: without an authenticator an offer of no authentication,
    with one an offer of authentication and known credentials. *)
Definition guarded (g : option (Z * spec)) s : Prop :=
  match g with Some (a, σ) => holds σ a s | None => obj (server (self s)) = NoObject end.

Definition admitted (g : option (Z * spec)) (i i' : bytes) : Prop :=
  match g with
  | Some (_, σ) => ∃ i1, offers i 2 i1 ∧ credentials σ i1 i'
  | None => offers i 0 i'
  end.

Lemma guarded_token g s : guarded g s → has_token g (auths (self s)) s.
Proof using Type. destruct g as [[a σ]|]; [apply holds_token|by intros Ho]. Qed.

Lemma auth_srv g d i o s :
  sview d i o s → Forall is_byte i → guarded g s →
  wp hev_socks5_server_auth (λ r s', kept s s' ∧ has_token g (auths (self s)) s' ∧
    ∃ i' o', sview d i' o' s' ∧ Forall is_byte i' ∧ (r = -1 ∨ r = 0 ∧ admitted g i i')) (λ _, True) s.
Proof using Type.
  intros Hs Hby Hg. unfold hev_socks5_server_auth. apply wp_bind.
  eapply wp_mono; [by eapply read_method_srv|intros m s1|done]. intros (Hst1 & b & i1 & -> & Hs1 & Hm).
  assert (Forall is_byte i1) as Hby1 by (by apply Forall_app in Hby as [_ ?]).
  apply wp_bind. unfold hev_socks5_server_write_auth_method. eapply wp_bind_val; [reflexivity|].
  apply wp_bind. rewrite (proj1 Hs1). eapply wp_mono; [by eapply srv_send|intros r s2|done]. intros (n & Hs2 & Hst2).
  pose proof (still_trans _ _ _ Hst1 Hst2) as Hst. pose proof (still_kept _ _ Hst) as Hk.
  assert (has_token g (auths (self s)) s2) as Hno by (eapply token_self; [by apply guarded_token|apply Hst]).
  assert (∀ P : bytes → Prop, kept s s2 ∧ has_token g (auths (self s)) s2 ∧
    ∃ i' o', sview d i' o' s2 ∧ Forall is_byte i' ∧ (-1 = -1 ∨ P i')) as Hfail.
  { intros P. split_and!; [done|done|]. eexists i1, _. split_and!; [done|done|by left]. }
  apply wp_if; intros _; apply wp_ret; [by apply wp_ret, (Hfail (λ i', -1 = 0 ∧ admitted _ (b ++ i1) i'))|]. change (0 <? 0) with false. cbv iota.
  destruct g as [[a σ]|]; cbn [guarded] in Hg.
  - rewrite (proj1 Hg) in Hm. cbn [method_of] in Hm. destruct Hm as [->|[-> Hoff]]; [by apply wp_ret, (Hfail (λ i', -1 = 0 ∧ admitted _ (b ++ i1) i'))|].
    change (HEV_SOCKS5_AUTH_METHOD_USER =? HEV_SOCKS5_AUTH_METHOD_NONE) with false.
    change (HEV_SOCKS5_AUTH_METHOD_USER =? HEV_SOCKS5_AUTH_METHOD_USER) with true. cbv iota.
    apply wp_bind. eapply wp_mono; [eapply read_user_srv; [done|done|by eapply holds_still]|intros r' s3|done].
    intros ([Hk3 Htok3] & i3 & Hs3 & Hby3 & Hr'). rewrite (proj1 Hst) in Htok3. pose proof (kept_trans _ _ _ Hk Hk3) as Hk03.
    apply wp_bind. unfold hev_socks5_server_write_auth_user. eapply wp_bind_val; [reflexivity|].
    apply wp_bind. rewrite (proj1 Hs3). eapply wp_mono; [by eapply srv_send|intros r'' s4|done]. intros (n' & Hs4 & Hst4).
    pose proof (kept_trans _ _ _ Hk03 (still_kept _ _ Hst4)) as Hk4.
    pose proof (token_self _ _ _ _ Htok3 (proj1 Hst4)) as Htok4.
    apply wp_if; intros _; apply wp_ret; apply wp_if; intros Hlt; apply wp_ret;
      (split; [done|]); (split; [done|]); eexists i3, _; (split; [done|]); (split; [done|]); try (by left).
    + destruct Hr' as [->|[-> _]]; cbn in Hlt; done.
    + destruct Hr' as [->|[-> Hc]]; [cbn in Hlt; done|right]. split; [done|]. by exists i1.
  - rewrite Hg in Hm. cbn [method_of] in Hm. destruct Hm as [->|[-> Hoff]]; [by apply wp_ret, (Hfail (λ i', -1 = 0 ∧ admitted _ (b ++ i1) i'))|].
    change (HEV_SOCKS5_AUTH_METHOD_NONE =? HEV_SOCKS5_AUTH_METHOD_NONE) with true. cbv iota. apply wp_ret.
    split_and!; [done|done|]. eexists i1, _. split_and!; [done|done|by right].
Qed.
End Login.

(** ** Descriptors *)

Section Accounts.
Implicit Types s : st system.

Definition fdset (z : Z) : gset Z := if 0 <=? z then {[z]} else ∅.

(** The open descriptors: those in [D], those that the server owns, and those in
    [E] that it has not stored yet. *)
Record account (d : Z) (D E : gset Z) s : Prop := {
  ac_dom : dom (chans (io s)) = D ∪ fdset (fds0 (server (self s))) ∪ fdset (fds1 (server (self s))) ∪ E;
  ac_own : fd (base (self s)) = d ∧ d ∈ D;
  ac_new : fdset (fds0 (server (self s))) ∪ fdset (fds1 (server (self s))) ## D;
  ac_two : fdset (fds0 (server (self s))) ## fdset (fds1 (server (self s)));
  ac_polled : polled (io s) ⊆ dom (chans (io s))
}.

Lemma account_kept d D E s s' : account d D E s → kept s s' → account d D E s'.
Proof. intros [] (H1 & H2 & H3 & H4 & H5). split; rewrite ?H1, ?H2, ?H3, ?H4, ?H5; done. Qed.

Lemma account_calm d D E s s' : account d D E s → calm s s' → account d D E s'.
Proof. intros Ha (H1 & H2 & H3 & _). eapply account_kept; [exact Ha|]. unfold kept. by rewrite H1, H2. Qed.

Lemma account_timeout d D E v s : account d D E s → ∃ s', hev_socks5_set_timeout v s = Val tt s' ∧ account d D E s' ∧
  fds0 (server (self s')) = fds0 (server (self s)) ∧ fds1 (server (self s')) = fds1 (server (self s)) ∧
  fd (base (self s')) = fd (base (self s)) ∧ obj (server (self s')) = obj (server (self s)) ∧ io s' = io s ∧
  auths (self s') = auths (self s).
Proof. intros []. rewrite set_timeout_val. destruct (truthy _); eexists; split_and!; try reflexivity; by split. Qed.

(** A new socket, to be stored or dropped. *)
Lemma account_socket d D ty s :
  account d D ∅ s →
  wp (hev_socks5_socket ty) (λ r s', self s' = self s ∧
    (r = -1 ∧ account d D ∅ s' ∨
     0 < r ∧ account d D {[r]} s' ∧
       r ∉ D ∪ fdset (fds0 (server (self s))) ∪ fdset (fds1 (server (self s))))) never s.
Proof.
  intros Ha. eapply wp_mono; [apply socket_spec| |done]. intros r s' (Hs & _ & _ & Hr). split; [done|].
  destruct Ha as [Hd Ho Hn Ht Hp]. destruct Hr as [[-> (_ & _ & _ & Hc & Hpo)]|(Hpos & Hnone & (c & Hc) & Hpo)].
  - left. split; [done|]. specialize (Hpo Hp). split; rewrite ?Hs, ?Hc, ?Hpo; done.
  - right. apply not_elem_of_dom in Hnone. rewrite Hd in Hnone. split; [done|]. split; [|set_solver].
    split; rewrite ?Hs, ?Hc, ?Hpo; try done.
    + rewrite dom_insert_L, Hd. set_solver.
    + rewrite dom_insert_L. set_solver.
Qed.

Lemma account_drop {A} d D r (v : A) s :
  account d D {[r]} s → r ∉ D ∪ fdset (fds0 (server (self s))) ∪ fdset (fds1 (server (self s))) →
  ∃ s', (drop_fd r;; mret v) s = Val v s' ∧ account d D ∅ s' ∧ self s' = self s.
Proof.
  intros [Hd Ho Hn Ht Hp] Hr. eexists. split; [reflexivity|]. destruct s as [o []]. cbn in *. split; [|done].
  split; cbn; try done.
  - rewrite dom_delete_L, Hd. set_solver.
  - rewrite dom_delete_L. set_solver.
Qed.

(** Stored in a slot that was empty. *)
Lemma account_set0 d D r s :
  account d D {[r]} s → 0 < r → r ∉ D ∪ fdset (fds0 (server (self s))) ∪ fdset (fds1 (server (self s))) →
  fds0 (server (self s)) = -1 →
  ∃ s', set_fds0 r s = Val tt s' ∧ account d D ∅ s' ∧ fds0 (server (self s')) = r ∧
    fds1 (server (self s')) = fds1 (server (self s)) ∧ obj (server (self s')) = obj (server (self s)) ∧
    auths (self s') = auths (self s).
Proof.
  intros [Hd Ho Hn Ht Hp] Hpos Hr H0. eexists. split; [reflexivity|]. rewrite H0 in *.
  change (fdset (-1)) with (∅ : gset Z) in *. assert (fdset r = {[r]}) as Hfr by (unfold fdset; by destruct (Z.leb_spec 0 r); [|lia]).
  split; [|done]. destruct s as [[[]] ]. split; cbn in *; rewrite ?Hfr; try done; [rewrite Hd|..]; set_solver.
Qed.

Lemma account_set1 d D r s :
  account d D {[r]} s → 0 < r → r ∉ D ∪ fdset (fds0 (server (self s))) ∪ fdset (fds1 (server (self s))) →
  fds1 (server (self s)) = -1 →
  ∃ s', set_fds1 r s = Val tt s' ∧ account d D ∅ s' ∧ obj (server (self s')) = obj (server (self s)) ∧
    auths (self s') = auths (self s).
Proof.
  intros [Hd Ho Hn Ht Hp] Hpos Hr H0. eexists. split; [reflexivity|]. rewrite H0 in *.
  change (fdset (-1)) with (∅ : gset Z) in *. assert (fdset r = {[r]}) as Hfr by (unfold fdset; by destruct (Z.leb_spec 0 r); [|lia]).
  split; [|done]. destruct s as [[[]] ]. split; cbn in *; rewrite ?Hfr; try done; [rewrite Hd|..]; set_solver.
Qed.
Lemma account_own d D E s : account d D E s → ∃ c, chans (io s) !! fd (base (self s)) = Some c.
Proof.
  intros [Hd Ho _ _ _]. assert (fd (base (self s)) ∈ dom (chans (io s))) as Hin by (rewrite Hd; set_solver).
  by apply elem_of_dom in Hin.
Qed.
End Accounts.

(** ** The request and the commands *)

Section Handshake.
Context `{L : ServerLaws} `{Resolver}.
Implicit Types s : st system.

Lemma into_sockaddr6_total a t n (old : sockaddr6) fam :
  zlen a = sizeof_HevSocks5Addr → zget a 0 = Some t → zget a 1 = Some n → is_byte n →
  ∃ r, hev_socks5_addr_into_sockaddr6 a old fam = Some r.
Proof using Type.
  intros Hl Ht Hn Hb. unfold sizeof_HevSocks5Addr in Hl. unfold hev_socks5_addr_into_sockaddr6. rewrite Ht, Hn.
  unfold mbind, option_bind.
  destruct (t =? HEV_SOCKS5_ADDR_TYPE_IPV4).
  { cells a Hl 19%nat. unfold hev_socks5_ipv4_into_sockaddr6. by eexists. }
  destruct (t =? HEV_SOCKS5_ADDR_TYPE_IPV6).
  { cells a Hl 19%nat. unfold hev_socks5_ipv6_into_sockaddr6. by eexists. }
  destruct (t =? HEV_SOCKS5_ADDR_TYPE_NAME); [|by eexists].
  assert (∃ name, cstr (slice a 2 n ++ [0]) = Some name) as [name ->].
  { generalize (slice a 2 n). intros l. induction l as [|x l [nm IH]]; [by exists []|].
    cbn. destruct (x =? 0); [by exists []|]. cbn in IH. rewrite IH. by eexists. }
  assert (zlen (slice a (2 + n) 2) = 2) as Hs.
  { unfold is_byte in Hb. unfold slice, zlen in *. rewrite length_take, length_drop. lia. }
  destruct (slice a (2 + n) 2) as [|x [|y l]]; try (unfold zlen in Hs; cbn in Hs; lia). by eexists.
Qed.

(** A server that waits for its client's request. *)
Definition served (d : Z) (D : gset Z) (g : option (Z * spec)) (m0 : gmap Z authenticator) s : Prop :=
  account d D ∅ s ∧ has_token g m0 s ∧
  fds0 (server (self s)) = -1 ∧ fds1 (server (self s)) = -1.

Lemma served_kept d D g m0 s s' : served d D g m0 s → kept s s' → has_token g m0 s' → served d D g m0 s'.
Proof using Type.
  intros (Ha & Ho & Z0 & Z1) Hk Hob. split_and!; [by eapply account_kept|done| |]; destruct Hk as (_ & ? & ? & _); congruence.
Qed.

Lemma served_still d D g m0 s s' : served d D g m0 s → still s s' → served d D g m0 s'.
Proof using Type. intros Hs Hst. eapply served_kept; [done|by apply still_kept|]. eapply token_self; [apply Hs|apply Hst]. Qed.

Lemma read_request_srv D g m0 d i o s :
  sview d i o s → Forall is_byte i → served d D g m0 s →
  wp hev_socks5_server_read_request (λ '(res, rep, cmd, _) s', served d D g m0 s' ∧
    (0 <= res → rep = HEV_SOCKS5_RES_REP_SUCC → ∃ c, cmd = Some c)) (λ _, True) s.
Proof using Type.
  intros Hs Hby Hd. unfold hev_socks5_server_read_request. eapply wp_bind_val; [reflexivity|]. rewrite (proj1 Hs).
  apply wp_bind. eapply wp_mono; [by apply srv_recv|intros [r b] s1|done]. intros (i1 & -> & Hs1 & Hn & Hst1).
  apply Forall_app in Hby as [Hb _]. pose proof (served_still _ _ _ _ _ _ Hd Hst1) as Hd1.
  destruct (Z.eqb_spec r 5) as [->|]; cbn [negb]; [|by apply wp_ret]. specialize (Hn eq_refl).
  destruct b as [|v [|cmd [|rsv [|t [|len [|? b]]]]]]; try (unfold zlen in Hn; cbn in Hn; lia).
  cbn [of_option zget Z.leb Z.compare Z.to_nat]. apply wp_bind, wp_ret.
  apply wp_if; intros _; [by apply wp_ret|]. apply wp_bind, wp_ret. apply wp_bind, wp_ret. cbv zeta.
  assert (is_byte len) as Hlen by (repeat apply Forall_cons in Hb as [? Hb]; done).
  set (al := if t =? HEV_SOCKS5_ADDR_TYPE_IPV4 then Some 5 else _).
  assert (match al with Some x => 0 <= x <= 257 | None => True end) as Hal.
  { unfold is_byte in Hlen. unfold al. destruct (_ =? _); [lia|]. destruct (_ =? _); [lia|]. destruct (_ =? _); [lia|done]. }
  clearbody al. destruct al as [al|]; [|by apply wp_ret].
  apply wp_bind. eapply wp_mono; [apply srv_recv; [done|lia]|intros [r b] s2|done].
  intros (i2 & -> & Hs2 & Hn2 & Hst2). pose proof (served_still _ _ _ _ _ _ Hd1 Hst2) as Hd2.
  destruct (Z.eqb_spec r al) as [->|]; cbn [negb]; [|by apply wp_ret]. specialize (Hn2 eq_refl).
  eapply wp_bind_val; [reflexivity|].
  set (a := overwrite (overwrite addr_undef 0 [t; len]) 2 b).
  assert (a = t :: len :: overwrite (replicate 258 0) 0 b) as Ha by done.
  destruct (into_sockaddr6_total a t len addr_zero (addr_family (base (self s2)))) as [[[res sa] fam] Hsa].
  { rewrite Ha, !zlen_cons, zlen_overwrite; [reflexivity|lia|]. change (zlen (replicate 258 0)) with 258. lia. }
  { by rewrite Ha. } { by rewrite Ha. } { done. }
  eapply wp_bind_val; [by rewrite Hsa|]. cbv beta iota. apply wp_if; intros _; [by apply wp_ret|].
  eapply wp_bind_val; [reflexivity|]. apply wp_bind, wp_ret. apply wp_ret. split; [|by exists cmd].
  destruct Hd2 as ([? [? ?] ? ? ?] & ? & ? & ?). by repeat split.
Qed.

(** What every command leaves: accounts that are in order. *)
Definition settled (d : Z) (D : gset Z) (g : option (Z * spec)) (m0 : gmap Z authenticator) s : Prop :=
  account d D ∅ s ∧ has_token g m0 s.

Lemma settled_calm d D g m0 s s' : settled d D g m0 s → calm s s' → settled d D g m0 s'.
Proof using Type. intros [Ha Ho] Hc. split; [by eapply account_calm|]. eapply token_self; [done|apply Hc]. Qed.

Lemma connect_srv d D g m0 a s :
  served d D g m0 s → wp (hev_socks5_server_connect a) (λ _ s', settled d D g m0 s') (λ _, True) s.
Proof using L.
  intros (Ha & Ho & Z0 & Z1). unfold hev_socks5_server_connect. apply wp_bind.
  eapply wp_mono; [by apply account_socket|intros r s1 [Hs1 Hr]|done].
  apply (token_self _ _ _ s1) in Ho; [|done]. rewrite <- Hs1 in Z0, Z1.
  destruct Hr as [[-> Ha1]|(Hpos & Ha1 & Hr)]; [by apply wp_ret|]. rewrite <- Hs1 in Hr. destruct (Z.ltb_spec r 0); [lia|].
  assert (∀ s', account d D {[r]} s' → fds0 (server (self s')) = -1 → fds1 (server (self s')) = -1 →
    has_token g m0 s' → wp (drop_fd r;; mret (-1)) (λ _ s', settled d D g m0 s') (λ _, True) s') as Hdrop.
  { intros s' Ha' Z0' Z1' Ho'. destruct (account_drop d D r (-1) s' Ha') as (s'' & Hv & Ha'' & Hs'').
    - rewrite Z0', Z1'. by rewrite Z0, Z1 in Hr.
    - eapply wp_val; [exact Hv|]. split; [done|]. by eapply token_self. }
  apply wp_bind. eapply wp_mono; [apply sk_law|intros r2 s2 Hc2|done].
  pose proof (account_calm _ _ _ _ _ Ha1 Hc2) as Ha2. pose proof (proj1 Hc2) as Hs2.
  apply (token_self _ _ _ s2) in Ho; [|done].
  apply wp_if; intros _; [apply Hdrop; by rewrite ?Hs2|]. eapply wp_bind_val; [reflexivity|].
  destruct (account_timeout d D {[r]} (connect_timeout (config (io s2))) s2 Ha2) as (s3 & Hv3 & Ha3 & E0 & E1 & _ & Eo & _ & Eu).
  eapply wp_bind_val; [exact Hv3|]. rewrite Hs2 in E0, E1. rewrite Z0 in E0. rewrite Z1 in E1.
  assert (has_token g m0 s3) as Ho3 by (unfold has_token; by rewrite Eo, Eu).
  apply wp_bind. eapply wp_mono; [apply connect_calm, yielder_polite|intros r4 s4 Hc4|done].
  pose proof (account_calm _ _ _ _ _ Ha3 Hc4) as Ha4. pose proof (proj1 Hc4) as Hs4. rewrite <- Hs4 in E0, E1.
  apply (token_self _ _ _ s4) in Ho3; [|done].
  apply wp_if; intros _; [by apply Hdrop|]. eapply wp_bind_val; [reflexivity|].
  destruct (account_timeout d D {[r]} (tcp_timeout (config (io s4))) s4 Ha4) as (s5 & Hv5 & Ha5 & F0 & F1 & _ & Fo & _ & Fu).
  eapply wp_bind_val; [exact Hv5|]. destruct (account_set0 d D r s5 Ha5 Hpos) as (s6 & Hv6 & Ha6 & _ & _ & Ho6 & Hu6).
  - rewrite F0, F1, E0, E1. by rewrite Z0, Z1 in Hr.
  - congruence.
  - eapply wp_bind_val; [exact Hv6|]. apply wp_ret. split; [done|]. unfold has_token. by rewrite Ho6, Hu6, Fo, Fu.
Qed.

Lemma bind_srv d D g m0 a s :
  served d D g m0 s → wp (hev_socks5_server_bind a) (λ _ s', settled d D g m0 s') (λ _, True) s.
Proof using L.
  intros (Ha & Ho & Z0 & Z1). unfold hev_socks5_server_bind. apply wp_bind.
  eapply wp_mono; [by apply account_socket|intros r s1 [Hs1 Hr]|done].
  apply (token_self _ _ _ s1) in Ho; [|done]. rewrite <- Hs1 in Z0, Z1.
  destruct Hr as [[-> Ha1]|(Hpos & Ha1 & Hr)]; [by apply wp_ret|]. rewrite <- Hs1 in Hr. destruct (Z.ltb_spec r 0); [lia|].
  destruct (account_set0 d D r s1 Ha1 Hpos Hr Z0) as (s2 & Hv2 & Ha2 & E0 & E1 & Eo & Eu). eapply wp_bind_val; [exact Hv2|].
  assert (has_token g m0 s2) as Ho2 by (unfold has_token; by rewrite Eo, Eu).
  assert (settled d D g m0 s2) as Hset by done.
  destruct a as [a|]; [|by apply wp_ret]. apply wp_bind.
  eapply wp_mono; [by apply account_socket|intros r2 s3 [Hs3 Hr2]|done].
  apply (token_self _ _ _ s3) in Ho2; [|done]. rewrite <- Hs3 in E0, E1. destruct Hr2 as [[-> Ha3]|(Hpos2 & Ha3 & Hr2)].
  { by apply wp_ret. }
  rewrite <- Hs3 in Hr2. destruct (Z.ltb_spec r2 0); [lia|].
  assert (∀ s' (v : Z * option sockaddr6), calm s3 s' → wp (drop_fd r2;; mret v) (λ _ s', settled d D g m0 s') (λ _, True) s') as Hdrop.
  { intros s' v Hc. destruct (account_drop d D r2 v s' (account_calm _ _ _ _ _ Ha3 Hc)) as (s'' & Hv & Ha'' & Hs'').
    - by rewrite (proj1 Hc).
    - eapply wp_val; [exact Hv|]. split; [done|]. eapply token_self; [exact Ho2|]. by rewrite Hs'', (proj1 Hc). }
  apply wp_bind. destruct (syscall_calm s3) as (r4 & s4 & Hv4 & Hc4 & _). eapply wp_val; [exact Hv4|].
  apply wp_if; intros _; [by apply Hdrop|]. apply wp_bind.
  eapply wp_mono; [apply ss_law|intros [r5 a5] s5 Hc5|done]. pose proof (calm_trans _ _ _ Hc4 Hc5) as Hc.
  apply wp_if; intros _; [by apply Hdrop|]. pose proof (proj1 Hc) as Hs5.
  destruct (account_set1 d D r2 s5 (account_calm _ _ _ _ _ Ha3 Hc) Hpos2) as (s6 & Hv6 & Ha6 & Ho6 & Hu6).
  - by rewrite Hs5.
  - rewrite Hs5. congruence.
  - eapply wp_bind_val; [exact Hv6|]. apply wp_ret. split; [done|]. unfold has_token. by rewrite Ho6, Hu6, Hs5.
Qed.

Lemma settled_type d D g m0 t s : settled d D g m0 s → ∃ s', upd_base (set_type t) s = Val tt s' ∧ settled d D g m0 s'.
Proof using Type. intros [[? [? ?] ? ? ?] Ho]. eexists. split; [reflexivity|]. by repeat split. Qed.

Lemma command_srv d D g m0 cmd a s :
  served d D g m0 s → wp (handshake_command cmd a) (λ _ s', settled d D g m0 s') (λ _, True) s.
Proof using L.
  intros Hd. unfold handshake_command. apply wp_if; intros _; [|apply wp_if; intros _; [|apply wp_if; intros _]].
  - apply wp_bind. eapply wp_mono; [by apply connect_srv|intros r s1 Z1|done].
    destruct (settled_type d D g m0 HEV_SOCKS5_TYPE_TCP s1 Z1) as (s2 & Hv & Z2). by eapply wp_bind_val.
  - apply wp_bind. eapply wp_mono; [by apply bind_srv|intros [r a'] s1 Z1|done].
    destruct (settled_type d D g m0 HEV_SOCKS5_TYPE_UDP_IN_UDP s1 Z1) as (s2 & Hv & Z2). by eapply wp_bind_val.
  - apply wp_bind. eapply wp_mono; [by apply bind_srv|intros [r a'] s1 Z1|done].
    destruct (settled_type d D g m0 HEV_SOCKS5_TYPE_UDP_IN_TCP s1 Z1) as (s2 & Hv & Z2). by eapply wp_bind_val.
  - apply wp_ret. destruct Hd as (? & ? & _). by split.
Qed.

Lemma respond_srv d D g m0 rep a s :
  settled d D g m0 s → wp (hev_socks5_server_write_response rep a) (λ _ s', settled d D g m0 s') (λ _, True) s.
Proof using Type.
  intros [Ha Ho]. unfold hev_socks5_server_write_response. eapply wp_bind_val; [reflexivity|].
  destruct (hev_socks5_addr_from_sockaddr6 _ _) as [len ab]. apply wp_bind.
  destruct (account_own _ _ _ _ Ha) as [c Hc].
  eapply wp_mono; [apply (srv_send _ (stream (rxq c)) (tx c)); split; [done|by exists c]|intros r s1 (m & _ & Hst)|done].
  assert (settled d D g m0 s1) as Hs1.
  { split; [by eapply account_kept, still_kept|]. eapply token_self; [done|apply Hst]. }
  apply wp_if; intros _; by apply wp_ret.
Qed.
Lemma handshake_srv g D d i o s :
  sview d i o s → Forall is_byte i → guarded g s → served d D g (auths (self s)) s →
  wp hev_socks5_server_handshake (λ r s', settled d D g (auths (self s)) s' ∧
    (r = -1 ∧ dom (chans (io s')) = D ∨ ∃ i', admitted g i i')) (λ _, True) s.
Proof using L.
  intros Hs Hby Hg (Ha & Ho & F0 & F1). unfold hev_socks5_server_handshake, hev_socks5_get_tcp_timeout, get_config, wp.
  rewrite bind_assoc. erewrite bind_val by reflexivity. erewrite bind_val by reflexivity.
  destruct (account_timeout d D ∅ (tcp_timeout (config (io s))) s Ha) as (s1 & Hv & Ha1 & E0 & E1 & Efd & Eo & Eio & Eau).
  erewrite bind_val by exact Hv. apply wp_bind.
  assert (guarded g s1) as Hg1 by (destruct g as [[a σ]|]; unfold guarded, holds in *; by rewrite Eo, ?Eau).
  assert (sview d i o s1) as Hs1 by (destruct Hs as [Hd Hc]; split; [congruence|by rewrite Eio]).
  eapply wp_mono; [by eapply auth_srv|intros r s2|done]. intros (Hk & Hno & i' & o' & Hs2 & Hby2 & Hr).
  assert (served d D g (auths (self s)) s2) as Hd2.
  { rewrite Eau in Hno. split_and!; [by eapply account_kept|done| |]; destruct Hk as (_ & K0 & K1 & _); congruence. }
  assert (served d D g (auths (self s)) s2 → dom (chans (io s2)) = D) as Hdom.
  { intros ([Hdm _ _ _ _] & _ & G0 & G1). rewrite Hdm, G0, G1. change (fdset (-1)) with (∅ : gset Z). clear. set_solver. }
  destruct Hr as [->|[-> Hadm]].
  { apply wp_ret. split; [destruct Hd2 as (? & ? & _); by split|left; split; [done|by apply Hdom]]. }
  change (0 <? 0) with false. cbv iota. clear Hdom. apply wp_bind.
  eapply wp_mono; [by eapply read_request_srv|intros [[[res rep] cmd] a] s3 [Hd3 Hcmd]|done].
  assert (settled d D g (auths (self s)) s3) as Hset3 by (destruct Hd3 as (? & ? & _); by split).
  apply wp_if; intros Hres; [apply wp_ret; split; [done|right; by exists i']|]. apply wp_bind.
  apply (wp_mono _ (λ _ s', settled d D g (auths (self s)) s') _ (λ _, True) _); [|intros [rep' a'] s4 Hset4|done].
  - destruct (Z.eqb_spec rep HEV_SOCKS5_RES_REP_SUCC) as [->|]; [|by apply wp_ret].
    destruct cmd as [cmd|]; [by apply wp_bind, wp_ret, command_srv|].
    apply Z.ltb_ge in Hres. by destruct (Hcmd Hres eq_refl).
  - apply wp_bind. eapply wp_mono; [by apply respond_srv|intros r5 s5 Hset5|done].
    apply wp_if; intros _; apply wp_ret; (split; [done|right; by exists i']).
Qed.

(** C15: the server serves only whom its authenticator knows: for every client and
    network, an authenticating server either ends its handshake with an error and
    without having opened any socket, or the client's bytes began with an offer of
    the user method and with the name and the password of a user that is in the
    authenticator; and it never misbehaves, whatever the client sends. *)
Theorem server_admission a σ d i o s :
  sview d i o s → Forall is_byte i → holds σ a s →
  fds0 (server (self s)) = -1 → fds1 (server (self s)) = -1 → polled (io s) ⊆ dom (chans (io s)) →
  wp hev_socks5_server_handshake (λ r s',
    r = -1 ∧ dom (chans (io s')) = dom (chans (io s)) ∨
    ∃ ms name pass rest, i = [5; zlen ms] ++ ms ++ [1; zlen name] ++ name ++ [zlen pass] ++ pass ++ rest ∧
      2 ∈ ms ∧ knows σ name pass) (λ _, True) s.
Proof using L.
  intros Hs Hby Hh F0 F1 Hp.
  eapply wp_mono; [apply (handshake_srv (Some (a, σ)) (dom (chans (io s))) d i o); try done| |done].
  - split_and!; try done; [|by apply (guarded_token (Some (a, σ)))]. split; rewrite ?F0, ?F1; try done; [|].
    + change (fdset (-1)) with (∅ : gset Z). clear. set_solver.
    + destruct Hs as (Hd & c & Hc & _). split; [done|]. apply elem_of_dom. by exists c.
  - intros r s' [_ [Hr|(rest & i1 & (ms & -> & Hms) & name & pass & -> & Hk)]]; [by left|right].
    by exists ms, name, pass, rest.
Qed.

(** Closing what a slot holds. *)
Lemma close_slot z s :
  ∃ s', (if 0 <=? z then drop_fd z else mret tt) s = Val tt s' ∧ self s' = self s ∧
    dom (chans (io s')) = dom (chans (io s)) ∖ fdset z ∧ polled (io s') = polled (io s) ∖ fdset z.
Proof using Type.
  unfold fdset. destruct (0 <=? z).
  - eexists. split; [reflexivity|]. destruct s as [o []]. cbn. split_and!; [done|by rewrite dom_delete_L|].
    clear. set_solver.
  - exists s. split_and!; [done|done|clear; set_solver|clear; set_solver].
Qed.

(** ** The end of a server *)

(** The reference is given back: the authenticator, with its users as they were, has
    one less, or it is gone, and so is every user that only it referred to. *)
Definition released (g : option (Z * spec)) (m0 m : gmap Z authenticator) : Prop :=
  match g with
  | None => m = m0
  | Some (a, σ) => ∃ v0 v, m0 !! a = Some v0 ∧ m = <[a := v]> m0 ∧
      if 1 <? refs v0 then refs v = refs v0 - 1 ∧ alive v = true ∧ auth_inv (memory v) σ
      else refs v = 0 ∧ alive v = false ∧ auth_inv (memory v) (spec_clear σ)
  end.

(** References that can be counted. *)
Definition countable (g : option (Z * spec)) (m0 : gmap Z authenticator) : Prop :=
  match g with Some (a, _) => ∀ v, m0 !! a = Some v → refs v < 4294967296 | None => True end.

Lemma set_refs_back σ u e :
  AuthMap.live σ !! u = Some e → 1 <= e_refs e → spec_unref u (set_refs u (e_refs e + 1) σ) = σ.
Proof using Type.
  intros He Hr. unfold spec_unref. cbn. rewrite lookup_alter_eq, He. cbn.
  destruct (Z.eqb_spec (e_refs e + 1) 1); [lia|]. unfold set_refs. cbn. destruct σ as [lv tb]. cbn in *. f_equal.
  apply map_eq. intros b. destruct (decide (u = b)) as [<-|Hne].
  - rewrite !lookup_alter_eq, He. cbn. f_equal. destruct e. cbn. f_equal. lia.
  - by rewrite !lookup_alter_ne.
Qed.

Lemma clear_refs_back σ u e :
  AuthMap.live σ !! u = Some e → table σ !! e_name e = Some u → 1 <= e_refs e →
  AuthMap.live (spec_clear (set_refs u (e_refs e + 1) σ)) !! u = Some e ∧
  spec_unref u (spec_clear (set_refs u (e_refs e + 1) σ)) = spec_clear σ.
Proof using Type.
  intros He Ht Hr.
  assert (AuthMap.live (spec_clear (set_refs u (e_refs e + 1) σ)) !! u = Some e) as Hu.
  { cbn. rewrite map_lookup_imap, lookup_alter_eq, He. cbn. unfold drop_entry. cbn.
    rewrite bool_decide_eq_true_2 by done. destruct (Z.eqb_spec (e_refs e + 1) 1); [lia|]. f_equal. destruct e. cbn. f_equal. lia. }
  split; [done|]. pose proof (lookup_spec_unref _ _ _ u Hu) as Hl. rewrite decide_True in Hl by done.
  pose proof (table_spec_unref (spec_clear (set_refs u (e_refs e + 1) σ)) u) as Htb. cbn [spec_clear table] in Htb.
  assert (∀ x y : spec, AuthMap.live x = AuthMap.live y → table x = table y → x = y) as Heq by (intros [] []; cbn; congruence).
  apply Heq; [|done]. apply map_eq. intros b. destruct (decide (u = b)) as [<-|Hne].
  - rewrite Hl. cbn. rewrite map_lookup_imap, He. cbn. unfold drop_entry. by rewrite bool_decide_eq_true_2.
  - rewrite (lookup_spec_unref _ _ _ b Hu), decide_False by done. cbn. by rewrite !map_lookup_imap, lookup_alter_ne.
Qed.

Lemma unref_user σ m u e :
  auth_inv m σ → AuthMap.live σ !! u = Some e → (table σ !! e_name e = Some u → 1 < e_refs e) →
  ∃ m', Auth.hev_object_unref u m = Val tt m' ∧ auth_inv m' (spec_unref u σ).
Proof using Type.
  intros [ts R] He Hr. destruct (unref_rep _ _ _ _ _ R He) as (m' & E & R' & _).
  { intros Hin. apply Hr, (a_table _ _ _ R). split; [done|by apply name_at_Some]. }
  exists m'. split; [done|by exists ts].
Qed.

(** Giving back what the server has a reference to. *)
Lemma token_unref g m0 s :
  has_token g m0 s → countable g m0 →
  ∃ s', match obj (server (self s)) with NoObject => mret tt | o => object_unref o end s = Val tt s' ∧
    server (self s') = server (self s) ∧ io s' = io s ∧ released g m0 (auths (self s')).
Proof using Type.
  unfold has_token. destruct g as [[a σ]|]; cbn [token countable released].
  2: { intros [-> Hm] _. by exists s. }
  intros (v0 & v & Hv0 & Hm & [(Ho & -> & Hal & Hi)|(u & e & Ho & He & Ht & Hr & Hv)]) Hc; rewrite Ho; cbn [object_unref];
    specialize (Hc _ Hv0).
  - assert (auths (self s) !! a = Some v0) as Hv by (by rewrite Hm, lookup_insert_eq).
    erewrite bind_val by (unfold get_auth; by rewrite Hv). rewrite Hal. cbn [negb].
    destruct (1 <? refs v0) eqn:Hlast.
    + apply Z.ltb_lt in Hlast. eexists. split; [reflexivity|]. split_and!; [done|done|].
      exists v0, (Authenticator (refs v0 - 1) true (memory v0)). cbn. rewrite Hm, insert_insert_eq, u32_small by lia.
      rewrite (proj2 (Z.ltb_lt _ _)) by done. done.
    + destruct Hi as [ts R]. destruct (clear_refines _ _ _ R) as (m2 & Hm2 & R2 & _).
      erewrite bind_val by (eapply on_auth_val; [exact Hv|exact Hm2]).
      erewrite bind_val by (unfold get_auth; cbn; by rewrite lookup_insert_eq).
      eexists. split; [reflexivity|]. split_and!; [done|done|]. exists v0, (Authenticator 0 false m2).
      cbn. rewrite Hm, !insert_insert_eq, Hlast. split_and!; try done. by exists [].
  - assert (auths (self s) !! a = Some v) as Hv1 by (by rewrite Hm, lookup_insert_eq).
    destruct (1 <? refs v0) eqn:Hlast; [destruct Hv as (Hv & Hal & Hi)|destruct Hv as (Hal & Hv & Hi)].
    + apply Z.ltb_lt in Hlast.
      destruct (unref_user _ _ u (Entry (e_name e) (e_pass e) (e_refs e + 1)) Hi) as (m' & E & Hi').
      { cbn. by rewrite lookup_alter_eq, He. } { cbn. lia. }
      rewrite (set_refs_back _ _ _ He Hr) in Hi'. eexists. split; [by eapply on_auth_val|]. split_and!; [done|done|].
      exists v0, (Authenticator (refs v) (alive v) m'). cbn. rewrite Hm, insert_insert_eq, Hv, u32_small by lia.
      rewrite (proj2 (Z.ltb_lt _ _)) by done. done.
    + destruct (clear_refs_back _ _ _ He Ht Hr) as [Hu Hcl].
      destruct (unref_user _ _ u e Hi Hu) as (m' & E & Hi'); [done|]. rewrite Hcl in Hi'.
      eexists. split; [by eapply on_auth_val|]. split_and!; [done|done|].
      exists v0, (Authenticator (refs v) (alive v) m'). cbn. rewrite Hm, insert_insert_eq, Hlast. done.
Qed.

(** C16: a server leaves nothing behind, with or without an authenticator: whatever its
    client asks for, however the handshake ends and at whichever step the system refuses
    something, after the destruction of the server exactly the client's connection is
    closed among the descriptors that were open before it started, all sockets that it
    opened are closed, and no closed descriptor is still registered with the task; and
    its reference is given back, whether to the authenticator or, after a login, to a
    user: the authenticator and its users have the references that they had, but for
    the server's, and with the last one they are gone. *)
Theorem server_no_leak g d i o s :
  0 <= d → sview d i o s → Forall is_byte i → guarded g s → countable g (auths (self s)) →
  fds0 (server (self s)) = -1 → fds1 (server (self s)) = -1 → polled (io s) ⊆ dom (chans (io s)) →
  wp (hev_socks5_server_handshake;; hev_socks5_server_destruct) (λ _ s',
    dom (chans (io s')) = dom (chans (io s)) ∖ {[d]} ∧ polled (io s') ⊆ dom (chans (io s')) ∧
    released g (auths (self s)) (auths (self s'))) (λ _, True) s.
Proof using L.
  intros Hd0 Hs Hby Hg Hc F0 F1 Hp. set (D := dom (chans (io s))). pose proof Hs as [Hfd _].
  assert (d ∈ D) as HdD by (destruct Hs as (_ & c & Hch & _); apply elem_of_dom; by exists c).
  apply wp_bind. eapply wp_mono; [apply (handshake_srv g D d i o); try done| |done].
  { split_and!; try done; [|by apply guarded_token]. split; rewrite ?F0, ?F1; try done.
    change (fdset (-1)) with (∅ : gset Z). clear. set_solver. }
  intros r s1 [[Ha1 Htok] _]. unfold hev_socks5_server_destruct.
  eapply wp_bind_val; [reflexivity|].
  destruct (close_slot (fds0 (server (self s1))) s1) as (s2 & Hv2 & E2 & Hd2 & Hp2). eapply wp_bind_val; [exact Hv2|].
  destruct (close_slot (fds1 (server (self s1))) s2) as (s3 & Hv3 & E3 & Hd3 & Hp3). eapply wp_bind_val; [exact Hv3|].
  rewrite <- E2, <- E3. destruct (token_unref g (auths (self s)) s3) as (s4 & Hv4 & E4 & Hio4 & Hrel);
    [eapply token_self; [done|congruence]|done|].
  eapply wp_bind_val; [exact Hv4|]. unfold hev_socks5_destruct. eapply wp_bind_val; [reflexivity|].
  destruct Ha1 as [Hd1 [Hfd1 _] Hn1 _ Hp1].
  assert (fd (base (self s4)) = d) as -> by (rewrite <- Hfd1; cbn; by rewrite E4, E3, E2).
  destruct (Z.leb_spec 0 d); [|lia]. cbn. rewrite Hio4. split_and!; [| |done].
  - destruct (io s3) eqn:E. cbn in *. rewrite dom_delete_L, Hd3, Hd2, Hd1. clear -Hn1 Hd1. set_solver.
  - destruct (io s3) eqn:E. cbn in *. rewrite dom_delete_L, Hd3, Hd2, Hp3, Hp2. clear -Hp1. set_solver.
Qed.
End Handshake.

(** ** The server's own class, and a concrete server *)

Lemma getsockname_calm d a s : wp (getsockname (O := system) d a) (λ _ s', calm s s') (λ _, True) s.
Proof.
  unfold getsockname. apply wp_bind. destruct (syscall_calm s) as (r & s1 & Hv & Hc & _). eapply wp_val; [exact Hv|].
  apply wp_if; intros _; [by apply wp_ret|]. unfold on_io, zoom, wp. destruct (names (io s1)); [by destruct s1|].
  destruct s as [? []], s1 as [? []]. by destruct Hc as (? & ? & ? & ? & ?).
Qed.

Lemma udp_bind_calm d a s : wp (hev_socks5_server_udp_bind d a) (λ _ s', calm s s') (λ _, True) s.
Proof.
  unfold hev_socks5_server_udp_bind. eapply wp_bind_val; [reflexivity|]. apply wp_bind.
  eapply wp_mono; [apply getsockname_calm|intros [r a1] s1 Hc1|done]. apply wp_if; intros _; [by apply wp_ret|].
  unfold bind. destruct (syscall_calm s1) as (r2 & s2 & Hv & Hc2 & _). eapply wp_bind_val; [exact Hv|].
  pose proof (calm_trans _ _ _ Hc1 Hc2) as Hc. apply wp_if; intros _; [by apply wp_ret|]. apply wp_bind.
  eapply wp_mono; [apply getsockname_calm|intros [r3 a3] s3 Hc3|done].
  pose proof (calm_trans _ _ _ Hc Hc3). apply wp_if; intros _; by apply wp_ret.
Qed.

#[export] Instance HevSocks5Server_laws : ServerLaws.
Proof. split; intros d a s; [by apply wp_ret|apply udp_bind_calm]. Qed.

(** A client logs in as the first user of the authenticator and asks for 10.0.0.9:80;
    the connection is refused. *)
Definition login_stream : bytes := [5; 2; 0; 2; 1; 1; 97; 1; 1; 5; 1; 0; 1; 10; 0; 0; 9; 0; 80].
Definition login_world : world :=
  World 0 [] {[3 := Chan [RxData 5 [2; 0]; RxData 2 (drop 4 login_stream)] [] [] [] [] false]}
    [Some (Chan [] [] [] [] [] false)] [0; -111] [] [] ∅ {[3]} (config idle_world).
Definition login_server (g : object) : st system :=
  St (System (Server (set_fd 3 socks5_zero) (-1) (-1) g) {[1 := Authenticator 2 true (demo_state 4)]}) login_world.

#[local] Instance nameless : Resolver := {| inet_pton _ _ := None; getaddrinfo _ _ := None |}.

Lemma login_bytes : Forall is_byte login_stream.
Proof. repeat constructor; lia. Qed.

Lemma login_view g : sview 3 login_stream [] (login_server g).
Proof. split; [done|]. eexists. split_and!; reflexivity. Qed.

Lemma login_holds : holds demo_4 1 (login_server (AuthObject 1)).
Proof.
  split; [done|]. eexists. split_and!; [reflexivity|done|apply auth_reach_inv, demo_reach|].
  intros u e Hu. unfold demo_4, demo_3, demo_2, demo_1 in Hu. cbn [AuthMap.live] in Hu.
  destruct (decide (u = 16)) as [->|]; [rewrite lookup_insert_eq in Hu; injection Hu as <-; cbn; lia|].
  rewrite lookup_insert_ne in Hu by done.
  destruct (decide (u = 8)) as [->|]; [rewrite lookup_insert_eq in Hu; injection Hu as <-; cbn; lia|].
  by rewrite lookup_insert_ne, lookup_empty in Hu.
Qed.

Lemma login_polled g : polled (io (login_server g)) ⊆ dom (chans (io (login_server g))).
Proof.
  change (polled (io (login_server g))) with ({[3]} : gset Z). intros x ->%elem_of_singleton.
  apply elem_of_dom. by eexists.
Qed.

Lemma server_admission_witness :
  (sview 3 login_stream [] (login_server (AuthObject 1)) ∧ Forall is_byte login_stream ∧
    holds demo_4 1 (login_server (AuthObject 1))) ∧
  wp hev_socks5_server_handshake (λ r s',
    r = -1 ∧ dom (chans (io s')) = dom (chans (io (login_server (AuthObject 1)))) ∨
    ∃ ms name pass rest, login_stream = [5; zlen ms] ++ ms ++ [1; zlen name] ++ name ++ [zlen pass] ++ pass ++ rest ∧
      2 ∈ ms ∧ knows demo_4 name pass) (λ _, True) (login_server (AuthObject 1)).
Proof.
  split; [exact (conj (login_view _) (conj login_bytes login_holds))|].
  exact (server_admission 1 demo_4 3 login_stream [] (login_server (AuthObject 1)) (login_view _) login_bytes login_holds
    eq_refl eq_refl (login_polled _)).
Defined.

Lemma server_no_leak_witness :
  (sview 3 login_stream [] (login_server (AuthObject 1)) ∧ Forall is_byte login_stream ∧
    holds demo_4 1 (login_server (AuthObject 1))) ∧
  wp (hev_socks5_server_handshake;; hev_socks5_server_destruct) (λ _ s',
    dom (chans (io s')) = dom (chans (io (login_server (AuthObject 1)))) ∖ {[3]} ∧
    polled (io s') ⊆ dom (chans (io s')) ∧
    released (Some (1, demo_4)) (auths (self (login_server (AuthObject 1)))) (auths (self s'))) (λ _, True)
    (login_server (AuthObject 1)).
Proof.
  split; [exact (conj (login_view _) (conj login_bytes login_holds))|].
  apply (server_no_leak (Some (1, demo_4)) 3 login_stream [] (login_server (AuthObject 1)) ltac:(lia) (login_view _) login_bytes login_holds).
  - intros v [= <-]. reflexivity.
  - reflexivity.
  - reflexivity.
  - apply login_polled.
Defined.
