(* ===== verification/Interop.v ===== *)
(** * Interop: the server understands the client

    In an environment that delivers, the server's handshake on the very bytes that
    the client's handshake sends succeeds, and its replies are ones that complete
    the client's handshake. *)
From S2P Require Import Prelude Bytes Auth AuthMap TaskIO TaskIOSpec Socks5 Socks5Spec SocketSpec Splice UDP Client ClientSpec Handshake Server ServerSpec.

Section Smooth.
Context {O : Type} `{IsSocks5 O}.
Implicit Types s : st O.

(** The connection delivers [i], [o] was sent. *)
Definition smooth (d : Z) (i o : bytes) s : Prop :=
  fd (base (self s)) = d ∧ timeout (base (self s)) ≠ 0 ∧ ∃ c, ready d c s ∧ stream (rxq c) = i ∧ tx c = o.

(** What the next calls of the system answer stays, and no descriptor is closed. *)
Definition same_world s s' : Prop :=
  sockets (io s') = sockets (io s) ∧ answers (io s') = answers (io s) ∧ config (io s') = config (io s) ∧
  dom (chans (io s)) ⊆ dom (chans (io s')).
Definition quiet s s' : Prop := self s' = self s ∧ same_world s s'.

Lemma same_world_trans s s' s'' : same_world s s' → same_world s' s'' → same_world s s''.
Proof. intros (?&?&?&?) (?&?&?&?). split_and!; [congruence..|by etrans]. Qed.

Lemma quiet_trans s s' s'' : quiet s s' → quiet s' s'' → quiet s s''.
Proof. intros [H1 H1'] [H2 H2']. split; [congruence|by eapply same_world_trans]. Qed.

Lemma evolve_quiet d c s s' : evolve d c s s' → quiet s s'.
Proof.
  intros (w & e & ->). destruct s as [? []]. split; [done|]. split_and!; try done. cbn. rewrite dom_insert. set_solver.
Qed.

Lemma smooth_recv d b i o s n :
  smooth d (b ++ i) o s → n = zlen b → 0 < n →
  ∃ s', hev_task_io_socket_recv d n MSG_WAITALL (Some hev_socks5_task_io_yielder) s = Val (n, b) s' ∧
    smooth d i o s' ∧ quiet s s'.
Proof.
  intros (Hd & Ht & c & Hr & Hi & Ho) -> Hb.
  destruct (recv_ready _ hev_socks5_task_io_yielder d (zlen b) c s yielder_good Ht Hr) as (s' & q & Hv & He & Hst & Hr').
  { rewrite Hi, zlen_app. pose proof (zlen_nonneg i). lia. }
  rewrite Hi in *. unfold zlen in Hv, Hst. rewrite Nat2Z.id, take_app_length in Hv.
  rewrite Nat2Z.id, drop_app_length in Hst. pose proof (evolve_self _ _ _ _ He) as Hs.
  exists s'. split_and!; [exact Hv| |by eapply evolve_quiet]. unfold smooth. rewrite Hs.
  split_and!; [done|done|]. by exists (set_rxq q c).
Qed.

Lemma smooth_send d i o buf s :
  smooth d i o s → 0 < zlen buf →
  ∃ s', hev_task_io_socket_send d buf MSG_WAITALL (Some hev_socks5_task_io_yielder) s = Val (zlen buf) s' ∧
    smooth d i (o ++ buf) s' ∧ quiet s s'.
Proof.
  intros (Hd & Ht & c & Hr & Hi & Ho) Hb.
  destruct (send_ready _ hev_socks5_task_io_yielder d buf c s yielder_good Ht Hr Hb) as (s' & q & Hv & He & Hr').
  pose proof (evolve_self _ _ _ _ He) as Hs.
  exists s'. split_and!; [exact Hv| |by eapply evolve_quiet]. unfold smooth. rewrite Hs.
  split_and!; [done|done|]. eexists. split; [exact Hr'|]. cbn. by rewrite Ho.
Qed.
End Smooth.

(** ** The server's side *)

Section Server.
Context `{Resolver}.
Implicit Types s : st system.

Lemma read_method_smooth d ms i o s :
  smooth d ([5; zlen ms] ++ ms ++ i) o s → method_of (obj (server (self s))) ∈ ms →
  ∃ s', hev_socks5_server_read_auth_method s = Val (method_of (obj (server (self s)))) s' ∧ smooth d i o s' ∧ quiet s s'.
Proof using Type.
  intros Hs Hin. unfold hev_socks5_server_read_auth_method. erewrite bind_val by reflexivity. rewrite (proj1 Hs).
  destruct (smooth_recv d [5; zlen ms] (ms ++ i) o s 2 Hs) as (s1 & Hv & Hs1 & Hq1); [done|lia|].
  erewrite bind_val by exact Hv. cbv beta iota. change (negb (2 =? 2)) with false. cbv iota.
  erewrite bind_val by reflexivity. change (negb (5 =? HEV_SOCKS5_VERSION_5)) with false. cbv iota.
  erewrite bind_val by reflexivity. erewrite bind_val by reflexivity. rewrite (proj1 Hs1).
  destruct (smooth_recv d ms i o s1 (zlen ms) Hs1) as (s2 & Hv2 & Hs2 & Hq2); [done| |].
  { destruct ms; [by apply elem_of_nil in Hin|]. rewrite zlen_cons. pose proof (zlen_nonneg ms). lia. }
  erewrite bind_val by exact Hv2. cbv beta iota. rewrite Z.eqb_refl. cbv beta iota delta [negb].
  erewrite bind_val by reflexivity. exists s2. pose proof (quiet_trans _ _ _ Hq1 Hq2) as Hq.
  rewrite (proj1 Hq). fold (method_of (obj (server (self s)))). by rewrite bool_decide_eq_true_2.
Qed.

Definition creds_bytes (name pass : bytes) : bytes := [1; zlen name] ++ name ++ [zlen pass] ++ pass.

Lemma smooth_same d i o s s' : smooth d i o s → same_server s s' → smooth d i o s'.
Proof using Type.
  intros (Hd & Ht & c & [] & Hi & Ho) (Hb & _ & _ & Hio). split; [by rewrite Hb|]. split; [by rewrite Hb|].
  exists c. split; [|done]. split; rewrite ?Hio; done.
Qed.

Lemma same_server_world s s' : same_server s s' → same_world s s'.
Proof using Type. intros (_ & _ & _ & Hio). unfold same_world. by rewrite Hio. Qed.

Lemma read_user_smooth σ a d name pass i o s :
  smooth d (creds_bytes name pass ++ i) o s → holds σ a s → knows σ name pass → 0 < zlen name → 0 < zlen pass →
  ∃ s', hev_socks5_server_read_auth_user s = Val 0 s' ∧ smooth d i o s' ∧ same_world s s'.
Proof using Type.
  unfold creds_bytes. rewrite <- !app_assoc. intros Hs Hh Hk Hn Hp.
  unfold hev_socks5_server_read_auth_user. erewrite bind_val by reflexivity. rewrite (proj1 Hs).
  destruct (smooth_recv d [1; zlen name] _ o s 2 Hs) as (s1 & Hv & Hs1 & Hq1); [done|lia|].
  erewrite bind_val by exact Hv. cbv beta iota. change (negb (2 =? 2)) with false. cbv iota.
  erewrite bind_val by reflexivity. change (negb (1 =? 1)) with false. cbv iota. erewrite bind_val by reflexivity. cbv beta.
  destruct (Z.eqb_spec (zlen name) 0); [lia|].
  rewrite app_assoc in Hs1. destruct (smooth_recv d (name ++ [zlen pass]) _ o s1 (zlen name + 1) Hs1) as (s2 & Hv2 & Hs2 & Hq2);
    [by rewrite zlen_app|lia|].
  erewrite bind_val by exact Hv2. cbv beta iota. rewrite Z.eqb_refl. cbv beta iota delta [negb].
  assert (zget (name ++ [zlen pass]) (zlen name) = Some (zlen pass)) as Hz.
  { unfold zget, zlen. destruct (Z.leb_spec 0 (Z.of_nat (length name))); [|lia]. rewrite Nat2Z.id.
    rewrite lookup_app_r by done. by rewrite Nat.sub_diag. }
  erewrite bind_val by (rewrite Hz; reflexivity). cbv beta. destruct (Z.eqb_spec (zlen pass) 0); [lia|].
  destruct (smooth_recv d pass i o s2 (zlen pass) Hs2) as (s3 & Hv3 & Hs3 & Hq3); [done|lia|].
  erewrite bind_val by exact Hv3. cbv beta iota. rewrite Z.eqb_refl. cbv beta iota delta [negb].
  pose proof (quiet_trans _ _ _ (quiet_trans _ _ _ Hq1 Hq2) Hq3) as Hq.
  assert (holds σ a s3) as Hh3 by (unfold holds in *; by rewrite (proj1 Hq)).
  destruct (wp_never_val _ _ _ (login_spec σ a name [zlen pass] pass s3 Hh3)) as (r & s4 & Hv4 & Hsame & _ & Hr).
  destruct Hr as [[_ Hnk]|[-> _]]; [done|]. exists s4. split; [exact Hv4|]. split; [by eapply smooth_same|].
  eapply same_world_trans; [by eapply proj2|by apply same_server_world].
Qed.

(** What a guard asks of the client, and what it answers. *)
Definition guard_method (g : option (Z * spec)) : Z := match g with Some _ => 2 | None => 0 end.
Definition guard_ok (g : option (Z * spec)) (k : HevSocks5Client) : Prop :=
  match g with
  | None => has_auth k = false
  | Some (_, σ) => ∃ user pass, auth_user k = Some user ∧ auth_pass k = Some pass ∧
      0 < zlen user < 256 ∧ 0 < zlen pass < 256 ∧ knows σ user pass
  end.
Definition guard_reply (g : option (Z * spec)) : bytes := [5; guard_method g] ++ match g with Some _ => [1; 0] | None => [] end.

Lemma guard_msg g k pipeline a :
  guard_ok g k → handshake_msg pipeline k (guard_method g) a =
    [5; zlen [guard_method g]] ++ [guard_method g] ++
    match g, auth_user k, auth_pass k with Some _, Some user, Some pass => creds_bytes user pass | _, _, _ => [] end ++
    request_msg k a.
Proof using Type.
  unfold handshake_msg, methods_msg, guard_ok. destruct g as [[x σ]|].
  - intros (user & pass & Hu & Hp & Hlu & Hlp & _). unfold has_auth, creds_msg, creds_bytes. rewrite Hu, Hp.
    unfold u8. rewrite !Z.mod_small by lia. unfold zlen. rewrite !Nat2Z.id, !take_ge by done.
    change (guard_method _ =? 2) with true. rewrite orb_true_r. cbn. by rewrite <- !app_assoc.
  - intros Hh. rewrite Hh. assert (creds_msg k = []) as ->.
    { unfold creds_msg, has_auth in *. by destruct (auth_user k), (auth_pass k). }
    by destruct pipeline.
Qed.

Lemma auth_smooth g k d i o s :
  guard_ok g k → guarded g s →
  smooth d ([5; zlen [guard_method g]] ++ [guard_method g] ++
    match g, auth_user k, auth_pass k with Some _, Some user, Some pass => creds_bytes user pass | _, _, _ => [] end ++ i) o s →
  ∃ s', hev_socks5_server_auth s = Val 0 s' ∧ smooth d i (o ++ guard_reply g) s' ∧ same_world s s'.
Proof using Type.
  intros Hok Hg Hs. unfold hev_socks5_server_auth.
  assert (method_of (obj (server (self s))) = guard_method g) as Hm.
  { destruct g as [[x σ]|]; cbn in Hg; [by rewrite (proj1 Hg)|by rewrite Hg]. }
  destruct (read_method_smooth _ _ _ _ _ Hs) as (s1 & E1 & Hs1 & Hq1); [rewrite Hm; set_solver|].
  rewrite Hm in E1. erewrite bind_val by exact E1. unfold hev_socks5_server_write_auth_method.
  rewrite bind_assoc. erewrite bind_val by reflexivity. rewrite (proj1 Hs1).
  replace (u8 (guard_method g)) with (guard_method g) by (by destruct g).
  destruct (smooth_send d _ o [5; guard_method g] s1 Hs1) as (s2 & E2 & Hs2 & Hq2); [done|].
  rewrite bind_assoc. erewrite bind_val by exact E2. change (zlen [5; guard_method g] <=? 0) with false. cbv iota.
  erewrite bind_val by reflexivity. change (0 <? 0) with false. cbv iota.
  pose proof (quiet_trans _ _ _ Hq1 Hq2) as Hq. destruct g as [[x σ]|].
  - change (guard_method (Some (x, σ)) =? HEV_SOCKS5_AUTH_METHOD_NONE) with false.
    change (guard_method (Some (x, σ)) =? HEV_SOCKS5_AUTH_METHOD_USER) with true. cbv iota.
    destruct Hok as (user & pass & Hu & Hp & Hlu & Hlp & Hk). rewrite Hu, Hp in Hs2.
    assert (holds σ x s2) as Hh2 by (cbn in Hg; unfold holds in *; by rewrite (proj1 Hq)).
    destruct (read_user_smooth σ x d user pass i _ s2 Hs2 Hh2 Hk) as (s3 & E3 & Hs3 & Hc3); [lia|lia|].
    erewrite bind_val by exact E3. unfold hev_socks5_server_write_auth_user.
    rewrite bind_assoc. erewrite bind_val by reflexivity. rewrite (proj1 Hs3).
    destruct (smooth_send d i _ [1; 0] s3 Hs3) as (s4 & E4 & Hs4 & Hq4); [done|].
    rewrite bind_assoc. erewrite bind_val by exact E4. change (zlen [1; 0] <=? 0) with false. cbv iota.
    erewrite bind_val by reflexivity. exists s4. split; [done|]. split.
    + unfold guard_reply. cbn. by rewrite <- app_assoc in Hs4.
    + eapply same_world_trans; [by eapply proj2|]. eapply same_world_trans; [exact Hc3|by eapply proj2].
  - change (guard_method None =? HEV_SOCKS5_AUTH_METHOD_NONE) with true. cbv iota. exists s2.
    split; [done|]. split; [|by eapply proj2]. exact Hs2.
Qed.

(** The request for an address that the server can turn into a socket address. *)
Definition asks (a : bytes) (sa : sockaddr6) : Prop :=
  2 < zlen a ∧ zlen (sin6_addr sa) = 16 ∧
  ∀ rest fam, ∃ fam', hev_socks5_addr_into_sockaddr6 (a ++ rest) addr_zero fam = Some (0, sa, fam').

Lemma addr_parts a :
  wire_addr a → 2 < zlen a → ∃ t l body, a = t :: l :: body ∧ 0 < zlen body ∧
    (if t =? HEV_SOCKS5_ADDR_TYPE_IPV4 then Some 5 else if t =? HEV_SOCKS5_ADDR_TYPE_IPV6 then Some 17
     else if t =? HEV_SOCKS5_ADDR_TYPE_NAME then Some (2 + l) else None) = Some (zlen body).
Proof using Type.
  intros [Hl _] Hp. destruct a as [|t [|l body]]; [done|done|]. exists t, l, body.
  rewrite !zlen_cons in *. split; [done|]. split; [lia|]. unfold hev_socks5_addr_len in Hl.
  change (zget (t :: l :: body) 0) with (Some t) in Hl. change (zget (t :: l :: body) 1) with (Some l) in Hl.
  cbn [fmap option_fmap option_map] in Hl.
  repeat match type of Hl with context [if ?b then _ else _] => destruct b end;
    apply (inj Some) in Hl; f_equal; lia.
Qed.

Lemma overwrite_parts t l (body pad : bytes) :
  (2 <= length pad)%nat →
  overwrite (overwrite pad 0 [t; l]) 2 body = (t :: l :: body) ++ drop (length body) (drop 2 pad).
Proof using Type. intros Hp. destruct pad as [|? [|? pad]]; cbn in Hp; [lia|lia|done]. Qed.

Lemma read_request_smooth d a sa i o s :
  smooth d ([5; 1; 0] ++ a ++ i) o s → wire_addr a → asks a sa →
  ∃ s', hev_socks5_server_read_request s = Val (0, 0, Some 1, sa) s' ∧ smooth d i o s' ∧ same_world s s'.
Proof using Type.
  intros Hs Hw (Hsz & _ & Hin). destruct (addr_parts a Hw Hsz) as (t & l & body & -> & Hb & Hlen).
  unfold hev_socks5_server_read_request. erewrite bind_val by reflexivity. rewrite (proj1 Hs).
  destruct (smooth_recv d [5; 1; 0; t; l] (body ++ i) o s 5 Hs) as (s1 & E1 & Hs1 & Hq1); [done|lia|].
  erewrite bind_val by exact E1. cbv beta iota. change (negb (5 =? 5)) with false. cbv iota.
  erewrite bind_val by reflexivity. change (negb (5 =? HEV_SOCKS5_VERSION_5)) with false. cbv iota.
  erewrite bind_val by reflexivity. erewrite bind_val by reflexivity. cbv beta zeta. rewrite Hlen.
  destruct (smooth_recv d body i o s1 (zlen body) Hs1) as (s2 & E2 & Hs2 & Hq2); [done|lia|].
  erewrite bind_val by exact E2. cbv beta iota. rewrite Z.eqb_refl. cbv beta iota delta [negb].
  erewrite bind_val by reflexivity. rewrite overwrite_parts by (vm_compute; lia).
  edestruct (Hin (drop (length body) (drop 2 addr_undef))) as (fam' & Hf).
  erewrite bind_val by (rewrite Hf; reflexivity). cbv beta iota. change (0 <? 0) with false. cbv iota.
  eexists. split; [reflexivity|]. pose proof (quiet_trans _ _ _ Hq1 Hq2) as (_ & Hq).
  destruct Hs2 as (Hd & Ht & c & [] & Hi & Ho). split; [|done].
  split; [done|]. split; [done|]. exists c. by split.
Qed.

(** A timeout that is set stays set. *)
Lemma smooth_timeout d i o s v :
  smooth d i o s → v ≠ 0 →
  ∃ s', hev_socks5_set_timeout v s = Val tt s' ∧ smooth d i o s' ∧ io s' = io s ∧
    obj (server (self s')) = obj (server (self s)) ∧ auths (self s') = auths (self s) ∧
    fds0 (server (self s')) = fds0 (server (self s)).
Proof using Type.
  intros (Hd & Ht & c & [] & Hi & Ho) Hv. unfold hev_socks5_set_timeout. erewrite bind_val by reflexivity.
  unfold when, truthy. destruct (Z.eqb_spec (timeout (base (self s))) 0); [done|].
  eexists. split; [reflexivity|]. split; [|done]. split; [done|]. split; [done|]. exists c. by split.
Qed.

(** Another descriptor is opened. *)
Lemma smooth_opened d i o s s' e :
  smooth d i o s → opened e s s' → self s' = self s → wakes (io s') = wakes (io s) → smooth d i o s'.
Proof using Type.
  intros (Hd & Ht & c & [] & Hi & Ho) (_ & Hcl & (c' & Hc) & _) Hs Hw.
  split; [by rewrite Hs|]. split; [by rewrite Hs|]. exists c. split; [|done].
  split; rewrite ?Hc, ?Hw; try done. rewrite lookup_insert_ne; [done|]. intros ->. congruence.
Qed.

Lemma syscall_val s x l :
  answers (io s) = x :: l → 0 <= x → syscall s = Val x (St (self s) (set_answers l (io s))).
Proof using Type.
  intros Ha Hx. unfold syscall, on_io, zoom. rewrite Ha. by destruct (Z.ltb_spec x 0); [lia|].
Qed.

Lemma socket_smooth s c ls x l :
  sockets (io s) = Some c :: ls → answers (io s) = x :: l → 0 <= x →
  ∃ e s', hev_socks5_socket SOCK_STREAM s = Val e s' ∧ 0 < e ∧ opened e s s' ∧ self s' = self s ∧
    wakes (io s') = wakes (io s) ∧ answers (io s') = l ∧ config (io s') = config (io s).
Proof using Type.
  intros Hso Han Hx. pose proof (fresh_fd_closed s) as Hcl.
  pose proof (fresh_fd_pos (elements (dom (chans (io s))))) as Hpos.
  unfold hev_socks5_socket. set (e := 1 + _) in *.
  assert (socket s = Val e (St (self s) (set_sockets ls (put_chan e c (io s))))) as E0.
  { unfold socket, on_io, zoom. by rewrite Hso. }
  erewrite bind_val by exact E0. destruct (Z.ltb_spec e 0); [lia|].
  erewrite bind_val by (apply (syscall_val _ x l); [rewrite <- Han; by destruct (io s)|done]).
  destruct (Z.ltb_spec x 0); [lia|].
  match goal with |- ∃ _ _, _ ?t = _ ∧ _ =>
    destruct (register_spec e (mret e) t) as (s3 & E3 & Hs3 & _ & Hg3 & Hc3 & Hp3 & Hw3 & Ha3) end.
  exists e, s3. split; [exact E3|]. destruct s as [o i]. cbn [io self] in *. destruct i. cbn in *.
  split_and!; try done; [lia|]. split_and!; [lia|done|by exists c|done].
Qed.

Lemma connect_val d sa yl s y l :
  answers (io s) = y :: l → 0 <= y →
  hev_task_io_socket_connect d sa yl s = Val y (St (self s) (set_answers l (io s))).
Proof using Type.
  intros Ha Hy. unfold hev_task_io_socket_connect. erewrite bind_val by reflexivity. rewrite Ha. cbn [length connect_loop].
  erewrite bind_val by exact (syscall_val s y l Ha Hy). erewrite bind_val by reflexivity.
  by destruct (Z.ltb_spec y 0); [lia|].
Qed.

Lemma smooth_io d i o s l : smooth d i o s → smooth d i o (St (self s) (set_answers l (io s))).
Proof using Type. intros (Hd & Ht & c & [] & Hi & Ho). split; [done|]. split; [done|]. exists c. by split; [destruct s as [? []]|]. Qed.

(** Connecting where everything succeeds at once. *)
Lemma connect_smooth d sa c ls x y l i o s :
  smooth d i o s → sockets (io s) = Some c :: ls → answers (io s) = x :: y :: l → 0 <= x → 0 <= y →
  connect_timeout (config (io s)) ≠ 0 → tcp_timeout (config (io s)) ≠ 0 →
  ∃ s', hev_socks5_server_connect sa s = Val 0 s' ∧ smooth d i o s' ∧ opened (fds0 (server (self s'))) s s'.
Proof using Type.
  intros Hs Hso Han Hx Hy Hct Htt. unfold hev_socks5_server_connect.
  destruct (socket_smooth s c ls x (y :: l) Hso Han Hx) as (e & s1 & E1 & He & Ho1 & Hs1 & Hw1 & Ha1 & Hg1).
  pose proof (smooth_opened _ _ _ _ _ _ Hs Ho1 Hs1 Hw1) as Hsm1.
  erewrite bind_val by exact E1. destruct (Z.ltb_spec e 0); [lia|].
  erewrite bind_val by reflexivity. change (0 <? 0) with false. cbv iota.
  erewrite bind_val by reflexivity. idtac.
  destruct (smooth_timeout _ _ _ _ (connect_timeout (config (io s1))) Hsm1) as (s2 & E2 & Hsm2 & Hio2 & _); [by rewrite Hg1|].
  erewrite bind_val by exact E2.
  erewrite bind_val by (apply (connect_val _ _ _ _ y l); [by rewrite Hio2|done]).
  destruct (Z.ltb_spec y 0); [lia|]. apply (smooth_io _ _ _ _ l) in Hsm2. rewrite Hio2 in *.
  erewrite bind_val by reflexivity.
  destruct (smooth_timeout _ _ _ _ (tcp_timeout (config (io s1))) Hsm2) as (s3 & E3 & Hsm3 & Hio3 & _); [by rewrite Hg1|].
  erewrite bind_val; cycle 1.
  { exact E3. }
  erewrite bind_val by reflexivity. eexists. split; [reflexivity|]. split.
  - destruct Hsm3 as (Hd & Ht & c' & [] & Hi & Ho). split; [done|]. split; [done|]. exists c'. by split.
  - cbn. destruct Ho1 as (? & ? & (c' & Hc) & ?). rewrite Hio3. cbn. destruct (io s1). cbn in *.
    split_and!; [done|done|by exists c'|done].
Qed.

(** ** The whole handshake *)

Definition response_atype (sa : sockaddr6) : Z := if IN6_IS_ADDR_V4MAPPED (sin6_addr sa) then 1 else 4.
Definition response_addr (sa : sockaddr6) : bytes :=
  (if IN6_IS_ADDR_V4MAPPED (sin6_addr sa) then drop 12 (sin6_addr sa) else sin6_addr sa) ++ le16 (sin6_port sa).

Lemma response_smooth d sa i o s :
  smooth d i o s → zlen (sin6_addr sa) = 16 →
  ∃ s', hev_socks5_server_write_response 0 sa s = Val 0 s' ∧
    smooth d i (o ++ [5; 0; 0; response_atype sa] ++ response_addr sa) s' ∧ quiet s s'.
Proof using Type.
  intros Hs Ha. unfold hev_socks5_server_write_response. erewrite bind_val by reflexivity.
  pose proof (from_sockaddr6_wire addr_undef sa ltac:(vm_compute; done) Ha) as Hw.
  destruct (hev_socks5_addr_from_sockaddr6 addr_undef sa) as [len a]. cbn [fst snd] in Hw. rewrite Hw, (proj1 Hs).
  replace (_ ++ _) with ([5; 0; 0; response_atype sa] ++ response_addr sa).
  2:{ unfold response_atype, response_addr. by destruct (IN6_IS_ADDR_V4MAPPED _). }
  destruct (smooth_send d i o ([5; 0; 0; response_atype sa] ++ response_addr sa) s Hs) as (s' & E & Hs' & Hq').
  { rewrite zlen_app. pose proof (zlen_nonneg (response_addr sa)). change (zlen [5; 0; 0; response_atype sa]) with 4. lia. }
  erewrite bind_val by exact E. destruct (Z.leb_spec (zlen ([5; 0; 0; response_atype sa] ++ response_addr sa)) 0) as [Hle|].
  { rewrite zlen_app in Hle. pose proof (zlen_nonneg (response_addr sa)). change (zlen [5; 0; 0; response_atype sa]) with 4 in Hle. lia. }
  by exists s'.
Qed.


(** The replies that the client gets. *)
Definition server_replies (g : option (Z * spec)) (sa : sockaddr6) : replies :=
  Replies (guard_method g) 0 (response_atype sa) (response_addr sa).

Lemma server_replies_msg g sa :
  replies_msg (server_replies g sa) = guard_reply g ++ [5; 0; 0; response_atype sa] ++ response_addr sa.
Proof using Type. unfold replies_msg, auth_reply, guard_reply. by destruct g. Qed.

Lemma server_replies_valid g sa : zlen (sin6_addr sa) = 16 → valid_replies (server_replies g sa).
Proof using Type.
  intros Hl. split; cbn; [destruct g; by auto|]. unfold response_atype, response_addr.
  destruct (IN6_IS_ADDR_V4MAPPED _); [left|right]; split; try done; rewrite zlen_app; [|by rewrite Hl].
  unfold zlen in *. rewrite length_drop. cbn. lia.
Qed.

Lemma serve_smooth g k d i o s a sa c ls x y l :
  smooth d ([5; zlen [guard_method g]] ++ [guard_method g] ++
    match g, auth_user k, auth_pass k with Some _, Some user, Some pass => creds_bytes user pass | _, _, _ => [] end ++
    [5; 1; 0] ++ a ++ i) o s → guard_ok g k → guarded g s →
  tcp_timeout (config (io s)) ≠ 0 → connect_timeout (config (io s)) ≠ 0 →
  wire_addr a → asks a sa → sockets (io s) = Some c :: ls → answers (io s) = x :: y :: l → 0 <= x → 0 <= y →
  ∃ s', hev_socks5_server_handshake s = Val 0 s' ∧ smooth d i (o ++ replies_msg (server_replies g sa)) s' ∧
    chans (io s) !! fds0 (server (self s')) = None ∧ is_Some (chans (io s') !! fds0 (server (self s'))).
Proof using Type.
  intros Hs Hok Hg Htt Hct Hw Ha Hso Han Hx Hy. unfold hev_socks5_server_handshake. erewrite bind_val by reflexivity.
  destruct (smooth_timeout _ _ _ _ (tcp_timeout (config (io s))) Hs Htt) as (s1 & E1 & Hs1 & Hio1 & Hob1 & Hau1 & _).
  erewrite bind_val by exact E1.
  assert (guarded g s1) as Hg1 by (destruct g as [[]|]; cbn in *; unfold holds in *; by rewrite ?Hob1, ?Hau1).
  destruct (auth_smooth _ _ _ _ _ _ Hok Hg1 Hs1) as (s2 & E2 & Hs2 & Hw2). erewrite bind_val by exact E2.
  change (0 <? 0) with false. cbv iota.
  destruct (read_request_smooth _ _ _ _ _ _ Hs2 Hw Ha) as (s3 & E3 & Hs3 & Hw3). erewrite bind_val by exact E3.
  cbv beta iota. change (0 <? 0) with false. change (0 =? HEV_SOCKS5_RES_REP_SUCC) with true. cbv iota.
  destruct (same_world_trans _ _ _ Hw2 Hw3) as (Hso3 & Han3 & Hcf3 & Hdom3). rewrite Hio1 in *.
  rewrite <- Hso3 in Hso. rewrite <- Han3 in Han. rewrite <- Hcf3 in Htt, Hct.
  rewrite bind_assoc. erewrite bind_val by reflexivity. unfold handshake_command.
  change (1 =? HEV_SOCKS5_REQ_CMD_CONNECT) with true. cbv iota.
  destruct (connect_smooth _ sa _ _ _ _ _ _ _ _ Hs3 Hso Han Hx Hy Hct Htt) as (s4 & E4 & Hs4 & Hcl & Hop).
  rewrite bind_assoc. erewrite bind_val by exact E4. rewrite bind_assoc. erewrite bind_val by reflexivity.
  erewrite bind_val by reflexivity. change (0 <? 0) with false. cbv beta iota.
  set (s5 := St (set_base (set_type HEV_SOCKS5_TYPE_TCP (base (self s4))) (self s4)) (io s4)).
  assert (smooth d i (o ++ guard_reply g) s5) as Hs5.
  { destruct Hs4 as (Hd & Ht & c' & [] & Hi & Ho). split; [done|]. split; [done|]. exists c'. by split. }
  destruct (response_smooth _ sa _ _ _ Hs5 (proj1 (proj2 Ha))) as (s6 & E6 & Hs6 & Hq6).
  cbv beta iota. erewrite bind_val by exact E6. cbn [orb negb Z.ltb Z.compare].
  exists s6. split; [reflexivity|]. rewrite server_replies_msg, <- app_assoc in *. split; [exact Hs6|].
  assert (dom (chans (io s4)) ⊆ dom (chans (io s6))) as Hd46 by exact (proj2 (proj2 (proj2 (proj2 Hq6)))).
  rewrite (proj1 Hq6). change (fds0 (server (self s5))) with (fds0 (server (self s4))).
  destruct Hop as (Hnone & (c' & Hc4) & _). split.
  - apply not_elem_of_dom. intros Hin%Hdom3. apply not_elem_of_dom in Hnone. by apply Hnone.
  - apply elem_of_dom, Hd46, elem_of_dom. rewrite Hc4, lookup_insert_eq. by eexists.
Qed.

(** C17: client and server agree: a server without an authenticator (and a client
    without credentials), or a server whose authenticator knows the client's
    credentials, in environments that deliver what the other side sends, both
    complete their handshake, in both forms of the client's. The bytes that the
    client sends are exactly those that the server consumes, the replies of the
    server exactly those that the client consumes, what follows is left for the
    relay on both sides, and the server has opened the connection that was asked
    for. *)
Theorem client_server_agree g pipeline k d a sa c ls x y l rest more oc os (cl : st HevSocks5ClientTCP) s :
  easy k (replies_msg (server_replies g sa) ++ rest) oc cl → good_addr a cl → type (cbase k) = HEV_SOCKS5_TYPE_TCP →
  tcp_timeout (config (io cl)) ≠ 0 →
  smooth d (handshake_msg pipeline k (guard_method g) a ++ more) os s → guard_ok g k → guarded g s → asks a sa →
  tcp_timeout (config (io s)) ≠ 0 → connect_timeout (config (io s)) ≠ 0 →
  sockets (io s) = Some c :: ls → answers (io s) = x :: y :: l → 0 <= x → 0 <= y →
  ∃ cl' s' cc cs, hev_socks5_client_handshake pipeline cl = Val 0 cl' ∧ hev_socks5_server_handshake s = Val 0 s' ∧
    chans (io cl') !! fd (cbase k) = Some cc ∧ chans (io s') !! d = Some cs ∧
    tx cc = oc ++ handshake_msg pipeline k (guard_method g) a ∧ tx cs = os ++ replies_msg (server_replies g sa) ∧
    stream (rxq cc) = rest ∧ stream (rxq cs) = more ∧
    chans (io s) !! fds0 (server (self s')) = None ∧ is_Some (chans (io s') !! fds0 (server (self s'))).
Proof.
  intros He Hga Hty Htc Hs Hok Hg Ha Hts Hcs Hso Han Hx Hy.
  destruct (handshake_easy pipeline _ rest k 1 oc a cl He Htc (server_replies_valid g sa (proj1 (proj2 Ha))) Hga)
    as (cl' & cc & Ec & Hcc & Htx & Hrx); [by rewrite Hty|done|].
  rewrite guard_msg in Hs by done. unfold request_msg in Hs. rewrite Hty, <- !app_assoc in Hs.
  destruct (serve_smooth g k d more os s a sa c ls x y l) as (s' & Es & Hs' & Hn & Ho); try done.
  { by apply (good_addr_wire _ cl). }
  destruct Hs' as (_ & _ & cs & [Hcs' _ _ _ _] & Hrs & Hos).
  exists cl', s', cc, cs. by split_and!.
Qed.
End Server.

(** ** A concrete session

    The client of [Handshake] with the server's authenticator of [ServerSpec]. *)
#[local] Instance nameless : Resolver := {| inet_pton _ _ := None; getaddrinfo _ _ := None |}.

Definition pair_client : HevSocks5Client :=
  Client (Socks5 3 (-1) HEV_SOCKS5_TYPE_TCP false 2) (Some [97]) (Some [1]).
Definition pair_addr : bytes := wire_ipv4 [10; 0; 0; 9] 80.
Definition pair_sockaddr : sockaddr6 := ipv4_sockaddr [10; 0; 0; 9] 80.
Definition pair_guard : option (Z * spec) := Some (1, demo_4).

(** The replies of the server, in two segments with a pause between them. *)
Definition pair_left : st HevSocks5ClientTCP :=
  St (ClientTCP pair_client 1)
    (World 0 [7] {[3 := Chan [RxData 5 [2; 1; 0; 5]; RxAgain; RxData 0 [0; 1; 10; 0; 0; 9; 80; 0; 99]] [] [] [] [] false]}
      [] [] [] [] {[1 := pair_addr]} {[3]} (config idle_world)).

(** The messages of the client; a socket can be made and connected. *)
Definition pair_right : st system :=
  St (System (Server (set_tmo (-1) (set_fd 3 socks5_zero)) (-1) (-1) (AuthObject 1)) {[1 := Authenticator 2 true (AuthMap.demo_state 4)]})
    (World 0 [7] {[3 := Chan [RxData 5 [1; 2; 1; 1]; RxAgain; RxData 97 [1; 1; 5; 1; 0; 1; 10; 0; 0; 9; 80; 0; 71]] [] [] [] [] false]}
      [Some (Chan [] [] [] [] [] false)] [0; 0] [] [] ∅ {[3]} (config idle_world)).

Lemma pair_easy : easy pair_client (replies_msg (server_replies pair_guard pair_sockaddr) ++ [99]) [] pair_left.
Proof.
  split; [done|]. split; [done|]. eexists. split.
  - split; [reflexivity|repeat constructor|repeat constructor|cbn; lia|repeat constructor].
  - by vm_compute.
Qed.

Lemma pair_smooth : smooth 3 (handshake_msg false pair_client 2 pair_addr ++ [71]) [] pair_right.
Proof.
  split; [done|]. split; [done|]. eexists. split.
  - split; [reflexivity|repeat constructor|repeat constructor|cbn; lia|repeat constructor].
  - by vm_compute.
Qed.

Lemma pair_guard_ok : guard_ok pair_guard pair_client.
Proof.
  exists [97], [1]. split_and!; try done. eexists _, _. split_and!; [reflexivity|reflexivity|done].
Qed.

Lemma pair_asks : asks pair_addr pair_sockaddr.
Proof.
  split; [done|]. split; [done|]. intros rest fam. exists HEV_SOCKS5_ADDR_FAMILY_IPV4. by apply into_sockaddr6_ipv4.
Qed.

Lemma client_server_agree_witness :
  (easy pair_client (replies_msg (server_replies pair_guard pair_sockaddr) ++ [99]) [] pair_left ∧
    smooth 3 (handshake_msg false pair_client 2 pair_addr ++ [71]) [] pair_right ∧
    guard_ok pair_guard pair_client ∧ guarded pair_guard pair_right ∧ asks pair_addr pair_sockaddr) ∧
  ∃ cl' s' cc cs, hev_socks5_client_handshake false pair_left = Val 0 cl' ∧
    hev_socks5_server_handshake pair_right = Val 0 s' ∧
    chans (io cl') !! 3 = Some cc ∧ chans (io s') !! 3 = Some cs ∧
    tx cc = [5; 1; 2; 1; 1; 97; 1; 1; 5; 1; 0; 1; 10; 0; 0; 9; 80; 0] ∧
    tx cs = [5; 2; 1; 0; 5; 0; 0; 1; 10; 0; 0; 9; 80; 0] ∧
    stream (rxq cc) = [99] ∧ stream (rxq cs) = [71] ∧
    chans (io pair_right) !! fds0 (server (self s')) = None ∧ is_Some (chans (io s') !! fds0 (server (self s'))).
Proof.
  assert (guarded pair_guard pair_right) as Hg.
  { destruct (login_holds) as [Hob Hre]. split; [reflexivity|exact Hre]. }
  split; [exact (conj pair_easy (conj pair_smooth (conj pair_guard_ok (conj Hg pair_asks))))|].
  apply (client_server_agree pair_guard false pair_client 3 pair_addr pair_sockaddr (Chan [] [] [] [] [] false) [] 0 0 []
    [99] [71] [] [] pair_left pair_right pair_easy);
    [by vm_compute|done|done|exact pair_smooth|exact pair_guard_ok|exact Hg|exact pair_asks|done..].
Defined.
